(* ===== verification/_CoqProject ===== *)
-Q . S2P
Prelude.v
Messages.v
State.v
Validation.v
Verification.v
Token.v
Program.v
Handlers.v
Invariants.v
SignatureProof.v
Scenario.v
Safety.v
Governance.v
Radix.v
Hex.v
Text.v
Address.v
Rpc.v
Deposit.v
DepositDb.v
DepositDbProps.v
Indexer.v
IndexerProps.v
WithdrawalDb.v
WithdrawalDbProps.v
Coin.v
Builder.v
Vault.v
Assignment.v
Multisig.v
WithdrawalConfig.v
Epoch.v
Executor.v
ExecutorProps.v
ExecutorScenario.v
Accounts.v
SolanaInstruction.v
SolanaRpc.v
Discovery.v
Effects.v
ChainPass.v
Completion.v
CompletionProps.v
NodeClient.v
Adapter.v
Daemon.v
CompletionView.v
PayoutView.v
PayoutViewProps.v
PayoutScenario.v
Orchestrator.v
OrchestratorProps.v
MintScenario.v
GovernanceView.v
Sweep.v
SweepView.v
SweepViewProps.v
RateLimit.v
AuditLog.v
Policy.v
LocalView.v
SignerService.v
SignerServiceProps.v
Identity.v
Aggregation.v
Collector.v
Federation.v
FederationProps.v
OfflineAudit.v
OfflineAuditProps.v
Metrics.v
Solvency.v
Health.v
Loops.v
HealthProps.v
Configuration.v
Wallet.v
Preflight.v
TokenMetadata.v
Admin.v
