(* ===== verification/Prelude.v ===== *)
(** * GLC bridge: prelude (root file)

    A development about the Goldcoin-Solana bridge: an Anchor program that
    mints and burns wrapped GLC under a validator federation
    ([programs/glc-bridge]), the byte layouts both sides sign ([shared]), and
    the relayer that indexes Goldcoin deposits, assembles signature proofs
    and pays withdrawals ([relayer]).  Paths below are under [src/].

    ** How the parts interact

    A deposit to the vault carries the recipient in an OP_RETURN output.  The
    relayer's indexer records it ([glc/deposit.rs], [glc/db.rs],
    [glc/indexer.rs]), freezes the message to sign at the confirmation depth
    and re-checks it before every signature.  Signatures of the validators are
    packed into an Ed25519 instruction ([signer/aggregate.rs]) that the
    program's [verification.rs] parses in [mint_wrapped].  A user's
    [burn_wrapped] opens a withdrawal request; the relayer reserves vault
    outputs, commits to one payout, guards its signing
    ([glc/withdrawal_db.rs], [withdrawal/coin.rs], [withdrawal/builder.rs],
    [withdrawal/address.rs]) and the federation then closes the request with
    [complete_withdrawal].  Validator rotations and cap raises are proposed by
    the federation and executed after a timelock ([instructions/governance.rs]).
    Signatures are given by each validator's own signer process
    ([p2p/service.rs]), which derives what it signs from its own databases
    and node or from what its operator staged, and collected by the relayer
    ([p2p/collector.rs]) or by the operator's tool ([bin/glc-admin.rs]).  A
    health endpoint ([ops/]) and an auditor ([bin/glc-audit.rs]) watch the
    whole; users burn with [bin/glc-wallet.rs].

    ** Files

    - [Prelude]: results and their notation, machine integers, bytes,
      slices, sums, reflexive-transitive closure, the hash parameter.
    - [Messages]: [shared/src/claim.rs], [shared/src/governance.rs].
    - [State]: [state.rs], [constants.rs], [errors.rs], [events.rs].
    - [Validation]: [validation.rs].  [Verification]: [verification.rs].
    - [Token]: the interface of the SPL token program ([SplToken], its laws
      [SplTokenLaws], what it accepts [SplTokenAccepts], the instance
      [ledger]) and of the runtime ([Runtime]: the mint authority's address
      and the [hash] syscall).
    - [Program]: the instructions of [instructions/], one function each from
      the accounts to the new accounts and events or an error, and the dispatch
      [exec] of [lib.rs].  [TokenMetadata]: the two metadata instructions over
      the class [Metaplex], and the decoder that reads what they write.
    - [Handlers]: the abstract specification, a transition relation with one
      rule per instruction, and its equivalence with [exec].
    - [Invariants]: histories ([steps]) and the account invariant.
    - [Safety], [Governance]: theorems about all histories; [Scenario]: a
      concrete history the witnesses use.
    - [SignatureProof]: [relayer/src/signer/aggregate.rs].
    - [Radix], [Hex], [Address]: numerals, [glc/hex.rs],
      [withdrawal/address.rs].  [Text]: the text operations of the standard
      library the program uses (lines, trims, splits, number parsing).
    - [Rpc]: the types and the retry wrapper of [glc/rpc.rs].
    - [Deposit], [DepositDb], [DepositDbProps]: [glc/deposit.rs], [glc/db.rs].
    - [Indexer], [IndexerProps]: [glc/indexer.rs] over the class
      [GoldcoinRpc], in a state-and-error monad.
    - [WithdrawalDb], [WithdrawalDbProps]: [glc/withdrawal_db.rs].
    - [Coin], [Builder]: [withdrawal/coin.rs], [withdrawal/builder.rs].
    - [Vault], [Multisig]: [withdrawal/vault.rs], [withdrawal/multisig.rs]
      over the classes [Ripemd160] and [Secp256k1].
    - [Assignment], [WithdrawalConfig], [Epoch]: [withdrawal/assignment.rs],
      [withdrawal/config.rs], [solana/epoch.rs].
    - [Executor]: [withdrawal/executor.rs] over the class [PayoutRpc] (the
      trait of that file).  [ExecutorProps]: a proof rule per function of the
      tick, for any relation on databases that its single steps satisfy, and
      the theorems; [ExecutorScenario]: concrete ticks, and outputs a listing
      missed.
    - [Accounts]: the Borsh layouts of the program's accounts and the decoders
      of [solana/rpc.rs].  [SolanaInstruction]: [solana/instruction.rs] over
      the class [SolanaRuntime], and the calls the program expects.
      [SolanaRpc]: the trait and retry wrapper of [solana/rpc.rs].
    - [Discovery]: [withdrawal/discovery.rs].  [Effects]: the state-and-error
      monad with its Hoare-style rules.  [ChainPass]: a pass that reads the
      chain and sends transactions, with the rules for what it sends.
      [Completion], [CompletionProps]: [withdrawal/completion.rs] and
      [withdrawal/status.rs].
    - [NodeClient]: the client of [glc/rpc.rs] over the classes [SerdeJson]
      and [GoldcoinHttp].  [Adapter]: [withdrawal/adapter.rs], an instance of
      [PayoutRpc].  [Daemon]: the withdrawal pass of [main.rs] over it, and
      the passes of a relayer.
    - [CompletionView]: [p2p/completion_view.rs].  [PayoutView]:
      [p2p/payout_view.rs] over the class [PartialSigner]; [PayoutViewProps]:
      its theorems; [PayoutScenario]: concrete proposals.
    - [Orchestrator]: [relayer/src/orchestrator.rs] over the class
      [MintOutside].  [OrchestratorProps]: its theorems; [MintScenario]:
      concrete ticks.
    - [Sweep]: [withdrawal/sweep.rs].  [SweepView], [SweepViewProps]:
      [p2p/sweep_view.rs].  [GovernanceView]: [p2p/governance_view.rs].
    - [RateLimit], [AuditLog], [Policy], [LocalView]: [p2p/ratelimit.rs],
      [p2p/audit_log.rs], [p2p/policy.rs], [p2p/view.rs].  [SignerService],
      [SignerServiceProps]: the handlers of [p2p/service.rs] over all of
      them.
    - [Identity], [Aggregation], [Collector]: [p2p/identity.rs],
      [p2p/aggregation.rs], [p2p/collector.rs] over the classes [PeerNetwork]
      and [Ed25519].  [Federation]: [withdrawal/federation.rs].
      [FederationProps]: the collectors composed with what uses them.
    - [OfflineAudit], [OfflineAuditProps]: [ops/audit.rs] and
      [bin/glc-audit.rs].  [Metrics], [Solvency], [Health], [HealthProps]:
      [ops/metrics.rs], [ops/solvency.rs], and [ops/health.rs],
      [ops/indexer_status.rs], [ops/collector.rs].  [Loops]: one turn of each
      loop of [main.rs].
    - [Configuration]: [glc/config.rs], [solana/config.rs], the start of
      [main.rs] and the start of [bin/signer-server.rs].
    - [Wallet]: [bin/glc-wallet.rs] and [ops/withdraw_preflight.rs].
      [Preflight]: [ops/preflight.rs].  [Admin]: [bin/glc-admin.rs].

    ** State and operations

    The program's accounts are the record [Program.Bridge]: the config, the
    validator set and the pending action as options, deposit claims keyed by
    outpoint, withdrawal requests by index, and the token state of the SPL
    interface.  A transaction either returns the whole new state or an error
    and changes nothing, as on chain.  An SQLite database is a record of
    tables, a table a finite map by primary key or a list in insertion order;
    an operation returns the new tables and a result, and a transaction that
    is dropped returns the old ones.  Machine integers are [Z] with their
    checks and wrap-arounds written out; byte strings are [list byte].

    ** What the theorems show

    - value: supply and burned withdrawals never exceed what was minted; no
      deposit is minted and no withdrawal completed twice; only statements the
      honest federation endorsed take effect; a pause freezes value.
    - governance: set changes and cap raises wait for their timelock, a due
      proposal can always be executed, the admin hands over by consent.
    - messages and proofs: the signed layouts are injective and disjoint, the
      on-chain parser counts exactly the signatures present, and the proofs
      the relayer builds are the ones it accepts.
    - deposits: the database invariant and append-only history, the
      pre-signing safeguard, the indexer's fork search, promotion and tick.
    - withdrawals: a payout is committed once, its inputs are its own, it is
      signed at most once, and nothing about it changes afterwards; the guard,
      coin selection and transaction verification decide exactly what they
      should; addresses and hashes correspond one to one.
    - vault: redeem scripts and vaults correspond one to one, the transaction
      codec round trips, assembly succeeds exactly on a full quorum of valid
      signatures and its result satisfies the vault's script.
    - executor: a tick acts only by the database's operations, sends only
      what is durably recorded as signed and, when it has a reader of the
      chain, right after the chain said the withdrawal is open, and records
      as signed only vault spends; operators agree on who builds.
    - chain interface: the decoders and builders of the relayer match the
      program's layouts and accounts; open requests, and only those, are
      discovered; a completion is sent only with local facts and a threshold
      of signatures, and the program accepts what is sent.
    - co-signing: a validator attests exactly its own confirmed payouts and
      signs exactly the payout its own executor recorded; what an adoption of
      another operator's payout does not check, and never accepts.
    - the signer: in any interleaving of requests a validator signs what its
      own databases justify and never two statements that contradict each
      other, but for two requests of one identity that are between the two
      locks of [handle] at once; a sweep or a governance action is signed
      only as an operator staged it, once, and the sweep transaction is the
      approved one.
    - the federation: rounds end in time whatever the peers do, partials
      follow the designated quorum, and the program's verdict on a collected
      proof is known when it is sent.
    - operations: a clean audit means what the guards mean, an executor never
      dirties it; a relayer that has caught up raises no solvency alarm and a
      halted indexer is reported.
    - processes: a relayer or a signer that starts is consistent with itself;
      what a wallet or an operator's tool sends the program accepts, what an
      operator stages his signer grants unless it has signed otherwise, and the checks before a submission
      agree with the program.

    ** Bounds and fuel

    [Indexer.fork_loop] runs with fuel [from_height + 2], one more than the
    heights it can visit; [Radix.carry_digits] with 32 turns, enough for a
    32-bit carry in any base; [Rpc.retry_loop] is structural on the attempts
    left; the loops of [Text] on the bytes left; [Multisig.times] on the
    count; [Vault.parse_keys] and [Multisig.parse_pushes] run with the length
    of the script as fuel, and every turn consumes a byte.  Totals of coin are
    assumed below [2^64] where a theorem says so ([Coin.fits]).  The rate
    limiter's [f64] are the binary64 of [SpecFloat].

    ** Interleaving

    A signer's requests run concurrently.  [SignerService.handle] takes the
    lock of the seen set twice, so [SignerServiceProps] steps its two halves,
    [evaluate_request] and [settle], separately and in any order; every other
    handler decides under one lock and is one step.  Other processes change
    the databases, the epoch and the node between any two steps.

    ** Not modelled, and why

    Ed25519, ECDSA, SHA-256 and RIPEMD-160 are classes, with the laws used;
    the SPL token and Metaplex programs are interfaces with their documented
    laws and concrete instances.  HTTP, gRPC, TLS, SQLite itself, schema
    migrations, key files, sockets and the spawning of tasks are I/O.  The
    texts the tools and logs print, the status listing of [bin/glc-admin.rs]
    and the test-only in-process collector of [withdrawal/federation.rs] are
    left out; so are the module lists and the placeholder modules of
    [shared]. *)
From Stdlib Require Import ZArith Lia Strings.Byte.
From stdpp Require Import base numbers strings gmap fin_maps list.

Declare Scope glc_scope.
Delimit Scope glc_scope with glc.
#[global] Open Scope Z_scope.

(** ** Results: [Result<A, E>] with [?], [ok_or] and [require!] *)

Inductive result (E A : Type) : Type :=
| Ok (a : A)
| Err (e : E).
Arguments Ok {E A} _.
Arguments Err {E A} _.

#[export] Instance result_ret E : MRet (result E) := fun A a => Ok a.
#[export] Instance result_bind E : MBind (result E) :=
  fun A B f r => match r with Ok a => f a | Err e => Err e end.
#[export] Instance result_fmap E : FMap (result E) :=
  fun A B f r => match r with Ok a => Ok (f a) | Err e => Err e end.

#[export] Instance result_eq_dec E A `{EqDecision E, EqDecision A} :
  EqDecision (result E A).
Proof. solve_decision. Defined.

(** [opt.ok_or(e)] *)
Definition ok_or {E A} (o : option A) (e : E) : result E A :=
  match o with Some a => Ok a | None => Err e end.

(** Anchor's [require!(b, e)] and the relayer's [if !b { return Err(e) }]. *)
Definition require {E} (b : bool) (e : E) : result E unit :=
  if b then Ok tt else Err e.

(** [r.map_err(f)] *)
Definition map_err {E F A} (f : E -> F) (r : result E A) : result F A :=
  match r with Ok a => Ok a | Err e => Err (f e) end.

Notation "'let*' x ':=' r 'in' k" := (mbind (fun x => k) r)
  (at level 10, x pattern, r at level 100, k at level 200) : glc_scope.
Notation "r ;;* k" := (mbind (fun _ => k) r)
  (at level 100, right associativity) : glc_scope.
#[global] Open Scope glc_scope.

Section results.
Context {E : Type}.

Lemma bind_Ok {A B} (f : A -> result E B) (r : result E A) b :
  mbind f r = Ok b <-> exists a, r = Ok a /\ f a = Ok b.
Proof. destruct r; cbn; naive_solver. Qed.

Lemma bind_Err {A B} (f : A -> result E B) (r : result E A) e :
  mbind f r = Err e <-> r = Err e \/ exists a, r = Ok a /\ f a = Err e.
Proof. destruct r; cbn; naive_solver. Qed.

Lemma require_Ok b (e : E) u : require b e = Ok u <-> b = true.
Proof. destruct b, u; cbn; naive_solver. Qed.

Lemma require_Err b (e e' : E) : require b e = Err e' <-> b = false /\ e = e'.
Proof. destruct b; cbn; naive_solver. Qed.

Lemma ok_or_Ok {A} (o : option A) (e : E) a : ok_or o e = Ok a <-> o = Some a.
Proof. destruct o; cbn; naive_solver. Qed.

Lemma ok_or_Err {A} (o : option A) (e e' : E) : ok_or o e = Err e' <-> o = None /\ e = e'.
Proof. destruct o; cbn; naive_solver. Qed.
End results.

Lemma map_err_Ok {E F A} (f : E -> F) (r : result E A) a : map_err f r = Ok a <-> r = Ok a.
Proof. destruct r; cbn; naive_solver. Qed.

(** [for a in l { f(a)?; }] and a loop with an accumulator. *)
Fixpoint for_each {E A} (f : A -> result E unit) (l : list A) : result E unit :=
  match l with
  | [] => Ok tt
  | a :: l => f a ;;* for_each f l
  end.
Fixpoint foldM {E A B} (f : B -> A -> result E B) (acc : B) (l : list A) : result E B :=
  match l with
  | [] => Ok acc
  | a :: l => let* acc' := f acc a in foldM f acc' l
  end.

Lemma for_each_Ok {E A} (f : A -> result E unit) l u :
  for_each f l = Ok u <-> Forall (fun a => f a = Ok tt) l.
Proof.
  destruct u. induction l as [|a l IH]; cbn [for_each]; [naive_solver|].
  rewrite bind_Ok, List.Forall_cons_iff, <- IH. split; [intros ([] & ? & ?)|]; naive_solver.
Qed.

(** A loop over guards with one error fails with that error or succeeds. *)
Lemma for_each_require {E A} (b : A -> bool) (e : E) l :
  for_each (fun a => require (b a) e) l = require (forallb b l) e.
Proof. induction l as [|a l IH]; [done|]. cbn. rewrite IH. by destruct (b a). Qed.

Lemma foldM_invariant {E A B} (P : B -> Prop) (f : B -> A -> result E B) acc l acc' :
  (forall b a b', P b -> f b a = Ok b' -> P b') ->
  P acc -> foldM f acc l = Ok acc' -> P acc'.
Proof.
  intros Hf. revert acc. induction l as [|a l IH]; intros acc HP; cbn [foldM].
  - by intros [= <-].
  - intros (b & ? & ?)%bind_Ok. eauto.
Qed.

Create Rewrite HintDb res_db.
#[export] Hint Rewrite @bind_Ok @require_Ok @ok_or_Ok : res_db.

(** Inverts a hypothesis saying that a monadic computation returned [Ok]:
    every bind, guard and [ok_or] on the way becomes a hypothesis. *)
Ltac res_step :=
  match goal with
  | H : mbind _ _ = Ok _ |- _ => apply bind_Ok in H as (? & ? & ?)
  | H : require _ _ = Ok _ |- _ => apply require_Ok in H
  | H : ok_or _ _ = Ok _ |- _ => apply ok_or_Ok in H
  | H : Ok _ = Ok _ |- _ => injection H as H
  | H : Err _ = Ok _ |- _ => discriminate H
  | H : Ok _ = Err _ |- _ => discriminate H
  | H : (_, _) = (_, _) |- _ => injection H as ? ?
  | H : Some _ = Some _ |- _ => injection H as H
  | H : mret _ = Ok _ |- _ => unfold mret, result_ret in H
  | H : (let (_, _) := ?p in _) = Ok _ |- _ => destruct p eqn:?
  end.
Ltac res_inv := repeat res_step.

(** Computes through binds and guards whose outcome is known. *)
Ltac res_red := cbn [mbind result_bind require ok_or andb negb].

(** Turns the boolean tests of the code into propositions. *)
Ltac bool_step :=
  match goal with
  | H : (_ && _)%bool = true |- _ => apply andb_true_iff in H as [? ?]
  | H : (_ || _)%bool = false |- _ => apply orb_false_iff in H as [? ?]
  | H : negb _ = true |- _ => apply negb_true_iff in H
  | H : negb _ = false |- _ => apply negb_false_iff in H
  | H : bool_decide _ = true |- _ => apply bool_decide_eq_true in H
  | H : bool_decide _ = false |- _ => apply bool_decide_eq_false in H
  | H : (_ <=? _) = true |- _ => apply Z.leb_le in H
  | H : (_ <=? _) = false |- _ => apply Z.leb_gt in H
  | H : (_ <? _) = true |- _ => apply Z.ltb_lt in H
  | H : (_ <? _) = false |- _ => apply Z.ltb_ge in H
  | H : (_ =? _) = true |- _ => apply Z.eqb_eq in H
  | H : (_ =? _) = false |- _ => apply Z.eqb_neq in H
  end.
Ltac bools := repeat bool_step.
Ltac res_solve := res_inv; bools; simplify_eq/=; eauto.

(** ** Machine integers: [Z] with the width written out *)

Definition U8_MAX : Z := 2 ^ 8 - 1.
Definition U16_MAX : Z := 2 ^ 16 - 1.
Definition U32_MAX : Z := 2 ^ 32 - 1.
Definition U64_MAX : Z := 2 ^ 64 - 1.
Definition I64_MAX : Z := 2 ^ 63 - 1.
Definition I64_MIN : Z := - 2 ^ 63.

Definition in_u8 (z : Z) : Prop := 0 <= z <= U8_MAX.
Definition in_u16 (z : Z) : Prop := 0 <= z <= U16_MAX.
Definition in_u32 (z : Z) : Prop := 0 <= z <= U32_MAX.
Definition in_u64 (z : Z) : Prop := 0 <= z <= U64_MAX.
Definition in_i64 (z : Z) : Prop := I64_MIN <= z <= I64_MAX.
#[export] Hint Unfold in_u8 in_u16 in_u32 in_u64 in_i64 : core.

(** [u64::checked_add], [i64::checked_add], [u32::checked_add] *)
Definition u64_checked_add (a b : Z) : option Z :=
  if a + b <=? U64_MAX then Some (a + b) else None.
Definition u32_checked_add (a b : Z) : option Z :=
  if a + b <=? U32_MAX then Some (a + b) else None.
Definition i64_checked_add (a b : Z) : option Z :=
  if (I64_MIN <=? a + b) && (a + b <=? I64_MAX) then Some (a + b) else None.
(** [u64::saturating_add], [u64::saturating_sub], [u64::saturating_mul],
    [i64::saturating_sub] *)
Definition u64_saturating_add (a b : Z) : Z := Z.min U64_MAX (a + b).
Definition u64_saturating_sub (a b : Z) : Z := Z.max 0 (a - b).
Definition u64_saturating_mul (a b : Z) : Z := Z.min U64_MAX (a * b).
Definition i64_saturating_sub (a b : Z) : Z := Z.max I64_MIN (Z.min I64_MAX (a - b)).
(** Two's complement [as i64] and wrapping [i64] subtraction. *)
Definition wrap_i64 (z : Z) : Z := (z + 2 ^ 63) mod 2 ^ 64 - 2 ^ 63.
(** [as u8], [as u16], [as u32], [as u64] *)
Definition as_u8 (z : Z) : Z := z mod 2 ^ 8.
Definition as_u16 (z : Z) : Z := z mod 2 ^ 16.
Definition as_u32 (z : Z) : Z := z mod 2 ^ 32.
Definition as_u64 (z : Z) : Z := z mod 2 ^ 64.

Lemma u64_checked_add_Some a b c :
  u64_checked_add a b = Some c <-> c = a + b /\ a + b <= U64_MAX.
Proof. unfold u64_checked_add. case_match; bools; naive_solver lia. Qed.

Lemma i64_checked_add_Some a b c :
  i64_checked_add a b = Some c <-> c = a + b /\ I64_MIN <= a + b <= I64_MAX.
Proof.
  unfold i64_checked_add. destruct (_ && _) eqn:Hb; bools; [naive_solver lia|].
  apply andb_false_iff in Hb as [Hb|Hb]; bools; naive_solver lia.
Qed.

(** ** Bytes and little-endian integers *)

#[export] Instance byte_eq_dec : EqDecision byte := Byte.byte_eq_dec.
#[export] Program Instance byte_countable : Countable byte :=
  inj_countable Byte.to_N Byte.of_N _.
Next Obligation. apply Byte.of_to_N. Qed.

Definition byte_of_Z (z : Z) : byte := default x00 (Byte.of_N (Z.to_N (z mod 256))).
Definition byte_to_Z (b : byte) : Z := Z.of_N (Byte.to_N b).

(** [to_le_bytes] of an [n]-byte integer (two's complement for signed ones)
    and its inverse [from_le_bytes] for unsigned ones. *)
Fixpoint le_bytes (n : nat) (z : Z) : list byte :=
  match n with
  | O => []
  | S n => byte_of_Z z :: le_bytes n (z / 256)
  end.
Fixpoint le_val (bs : list byte) : Z :=
  match bs with
  | [] => 0
  | b :: bs => byte_to_Z b + 256 * le_val bs
  end.

Lemma byte_to_Z_bound b : 0 <= byte_to_Z b < 256.
Proof. unfold byte_to_Z. pose proof (Byte.to_N_bounded b). lia. Qed.

Lemma byte_to_of_Z z : byte_to_Z (byte_of_Z z) = z mod 256.
Proof.
  unfold byte_to_Z, byte_of_Z. pose proof (Z.mod_pos_bound z 256).
  destruct (Byte.of_N _) eqn:E; cbn.
  - apply Byte.to_of_N in E. rewrite E. lia.
  - apply Byte.of_N_None_iff in E. lia.
Qed.

Lemma byte_of_to_Z b : byte_of_Z (byte_to_Z b) = b.
Proof.
  unfold byte_of_Z. pose proof (byte_to_Z_bound b).
  rewrite Z.mod_small by done. unfold byte_to_Z. by rewrite N2Z.id, Byte.of_to_N.
Qed.

Lemma byte_to_Z_inj b1 b2 : byte_to_Z b1 = byte_to_Z b2 -> b1 = b2.
Proof. intros H. rewrite <- (byte_of_to_Z b1), <- (byte_of_to_Z b2). by f_equal. Qed.

Lemma length_le_bytes n z : length (le_bytes n z) = n.
Proof. revert z; induction n; cbn; auto. Qed.

Lemma le_val_bound bs : 0 <= le_val bs < 256 ^ Z.of_nat (length bs).
Proof.
  induction bs as [|b bs IH]; cbn [le_val length]; [lia|].
  rewrite Nat2Z.inj_succ, Z.pow_succ_r by lia. pose proof (byte_to_Z_bound b). nia.
Qed.

Lemma le_val_le_bytes n z : le_val (le_bytes n z) = z mod 256 ^ Z.of_nat n.
Proof.
  revert z; induction n as [|n IH]; intros z; cbn [le_val le_bytes].
  { by rewrite Z.mod_1_r. }
  rewrite IH, byte_to_of_Z, Nat2Z.inj_succ, Z.pow_succ_r by lia.
  by rewrite Z.rem_mul_r by lia.
Qed.

Lemma le_bytes_le_val bs : le_bytes (length bs) (le_val bs) = bs.
Proof.
  induction bs as [|b bs IH]; cbn [le_val le_bytes length]; [done|].
  pose proof (byte_to_Z_bound b). f_equal.
  - rewrite <- (byte_of_to_Z b) at 2. unfold byte_of_Z.
    by rewrite (Z.mul_comm 256), Z.mod_add by lia.
  - etrans; [|exact IH]. f_equal.
    rewrite (Z.mul_comm 256), Z.div_add, Z.div_small by lia. lia.
Qed.

Lemma le_bytes_inj n a b :
  0 <= a < 256 ^ Z.of_nat n -> 0 <= b < 256 ^ Z.of_nat n ->
  le_bytes n a = le_bytes n b -> a = b.
Proof.
  intros Ha Hb Heq. apply (f_equal le_val) in Heq.
  rewrite !le_val_le_bytes in Heq. by rewrite !Z.mod_small in Heq.
Qed.

(** Signed [i64] encodings agree only on equal values. *)
Lemma le_bytes_i64_inj a b :
  in_i64 a -> in_i64 b -> le_bytes 8 a = le_bytes 8 b -> a = b.
Proof.
  unfold in_i64, I64_MIN, I64_MAX. intros Ha Hb Heq. apply (f_equal le_val) in Heq.
  rewrite !le_val_le_bytes in Heq.
  change (256 ^ Z.of_nat 8) with (2 ^ 64) in Heq.
  pose proof (Z.div_mod a (2 ^ 64)). pose proof (Z.div_mod b (2 ^ 64)).
  assert (-1 <= a / 2 ^ 64 <= 0 /\ -1 <= b / 2 ^ 64 <= 0) as [? ?].
  { split; split; (apply Z.div_le_lower_bound || apply Z.lt_succ_r, Z.div_lt_upper_bound); lia. }
  nia.
Qed.

(** ** Byte ranges: [data.get(a..b)] and [dst[off..off+n].copy_from_slice(src)] *)

Definition get_range (d : list byte) (a b : nat) : option (list byte) :=
  if (a <=? b)%nat && (b <=? length d)%nat then Some (take (b - a) (drop a d)) else None.

Definition splice (d : list byte) (off : nat) (src : list byte) : list byte :=
  take off d ++ src ++ drop (off + length src) d.

Lemma get_range_Some d a b x :
  get_range d a b = Some x <->
  (a <= b)%nat /\ (b <= length d)%nat /\ x = take (b - a) (drop a d).
Proof.
  unfold get_range.
  destruct (Nat.leb_spec a b), (Nat.leb_spec b (length d)); cbn; naive_solver lia.
Qed.

Lemma get_range_length d a b x : get_range d a b = Some x -> length x = (b - a)%nat.
Proof.
  intros (? & ? & ->)%get_range_Some. rewrite length_take, length_drop. lia.
Qed.

Lemma get_range_app p x s a b :
  a = length p -> b = (length p + length x)%nat -> get_range (p ++ x ++ s) a b = Some x.
Proof.
  intros -> ->. apply get_range_Some. rewrite !length_app.
  split_and!; [lia..|]. rewrite drop_app_length.
  replace (length p + length x - length p)%nat with (length x) by lia.
  by rewrite take_app_length.
Qed.

Lemma length_splice d off x :
  (off + length x <= length d)%nat -> length (splice d off x) = length d.
Proof. intros. unfold splice. rewrite !length_app, length_take, length_drop. lia. Qed.

(** Reading back what was just written, and reading elsewhere. *)
Lemma get_range_splice_same d off x b :
  (off + length x <= length d)%nat -> b = (off + length x)%nat ->
  get_range (splice d off x) off b = Some x.
Proof.
  intros Hle ->. unfold splice. apply get_range_app; rewrite ?length_take; lia.
Qed.

Lemma get_range_splice_other d off x a b :
  (off + length x <= length d)%nat -> (b <= off \/ off + length x <= a)%nat ->
  get_range (splice d off x) a b = get_range d a b.
Proof.
  intros Hle Hdis. unfold get_range. rewrite length_splice by done.
  destruct (Nat.leb_spec a b), (Nat.leb_spec b (length d)); cbn; [|done..].
  f_equal. unfold splice. destruct Hdis as [Hb|Ha].
  - rewrite drop_app_le by (rewrite length_take; lia).
    rewrite take_app_le by (rewrite length_drop, length_take; lia).
    rewrite <- (take_drop off d) at 2.
    rewrite drop_app_le by (rewrite length_take; lia).
    by rewrite take_app_le by (rewrite length_drop, length_take; lia).
  - rewrite (drop_app_ge (take off d)) by (rewrite length_take; lia).
    rewrite length_take, drop_app_ge by lia.
    rewrite drop_drop. do 2 f_equal. lia.
Qed.

Lemma splice_full d x : length d = length x -> splice d 0 x = x.
Proof. intros H. unfold splice. cbn. by rewrite drop_ge, app_nil_r by lia. Qed.

(** Two writes side by side are one write of the concatenation. *)
Lemma splice_adjacent d off x y off' :
  off' = (off + length x)%nat -> (off + length x + length y <= length d)%nat ->
  splice (splice d off x) off' y = splice d off (x ++ y).
Proof.
  intros -> Hle. unfold splice.
  rewrite (take_app_ge (take off d)) by (rewrite length_take; lia).
  rewrite length_take, Nat.min_l by lia.
  replace (off + length x - off)%nat with (length x) by lia.
  rewrite take_app_length, <- app_assoc. f_equal. rewrite <- app_assoc. do 2 f_equal.
  rewrite drop_app_ge by (rewrite length_take; lia).
  rewrite drop_app_ge by (rewrite length_take; lia).
  rewrite drop_drop, length_take, length_app. f_equal. lia.
Qed.

(** ** Sums over lists and finite maps *)

Definition sumZ {A} (f : A -> Z) (l : list A) : Z := foldr (fun a s => f a + s) 0 l.

Lemma sumZ_app {A} (f : A -> Z) l k : sumZ f (l ++ k) = sumZ f l + sumZ f k.
Proof. induction l as [|a l IH]; cbn; [done|]. unfold sumZ in *. lia. Qed.

Lemma sumZ_nonneg {A} (f : A -> Z) l : Forall (fun a => 0 <= f a) l -> 0 <= sumZ f l.
Proof. induction 1; cbn; [lia|]. unfold sumZ in *. lia. Qed.

Definition map_sum `{Countable K} {V} (f : V -> Z) (m : gmap K V) : Z :=
  map_fold (fun _ v s => f v + s) 0 m.

Section map_sum.
Context `{Countable K} {V : Type} (f : V -> Z).
Implicit Types m : gmap K V.

Lemma map_sum_empty : map_sum f (∅ : gmap K V) = 0.
Proof. apply map_fold_empty. Qed.

Lemma map_sum_insert_None m k v :
  m !! k = None -> map_sum f (<[k := v]> m) = f v + map_sum f m.
Proof. intros Hk. apply (map_fold_insert_L (fun _ v s => f v + s)); [intros; lia|done]. Qed.

Lemma map_sum_delete m k v :
  m !! k = Some v -> map_sum f m = f v + map_sum f (delete k m).
Proof. intros Hk. apply (map_fold_delete_L (fun _ v s => f v + s)); [intros; lia|done]. Qed.

Lemma map_sum_insert m k v v' :
  m !! k = Some v -> map_sum f (<[k := v']> m) = f v' - f v + map_sum f m.
Proof.
  intros Hk. rewrite (map_sum_delete m k v) by done.
  rewrite <- (insert_delete_eq m), map_sum_insert_None by apply lookup_delete_eq. lia.
Qed.
End map_sum.

Create Rewrite HintDb sums.
#[export] Hint Rewrite @sumZ_app @map_sum_empty : sums.

(** ** Finite executions of a step relation *)

Section star.
Context {S : Type} (step : S -> S -> Prop).

Inductive star : S -> S -> Prop :=
| star_refl s : star s s
| star_step s1 s2 s3 : star s1 s2 -> step s2 s3 -> star s1 s3.

Lemma star_invariant (I : S -> Prop) :
  (forall s s', I s -> step s s' -> I s') -> forall s s', I s -> star s s' -> I s'.
Proof. intros Hstep s s' Hs. induction 1; eauto. Qed.

Lemma star_preorder (R : S -> S -> Prop) :
  (forall s, R s s) -> (forall a b c, R a b -> R b c -> R a c) ->
  (forall s s', step s s' -> R s s') -> forall s s', star s s' -> R s s'.
Proof. intros Hr Ht Hs s s'. induction 1; eauto. Qed.
End star.
#[export] Hint Constructors star : core.

(** ** The [sha2] crate *)

Class Sha2 := {
  sha256 : list byte -> list byte;
  length_sha256 d : length (sha256 d) = 32%nat
}.

(** A stand-in digest with the right length, for evaluation only. *)
#[refine] Definition toy_sha2 : Sha2 := {| sha256 d := take 32 (d ++ replicate 32 x00) |}.
Proof. intros d. rewrite length_take, length_app, length_replicate. lia. Defined.
