(* ===== verification/Messages.v ===== *)
(** * Canonical federation-signed messages

    [shared/src/claim.rs] (deposit claims, withdrawal completions) and
    [shared/src/governance.rs] (governance actions and their hashed
    parameters).  The builders write fields into a zeroed array exactly as the
    source does; the layout lemmas show the result is the concatenation of
    the fields, and the theorems that the encodings are injective and that the
    three message families never collide. *)
From stdpp Require Import base numbers strings gmap list.
From Stdlib Require Import ZArith Lia Strings.Byte.
From S2P Require Import Prelude.

(** [[0u8; n]] *)
Definition zeros (n : nat) : list byte := replicate n x00.

(** A one-byte field [m[i] = v]. *)
Definition u8_field (z : Z) : list byte := [byte_of_Z z].

Lemma length_u8_field z : length (u8_field z) = 1%nat.
Proof. done. Qed.

Lemma u8_field_inj a b : in_u8 a -> in_u8 b -> u8_field a = u8_field b -> a = b.
Proof. intros Ha Hb. apply (le_bytes_inj 1); unfold in_u8, U8_MAX in *; cbn; lia. Qed.

Lemma le_bytes_u64_inj a b : in_u64 a -> in_u64 b -> le_bytes 8 a = le_bytes 8 b -> a = b.
Proof. intros Ha Hb. apply le_bytes_inj; unfold in_u64, U64_MAX in *; cbn; lia. Qed.

Lemma le_bytes_u32_inj a b : in_u32 a -> in_u32 b -> le_bytes 4 a = le_bytes 4 b -> a = b.
Proof. intros Ha Hb. apply le_bytes_inj; unfold in_u32, U32_MAX in *; cbn; lia. Qed.

Definition CLAIM_DOMAIN_TAG : list byte := String.list_byte_of_string "GLC_BRIDGE_CLAIM".
Definition GOVERNANCE_DOMAIN_TAG : list byte := String.list_byte_of_string "GLC_BRIDGE_GOVRN".

Lemma length_claim_tag : length CLAIM_DOMAIN_TAG = 16%nat.
Proof. done. Qed.
Lemma length_governance_tag : length GOVERNANCE_DOMAIN_TAG = 16%nat.
Proof. done. Qed.

(** Writing at the end of what has been written so far. *)
Lemma splice_append p k off x :
  off = length p -> (length x <= k)%nat ->
  splice (p ++ replicate k x00) off x = (p ++ x) ++ replicate (k - length x) x00.
Proof.
  intros -> Hle. unfold splice.
  rewrite take_app_length, drop_app_ge by lia.
  replace (length p + length x - length p)%nat with (length x) by lia.
  by rewrite drop_replicate, <- app_assoc.
Qed.

Lemma replicate_zero k (x : byte) : k = 0%nat -> replicate k x = [].
Proof. by intros ->. Qed.

(** Fuses a run of side-by-side [splice]s over a zeroed array into one
    concatenation. *)
Ltac len_solve :=
  repeat first [rewrite length_app | rewrite length_replicate | rewrite length_le_bytes
               | rewrite length_u8_field | rewrite length_claim_tag
               | rewrite length_governance_tag];
  cbn [length]; lia.
Ltac fuse_splices :=
  unfold zeros; cbv zeta;
  match goal with
  | |- context [replicate ?n ?x] => change (replicate n x) with ([] ++ replicate n x)
  end;
  repeat rewrite splice_append by len_solve;
  rewrite replicate_zero by len_solve;
  rewrite app_nil_r, ?app_nil_l, <- ?app_assoc; cbn [app].

(** Splits an equality of two concatenations field by field. *)
Ltac split_fields H :=
  repeat (apply app_inj_1 in H as [? H];
          [|by rewrite ?length_le_bytes, ?length_u8_field; congruence || lia]).

Create HintDb field_inj.
#[export] Hint Resolve u8_field_inj le_bytes_u64_inj le_bytes_u32_inj le_bytes_i64_inj
  : field_inj.

(** ** claim.rs *)

Definition ACTION_MINT_DEPOSIT : Z := 1.
Definition ACTION_COMPLETE_WITHDRAWAL : Z := 2.
Definition CLAIM_MESSAGE_LEN : nat := 166.
Definition COMPLETION_MESSAGE_LEN : nat := 146.

Definition deposit_claim_message (protocol_version : Z) (program_id : list byte) (epoch : Z)
    (txid : list byte) (vout amount : Z) (recipient wrapped_mint : list byte) : list byte :=
  let m := zeros CLAIM_MESSAGE_LEN in
  let m := splice m 0 CLAIM_DOMAIN_TAG in
  let m := splice m 16 (u8_field protocol_version) in
  let m := splice m 17 program_id in
  let m := splice m 49 (le_bytes 8 epoch) in
  let m := splice m 57 (u8_field ACTION_MINT_DEPOSIT) in
  let m := splice m 58 txid in
  let m := splice m 90 (le_bytes 4 vout) in
  let m := splice m 94 (le_bytes 8 amount) in
  let m := splice m 102 recipient in
  splice m 134 wrapped_mint.

Definition withdrawal_completion_message (protocol_version : Z) (program_id : list byte)
    (epoch withdrawal_index : Z) (payout_txid : list byte) (payout_height amount : Z)
    (dest_commitment : list byte) : list byte :=
  let m := zeros COMPLETION_MESSAGE_LEN in
  let m := splice m 0 CLAIM_DOMAIN_TAG in
  let m := splice m 16 (u8_field protocol_version) in
  let m := splice m 17 program_id in
  let m := splice m 49 (le_bytes 8 epoch) in
  let m := splice m 57 (u8_field ACTION_COMPLETE_WITHDRAWAL) in
  let m := splice m 58 (le_bytes 8 withdrawal_index) in
  let m := splice m 66 payout_txid in
  let m := splice m 98 (le_bytes 8 payout_height) in
  let m := splice m 106 (le_bytes 8 amount) in
  splice m 114 dest_commitment.

(** ** governance.rs *)

Definition ACTION_PROPOSE_ROTATION : Z := 3.
Definition ACTION_CANCEL_ROTATION : Z := 4.
Definition ACTION_PROPOSE_TVL_RAISE : Z := 5.
Definition GOVERNANCE_MESSAGE_LEN : nat := 90.

Definition governance_message (protocol_version : Z) (program_id : list byte)
    (epoch action : Z) (params_commitment : list byte) : list byte :=
  let m := zeros GOVERNANCE_MESSAGE_LEN in
  let m := splice m 0 GOVERNANCE_DOMAIN_TAG in
  let m := splice m 16 (u8_field protocol_version) in
  let m := splice m 17 program_id in
  let m := splice m 49 (le_bytes 8 epoch) in
  let m := splice m 57 (u8_field action) in
  splice m 58 params_commitment.

Definition rotation_params (threshold : Z) (validators : list (list byte)) : list byte :=
  u8_field threshold ++ le_bytes 4 (as_u32 (Z.of_nat (length validators))) ++ concat validators.

Definition cancel_params (pending_action pending_eta : Z) : list byte :=
  u8_field pending_action ++ le_bytes 8 pending_eta.

Definition tvl_raise_params (new_max_wrapped_supply : Z) : list byte :=
  le_bytes 8 new_max_wrapped_supply.

(** ** Layout: what the field-by-field writes produce *)

Lemma deposit_claim_message_layout v pid e txid vout a r wm :
  length pid = 32%nat -> length txid = 32%nat -> length r = 32%nat -> length wm = 32%nat ->
  deposit_claim_message v pid e txid vout a r wm =
  CLAIM_DOMAIN_TAG ++ u8_field v ++ pid ++ le_bytes 8 e ++ u8_field ACTION_MINT_DEPOSIT ++
  txid ++ le_bytes 4 vout ++ le_bytes 8 a ++ r ++ wm.
Proof.
  intros Hp Ht Hr Hw. unfold deposit_claim_message, CLAIM_MESSAGE_LEN. by fuse_splices.
Qed.

Lemma withdrawal_completion_message_layout v pid e i txid h a d :
  length pid = 32%nat -> length txid = 32%nat -> length d = 32%nat ->
  withdrawal_completion_message v pid e i txid h a d =
  CLAIM_DOMAIN_TAG ++ u8_field v ++ pid ++ le_bytes 8 e ++
  u8_field ACTION_COMPLETE_WITHDRAWAL ++ le_bytes 8 i ++ txid ++ le_bytes 8 h ++
  le_bytes 8 a ++ d.
Proof.
  intros Hp Ht Hd. unfold withdrawal_completion_message, COMPLETION_MESSAGE_LEN.
  by fuse_splices.
Qed.

Lemma governance_message_layout v pid e act c :
  length pid = 32%nat -> length c = 32%nat ->
  governance_message v pid e act c =
  GOVERNANCE_DOMAIN_TAG ++ u8_field v ++ pid ++ le_bytes 8 e ++ u8_field act ++ c.
Proof.
  intros Hp Hc. unfold governance_message, GOVERNANCE_MESSAGE_LEN. by fuse_splices.
Qed.

Lemma length_deposit_claim_message v pid e txid vout a r wm :
  length pid = 32%nat -> length txid = 32%nat -> length r = 32%nat -> length wm = 32%nat ->
  length (deposit_claim_message v pid e txid vout a r wm) = CLAIM_MESSAGE_LEN.
Proof.
  intros Hp Ht Hr Hw. rewrite deposit_claim_message_layout by done.
  unfold CLAIM_MESSAGE_LEN, COMPLETION_MESSAGE_LEN, GOVERNANCE_MESSAGE_LEN. len_solve.
Qed.

Lemma length_withdrawal_completion_message v pid e i txid h a d :
  length pid = 32%nat -> length txid = 32%nat -> length d = 32%nat ->
  length (withdrawal_completion_message v pid e i txid h a d) = COMPLETION_MESSAGE_LEN.
Proof.
  intros Hp Ht Hd. rewrite withdrawal_completion_message_layout by done.
  unfold CLAIM_MESSAGE_LEN, COMPLETION_MESSAGE_LEN, GOVERNANCE_MESSAGE_LEN. len_solve.
Qed.

Lemma length_governance_message v pid e act c :
  length pid = 32%nat -> length c = 32%nat ->
  length (governance_message v pid e act c) = GOVERNANCE_MESSAGE_LEN.
Proof.
  intros Hp Hc. rewrite governance_message_layout by done. unfold CLAIM_MESSAGE_LEN, COMPLETION_MESSAGE_LEN, GOVERNANCE_MESSAGE_LEN. len_solve.
Qed.

(** ** The message families as data *)

(** One federation-signed statement; [encode] is the byte string that is
    signed for it.  [ProgramId] and the epoch are part of every family. *)
Inductive Statement :=
| MintDeposit (version : Z) (program_id : list byte) (epoch : Z) (txid : list byte)
    (vout amount : Z) (recipient wrapped_mint : list byte)
| CompletePayout (version : Z) (program_id : list byte) (epoch index : Z)
    (payout_txid : list byte) (payout_height amount : Z) (dest_commitment : list byte)
| Governance (version : Z) (program_id : list byte) (epoch action : Z)
    (params_commitment : list byte).

Definition encode (s : Statement) : list byte :=
  match s with
  | MintDeposit v p e t o a r w => deposit_claim_message v p e t o a r w
  | CompletePayout v p e i t h a d => withdrawal_completion_message v p e i t h a d
  | Governance v p e act c => governance_message v p e act c
  end.

(** The Rust types of the builders' arguments. *)
Definition statement_wf (s : Statement) : Prop :=
  match s with
  | MintDeposit v p e t o a r w =>
      in_u8 v /\ length p = 32%nat /\ in_u64 e /\ length t = 32%nat /\ in_u32 o /\ in_u64 a /\
      length r = 32%nat /\ length w = 32%nat
  | CompletePayout v p e i t h a d =>
      in_u8 v /\ length p = 32%nat /\ in_u64 e /\ in_u64 i /\ length t = 32%nat /\ in_u64 h /\
      in_u64 a /\ length d = 32%nat
  | Governance v p e act c =>
      in_u8 v /\ length p = 32%nat /\ in_u64 e /\ in_u8 act /\ length c = 32%nat
  end.

Lemma encode_injective s1 s2 :
  statement_wf s1 -> statement_wf s2 -> encode s1 = encode s2 -> s1 = s2.
Proof.
  intros H1 H2 Heq.
  pose proof (f_equal length Heq) as Hlen.
  destruct s1, s2; cbn [encode statement_wf] in *; destruct_and!;
    rewrite ?length_deposit_claim_message, ?length_withdrawal_completion_message,
      ?length_governance_message in Hlen by done; try discriminate Hlen.
  - rewrite !deposit_claim_message_layout in Heq by done.
    split_fields Heq. f_equal; eauto with field_inj.
  - rewrite !withdrawal_completion_message_layout in Heq by done.
    split_fields Heq. f_equal; eauto with field_inj.
  - rewrite !governance_message_layout in Heq by done.
    split_fields Heq. f_equal; eauto with field_inj.
Qed.

(** C40: The three signed message families are injective and mutually disjoint: equal
    signed bytes mean the same family and the same protocol version, program id, epoch
    and every parameter, so a signature for one statement can never be replayed as
    another. *)
Theorem signed_bytes_determine_statement s1 s2 :
  statement_wf s1 -> statement_wf s2 -> encode s1 = encode s2 -> s1 = s2.
Proof. apply encode_injective. Qed.

Lemma signed_bytes_determine_statement_witness :
  let s := MintDeposit 1 (repeat x01 32) 3 (repeat x02 32) 7 500 (repeat x03 32) (repeat x04 32) in
  exists s', encode s' = encode s /\ s = s'.
Proof.
  exists (MintDeposit 1 (repeat x01 32) (2 + 1) (repeat x02 32) 7 (5 * 100) (repeat x03 32)
            (repeat x04 32)).
  split; [vm_compute; reflexivity|].
  apply signed_bytes_determine_statement;
    [repeat split; vm_compute; congruence.. | vm_compute; reflexivity].
Defined.

(** ** Parameter encodings behind the governance commitment *)

Lemma concat_chunks_inj n (xs ys : list (list byte)) :
  Forall (fun x => length x = n) xs -> Forall (fun y => length y = n) ys ->
  length xs = length ys -> concat xs = concat ys -> xs = ys.
Proof.
  intros Hxs. revert ys. induction Hxs as [|x xs Hx Hxs IH]; intros [|y ys] Hys Hlen Heq;
    try discriminate Hlen; [done|].
  inversion_clear Hys as [|? ? Hy Hys']. cbn in Heq.
  apply app_inj_1 in Heq as [-> Heq]; [|congruence].
  cbn in Hlen. f_equal. apply IH; auto.
Qed.

(** The rotation parameters behind a commitment are determined by their bytes. *)
Lemma rotation_params_inj t1 t2 vs1 vs2 :
  in_u8 t1 -> in_u8 t2 ->
  Forall (fun v => length v = 32%nat) vs1 -> Forall (fun v => length v = 32%nat) vs2 ->
  in_u32 (Z.of_nat (length vs1)) -> in_u32 (Z.of_nat (length vs2)) ->
  rotation_params t1 vs1 = rotation_params t2 vs2 -> t1 = t2 /\ vs1 = vs2.
Proof.
  unfold rotation_params, as_u32. intros Ht1 Ht2 Hv1 Hv2 Hl1 Hl2 Heq.
  rewrite !Z.mod_small in Heq by (unfold in_u32, U32_MAX in *; lia).
  split_fields Heq.
  split; [eauto with field_inj|].
  apply (concat_chunks_inj 32); [done|done| |done].
  apply Nat2Z.inj. eauto with field_inj.
Qed.

Lemma cancel_params_inj a1 a2 e1 e2 :
  in_u8 a1 -> in_u8 a2 -> in_i64 e1 -> in_i64 e2 ->
  cancel_params a1 e1 = cancel_params a2 e2 -> a1 = a2 /\ e1 = e2.
Proof.
  unfold cancel_params. intros Ha1 Ha2 He1 He2 Heq. split_fields Heq.
  split; eauto with field_inj.
Qed.

Lemma tvl_raise_params_inj a b :
  in_u64 a -> in_u64 b -> tvl_raise_params a = tvl_raise_params b -> a = b.
Proof. apply le_bytes_u64_inj. Qed.
