(* ===== verification/State.v ===== *)
(** * On-chain data: constants, errors, accounts and events

    [programs/glc-bridge/src/constants.rs], [errors.rs], [state.rs] and
    [events.rs].  [Pubkey] and the fixed-size byte arrays are byte lists whose
    length is stated where a theorem needs it; integers are [Z] with the
    width bounds of the Prelude. *)
From Stdlib Require Import ZArith Lia Strings.Byte.
From stdpp Require Import base numbers strings gmap list.
From S2P Require Import Prelude Messages.

Abbreviation Pubkey := (list byte).
Abbreviation Bytes32 := (list byte).

(** [Pubkey::default()] *)
Definition default_pubkey : Pubkey := zeros 32.

(** [declare_id!("77oYT33t13HnZ6PNxKdbHDABb1uR2zzJMW9u7cJuwkRq")]: the 32
    bytes that base58 string denotes. *)
Definition crate_ID : Pubkey := map byte_of_Z
  [0x5a; 0xe4; 0x3b; 0x5b; 0xe4; 0xb1; 0x73; 0x4b; 0x2d; 0x7e; 0xcf; 0x9a; 0x9a; 0x5f; 0x28;
   0x70; 0x33; 0x1a; 0x68; 0x67; 0xd2; 0x1e; 0x80; 0xd2; 0x71; 0xb3; 0xb1; 0x4b; 0xea; 0x80;
   0x97; 0xbc].

(** ** constants.rs *)

Definition PROTOCOL_VERSION : Z := 1.
Definition MAX_VALIDATORS : nat := 16.
Definition WRAPPED_GLC_DECIMALS : Z := 8.
Definition MAX_GLC_ADDRESS_LEN : nat := 64.

(** ** errors.rs *)

Inductive BridgeError :=
| EmptyValidatorSet | TooManyValidators | DuplicateValidator | InvalidValidatorKey
| ZeroThreshold | ThresholdExceedsValidatorCount | UnauthorizedInitializer
| UnauthorizedAdmin | PauseStateUnchanged | AdminUnchanged | NoPendingAdmin
| PendingAdminMismatch | ArithmeticOverflow | MintAlreadyConfigured | MintNotConfigured
| WrongWrappedMint | BridgePaused | StaleValidatorEpoch | ZeroDepositAmount
| BelowMinimumDeposit | MissingSignatureVerification | MalformedSignatureVerification
| SignatureMessageMismatch | UnknownValidatorSignature | DuplicateValidatorSignature
| InsufficientSignatures | ZeroWithdrawalAmount | BelowMinimumWithdrawal
| InvalidGlcAddressLength
| ZeroGovernanceTimelock | WrongGovernanceAction | GovernanceTimelockNotElapsed
| StaleGovernanceProposal
| WithdrawalAlreadyCompleted | WithdrawalNotPending | PayoutRecordAlreadySet
| ZeroPayoutTxid | ZeroPayoutHeight
| ZeroWrappedSupplyCap | WrappedSupplyCapExceeded | WrappedSupplyCapUnchanged
| WrappedSupplyCapNotLowered | WrappedSupplyCapNotRaised
| UriTooLong | InvalidMetadataAccount | NameTooLong | SymbolTooLong | MetadataNotFound.

#[export] Instance BridgeError_eq_dec : EqDecision BridgeError.
Proof. solve_decision. Defined.

(** Everything a transaction can fail with: the program's own errors, and the
    failures of the framework and of other programs it relies on (Anchor's
    account loading and [init], the associated-token constraint, a CPI). *)
Inductive ProgramError :=
| Bridge_error (e : BridgeError)
| AccountNotInitialized
| AccountAlreadyInUse
| ConstraintTokenOwner
| ConstraintAssociated
| TokenProgramFailed
| MetaplexFailed.

#[export] Instance ProgramError_eq_dec : EqDecision ProgramError.
Proof. solve_decision. Defined.

(** [require!] and [ok_or] inside the handlers. *)
Definition check (b : bool) (e : BridgeError) : result ProgramError unit := require b (Bridge_error e).

(** ** state.rs *)

Record BridgeConfig := {
  protocol_version : Z;
  admin : Pubkey;
  pending_admin : option Pubkey;
  paused : bool;
  withdrawal_count : Z;
  min_deposit : Z;
  min_withdrawal : Z;
  config_bump : Z;
  wrapped_mint : Pubkey;
  mint_authority_bump : Z;
  governance_timelock_seconds : Z;
  max_wrapped_supply : Z;
  config_reserved : list byte
}.

Record ValidatorSet := {
  epoch : Z;
  threshold : Z;
  set_bump : Z;
  validators : list Pubkey;
  set_reserved : list byte
}.

Record PendingGovernanceAction := {
  action : Z;
  proposed_under_epoch : Z;
  eta : Z;
  proposed_threshold : Z;
  proposed_validators : list Pubkey;
  action_bump : Z;
  proposed_max_wrapped_supply : Z;
  action_reserved : list byte
}.

Record DepositClaim := {
  claim_txid : Bytes32;
  claim_vout : Z;
  claim_amount : Z;
  claim_recipient : Pubkey;
  claim_epoch : Z;
  claim_protocol_version : Z;
  slot_created : Z;
  claim_bump : Z;
  claim_reserved : list byte
}.

Inductive WithdrawalStatus := Pending | Broadcast | Completed.

#[export] Instance WithdrawalStatus_eq_dec : EqDecision WithdrawalStatus.
Proof. solve_decision. Defined.

Record WithdrawalRequest := {
  index : Z;
  wr_amount : Z;
  requester : Pubkey;
  glc_address : list byte;
  glc_address_len : Z;
  status : WithdrawalStatus;
  requested_at_slot : Z;
  wr_protocol_version : Z;
  wr_bump : Z;
  wr_reserved : list byte
}.

Definition PAYOUT_TXID_OFFSET : nat := 0.
Definition PAYOUT_TXID_LEN : nat := 32.
Definition PAYOUT_HEIGHT_OFFSET : nat := 32.
Definition PAYOUT_HEIGHT_LEN : nat := 8.
Definition PAYOUT_RECORD_LEN : nat := PAYOUT_TXID_LEN + PAYOUT_HEIGHT_LEN.

Definition payout_record (w : WithdrawalRequest) : option (Bytes32 * Z) :=
  if decide (status w = Completed) then
    let txid := take PAYOUT_TXID_LEN (drop PAYOUT_TXID_OFFSET (wr_reserved w)) in
    let height := take PAYOUT_HEIGHT_LEN (drop PAYOUT_HEIGHT_OFFSET (wr_reserved w)) in
    Some (txid, le_val height)
  else None.

Definition payout_record_is_unset (w : WithdrawalRequest) : bool :=
  forallb (fun b => bool_decide (b = x00)) (take PAYOUT_RECORD_LEN (wr_reserved w)).

Definition with_reserved (w : WithdrawalRequest) (r : list byte) : WithdrawalRequest :=
  {| index := index w; wr_amount := wr_amount w; requester := requester w;
     glc_address := glc_address w; glc_address_len := glc_address_len w; status := status w;
     requested_at_slot := requested_at_slot w; wr_protocol_version := wr_protocol_version w;
     wr_bump := wr_bump w; wr_reserved := r |}.

Definition with_status (w : WithdrawalRequest) (s : WithdrawalStatus) : WithdrawalRequest :=
  {| index := index w; wr_amount := wr_amount w; requester := requester w;
     glc_address := glc_address w; glc_address_len := glc_address_len w; status := s;
     requested_at_slot := requested_at_slot w; wr_protocol_version := wr_protocol_version w;
     wr_bump := wr_bump w; wr_reserved := wr_reserved w |}.

Definition set_payout_record (w : WithdrawalRequest) (payout_txid : Bytes32)
    (payout_height : Z) : WithdrawalRequest :=
  with_reserved w
    (splice (splice (wr_reserved w) PAYOUT_TXID_OFFSET payout_txid)
       PAYOUT_HEIGHT_OFFSET (le_bytes 8 payout_height)).

(** The [SPACE] constants, including the 8-byte Anchor discriminator. *)
Definition BridgeConfig_SPACE : Z := 8 + 1 + 32 + (1 + 32) + 1 + 8 + 8 + 8 + 1 + 32 + 1 + 8 + 8 + 15.
Definition ValidatorSet_SPACE : Z := 8 + 8 + 1 + 1 + (4 + 32 * Z.of_nat MAX_VALIDATORS) + 32.
Definition PendingGovernanceAction_SPACE : Z :=
  8 + 1 + 8 + 8 + 1 + (4 + 32 * Z.of_nat MAX_VALIDATORS) + 1 + 8 + 24.
Definition DepositClaim_SPACE : Z := 8 + 32 + 4 + 8 + 32 + 8 + 1 + 8 + 1 + 16.
Definition WithdrawalRequest_SPACE : Z := 8 + 8 + 8 + 32 + 64 + 1 + 1 + 8 + 1 + 1 + 48.

(** ** events.rs *)

Inductive Event :=
| BridgeInitialized (e_admin : Pubkey) (e_protocol_version e_threshold validator_count : Z)
| ValidatorSetUpdated (e_epoch e_threshold validator_count : Z)
| PauseStateChanged (e_paused : bool)
| AdminTransferInitiated (e_admin e_pending_admin : Pubkey)
| AdminTransferred (previous_admin new_admin : Pubkey)
| WrappedMintCreated (mint mint_authority : Pubkey) (decimals : Z)
| DepositClaimMinted (txid : Bytes32) (vout : Z) (recipient : Pubkey) (amount e_epoch : Z)
| WithdrawalRequested (e_index : Z) (e_requester : Pubkey) (amount : Z)
    (e_glc_address : list byte)
| GovernanceActionProposed (e_action e_proposed_under_epoch e_eta e_threshold
    validator_count : Z)
| GovernanceActionExecuted (e_action new_epoch : Z)
| GovernanceActionCancelled (e_action e_eta : Z)
| WithdrawalCompleted (e_index : Z) (payout_txid : Bytes32)
    (payout_height amount e_epoch : Z)
| WrappedSupplyCapChanged (previous current : Z) (raised : bool).

(** ** Payout record laws *)

Lemma payout_record_written w txid h :
  length (wr_reserved w) = 48%nat -> length txid = PAYOUT_TXID_LEN -> in_u64 h ->
  payout_record (with_status (set_payout_record w txid h) Completed) = Some (txid, h) /\
  length (wr_reserved (set_payout_record w txid h)) = 48%nat /\
  drop PAYOUT_RECORD_LEN (wr_reserved (set_payout_record w txid h)) =
  drop PAYOUT_RECORD_LEN (wr_reserved w).
Proof.
  unfold PAYOUT_TXID_LEN. intros Hr Ht Hh.
  unfold payout_record, set_payout_record, PAYOUT_TXID_OFFSET, PAYOUT_HEIGHT_OFFSET.
  cbn [status with_status with_reserved wr_reserved]. rewrite decide_True by done.
  rewrite splice_adjacent
    by (rewrite ?length_le_bytes, ?Ht, ?Hr; unfold PAYOUT_HEIGHT_LEN; lia).
  unfold splice. rewrite take_0, app_nil_l, length_app, length_le_bytes, Ht.
  split_and!.
  - unfold PAYOUT_TXID_LEN, PAYOUT_HEIGHT_LEN. rewrite drop_0, <- app_assoc.
    rewrite take_app_length', drop_app_length' by done.
    rewrite take_app_length' by (by rewrite length_le_bytes).
    rewrite le_val_le_bytes, Z.mod_small; [done|]. unfold in_u64, U64_MAX in Hh. cbn. lia.
  - rewrite !length_app, length_drop, length_le_bytes. lia.
  - unfold PAYOUT_RECORD_LEN, PAYOUT_TXID_LEN, PAYOUT_HEIGHT_LEN.
    rewrite drop_app_length' by (rewrite length_app, length_le_bytes; lia). done.
Qed.

Lemma payout_record_unset_zeros w :
  wr_reserved w = zeros 48 -> payout_record_is_unset w = true.
Proof. unfold payout_record_is_unset. by intros ->. Qed.

(** A payout txid and height written into a request's reserved bytes are read back
    exactly once the request is Completed, and the write touches only the first 40 of
    the 48 bytes. *)
Theorem payout_record_roundtrip w txid h :
  length (wr_reserved w) = 48%nat -> length txid = PAYOUT_TXID_LEN -> in_u64 h ->
  payout_record (with_status (set_payout_record w txid h) Completed) = Some (txid, h) /\
  length (wr_reserved (set_payout_record w txid h)) = 48%nat /\
  drop PAYOUT_RECORD_LEN (wr_reserved (set_payout_record w txid h)) =
  drop PAYOUT_RECORD_LEN (wr_reserved w).
Proof. apply payout_record_written. Qed.

Lemma payout_record_roundtrip_witness :
  let w := {| index := 4; wr_amount := 500; requester := zeros 32; glc_address := zeros 64;
              glc_address_len := 34; status := Pending; requested_at_slot := 9;
              wr_protocol_version := 1; wr_bump := 255; wr_reserved := zeros 48 |} in
  let txid := repeat x07 32 in
  payout_record w = None /\
  payout_record (with_status (set_payout_record w txid 65537) Completed) = Some (txid, 65537).
Proof.
  intros w txid. split; [reflexivity|].
  apply (payout_record_roundtrip w txid 65537);
    [reflexivity|reflexivity|unfold in_u64, U64_MAX; lia].
Defined.
