(* ===== verification/Validation.v ===== *)
(** * Validator-set rules: [programs/glc-bridge/src/validation.rs]

    The guard sequence of [validate_validator_set] with its two loops, the
    declarative well-formedness of a validator set, and the reference decision
    list the loops compute. *)
From Stdlib Require Import ZArith Lia Strings.Byte.
From stdpp Require Import base numbers strings gmap list.
From S2P Require Import Prelude Messages State.

Definition validate_validator_set (validators : list Pubkey) (threshold : Z)
  : result BridgeError unit :=
  require (negb (bool_decide (validators = []))) EmptyValidatorSet ;;*
  require (length validators <=? MAX_VALIDATORS)%nat TooManyValidators ;;*
  require (1 <=? threshold) ZeroThreshold ;;*
  require (threshold <=? Z.of_nat (length validators)) ThresholdExceedsValidatorCount ;;*
  for_each (fun v => require (negb (bool_decide (v = default_pubkey))) InvalidValidatorKey)
    validators ;;*
  for_each (fun i =>
    for_each (fun j =>
      require (negb (bool_decide (validators !! i = validators !! j))) DuplicateValidator)
      (seq (S i) (length validators - S i)))
    (seq 0 (length validators)).

(** The invariants every stored (validators, threshold) pair must satisfy. *)
Definition valid_validator_set (validators : list Pubkey) (threshold : Z) : Prop :=
  validators <> [] /\ (length validators <= MAX_VALIDATORS)%nat /\
  1 <= threshold <= Z.of_nat (length validators) /\
  default_pubkey ∉ validators /\ NoDup validators.

(** Reference: the first violated rule, in the order the source reports them. *)
Definition validator_set_verdict (validators : list Pubkey) (threshold : Z)
  : result BridgeError unit :=
  if decide (validators = []) then Err EmptyValidatorSet
  else if decide (MAX_VALIDATORS < length validators)%nat then Err TooManyValidators
  else if decide (threshold < 1) then Err ZeroThreshold
  else if decide (Z.of_nat (length validators) < threshold)
       then Err ThresholdExceedsValidatorCount
  else if decide (default_pubkey ∈ validators) then Err InvalidValidatorKey
  else if decide (NoDup validators) then Ok tt
  else Err DuplicateValidator.

(** The pairwise scan is a duplicate check. *)
Definition pairwise_distinct (l : list Pubkey) : bool :=
  forallb (fun i => forallb (fun j => negb (bool_decide (l !! i = l !! j)))
                     (seq (S i) (length l - S i)))
    (seq 0 (length l)).

Lemma pairwise_distinct_NoDup l : pairwise_distinct l = true <-> NoDup l.
Proof.
  unfold pairwise_distinct. rewrite forallb_forall, NoDup_alt. split.
  - intros H i j x Hi Hj.
    assert (forall i j, (i < j)%nat -> l !! i = Some x -> l !! j = Some x -> False) as Hlt.
    { clear i j Hi Hj. intros i j Hij Hi Hj.
      apply lookup_lt_Some in Hi as Hi', Hj as Hj'.
      specialize (H i). rewrite forallb_forall in H.
      specialize (H ltac:(apply in_seq; lia) j ltac:(apply in_seq; lia)).
      bools. congruence. }
    destruct (lt_eq_lt_dec i j) as [[?|?]|?]; [exfalso|done|exfalso]; eauto.
  - intros H i Hi%in_seq. apply forallb_forall. intros j Hj%in_seq.
    apply negb_true_iff, bool_decide_eq_false. intros Heq.
    destruct (lookup_lt_is_Some_2 l i) as [x Hx]; [lia|].
    assert (i = j) by (eapply H; [done|congruence]). lia.
Qed.

Lemma no_default_forallb (l : list Pubkey) :
  forallb (fun v => negb (bool_decide (v = default_pubkey))) l = true <->
  default_pubkey ∉ l.
Proof.
  rewrite forallb_forall, list_elem_of_In. split.
  - intros H Hin. specialize (H _ Hin). bools. done.
  - intros Hn x Hx. apply negb_true_iff, bool_decide_eq_false. by intros ->.
Qed.

Lemma validate_validator_set_eq vs t :
  validate_validator_set vs t = validator_set_verdict vs t.
Proof.
  unfold validate_validator_set, validator_set_verdict.
  rewrite (for_each_require (fun v => negb (bool_decide (v = default_pubkey)))).
  assert (for_each (fun i => for_each (fun j =>
      require (negb (bool_decide (vs !! i = vs !! j))) DuplicateValidator)
      (seq (S i) (length vs - S i))) (seq 0 (length vs)) =
    require (pairwise_distinct vs) DuplicateValidator) as ->.
  { unfold pairwise_distinct. rewrite <- for_each_require.
    induction (seq 0 (length vs)) as [|i l IH]; [done|]. cbn [for_each].
    rewrite (for_each_require (fun j => negb (bool_decide (vs !! i = vs !! j)))).
    by rewrite IH. }
  destruct (decide (vs = [])); [by rewrite bool_decide_true|].
  rewrite bool_decide_false by done. cbn [negb require].
  change (mbind ?f (Ok tt)) with (f tt). cbv beta.
  destruct (Nat.leb_spec (length vs) MAX_VALIDATORS); case_decide; try lia; [|done].
  destruct (Z.leb_spec 1 t); case_decide; try lia; [|done].
  destruct (Z.leb_spec t (Z.of_nat (length vs))); case_decide; try lia; [|done].
  pose proof (no_default_forallb vs) as Hdef.
  destruct (forallb _ vs); case_decide; [naive_solver| |done|naive_solver].
  pose proof (pairwise_distinct_NoDup vs) as Hnd.
  destruct (pairwise_distinct vs); case_decide; naive_solver.
Qed.

Lemma validate_validator_set_Ok vs t u :
  validate_validator_set vs t = Ok u <-> valid_validator_set vs t.
Proof.
  destruct u. rewrite validate_validator_set_eq.
  unfold validator_set_verdict, valid_validator_set.
  repeat case_decide; split; try done; try (intros; exfalso; naive_solver lia).
  intros _. split_and!; try done; lia.
Qed.

(** Validate_validator_set accepts exactly the sets of 1 to 16 distinct non-default
    keys with a threshold between 1 and their number, and on every other input returns
    the error of the first violated rule in the documented order. *)
Theorem validate_validator_set_verdict vs t :
  validate_validator_set vs t = validator_set_verdict vs t /\
  (validate_validator_set vs t = Ok tt <-> valid_validator_set vs t).
Proof. split; [apply validate_validator_set_eq|apply validate_validator_set_Ok]. Qed.
