(* ===== verification/Verification.v ===== *)
(** * The ed25519 proof parser: [programs/glc-bridge/src/verification.rs]

    [count_unique_validator_signers] reads the data of the ed25519 precompile
    instruction, entry by entry, with its bounds checks, self-reference
    checks and [u16] bitmask.  [proof_carries] is the declarative reading of
    the same bytes; the main theorem says the parser accepts exactly the byte
    strings that carry distinct current validators over the expected
    message. *)
From Stdlib Require Import ZArith Lia Strings.Byte.
From stdpp Require Import base numbers strings gmap list.
From S2P Require Import Prelude Messages State.

Definition ED25519_HEADER_LEN : nat := 2.
Definition ED25519_ENTRY_LEN : nat := 14.
Definition SIGNATURE_LEN : nat := 64.
Definition PUBKEY_LEN : nat := 32.
Definition SELF_REFERENCE : Z := U16_MAX.

(** [usize::checked_add] / [checked_mul] at 64 bits. *)
Definition usize_checked_add (a b : nat) : option nat :=
  if Z.of_nat a + Z.of_nat b <=? U64_MAX then Some (a + b)%nat else None.
Definition usize_checked_mul (a b : nat) : option nat :=
  if Z.of_nat a * Z.of_nat b <=? U64_MAX then Some (a * b)%nat else None.
(** [u16::checked_shl]: [None] when the shift reaches the width. *)
Definition u16_checked_shl (x : Z) (k : nat) : option Z :=
  if (k <? 16)%nat then Some (as_u16 (Z.shiftl x (Z.of_nat k))) else None.

Definition u16_at (data : list byte) (offset : nat) : result BridgeError Z :=
  let* bytes := ok_or (get_range data offset (offset + 2)) MalformedSignatureVerification in
  Ok (le_val bytes).

(** [validators.iter().position(|v| *v == signer)] *)
Definition position (signer : Pubkey) (validators : list Pubkey) : option nat :=
  fst <$> list_find (fun v => v = signer) validators.

(** The loop body up to the validator lookup, for entry [i]. *)
Definition entry_validator (data expected_message : list byte) (validators : list Pubkey)
    (i : nat) : result BridgeError nat :=
  let bad := MalformedSignatureVerification in
  let* m := ok_or (usize_checked_mul i ED25519_ENTRY_LEN) bad in
  let* entry_base := ok_or (usize_checked_add ED25519_HEADER_LEN m) bad in
  let* signature_offset := u16_at data entry_base in
  let* signature_ix_index := u16_at data (entry_base + 2) in
  let* public_key_offset := u16_at data (entry_base + 4) in
  let* public_key_ix_index := u16_at data (entry_base + 6) in
  let* message_offset := u16_at data (entry_base + 8) in
  let* message_size := u16_at data (entry_base + 10) in
  let* message_ix_index := u16_at data (entry_base + 12) in
  require ((signature_ix_index =? SELF_REFERENCE) && (public_key_ix_index =? SELF_REFERENCE)
           && (message_ix_index =? SELF_REFERENCE))%bool bad ;;*
  let* sig_end := ok_or (usize_checked_add (Z.to_nat signature_offset) SIGNATURE_LEN) bad in
  require (bool_decide (is_Some (get_range data (Z.to_nat signature_offset) sig_end))) bad ;;*
  let* msg_end :=
    ok_or (usize_checked_add (Z.to_nat message_offset) (Z.to_nat message_size)) bad in
  let* message := ok_or (get_range data (Z.to_nat message_offset) msg_end) bad in
  require (bool_decide (message = expected_message)) SignatureMessageMismatch ;;*
  let* pk_end := ok_or (usize_checked_add (Z.to_nat public_key_offset) PUBKEY_LEN) bad in
  let* signer := ok_or (get_range data (Z.to_nat public_key_offset) pk_end) bad in
  ok_or (position signer validators) UnknownValidatorSignature.

(** The whole loop body: the validator's bit must be clear, and is set. *)
Definition count_entry (data expected_message : list byte) (validators : list Pubkey)
    (acc : Z * nat) (i : nat) : result BridgeError (Z * nat) :=
  let '(seen, count) := acc in
  let* validator_index := entry_validator data expected_message validators i in
  let* bit := ok_or (u16_checked_shl 1 validator_index) MalformedSignatureVerification in
  require (Z.land seen bit =? 0) DuplicateValidatorSignature ;;*
  let* count := ok_or (usize_checked_add count 1) MalformedSignatureVerification in
  Ok (Z.lor seen bit, count).

Definition count_unique_validator_signers (data expected_message : list byte)
    (validators : list Pubkey) : result BridgeError nat :=
  require (ED25519_HEADER_LEN <=? length data)%nat MalformedSignatureVerification ;;*
  let* b0 := ok_or (data !! 0%nat) MalformedSignatureVerification in
  let* b1 := ok_or (data !! 1%nat) MalformedSignatureVerification in
  let num_signatures := Z.to_nat (byte_to_Z b0) in
  require ((1 <=? num_signatures)%nat && (byte_to_Z b1 =? 0))%bool
    MalformedSignatureVerification ;;*
  let* (_, count) :=
    foldM (count_entry data expected_message validators) (0, 0%nat) (seq 0 num_signatures) in
  Ok count.

(** ** Declarative reading *)

(** The seven [u16] fields of entry [i] as the precompile lays them out. *)
Record Entry := {
  signature_offset : nat; public_key_offset : nat; message_offset : nat; message_size : nat
}.

Definition entry_base (i : nat) : nat := (2 + 14 * i)%nat.

(** Field [k] of entry [i]. *)
Definition field (data : list byte) (i k : nat) : option Z :=
  le_val <$> get_range data (entry_base i + 2 * k) (entry_base i + 2 * k + 2).

(** Entry [i] of [data] is self-contained and names [pk], [sig] and [msg]. *)
Definition entry_carries (data : list byte) (i : nat) (pk sig msg : list byte) : Prop :=
  exists so po mo ms,
    field data i 0 = Some so /\ field data i 1 = Some SELF_REFERENCE /\
    field data i 2 = Some po /\ field data i 3 = Some SELF_REFERENCE /\
    field data i 4 = Some mo /\ field data i 5 = Some ms /\
    field data i 6 = Some SELF_REFERENCE /\
    get_range data (Z.to_nat so) (Z.to_nat so + 64) = Some sig /\
    get_range data (Z.to_nat po) (Z.to_nat po + 32) = Some pk /\
    get_range data (Z.to_nat mo) (Z.to_nat mo + Z.to_nat ms) = Some msg.

(** The data is a proof by exactly the signers [pks], in order: the header
    announces them, and each entry carries its signer over [msg]. *)
Definition proof_carries (data msg : list byte) (pks : list Pubkey) : Prop :=
  (1 <= length pks)%nat /\
  data !! 0%nat = Some (byte_of_Z (Z.of_nat (length pks))) /\
  (Z.of_nat (length pks) <= U8_MAX) /\
  data !! 1%nat = Some x00 /\
  forall i pk, pks !! i = Some pk -> exists sig, entry_carries data i pk sig msg.

(** ** Lemmas *)

Lemma u16_at_Ok data off v :
  u16_at data off = Ok v <-> le_val <$> get_range data off (off + 2) = Some v.
Proof.
  unfold u16_at. destruct (get_range data off (off + 2)); cbn; naive_solver.
Qed.

Lemma field_bound data i k v : field data i k = Some v -> in_u16 v.
Proof.
  unfold field. destruct (get_range _ _ _) as [bs|] eqn:E; [|done].
  intros [= <-]. apply get_range_length in E. pose proof (le_val_bound bs).
  replace (length bs) with 2%nat in * by lia. unfold in_u16, U16_MAX. cbn in *. lia.
Qed.

Lemma usize_add_Some a b c :
  Z.of_nat a + Z.of_nat b <= U64_MAX -> usize_checked_add a b = Some c <-> c = (a + b)%nat.
Proof. intros H. unfold usize_checked_add. rewrite (proj2 (Z.leb_le _ _) H). naive_solver. Qed.

Lemma position_Some pk vs n :
  position pk vs = Some n -> vs !! n = Some pk.
Proof.
  unfold position. destruct (list_find _ vs) as [[m x]|] eqn:E; [|done].
  intros [= <-]. apply list_find_Some in E as (? & <- & _). done.
Qed.

Lemma position_is_Some pk vs : is_Some (position pk vs) <-> pk ∈ vs.
Proof.
  unfold position. rewrite fmap_is_Some. split.
  - intros [[n x] (Hx & <- & _)%list_find_Some]. by eapply list_elem_of_lookup_2.
  - intros Hin. by eapply (list_find_elem_of (fun v => v = pk)).
Qed.

(** The body returns the position of the key of a self-contained entry over
    the expected message, and nothing else. *)
Lemma entry_validator_Ok data msg vs i n :
  (i < 256)%nat ->
  entry_validator data msg vs i = Ok n <->
  exists pk sig, entry_carries data i pk sig msg /\ position pk vs = Some n.
Proof.
  intros Hi. unfold entry_validator.
  assert (usize_checked_mul i ED25519_ENTRY_LEN = Some (i * 14)%nat) as ->.
  { unfold usize_checked_mul, ED25519_ENTRY_LEN, U64_MAX. by rewrite (proj2 (Z.leb_le _ _)) by lia. }
  assert (usize_checked_add ED25519_HEADER_LEN (i * 14) = Some (entry_base i)) as Hbase.
  { unfold ED25519_HEADER_LEN. apply usize_add_Some; [unfold U64_MAX|unfold entry_base]; lia. }
  res_red. rewrite Hbase. res_red.
  assert (forall k off v, off = (entry_base i + 2 * k)%nat ->
    u16_at data off = Ok v <-> field data i k = Some v) as Hf.
  { intros k off v ->. by rewrite u16_at_Ok. }
  split.
  - intros H. res_inv. bools.
    repeat match goal with
    | H : u16_at data _ = Ok _ |- _ =>
        first [rewrite (Hf 0%nat) in H by lia | rewrite (Hf 1%nat) in H by lia
              |rewrite (Hf 2%nat) in H by lia | rewrite (Hf 3%nat) in H by lia
              |rewrite (Hf 4%nat) in H by lia | rewrite (Hf 5%nat) in H by lia
              |rewrite (Hf 6%nat) in H by lia];
        pose proof (field_bound _ _ _ _ H)
    end.
    unfold in_u16, U16_MAX in *.
    repeat match goal with
    | H : usize_checked_add _ _ = Some _ |- _ =>
        apply usize_add_Some in H;
        [subst|unfold SIGNATURE_LEN, PUBKEY_LEN, U64_MAX; lia]
    end.
    match goal with H : is_Some _ |- _ => destruct H as [sig Hsig] end.
    simplify_eq.
    eexists _, sig. split; [|eassumption]. eexists _, _, _, _. by split_and!.
  - intros (pk & sig & (so & po & mo & ms & F0 & F1 & F2 & F3 & F4 & F5 & F6 & S & P & M) & Hn).
    apply field_bound in F0 as B0, F2 as B2, F4 as B4, F5 as B5.
    unfold in_u16, U16_MAX in *.
    apply (Hf 0%nat (entry_base i)) in F0; [|lia].
    apply (Hf 1%nat (entry_base i + 2)%nat) in F1; [|lia].
    apply (Hf 2%nat (entry_base i + 4)%nat) in F2; [|lia].
    apply (Hf 3%nat (entry_base i + 6)%nat) in F3; [|lia].
    apply (Hf 4%nat (entry_base i + 8)%nat) in F4; [|lia].
    apply (Hf 5%nat (entry_base i + 10)%nat) in F5; [|lia].
    apply (Hf 6%nat (entry_base i + 12)%nat) in F6; [|lia].
    rewrite F0, F1, F2, F3, F4, F5, F6.
    res_red. rewrite !Z.eqb_refl. res_red.
    unfold SIGNATURE_LEN, PUBKEY_LEN.
    rewrite (proj2 (usize_add_Some (Z.to_nat so) 64 _ ltac:(unfold U64_MAX; lia)) eq_refl).
    rewrite (proj2 (usize_add_Some (Z.to_nat mo) (Z.to_nat ms) _
      ltac:(unfold U64_MAX; lia)) eq_refl).
    rewrite (proj2 (usize_add_Some (Z.to_nat po) 32 _ ltac:(unfold U64_MAX; lia)) eq_refl).
    res_red. rewrite S, M, P. rewrite (bool_decide_true (is_Some _)) by eauto.
    res_red. rewrite bool_decide_true by done. res_red. by rewrite Hn.
Qed.

(** ** The bitmask *)

(** [seen] has exactly the bits of the positions in [S]. *)
Definition mask_rep (seen : Z) (S : list nat) : Prop :=
  forall k : nat, Z.testbit seen (Z.of_nat k) = bool_decide (k ∈ S).

Lemma mask_rep_nil : mask_rep 0 [].
Proof. intros k. rewrite Z.testbit_0_l. symmetry. apply bool_decide_eq_false. set_solver. Qed.

Lemma testbit_bit (n k : nat) :
  Z.testbit (Z.shiftl 1 (Z.of_nat n)) (Z.of_nat k) = bool_decide (k = n).
Proof.
  rewrite Z.shiftl_1_l, Z.pow2_bits_eqb by lia.
  destruct (Z.eqb_spec (Z.of_nat n) (Z.of_nat k)) as [E|E]; symmetry.
  - apply bool_decide_eq_true. lia.
  - apply bool_decide_eq_false. lia.
Qed.

Lemma mask_rep_add seen S n : mask_rep seen S -> mask_rep (Z.lor seen (Z.shiftl 1 (Z.of_nat n))) (n :: S).
Proof.
  intros H k. rewrite Z.lor_spec, H, testbit_bit.
  apply Bool.eq_iff_eq_true. rewrite orb_true_iff, !bool_decide_eq_true. set_solver.
Qed.

(** The test [seen & bit == 0] of the loop. *)
Lemma land_bit_zero seen S n :
  mask_rep seen S -> (Z.land seen (Z.shiftl 1 (Z.of_nat n)) =? 0) = true <-> n ∉ S.
Proof.
  intros H. rewrite Z.eqb_eq. split.
  - intros E. apply (f_equal (fun z => Z.testbit z (Z.of_nat n))) in E.
    rewrite Z.land_spec, testbit_bit, H, Z.testbit_0_l in E.
    rewrite (bool_decide_true (n = n)), andb_true_r in E by done.
    by apply bool_decide_eq_false in E.
  - intros Hn. apply Z.bits_inj'. intros k Hk. rewrite Z.land_spec, Z.testbit_0_l.
    rewrite <- (Z2Nat.id k) by done. rewrite testbit_bit, H.
    destruct (decide (Z.to_nat k = n)) as [->|].
    + by rewrite bool_decide_false.
    + by rewrite (bool_decide_false (_ = n)), andb_false_r.
Qed.

Lemma checked_shl_1 n b : u16_checked_shl 1 n = Some b <-> (n < 16)%nat /\ b = Z.shiftl 1 (Z.of_nat n).
Proof.
  unfold u16_checked_shl, as_u16. destruct (Nat.ltb_spec n 16); [|naive_solver lia].
  rewrite Z.mod_small; [naive_solver|].
  rewrite Z.shiftl_1_l. split; [lia|]. apply Z.pow_lt_mono_r; lia.
Qed.

Section counting.
Context (data msg : list byte) (vs : list Pubkey).
Hypothesis Hvs : (length vs <= MAX_VALIDATORS)%nat.

Lemma count_entry_Ok seen S count i acc :
  (i < 256)%nat -> (count <= 256)%nat -> mask_rep seen S ->
  count_entry data msg vs (seen, count) i = Ok acc <->
  exists n, entry_validator data msg vs i = Ok n /\ n ∉ S /\
            acc = (Z.lor seen (Z.shiftl 1 (Z.of_nat n)), (count + 1)%nat).
Proof.
  intros Hi Hc HS. unfold count_entry.
  assert (usize_checked_add count 1 = Some (count + 1)%nat) as Hadd.
  { apply usize_add_Some; [unfold U64_MAX|]; lia. }
  split.
  - intros H. res_inv.
    match goal with H : u16_checked_shl _ _ = Some _ |- _ =>
      apply checked_shl_1 in H as [? ->] end.
    match goal with H : (Z.land _ _ =? 0) = true |- _ =>
      apply (land_bit_zero _ S) in H; [|done] end.
    simplify_eq. eauto.
  - intros (n & Hn & HnS & ->). rewrite Hn. res_red.
    apply entry_validator_Ok in Hn as (pk & sig & _ & Hpos); [|done].
    apply position_Some, lookup_lt_Some in Hpos.
    rewrite (proj2 (checked_shl_1 n _)) by (unfold MAX_VALIDATORS in Hvs; split; [lia|done]).
    res_red. rewrite (proj2 (land_bit_zero _ S n HS)) by done. res_red. by rewrite Hadd.
Qed.

(** The loop from entry [i]: it succeeds exactly when the remaining entries
    name validators at fresh, pairwise distinct positions. *)
Lemma count_loop_Ok seen S count i k c :
  (i + k <= 255)%nat -> (count <= i)%nat -> mask_rep seen S ->
  (exists m, foldM (count_entry data msg vs) (seen, count) (seq i k) = Ok (m, c)) <->
  exists ns, length ns = k /\ c = (count + k)%nat /\ NoDup ns /\
    (forall n, n ∈ ns -> n ∉ S) /\
    forall j n, ns !! j = Some n -> entry_validator data msg vs (i + j) = Ok n.
Proof.
  revert seen S count i. induction k as [|k IH]; intros seen S count i Hk Hc HS; cbn [seq foldM].
  - split.
    + intros (m & [= -> ->]). exists []. split_and!; [done|lia|constructor|set_solver|done].
    + intros (ns & ?%nil_length_inv & -> & _). rewrite Nat.add_0_r. eauto.
  - split.
    + intros (m & (acc & (n & Hn & HnS & ->)%(count_entry_Ok seen S) & Hrest)%bind_Ok);
        [|lia|lia|done].
      destruct (IH (Z.lor seen (Z.shiftl 1 (Z.of_nat n))) (n :: S) (count + 1)%nat
                  (Datatypes.S i)) as [Hns _]; [lia|lia|by apply mask_rep_add|].
      destruct (Hns (ex_intro _ m Hrest)) as (ns & Hlen & -> & Hnd & Hfr & Hents).
      exists (n :: ns). split_and!.
      * cbn; lia.
      * lia.
      * constructor; [|done]. intros Hin. apply (Hfr n Hin). set_solver.
      * set_solver.
      * intros [|j] n' Hj; cbn in Hj; simplify_eq; [by rewrite Nat.add_0_r|].
        rewrite Nat.add_succ_r. by apply (Hents j).
    + intros ([|n ns] & Hlen & -> & Hnd & Hfr & Hents); [done|].
      apply list.NoDup_cons in Hnd as [Hnn Hnd].
      edestruct (IH (Z.lor seen (Z.shiftl 1 (Z.of_nat n))) (n :: S) (count + 1)%nat
                   (Datatypes.S i)) as [_ Hex]; [lia|lia|by apply mask_rep_add|].
      destruct Hex as [m Hm].
      { exists ns. cbn in Hlen. split_and!; [lia|lia|done|set_solver|].
        intros j n' Hj. specialize (Hents (Datatypes.S j) n' Hj).
        by rewrite Nat.add_succ_r in Hents. }
      exists m. apply bind_Ok. eexists. split; [|exact Hm].
      apply (count_entry_Ok _ S); [lia|lia|done|]. exists n. split_and!; [|set_solver|done].
      specialize (Hents 0%nat n eq_refl). by rewrite Nat.add_0_r in Hents.
Qed.
End counting.

(** ** What acceptance means *)

(** Positions and keys determine each other, so fresh positions are distinct
    keys. *)
Lemma positions_to_keys data msg vs ns :
  NoDup ns ->
  (forall j n, ns !! j = Some n ->
     exists pk sig, entry_carries data j pk sig msg /\ position pk vs = Some n) ->
  exists pks, length pks = length ns /\ NoDup pks /\ Forall (fun pk => pk ∈ vs) pks /\
    forall j pk, pks !! j = Some pk -> exists sig, entry_carries data j pk sig msg.
Proof.
  intros Hnd H. exists ((fun n => default [] (vs !! n)) <$> ns).
  assert (forall j pk, ((fun n => default [] (vs !! n)) <$> ns) !! j = Some pk ->
    exists n sig, ns !! j = Some n /\ position pk vs = Some n /\ entry_carries data j pk sig msg)
    as Hk.
  { intros j pk Hj. rewrite list_lookup_fmap in Hj.
    destruct (ns !! j) as [n|] eqn:Hn; [|done]. cbn in Hj.
    destruct (H j n Hn) as (pk' & sig & He & Hp). rewrite (position_Some _ _ _ Hp) in Hj.
    simplify_eq/=. eauto. }
  split_and!.
  - apply length_fmap.
  - apply NoDup_alt. intros j1 j2 pk H1 H2.
    destruct (Hk _ _ H1) as (n1 & ? & Hn1 & Hp1 & _), (Hk _ _ H2) as (n2 & ? & Hn2 & Hp2 & _).
    simplify_eq. by eapply NoDup_lookup.
  - apply Forall_forall. intros pk [j Hj]%list_elem_of_lookup.
    destruct (Hk _ _ Hj) as (n & ? & _ & Hp & _). apply position_is_Some. eauto.
  - intros j pk Hj. destruct (Hk _ _ Hj) as (? & ? & _ & _ & ?). eauto.
Qed.

Lemma keys_to_positions data msg vs pks :
  NoDup pks -> Forall (fun pk => pk ∈ vs) pks ->
  (forall j pk, pks !! j = Some pk -> exists sig, entry_carries data j pk sig msg) ->
  exists ns, length ns = length pks /\ NoDup ns /\
    forall j n, ns !! j = Some n ->
      exists pk sig, entry_carries data j pk sig msg /\ position pk vs = Some n.
Proof.
  intros Hnd Hin H. exists ((fun pk => default 0%nat (position pk vs)) <$> pks).
  assert (forall j n, ((fun pk => default 0%nat (position pk vs)) <$> pks) !! j = Some n ->
    exists pk, pks !! j = Some pk /\ position pk vs = Some n) as Hk.
  { intros j n Hj. rewrite list_lookup_fmap in Hj.
    destruct (pks !! j) as [pk|] eqn:Hpk; [|done]. cbn in Hj.
    rewrite Forall_forall in Hin.
    destruct (proj2 (position_is_Some pk vs) (Hin pk (list_elem_of_lookup_2 _ _ _ Hpk))) as [m Hm].
    rewrite Hm in Hj. simplify_eq/=. eauto. }
  split_and!.
  - apply length_fmap.
  - apply NoDup_alt. intros j1 j2 n H1 H2.
    destruct (Hk _ _ H1) as (pk1 & Hp1 & Hn1), (Hk _ _ H2) as (pk2 & Hp2 & Hn2).
    apply position_Some in Hn1, Hn2. simplify_eq. by eapply NoDup_lookup.
  - intros j n Hj. destruct (Hk _ _ Hj) as (pk & Hpk & Hn).
    destruct (H _ _ Hpk) as [sig ?]. eauto.
Qed.

Lemma header_Ok data msg vs n :
  count_unique_validator_signers data msg vs = Ok n <->
  exists b0, data !! 0%nat = Some b0 /\ data !! 1%nat = Some x00 /\ 1 <= byte_to_Z b0 /\
    exists m, foldM (count_entry data msg vs) (0, 0%nat)
                (seq 0 (Z.to_nat (byte_to_Z b0))) = Ok (m, n).
Proof.
  unfold count_unique_validator_signers, ED25519_HEADER_LEN. split.
  - intros H. res_inv. bools. destruct (_ : Z * nat) as [m c] in *. res_inv. subst.
    match goal with H : (1 <=? _)%nat = true |- _ => apply Nat.leb_le in H end.
    match goal with H : byte_to_Z ?b = 0, H' : data !! 1%nat = Some ?b |- _ =>
      assert (b = x00) as -> by (by apply byte_to_Z_inj) end.
    eexists. split_and!; [done|done|lia|eauto].
  - intros (b0 & H0 & H1 & Hb & m & Hm). apply lookup_lt_Some in H1 as Hlen.
    rewrite (proj2 (Nat.leb_le 2 _)) by lia. rewrite H0, H1. res_red.
    rewrite (proj2 (Nat.leb_le 1 _)) by lia. cbn -[foldM]. by rewrite Hm.
Qed.

Lemma count_unique_validator_signers_iff data msg vs n :
  (length vs <= MAX_VALIDATORS)%nat ->
  count_unique_validator_signers data msg vs = Ok n <->
  exists pks, length pks = n /\ proof_carries data msg pks /\ NoDup pks /\
              Forall (fun pk => pk ∈ vs) pks.
Proof.
  intros Hvs. rewrite header_Ok. split.
  - intros (b0 & H0 & H1 & Hb & Hm). pose proof (byte_to_Z_bound b0).
    apply (count_loop_Ok _ _ _ Hvs 0 []) in Hm as (ns & Hlen & -> & Hnd & _ & Hents);
      [|lia|lia|apply mask_rep_nil].
    destruct (positions_to_keys data msg vs ns) as (pks & Hl & Hnd' & Hin & Hpk); [done| |].
    { intros j n Hj. apply (entry_validator_Ok _ _ _ (0 + j)); [|auto].
      apply lookup_lt_Some in Hj. lia. }
    exists pks. rewrite Hl, Hlen. split_and!; try done.
    unfold proof_carries. rewrite Hl, Hlen, Z2Nat.id, byte_of_to_Z by lia.
    unfold U8_MAX. split_and!; try done; lia.
  - intros (pks & <- & (Hl1 & H0 & Hl2 & H1 & Hpk) & Hnd & Hin). unfold U8_MAX in Hl2.
    exists (byte_of_Z (Z.of_nat (length pks))).
    rewrite byte_to_of_Z, Z.mod_small, Nat2Z.id by lia. split_and!; [done|done|lia|].
    destruct (keys_to_positions data msg vs pks) as (ns & Hl & Hnd' & Hents); [done..|].
    apply (count_loop_Ok _ _ _ Hvs 0 []); [lia|lia|apply mask_rep_nil|].
    exists ns. split_and!; [done|done|done|set_solver|].
    intros j n Hj. apply entry_validator_Ok; [|auto]. apply lookup_lt_Some in Hj. lia.
Qed.

(** C34: The on-chain Ed25519 proof parser returns n exactly when the instruction data
    really carries n entries, each self-referencing, in range, over exactly the expected
    message, by n distinct keys that are all in the validator set: no malformed,
    duplicated, foreign or redirected entry is ever counted, and no good proof is
    refused. *)
Theorem count_unique_validator_signers_spec data msg vs n :
  (length vs <= MAX_VALIDATORS)%nat ->
  count_unique_validator_signers data msg vs = Ok n <->
  exists pks, length pks = n /\ proof_carries data msg pks /\ NoDup pks /\
              Forall (fun pk => pk ∈ vs) pks.
Proof. apply count_unique_validator_signers_iff. Qed.
