(* ===== verification/Token.v ===== *)
(** * What the bridge program relies on outside its own source

    The SPL Token program and the Solana runtime are not part of the
    repository; the handlers use them through these interfaces.  The laws are
    the documented behaviour of those programs, and [ledger] is a small
    concrete instance on which witnesses evaluate. *)
From Stdlib Require Import ZArith Lia Strings.Byte.
From stdpp Require Import base numbers strings gmap list.
From S2P Require Import Prelude Messages State.

(** ** The token program *)

Class SplToken := {
  token_state : Type;
  (** The supply and the authority of an initialized mint account. *)
  mint_supply : token_state -> Pubkey -> option Z;
  mint_auth : token_state -> Pubkey -> option Pubkey;
  mint_decimals : token_state -> Pubkey -> option Z;
  (** The amount held by an initialized token account, its owner, its mint, and
      whether the mint's freeze authority has frozen it. *)
  token_balance : token_state -> Pubkey -> option Z;
  token_owner : token_state -> Pubkey -> option Pubkey;
  token_mint : token_state -> Pubkey -> option Pubkey;
  token_frozen : token_state -> Pubkey -> bool;
  (** The associated token account of an owner for a mint. *)
  associated_token_address : Pubkey -> Pubkey -> Pubkey;
  (** [init] of a mint with decimals and authority, and the two CPIs. *)
  initialize_mint : token_state -> Pubkey -> Z -> Pubkey -> option token_state;
  mint_to_checked : token_state -> Pubkey -> Pubkey -> Pubkey -> Z -> Z -> option token_state;
  burn_checked : token_state -> Pubkey -> Pubkey -> Pubkey -> Z -> Z -> option token_state;
  (** Any transaction of other programs and wallets that the given program
      address did not sign. *)
  external_step : Pubkey -> token_state -> token_state -> Prop
}.

Class SplTokenLaws (T : SplToken) := {
  initialize_mint_law t m d a t' :
    initialize_mint t m d a = Some t' ->
    mint_supply t m = None /\ mint_supply t' m = Some 0 /\ mint_auth t' m = Some a /\
    forall m', m' <> m -> mint_supply t' m' = mint_supply t m' /\ mint_auth t' m' = mint_auth t m';
  mint_to_checked_law t m dst a n d t' :
    mint_to_checked t m dst a n d = Some t' ->
    exists s b, mint_supply t m = Some s /\ s + n <= U64_MAX /\ mint_auth t m = Some a /\
      mint_supply t' m = Some (s + n) /\
      token_balance t dst = Some b /\ token_balance t' dst = Some (b + n) /\
      (forall m', m' <> m -> mint_supply t' m' = mint_supply t m') /\
      (forall m', mint_auth t' m' = mint_auth t m') /\
      (forall x, x <> dst -> token_balance t' x = token_balance t x);
  burn_checked_law t src m o n d t' :
    burn_checked t src m o n d = Some t' ->
    exists s b, mint_supply t m = Some s /\ n <= s /\ mint_supply t' m = Some (s - n) /\
      token_balance t src = Some b /\ n <= b /\ token_balance t' src = Some (b - n) /\
      (forall m', m' <> m -> mint_supply t' m' = mint_supply t m') /\
      (forall m', mint_auth t' m' = mint_auth t m') /\
      (forall x, x <> src -> token_balance t' x = token_balance t x);
  (** Without the authority's signature nobody mints; holders may burn. *)
  external_step_law a t t' m s :
    external_step a t t' -> mint_auth t m = Some a -> mint_supply t m = Some s ->
    mint_auth t' m = Some a /\ exists s', mint_supply t' m = Some s' /\ s' <= s
}.

(** An account of an owner for a mint, in use. *)
Record holds `{T : SplToken} (t : token_state) (x owner m : Pubkey) (bal : Z) : Prop := {
  ho_balance : token_balance t x = Some bal;
  ho_owner : token_owner t x = Some owner;
  ho_mint : token_mint t x = Some m;
  ho_frozen : token_frozen t x = false
}.

(** What the token program accepts: [MintToChecked] under the mint's authority
    and [BurnChecked] under the account's owner, with the mint's own decimals,
    over an account of that mint which is not frozen, when no amount leaves the
    range of a [u64].  A mint keeps the decimals it was initialized with. *)
Class SplTokenAccepts (T : SplToken) := {
  mint_to_checked_accepts t m dst a o n d s bal :
    mint_supply t m = Some s -> mint_auth t m = Some a -> mint_decimals t m = Some d ->
    holds t dst o m bal -> 0 <= n -> s + n <= U64_MAX -> bal + n <= U64_MAX ->
    is_Some (mint_to_checked t m dst a n d);
  burn_checked_accepts t src m o n d s bal :
    mint_supply t m = Some s -> mint_decimals t m = Some d -> holds t src o m bal ->
    0 <= n -> n <= bal -> n <= s ->
    is_Some (burn_checked t src m o n d);
  initialize_mint_decimals t m d a t' :
    initialize_mint t m d a = Some t' -> mint_decimals t' m = Some d;
  mint_to_checked_decimals t m dst a n d t' m' :
    mint_to_checked t m dst a n d = Some t' -> mint_decimals t' m' = mint_decimals t m';
  burn_checked_decimals t src m o n d t' m' :
    burn_checked t src m o n d = Some t' -> mint_decimals t' m' = mint_decimals t m';
  external_step_decimals a t t' m d :
    external_step a t t' -> mint_decimals t m = Some d -> mint_decimals t' m = Some d
}.

(** ** The runtime *)

Class Runtime := {
  (** [solana_program::hash::hash] (SHA-256). *)
  sol_hash : list byte -> Bytes32;
  length_sol_hash d : length (sol_hash d) = 32%nat;
  (** [solana_program::ed25519_program::ID] *)
  ed25519_program_ID : Pubkey;
  (** The PDA of [SEED_MINT_AUTHORITY] under this program. *)
  mint_authority_pda : Pubkey
}.

(** ** A concrete ledger *)

Record MintAccount := { mi_supply : Z; mi_authority : Pubkey; mi_decimals : Z }.
Record TokenAccount := { ta_amount : Z; ta_owner : Pubkey; ta_mint : Pubkey; ta_frozen : bool }.
Record Ledger := { l_mints : gmap Pubkey MintAccount; l_accounts : gmap Pubkey TokenAccount }.

Definition with_supply (mi : MintAccount) (s : Z) : MintAccount :=
  {| mi_supply := s; mi_authority := mi_authority mi; mi_decimals := mi_decimals mi |}.
Definition with_amount (ta : TokenAccount) (n : Z) : TokenAccount :=
  {| ta_amount := n; ta_owner := ta_owner ta; ta_mint := ta_mint ta; ta_frozen := ta_frozen ta |}.

Definition ledger_mint_to (l : Ledger) (m dst a : Pubkey) (n d : Z) : option Ledger :=
  match l_mints l !! m, l_accounts l !! dst with
  | Some mi, Some ta =>
      if bool_decide (a = mi_authority mi) && bool_decide (ta_mint ta = m) && negb (ta_frozen ta) &&
         (d =? mi_decimals mi) && (mi_supply mi + n <=? U64_MAX) && (ta_amount ta + n <=? U64_MAX) then
        Some {| l_mints := <[m := with_supply mi (mi_supply mi + n)]> (l_mints l);
                l_accounts := <[dst := with_amount ta (ta_amount ta + n)]> (l_accounts l) |}
      else None
  | _, _ => None
  end.

Definition ledger_burn (l : Ledger) (src m o : Pubkey) (n d : Z) : option Ledger :=
  match l_mints l !! m, l_accounts l !! src with
  | Some mi, Some ta =>
      if bool_decide (o = ta_owner ta) && bool_decide (ta_mint ta = m) && negb (ta_frozen ta) &&
         (d =? mi_decimals mi) && (n <=? mi_supply mi) && (n <=? ta_amount ta) then
        Some {| l_mints := <[m := with_supply mi (mi_supply mi - n)]> (l_mints l);
                l_accounts := <[src := with_amount ta (ta_amount ta - n)]> (l_accounts l) |}
      else None
  | _, _ => None
  end.

Definition ledger_init_mint (l : Ledger) (m : Pubkey) (d : Z) (a : Pubkey) : option Ledger :=
  match l_mints l !! m with
  | Some _ => None
  | None => Some {| l_mints := <[m := {| mi_supply := 0; mi_authority := a; mi_decimals := d |}]> (l_mints l);
                    l_accounts := l_accounts l |}
  end.

#[export] Instance ledger : SplToken := {|
  token_state := Ledger;
  mint_supply l m := mi_supply <$> l_mints l !! m;
  mint_auth l m := mi_authority <$> l_mints l !! m;
  mint_decimals l m := mi_decimals <$> l_mints l !! m;
  token_balance l x := ta_amount <$> l_accounts l !! x;
  token_owner l x := ta_owner <$> l_accounts l !! x;
  token_mint l x := ta_mint <$> l_accounts l !! x;
  token_frozen l x := default false (ta_frozen <$> l_accounts l !! x);
  associated_token_address o m := o ++ m;
  initialize_mint := ledger_init_mint;
  mint_to_checked := ledger_mint_to;
  burn_checked := ledger_burn;
  external_step _ l l' := l_mints l' = l_mints l
|}.

(** What an entry is changed to keeps what the change keeps. *)
Lemma insert_same_field {A B} (f : A -> B) (m : gmap Pubkey A) k k' x y :
  m !! k = Some x -> f y = f x -> f <$> <[k := y]> m !! k' = f <$> m !! k'.
Proof.
  intros Hx Hf. destruct (decide (k = k')) as [<-|]; [|by rewrite lookup_insert_ne].
  rewrite lookup_insert_eq, Hx. cbn. by rewrite Hf.
Qed.
Lemma insert_other {A B} (f : A -> B) (m : gmap Pubkey A) k k' y :
  k' <> k -> f <$> <[k := y]> m !! k' = f <$> m !! k'.
Proof. intros. by rewrite lookup_insert_ne. Qed.

#[export] Instance ledger_laws : SplTokenLaws ledger.
Proof.
  constructor; cbn.
  - intros l m d a l'. unfold ledger_init_mint.
    destruct (l_mints l !! m) eqn:E; [done|]. intros [= <-]. cbn.
    rewrite lookup_insert_eq. split_and!; try done.
    intros m' Hm. by rewrite !lookup_insert_ne.
  - intros l m dst a n d l'. unfold ledger_mint_to.
    destruct (l_mints l !! m) as [mi|] eqn:Em; [|done].
    destruct (l_accounts l !! dst) as [ta|] eqn:Eb; [|done].
    destruct (_ && _)%bool eqn:Hc; [|done]. intros [= <-]. bools. subst.
    exists (mi_supply mi), (ta_amount ta). cbn. rewrite !lookup_insert_eq.
    split_and!; try done; intros; first [by apply insert_other|by eapply insert_same_field].
  - intros l src m o n d l'. unfold ledger_burn.
    destruct (l_mints l !! m) as [mi|] eqn:Em; [|done].
    destruct (l_accounts l !! src) as [ta|] eqn:Eb; [|done].
    destruct (_ && _)%bool eqn:Hc; [|done]. intros [= <-]. bools. subst.
    exists (mi_supply mi), (ta_amount ta). cbn. rewrite !lookup_insert_eq.
    split_and!; try done; intros; first [by apply insert_other|by eapply insert_same_field].
  - intros a l l' m s -> Ha Hs. split; [done|]. eauto with lia.
Qed.

#[export] Instance ledger_accepts : SplTokenAccepts ledger.
Proof.
  constructor; cbn.
  - intros l m dst a o n d s bal. unfold ledger_mint_to. destruct (l_mints l !! m) as [mi|]; [|done].
    intros [= <-] [= <-] [= <-] [Hb Ho Hm Hf] Hn Hs Hd. cbn in *.
    destruct (l_accounts l !! dst) as [ta|]; [|done]. cbn in *. simplify_eq.
    rewrite !bool_decide_true, Hf, Z.eqb_refl, (proj2 (Z.leb_le _ _) Hs), (proj2 (Z.leb_le _ _) Hd) by done. by eexists.
  - intros l src m o n d s bal. unfold ledger_burn. destruct (l_mints l !! m) as [mi|]; [|done].
    intros [= <-] [= <-] [Hb Ho Hm Hf] Hn Hs Hd. cbn in *.
    destruct (l_accounts l !! src) as [ta|]; [|done]. cbn in *. simplify_eq.
    rewrite !bool_decide_true, Hf, Z.eqb_refl, (proj2 (Z.leb_le _ _) Hs), (proj2 (Z.leb_le _ _) Hd) by done. by eexists.
  - intros l m d a l'. unfold ledger_init_mint. destruct (l_mints l !! m); [done|]. intros [= <-]. cbn.
    by rewrite lookup_insert_eq.
  - intros l m dst a n d l' m'. unfold ledger_mint_to. destruct (l_mints l !! m) as [mi|] eqn:Em; [|done].
    destruct (l_accounts l !! dst); [|done]. destruct (_ && _)%bool; [|done]. intros [= <-]. by eapply insert_same_field.
  - intros l src m o n d l' m'. unfold ledger_burn. destruct (l_mints l !! m) as [mi|] eqn:Em; [|done].
    destruct (l_accounts l !! src); [|done]. destruct (_ && _)%bool; [|done]. intros [= <-]. by eapply insert_same_field.
  - by intros a l l' m d ->.
Qed.

(** A stand-in digest with the right length, for evaluation only. *)
Definition toy_hash (d : list byte) : Bytes32 := take 32 (d ++ zeros 32).

#[export] Program Instance toy_runtime : Runtime := {|
  sol_hash := toy_hash;
  ed25519_program_ID := replicate 32 (byte_of_Z 3);
  mint_authority_pda := replicate 32 (byte_of_Z 7)
|}.
Next Obligation. intros d. unfold toy_hash, zeros. rewrite length_take, length_app, length_replicate. lia. Qed.
