(* ===== verification/Program.v ===== *)
(** * The bridge program's instructions: [programs/glc-bridge/src/instructions/]

    One definition per handler, over the whole on-chain state: the singleton
    PDAs, the claim and withdrawal PDAs keyed by their seeds, and the token
    program's state.  An [XAccounts] record holds what the caller passes for
    the instruction's [#[derive(Accounts)]] struct; each handler first loads
    and [init]s accounts, then checks the declared constraints, then runs the
    body.  Events are returned in emission order. *)
From Stdlib Require Import ZArith Lia Strings.Byte.
From stdpp Require Import base numbers strings gmap list.
From S2P Require Import Prelude Messages State Validation Verification Token.

(** An instruction of the enclosing transaction, as the Instructions sysvar
    reports it. *)
Record Instruction := { ix_program_id : Pubkey; ix_data : list byte }.

(** The clock and the instruction directly before the running one
    ([get_instruction_relative(-1, ..)]; [None] when there is none). *)
Record TxEnv := {
  unix_timestamp : Z;
  slot : Z;
  previous_instruction : option Instruction
}.

(** ** Field updates *)

Definition set_paused_field (c : BridgeConfig) (p : bool) : BridgeConfig :=
  {| protocol_version := protocol_version c; admin := admin c;
     pending_admin := pending_admin c; paused := p; withdrawal_count := withdrawal_count c;
     min_deposit := min_deposit c; min_withdrawal := min_withdrawal c;
     config_bump := config_bump c; wrapped_mint := wrapped_mint c;
     mint_authority_bump := mint_authority_bump c;
     governance_timelock_seconds := governance_timelock_seconds c;
     max_wrapped_supply := max_wrapped_supply c; config_reserved := config_reserved c |}.

Definition set_admins (c : BridgeConfig) (a : Pubkey) (p : option Pubkey) : BridgeConfig :=
  {| protocol_version := protocol_version c; admin := a; pending_admin := p;
     paused := paused c; withdrawal_count := withdrawal_count c;
     min_deposit := min_deposit c; min_withdrawal := min_withdrawal c;
     config_bump := config_bump c; wrapped_mint := wrapped_mint c;
     mint_authority_bump := mint_authority_bump c;
     governance_timelock_seconds := governance_timelock_seconds c;
     max_wrapped_supply := max_wrapped_supply c; config_reserved := config_reserved c |}.

Definition set_cap (c : BridgeConfig) (m : Z) : BridgeConfig :=
  {| protocol_version := protocol_version c; admin := admin c;
     pending_admin := pending_admin c; paused := paused c;
     withdrawal_count := withdrawal_count c;
     min_deposit := min_deposit c; min_withdrawal := min_withdrawal c;
     config_bump := config_bump c; wrapped_mint := wrapped_mint c;
     mint_authority_bump := mint_authority_bump c;
     governance_timelock_seconds := governance_timelock_seconds c;
     max_wrapped_supply := m; config_reserved := config_reserved c |}.

Definition set_mint (c : BridgeConfig) (m : Pubkey) (bump : Z) : BridgeConfig :=
  {| protocol_version := protocol_version c; admin := admin c;
     pending_admin := pending_admin c; paused := paused c;
     withdrawal_count := withdrawal_count c;
     min_deposit := min_deposit c; min_withdrawal := min_withdrawal c;
     config_bump := config_bump c; wrapped_mint := m; mint_authority_bump := bump;
     governance_timelock_seconds := governance_timelock_seconds c;
     max_wrapped_supply := max_wrapped_supply c; config_reserved := config_reserved c |}.

Definition set_withdrawal_count (c : BridgeConfig) (n : Z) : BridgeConfig :=
  {| protocol_version := protocol_version c; admin := admin c;
     pending_admin := pending_admin c; paused := paused c; withdrawal_count := n;
     min_deposit := min_deposit c; min_withdrawal := min_withdrawal c;
     config_bump := config_bump c; wrapped_mint := wrapped_mint c;
     mint_authority_bump := mint_authority_bump c;
     governance_timelock_seconds := governance_timelock_seconds c;
     max_wrapped_supply := max_wrapped_supply c; config_reserved := config_reserved c |}.

Definition set_validators (s : ValidatorSet) (e t : Z) (vs : list Pubkey) : ValidatorSet :=
  {| epoch := e; threshold := t; set_bump := set_bump s; validators := vs;
     set_reserved := set_reserved s |}.

(** ** Account inputs *)

Record InitializeAccounts := {
  init_authority : Pubkey;
  (** [program.programdata_address()?] and the ProgramData account passed. *)
  programdata_address : option Pubkey;
  program_data_key : Pubkey;
  upgrade_authority_address : option Pubkey;
  bump_bridge_config : Z;
  bump_validator_set : Z
}.

Record CreateWrappedMintAccounts := {
  cm_admin : Pubkey;
  cm_wrapped_mint : Pubkey;
  cm_bump_mint_authority : Z
}.

Record MintWrappedAccounts := {
  mw_submitter : Pubkey;
  mw_wrapped_mint : Pubkey;
  mw_recipient : Pubkey;
  mw_recipient_token_account : Pubkey;
  mw_bump_deposit_claim : Z
}.

Record BurnWrappedAccounts := {
  bw_user : Pubkey;
  bw_wrapped_mint : Pubkey;
  bw_user_token_account : Pubkey;
  bw_bump_withdrawal_request : Z
}.

Section program.
Context {T : SplToken} {R : Runtime}.

(** All the state the program reads and writes. *)
Record Bridge := {
  bridge_config : option BridgeConfig;
  validator_set : option ValidatorSet;
  pending_action : option PendingGovernanceAction;
  deposit_claims : gmap (Bytes32 * Z) DepositClaim;
  withdrawal_requests : gmap Z WithdrawalRequest;
  tokens : token_state
}.

Definition put_config (b : Bridge) (c : BridgeConfig) : Bridge :=
  {| bridge_config := Some c; validator_set := validator_set b;
     pending_action := pending_action b; deposit_claims := deposit_claims b;
     withdrawal_requests := withdrawal_requests b; tokens := tokens b |}.
Definition put_set (b : Bridge) (s : ValidatorSet) : Bridge :=
  {| bridge_config := bridge_config b; validator_set := Some s;
     pending_action := pending_action b; deposit_claims := deposit_claims b;
     withdrawal_requests := withdrawal_requests b; tokens := tokens b |}.
Definition put_pending (b : Bridge) (p : option PendingGovernanceAction) : Bridge :=
  {| bridge_config := bridge_config b; validator_set := validator_set b;
     pending_action := p; deposit_claims := deposit_claims b;
     withdrawal_requests := withdrawal_requests b; tokens := tokens b |}.
Definition put_claim (b : Bridge) (k : Bytes32 * Z) (c : DepositClaim) : Bridge :=
  {| bridge_config := bridge_config b; validator_set := validator_set b;
     pending_action := pending_action b; deposit_claims := <[k := c]> (deposit_claims b);
     withdrawal_requests := withdrawal_requests b; tokens := tokens b |}.
Definition put_withdrawal (b : Bridge) (i : Z) (w : WithdrawalRequest) : Bridge :=
  {| bridge_config := bridge_config b; validator_set := validator_set b;
     pending_action := pending_action b; deposit_claims := deposit_claims b;
     withdrawal_requests := <[i := w]> (withdrawal_requests b); tokens := tokens b |}.
Definition put_tokens (b : Bridge) (t : token_state) : Bridge :=
  {| bridge_config := bridge_config b; validator_set := validator_set b;
     pending_action := pending_action b; deposit_claims := deposit_claims b;
     withdrawal_requests := withdrawal_requests b; tokens := t |}.

Definition HandlerResult : Type := result ProgramError (Bridge * list Event).

(** [Account<'info, _>]: the account must exist. *)
Definition load {A} (o : option A) : result ProgramError A := ok_or o AccountNotInitialized.
(** [init]: it must not. *)
Definition absent {A} (o : option A) : result ProgramError unit :=
  require (match o with None => true | Some _ => false end) AccountAlreadyInUse.

(** *** initialize.rs *)

Definition initialize (acc : InitializeAccounts) (vs : list Pubkey) (t : Z)
    (min_dep min_wd timelock cap : Z) (b : Bridge) : HandlerResult :=
  absent (bridge_config b) ;;*
  absent (validator_set b) ;;*
  check (bool_decide (programdata_address acc = Some (program_data_key acc)))
    UnauthorizedInitializer ;;*
  check (bool_decide (upgrade_authority_address acc = Some (init_authority acc)))
    UnauthorizedInitializer ;;*
  map_err Bridge_error (validate_validator_set vs t) ;;*
  check (0 <? timelock) ZeroGovernanceTimelock ;;*
  check (0 <? cap) ZeroWrappedSupplyCap ;;*
  let config :=
    {| protocol_version := PROTOCOL_VERSION; admin := init_authority acc;
       pending_admin := None; paused := false; withdrawal_count := 0;
       min_deposit := min_dep; min_withdrawal := min_wd;
       config_bump := bump_bridge_config acc; wrapped_mint := default_pubkey;
       mint_authority_bump := 0; governance_timelock_seconds := timelock;
       max_wrapped_supply := cap; config_reserved := zeros 15 |} in
  let set :=
    {| epoch := 0; threshold := t; set_bump := bump_validator_set acc; validators := vs;
       set_reserved := zeros 32 |} in
  Ok (put_set (put_config b config) set,
      [BridgeInitialized (admin config) PROTOCOL_VERSION t
         (as_u8 (Z.of_nat (length vs)))]).

(** *** admin.rs *)

(** The [AdminConfig] context: load the config, check the signer. *)
Definition admin_config (signer : Pubkey) (b : Bridge) : result ProgramError BridgeConfig :=
  let* config := load (bridge_config b) in
  check (bool_decide (admin config = signer)) UnauthorizedAdmin ;;*
  Ok config.

Definition set_paused (signer : Pubkey) (p : bool) (b : Bridge) : HandlerResult :=
  let* config := admin_config signer b in
  check (negb (Bool.eqb (paused config) p)) PauseStateUnchanged ;;*
  Ok (put_config b (set_paused_field config p), [PauseStateChanged p]).

Definition lower_wrapped_supply_cap (signer : Pubkey) (new_max : Z) (b : Bridge)
  : HandlerResult :=
  let* config := admin_config signer b in
  let previous := max_wrapped_supply config in
  check (negb (new_max =? previous)) WrappedSupplyCapUnchanged ;;*
  check (new_max <? previous) WrappedSupplyCapNotLowered ;;*
  check (0 <? new_max) ZeroWrappedSupplyCap ;;*
  Ok (put_config b (set_cap config new_max),
      [WrappedSupplyCapChanged previous new_max false]).

Definition transfer_admin (signer new_admin : Pubkey) (b : Bridge) : HandlerResult :=
  let* config := admin_config signer b in
  check (negb (bool_decide (new_admin = admin config))) AdminUnchanged ;;*
  Ok (put_config b (set_admins config (admin config) (Some new_admin)),
      [AdminTransferInitiated (admin config) new_admin]).

Definition accept_admin (signer : Pubkey) (b : Bridge) : HandlerResult :=
  let* config := load (bridge_config b) in
  let* pending := ok_or (pending_admin config) (Bridge_error NoPendingAdmin) in
  check (bool_decide (pending = signer)) PendingAdminMismatch ;;*
  let previous_admin := admin config in
  Ok (put_config b (set_admins config pending None),
      [AdminTransferred previous_admin pending]).

(** *** create_mint.rs *)

Definition create_wrapped_mint (acc : CreateWrappedMintAccounts) (b : Bridge)
  : HandlerResult :=
  let* config := load (bridge_config b) in
  let* t := ok_or (initialize_mint (tokens b) (cm_wrapped_mint acc) WRAPPED_GLC_DECIMALS
                     mint_authority_pda) AccountAlreadyInUse in
  check (bool_decide (admin config = cm_admin acc)) UnauthorizedAdmin ;;*
  check (bool_decide (wrapped_mint config = default_pubkey)) MintAlreadyConfigured ;;*
  let config := set_mint config (cm_wrapped_mint acc) (cm_bump_mint_authority acc) in
  Ok (put_config (put_tokens b t) config,
      [WrappedMintCreated (wrapped_mint config) mint_authority_pda WRAPPED_GLC_DECIMALS]).

(** *** mint_wrapped.rs *)

Definition mint_wrapped (env : TxEnv) (acc : MintWrappedAccounts) (txid : Bytes32)
    (vout amount claim_ep : Z) (b : Bridge) : HandlerResult :=
  let* config := load (bridge_config b) in
  let* set := load (validator_set b) in
  absent (deposit_claims b !! (txid, vout)) ;;*
  let* supply := load (mint_supply (tokens b) (mw_wrapped_mint acc)) in
  let* _ := load (token_balance (tokens b) (mw_recipient_token_account acc)) in
  check (negb (bool_decide (wrapped_mint config = default_pubkey))) MintNotConfigured ;;*
  check (bool_decide (mw_wrapped_mint acc = wrapped_mint config)) WrongWrappedMint ;;*
  require (bool_decide (token_owner (tokens b) (mw_recipient_token_account acc) =
                        Some (mw_recipient acc))) ConstraintTokenOwner ;;*
  require (bool_decide (mw_recipient_token_account acc =
             associated_token_address (mw_recipient acc) (mw_wrapped_mint acc)))
    ConstraintAssociated ;;*
  check (negb (paused config)) BridgePaused ;;*
  check (claim_ep =? epoch set) StaleValidatorEpoch ;;*
  check (0 <? amount) ZeroDepositAmount ;;*
  check (min_deposit config <=? amount) BelowMinimumDeposit ;;*
  let* projected_supply :=
    ok_or (u64_checked_add supply amount) (Bridge_error ArithmeticOverflow) in
  check (projected_supply <=? max_wrapped_supply config) WrappedSupplyCapExceeded ;;*
  let* verification_ix :=
    ok_or (previous_instruction env) (Bridge_error MissingSignatureVerification) in
  check (bool_decide (ix_program_id verification_ix = ed25519_program_ID))
    MissingSignatureVerification ;;*
  let expected_message :=
    deposit_claim_message (protocol_version config) crate_ID (epoch set) txid vout amount
      (mw_recipient acc) (wrapped_mint config) in
  let* signer_count :=
    map_err Bridge_error (count_unique_validator_signers (ix_data verification_ix)
                      expected_message (validators set)) in
  check (threshold set <=? Z.of_nat signer_count) InsufficientSignatures ;;*
  let* t :=
    ok_or (mint_to_checked (tokens b) (mw_wrapped_mint acc) (mw_recipient_token_account acc)
             mint_authority_pda amount WRAPPED_GLC_DECIMALS) TokenProgramFailed in
  let claim :=
    {| claim_txid := txid; claim_vout := vout; claim_amount := amount;
       claim_recipient := mw_recipient acc; claim_epoch := epoch set;
       claim_protocol_version := protocol_version config; slot_created := slot env;
       claim_bump := mw_bump_deposit_claim acc; claim_reserved := zeros 16 |} in
  Ok (put_claim (put_tokens b t) (txid, vout) claim,
      [DepositClaimMinted txid vout (claim_recipient claim) amount (claim_epoch claim)]).

(** *** burn.rs *)

Definition burn_wrapped (env : TxEnv) (acc : BurnWrappedAccounts) (amount : Z)
    (address : list byte) (b : Bridge) : HandlerResult :=
  let* config := load (bridge_config b) in
  let* _ := load (mint_supply (tokens b) (bw_wrapped_mint acc)) in
  let* _ := load (token_balance (tokens b) (bw_user_token_account acc)) in
  absent (withdrawal_requests b !! withdrawal_count config) ;;*
  check (negb (bool_decide (wrapped_mint config = default_pubkey))) MintNotConfigured ;;*
  check (bool_decide (bw_wrapped_mint acc = wrapped_mint config)) WrongWrappedMint ;;*
  require (bool_decide (token_owner (tokens b) (bw_user_token_account acc) =
                        Some (bw_user acc))) ConstraintTokenOwner ;;*
  require (bool_decide (bw_user_token_account acc =
             associated_token_address (bw_user acc) (bw_wrapped_mint acc)))
    ConstraintAssociated ;;*
  check (negb (paused config)) BridgePaused ;;*
  check (0 <? amount) ZeroWithdrawalAmount ;;*
  check (min_withdrawal config <=? amount) BelowMinimumWithdrawal ;;*
  check (negb (bool_decide (address = [])) &&
         (length address <=? MAX_GLC_ADDRESS_LEN)%nat) InvalidGlcAddressLength ;;*
  let idx := withdrawal_count config in
  let* next_count := ok_or (u64_checked_add idx 1) (Bridge_error ArithmeticOverflow) in
  let* t :=
    ok_or (burn_checked (tokens b) (bw_user_token_account acc) (bw_wrapped_mint acc)
             (bw_user acc) amount WRAPPED_GLC_DECIMALS) TokenProgramFailed in
  let record :=
    {| index := idx; wr_amount := amount; requester := bw_user acc;
       glc_address := splice (zeros 64) 0 address;
       glc_address_len := as_u8 (Z.of_nat (length address)); status := Pending;
       requested_at_slot := slot env; wr_protocol_version := protocol_version config;
       wr_bump := bw_bump_withdrawal_request acc; wr_reserved := zeros 48 |} in
  Ok (put_config (put_withdrawal (put_tokens b t) idx record)
        (set_withdrawal_count config next_count),
      [WithdrawalRequested idx (requester record) amount address]).

(** *** complete_withdrawal.rs *)

Definition complete_withdrawal (env : TxEnv) (idx : Z) (payout_txid : Bytes32)
    (payout_height claim_ep : Z) (b : Bridge) : HandlerResult :=
  let* config := load (bridge_config b) in
  let* set := load (validator_set b) in
  let* withdrawal := load (withdrawal_requests b !! idx) in
  check (negb (paused config)) BridgePaused ;;*
  check (claim_ep =? epoch set) StaleValidatorEpoch ;;*
  check (negb (bool_decide (status withdrawal = Completed))) WithdrawalAlreadyCompleted ;;*
  check (bool_decide (status withdrawal = Pending)) WithdrawalNotPending ;;*
  check (payout_record_is_unset withdrawal) PayoutRecordAlreadySet ;;*
  check (negb (bool_decide (payout_txid = zeros 32))) ZeroPayoutTxid ;;*
  check (0 <? payout_height) ZeroPayoutHeight ;;*
  let* verification_ix :=
    ok_or (previous_instruction env) (Bridge_error MissingSignatureVerification) in
  check (bool_decide (ix_program_id verification_ix = ed25519_program_ID))
    MissingSignatureVerification ;;*
  let len := glc_address_len withdrawal in
  check ((1 <=? len) && (len <=? Z.of_nat (length (glc_address withdrawal))))
    InvalidGlcAddressLength ;;*
  let dest_commitment := sol_hash (take (Z.to_nat len) (glc_address withdrawal)) in
  let expected_message :=
    withdrawal_completion_message (protocol_version config) crate_ID (epoch set) idx
      payout_txid payout_height (wr_amount withdrawal) dest_commitment in
  let* signer_count :=
    map_err Bridge_error (count_unique_validator_signers (ix_data verification_ix)
                      expected_message (validators set)) in
  check (threshold set <=? Z.of_nat signer_count) InsufficientSignatures ;;*
  let amount := wr_amount withdrawal in
  let withdrawal :=
    with_status (set_payout_record withdrawal payout_txid payout_height) Completed in
  Ok (put_withdrawal b idx withdrawal,
      [WithdrawalCompleted idx payout_txid payout_height amount (epoch set)]).

(** *** governance.rs *)

Definition require_federation_approval (env : TxEnv) (set : ValidatorSet)
    (expected_message : list byte) : result ProgramError unit :=
  let* verification_ix :=
    ok_or (previous_instruction env) (Bridge_error MissingSignatureVerification) in
  check (bool_decide (ix_program_id verification_ix = ed25519_program_ID))
    MissingSignatureVerification ;;*
  let* signer_count :=
    map_err Bridge_error (count_unique_validator_signers (ix_data verification_ix)
                      expected_message (validators set)) in
  check (threshold set <=? Z.of_nat signer_count) InsufficientSignatures.

Definition propose_validator_rotation (env : TxEnv) (bump : Z) (vs : list Pubkey) (t : Z)
    (b : Bridge) : HandlerResult :=
  let* config := load (bridge_config b) in
  let* set := load (validator_set b) in
  absent (pending_action b) ;;*
  map_err Bridge_error (validate_validator_set vs t) ;;*
  let params_commitment := sol_hash (rotation_params t vs) in
  let expected_message :=
    governance_message (protocol_version config) crate_ID (epoch set)
      ACTION_PROPOSE_ROTATION params_commitment in
  require_federation_approval env set expected_message ;;*
  let* e := ok_or (i64_checked_add (unix_timestamp env) (governance_timelock_seconds config))
              (Bridge_error ArithmeticOverflow) in
  let pending :=
    {| action := ACTION_PROPOSE_ROTATION; proposed_under_epoch := epoch set; eta := e;
       proposed_threshold := t; proposed_validators := vs; action_bump := bump;
       proposed_max_wrapped_supply := 0; action_reserved := zeros 24 |} in
  Ok (put_pending b (Some pending),
      [GovernanceActionProposed ACTION_PROPOSE_ROTATION (epoch set) e t
         (as_u8 (Z.of_nat (length vs)))]).

Definition execute_validator_rotation (env : TxEnv) (b : Bridge) : HandlerResult :=
  let* _ := load (bridge_config b) in
  let* set := load (validator_set b) in
  let* pending := load (pending_action b) in
  check (action pending =? ACTION_PROPOSE_ROTATION) WrongGovernanceAction ;;*
  check (eta pending <=? unix_timestamp env) GovernanceTimelockNotElapsed ;;*
  check (epoch set =? proposed_under_epoch pending) StaleGovernanceProposal ;;*
  map_err Bridge_error
    (validate_validator_set (proposed_validators pending) (proposed_threshold pending)) ;;*
  let* e := ok_or (u64_checked_add (epoch set) 1) (Bridge_error ArithmeticOverflow) in
  let set' := set_validators set e (proposed_threshold pending) (proposed_validators pending) in
  Ok (put_pending (put_set b set') None,
      [GovernanceActionExecuted ACTION_PROPOSE_ROTATION (epoch set')]).

Definition propose_wrapped_supply_cap_raise (env : TxEnv) (bump new_max : Z) (b : Bridge)
  : HandlerResult :=
  let* config := load (bridge_config b) in
  let* set := load (validator_set b) in
  absent (pending_action b) ;;*
  check (max_wrapped_supply config <? new_max) WrappedSupplyCapNotRaised ;;*
  let params_commitment := sol_hash (tvl_raise_params new_max) in
  let expected_message :=
    governance_message (protocol_version config) crate_ID (epoch set)
      ACTION_PROPOSE_TVL_RAISE params_commitment in
  require_federation_approval env set expected_message ;;*
  let* e := ok_or (i64_checked_add (unix_timestamp env) (governance_timelock_seconds config))
              (Bridge_error ArithmeticOverflow) in
  let pending :=
    {| action := ACTION_PROPOSE_TVL_RAISE; proposed_under_epoch := epoch set; eta := e;
       proposed_threshold := 0; proposed_validators := []; action_bump := bump;
       proposed_max_wrapped_supply := new_max; action_reserved := zeros 24 |} in
  Ok (put_pending b (Some pending),
      [GovernanceActionProposed ACTION_PROPOSE_TVL_RAISE (epoch set) e 0 0]).

Definition execute_wrapped_supply_cap_raise (env : TxEnv) (b : Bridge) : HandlerResult :=
  let* config := load (bridge_config b) in
  let* set := load (validator_set b) in
  let* pending := load (pending_action b) in
  check (action pending =? ACTION_PROPOSE_TVL_RAISE) WrongGovernanceAction ;;*
  check (eta pending <=? unix_timestamp env) GovernanceTimelockNotElapsed ;;*
  check (epoch set =? proposed_under_epoch pending) StaleGovernanceProposal ;;*
  let new_max := proposed_max_wrapped_supply pending in
  check (max_wrapped_supply config <? new_max) WrappedSupplyCapNotRaised ;;*
  let previous := max_wrapped_supply config in
  Ok (put_pending (put_config b (set_cap config new_max)) None,
      [WrappedSupplyCapChanged previous new_max true;
       GovernanceActionExecuted ACTION_PROPOSE_TVL_RAISE (epoch set)]).

Definition cancel_validator_rotation (env : TxEnv) (b : Bridge) : HandlerResult :=
  let* config := load (bridge_config b) in
  let* set := load (validator_set b) in
  let* pending := load (pending_action b) in
  let params_commitment := sol_hash (cancel_params (action pending) (eta pending)) in
  let expected_message :=
    governance_message (protocol_version config) crate_ID (epoch set)
      ACTION_CANCEL_ROTATION params_commitment in
  require_federation_approval env set expected_message ;;*
  Ok (put_pending b None, [GovernanceActionCancelled (action pending) (eta pending)]).

(** *** lib.rs: the instruction set *)

Inductive BridgeInstruction :=
| Initialize (acc : InitializeAccounts) (vs : list Pubkey) (t min_dep min_wd timelock cap : Z)
| SetPaused (signer : Pubkey) (p : bool)
| ProposeValidatorRotation (bump : Z) (vs : list Pubkey) (t : Z)
| ExecuteValidatorRotation
| CancelValidatorRotation
| TransferAdmin (signer new_admin : Pubkey)
| AcceptAdmin (signer : Pubkey)
| CreateWrappedMint (acc : CreateWrappedMintAccounts)
| MintWrapped (acc : MintWrappedAccounts) (txid : Bytes32) (vout amount claim_ep : Z)
| BurnWrapped (acc : BurnWrappedAccounts) (amount : Z) (address : list byte)
| LowerWrappedSupplyCap (signer : Pubkey) (new_max : Z)
| ProposeWrappedSupplyCapRaise (bump new_max : Z)
| ExecuteWrappedSupplyCapRaise
| CompleteWithdrawal (idx : Z) (payout_txid : Bytes32) (payout_height claim_ep : Z).

Definition exec (env : TxEnv) (i : BridgeInstruction) (b : Bridge) : HandlerResult :=
  match i with
  | Initialize acc vs t md mw tl cap => initialize acc vs t md mw tl cap b
  | SetPaused s p => set_paused s p b
  | ProposeValidatorRotation bump vs t => propose_validator_rotation env bump vs t b
  | ExecuteValidatorRotation => execute_validator_rotation env b
  | CancelValidatorRotation => cancel_validator_rotation env b
  | TransferAdmin s a => transfer_admin s a b
  | AcceptAdmin s => accept_admin s b
  | CreateWrappedMint acc => create_wrapped_mint acc b
  | MintWrapped acc txid vout amount e => mint_wrapped env acc txid vout amount e b
  | BurnWrapped acc amount address => burn_wrapped env acc amount address b
  | LowerWrappedSupplyCap s m => lower_wrapped_supply_cap s m b
  | ProposeWrappedSupplyCapRaise bump m => propose_wrapped_supply_cap_raise env bump m b
  | ExecuteWrappedSupplyCapRaise => execute_wrapped_supply_cap_raise env b
  | CompleteWithdrawal i txid h e => complete_withdrawal env i txid h e b
  end.
End program.
