(* ===== verification/Handlers.v ===== *)
(** * What each instruction does: inversion of the handlers of [Program]

    [approved] is the declarative reading of the inline ed25519 check.  For
    the two federation-gated money paths the handler is characterised exactly
    (success iff the listed conditions, with the resulting state and events);
    for the others the inversion lemmas say what success implies.  [frame]
    groups the fields an instruction leaves alone. *)
From Stdlib Require Import ZArith Lia Strings.Byte.
From stdpp Require Import base numbers strings gmap list.
From S2P Require Import Prelude Messages State Validation Verification Token Program.

Lemma check_Ok b e u : check b e = Ok u <-> b = true.
Proof. apply require_Ok. Qed.

Lemma load_Ok {A} (o : option A) a : load o = Ok a <-> o = Some a.
Proof. apply ok_or_Ok. Qed.

Lemma absent_Ok {A} (o : option A) u : absent o = Ok u <-> o = None.
Proof. unfold absent. rewrite require_Ok. destruct o; naive_solver. Qed.

(** Inversion of a handler that returned [Ok]. *)
Ltac handler_step :=
  match goal with
  | H : map_err _ _ = Ok _ |- _ => apply map_err_Ok in H
  | H : check _ _ = Ok _ |- _ => apply check_Ok in H
  | H : load _ = Ok _ |- _ => apply load_Ok in H
  | H : absent _ = Ok _ |- _ => apply absent_Ok in H
  | _ => res_step
  end.
Ltac handler_inv := repeat handler_step; bools; subst.

(** Runs a handler whose guards are all known to pass. *)
Ltac guard_step :=
  first
    [ rewrite bool_decide_true by done
    | rewrite bool_decide_false by done
    | rewrite (proj2 (Z.leb_le _ _)) by done
    | rewrite (proj2 (Z.ltb_lt _ _)) by done
    | rewrite Z.eqb_refl ].
Ltac handler_run :=
  unfold check, load, absent;
  repeat progress (cbn [mbind result_bind require ok_or map_err andb negb]; repeat guard_step).

Section handlers.
Context {T : SplToken} {R : Runtime}.
Implicit Types (b : Bridge) (env : TxEnv) (s : ValidatorSet) (c : BridgeConfig).

(** The instruction before the running one is an ed25519 verification by
    at least [threshold] distinct current validators over [msg]. *)
Definition approved env s (msg : list byte) : Prop :=
  exists ix pks, previous_instruction env = Some ix /\ ix_program_id ix = ed25519_program_ID /\
    proof_carries (ix_data ix) msg pks /\ NoDup pks /\
    Forall (fun pk => pk ∈ validators s) pks /\ threshold s <= Z.of_nat (length pks).

Lemma approved_spec env s msg :
  (length (validators s) <= MAX_VALIDATORS)%nat ->
  approved env s msg <->
  exists ix n, previous_instruction env = Some ix /\ ix_program_id ix = ed25519_program_ID /\
    count_unique_validator_signers (ix_data ix) msg (validators s) = Ok n /\
    threshold s <= Z.of_nat n.
Proof.
  intros Hlen. split.
  - intros (ix & pks & ? & ? & ? & ? & ? & ?). exists ix, (length pks).
    split_and!; try done. apply count_unique_validator_signers_iff; [done|eauto].
  - intros (ix & n & ? & ? & (pks & <- & ? & ? & ?)%count_unique_validator_signers_iff & ?);
      [|done]. exists ix, pks. by split_and!.
Qed.

Lemma require_federation_approval_Ok env s msg u :
  (length (validators s) <= MAX_VALIDATORS)%nat ->
  require_federation_approval env s msg = Ok u <-> approved env s msg.
Proof.
  intros Hlen. rewrite approved_spec by done. unfold require_federation_approval. split.
  - intros H. handler_inv. eauto 10.
  - intros (ix & n & -> & Hid & Hc & Ht). destruct u. handler_run. rewrite Hc.
    by handler_run.
Qed.

(** ** The transition system the program implements

    One rule per instruction: what must hold, and what changes. *)

Definition claim_of env (acc : MintWrappedAccounts) (txid : Bytes32) (vout amount : Z) c s
  : DepositClaim :=
  {| claim_txid := txid; claim_vout := vout; claim_amount := amount;
     claim_recipient := mw_recipient acc; claim_epoch := epoch s;
     claim_protocol_version := protocol_version c; slot_created := slot env;
     claim_bump := mw_bump_deposit_claim acc; claim_reserved := zeros 16 |}.

Definition mint_statement (acc : MintWrappedAccounts) (txid : Bytes32) (vout amount : Z) c s
  : Statement :=
  MintDeposit (protocol_version c) crate_ID (epoch s) txid vout amount
    (mw_recipient acc) (wrapped_mint c).

Definition completion_statement (idx : Z) (txid : Bytes32) (h : Z) (w : WithdrawalRequest) c s
  : Statement :=
  CompletePayout (protocol_version c) crate_ID (epoch s) idx txid h (wr_amount w)
    (sol_hash (take (Z.to_nat (glc_address_len w)) (glc_address w))).

Definition governance_statement (act : Z) (params : list byte) c s : Statement :=
  Governance (protocol_version c) crate_ID (epoch s) act (sol_hash params).

(** The conditions under which [mint_wrapped] mints. *)
Record mint_ok env acc (txid : Bytes32) (vout amount claim_ep : Z) b c s (supply : Z) : Prop := {
  mo_config : bridge_config b = Some c;
  mo_set : validator_set b = Some s;
  mo_fresh : deposit_claims b !! (txid, vout) = None;
  mo_supply : mint_supply (tokens b) (wrapped_mint c) = Some supply;
  mo_account : is_Some (token_balance (tokens b) (mw_recipient_token_account acc));
  mo_owner : token_owner (tokens b) (mw_recipient_token_account acc) = Some (mw_recipient acc);
  mo_configured : wrapped_mint c <> default_pubkey;
  mo_mint : mw_wrapped_mint acc = wrapped_mint c;
  mo_ata : mw_recipient_token_account acc =
           associated_token_address (mw_recipient acc) (wrapped_mint c);
  mo_running : paused c = false;
  mo_epoch : claim_ep = epoch s;
  mo_positive : 0 < amount;
  mo_minimum : min_deposit c <= amount;
  mo_cap : supply + amount <= max_wrapped_supply c;
  mo_u64 : supply + amount <= U64_MAX;
  mo_approved : approved env s (encode (mint_statement acc txid vout amount c s))
}.

Record burn_ok (acc : BurnWrappedAccounts) (amount : Z) (address : list byte) b c : Prop := {
  bo_config : bridge_config b = Some c;
  bo_mint_exists : is_Some (mint_supply (tokens b) (wrapped_mint c));
  bo_account : is_Some (token_balance (tokens b) (bw_user_token_account acc));
  bo_fresh : withdrawal_requests b !! withdrawal_count c = None;
  bo_owner : token_owner (tokens b) (bw_user_token_account acc) = Some (bw_user acc);
  bo_configured : wrapped_mint c <> default_pubkey;
  bo_mint : bw_wrapped_mint acc = wrapped_mint c;
  bo_ata : bw_user_token_account acc =
           associated_token_address (bw_user acc) (wrapped_mint c);
  bo_running : paused c = false;
  bo_positive : 0 < amount;
  bo_minimum : min_withdrawal c <= amount;
  bo_address : address <> [];
  bo_address_len : (length address <= MAX_GLC_ADDRESS_LEN)%nat;
  bo_count : withdrawal_count c + 1 <= U64_MAX
}.

Definition request_of env (acc : BurnWrappedAccounts) (amount : Z) (address : list byte) c
  : WithdrawalRequest :=
  {| index := withdrawal_count c; wr_amount := amount; requester := bw_user acc;
     glc_address := splice (zeros 64) 0 address;
     glc_address_len := as_u8 (Z.of_nat (length address)); status := Pending;
     requested_at_slot := slot env; wr_protocol_version := protocol_version c;
     wr_bump := bw_bump_withdrawal_request acc; wr_reserved := zeros 48 |}.

Record complete_ok env (idx : Z) (txid : Bytes32) (h claim_ep : Z) b c s w : Prop := {
  co_config : bridge_config b = Some c;
  co_set : validator_set b = Some s;
  co_request : withdrawal_requests b !! idx = Some w;
  co_running : paused c = false;
  co_epoch : claim_ep = epoch s;
  co_pending : status w = Pending;
  co_unset : payout_record_is_unset w = true;
  co_txid : txid <> zeros 32;
  co_height : 0 < h;
  co_address : 1 <= glc_address_len w <= Z.of_nat (length (glc_address w));
  co_approved : approved env s (encode (completion_statement idx txid h w c s))
}.

Definition rotation_action (e : Z) (bump : Z) (vs : list Pubkey) (t : Z) s :=
  {| action := ACTION_PROPOSE_ROTATION; proposed_under_epoch := epoch s; eta := e;
     proposed_threshold := t; proposed_validators := vs; action_bump := bump;
     proposed_max_wrapped_supply := 0; action_reserved := zeros 24 |}.

Definition cap_action (e : Z) (bump new_max : Z) s :=
  {| action := ACTION_PROPOSE_TVL_RAISE; proposed_under_epoch := epoch s; eta := e;
     proposed_threshold := 0; proposed_validators := []; action_bump := bump;
     proposed_max_wrapped_supply := new_max; action_reserved := zeros 24 |}.

Definition initial_config (acc : InitializeAccounts) (min_dep min_wd timelock cap : Z) :=
  {| protocol_version := PROTOCOL_VERSION; admin := init_authority acc;
     pending_admin := None; paused := false; withdrawal_count := 0;
     min_deposit := min_dep; min_withdrawal := min_wd;
     config_bump := bump_bridge_config acc; wrapped_mint := default_pubkey;
     mint_authority_bump := 0; governance_timelock_seconds := timelock;
     max_wrapped_supply := cap; config_reserved := zeros 15 |}.

Definition initial_set (acc : InitializeAccounts) (vs : list Pubkey) (t : Z) :=
  {| epoch := 0; threshold := t; set_bump := bump_validator_set acc; validators := vs;
     set_reserved := zeros 32 |}.

Definition vcount (vs : list Pubkey) : Z := as_u8 (Z.of_nat (length vs)).

Inductive transition env b : BridgeInstruction -> Bridge -> list Event -> Prop :=
| T_initialize acc vs t md mw tl cap :
    bridge_config b = None -> validator_set b = None ->
    programdata_address acc = Some (program_data_key acc) ->
    upgrade_authority_address acc = Some (init_authority acc) ->
    valid_validator_set vs t -> 0 < tl -> 0 < cap ->
    transition env b (Initialize acc vs t md mw tl cap)
      (put_set (put_config b (initial_config acc md mw tl cap)) (initial_set acc vs t))
      [BridgeInitialized (init_authority acc) PROTOCOL_VERSION t (vcount vs)]
| T_set_paused c p :
    bridge_config b = Some c -> paused c <> p ->
    transition env b (SetPaused (admin c) p) (put_config b (set_paused_field c p))
      [PauseStateChanged p]
| T_lower_cap c m :
    bridge_config b = Some c -> 0 < m < max_wrapped_supply c ->
    transition env b (LowerWrappedSupplyCap (admin c) m) (put_config b (set_cap c m))
      [WrappedSupplyCapChanged (max_wrapped_supply c) m false]
| T_transfer_admin c a :
    bridge_config b = Some c -> a <> admin c ->
    transition env b (TransferAdmin (admin c) a)
      (put_config b (set_admins c (admin c) (Some a)))
      [AdminTransferInitiated (admin c) a]
| T_accept_admin c a :
    bridge_config b = Some c -> pending_admin c = Some a ->
    transition env b (AcceptAdmin a) (put_config b (set_admins c a None))
      [AdminTransferred (admin c) a]
| T_create_mint acc c t :
    bridge_config b = Some c -> admin c = cm_admin acc -> wrapped_mint c = default_pubkey ->
    initialize_mint (tokens b) (cm_wrapped_mint acc) WRAPPED_GLC_DECIMALS mint_authority_pda
      = Some t ->
    transition env b (CreateWrappedMint acc)
      (put_config (put_tokens b t)
         (set_mint c (cm_wrapped_mint acc) (cm_bump_mint_authority acc)))
      [WrappedMintCreated (cm_wrapped_mint acc) mint_authority_pda WRAPPED_GLC_DECIMALS]
| T_mint acc txid vout amount e c s supply t :
    mint_ok env acc txid vout amount e b c s supply ->
    mint_to_checked (tokens b) (wrapped_mint c) (mw_recipient_token_account acc)
      mint_authority_pda amount WRAPPED_GLC_DECIMALS = Some t ->
    transition env b (MintWrapped acc txid vout amount e)
      (put_claim (put_tokens b t) (txid, vout) (claim_of env acc txid vout amount c s))
      [DepositClaimMinted txid vout (mw_recipient acc) amount (epoch s)]
| T_burn acc amount address c t :
    burn_ok acc amount address b c ->
    burn_checked (tokens b) (bw_user_token_account acc) (wrapped_mint c) (bw_user acc) amount
      WRAPPED_GLC_DECIMALS = Some t ->
    transition env b (BurnWrapped acc amount address)
      (put_config (put_withdrawal (put_tokens b t) (withdrawal_count c)
                     (request_of env acc amount address c))
         (set_withdrawal_count c (withdrawal_count c + 1)))
      [WithdrawalRequested (withdrawal_count c) (bw_user acc) amount address]
| T_complete idx txid h e c s w :
    complete_ok env idx txid h e b c s w ->
    transition env b (CompleteWithdrawal idx txid h e)
      (put_withdrawal b idx (with_status (set_payout_record w txid h) Completed))
      [WithdrawalCompleted idx txid h (wr_amount w) (epoch s)]
| T_propose_rotation bump vs t c s e :
    bridge_config b = Some c -> validator_set b = Some s -> pending_action b = None ->
    valid_validator_set vs t ->
    approved env s (encode (governance_statement ACTION_PROPOSE_ROTATION
                              (rotation_params t vs) c s)) ->
    i64_checked_add (unix_timestamp env) (governance_timelock_seconds c) = Some e ->
    transition env b (ProposeValidatorRotation bump vs t)
      (put_pending b (Some (rotation_action e bump vs t s)))
      [GovernanceActionProposed ACTION_PROPOSE_ROTATION (epoch s) e t (vcount vs)]
| T_execute_rotation c s p :
    bridge_config b = Some c -> validator_set b = Some s -> pending_action b = Some p ->
    action p = ACTION_PROPOSE_ROTATION -> eta p <= unix_timestamp env ->
    proposed_under_epoch p = epoch s ->
    valid_validator_set (proposed_validators p) (proposed_threshold p) ->
    epoch s + 1 <= U64_MAX ->
    transition env b ExecuteValidatorRotation
      (put_pending (put_set b (set_validators s (epoch s + 1) (proposed_threshold p)
                                 (proposed_validators p))) None)
      [GovernanceActionExecuted ACTION_PROPOSE_ROTATION (epoch s + 1)]
| T_propose_cap bump m c s e :
    bridge_config b = Some c -> validator_set b = Some s -> pending_action b = None ->
    max_wrapped_supply c < m ->
    approved env s (encode (governance_statement ACTION_PROPOSE_TVL_RAISE
                              (tvl_raise_params m) c s)) ->
    i64_checked_add (unix_timestamp env) (governance_timelock_seconds c) = Some e ->
    transition env b (ProposeWrappedSupplyCapRaise bump m)
      (put_pending b (Some (cap_action e bump m s)))
      [GovernanceActionProposed ACTION_PROPOSE_TVL_RAISE (epoch s) e 0 0]
| T_execute_cap c s p :
    bridge_config b = Some c -> validator_set b = Some s -> pending_action b = Some p ->
    action p = ACTION_PROPOSE_TVL_RAISE -> eta p <= unix_timestamp env ->
    proposed_under_epoch p = epoch s ->
    max_wrapped_supply c < proposed_max_wrapped_supply p ->
    transition env b ExecuteWrappedSupplyCapRaise
      (put_pending (put_config b (set_cap c (proposed_max_wrapped_supply p))) None)
      [WrappedSupplyCapChanged (max_wrapped_supply c) (proposed_max_wrapped_supply p) true;
       GovernanceActionExecuted ACTION_PROPOSE_TVL_RAISE (epoch s)]
| T_cancel c s p :
    bridge_config b = Some c -> validator_set b = Some s -> pending_action b = Some p ->
    approved env s (encode (governance_statement ACTION_CANCEL_ROTATION
                              (cancel_params (action p) (eta p)) c s)) ->
    transition env b CancelValidatorRotation (put_pending b None)
      [GovernanceActionCancelled (action p) (eta p)].

(** ** Soundness of the handlers *)

Definition set_bounded b : Prop :=
  forall s, validator_set b = Some s -> (length (validators s) <= MAX_VALIDATORS)%nat.

Ltac checked :=
  repeat match goal with
  | H : u64_checked_add _ _ = Some _ |- _ => apply u64_checked_add_Some in H as [-> ?]
  | H : require_federation_approval _ _ _ = Ok _ |- _ =>
      apply require_federation_approval_Ok in H; [|by eauto]
  | H : validate_validator_set _ _ = Ok _ |- _ => apply validate_validator_set_Ok in H
  | H : bw_wrapped_mint ?a = _ |- _ => rewrite H in *; clear H; try subst
  end.

Lemma mint_wrapped_sound env acc txid vout amount e b b' evs :
  set_bounded b -> mint_wrapped env acc txid vout amount e b = Ok (b', evs) ->
  transition env b (MintWrapped acc txid vout amount e) b' evs.
Proof.
  intros Hlen H. unfold mint_wrapped in H. handler_inv. checked.
  match goal with Hw : mw_wrapped_mint acc = wrapped_mint ?c |- _ => rewrite Hw in * end.
  eapply T_mint; [constructor; eauto|eassumption]. apply approved_spec; eauto 10.
Qed.

Lemma burn_wrapped_sound env acc amount address b b' evs :
  burn_wrapped env acc amount address b = Ok (b', evs) ->
  transition env b (BurnWrapped acc amount address) b' evs.
Proof.
  intros H. unfold burn_wrapped in H. handler_inv.
  match goal with Hw : bw_wrapped_mint acc = wrapped_mint ?c |- _ => rewrite Hw in * end.
  match goal with H : (_ <=? _)%nat = true |- _ => apply Nat.leb_le in H end.
  match goal with H : u64_checked_add _ _ = Some _ |- _ =>
    apply u64_checked_add_Some in H as [-> ?] end.
  eapply T_burn; [constructor; eauto|eassumption].
Qed.

Lemma complete_withdrawal_sound env idx txid h e b b' evs :
  set_bounded b -> complete_withdrawal env idx txid h e b = Ok (b', evs) ->
  transition env b (CompleteWithdrawal idx txid h e) b' evs.
Proof.
  intros Hlen H. unfold complete_withdrawal in H. handler_inv.
  eapply T_complete; constructor; eauto. apply approved_spec; eauto 10.
Qed.

Lemma exec_sound env i b b' evs :
  set_bounded b -> exec env i b = Ok (b', evs) -> transition env b i b' evs.
Proof.
  intros Hlen H. destruct i; cbn [exec] in H;
    eauto using mint_wrapped_sound, burn_wrapped_sound, complete_withdrawal_sound.
  all: unfold initialize, set_paused, propose_validator_rotation, execute_validator_rotation,
    cancel_validator_rotation, transfer_admin, accept_admin, create_wrapped_mint,
    lower_wrapped_supply_cap, propose_wrapped_supply_cap_raise,
    execute_wrapped_supply_cap_raise, admin_config in H; handler_inv; checked.
  all: try (econstructor; eauto; fail).
  apply T_set_paused; [done|]. by apply eqb_false_iff.
Qed.

(** ** Completeness: a transition is what the handler computes *)

Lemma validate_valid vs t :
  valid_validator_set vs t -> validate_validator_set vs t = Ok tt.
Proof. apply validate_validator_set_Ok. Qed.

Lemma approval_runs env s msg :
  (length (validators s) <= MAX_VALIDATORS)%nat ->
  approved env s msg -> require_federation_approval env s msg = Ok tt.
Proof. intros ? ?. by apply require_federation_approval_Ok. Qed.

Lemma mint_wrapped_complete env acc txid vout amount e b c s supply t :
  set_bounded b -> mint_ok env acc txid vout amount e b c s supply ->
  mint_to_checked (tokens b) (wrapped_mint c) (mw_recipient_token_account acc)
    mint_authority_pda amount WRAPPED_GLC_DECIMALS = Some t ->
  mint_wrapped env acc txid vout amount e b =
  Ok (put_claim (put_tokens b t) (txid, vout) (claim_of env acc txid vout amount c s),
      [DepositClaimMinted txid vout (mw_recipient acc) amount (epoch s)]).
Proof.
  intros Hlen [] Ht. subst. destruct mo_account0 as [bal Hbal].
  apply approved_spec in mo_approved0 as (ix & n & Hix & Hid & Hc & Hn); [|eauto].
  unfold mint_wrapped. rewrite mo_config0, mo_set0, mo_fresh0. handler_run.
  rewrite mo_mint0, mo_supply0, Hbal, mo_owner0, mo_running0, Hix. handler_run.
  rewrite (proj2 (u64_checked_add_Some supply amount _)) by done.
  handler_run. unfold mint_statement, encode in Hc. rewrite Hc. handler_run.
  by rewrite Ht.
Qed.

Lemma burn_wrapped_complete env acc amount address b c t :
  burn_ok acc amount address b c ->
  burn_checked (tokens b) (bw_user_token_account acc) (wrapped_mint c) (bw_user acc) amount
    WRAPPED_GLC_DECIMALS = Some t ->
  burn_wrapped env acc amount address b =
  Ok (put_config (put_withdrawal (put_tokens b t) (withdrawal_count c)
                    (request_of env acc amount address c))
        (set_withdrawal_count c (withdrawal_count c + 1)),
      [WithdrawalRequested (withdrawal_count c) (bw_user acc) amount address]).
Proof.
  intros [] Ht. destruct bo_account0 as [bal Hbal], bo_mint_exists0 as [sup Hsup].
  unfold burn_wrapped. rewrite bo_config0. handler_run.
  rewrite bo_mint0, Hsup, Hbal, bo_fresh0, bo_owner0, bo_running0. handler_run.
  rewrite (proj2 (Nat.leb_le _ _)) by done. handler_run.
  rewrite (proj2 (u64_checked_add_Some (withdrawal_count c) 1 _)) by done. handler_run.
  by rewrite Ht.
Qed.

Lemma complete_withdrawal_complete env idx txid h e b c s w :
  set_bounded b -> complete_ok env idx txid h e b c s w ->
  complete_withdrawal env idx txid h e b =
  Ok (put_withdrawal b idx (with_status (set_payout_record w txid h) Completed),
      [WithdrawalCompleted idx txid h (wr_amount w) (epoch s)]).
Proof.
  intros Hlen []. subst. destruct co_address0.
  apply approved_spec in co_approved0 as (ix & n & Hix & Hid & Hc & Hn); [|eauto].
  unfold complete_withdrawal. rewrite co_config0, co_set0, co_request0. handler_run.
  rewrite co_running0, co_pending0, co_unset0, Hix. handler_run.
  unfold completion_statement, encode in Hc. rewrite Hc. by handler_run.
Qed.

Ltac run_facts :=
  handler_run;
  repeat (match goal with
    | H : _ = Some _ |- _ => rewrite H
    | H : _ = None |- _ => rewrite H
    | H : action _ = _ |- _ => rewrite H
    | H : proposed_under_epoch _ = _ |- _ => rewrite H
    | H : valid_validator_set _ _ |- _ => rewrite (validate_valid _ _ H)
    end; handler_run).

Lemma exec_complete env i b b' evs :
  set_bounded b -> transition env b i b' evs -> exec env i b = Ok (b', evs).
Proof.
  intros Hlen []; cbn [exec];
    eauto using mint_wrapped_complete, burn_wrapped_complete, complete_withdrawal_complete.
  all: unfold initialize, set_paused, propose_validator_rotation, execute_validator_rotation,
    cancel_validator_rotation, transfer_admin, accept_admin, create_wrapped_mint,
    lower_wrapped_supply_cap, propose_wrapped_supply_cap_raise,
    execute_wrapped_supply_cap_raise, admin_config.
  all: run_facts; try done.
  all: try (rewrite approval_runs by (done || by apply Hlen); by run_facts).
  - by rewrite (proj2 (eqb_false_iff _ _)).
  - destruct H0. handler_run. rewrite (proj2 (Z.eqb_neq _ _)) by lia. by handler_run.
  - rewrite (proj2 (u64_checked_add_Some (epoch s) 1 _)) by done. by handler_run.
Qed.

(** On states whose validator set is bounded, the handlers compute exactly
    the transition system. *)
Lemma exec_iff env i b b' evs :
  set_bounded b -> exec env i b = Ok (b', evs) <-> transition env b i b' evs.
Proof. intros. split; [by apply exec_sound|by apply exec_complete]. Qed.
End handlers.

(** Exposes the conditions of a transition rule. *)
Ltac open_ok :=
  try match goal with
  | H : mint_ok _ _ _ _ _ _ _ _ _ _ |- _ => destruct H
  | H : burn_ok _ _ _ _ _ |- _ => destruct H
  | H : complete_ok _ _ _ _ _ _ _ _ _ |- _ => destruct H
  end.
