(* ===== verification/Invariants.v ===== *)
(** * Reachable states of the bridge program and their invariant

    [steps ls b] : the history [ls] of successful transactions (and of token
    activity outside the program) leads from an empty deployment to [b].
    [bridge_inv] is the well-formedness of the on-chain state; every
    instruction preserves it, so it holds of every reachable state. *)
From Stdlib Require Import ZArith Lia Strings.Byte.
From stdpp Require Import base numbers strings gmap list.
From S2P Require Import Prelude Messages State Validation Verification Token Program Handlers.

Definition is_pubkey (k : Pubkey) : Prop := length k = 32%nat.

(** The Rust types of the instruction arguments. *)
Definition env_wf (env : TxEnv) : Prop := in_i64 (unix_timestamp env) /\ in_u64 (slot env).

Definition instr_wf (i : BridgeInstruction) : Prop :=
  match i with
  | Initialize acc vs t md mw tl cap =>
      is_pubkey (init_authority acc) /\ Forall is_pubkey vs /\ in_u8 t /\ in_u64 md /\
      in_u64 mw /\ in_i64 tl /\ in_u64 cap
  | SetPaused s _ | AcceptAdmin s => is_pubkey s
  | ProposeValidatorRotation _ vs t => Forall is_pubkey vs /\ in_u8 t
  | ExecuteValidatorRotation | CancelValidatorRotation | ExecuteWrappedSupplyCapRaise => True
  | TransferAdmin s a => is_pubkey s /\ is_pubkey a
  | CreateWrappedMint acc => is_pubkey (cm_wrapped_mint acc)
  | MintWrapped acc txid vout amount e =>
      is_pubkey (mw_recipient acc) /\ length txid = 32%nat /\ in_u32 vout /\ in_u64 amount /\
      in_u64 e
  | BurnWrapped acc amount _ => is_pubkey (bw_user acc) /\ in_u64 amount
  | LowerWrappedSupplyCap s m => is_pubkey s /\ in_u64 m
  | ProposeWrappedSupplyCapRaise _ m => in_u64 m
  | CompleteWithdrawal idx txid h e =>
      in_u64 idx /\ length txid = 32%nat /\ in_u64 h /\ in_u64 e
  end.

(** ** The invariant *)

Record config_ok (c : BridgeConfig) : Prop := {
  cfg_version : protocol_version c = PROTOCOL_VERSION;
  cfg_timelock : 0 < governance_timelock_seconds c /\ in_i64 (governance_timelock_seconds c);
  cfg_cap : 0 < max_wrapped_supply c /\ in_u64 (max_wrapped_supply c);
  cfg_count : in_u64 (withdrawal_count c);
  cfg_mint : is_pubkey (wrapped_mint c)
}.

Record set_ok (s : ValidatorSet) : Prop := {
  so_valid : valid_validator_set (validators s) (threshold s);
  so_keys : Forall is_pubkey (validators s);
  so_epoch : in_u64 (epoch s)
}.

(** A pending action was proposed under the epoch that still rules, and is
    one of the two executable kinds with a payload its execution accepts. *)
Record pending_ok (c : BridgeConfig) (s : ValidatorSet) (p : PendingGovernanceAction) : Prop := {
  po_epoch : proposed_under_epoch p = epoch s;
  po_eta : in_i64 (eta p);
  po_payload :
    (action p = ACTION_PROPOSE_ROTATION /\
     valid_validator_set (proposed_validators p) (proposed_threshold p) /\
     Forall is_pubkey (proposed_validators p)) \/
    (action p = ACTION_PROPOSE_TVL_RAISE /\
     max_wrapped_supply c < proposed_max_wrapped_supply p /\
     in_u64 (proposed_max_wrapped_supply p))
}.

Record claim_ok (s : ValidatorSet) (k : Bytes32 * Z) (d : DepositClaim) : Prop := {
  cl_key : k = (claim_txid d, claim_vout d);
  cl_amount : 0 < claim_amount d /\ in_u64 (claim_amount d);
  cl_epoch : claim_epoch d <= epoch s
}.

(** A withdrawal sits at its own index, is [Pending] with a blank payout
    record or [Completed] with a real one, and is never [Broadcast]. *)
Record request_ok (c : BridgeConfig) (i : Z) (w : WithdrawalRequest) : Prop := {
  rq_index : index w = i;
  rq_range : 0 <= i < withdrawal_count c;
  rq_amount : 0 < wr_amount w /\ in_u64 (wr_amount w);
  rq_address : length (glc_address w) = 64%nat /\ 1 <= glc_address_len w <= 64;
  rq_record :
    (status w = Pending /\ wr_reserved w = zeros 48) \/
    (status w = Completed /\ length (wr_reserved w) = 48%nat /\
     exists txid h, payout_record w = Some (txid, h) /\ txid <> zeros 32 /\ 0 < h)
}.

Section reachable.
Context {T : SplToken} {R : Runtime}.
Implicit Types b : Bridge.

Definition genesis (t : token_state) : Bridge :=
  {| bridge_config := None; validator_set := None; pending_action := None;
     deposit_claims := ∅; withdrawal_requests := ∅; tokens := t |}.

Inductive bridge_inv b : Prop :=
| inv_undeployed :
    bridge_config b = None -> validator_set b = None -> pending_action b = None ->
    deposit_claims b = ∅ -> withdrawal_requests b = ∅ -> bridge_inv b
| inv_live c s :
    bridge_config b = Some c -> validator_set b = Some s ->
    config_ok c -> set_ok s ->
    (forall p, pending_action b = Some p -> pending_ok c s p) ->
    map_Forall (claim_ok s) (deposit_claims b) ->
    map_Forall (request_ok c) (withdrawal_requests b) ->
    (forall i, 0 <= i < withdrawal_count c -> is_Some (withdrawal_requests b !! i)) ->
    bridge_inv b.

(** A successful transaction, or activity of other programs on the tokens. *)
Inductive Label := Tx (env : TxEnv) (i : BridgeInstruction) | External.

Inductive step b : Label -> Bridge -> Prop :=
| step_tx env i b' evs :
    env_wf env -> instr_wf i -> exec env i b = Ok (b', evs) -> step b (Tx env i) b'
| step_external t' :
    external_step mint_authority_pda (tokens b) t' -> step b External (put_tokens b t').

Inductive steps : list Label -> Bridge -> Prop :=
| steps_nil t : steps [] (genesis t)
| steps_snoc ls b l b' : steps ls b -> step b l b' -> steps (ls ++ [l]) b'.

(** ** Preservation *)

Lemma inv_set_bounded b : bridge_inv b -> set_bounded b.
Proof.
  intros [?|c s ? ? ? [(_ & ? & _) _ _]] s'; [congruence|]. intros. by simplify_eq.
Qed.

Lemma inv_deployed b c :
  bridge_inv b -> bridge_config b = Some c ->
  exists s, validator_set b = Some s /\ config_ok c /\ set_ok s.
Proof. intros [|c' s'] ?; [congruence|]. simplify_eq. eauto. Qed.

Lemma as_u8_small z : 0 <= z < 256 -> as_u8 z = z.
Proof. apply Z.mod_small. Qed.

Lemma request_of_ok env acc amount address b c :
  burn_ok acc amount address b c -> in_u64 amount -> in_u64 (withdrawal_count c) ->
  request_ok (set_withdrawal_count c (withdrawal_count c + 1)) (withdrawal_count c)
    (request_of env acc amount address c).
Proof.
  intros [] Ha Hc. unfold request_of, MAX_GLC_ADDRESS_LEN in *.
  assert (1 <= Z.of_nat (length address)) by (destruct address; [done|cbn; lia]).
  constructor; cbn -[splice zeros]; auto.
  - unfold in_u64 in *. lia.
  - rewrite as_u8_small by lia. split; [|lia].
    by rewrite length_splice by (unfold zeros; rewrite length_replicate; lia).
Qed.

Lemma request_ok_mono c c' i w :
  withdrawal_count c <= withdrawal_count c' -> request_ok c i w -> request_ok c' i w.
Proof. intros ? []. constructor; auto. lia. Qed.

Lemma completed_ok c i w txid h :
  request_ok c i w -> status w = Pending -> length txid = 32%nat -> txid <> zeros 32 ->
  in_u64 h -> 0 < h -> request_ok c i (with_status (set_payout_record w txid h) Completed).
Proof.
  intros [] Hst Hlen Hz Hh Hpos.
  destruct rq_record0 as [[_ Hr]|[? _]]; [|congruence].
  destruct (payout_record_written w txid h) as (Hrec & Hl & _); [by rewrite Hr|done|done|].
  constructor; cbn; auto. right. split_and!; eauto.
Qed.

Lemma request_ok_same c c' i w :
  withdrawal_count c' = withdrawal_count c -> request_ok c i w -> request_ok c' i w.
Proof. intros E. apply request_ok_mono. lia. Qed.

(** Configuration updates that keep the counter and do not raise the cap. *)
Lemma inv_config_change b t c c' :
  bridge_inv b -> bridge_config b = Some c -> config_ok c' ->
  withdrawal_count c' = withdrawal_count c ->
  max_wrapped_supply c' <= max_wrapped_supply c ->
  bridge_inv (put_config (put_tokens b t) c').
Proof.
  intros [|c0 s Hc Hs _ Hsok Hp Hd Hw Hdense] Hc0 Hok Hn Hm; [congruence|]. simplify_eq.
  apply (inv_live _ c' s); cbn; auto; try done.
  - intros p Hpp. destruct (Hp p Hpp) as [? ? [?|(? & ? & ?)]]; constructor; auto.
    right. split_and!; auto. lia.
  - eapply map_Forall_impl; [exact Hw|]. intros ???. by eapply request_ok_same.
  - by rewrite Hn.
Qed.

Lemma config_ok_update c c' :
  config_ok c -> protocol_version c' = protocol_version c ->
  governance_timelock_seconds c' = governance_timelock_seconds c ->
  0 < max_wrapped_supply c' -> in_u64 (max_wrapped_supply c') ->
  in_u64 (withdrawal_count c') -> is_pubkey (wrapped_mint c') -> config_ok c'.
Proof. intros [] Hv Ht. constructor; rewrite ?Hv, ?Ht; auto. Qed.

Lemma bridge_inv_preserved env i b b' evs :
  env_wf env -> instr_wf i -> bridge_inv b -> transition env b i b' evs -> bridge_inv b'.
Proof.
  intros [Hts _] Hi Hinv Htr.
  destruct Hinv as [Hc Hs Hp Hd Hw|c s Hc Hs Hcok Hsok Hp Hd Hw Hdense].
  - destruct Htr; try congruence; try (by destruct H; congruence).
    destruct Hi as (? & ? & ? & ? & ? & ? & ?).
    apply (inv_live _ (initial_config acc md mw tl cap) (initial_set acc vs t)); cbn -[zeros].
    1-2: done.
    1-2: by constructor.
    + congruence.
    + rewrite Hd. apply map_Forall_empty.
    + rewrite Hw. apply map_Forall_empty.
    + lia.
  - assert (bridge_inv b) as Hinv by (by eapply inv_live).
    pose proof (fun c' => config_ok_update c c' Hcok) as Hup.
    destruct Hcok as [Hv Ht [Hcap0 Hcap] Hcount Hmint].
    assert (ACTION_PROPOSE_ROTATION <> ACTION_PROPOSE_TVL_RAISE) as Hne by done.
    destruct Htr; cbn in Hi; destruct_and?; try congruence; simplify_eq.
    + apply (inv_config_change b (tokens b) c); cbn; auto; try lia; by apply Hup.
    + apply (inv_config_change b (tokens b) c); cbn; auto; try lia; apply Hup; cbn; auto; lia.
    + apply (inv_config_change b (tokens b) c); cbn; auto; try lia; by apply Hup.
    + apply (inv_config_change b (tokens b) c); cbn; auto; try lia; by apply Hup.
    + apply (inv_config_change b t c); cbn; auto; try lia; by apply Hup.
    + destruct H; simplify_eq. apply (inv_live _ c s); cbn; auto; try by apply Hup.
      apply map_Forall_insert_2; [|done]. by constructor.
    + pose proof (request_of_ok env _ _ _ _ _ H) as Hreq. destruct H; simplify_eq.
      apply (inv_live _ (set_withdrawal_count c (withdrawal_count c + 1)) s); auto.
      * apply Hup; cbn; auto. unfold in_u64 in *. lia.
      * cbn. intros p Hpp. destruct (Hp p Hpp). by constructor.
      * cbn -[request_of]. apply map_Forall_insert_2; [by apply Hreq|].
        eapply map_Forall_impl; [exact Hw|]. intros. apply (request_ok_mono c); [cbn; lia|done].
      * cbn. intros i Hi. destruct (decide (i = withdrawal_count c)) as [->|].
        { rewrite lookup_insert_eq. eauto. }
        rewrite lookup_insert_ne by done. apply Hdense. lia.
    + destruct H; simplify_eq. apply (inv_live _ c s); cbn -[set_payout_record]; auto;
        try by apply Hup.
      * apply map_Forall_insert_2; [|done]. apply completed_ok; auto.
      * intros i Hi. destruct (decide (i = idx)) as [->|].
        { rewrite lookup_insert_eq. eauto. }
        rewrite lookup_insert_ne by done. auto.
    + apply i64_checked_add_Some in H4 as [-> ?].
      apply (inv_live _ c s); cbn; auto; try by apply Hup.
      intros p [= <-]. constructor; cbn; auto.
    + destruct (Hp p) as [? ? [(? & ? & ?)|(? & ?)]]; [done| |congruence].
      destruct Hsok as [? ? He]. unfold in_u64 in He.
      apply (inv_live _ c (set_validators s (epoch s + 1) (proposed_threshold p)
                             (proposed_validators p))); cbn; auto; try by apply Hup.
      * constructor; cbn; auto. unfold in_u64; lia.
      * done.
      * eapply map_Forall_impl; [exact Hd|]. intros k d []. constructor; cbn; auto. lia.
    + apply i64_checked_add_Some in H4 as [-> ?].
      apply (inv_live _ c s); cbn; auto; try by apply Hup.
      intros p [= <-]. constructor; cbn; auto.
    + destruct (Hp p) as [? ? [(? & ?)|(? & ? & ?)]]; [done|congruence|].
      apply (inv_live _ (set_cap c (proposed_max_wrapped_supply p)) s); cbn; auto; try done.
      * apply Hup; cbn; auto. lia.
      * eapply map_Forall_impl; [exact Hw|]. intros ???. by apply (request_ok_same c).
    + apply (inv_live _ c s); cbn; auto; try (by apply Hup); try done.
Qed.

Lemma steps_inv ls b : steps ls b -> bridge_inv b.
Proof.
  induction 1 as [|ls b l b' _ IH Hstep]; [by apply inv_undeployed|].
  destruct Hstep as [env i b' evs He Hi Hx|t' _].
  - apply exec_iff in Hx; [|by apply inv_set_bounded]. by eapply bridge_inv_preserved.
  - destruct IH; [by apply inv_undeployed|by eapply inv_live].
Qed.
End reachable.

(** ** The decimals of the wrapped mint *)

Section decimals.
Context {T : SplToken} {A : SplTokenAccepts T} {R : Runtime}.

Definition decimals_known (b : Bridge) : Prop :=
  forall c, bridge_config b = Some c -> wrapped_mint c <> default_pubkey ->
    mint_decimals (tokens b) (wrapped_mint c) = Some WRAPPED_GLC_DECIMALS.

Lemma decimals_known_transition env i b b' evs :
  transition env b i b' evs -> decimals_known b -> decimals_known b'.
Proof.
  intros Htr Hk c' Hc' Hm. destruct Htr; cbn in *; simplify_eq; cbn in *; try done; try (by apply Hk).
  - by eapply initialize_mint_decimals.
  - destruct H. simplify_eq. erewrite mint_to_checked_decimals by done. by apply Hk.
  - destruct H. simplify_eq. erewrite burn_checked_decimals by done. by apply Hk.
Qed.

(** Once the program has created its mint, the mint has the program's decimals. *)
Lemma steps_decimals ls b : steps ls b -> decimals_known b.
Proof.
  induction 1 as [|ls b l b' Hls IH Hstep]; [by intros ?|].
  destruct Hstep as [env i b' evs He Hi Hx|t' Ht].
  - apply exec_iff in Hx; [|by eapply inv_set_bounded, steps_inv]. by eapply decimals_known_transition.
  - intros c Hc Hm. eapply external_step_decimals; [exact Ht|]. by apply IH.
Qed.
End decimals.
