(* ===== verification/SignatureProof.v ===== *)
(** * The relayer's ed25519 instruction builder: [relayer/src/signer/aggregate.rs]

    [build_ed25519_instruction] lays out the precompile data with one
    [copy_from_slice] per field; the main theorem runs the on-chain parser of
    [Verification] on the result.  [count_unique_threshold_signers] is the
    client-side threshold pre-check. *)
From Stdlib Require Import ZArith Lia Strings.Byte.
From stdpp Require Import base numbers strings gmap list.
From S2P Require Import Prelude Messages State Verification.

Abbreviation Signature := (list byte).

(** ** Sequences of writes into a buffer *)

Definition write (d : list byte) (w : nat * list byte) : list byte := splice d (fst w) (snd w).
Definition apply_writes (d : list byte) (ws : list (nat * list byte)) : list byte :=
  foldl write d ws.

Definition in_buffer (n : nat) (w : nat * list byte) : Prop := (fst w + length (snd w) <= n)%nat.
(** [w] does not touch the range [a, b). *)
Definition outside (a b : nat) (w : nat * list byte) : Prop :=
  (fst w + length (snd w) <= a \/ b <= fst w)%nat.

Lemma length_apply_writes d ws :
  Forall (in_buffer (length d)) ws -> length (apply_writes d ws) = length d.
Proof.
  revert d. induction ws as [|w ws IH]; intros d Hws; [done|].
  apply Forall_cons in Hws as [Hw Hws]. cbn.
  assert (length (write d w) = length d) as Hl by (by apply length_splice).
  rewrite IH; rewrite Hl; done.
Qed.

Lemma get_range_apply_writes d ws a b :
  Forall (in_buffer (length d)) ws -> Forall (outside a b) ws ->
  get_range (apply_writes d ws) a b = get_range d a b.
Proof.
  revert d. induction ws as [|w ws IH]; intros d Hws Hout; [done|].
  apply Forall_cons in Hws as [Hw Hws], Hout as [Ho Hout]. cbn.
  assert (length (write d w) = length d) as Hl by (by apply length_splice).
  rewrite IH by (rewrite ?Hl; done).
  apply get_range_splice_other; [done|]. unfold outside in Ho. lia.
Qed.

(** A write is read back when no later write touches it. *)
Lemma get_range_written d ws1 ws2 o x b :
  Forall (in_buffer (length d)) (ws1 ++ (o, x) :: ws2) -> b = (o + length x)%nat ->
  Forall (outside o b) ws2 ->
  get_range (apply_writes d (ws1 ++ (o, x) :: ws2)) o b = Some x.
Proof.
  intros (H1 & [Hw H2]%Forall_cons)%Forall_app -> Hout. unfold apply_writes.
  rewrite foldl_app. cbn. fold (apply_writes d ws1).
  pose proof (length_apply_writes d ws1 H1) as Hl.
  assert (length (write (apply_writes d ws1) (o, x)) = length d) as Hl'.
  { unfold write. rewrite length_splice; [done|by rewrite Hl]. }
  change (get_range (apply_writes (write (apply_writes d ws1) (o, x)) ws2) o (o + length x) = Some x).
  rewrite get_range_apply_writes by (rewrite ?Hl'; done).
  apply get_range_splice_same; [by rewrite Hl|done].
Qed.

(** ** The builder *)

(** The nine [copy_from_slice] calls for entry [i]. *)
Definition entry_writes (entries_end keys_end msg_off : nat) (message : list byte)
    (i : nat) (ps : Pubkey * Signature) : list (nat * list byte) :=
  let base := (2 + i * 14)%nat in
  let pk_off := as_u16 (Z.of_nat (entries_end + i * 32)) in
  let sig_off := as_u16 (Z.of_nat (keys_end + i * 64)) in
  [(base, le_bytes 2 sig_off);
   (base + 2, le_bytes 2 SELF_REFERENCE);
   (base + 4, le_bytes 2 pk_off);
   (base + 6, le_bytes 2 SELF_REFERENCE);
   (base + 8, le_bytes 2 (as_u16 (Z.of_nat msg_off)));
   (base + 10, le_bytes 2 (as_u16 (Z.of_nat (length message))));
   (base + 12, le_bytes 2 SELF_REFERENCE);
   (entries_end + i * 32, fst ps);
   (keys_end + i * 64, snd ps)]%nat.

Fixpoint all_entry_writes (entries_end keys_end msg_off : nat) (message : list byte)
    (i : nat) (sigs : list (Pubkey * Signature)) : list (nat * list byte) :=
  match sigs with
  | [] => []
  | ps :: sigs => entry_writes entries_end keys_end msg_off message i ps ++
                  all_entry_writes entries_end keys_end msg_off message (S i) sigs
  end.

Definition build_ed25519_instruction (sigs : list (Pubkey * Signature)) (message : list byte)
  : list byte :=
  let n := length sigs in
  let entries_end := (2 + n * 14)%nat in
  let keys_end := (entries_end + n * 32)%nat in
  let sigs_end := (keys_end + n * 64)%nat in
  let msg_off := sigs_end in
  apply_writes (zeros (msg_off + length message))
    ([(0%nat, [byte_of_Z (as_u8 (Z.of_nat n))]); (1%nat, [x00])] ++
     all_entry_writes entries_end keys_end msg_off message 0 sigs ++
     [(msg_off, message)]).

(** ** The client-side threshold pre-check *)

Inductive ThresholdError := Insufficient (unique : nat) (threshold : Z).

Definition count_unique_threshold_signers (sigs : list (Pubkey * Signature))
    (validators : list Pubkey) (threshold : Z) : result ThresholdError nat :=
  let member_set : gset Pubkey := list_to_set validators in
  let unique : gset Pubkey := list_to_set (filter (fun pk => pk ∈ member_set) sigs.*1) in
  if threshold <=? Z.of_nat (size unique) then Ok (size unique)
  else Err (Insufficient (size unique) threshold).

(** ** The parser reads the builder's output back *)

Section layout.
Context (sigs : list (Pubkey * Signature)) (message : list byte).
Context (n entries_end keys_end msg_off : nat).
Local Notation ew := (entry_writes entries_end keys_end msg_off message).
Local Notation data := (build_ed25519_instruction sigs message).

Lemma all_entry_writes_elem k l w :
  w ∈ all_entry_writes entries_end keys_end msg_off message k l ->
  exists j ps, (k <= j < k + length l)%nat /\ l !! (j - k)%nat = Some ps /\ w ∈ ew j ps.
Proof.
  revert k. induction l as [|ps l IH]; intros k; cbn [all_entry_writes]; [by intros ?%elem_of_nil|].
  intros [Hw|Hw]%elem_of_app.
  - exists k, ps. rewrite Nat.sub_diag. cbn. split_and!; [lia|lia|done|done].
  - destruct (IH _ Hw) as (j & ps' & Hj & Hl & Hin). exists j, ps'. cbn.
    split_and!; [lia|lia| |done]. by replace (j - k)%nat with (S (j - S k)) by lia.
Qed.

Lemma all_entry_writes_split k l i ps :
  l !! i = Some ps ->
  exists A B, all_entry_writes entries_end keys_end msg_off message k l =
              A ++ ew (k + i) ps ++ B /\
    forall w, w ∈ B -> exists j ps', (k + i < j < k + length l)%nat /\
      l !! (j - k)%nat = Some ps' /\ w ∈ ew j ps'.
Proof.
  revert k i. induction l as [|ps0 l IH]; intros k [|i] Hi; try done; cbn in Hi; simplify_eq.
  - exists [], (all_entry_writes entries_end keys_end msg_off message (S k) l).
    rewrite Nat.add_0_r. split; [done|]. intros w Hw.
    destruct (all_entry_writes_elem _ _ _ Hw) as (j & ps' & Hj & Hl & Hin).
    exists j, ps'. cbn. split_and!; [lia|lia| |done].
    by replace (j - k)%nat with (S (j - S k)) by lia.
  - destruct (IH (S k) i Hi) as (A & B & Heq & HB).
    exists (entry_writes entries_end keys_end msg_off message k ps0 ++ A), B. cbn [all_entry_writes length].
    rewrite Heq, <- app_assoc. split; [by rewrite Nat.add_succ_r|].
    intros w Hw. destruct (HB w Hw) as (j & ps' & Hj & Hl & Hin).
    exists j, ps'. split_and!; [lia|lia| |done].
    by replace (j - k)%nat with (S (j - S k)) by lia.
Qed.

Hypothesis Hn : n = length sigs.
Hypothesis He : entries_end = (2 + n * 14)%nat.
Hypothesis Hk : keys_end = (entries_end + n * 32)%nat.
Hypothesis Hm : msg_off = (keys_end + n * 64)%nat.
Hypothesis Hkeys : Forall (fun ps => length ps.1 = 32%nat /\ length ps.2 = 64%nat) sigs.
Hypothesis Hfits : Z.of_nat (msg_off + length message) <= U16_MAX.


Lemma key_lengths j ps : sigs !! j = Some ps -> length ps.1 = 32%nat /\ length ps.2 = 64%nat.
Proof. intros H. rewrite Forall_lookup in Hkeys. eauto. Qed.

(** Splits a membership in a literal list and exposes the write. *)
Ltac cases_elem H :=
  repeat (apply elem_of_cons in H as [H|H]; [rewrite H|]); try by apply elem_of_nil in H.

Lemma entry_writes_shape j ps w :
  sigs !! j = Some ps -> w ∈ ew j ps ->
  ((2 + j * 14 <= fst w /\ fst w + length (snd w) <= 2 + j * 14 + 14) \/
   (fst w = entries_end + j * 32 /\ length (snd w) = 32) \/
   (fst w = keys_end + j * 64 /\ length (snd w) = 64))%nat.
Proof.
  intros Hj Hw. destruct (key_lengths _ _ Hj). unfold entry_writes in Hw.
  cases_elem Hw; cbn [fst snd]; rewrite ?length_le_bytes; auto; left; lia.
Qed.

Lemma writes_in_buffer :
  Forall (in_buffer (msg_off + length message))
    ([(0%nat, [byte_of_Z (as_u8 (Z.of_nat n))]); (1%nat, [x00])] ++
     all_entry_writes entries_end keys_end msg_off message 0 sigs ++ [(msg_off, message)]).
Proof.
  apply Forall_forall. intros w [Hw|[Hw|Hw]%elem_of_app]%elem_of_app; unfold in_buffer.
  - cases_elem Hw; cbn; lia.
  - apply all_entry_writes_elem in Hw as (j & ps & Hj & Hl & Hin).
    rewrite Nat.sub_0_r in Hl. pose proof (entry_writes_shape _ _ _ Hl Hin).
    nia.
  - cases_elem Hw. cbn. lia.
Qed.

(** Reading field [w] of entry [i], given how it sits in its own entry. *)
Lemma read_entry_write i ps o x b P Q :
  sigs !! i = Some ps -> ew i ps = P ++ (o, x) :: Q -> b = (o + length x)%nat ->
  Forall (outside o b) Q -> get_range data o b = Some x.
Proof.
  intros Hi Heq -> HQ. destruct (all_entry_writes_split 0 sigs i ps Hi) as (A & B & Hsp & HB).
  change (0 + i)%nat with i in Hsp.
  cbv beta zeta delta [build_ed25519_instruction]. rewrite <- Hn, <- He, <- Hk, <- Hm.
  pose proof writes_in_buffer as Hbuf. rewrite Hsp, Heq in *.
  match goal with |- get_range (apply_writes _ ?ws) _ _ = _ =>
    replace ws with (([(0%nat, [byte_of_Z (as_u8 (Z.of_nat n))]); (1%nat, [x00])] ++ A ++ P) ++
      (o, x) :: Q ++ B ++ [(msg_off, message)]) in Hbuf |- *
      by (by rewrite <- !app_assoc)
  end.
  apply get_range_written; [unfold zeros; by rewrite length_replicate|done|].
  assert ((o, x) ∈ ew i ps) as Hown by (rewrite Heq; set_solver).
  pose proof (entry_writes_shape _ _ _ Hi Hown) as Hsh. cbn [fst snd] in Hsh.
  apply lookup_lt_Some in Hi as Hin.
  rewrite !Forall_app. split_and!; [done| |].
  - apply Forall_forall. intros w Hw.
    destruct (HB w Hw) as (j & ps' & Hj & Hl & Hinj). rewrite Nat.sub_0_r in Hl.
    pose proof (entry_writes_shape _ _ _ Hl Hinj). unfold outside. nia.
  - apply Forall_singleton. unfold outside. cbn. nia.
Qed.

(** The [k]-th write of an entry, addressed by its number. *)
Lemma read_entry_nth i ps k o x a b :
  sigs !! i = Some ps -> ew i ps !! k = Some (o, x) -> a = o -> b = (o + length x)%nat ->
  Forall (outside a b) (drop (S k) (ew i ps)) -> get_range data a b = Some x.
Proof.
  intros Hi Hk' -> Hb HQ. eapply read_entry_write; [done| |done|done].
  symmetry. by apply take_drop_middle.
Qed.

Lemma header_write o x b :
  (o, x) ∈ [(0%nat, [byte_of_Z (as_u8 (Z.of_nat n))]); (1%nat, [x00])] ->
  b = (o + 1)%nat -> get_range data o b = Some x.
Proof.
  intros Hin ->. cbv beta zeta delta [build_ed25519_instruction].
  rewrite <- Hn, <- He, <- Hk, <- Hm. pose proof writes_in_buffer as Hbuf.
  assert (length x = 1%nat /\ (o < 2)%nat) as [Hx Ho].
  { apply elem_of_cons in Hin as [[= -> ->]|[[= -> ->]|Hin]%elem_of_cons]; [auto..|].
    by apply elem_of_nil in Hin. }
  apply list_elem_of_split in Hin as (P & Q & Heq). rewrite Heq, <- app_assoc in *.
  cbn [app] in *. apply get_range_written; [unfold zeros; by rewrite length_replicate|lia|].
  rewrite !Forall_app. split_and!.
  - destruct P as [|w P]; cbn in Heq; injection Heq as <- HQ.
    + subst Q. apply Forall_singleton. unfold outside. cbn. lia.
    + destruct P as [|? [|]]; cbn in HQ; simplify_eq. constructor.
  - apply Forall_forall. intros w Hw.
    apply all_entry_writes_elem in Hw as (j & ps' & Hj & Hl & Hinj).
    rewrite Nat.sub_0_r in Hl. pose proof (entry_writes_shape _ _ _ Hl Hinj).
    unfold outside. nia.
  - apply Forall_singleton. unfold outside. cbn. nia.
Qed.

Lemma message_write : get_range data msg_off (msg_off + length message) = Some message.
Proof.
  cbv beta zeta delta [build_ed25519_instruction]. rewrite <- Hn, <- He, <- Hk, <- Hm.
  pose proof writes_in_buffer as Hbuf. rewrite app_assoc in *.
  apply get_range_written; [unfold zeros; by rewrite length_replicate|done|constructor].
Qed.

Lemma entry_field i ps k z :
  sigs !! i = Some ps -> (k < 7)%nat ->
  snd <$> ew i ps !! k = Some (le_bytes 2 z) -> 0 <= z <= U16_MAX ->
  field data i k = Some z.
Proof.
  intros Hi Hk' Hz Hr. unfold field.
  destruct (ew i ps !! k) as [[o x]|] eqn:Ek; [|done].
  cbn [fmap option_fmap option_map snd] in Hz. injection Hz as ->.
  assert (o = (entry_base i + 2 * k)%nat) as Ho.
  { unfold entry_base. do 7 (destruct k as [|k]; [cbn in Ek; simplify_eq; lia|]). lia. }
  rewrite (read_entry_nth i ps k o (le_bytes 2 z)); rewrite ?length_le_bytes; try done.
  - cbn [fmap option_fmap option_map]. f_equal. rewrite le_val_le_bytes.
    apply Z.mod_small. unfold U16_MAX in Hr. cbn. lia.
  - lia.
  - unfold entry_base. apply lookup_lt_Some in Hi as Hin.
    do 7 (destruct k as [|k]; [cbn; repeat (apply Forall_cons; split); auto;
      unfold outside; cbn [fst snd]; rewrite ?length_le_bytes; lia|]). lia.
Qed.

Lemma build_entry_carries i pk sig :
  sigs !! i = Some (pk, sig) -> entry_carries data i pk sig message.
Proof.
  intros Hi. destruct (key_lengths _ _ Hi) as [Hpk Hsig]. cbn in Hpk, Hsig.
  apply lookup_lt_Some in Hi as Hin. unfold U16_MAX in Hfits.
  exists (Z.of_nat (keys_end + i * 64)), (Z.of_nat (entries_end + i * 32)),
    (Z.of_nat msg_off), (Z.of_nat (length message)).
  rewrite !Nat2Z.id.
  split_and!.
  1-7: eapply entry_field; [exact Hi|lia| |unfold SELF_REFERENCE, U16_MAX; nia];
       cbn [lookup list_lookup entry_writes fmap option_fmap option_map snd];
       try reflexivity; unfold as_u16; rewrite Z.mod_small by nia; reflexivity.
  - eapply (read_entry_nth i (pk, sig) 8); [exact Hi|reflexivity|done|cbn; lia|constructor].
  - eapply (read_entry_nth i (pk, sig) 7); [exact Hi|reflexivity|done|cbn; lia|].
    apply Forall_singleton. unfold outside. cbn. nia.
  - apply message_write.
Qed.
End layout.

Lemma get_range_lookup d o x : get_range d o (o + 1) = Some [x] -> d !! o = Some x.
Proof.
  intros (_ & Hle & Hx)%get_range_Some. replace (o + 1 - o)%nat with 1%nat in Hx by lia.
  destruct (drop o d) as [|y l] eqn:E; [done|]. cbn in Hx. injection Hx as ->.
  rewrite <- (Nat.add_0_r o), <- lookup_drop, E. done.
Qed.

(** The data of an instruction over [n] signatures and a message. *)
Definition instruction_size (n mlen : nat) : nat := (2 + n * 14 + n * 32 + n * 64 + mlen)%nat.

Lemma build_carries sigs message :
  Forall (fun ps => length ps.1 = 32%nat /\ length ps.2 = 64%nat) sigs ->
  Z.of_nat (instruction_size (length sigs) (length message)) <= U16_MAX ->
  (1 <= length sigs <= 255)%nat ->
  proof_carries (build_ed25519_instruction sigs message) message sigs.*1.
Proof.
  intros Hk Hfits Hn. unfold proof_carries. rewrite length_fmap.
  assert (as_u8 (Z.of_nat (length sigs)) = Z.of_nat (length sigs)) as Hu8
    by (apply Z.mod_small; lia).
  split_and!.
  - lia.
  - apply get_range_lookup.
    eapply (header_write sigs message (length sigs)); [done..| |done].
    rewrite Hu8. set_solver.
  - unfold U8_MAX. lia.
  - apply get_range_lookup.
    eapply (header_write sigs message (length sigs)); [done..| |done]. set_solver.
  - intros i pk Hi. rewrite list_lookup_fmap in Hi.
    destruct (sigs !! i) as [[pk' sig]|] eqn:E; cbn in Hi; simplify_eq.
    exists sig. by eapply build_entry_carries.
Qed.

(** ** Properties *)

Definition sized (sigs : list (Pubkey * Signature)) (message : list byte) : Prop :=
  Forall (fun ps => length ps.1 = 32%nat /\ length ps.2 = 64%nat) sigs /\
  Z.of_nat (instruction_size (length sigs) (length message)) <= U16_MAX /\
  (1 <= length sigs <= 255)%nat.

(** An entry names one key, one signature and one message. *)
Lemma entry_carries_fun data i pk sig msg pk' sig' msg' :
  entry_carries data i pk sig msg -> entry_carries data i pk' sig' msg' ->
  pk = pk' /\ sig = sig' /\ msg = msg'.
Proof.
  intros (? & ? & ? & ? & F1) (? & ? & ? & ? & F2). destruct_and!. by simplify_eq.
Qed.

(** Two readings of one proof name the same signers. *)
Lemma proof_carries_fun data msg1 msg2 pks1 pks2 :
  proof_carries data msg1 pks1 -> proof_carries data msg2 pks2 -> pks1 = pks2.
Proof.
  intros (_ & H1 & Hb1 & _ & He1) (_ & H2 & Hb2 & _ & He2).
  assert (length pks1 = length pks2) as Hlen.
  { rewrite H1 in H2. injection H2 as H2. apply (f_equal byte_to_Z) in H2.
    rewrite !byte_to_of_Z in H2. unfold U8_MAX in *. rewrite !Z.mod_small in H2 by lia. lia. }
  apply list_eq_same_length with (length pks1); [done|done|].
  intros i x y _ Hx Hy. destruct (He1 i x Hx) as [? E1], (He2 i y Hy) as [? E2].
  by destruct (entry_carries_fun _ _ _ _ _ _ _ _ E1 E2).
Qed.

(** What the entries of a built instruction say. *)
Lemma built_entries sigs message i pk sig msg :
  sized sigs message -> (i < length sigs)%nat ->
  entry_carries (build_ed25519_instruction sigs message) i pk sig msg ->
  sigs !! i = Some (pk, sig) /\ msg = message.
Proof.
  intros (Hk & Hf & Hn) Hi Hc. destruct (lookup_lt_is_Some_2 _ _ Hi) as [[pk' sig'] Hs].
  pose proof (build_entry_carries sigs message _ _ _ _ eq_refl eq_refl eq_refl eq_refl Hk Hf
                _ _ _ Hs) as Hb.
  destruct (entry_carries_fun _ _ _ _ _ _ _ _ Hc Hb) as (-> & -> & ->). done.
Qed.

Lemma built_proof_verdict sigs message vs n :
  (length vs <= MAX_VALIDATORS)%nat -> sized sigs message ->
  count_unique_validator_signers (build_ed25519_instruction sigs message) message vs = Ok n <->
  n = length sigs /\ NoDup sigs.*1 /\ Forall (fun pk => pk ∈ vs) sigs.*1.
Proof.
  intros Hvs (Hk & Hf & Hn). rewrite count_unique_validator_signers_iff by done.
  pose proof (build_carries sigs message Hk Hf Hn) as Hb. split.
  - intros (pks & <- & Hc & Hnd & Hin).
    assert (pks = sigs.*1) as -> by (by eapply proof_carries_fun).
    by rewrite length_fmap.
  - intros (-> & Hnd & Hin). exists sigs.*1. by rewrite length_fmap.
Qed.

Lemma threshold_count (sigs : list (Pubkey * Signature)) vs :
  NoDup sigs.*1 -> Forall (fun pk => pk ∈ vs) sigs.*1 ->
  size (list_to_set (filter (fun pk => pk ∈ (list_to_set vs : gset Pubkey)) sigs.*1)
        : gset Pubkey) = length sigs.
Proof.
  intros Hnd Hin. rewrite <- (length_fmap fst sigs).
  rewrite <- (size_list_to_set (C := gset Pubkey) sigs.*1) by done. f_equal.
  apply set_eq. intros x. rewrite !elem_of_list_to_set, list_elem_of_filter, elem_of_list_to_set.
  rewrite Forall_forall in Hin. naive_solver.
Qed.

(** A proof the relayer builds from distinct current validators' signatures that
    passes its own threshold check is accepted on chain with the same count: the
    relayer's byte layout and the program's parser agree for every size that fits the
    16-bit offsets. *)
Theorem built_proof_verifies (sigs : list (Pubkey * Signature)) message vs t n :
  (length vs <= MAX_VALIDATORS)%nat -> sized sigs message ->
  NoDup sigs.*1 -> Forall (fun pk => pk ∈ vs) sigs.*1 ->
  count_unique_threshold_signers sigs vs t = Ok n ->
  count_unique_validator_signers (build_ed25519_instruction sigs message) message vs = Ok n /\
  t <= Z.of_nat n.
Proof.
  intros Hvs Hs Hnd Hin. unfold count_unique_threshold_signers.
  rewrite threshold_count by done. case_match; [|done]. intros [= <-]. bools.
  split; [|done]. by apply built_proof_verdict.
Qed.

(** Three validators, two of which sign. *)
Definition sample_keys : list Pubkey := [repeat x01 32; repeat x02 32; repeat x03 32].
Definition sample_sigs : list (Pubkey * Signature) :=
  [(repeat x03 32, repeat xaa 64); (repeat x01 32, repeat xbb 64)].
Definition sample_message : list byte := repeat x55 90.

Lemma sample_sized sigs :
  forallb (fun ps => bool_decide (length ps.1 = 32%nat /\ length ps.2 = 64%nat)) sigs = true ->
  Z.of_nat (instruction_size (length sigs) 90) <= U16_MAX -> (1 <= length sigs <= 255)%nat ->
  sized sigs sample_message.
Proof.
  intros Hf Hk Hn. split; [|by split]. apply Forall_forall. intros ps Hps.
  rewrite forallb_forall in Hf. apply (bool_decide_eq_true_1 _), Hf.
  by apply list_elem_of_In.
Qed.

Lemma built_proof_verifies_witness :
  count_unique_validator_signers (build_ed25519_instruction sample_sigs sample_message)
    sample_message sample_keys = Ok 2%nat /\ 2 <= Z.of_nat 2.
Proof.
  apply (built_proof_verifies sample_sigs sample_message sample_keys 2 2).
  - vm_compute. lia.
  - apply sample_sized; [reflexivity|vm_compute; congruence|cbn; lia].
  - apply (bool_decide_unpack _). vm_compute. exact I.
  - apply (bool_decide_unpack _). vm_compute. exact I.
  - vm_compute. reflexivity.
Defined.

(** The relayer's threshold check ignores unknown signers but the built proof
    contains them: with one foreign key among enough good signatures the check passes
    and the program rejects the transaction. *)
Theorem precheck_misses_rejections (sigs : list (Pubkey * Signature)) message vs pk :
  (length vs <= MAX_VALIDATORS)%nat -> sized sigs message ->
  pk ∈ sigs.*1 -> pk ∉ vs ->
  (exists e, count_unique_validator_signers (build_ed25519_instruction sigs message) message vs
             = Err e) /\
  forall t, t <= Z.of_nat (length (remove_dups (filter (fun k => k ∈ vs) sigs.*1))) ->
    exists n, count_unique_threshold_signers sigs vs t = Ok n.
Proof.
  intros Hvs Hs Hpk Hn. split.
  - destruct (count_unique_validator_signers _ _ _) as [n|e] eqn:E; [|eauto].
    apply built_proof_verdict in E as (_ & _ & Hin); [|done..].
    rewrite Forall_forall in Hin. by destruct Hn; apply Hin.
  - intros t Ht. unfold count_unique_threshold_signers.
    match goal with |- context [size ?s] =>
      assert (size s = length (remove_dups (filter (fun k => k ∈ vs) sigs.*1))) as -> end.
    { rewrite <- (size_list_to_set (C := gset Pubkey)) by apply NoDup_remove_dups. f_equal.
      apply set_eq. intros x. rewrite !elem_of_list_to_set, elem_of_remove_dups.
      rewrite !list_elem_of_filter. by rewrite elem_of_list_to_set. }
    rewrite (proj2 (Z.leb_le _ _)) by done. eauto.
Qed.

Lemma precheck_misses_rejections_witness :
  let sigs := (repeat x09 32, repeat xcc 64) :: sample_sigs in
  (exists e, count_unique_validator_signers (build_ed25519_instruction sigs sample_message)
               sample_message sample_keys = Err e) /\
  exists n, count_unique_threshold_signers sigs sample_keys 2 = Ok n.
Proof.
  intros sigs.
  destruct (precheck_misses_rejections sigs sample_message sample_keys (repeat x09 32))
    as [Hrej Hpass].
  - vm_compute. lia.
  - apply sample_sized; [reflexivity|vm_compute; congruence|cbn; lia].
  - apply (bool_decide_unpack _). vm_compute. exact I.
  - apply (bool_decide_unpack _). vm_compute. exact I.
  - split; [exact Hrej|]. apply Hpass. vm_compute. congruence.
Defined.

Lemma count_unique_validator_signers_spec_witness :
  let data := build_ed25519_instruction sample_sigs sample_message in
  count_unique_validator_signers data sample_message sample_keys = Ok 2%nat /\
  exists pks, length pks = 2%nat /\ proof_carries data sample_message pks /\ NoDup pks /\
              Forall (fun pk => pk ∈ sample_keys) pks.
Proof.
  intros data.
  assert (count_unique_validator_signers data sample_message sample_keys = Ok 2%nat) as H
    by (vm_compute; reflexivity).
  split; [exact H|].
  apply (count_unique_validator_signers_spec data sample_message sample_keys 2).
  - vm_compute. lia.
  - exact H.
Defined.
