(* ===== verification/Scenario.v ===== *)
(** * A concrete deployment, run through the program

    The history of one small bridge on the toy ledger: deployed, a deposit
    minted, a withdrawal burned and completed, the validators rotated and the
    supply cap raised.  Proofs of reachability for its states instantiate the
    theorems about reachable states. *)
From Stdlib Require Import ZArith Lia Strings.Byte.
From stdpp Require Import base numbers strings gmap list.
From S2P Require Import Prelude Messages State Validation Verification Token Program Handlers.
From S2P Require Import Invariants SignatureProof.

Definition key (k : Z) : Pubkey := replicate 32 (byte_of_Z k).
Definition demo_signature : Signature := replicate 64 (byte_of_Z 9).

Definition at_time (ts : Z) (prev : option Instruction) : TxEnv :=
  {| unix_timestamp := ts; slot := 77; previous_instruction := prev |}.

(** The precompile instruction with the given signers over a statement. *)
Definition signed_by (signers : list Pubkey) (st : Statement) : option Instruction :=
  Some {| ix_program_id := ed25519_program_ID;
          ix_data := build_ed25519_instruction ((fun k => (k, demo_signature)) <$> signers)
                       (encode st) |}.

Definition demo_admin : Pubkey := key 20.
Definition demo_mint : Pubkey := key 21.
Definition demo_user : Pubkey := key 22.
Definition demo_account : Pubkey := demo_user ++ demo_mint.
Definition demo_txid : Bytes32 := replicate 32 (byte_of_Z 50).
Definition demo_payout : Bytes32 := replicate 32 (byte_of_Z 51).
Definition demo_address : list byte := replicate 34 (byte_of_Z 65).
Definition demo_validators : list Pubkey := [key 31; key 32; key 33].
Definition demo_validators' : list Pubkey := [key 32; key 33; key 34].

Definition demo_init : InitializeAccounts :=
  {| init_authority := demo_admin; programdata_address := Some (key 40);
     program_data_key := key 40; upgrade_authority_address := Some demo_admin;
     bump_bridge_config := 255; bump_validator_set := 254 |}.
Definition demo_mint_accounts : MintWrappedAccounts :=
  {| mw_submitter := key 60; mw_wrapped_mint := demo_mint; mw_recipient := demo_user;
     mw_recipient_token_account := demo_account; mw_bump_deposit_claim := 253 |}.
Definition demo_burn_accounts : BurnWrappedAccounts :=
  {| bw_user := demo_user; bw_wrapped_mint := demo_mint;
     bw_user_token_account := demo_account; bw_bump_withdrawal_request := 252 |}.

Definition mint_st (e amount : Z) : Statement :=
  MintDeposit PROTOCOL_VERSION crate_ID e demo_txid 0 amount demo_user demo_mint.
Definition completion_st (e : Z) : Statement :=
  CompletePayout PROTOCOL_VERSION crate_ID e 0 demo_payout 700 200 (sol_hash demo_address).
Definition governance_st (e act : Z) (params : list byte) : Statement :=
  Governance PROTOCOL_VERSION crate_ID e act (sol_hash params).

Definition quorum : list Pubkey := [key 31; key 33].
Definition quorum' : list Pubkey := [key 34; key 32].

Definition demo_trace : list (TxEnv * BridgeInstruction) :=
  [ (at_time 1000 None, Initialize demo_init demo_validators 2 10 5 100 1000);
    (at_time 1001 None,
      CreateWrappedMint {| cm_admin := demo_admin; cm_wrapped_mint := demo_mint;
                           cm_bump_mint_authority := 251 |});
    (at_time 1002 (signed_by quorum (mint_st 0 500)),
      MintWrapped demo_mint_accounts demo_txid 0 500 0);
    (at_time 1003 None, BurnWrapped demo_burn_accounts 200 demo_address);
    (at_time 1004 (signed_by quorum (completion_st 0)),
      CompleteWithdrawal 0 demo_payout 700 0);
    (at_time 1005 (signed_by quorum (governance_st 0 ACTION_PROPOSE_ROTATION
                                       (rotation_params 2 demo_validators'))),
      ProposeValidatorRotation 250 demo_validators' 2);
    (at_time 1105 None, ExecuteValidatorRotation);
    (at_time 1106 (signed_by quorum' (governance_st 1 ACTION_PROPOSE_TVL_RAISE
                                        (tvl_raise_params 2000))),
      ProposeWrappedSupplyCapRaise 249 2000);
    (at_time 1300 None, ExecuteWrappedSupplyCapRaise) ].

Definition demo_ledger : Ledger :=
  {| l_mints := ∅;
     l_accounts := {[ demo_account := {| ta_amount := 0; ta_owner := demo_user; ta_mint := demo_mint; ta_frozen := false |} ]} |}.

Definition demo_genesis : Bridge := genesis (T := ledger) demo_ledger.

Fixpoint run_from (b : Bridge) (tr : list (TxEnv * BridgeInstruction))
  : result ProgramError Bridge :=
  match tr with
  | [] => Ok b
  | (env, i) :: tr => let* (b', _) := exec env i b in run_from b' tr
  end.
Definition demo_run (k : nat) : result ProgramError Bridge :=
  run_from (demo_genesis) (take k demo_trace).
Definition demo_labels (k : nat) : list Label :=
  (fun p => Tx p.1 p.2) <$> take k demo_trace.
(** The state after the first [k] transactions (which all succeed). *)
Definition demo_state (k : nat) : Bridge :=
  match demo_run k with Ok b => b | Err _ => demo_genesis end.

Definition tx_wf (p : TxEnv * BridgeInstruction) : Prop := env_wf p.1 /\ instr_wf p.2.

Lemma run_from_steps ls b tr b' :
  steps ls b -> Forall tx_wf tr -> run_from b tr = Ok b' ->
  steps (ls ++ ((fun p => Tx p.1 p.2) <$> tr)) b'.
Proof.
  intros Hls Htr. revert ls b Hls. induction Htr as [|[env i] tr [He Hi] _ IH];
    intros ls b Hls; cbn [run_from].
  - intros [= <-]. by rewrite app_nil_r.
  - intros ([b1 evs] & Hx & Hrun)%bind_Ok. cbn [fmap list_fmap].
    rewrite cons_middle, app_assoc. eapply IH; [|exact Hrun].
    eapply steps_snoc; [done|]. by eapply step_tx.
Qed.

Lemma demo_trace_wf : Forall tx_wf demo_trace.
Proof.
  repeat (apply Forall_cons; split); [..|constructor]; split; cbn;
    repeat split; try (vm_compute; congruence); repeat constructor.
Qed.

Definition is_ok {E A} (r : result E A) : bool := match r with Ok _ => true | Err _ => false end.

Lemma demo_steps k : is_ok (demo_run k) = true -> steps (demo_labels k) (demo_state k).
Proof.
  intros Hok. apply (run_from_steps [] demo_genesis (take k demo_trace)); [constructor| |].
  - apply Forall_take, demo_trace_wf.
  - unfold demo_state. by destruct (demo_run k) eqn:E.
Qed.

Lemma demo_reachable k : (k <= 9)%nat -> steps (demo_labels k) (demo_state k).
Proof.
  intros Hk. apply demo_steps.
  do 10 (destruct k as [|k]; [vm_compute; reflexivity|]). lia.
Qed.

Lemma run_from_snoc b tr env i :
  run_from b (tr ++ [(env, i)]) = let* b1 := run_from b tr in let* (b2, _) := exec env i b1 in Ok b2.
Proof.
  revert b. induction tr as [|[env' i'] tr IH]; intros b; cbn [app run_from].
  - cbn. by destruct (exec env i b) as [[b2 evs]|].
  - destruct (exec env' i' b) as [[b1 evs]|]; [|done]. apply IH.
Qed.

(** Transaction [k] leads from state [k] to state [k + 1]. *)
Lemma demo_exec k env i :
  demo_trace !! k = Some (env, i) ->
  exists evs, exec env i (demo_state k) = Ok (demo_state (S k), evs).
Proof.
  intros Hk. apply lookup_lt_Some in Hk as Hlt.
  assert (is_ok (demo_run (S k)) = true) as Hok.
  { do 9 (destruct k as [|k]; [vm_compute; reflexivity|]). cbn in Hlt. lia. }
  unfold demo_run in Hok. rewrite (take_S_r _ _ _ Hk), run_from_snoc in Hok.
  unfold demo_state, demo_run. rewrite (take_S_r _ _ _ Hk), run_from_snoc.
  destruct (run_from demo_genesis (take k demo_trace)) as [b|]; [|done]. cbn in *.
  destruct (exec env i b) as [[b' evs]|]; [|done]. by exists evs.
Qed.

Lemma demo_step k env i :
  demo_trace !! k = Some (env, i) -> step (demo_state k) (Tx env i) (demo_state (S k)).
Proof.
  intros Hk. destruct (demo_exec _ _ _ Hk) as [evs Hx].
  pose proof demo_trace_wf as Hwf. rewrite Forall_lookup in Hwf.
  destruct (Hwf _ _ Hk). by eapply step_tx.
Qed.
