(* ===== verification/Safety.v ===== *)
(** * Safety and liveness of the bridge program

    Theorems about every history of the program ([steps] of [Invariants]):
    refinement of the transition system, well-formedness, conservation of
    value, what a federation proof authorises, replay protection, the
    governance timelock, and what can happen without a proof or while paused.
    Each theorem with hypotheses is instantiated on [Scenario]. *)
From Stdlib Require Import ZArith Lia Strings.Byte.
From stdpp Require Import base numbers strings gmap list.
From S2P Require Import Prelude Messages State Validation Verification Token Program Handlers.
From S2P Require Import Invariants SignatureProof Scenario.

Section safety.
Context {T : SplToken} {R : Runtime}.
Implicit Types b : Bridge.

Lemma reachable_transition ls b env i b' evs :
  steps ls b -> exec env i b = Ok (b', evs) -> transition env b i b' evs.
Proof. intros Hls Hx. by eapply exec_iff; [eapply inv_set_bounded, steps_inv|]. Qed.

Lemma step_transition ls b l b' :
  steps ls b -> step b l b' ->
  (exists env i evs, l = Tx env i /\ env_wf env /\ instr_wf i /\ transition env b i b' evs) \/
  (l = External /\ exists t', external_step mint_authority_pda (tokens b) t' /\
     b' = put_tokens b t').
Proof.
  intros Hls [env i b1 evs He Hi Hx|t' Ht].
  - left. exists env, i, evs. split_and!; try done. by eapply reachable_transition.
  - right. eauto.
Qed.

(** C32: From every reachable state, the executable dispatch of the whole program
    succeeds with a new state and events exactly when the declarative transition
    relation (one rule per instruction, with its guards as propositions and its
    post-state written out) allows that step: soundness and completeness of the abstract
    specification. *)
Theorem handlers_refine_transitions ls b env i b' evs :
  steps ls b -> exec env i b = Ok (b', evs) <-> transition env b i b' evs.
Proof. intros Hls. by eapply exec_iff, inv_set_bounded, steps_inv. Qed.

(** C33: Every state reachable from the undeployed program by successful transactions
    and outside SPL activity satisfies the account invariant: the protocol version,
    timelock, cap and counters in range, a valid validator set and threshold, a pending
    action of the current epoch with an executable payload, claims keyed by their own
    outpoint, and requests stored at their own index below the counter, either Pending
    with a blank payout record or Completed with a real one, never Broadcast. *)
Theorem reachable_well_formed ls b : steps ls b -> bridge_inv b.
Proof. apply steps_inv. Qed.

(** ** Conservation *)

Definition minted b : Z := map_sum claim_amount (deposit_claims b).
Definition withdrawn b : Z := map_sum wr_amount (withdrawal_requests b).

(** Minted value no longer in circulation nor withdrawn through the bridge. *)
Definition burned_elsewhere b (c : BridgeConfig) : option Z :=
  supply ← mint_supply (tokens b) (wrapped_mint c); Some (minted b - withdrawn b - supply).

Context {L : SplTokenLaws T}.

(** Before the mint exists nothing has been minted; afterwards the program
    is its authority and [x] has been burned elsewhere. *)
Definition conserved b (ext : bool) : Prop :=
  match bridge_config b with
  | None => deposit_claims b = ∅ /\ withdrawal_requests b = ∅
  | Some c =>
      (wrapped_mint c = default_pubkey -> deposit_claims b = ∅ /\ withdrawal_requests b = ∅) /\
      (wrapped_mint c <> default_pubkey ->
         mint_auth (tokens b) (wrapped_mint c) = Some mint_authority_pda /\
         exists x, burned_elsewhere b c = Some x /\ 0 <= x /\ (ext = false -> x = 0))
  end.

(** Updates that touch neither the books nor the tokens. *)
Lemma conserved_same b b' c c' ext :
  bridge_config b = Some c -> bridge_config b' = Some c' -> wrapped_mint c' = wrapped_mint c ->
  tokens b' = tokens b -> deposit_claims b' = deposit_claims b ->
  withdrawn b' = withdrawn b -> (withdrawal_requests b = ∅ -> withdrawal_requests b' = ∅) ->
  conserved b ext -> conserved b' ext.
Proof.
  unfold conserved, burned_elsewhere, minted. intros -> -> -> -> -> -> Hw [H1 H2].
  split; [intros Hd; destruct (H1 Hd); auto|exact H2].
Qed.

Lemma conserved_transition env b i b' evs ext :
  transition env b i b' evs -> conserved b ext -> conserved b' ext.
Proof.
  intros Htr Hcons.
  destruct Htr; try by (eapply conserved_same; [eassumption..|done|done|done|done|done|done|done]).
  - unfold conserved in *. rewrite H in Hcons. cbn. by split.
  - unfold conserved in *. rewrite H in Hcons. destruct Hcons as [Hnone _].
    destruct (Hnone H1) as [Hd Hw]. cbn. apply initialize_mint_law in H2 as (_ & Hs & Ha & _).
    split; [done|]. intros _. split; [done|]. exists 0.
    unfold burned_elsewhere, minted, withdrawn. cbn. rewrite Hs, Hd, Hw.
    by rewrite !map_sum_empty.
  - destruct H. apply mint_to_checked_law in H0 as (s0 & b0 & Hs & _ & Ha & Hs' & _ & _ & _ & Ha' & _).
    unfold conserved, burned_elsewhere, minted, withdrawn in *. cbn -[claim_of].
    rewrite mo_config in *. split; [done|]. intros _. rewrite Ha'.
    destruct Hcons as [_ [Hauth (x & Hx & Hpos)]]; [done|]. split; [done|]. exists x.
    rewrite Hs', map_sum_insert_None by done. rewrite Hs in Hx. cbn in *. simplify_eq.
    split; [f_equal; lia|done].
  - destruct H. apply burn_checked_law in H0 as (s0 & b0 & Hs & _ & Hs' & _ & _ & _ & _ & Ha' & _).
    unfold conserved, burned_elsewhere, minted, withdrawn in *. cbn -[request_of].
    rewrite bo_config in *. split; [done|]. intros _. rewrite Ha'.
    destruct Hcons as [_ [Hauth (x & Hx & Hpos)]]; [done|]. split; [done|]. exists x.
    rewrite Hs', map_sum_insert_None by done. rewrite Hs in Hx. cbn in *. simplify_eq.
    split; [f_equal; lia|done].
  - destruct H. eapply conserved_same; [eassumption..|done|done|done| | |done].
    + unfold withdrawn. cbn -[set_payout_record]. rewrite (map_sum_insert _ _ _ w) by done.
      cbn. lia.
    + intros Hw. rewrite Hw in co_request. by rewrite lookup_empty in co_request.
Qed.

Lemma conserved_external b t' ext :
  external_step mint_authority_pda (tokens b) t' -> conserved b ext ->
  conserved (put_tokens b t') true.
Proof.
  unfold conserved. cbn. intros Hext Hcons.
  destruct (bridge_config b) as [c|]; [|done]. destruct Hcons as [H1 H2].
  split; [done|]. intros Hc. destruct (H2 Hc) as [Ha (x & Hx & Hpos & _)].
  unfold burned_elsewhere, minted, withdrawn in *. cbn.
  destruct (mint_supply (tokens b) (wrapped_mint c)) as [s|] eqn:Hs; [|done].
  destruct (external_step_law _ _ _ _ _ Hext Ha Hs) as [Ha' (s' & Hs' & Hle)].
  split; [done|]. rewrite Hs'. cbn in *. simplify_eq. eexists. split_and!; [done|lia|done].
Qed.

Definition external_activity (ls : list Label) : bool :=
  existsb (fun l => match l with External => true | Tx _ _ => false end) ls.

Lemma conserved_reachable ls b : steps ls b -> conserved b (external_activity ls).
Proof.
  assert (forall b ext, conserved b ext -> conserved b true) as Hweak.
  { unfold conserved. intros b0 ext. destruct (bridge_config b0); [|done].
    intros [? H2]. split; [done|]. intros Hc. destruct (H2 Hc) as [? (x & ? & ? & _)].
    split; [done|]. exists x. by split_and!. }
  induction 1 as [t|ls b l b' Hls IH Hstep]; [done|].
  destruct (step_transition _ _ _ _ Hls Hstep) as [(env & i & evs & -> & _ & _ & Htr)|(-> & t' & Ht & ->)].
  - unfold external_activity in *. rewrite existsb_app, orb_false_r.
    by eapply conserved_transition.
  - unfold external_activity in *. rewrite existsb_app, orb_true_r.
    by eapply conserved_external.
Qed.

Lemma supply_accounted ls b c :
  steps ls b -> bridge_config b = Some c -> wrapped_mint c <> default_pubkey ->
  exists supply, mint_supply (tokens b) (wrapped_mint c) = Some supply /\
    supply + withdrawn b <= minted b /\
    (external_activity ls = false -> supply + withdrawn b = minted b).
Proof.
  intros Hls Hc Hm. pose proof (conserved_reachable _ _ Hls) as Hcons.
  unfold conserved in Hcons. rewrite Hc in Hcons.
  destruct Hcons as [_ [_ (x & Hx & Hpos & Hz)]]; [done|].
  unfold burned_elsewhere in Hx. destruct (mint_supply _ _) as [s|]; [|done].
  cbn in Hx. simplify_eq. exists s. split_and!; [done|lia|].
  intros Hn. specialize (Hz Hn). lia.
Qed.

(** C1: In every reachable state of the program, once the wrapped mint exists, the SPL
    supply of wrapped GLC plus everything the withdrawal requests have burned is at most
    what deposits have minted, and equal to it when no outside SPL transaction has
    burned tokens: value is neither created nor lost across mint, burn and completion.
    *)
Theorem value_is_conserved ls b c :
  steps ls b -> bridge_config b = Some c -> wrapped_mint c <> default_pubkey ->
  exists supply, mint_supply (tokens b) (wrapped_mint c) = Some supply /\
    supply + withdrawn b <= minted b /\
    (external_activity ls = false -> supply + withdrawn b = minted b).
Proof. apply supply_accounted. Qed.

(** ** What a federation proof authorises *)

(** The statement the federation must sign for an instruction to succeed. *)
Definition required_statement b (i : BridgeInstruction) : option Statement :=
  c ← bridge_config b; s ← validator_set b;
  match i with
  | MintWrapped acc txid vout amount _ => Some (mint_statement acc txid vout amount c s)
  | CompleteWithdrawal idx txid h _ =>
      w ← withdrawal_requests b !! idx; Some (completion_statement idx txid h w c s)
  | ProposeValidatorRotation _ vs t =>
      Some (governance_statement ACTION_PROPOSE_ROTATION (rotation_params t vs) c s)
  | ProposeWrappedSupplyCapRaise _ m =>
      Some (governance_statement ACTION_PROPOSE_TVL_RAISE (tvl_raise_params m) c s)
  | CancelValidatorRotation =>
      p ← pending_action b;
      Some (governance_statement ACTION_CANCEL_ROTATION (cancel_params (action p) (eta p)) c s)
  | _ => None
  end.

Lemma required_statement_approved env b i b' evs s st :
  transition env b i b' evs -> validator_set b = Some s ->
  required_statement b i = Some st -> approved env s (encode st).
Proof.
  intros Htr Hs. unfold required_statement. rewrite Hs. intros Hst.
  destruct Htr; open_ok; simplify_option_eq; done.
Qed.

Lemma required_statement_wf b i st :
  bridge_inv b -> instr_wf i -> required_statement b i = Some st -> statement_wf st.
Proof.
  intros Hinv Hi Hst. unfold required_statement in Hst.
  destruct (bridge_config b) as [c|] eqn:Hc; [|done].
  destruct (inv_deployed _ _ Hinv Hc) as (s & Hs & Hcok & Hsok).
  destruct Hinv as [|c' s' Hc' Hs' _ _ _ _ Hw _]; [congruence|]. simplify_eq/=.
  destruct Hcok as [Hv _ _ _ Hm], Hsok as [_ _ He].
  rewrite Hs' in Hst. cbn in Hst.
  destruct i; cbn in Hi; simplify_option_eq; cbn -[crate_ID sol_hash]; rewrite ?Hv;
    destruct_and?; split_and!; try done; try apply length_sol_hash.
  all: try (unfold in_u8, U8_MAX, PROTOCOL_VERSION; lia).
  match goal with H : withdrawal_requests b !! _ = Some ?w |- _ =>
    destruct (Hw _ _ H) as [_ _ [_ ?] _ _] end; done.
Qed.

Section honest.
(** [signed pk msg]: [pk] has signed [msg]; [endorsed]: the statements
    honest validators stand behind. *)
Context (signed : Pubkey -> list byte -> Prop).
Context (honest : Pubkey -> Prop) (endorsed : Statement -> Prop).

(** The ed25519 precompile fails the transaction unless every entry of its
    instruction verifies. *)
Definition precompile_verified (env : TxEnv) : Prop :=
  forall ix n i pk sig msg,
    previous_instruction env = Some ix -> ix_program_id ix = ed25519_program_ID ->
    ix_data ix !! 0%nat = Some n -> Z.of_nat i < byte_to_Z n ->
    entry_carries (ix_data ix) i pk sig msg -> signed pk msg.

(** Every quorum of the set contains an honest validator. *)
Definition honest_quorums (s : ValidatorSet) : Prop :=
  forall pks, NoDup pks -> Forall (fun pk => pk ∈ validators s) pks ->
    threshold s <= Z.of_nat (length pks) -> exists pk, pk ∈ pks /\ honest pk.

(** Honest validators sign nothing but encodings of endorsed statements. *)
Definition honest_sign_endorsed : Prop :=
  forall pk msg, honest pk -> signed pk msg ->
    exists st, statement_wf st /\ endorsed st /\ msg = encode st.

Lemma approved_signed env s msg :
  precompile_verified env -> approved env s msg -> honest_quorums s ->
  exists pk, honest pk /\ signed pk msg.
Proof.
  intros Hpre (ix & pks & Hix & Hid & (_ & H0 & Hn & _ & He) & Hnd & Hin & Ht) Hq.
  destruct (Hq pks Hnd Hin Ht) as (pk & [j Hj]%list_elem_of_lookup & Hh).
  exists pk. split; [done|]. destruct (He j pk Hj) as [sig Hs].
  apply lookup_lt_Some in Hj. unfold U8_MAX in Hn.
  eapply Hpre; [done|done|done| |exact Hs].
  rewrite byte_to_of_Z, Z.mod_small by lia. lia.
Qed.

(** C2: A reachable transaction that mints, completes a withdrawal or proposes or
    cancels a governance action succeeds only for a statement the honest federation
    endorsed: if the Ed25519 precompile accepted the transaction's proof, every
    threshold-sized set of distinct current validators contains an honest member, and
    honest members sign only endorsed statements, then the exact statement the
    instruction acts on (its fields, the current epoch, the program id) was endorsed. *)
Theorem federation_authorises ls b s env i b' evs st :
  steps ls b -> validator_set b = Some s -> instr_wf i ->
  precompile_verified env -> honest_quorums s -> honest_sign_endorsed ->
  exec env i b = Ok (b', evs) -> required_statement b i = Some st -> endorsed st.
Proof.
  intros Hls Hs Hi Hpre Hq Hh Hx Hst.
  pose proof (required_statement_wf _ _ _ (steps_inv _ _ Hls) Hi Hst) as Hwf.
  eapply reachable_transition in Hx; [|done].
  pose proof (required_statement_approved _ _ _ _ _ _ _ Hx Hs Hst) as Ha.
  destruct (approved_signed _ _ _ Hpre Ha Hq) as (pk & Hpk & Hsg).
  destruct (Hh _ _ Hpk Hsg) as (st' & Hwf' & Hen & Heq).
  by apply encode_injective in Heq as ->.
Qed.
End honest.

(** ** Replay protection *)

Definition mint_key (l : Label) : option (Bytes32 * Z) :=
  match l with Tx _ (MintWrapped _ txid vout _ _) => Some (txid, vout) | _ => None end.
Definition completion_key (l : Label) : option Z :=
  match l with Tx _ (CompleteWithdrawal idx _ _ _) => Some idx | _ => None end.

Definition is_completed b (idx : Z) : Prop :=
  exists w, withdrawal_requests b !! idx = Some w /\ status w = Completed.

Lemma transition_claims env b i b' evs k :
  transition env b i b' evs ->
  is_Some (deposit_claims b' !! k) <->
  is_Some (deposit_claims b !! k) \/ mint_key (Tx env i) = Some k.
Proof.
  intros []; cbn; try naive_solver.
  destruct (decide (k = (txid, vout))) as [->|].
  - rewrite lookup_insert_eq. naive_solver.
  - rewrite lookup_insert_ne by done. naive_solver.
Qed.

Lemma transition_completed env b i b' evs idx :
  bridge_inv b -> transition env b i b' evs ->
  is_completed b' idx <-> is_completed b idx \/ completion_key (Tx env i) = Some idx.
Proof.
  intros Hinv. unfold is_completed. intros []; cbn -[set_payout_record]; try naive_solver.
  - destruct H. destruct (decide (idx = withdrawal_count c)) as [->|].
    + rewrite lookup_insert_eq, bo_fresh. split; [|naive_solver].
      intros (w & [= <-] & Hst). discriminate Hst.
    + rewrite lookup_insert_ne by done. naive_solver.
  - destruct (decide (idx = idx0)) as [->|].
    + rewrite lookup_insert_eq. naive_solver.
    + rewrite lookup_insert_ne by done. naive_solver.
Qed.

Lemma omap_snoc {A B} (f : A -> option B) l a :
  omap f (l ++ [a]) = omap f l ++ match f a with Some x => [x] | None => [] end.
Proof. rewrite omap_app. cbn. by destruct (f a). Qed.

Lemma NoDup_snoc {A} (l : list A) a : NoDup l -> a ∉ l -> NoDup (l ++ [a]).
Proof. intros. apply NoDup_app. split_and!; [done|set_solver|apply NoDup_singleton]. Qed.

(** A key a step adds is fresh, so keys of a history are distinct. *)
Lemma history_keys {K} (f : Label -> option K) (present : Bridge -> K -> Prop) ls b :
  (forall t k, ~ present (genesis t) k) ->
  (forall b t k, present (put_tokens b t) k <-> present b k) ->
  f External = None ->
  (forall env b i b' evs k, bridge_inv b -> transition env b i b' evs ->
     (present b' k <-> present b k \/ f (Tx env i) = Some k)) ->
  (forall env b i b' evs k, bridge_inv b -> transition env b i b' evs ->
     f (Tx env i) = Some k -> ~ present b k) ->
  steps ls b -> NoDup (omap f ls) /\ forall k, k ∈ omap f ls <-> present b k.
Proof.
  intros Hgen Hext Hfe Htr Hfresh. induction 1 as [t|ls b l b' Hls [Hnd IH] Hstep].
  { split; [constructor|]. intros k. split; [set_solver|]. by intros ?%Hgen. }
  rewrite omap_snoc. pose proof (steps_inv _ _ Hls) as Hinv.
  destruct (step_transition _ _ _ _ Hls Hstep) as [(env & i & evs & -> & _ & _ & Ht)|(-> & t' & _ & ->)].
  - destruct (f (Tx env i)) as [k0|] eqn:Ek.
    + split.
      * apply NoDup_snoc; [done|]. rewrite IH. by eapply Hfresh.
      * intros k. rewrite elem_of_app, IH, list_elem_of_singleton.
        rewrite (Htr _ _ _ _ _ k Hinv Ht), Ek. naive_solver.
    + rewrite app_nil_r. split; [done|]. intros k.
      rewrite IH, (Htr _ _ _ _ _ k Hinv Ht), Ek. naive_solver.
  - rewrite Hfe, app_nil_r. split; [done|]. intros k. by rewrite Hext.
Qed.

(** C3: Along any trace of the program no deposit outpoint (txid, vout) is minted twice,
    and the deposit-claim accounts are exactly the outpoints minted so far: the replay
    marker is created by the mint and never removed. *)
Theorem no_double_mint ls b :
  steps ls b ->
  NoDup (omap mint_key ls) /\
  forall k, k ∈ omap mint_key ls <-> is_Some (deposit_claims b !! k).
Proof.
  apply (history_keys mint_key (fun b k => is_Some (deposit_claims b !! k))); try done.
  - intros. by eapply transition_claims.
  - intros env b0 i b' evs k _ []; cbn; try done. intros [= <-] [d Hd].
    destruct H. congruence.
Qed.

(** C4: Along any trace no withdrawal request is completed twice, and the requests whose
    status is Completed are exactly those a complete_withdrawal transaction of the trace
    completed. *)
Theorem no_double_completion ls b :
  steps ls b ->
  NoDup (omap completion_key ls) /\
  forall idx, idx ∈ omap completion_key ls <-> is_completed b idx.
Proof.
  apply (history_keys completion_key is_completed); try done.
  - intros t k (w & Hw & _). change ((∅ : gmap _ WithdrawalRequest) !! k = Some w) in Hw.
    by rewrite lookup_empty in Hw.
  - intros. by eapply transition_completed.
  - intros env b0 i b' evs k _ []; cbn; try done. intros [= <-] (w' & Hw & Hst).
    destruct H. congruence.
Qed.
End safety.

(** ** The theorems at the states of [Scenario] *)

Definition demo_mint_env : TxEnv := at_time 1002 (signed_by quorum (mint_st 0 500)).
Definition demo_mint_ix : BridgeInstruction := MintWrapped demo_mint_accounts demo_txid 0 500 0.
Definition demo_config_2 : BridgeConfig :=
  set_mint (initial_config demo_init 10 5 100 1000) demo_mint 251.
Definition demo_set_0 : ValidatorSet := initial_set demo_init demo_validators 2.

Lemma handlers_refine_transitions_witness :
  exists evs, transition demo_mint_env (demo_state 2) demo_mint_ix (demo_state 3) evs.
Proof.
  destruct (demo_exec 2 demo_mint_env demo_mint_ix eq_refl) as [evs Hx]. exists evs.
  apply (handlers_refine_transitions (demo_labels 2)); [apply demo_reachable; lia|exact Hx].
Defined.

Lemma reachable_well_formed_witness : bridge_inv (demo_state 9).
Proof. apply (reachable_well_formed (demo_labels 9)), demo_reachable. lia. Defined.

Lemma value_is_conserved_witness :
  exists supply, mint_supply (tokens (demo_state 5)) demo_mint = Some supply /\
    supply + withdrawn (demo_state 5) <= minted (demo_state 5) /\
    (external_activity (demo_labels 5) = false ->
     supply + withdrawn (demo_state 5) = minted (demo_state 5)).
Proof.
  apply (value_is_conserved (demo_labels 5) (demo_state 5)
           (set_withdrawal_count demo_config_2 1)); [apply demo_reachable; lia| |done].
  vm_compute. reflexivity.
Defined.

(** One of the three validators is dishonest; the others signed only the
    statement for the demo deposit. *)
Definition demo_signed (pk : Pubkey) (msg : list byte) : Prop := msg = encode (mint_st 0 500).
Definition demo_honest (pk : Pubkey) : Prop := pk <> key 33.

Lemma signed_by_verified st env :
  previous_instruction env = signed_by quorum st ->
  (Z.of_nat (length (encode st)) <= 1000) ->
  precompile_verified (fun _ msg => msg = encode st) env.
Proof.
  set (sigs := (fun k => (k, demo_signature)) <$> quorum).
  intros Hp Hlen ix n i pk sig msg Hix _ Hn Hi He. rewrite Hp in Hix.
  assert (ix_data ix = build_ed25519_instruction sigs (encode st)) as Hdata
    by (unfold signed_by in Hix; by simplify_eq).
  rewrite Hdata in *.
  assert (sized sigs (encode st)) as Hs.
  { split; [|split; [|cbn; lia]].
    { unfold sigs, quorum. cbn [fmap list_fmap]. by apply Forall_cons; split; [|apply Forall_cons; split]. }
    unfold instruction_size, U16_MAX; cbn [length]; cbn; lia. }
  assert (i < length sigs)%nat as Hi'.
  { pose proof Hs as (Hk & Hf & Hl).
    destruct (build_carries sigs (encode st) Hk Hf Hl) as (_ & H0 & _).
    rewrite Hn in H0. injection H0 as ->. rewrite byte_to_of_Z in Hi.
    change (Z.of_nat i < 2) in Hi. change (i < 2)%nat. lia. }
  by destruct (built_entries _ _ _ _ _ _ Hs Hi' He).
Qed.

Lemma demo_honest_quorums : honest_quorums demo_honest demo_set_0.
Proof.
  intros [|k1 [|k2 pks]] Hnd _ Ht; cbn in Ht; try lia. unfold demo_honest.
  destruct (decide (k1 = key 33)) as [->|]; [|exists k1; set_solver].
  exists k2. split; [set_solver|]. intros ->.
  apply list.NoDup_cons in Hnd as [Hn _]. set_solver.
Qed.

Lemma federation_authorises_witness :
  exists st, required_statement (demo_state 2) demo_mint_ix = Some st /\ st = mint_st 0 500.
Proof.
  destruct (demo_exec 2 demo_mint_env demo_mint_ix eq_refl) as [evs Hx].
  exists (mint_st 0 500). split; [vm_compute; reflexivity|].
  apply (federation_authorises demo_signed demo_honest
           (fun st => st = mint_st 0 500) (demo_labels 2) (demo_state 2) demo_set_0
           demo_mint_env demo_mint_ix (demo_state 3) evs (mint_st 0 500)).
  - apply demo_reachable. lia.
  - vm_compute. reflexivity.
  - repeat split; vm_compute; congruence.
  - apply signed_by_verified; [done|]. vm_compute. congruence.
  - apply demo_honest_quorums.
  - intros pk msg _ Hs. exists (mint_st 0 500). split_and!; [|done|exact Hs].
    repeat split; vm_compute; congruence.
  - exact Hx.
  - vm_compute. reflexivity.
Defined.

Lemma no_double_mint_witness :
  NoDup (omap mint_key (demo_labels 9)) /\
  forall k, k ∈ omap mint_key (demo_labels 9) <-> is_Some (deposit_claims (demo_state 9) !! k).
Proof. apply no_double_mint, demo_reachable. lia. Defined.

Lemma no_double_completion_witness :
  NoDup (omap completion_key (demo_labels 9)) /\
  forall idx, idx ∈ omap completion_key (demo_labels 9) <-> is_completed (demo_state 9) idx.
Proof. apply no_double_completion, demo_reachable. lia. Defined.
