(* ===== verification/Governance.v ===== *)
(** * Governance: timelock, privilege separation, pause and history

    Theorems about every history of the program: the validator set and the
    supply cap move only through a proposal that waited out the timelock, a
    due proposal always executes, no transaction without a federation proof
    touches the money paths, a paused bridge moves no value, the admin key
    changes hands only by acceptance, and what has been recorded stays
    recorded. *)
From Stdlib Require Import ZArith Lia Strings.Byte.
From stdpp Require Import base numbers strings gmap list.
From S2P Require Import Prelude Messages State Validation Verification Token Program Handlers.
From S2P Require Import Invariants SignatureProof Scenario Safety.

Section governance.
Context {T : SplToken} {R : Runtime}.
Implicit Types b : Bridge.

(** ** The timelock *)

(** [l] is the transaction that proposed [p] under configuration [c]. *)
Definition proposed_by (l : Label) (c : BridgeConfig) (p : PendingGovernanceAction) : Prop :=
  match l with
  | Tx env (ProposeValidatorRotation _ vs t) =>
      action p = ACTION_PROPOSE_ROTATION /\ proposed_validators p = vs /\
      proposed_threshold p = t /\ eta p = unix_timestamp env + governance_timelock_seconds c
  | Tx env (ProposeWrappedSupplyCapRaise _ m) =>
      action p = ACTION_PROPOSE_TVL_RAISE /\ proposed_max_wrapped_supply p = m /\
      eta p = unix_timestamp env + governance_timelock_seconds c
  | _ => False
  end.

Lemma proposed_by_timelock l c c' p :
  governance_timelock_seconds c' = governance_timelock_seconds c ->
  proposed_by l c p -> proposed_by l c' p.
Proof. unfold proposed_by. by intros ->. Qed.

(** A transition either keeps the pending action and the timelock, clears
    it, or is the proposal itself. *)
Lemma transition_pending env b i b' evs p' c' :
  transition env b i b' evs -> bridge_inv b ->
  pending_action b' = Some p' -> bridge_config b' = Some c' ->
  (exists c, pending_action b = Some p' /\ bridge_config b = Some c /\
     governance_timelock_seconds c' = governance_timelock_seconds c) \/
  proposed_by (Tx env i) c' p'.
Proof.
  intros Htr Hinv Hp Hc.
  destruct Htr; cbn in Hp, Hc; open_ok;
    try match goal with
      | H : i64_checked_add _ _ = Some _ |- _ => apply i64_checked_add_Some in H as [-> _]
      end; simplify_eq; eauto 10.
  - destruct Hinv; congruence.
  - right. cbn. auto.
  - right. cbn. auto.
Qed.

Lemma pending_was_proposed ls b p c :
  steps ls b -> pending_action b = Some p -> bridge_config b = Some c ->
  exists l, l ∈ ls /\ proposed_by l c p.
Proof.
  intros Hls. revert p c. induction Hls as [t|ls b l b' Hls IH Hstep]; intros p c Hp Hc; [done|].
  destruct (step_transition _ _ _ _ Hls Hstep) as [(env & i & evs & -> & _ & _ & Ht)|(-> & t' & _ & ->)].
  - destruct (transition_pending _ _ _ _ _ _ _ Ht (steps_inv _ _ Hls) Hp Hc)
      as [(c0 & Hp0 & Hc0 & Htl)|Hby].
    + destruct (IH _ _ Hp0 Hc0) as (l & Hl & Hby). exists l.
      split; [set_solver|]. by eapply proposed_by_timelock.
    + eexists. split; [|exact Hby]. set_solver.
  - destruct (IH _ _ Hp Hc) as (l & Hl & Hby). exists l. split; [set_solver|done].
Qed.

(** C35: The validator set of a deployed program changes only by an
    execute_validator_rotation whose new set and threshold were proposed earlier in the
    trace, at a time at least the governance timelock before, and the change advances
    the epoch by exactly one. *)
Theorem validator_set_changes_after_timelock ls b l b' s s' :
  steps ls b -> step b l b' -> validator_set b = Some s -> validator_set b' = Some s' ->
  s' <> s ->
  exists c env env' bump, bridge_config b = Some c /\
    l = Tx env' ExecuteValidatorRotation /\
    Tx env (ProposeValidatorRotation bump (validators s') (threshold s')) ∈ ls /\
    unix_timestamp env + governance_timelock_seconds c <= unix_timestamp env' /\
    epoch s' = epoch s + 1.
Proof.
  intros Hls Hstep Hs Hs' Hne.
  destruct (step_transition _ _ _ _ Hls Hstep) as [(env & i & evs & -> & _ & _ & Ht)|(-> & t' & _ & ->)];
    [|cbn in Hs'; congruence].
  destruct Ht; cbn in Hs'; simplify_eq.
  destruct (pending_was_proposed _ _ _ _ Hls H1 H) as (l & Hl & Hby).
  destruct l as [env0 []|]; cbn in Hby; try done.
  - destruct Hby as (_ & <- & <- & Heta). exists c, env0, env, bump.
    split_and!; try done. lia.
  - destruct Hby as [Ha _]. rewrite H2 in Ha. discriminate Ha.
Qed.

(** The wrapped-supply cap rises only by an execute_wrapped_supply_cap_raise of a
    value proposed earlier in the trace, at least the timelock before; the admin alone
    can never raise it. *)
Theorem cap_rises_after_timelock ls b l b' c c' :
  steps ls b -> step b l b' -> bridge_config b = Some c -> bridge_config b' = Some c' ->
  max_wrapped_supply c < max_wrapped_supply c' ->
  exists env env' bump,
    l = Tx env' ExecuteWrappedSupplyCapRaise /\
    Tx env (ProposeWrappedSupplyCapRaise bump (max_wrapped_supply c')) ∈ ls /\
    unix_timestamp env + governance_timelock_seconds c <= unix_timestamp env'.
Proof.
  intros Hls Hstep Hc Hc' Hlt.
  destruct (step_transition _ _ _ _ Hls Hstep) as [(env & i & evs & -> & _ & _ & Ht)|(-> & t' & _ & ->)];
    [|cbn in Hc'; simplify_eq; lia].
  destruct Ht; cbn in Hc'; open_ok; simplify_eq; cbn in Hlt; try lia.
  destruct (pending_was_proposed _ _ _ _ Hls H1 Hc) as (l & Hl & Hby).
  destruct l as [env0 []|]; cbn in Hby; try done.
  - destruct Hby as [Ha _]. rewrite H2 in Ha. discriminate Ha.
  - destruct Hby as (_ & <- & Heta). exists env0, env, bump. split_and!; try done. lia.
Qed.

(** C37: In a reachable state with a pending action whose eta has passed, the matching
    execute instruction succeeds for anyone, with the proposed set or cap installed, the
    pending account closed and the exact events: no reachable state blocks a due action
    (epoch overflow apart). *)
Theorem due_proposal_executes ls b c s p env :
  steps ls b -> bridge_config b = Some c -> validator_set b = Some s ->
  pending_action b = Some p -> eta p <= unix_timestamp env -> epoch s < U64_MAX ->
  (action p = ACTION_PROPOSE_ROTATION /\
   exec env ExecuteValidatorRotation b =
   Ok (put_pending (put_set b (set_validators s (epoch s + 1) (proposed_threshold p)
                                 (proposed_validators p))) None,
       [GovernanceActionExecuted ACTION_PROPOSE_ROTATION (epoch s + 1)])) \/
  (action p = ACTION_PROPOSE_TVL_RAISE /\
   exec env ExecuteWrappedSupplyCapRaise b =
   Ok (put_pending (put_config b (set_cap c (proposed_max_wrapped_supply p))) None,
       [WrappedSupplyCapChanged (max_wrapped_supply c) (proposed_max_wrapped_supply p) true;
        GovernanceActionExecuted ACTION_PROPOSE_TVL_RAISE (epoch s)])).
Proof.
  intros Hls Hc Hs Hp He Hlt. pose proof (steps_inv _ _ Hls) as Hinv.
  pose proof (inv_set_bounded _ Hinv) as Hb.
  destruct Hinv as [|c' s' Hc' Hs' _ _ Hpok _ _ _]; [congruence|]. simplify_eq.
  destruct (Hpok _ Hp) as [Hep _ [(Ha & Hv & _)|(Ha & Hm & _)]]; [left|right];
    (split; [done|]); apply exec_iff; try done.
  - apply (T_execute_rotation env b c s p); auto. lia.
  - by apply (T_execute_cap env b c s p).
Qed.

(** ** Privileges *)

(** The transaction carries no ed25519 verification before the
    instruction. *)
Definition no_proof (env : TxEnv) : Prop :=
  forall ix, previous_instruction env = Some ix -> ix_program_id ix <> ed25519_program_ID.

Lemma no_proof_not_approved env s msg : no_proof env -> ~ approved env s msg.
Proof. intros Hn (ix & pks & Hix & Hid & _). by eapply Hn. Qed.

(** C36: A successful transaction that carries no accepted federation proof cannot mint,
    complete a withdrawal, open or cancel a governance action or raise the wrapped
    supply: without a proof the validator set and cap change only by executing an
    already pending action, so neither the admin nor a user controls value alone. *)
Theorem no_proof_no_money `{!SplTokenLaws T} ls b env i b' evs c :
  steps ls b -> exec env i b = Ok (b', evs) -> no_proof env -> bridge_config b = Some c ->
  deposit_claims b' = deposit_claims b /\
  (forall idx, is_completed b' idx <-> is_completed b idx) /\
  (forall s, mint_supply (tokens b) (wrapped_mint c) = Some s ->
     exists s', mint_supply (tokens b') (wrapped_mint c) = Some s' /\ s' <= s) /\
  (validator_set b' = validator_set b \/ i = ExecuteValidatorRotation) /\
  (pending_action b' = pending_action b \/
   i = ExecuteValidatorRotation \/ i = ExecuteWrappedSupplyCapRaise) /\
  exists c', bridge_config b' = Some c' /\
    (max_wrapped_supply c' <= max_wrapped_supply c \/ i = ExecuteWrappedSupplyCapRaise).
Proof.
  intros Hls Hx Hno Hc. pose proof (steps_inv _ _ Hls) as Hinv.
  eapply reachable_transition in Hx; [|done].
  pose proof (fun idx => transition_completed _ _ _ _ _ idx Hinv Hx) as Hcomp.
  destruct Hx; cbn in Hcomp |- *; open_ok;
    try match goal with
      | H : approved _ _ _ |- _ => by apply no_proof_not_approved in H
      end; simplify_eq; split_and!; eauto 10; try (eexists; split; [done|]; cbn; auto with lia);
    try (intros idx; rewrite Hcomp; naive_solver).
  - intros s Hs. apply initialize_mint_law in H2 as (Hnew & _ & _ & Hother).
    destruct (Hother (wrapped_mint c0)) as [-> _]; [congruence|]. eauto with lia.
  - intros s Hs. apply burn_checked_law in H0 as (s0 & ? & Hs0 & ? & Hs' & _).
    simplify_eq. eauto with lia.
Qed.

(** While the bridge is paused every successful transaction leaves the claims, the
    withdrawal requests and, once the mint is created, the token state unchanged, and
    only the admin's own set_paused(false) ends the pause. *)
Theorem paused_moves_no_value ls b env i b' evs c :
  steps ls b -> exec env i b = Ok (b', evs) -> bridge_config b = Some c -> paused c = true ->
  deposit_claims b' = deposit_claims b /\ withdrawal_requests b' = withdrawal_requests b /\
  (wrapped_mint c <> default_pubkey -> tokens b' = tokens b) /\
  exists c', bridge_config b' = Some c' /\
    (paused c' = true \/ exists signer, i = SetPaused signer false /\ signer = admin c).
Proof.
  intros Hls Hx Hc Hp. eapply reachable_transition in Hx; [|done].
  destruct Hx; cbn; open_ok; try congruence; simplify_eq; split_and!; try done; eauto.
  eexists. split; [done|]. cbn. destruct p; [congruence|]. eauto.
Qed.

(** The admin key changes only by accept_admin signed by the new key itself, which
    must be the nominated pending admin, and the nomination is consumed. *)
Theorem admin_changes_by_acceptance ls b l b' c c' :
  steps ls b -> step b l b' -> bridge_config b = Some c -> bridge_config b' = Some c' ->
  admin c' <> admin c ->
  (exists env, l = Tx env (AcceptAdmin (admin c'))) /\ pending_admin c = Some (admin c') /\
  pending_admin c' = None.
Proof.
  intros Hls Hstep Hc Hc' Hne.
  destruct (step_transition _ _ _ _ Hls Hstep) as [(env & i & evs & -> & _ & _ & Ht)|(-> & t' & _ & ->)];
    [|cbn in Hc'; congruence].
  destruct Ht; cbn in Hc'; open_ok; simplify_eq. eauto.
Qed.

(** ** History is kept *)

Record evolves b b' : Prop := {
  ev_claims : deposit_claims b ⊆ deposit_claims b';
  ev_requests : forall i w, withdrawal_requests b !! i = Some w ->
    exists w', withdrawal_requests b' !! i = Some w' /\
      index w' = index w /\ wr_amount w' = wr_amount w /\ requester w' = requester w /\
      glc_address w' = glc_address w /\ glc_address_len w' = glc_address_len w /\
      (status w = Completed -> w' = w);
  ev_config : forall c, bridge_config b = Some c ->
    exists c', bridge_config b' = Some c' /\ withdrawal_count c <= withdrawal_count c' /\
      governance_timelock_seconds c' = governance_timelock_seconds c /\
      (wrapped_mint c <> default_pubkey -> wrapped_mint c' = wrapped_mint c);
  ev_set : forall s, validator_set b = Some s ->
    exists s', validator_set b' = Some s' /\ epoch s <= epoch s' /\
      (epoch s' = epoch s -> s' = s)
}.

Lemma evolves_refl b : evolves b b.
Proof. constructor; [done|eauto 10..]. all: intros; eexists; split_and!; eauto; lia. Qed.

Lemma evolves_trans b1 b2 b3 : evolves b1 b2 -> evolves b2 b3 -> evolves b1 b3.
Proof.
  intros [C1 W1 F1 S1] [C2 W2 F2 S2]. constructor.
  - by etrans.
  - intros i w Hw. destruct (W1 _ _ Hw) as (w1 & Hy1 & ? & ? & ? & ? & ? & Hd1).
    destruct (W2 _ _ Hy1) as (w2 & Hy2 & ? & ? & ? & ? & ? & Hd2).
    exists w2. split_and!; try congruence. intros Hst.
    specialize (Hd1 Hst). subst. by apply Hd2.
  - intros c Hc. destruct (F1 _ Hc) as (c1 & Hy1 & ? & ? & Hm1).
    destruct (F2 _ Hy1) as (c2 & Hy2 & ? & ? & Hm2). exists c2. split_and!; [done|lia|congruence|].
    intros Hm. specialize (Hm1 Hm). rewrite <- Hm1 in Hm |- *. auto.
  - intros s Hs. destruct (S1 _ Hs) as (s1 & Hy1 & ? & Hd1).
    destruct (S2 _ Hy1) as (s2 & Hy2 & ? & Hd2). exists s2. split_and!; [done|lia|].
    intros He. assert (s1 = s) as -> by (apply Hd1; lia). apply Hd2. lia.
Qed.

(** Steps that leave the four parts alone, or touch one of them. *)
Lemma evolves_intro b b' :
  (deposit_claims b' = deposit_claims b \/
   exists k d, deposit_claims b !! k = None /\ deposit_claims b' = <[k := d]> (deposit_claims b)) ->
  (withdrawal_requests b' = withdrawal_requests b \/
   exists i w', withdrawal_requests b' = <[i := w']> (withdrawal_requests b) /\
     forall w, withdrawal_requests b !! i = Some w ->
       exists txid h, status w = Pending /\ w' = with_status (set_payout_record w txid h) Completed) ->
  (forall c, bridge_config b = Some c -> exists c', bridge_config b' = Some c' /\
     withdrawal_count c <= withdrawal_count c' /\
     governance_timelock_seconds c' = governance_timelock_seconds c /\
     (wrapped_mint c <> default_pubkey -> wrapped_mint c' = wrapped_mint c)) ->
  (forall s, validator_set b = Some s -> exists s', validator_set b' = Some s' /\
     (s' = s \/ epoch s' = epoch s + 1)) ->
  evolves b b'.
Proof.
  intros Hd Hw Hc Hs. constructor; [| |done|].
  - destruct Hd as [->|(k & d & Hk & ->)]; [done|]. by apply insert_subseteq.
  - intros i w Hi. destruct Hw as [->|(j & w' & -> & Hj)]; [eauto 10|].
    destruct (decide (i = j)) as [<-|].
    + rewrite lookup_insert_eq. destruct (Hj _ Hi) as (txid & h & Hst & ->).
      eexists. split_and!; try done. congruence.
    + rewrite lookup_insert_ne by done. eauto 10.
  - intros s Hss. destruct (Hs _ Hss) as (s' & Hs' & [->|He]).
    + eexists; split_and!; eauto; lia.
    + exists s'. split_and!; [done|lia|lia].
Qed.

Lemma evolves_step ls b l b' : steps ls b -> step b l b' -> evolves b b'.
Proof.
  intros Hls Hstep.
  destruct (step_transition _ _ _ _ Hls Hstep) as [(env & i & evs & -> & _ & _ & Ht)|(-> & t' & _ & ->)].
  - destruct Ht; open_ok; apply evolves_intro;
      cbn -[set_payout_record default_pubkey]; auto; intros; simplify_eq; eauto 10 with lia.
    all: try (eexists; split; [reflexivity|]; cbn -[default_pubkey]; split_and!; [lia|done..]).
    + right. eexists _, _. split; [done|]. congruence.
    + right. eexists _, _. split; [done|]. intros; simplify_eq; eauto.
  - apply evolves_intro; cbn; auto; intros; eexists; split_and!; eauto; lia.
Qed.

Lemma star_steps ls b b' :
  steps ls b -> star (fun b b' => exists l, step b l b') b b' -> exists ls', steps ls' b'.
Proof.
  intros Hls. induction 1 as [b|b b1 b2 _ IH [l Hl]]; [eauto|].
  destruct (IH Hls) as [ls' Hls']. eexists. by eapply steps_snoc.
Qed.

(** Between any reachable state and any later one: minted claims stay with the same
    contents; withdrawal requests stay with the same amount, requester and address, and
    a Completed one never changes again; the withdrawal counter never decreases, the
    timelock and, once created, the mint never change; the validator epoch never
    decreases and the set changes only with it. *)
Theorem history_is_kept ls b b' :
  steps ls b -> star (fun b b' => exists l, step b l b') b b' -> evolves b b'.
Proof.
  intros Hls. induction 1 as [b|b b1 b2 Hst IH [l Hl]]; [apply evolves_refl|].
  destruct (star_steps _ _ _ Hls Hst) as [ls' Hls'].
  eapply evolves_trans; [by apply IH|]. by eapply evolves_step.
Qed.
End governance.

(** ** The theorems at the states of [Scenario] *)

Definition demo_config_3 : BridgeConfig := set_withdrawal_count demo_config_2 1.
Definition demo_set_1 : ValidatorSet := set_validators demo_set_0 1 2 demo_validators'.
Definition demo_rotation : PendingGovernanceAction :=
  rotation_action 1105 250 demo_validators' 2 demo_set_0.

Lemma validator_set_changes_after_timelock_witness :
  exists c env env' bump, bridge_config (demo_state 6) = Some c /\
    Tx (at_time 1105 None) ExecuteValidatorRotation = Tx env' ExecuteValidatorRotation /\
    Tx env (ProposeValidatorRotation bump (validators demo_set_1) (threshold demo_set_1))
      ∈ demo_labels 6 /\
    unix_timestamp env + governance_timelock_seconds c <= unix_timestamp env' /\
    epoch demo_set_1 = epoch demo_set_0 + 1.
Proof.
  apply (validator_set_changes_after_timelock (demo_labels 6) (demo_state 6)
           (Tx (at_time 1105 None) ExecuteValidatorRotation) (demo_state 7)
           demo_set_0 demo_set_1).
  - apply demo_reachable. lia.
  - by apply (demo_step 6).
  - vm_compute. reflexivity.
  - vm_compute. reflexivity.
  - done.
Defined.

Lemma cap_rises_after_timelock_witness :
  exists env env' bump,
    Tx (at_time 1300 None) ExecuteWrappedSupplyCapRaise =
      Tx env' ExecuteWrappedSupplyCapRaise /\
    Tx env (ProposeWrappedSupplyCapRaise bump 2000) ∈ demo_labels 8 /\
    unix_timestamp env + 100 <= unix_timestamp env'.
Proof.
  apply (cap_rises_after_timelock (demo_labels 8) (demo_state 8)
           (Tx (at_time 1300 None) ExecuteWrappedSupplyCapRaise) (demo_state 9)
           demo_config_3 (set_cap demo_config_3 2000)).
  - apply demo_reachable. lia.
  - by apply (demo_step 8).
  - vm_compute. reflexivity.
  - vm_compute. reflexivity.
  - done.
Defined.

Lemma due_proposal_executes_witness :
  (ACTION_PROPOSE_ROTATION = ACTION_PROPOSE_ROTATION /\
   exec (at_time 1105 None) ExecuteValidatorRotation (demo_state 6) =
   Ok (put_pending (put_set (demo_state 6) demo_set_1) None,
       [GovernanceActionExecuted ACTION_PROPOSE_ROTATION 1])) \/
  (ACTION_PROPOSE_ROTATION = ACTION_PROPOSE_TVL_RAISE /\
   exec (at_time 1105 None) ExecuteWrappedSupplyCapRaise (demo_state 6) =
   Ok (put_pending (put_config (demo_state 6) (set_cap demo_config_3 0)) None,
       [WrappedSupplyCapChanged 1000 0 true;
        GovernanceActionExecuted ACTION_PROPOSE_TVL_RAISE 0])).
Proof.
  apply (due_proposal_executes (demo_labels 6) (demo_state 6) demo_config_3 demo_set_0
           demo_rotation (at_time 1105 None)).
  - apply demo_reachable. lia.
  - vm_compute. reflexivity.
  - vm_compute. reflexivity.
  - vm_compute. reflexivity.
  - done.
  - done.
Defined.

Lemma no_proof_no_money_witness :
  exists b', exists c',
    deposit_claims b' = deposit_claims (demo_state 3) /\ bridge_config b' = Some c' /\
    (max_wrapped_supply c' <= 1000 \/
     BurnWrapped demo_burn_accounts 200 demo_address = ExecuteWrappedSupplyCapRaise).
Proof.
  destruct (demo_exec 3 (at_time 1003 None) (BurnWrapped demo_burn_accounts 200 demo_address)
              eq_refl) as [evs Hx].
  destruct (no_proof_no_money (demo_labels 3) (demo_state 3) (at_time 1003 None)
              (BurnWrapped demo_burn_accounts 200 demo_address) (demo_state 4) evs demo_config_2)
    as (Hd & _ & _ & _ & _ & c' & Hc & Hm).
  - apply demo_reachable. lia.
  - exact Hx.
  - intros ix Hix. discriminate Hix.
  - vm_compute. reflexivity.
  - exists (demo_state 4), c'. by split_and!.
Defined.

(** The demo bridge paused by its admin after five transactions; the admin
    can then still lower the cap. *)
Definition demo_paused_config : BridgeConfig := set_paused_field demo_config_3 true.
Definition demo_paused : Bridge := put_config (demo_state 5) demo_paused_config.
Definition demo_paused_labels : list Label :=
  demo_labels 5 ++ [Tx (at_time 1004 None) (SetPaused demo_admin true)].

Lemma demo_config_at_5 : bridge_config (demo_state 5) = Some demo_config_3.
Proof. vm_compute. reflexivity. Qed.

Lemma demo_paused_reachable : steps demo_paused_labels demo_paused.
Proof.
  eapply steps_snoc; [apply demo_reachable; lia|].
  apply (step_tx _ _ _ _ [PauseStateChanged true]); [split; split; vm_compute; congruence|done|].
  cbn [exec]. unfold set_paused, admin_config. by rewrite demo_config_at_5.
Qed.

Lemma paused_moves_no_value_witness :
  exists b', deposit_claims b' = deposit_claims demo_paused /\ tokens b' = tokens demo_paused.
Proof.
  destruct (paused_moves_no_value demo_paused_labels demo_paused (at_time 1005 None)
    (LowerWrappedSupplyCap demo_admin 900)
    (put_config demo_paused (set_cap demo_paused_config 900))
    [WrappedSupplyCapChanged 1000 900 false] demo_paused_config) as (Hd & _ & Ht & _).
  - apply demo_paused_reachable.
  - reflexivity.
  - reflexivity.
  - reflexivity.
  - eexists. split; [exact Hd|]. apply Ht. done.
Defined.

(** The admin hands over to [key 23] and [key 23] accepts. *)
Definition demo_offer_config : BridgeConfig := set_admins demo_config_3 demo_admin (Some (key 23)).
Definition demo_offer : Bridge := put_config (demo_state 5) demo_offer_config.

Lemma demo_offer_reachable :
  steps (demo_labels 5 ++ [Tx (at_time 1004 None) (TransferAdmin demo_admin (key 23))]) demo_offer.
Proof.
  eapply steps_snoc; [apply demo_reachable; lia|].
  apply (step_tx _ _ _ _ [AdminTransferInitiated demo_admin (key 23)]);
    [split; split; vm_compute; congruence|done|].
  cbn [exec]. unfold transfer_admin, admin_config. by rewrite demo_config_at_5.
Qed.

Lemma admin_changes_by_acceptance_witness :
  (exists env, Tx (at_time 1005 None) (AcceptAdmin (key 23)) = Tx env (AcceptAdmin (key 23))) /\
  pending_admin demo_offer_config = Some (key 23) /\ (None : option Pubkey) = None.
Proof.
  eapply (admin_changes_by_acceptance _ demo_offer
           (Tx (at_time 1005 None) (AcceptAdmin (key 23)))
           (put_config demo_offer (set_admins demo_offer_config (key 23) None))
           demo_offer_config (set_admins demo_offer_config (key 23) None)).
  - apply demo_offer_reachable.
  - apply (step_tx _ _ _ _ [AdminTransferred demo_admin (key 23)]);
      [split; split; vm_compute; congruence|done|reflexivity].
  - reflexivity.
  - reflexivity.
  - done.
Defined.

Lemma history_is_kept_witness : evolves (demo_state 3) (demo_state 5).
Proof.
  apply (history_is_kept (demo_labels 3)); [apply demo_reachable; lia|].
  eapply star_step; [eapply star_step; [apply star_refl|]|].
  - eexists. by eapply (demo_step 3).
  - eexists. by eapply (demo_step 4).
Defined.
