(* ===== verification/Radix.v ===== *)
(** * Positional numerals

    Digit lists of a base, least significant first: their value, the
    canonical ones (no leading zero), the in-place [n * mult + carry] pass
    that both base58 directions of [relayer/src/withdrawal/address.rs] run
    over their digit vector, and what it does to the value.  Digits are [Z]
    in [0, base). *)
From Stdlib Require Import ZArith Lia.
From stdpp Require Import base numbers list.
From S2P Require Import Prelude.

Fixpoint val (base : Z) (l : list Z) : Z :=
  match l with [] => 0 | d :: l => d + base * val base l end.

Definition digits (base : Z) (l : list Z) : Prop := Forall (fun d => 0 <= d < base) l.

(** No leading (most significant) zero digit. *)
Definition canonical (base : Z) (l : list Z) : Prop := digits base l /\ last l <> Some 0.

(** [while carry > 0 { push(carry % base); carry /= base }]; [fuel] turns. *)
Fixpoint carry_digits (fuel : nat) (base carry : Z) : list Z :=
  match fuel with
  | O => []
  | S fuel =>
      if 0 <? carry then carry mod base :: carry_digits fuel base (carry / base) else []
  end.

(** A [u32] carry in a base of at least 2 takes at most 32 turns. *)
Definition CARRY_FUEL : nat := 32.

(** One pass: [v = digit * mult + carry; digit = v % base; carry = v / base]
    from the least significant digit on, then the remaining carry. *)
Fixpoint mul_add (base mult carry : Z) (l : list Z) : list Z :=
  match l with
  | [] => carry_digits CARRY_FUEL base carry
  | d :: l =>
      let v := d * mult + carry in v mod base :: mul_add base mult (v / base) l
  end.

Section radix.
Context (base : Z) (Hbase : 2 <= base).

Lemma val_app l1 l2 : val base (l1 ++ l2) = val base l1 + base ^ Z.of_nat (length l1) * val base l2.
Proof.
  induction l1 as [|d l1 IH]; cbn [app val length]; [lia|].
  rewrite IH, Nat2Z.inj_succ, Z.pow_succ_r by lia. ring.
Qed.

Lemma val_bound l : digits base l -> 0 <= val base l < base ^ Z.of_nat (length l).
Proof.
  induction 1 as [|d l Hd _ IH]; cbn [val length]; [lia|].
  rewrite Nat2Z.inj_succ, Z.pow_succ_r by lia. nia.
Qed.

Lemma val_nonneg l : digits base l -> 0 <= val base l.
Proof. intros H. by apply val_bound. Qed.

Lemma canonical_cons d l : canonical base (d :: l) <-> 0 <= d < base /\ canonical base l /\ (l = [] -> d <> 0).
Proof.
  unfold canonical, digits. rewrite Forall_cons. destruct l as [|e l]; cbn; [|naive_solver].
  split; [|naive_solver congruence].
  intros [[? ?] Hlast]. split; [done|]. split; [by split|congruence].
Qed.

Lemma canonical_nil : canonical base [].
Proof. by split; [constructor|]. Qed.

(** A canonical numeral of value zero is empty. *)
Lemma canonical_zero l : canonical base l -> val base l = 0 -> l = [].
Proof.
  induction l as [|d l IH]; [done|]. rewrite canonical_cons. intros (Hd & Hl & Hz) H.
  cbn [val] in H. pose proof (val_nonneg l (proj1 Hl)).
  assert (val base l = 0) as Hv by nia. assert (d = 0) as -> by nia.
  specialize (IH Hl Hv). by destruct (Hz IH).
Qed.

Lemma canonical_unique l1 l2 :
  canonical base l1 -> canonical base l2 -> val base l1 = val base l2 -> l1 = l2.
Proof.
  revert l2. induction l1 as [|d1 l1 IH]; intros [|d2 l2] H1 H2 Hv; [done|..].
  - symmetry. apply canonical_zero; [done|]. by rewrite <- Hv.
  - by apply canonical_zero.
  - apply canonical_cons in H1 as (Hd1 & H1 & _), H2 as (Hd2 & H2 & _). cbn [val] in Hv.
    assert (val base l1 = val base l2 /\ d1 = d2) as [Hl ->].
    { assert (Hq : (d1 + base * val base l1) / base = (d2 + base * val base l2) / base)
        by (by rewrite Hv).
      rewrite !(Z.mul_comm base), !Z.div_add, !Z.div_small in Hq by lia.
      split; [lia|nia]. }
    f_equal. by apply IH.
Qed.

Lemma canonical_rev_head d l : canonical base (rev (d :: l)) -> d <> 0.
Proof.
  intros [_ H] ->. apply H. cbn [rev]. by rewrite last_snoc.
Qed.

(** ** The carry loop and the pass *)

Lemma carry_digits_spec fuel carry :
  0 <= carry < 2 ^ Z.of_nat fuel ->
  canonical base (carry_digits fuel base carry) /\ val base (carry_digits fuel base carry) = carry.
Proof.
  revert carry. induction fuel as [|fuel IH]; intros carry Hc; cbn [carry_digits].
  - cbn in Hc. split; [apply canonical_nil|cbn; lia].
  - destruct (Z.ltb_spec 0 carry) as [Hp|Hz].
    2: { split; [apply canonical_nil|cbn; lia]. }
    rewrite Nat2Z.inj_succ, Z.pow_succ_r in Hc by lia.
    destruct (IH (carry / base)) as [Hcan Hval].
    { split; [apply Z.div_pos; lia|]. apply Z.div_lt_upper_bound; nia. }
    pose proof (Z.div_mod carry base) as Hdm. pose proof (Z.mod_pos_bound carry base).
    split; [|cbn [val]; rewrite Hval; lia].
    apply canonical_cons. split_and!; [lia|lia|done|].
    intros Hn Hm. rewrite Hn in Hval. cbn in Hval. lia.
Qed.

Lemma fuel_enough carry : 0 <= carry < 2 ^ 31 -> 0 <= carry < 2 ^ Z.of_nat CARRY_FUEL.
Proof. change (2 ^ 31) with 2147483648. change (2 ^ Z.of_nat CARRY_FUEL) with 4294967296. lia. Qed.

Lemma carry_bound d mult carry :
  0 <= d < base -> 0 < mult <= 256 -> 0 <= carry < 2 ^ 31 ->
  0 <= (d * mult + carry) / base < 2 ^ 31.
Proof.
  intros Hd Hm Hc. split; [apply Z.div_pos; nia|].
  apply Z.div_lt_upper_bound; [lia|].
  assert (d * mult <= (base - 1) * 256) by nia. change (2 ^ 31) with 2147483648 in *. lia.
Qed.

Lemma mul_add_spec mult carry l :
  0 < mult <= 256 -> base <= 256 -> 0 <= carry < 2 ^ 31 -> digits base l ->
  digits base (mul_add base mult carry l) /\
  val base (mul_add base mult carry l) = val base l * mult + carry.
Proof.
  intros Hm Hb. revert carry. induction l as [|d l IH]; intros carry Hc Hl; cbn [mul_add val].
  - destruct (carry_digits_spec CARRY_FUEL carry) as [[Hd _] Hv]; [by apply fuel_enough|]. by rewrite Hv.
  - apply Forall_cons in Hl as [Hd Hl].
    pose proof (Z.mod_pos_bound (d * mult + carry) base).
    pose proof (Z.div_mod (d * mult + carry) base) as Hdm.
    destruct (IH ((d * mult + carry) / base)) as [Hg Hv]; [|done|].
    { apply carry_bound; lia. }
    split; [apply Forall_cons; split; [lia|done]|]. rewrite Hv. nia.
Qed.

(** The pass keeps the numeral canonical when the value does not vanish. *)
Lemma mul_add_canonical mult carry l :
  0 < mult <= 256 -> base <= 256 -> 0 <= carry < 2 ^ 31 -> canonical base l ->
  canonical base (mul_add base mult carry l).
Proof.
  intros Hm Hb. revert carry. induction l as [|d l IH]; intros carry Hc Hl; cbn [mul_add].
  - apply (carry_digits_spec CARRY_FUEL). by apply fuel_enough.
  - apply canonical_cons in Hl as (Hd & Hl & Hz).
    pose proof (Z.mod_pos_bound (d * mult + carry) base).
    pose proof (Z.div_mod (d * mult + carry) base) as Hdm.
    assert (0 <= (d * mult + carry) / base < 2 ^ 31) as Hq.
    { apply carry_bound; lia. }
    apply canonical_cons. split_and!; [lia|lia|by apply IH|]. intros Hn Hv.
    destruct (mul_add_spec mult ((d * mult + carry) / base) l Hm Hb Hq (proj1 Hl)) as [_ Hval].
    rewrite Hn in Hval. cbn in Hval. pose proof (val_nonneg l (proj1 Hl)).
    assert (val base l = 0) as Hl0 by nia.
    apply Hz; [by apply canonical_zero|]. nia.
Qed.

(** ** Converting a whole numeral, most significant digit first *)

Definition convert (mult : Z) (ds : list Z) : list Z :=
  foldl (fun acc d => mul_add base mult d acc) [] ds.

Lemma convert_from mult ds acc :
  0 < mult <= 256 -> base <= 256 -> digits mult ds -> canonical base acc ->
  canonical base (foldl (fun acc d => mul_add base mult d acc) acc ds) /\
  val base (foldl (fun acc d => mul_add base mult d acc) acc ds) =
    val base acc * mult ^ Z.of_nat (length ds) + val mult (rev ds).
Proof.
  intros Hm Hb Hds. revert acc. induction Hds as [|d ds Hd Hds IH]; intros acc Hacc.
  - cbn. split; [done|]. lia.
  - cbn [foldl]. assert (0 <= d < 2 ^ 31) as Hd' by lia.
    destruct (mul_add_spec mult d acc Hm Hb Hd' (proj1 Hacc)) as [_ Hv].
    destruct (IH (mul_add base mult d acc)) as [Hc Hval];
      [by apply mul_add_canonical|]. split; [done|].
    rewrite Hval, Hv. cbn [rev length].
    assert (val mult (rev ds ++ [d]) = val mult (rev ds) + mult ^ Z.of_nat (length ds) * d) as ->.
    { clear. generalize (rev ds) at 1 2, (length_rev ds). intros l Hl.
      rewrite <- Hl. clear Hl. induction l as [|e l IH]; cbn [app val length]; [lia|].
      rewrite IH, Nat2Z.inj_succ, Z.pow_succ_r by lia. ring. }
    rewrite Nat2Z.inj_succ, Z.pow_succ_r by lia. ring.
Qed.

Lemma convert_spec mult ds :
  0 < mult <= 256 -> base <= 256 -> digits mult ds ->
  canonical base (convert mult ds) /\ val base (convert mult ds) = val mult (rev ds).
Proof.
  intros Hm Hb Hds. destruct (convert_from mult ds [] Hm Hb Hds canonical_nil) as [Hc Hv].
  split; [done|]. unfold convert. rewrite Hv. cbn. lia.
Qed.

Lemma val_leading_zeros k l : val base (l ++ replicate k 0) = val base l.
Proof.
  rewrite val_app. assert (val base (replicate k 0) = 0) as ->; [|lia].
  induction k as [|k IH]; cbn; [done|]. rewrite IH. lia.
Qed.
End radix.

Lemma rev_zeros k : rev (replicate k 0) = replicate k 0.
Proof. induction k as [|k IH]; [done|]. cbn. rewrite IH. by rewrite <- replicate_cons_app. Qed.

Lemma digits_zeros base k ds : 2 <= base -> digits base ds -> digits base (replicate k 0 ++ ds).
Proof. intros Hb Hd. apply Forall_app. split; [apply Forall_replicate; lia|done]. Qed.

Lemma val_rev_zeros base k ds : 2 <= base -> val base (rev (replicate k 0 ++ ds)) = val base (rev ds).
Proof. intros Hb. rewrite rev_app_distr, rev_zeros. by apply val_leading_zeros. Qed.

Lemma digits_rev base ds : digits base ds <-> digits base (rev ds).
Proof.
  unfold digits. split; [apply Forall_rev|]. intros H%Forall_rev. by rewrite rev_involutive in H.
Qed.

(** Converting there and back gives the numeral without its leading zeros. *)
Lemma convert_convert b1 b2 j k ds :
  2 <= b1 <= 256 -> 2 <= b2 <= 256 -> canonical b1 (rev ds) ->
  convert b1 b2 (replicate j 0 ++ rev (convert b2 b1 (replicate k 0 ++ ds))) = rev ds.
Proof.
  intros H1 H2 Hc.
  assert (digits b1 (replicate k 0 ++ ds)) as Hd
    by (apply digits_zeros; [lia|]; apply (proj2 (digits_rev _ _)), Hc).
  destruct (convert_spec b2 ltac:(lia) b1 _ ltac:(lia) ltac:(lia) Hd) as [Hcan Hval].
  assert (digits b2 (replicate j 0 ++ rev (convert b2 b1 (replicate k 0 ++ ds)))) as Hd2
    by (apply digits_zeros; [lia|]; apply (proj1 (digits_rev _ _)), Hcan).
  destruct (convert_spec b1 ltac:(lia) b2 _ ltac:(lia) ltac:(lia) Hd2) as [Hcan' Hval'].
  apply (canonical_unique b1 ltac:(lia)); [done|done|].
  rewrite Hval', val_rev_zeros, rev_involutive, Hval by lia. apply val_rev_zeros. lia.
Qed.
