(* ===== verification/Hex.v ===== *)
(** * The hex codec: [relayer/src/glc/hex.rs]

    A Rust [&str] is its UTF-8 byte string; slicing panics off a character
    boundary, so a decoder's outcome is a value, a [HexError] or [Panicked].
    [from_str_radix_16] is the standard library's [u8::from_str_radix(_, 16)],
    leading ['+'] included. *)
From Stdlib Require Import ZArith Lia Strings.Byte.
From stdpp Require Import base numbers strings gmap list pretty.
From S2P Require Import Prelude.

Abbreviation str := (list byte).
Definition lit (s : String.string) : str := String.list_byte_of_string s.
Arguments lit : simpl never.
(** [format!("{n}")] *)
Definition display (n : Z) : str := String.list_byte_of_string (pretty n).

Inductive HexError :=
| OddLength (n : nat)
| WrongLength (expected expected_bytes actual : nat)
| InvalidDigit (s : str).

Inductive HexFault := HexErr (e : HexError) | Panicked.

(** ** The standard library's part *)

(** [char::to_digit(16)] on one ASCII byte. *)
Definition to_digit (b : byte) : option Z :=
  let n := byte_to_Z b in
  if (48 <=? n) && (n <=? 57) then Some (n - 48)
  else if (97 <=? n) && (n <=? 102) then Some (n - 87)
  else if (65 <=? n) && (n <=? 70) then Some (n - 55)
  else None.

Fixpoint radix_digits (acc : Z) (s : str) : option Z :=
  match s with
  | [] => Some acc
  | b :: s =>
      d ← to_digit b;
      if acc * 16 + d <=? U8_MAX then radix_digits (acc * 16 + d) s else None
  end.

Definition from_str_radix_16 (s : str) : option Z :=
  match s with
  | [] => None
  | [b] => radix_digits 0 [b]
  | b :: rest => if bool_decide (b = "+"%byte) then radix_digits 0 rest else radix_digits 0 s
  end.

(** [str::is_char_boundary] *)
Definition is_char_boundary (s : str) (i : nat) : bool :=
  (i =? 0)%nat || (i =? length s)%nat ||
  match s !! i with
  | Some b => (byte_to_Z b <? 128) || (192 <=? byte_to_Z b)
  | None => false
  end.

(** [&s[a..b]] *)
Definition str_slice (s : str) (a b : nat) : option str :=
  if is_char_boundary s a && is_char_boundary s b then get_range s a b else None.

(** ** hex.rs *)

(** [format!("{b:02x}")] *)
Definition hex_digit (n : Z) : byte :=
  if n <? 10 then byte_of_Z (48 + n) else byte_of_Z (87 + n).
Definition encode_byte (b : byte) : str :=
  [hex_digit (byte_to_Z b / 16); hex_digit (byte_to_Z b mod 16)].
Definition encode (bytes : list byte) : str :=
  foldl (fun s b => s ++ encode_byte b) [] bytes.

(** The body of both decoding loops at byte offset [i]. *)
Definition decode_at (s : str) (i : nat) : result HexFault byte :=
  let* byte_str := ok_or (str_slice s i (i + 2)) Panicked in
  let* v := ok_or (from_str_radix_16 byte_str) (HexErr (InvalidDigit byte_str)) in
  Ok (byte_of_Z v).

(** [for k in 0..n] with [i = 2 * k]. *)
Fixpoint decode_loop (s : str) (k n : nat) : result HexFault (list byte) :=
  match n with
  | O => Ok []
  | S n =>
      let* b := decode_at s (2 * k) in
      let* rest := decode_loop s (S k) n in
      Ok (b :: rest)
  end.

Definition decode_exact (N : nat) (s : str) : result HexFault (list byte) :=
  require (Nat.even (length s)) (HexErr (OddLength (length s))) ;;*
  require (length s =? N * 2)%nat (HexErr (WrongLength (N * 2) N (length s))) ;;*
  decode_loop s 0 N.

Definition decode_vec (s : str) : result HexFault (list byte) :=
  require (Nat.even (length s)) (HexErr (OddLength (length s))) ;;*
  decode_loop s 0 (Nat.div2 (length s)).

(** ** Lemmas *)

Lemma encode_app_acc acc bytes :
  foldl (fun s b => s ++ encode_byte b) acc bytes = acc ++ concat (encode_byte <$> bytes).
Proof.
  revert acc. induction bytes as [|b bytes IH]; intros acc; [by rewrite app_nil_r|].
  cbn [foldl fmap list_fmap concat]. rewrite IH. cbn [concat]. by rewrite app_assoc.
Qed.

Lemma encode_concat bytes : encode bytes = concat (encode_byte <$> bytes).
Proof. apply encode_app_acc. Qed.

Lemma length_encode bytes : length (encode bytes) = (2 * length bytes)%nat.
Proof.
  rewrite encode_concat. induction bytes as [|b bytes IH]; [done|].
  cbn [fmap list_fmap concat]. rewrite length_app, IH. cbn. lia.
Qed.

Lemma encode_byte_digits b : from_str_radix_16 (encode_byte b) = Some (byte_to_Z b).
Proof. destruct b; reflexivity. Qed.

Definition is_ascii (b : byte) : bool := byte_to_Z b <? 128.
Definition is_lower_hex (b : byte) : bool :=
  let n := byte_to_Z b in ((48 <=? n) && (n <=? 57)) || ((97 <=? n) && (n <=? 102)).

Lemma encode_byte_lower b : forallb is_lower_hex (encode_byte b) = true.
Proof. destruct b; reflexivity. Qed.

Lemma encode_lower bytes : Forall (fun b => is_lower_hex b = true) (encode bytes).
Proof.
  rewrite encode_concat. induction bytes as [|b bytes IH]; [constructor|].
  cbn [fmap list_fmap concat]. apply Forall_app. split; [|done].
  apply Forall_forall. intros x Hx. pose proof (encode_byte_lower b) as Hb.
  rewrite forallb_forall in Hb. by apply Hb, list_elem_of_In.
Qed.

Lemma lower_hex_ascii b : is_lower_hex b = true -> is_ascii b = true.
Proof.
  unfold is_lower_hex, is_ascii. intros [H|H]%orb_true_iff; bools; apply Z.ltb_lt; lia.
Qed.

Lemma ascii_boundary s i :
  Forall (fun b => is_ascii b = true) s -> (i <= length s)%nat -> is_char_boundary s i = true.
Proof.
  intros Hs Hi. unfold is_char_boundary.
  destruct (decide (i = length s)) as [->|].
  - rewrite (Nat.eqb_refl (length s)). by rewrite orb_true_r.
  - destruct (lookup_lt_is_Some_2 s i) as [b Hb]; [lia|]. rewrite Hb.
    rewrite Forall_lookup in Hs. specialize (Hs _ _ Hb). unfold is_ascii in Hs.
    rewrite Hs. by rewrite orb_true_r.
Qed.

Lemma decode_at_ascii p x s :
  Forall (fun b => is_ascii b = true) (p ++ x ++ s) -> length x = 2%nat ->
  decode_at (p ++ x ++ s) (length p) =
  (let* v := ok_or (from_str_radix_16 x) (HexErr (InvalidDigit x)) in Ok (byte_of_Z v)).
Proof.
  intros Ha Hx. unfold decode_at, str_slice.
  rewrite !ascii_boundary by (rewrite ?length_app; done || lia). cbn [andb].
  by rewrite (get_range_app p x s) by lia.
Qed.

Lemma decode_loop_encode p bytes :
  Forall (fun b => is_ascii b = true) p -> Nat.even (length p) = true ->
  decode_loop (p ++ encode bytes) (Nat.div2 (length p)) (length bytes) = Ok bytes.
Proof.
  revert p. induction bytes as [|b bytes IH]; intros p Hp He; [done|]. cbn [length decode_loop].
  replace (2 * Nat.div2 (length p))%nat with (length p)
    by (apply Nat.even_spec, Nat.Even_double in He; unfold Nat.double in He; lia).
  assert (encode (b :: bytes) = encode_byte b ++ encode bytes) as ->
    by (by rewrite !encode_concat).
  assert (Forall (fun b => is_ascii b = true) (encode_byte b)) as Hb.
  { apply Forall_forall. intros x Hx%list_elem_of_In. apply lower_hex_ascii.
    pose proof (encode_byte_lower b) as Hl. rewrite forallb_forall in Hl. auto. }
  rewrite decode_at_ascii; [|rewrite !Forall_app; split_and!; try done|done].
  - rewrite encode_byte_digits. cbn [ok_or mbind result_bind]. rewrite byte_of_to_Z.
    rewrite (app_assoc p). specialize (IH (p ++ encode_byte b)).
    replace (Nat.div2 (length (p ++ encode_byte b))) with (S (Nat.div2 (length p))) in IH.
    + rewrite IH; [done|by apply Forall_app|]. rewrite length_app. cbn.
      by rewrite Nat.even_add, He.
    + rewrite length_app, Nat.add_comm. done.
  - eapply Forall_impl; [apply encode_lower|]. apply lower_hex_ascii.
Qed.

Lemma decode_loop_step s k n bs :
  decode_loop s k n = Ok bs -> length bs = n.
Proof.
  revert k bs. induction n as [|n IH]; intros k bs; cbn [decode_loop]; [by intros [= <-]|].
  intros H. res_inv. subst. cbn. f_equal. eauto.
Qed.

(** On ASCII input no slice is off a character boundary. *)
Lemma decode_loop_no_panic s k n :
  Forall (fun b => is_ascii b = true) s -> (2 * (k + n) <= length s)%nat ->
  decode_loop s k n <> Err Panicked.
Proof.
  intros Hs. revert k. induction n as [|n IH]; intros k Hk; cbn [decode_loop]; [done|].
  intros [H|(b & Hb & [H|(bs & _ & H)]%bind_Err)]%bind_Err; [| |done].
  - unfold decode_at, str_slice in H.
    rewrite !ascii_boundary in H by (done || lia). cbn [andb] in H.
    apply bind_Err in H as [[H _]%ok_or_Err|(x & Hx & [H|(v & _ & H)]%bind_Err)]; [|by apply ok_or_Err in H as [_ [=]]|done].
    unfold get_range in H.
    rewrite !(proj2 (Nat.leb_le _ _)) in H by lia. done.
  - by apply (IH (S k)); [lia|].
Qed.

Lemma decode_encode bytes :
  decode_vec (encode bytes) = Ok bytes /\ decode_exact (length bytes) (encode bytes) = Ok bytes.
Proof.
  pose proof (decode_loop_encode [] bytes ltac:(constructor) eq_refl) as Hd. cbn in Hd.
  assert (Nat.even (length (encode bytes)) = true) as He
    by (rewrite length_encode; apply Nat.even_mul).
  unfold decode_vec, decode_exact. rewrite He. rewrite length_encode, Nat.div2_double.
  rewrite Nat.mul_comm, Nat.eqb_refl. cbn [mbind result_bind require]. done.
Qed.

Lemma decode_exact_encode N bytes :
  length bytes = N -> decode_exact N (encode bytes) = Ok bytes.
Proof. intros <-. apply decode_encode. Qed.

Lemma encode_inj a b : encode a = encode b -> a = b.
Proof.
  intros E. pose proof (proj1 (decode_encode a)) as Ha. rewrite E, (proj1 (decode_encode b)) in Ha.
  by injection Ha.
Qed.

(** ** Properties *)

(** Encoding bytes to hex and decoding gives the bytes back, by both decoders, and
    the encoding is lower-case hex of twice the length. *)
Theorem hex_roundtrip bytes :
  decode_vec (encode bytes) = Ok bytes /\
  decode_exact (length bytes) (encode bytes) = Ok bytes /\
  length (encode bytes) = (2 * length bytes)%nat /\
  Forall (fun b => is_lower_hex b = true) (encode bytes).
Proof.
  destruct (decode_encode bytes) as [Hv He].
  split_and!; [done|done|apply length_encode|apply encode_lower].
Qed.

(** On ASCII input decode_exact never panics: it returns exactly N bytes, and only
    for input of length 2N, or an error value. *)
Theorem decode_exact_total s N :
  Forall (fun b => is_ascii b = true) s ->
  (exists bs, decode_exact N s = Ok bs /\ length bs = N /\ length s = (2 * N)%nat) \/
  (exists e, decode_exact N s = Err (HexErr e)).
Proof.
  intros Hs. unfold decode_exact.
  destruct (Nat.even (length s)) eqn:He; [|right; eauto].
  destruct (Nat.eqb_spec (length s) (N * 2)) as [Hl|]; [|right; eauto].
  cbn [mbind result_bind require].
  destruct (decode_loop s 0 N) as [bs|[e|]] eqn:E.
  - left. exists bs. split_and!; [done|by eapply decode_loop_step|lia].
  - right. eauto.
  - exfalso. eapply (decode_loop_no_panic s 0 N); [done|lia|done].
Qed.

Lemma decode_exact_total_witness :
  (exists bs, decode_exact 2 (lit "0aF+") = Ok bs /\ length bs = 2%nat /\
     length (lit "0aF+") = 4%nat) \/
  (exists e, decode_exact 2 (lit "0aF+") = Err (HexErr e)).
Proof. apply (decode_exact_total (lit "0aF+") 2). repeat constructor. Defined.

(** Decode_exact accepts a byte written as a plus sign and one digit, because
    u8::from_str_radix does: the decoder is not the inverse of the encoder on such
    input. *)
Theorem decode_accepts_plus_sign d :
  (exists v, to_digit d = Some v) ->
  exists b, decode_exact 1 ["+"%byte; d] = Ok [b] /\ encode [b] <> ["+"%byte; d].
Proof.
  intros [v Hv]. exists (byte_of_Z v). split.
  - destruct d; try discriminate Hv; injection Hv as <-; reflexivity.
  - intros H. pose proof (encode_lower [byte_of_Z v]) as Hl. rewrite H in Hl.
    apply Forall_cons in Hl as [Hl _]. discriminate Hl.
Qed.

Lemma decode_accepts_plus_sign_witness :
  exists b, decode_exact 1 (lit "+5") = Ok [b] /\ encode [b] <> lit "+5".
Proof. apply (decode_accepts_plus_sign "5"%byte). exists 5. reflexivity. Defined.

(** A two-byte character across a slice: [decode_vec] of "0é0" panics. *)
Lemma decode_panics_inside_character :
  decode_vec [x30; xc3; xa9; x30] = Err Panicked.
Proof. reflexivity. Qed.
