(* ===== verification/Text.v ===== *)
(** * Text: the standard library's part

    What the text formats of the relayer use of Rust's [str]: the whitespace
    of [trim], [lines], [splitn] and the integers of [parse], with the round
    trips of a printed number and of a line. *)
From Stdlib Require Import ZArith Lia Strings.Byte.
From stdpp Require Import base numbers strings list pretty.
From S2P Require Import Prelude Hex.

(** ** Whitespace *)

(** The UTF-8 encodings of [char::is_whitespace]: ASCII blanks, U+0085,
    U+00A0, U+1680, U+2000 to U+200A, U+2028, U+2029, U+202F, U+205F and
    U+3000. *)
Definition whitespace : list str :=
  [[x20]; [x09]; [x0a]; [x0b]; [x0c]; [x0d]; [xc2; x85]; [xc2; xa0]; [xe1; x9a; x80];
   [xe2; x80; x80]; [xe2; x80; x81]; [xe2; x80; x82]; [xe2; x80; x83]; [xe2; x80; x84];
   [xe2; x80; x85]; [xe2; x80; x86]; [xe2; x80; x87]; [xe2; x80; x88]; [xe2; x80; x89];
   [xe2; x80; x8a]; [xe2; x80; xa8]; [xe2; x80; xa9]; [xe2; x80; xaf]; [xe2; x81; x9f];
   [xe3; x80; x80]].

(** One leading blank of a UTF-8 string. *)
Definition skip_whitespace (s : str) : option str :=
  (fun p => drop (length p.2) s) <$> list_find (fun w => w `prefix_of` s) whitespace.

(** [s.trim().is_empty()]; every turn consumes a byte. *)
Fixpoint blank_loop (fuel : nat) (s : str) : bool :=
  match s, fuel with
  | [], _ => true
  | _ :: _, O => false
  | _ :: _, S fuel => match skip_whitespace s with Some s' => blank_loop fuel s' | None => false end
  end.
Definition is_blank (s : str) : bool := blank_loop (length s) s.

(** [str::trim]: leading blanks one by one; the longest blank suffix. *)
Fixpoint trim_start (fuel : nat) (s : str) : str :=
  match fuel with
  | O => s
  | S fuel => match skip_whitespace s with Some s' => trim_start fuel s' | None => s end
  end.
Definition trim_end (s : str) : str :=
  match list_find (fun n => is_blank (drop n s) = true) (seq 0 (S (length s))) with
  | Some (_, n) => take n s
  | None => s
  end.
Definition trim (s : str) : str := trim_end (trim_start (length s) s).

(** ** Lines and fields *)

Definition strip_cr (line : str) : str :=
  match rev line with
  | b :: rest => if bool_decide (b = "013"%byte) then rev rest else line
  | [] => line
  end.

(** [str::lines]: a last line need not end in a newline and keeps a carriage
    return. *)
Fixpoint lines_loop (line s : str) : list str :=
  match s with
  | [] => match line with [] => [] | _ => [line] end
  | b :: s =>
      if bool_decide (b = "010"%byte) then strip_cr line :: lines_loop [] s
      else lines_loop (line ++ [b]) s
  end.
Definition lines (s : str) : list str := lines_loop [] s.

(** [s.split(c)]: the pieces between the separators, never none. *)
Fixpoint split_char (c : byte) (piece s : str) : list str :=
  match s with
  | [] => [piece]
  | b :: s => if bool_decide (b = c) then piece :: split_char c [] s else split_char c (piece ++ [b]) s
  end.
(** [s.split_once(c)] *)
Fixpoint split_once (c : byte) (s : str) : option (str * str) :=
  match s with
  | [] => None
  | b :: s =>
      if bool_decide (b = c) then Some ([], s)
      else (fun '(x, y) => (b :: x, y)) <$> split_once c s
  end.
(** [s.split(c).map(str::trim).filter(|s| !s.is_empty())] *)
Definition entries (c : byte) (s : str) : list str :=
  filter (fun e => e <> []) (trim <$> split_char c [] s).

(** [s.split_once(' ')] *)
Fixpoint split_space (s : str) : option (str * str) :=
  match s with
  | [] => None
  | b :: s =>
      if bool_decide (b = " "%byte) then Some ([], s)
      else (fun '(x, y) => (b :: x, y)) <$> split_space s
  end.
(** [s.splitn(n, ' ')] *)
Fixpoint splitn (n : nat) (s : str) : list str :=
  match n with
  | O => []
  | S O => [s]
  | S n => match split_space s with Some (x, y) => x :: splitn n y | None => [s] end
  end.

(** ** Numbers *)

Fixpoint dec_digits (acc : Z) (s : str) : option Z :=
  match s with
  | [] => Some acc
  | b :: s =>
      let n := byte_to_Z b in
      if (48 <=? n) && (n <=? 57) then dec_digits (acc * 10 + (n - 48)) s else None
  end.

(** [str::parse] for an unsigned type up to [max]. *)
Definition parse_unsigned (max : Z) (s : str) : option Z :=
  match s with
  | [] => None
  | b :: rest =>
      n ← dec_digits 0 (if bool_decide (b = "+"%byte /\ rest <> []) then rest else s);
      if n <=? max then Some n else None
  end.
(** The same for [i64]. *)
Definition parse_i64 (s : str) : option Z :=
  match s with
  | [] => None
  | b :: rest =>
      n ← (if bool_decide (rest = []) then dec_digits 0 s
           else if bool_decide (b = "-"%byte) then Z.opp <$> dec_digits 0 rest
           else dec_digits 0 (if bool_decide (b = "+"%byte) then rest else s));
      if (I64_MIN <=? n) && (n <=? I64_MAX) then Some n else None
  end.

(** ** A printed number reads back *)

Definition is_dec (b : byte) : bool := (48 <=? byte_to_Z b) && (byte_to_Z b <=? 57).

Lemma dec_digits_app acc s t : dec_digits acc (s ++ t) = dec_digits acc s ≫= fun n => dec_digits n t.
Proof.
  revert acc. induction s as [|b s IH]; intros acc; cbn [app dec_digits]; [done|].
  destruct (_ && _); [apply IH|done].
Qed.

Lemma pretty_N_char_byte (d : N) :
  (d < 10)%N -> byte_to_Z (Ascii.byte_of_ascii (pretty_N_char d)) = 48 + Z.of_N d.
Proof.
  intros Hd. assert (d = 0 \/ d = 1 \/ d = 2 \/ d = 3 \/ d = 4 \/ d = 5 \/ d = 6 \/ d = 7 \/ d = 8 \/ d = 9)%N
    as H by lia. by repeat (destruct H as [->|H]; [reflexivity|]); subst.
Qed.

Lemma list_byte_cons a s :
  String.list_byte_of_string (String.String a s) = Ascii.byte_of_ascii a :: String.list_byte_of_string s.
Proof. done. Qed.

Lemma pretty_go_digits (n : N) s :
  dec_digits 0 (String.list_byte_of_string (pretty_N_go n s)) =
  dec_digits (Z.of_N n) (String.list_byte_of_string s).
Proof.
  revert s. induction (N.lt_wf_0 n) as [n _ IH]. intros s.
  destruct (decide (0 < n)%N) as [Hn|Hn].
  2: { assert (n = 0)%N as -> by lia. by rewrite pretty_N_go_0. }
  rewrite pretty_N_go_step by done. rewrite IH by (apply N.div_lt; lia). rewrite list_byte_cons. cbn [dec_digits].
  pose proof (N.mod_lt n 10 ltac:(done)) as Hm. rewrite pretty_N_char_byte by done.
  remember (n `mod` 10)%N as r. rewrite (proj2 (Z.leb_le 48 _)), (proj2 (Z.leb_le _ 57)) by lia. cbn [andb]. f_equal.
  pose proof (N.div_mod n 10 ltac:(done)) as Hd.
  rewrite <- Heqr in Hd. lia.
Qed.

Lemma pretty_go_dec (n : N) s :
  forallb is_dec (String.list_byte_of_string s) = true ->
  forallb is_dec (String.list_byte_of_string (pretty_N_go n s)) = true.
Proof.
  revert s. induction (N.lt_wf_0 n) as [n _ IH]. intros s Hs.
  destruct (decide (0 < n)%N) as [Hn|Hn].
  2: { assert (n = 0)%N as -> by lia. by rewrite pretty_N_go_0. }
  rewrite pretty_N_go_step by done. apply IH; [apply N.div_lt; lia|]. rewrite list_byte_cons. cbn [forallb].
  rewrite Hs, andb_true_r. unfold is_dec.
  pose proof (N.mod_lt n 10 ltac:(done)) as Hm. rewrite pretty_N_char_byte by done.
  remember (n `mod` 10)%N as r. apply andb_true_iff. split; apply Z.leb_le; lia.
Qed.

Definition plain_number (n : N) : str := String.list_byte_of_string (pretty n).

Lemma plain_number_dec n : forallb is_dec (plain_number n) = true.
Proof. unfold plain_number, pretty, pretty_N. case_decide; [done|]. by apply pretty_go_dec. Qed.

Lemma plain_number_value n : dec_digits 0 (plain_number n) = Some (Z.of_N n).
Proof.
  unfold plain_number, pretty, pretty_N. case_decide as Hn; [by subst|]. by rewrite pretty_go_digits.
Qed.

Lemma plain_number_nonempty n : plain_number n <> [].
Proof. intros H. pose proof (plain_number_value n) as Hv. rewrite H in Hv. injection Hv as Hv.
  assert (n = 0)%N as -> by lia. discriminate H. Qed.

Lemma display_nonneg n : 0 <= n -> display n = plain_number (Z.to_N n).
Proof. destruct n; [done|done|lia]. Qed.
Lemma display_neg n : n < 0 -> display n = "-"%byte :: plain_number (Z.to_N (- n)).
Proof. destruct n; [lia|lia|done]. Qed.

Lemma dec_not_sign b s : forallb is_dec (b :: s) = true -> b <> "+"%byte /\ b <> "-"%byte.
Proof. cbn. intros [Hb _]%andb_true_iff. by split; intros ->. Qed.

Lemma parse_display max n : 0 <= n <= max -> parse_unsigned max (display n) = Some n.
Proof.
  intros Hn. rewrite display_nonneg by lia. pose proof (plain_number_dec (Z.to_N n)) as Hd.
  pose proof (plain_number_value (Z.to_N n)) as Hv. pose proof (plain_number_nonempty (Z.to_N n)) as Hne.
  destruct (plain_number (Z.to_N n)) as [|b s]; [done|]. apply dec_not_sign in Hd as [Hp _].
  unfold parse_unsigned. rewrite bool_decide_false by naive_solver. rewrite Hv. cbn.
  rewrite Z2N.id by lia. by rewrite (proj2 (Z.leb_le _ _)) by lia.
Qed.

Lemma parse_display_i64 n : I64_MIN <= n <= I64_MAX -> parse_i64 (display n) = Some n.
Proof.
  intros Hn. assert (((I64_MIN <=? n) && (n <=? I64_MAX))%Z = true) as Hr
    by (apply andb_true_iff; split; apply Z.leb_le; lia).
  destruct (decide (0 <= n)) as [H0|H0].
  - rewrite display_nonneg by lia. pose proof (plain_number_dec (Z.to_N n)) as Hd.
    pose proof (plain_number_value (Z.to_N n)) as Hv. pose proof (plain_number_nonempty (Z.to_N n)) as Hne.
    destruct (plain_number (Z.to_N n)) as [|b s]; [done|]. apply dec_not_sign in Hd as [Hp Hm].
    unfold parse_i64. rewrite !bool_decide_false with (P := b = _) by done. rewrite Hv.
    rewrite Z2N.id by lia. destruct (bool_decide _); cbn; by rewrite Hr.
  - rewrite display_neg by lia. pose proof (plain_number_nonempty (Z.to_N (- n))) as Hne.
    unfold parse_i64. rewrite bool_decide_false, bool_decide_true by done. rewrite plain_number_value. cbn.
    rewrite Z2N.id, Z.opp_involutive by lia. by rewrite Hr.
Qed.

(** ** Words: what fields are made of *)

(** ASCII that is not white space. *)
Definition is_word (b : byte) : bool := (33 <=? byte_to_Z b) && (byte_to_Z b <=? 126).
Definition word (s : str) : Prop := forallb is_word s = true.

Lemma word_app s t : word (s ++ t) <-> word s /\ word t.
Proof. unfold word. by rewrite forallb_app, andb_true_iff. Qed.

Lemma dec_word s : forallb is_dec s = true -> word s.
Proof.
  unfold word. rewrite !forallb_forall. intros H b Hb. specialize (H b Hb). unfold is_dec, is_word in *.
  apply andb_true_iff in H as [?%Z.leb_le ?%Z.leb_le]. apply andb_true_iff. split; apply Z.leb_le; lia.
Qed.

Lemma display_word n : word (display n) /\ display n <> [].
Proof.
  destruct (decide (0 <= n)) as [H|H].
  - rewrite display_nonneg by lia. split; [apply dec_word, plain_number_dec|apply plain_number_nonempty].
  - rewrite display_neg by lia. split; [|done]. unfold word. cbn [forallb].
    apply (dec_word _ (plain_number_dec _)).
Qed.

Lemma word_elem s b : word s -> b ∈ s -> is_word b = true.
Proof. unfold word. rewrite forallb_forall. intros H Hb. apply H. by apply list_elem_of_In. Qed.

Lemma word_no_space s : word s -> " "%byte ∉ s /\ "010"%byte ∉ s.
Proof. intros Hs. by split; intros Hb%(word_elem _ _ Hs). Qed.

Lemma split_space_word w s : " "%byte ∉ w -> split_space (w ++ " "%byte :: s) = Some (w, s).
Proof.
  induction w as [|b w IH]; intros Hw; cbn [app split_space]; [done|].
  apply not_elem_of_cons in Hw as [Hb Hw]. rewrite bool_decide_false by done. by rewrite IH.
Qed.
Lemma split_space_none w : " "%byte ∉ w -> split_space w = None.
Proof.
  induction w as [|b w IH]; intros Hw; cbn [split_space]; [done|].
  apply not_elem_of_cons in Hw as [Hb Hw]. rewrite bool_decide_false by done. by rewrite IH.
Qed.

(** ** Trimming *)

Lemma skip_whitespace_Some s s' :
  skip_whitespace s = Some s' -> exists w, w ∈ whitespace /\ s = w ++ s'.
Proof.
  unfold skip_whitespace. intros ([i w] & Hf & ->)%fmap_Some.
  apply list_find_Some in Hf as (Hi & [t ->] & _). exists w.
  split; [by eapply list_elem_of_lookup_2|]. by rewrite drop_app_length.
Qed.

Lemma whitespace_no_word w b : w ∈ whitespace -> b ∈ w -> is_word b = false.
Proof.
  intros Hw. revert b. apply Forall_forall. revert w Hw. apply Forall_forall.
  apply (bool_decide_unpack _). vm_compute. exact I.
Qed.

Lemma whitespace_nonempty w : w ∈ whitespace -> (0 < length w)%nat.
Proof. revert w. apply Forall_forall. apply (bool_decide_unpack _). vm_compute. exact I. Qed.

Lemma blank_no_word s b : is_blank s = true -> b ∈ s -> is_word b = false.
Proof.
  unfold is_blank. generalize (length s) as n. intros n. revert s.
  induction n as [|n IH]; intros [|c s]; cbn [blank_loop]; intros H Hb; try by apply elem_of_nil in Hb.
  - done.
  - destruct (skip_whitespace (c :: s)) as [s'|] eqn:E; [|done].
    apply skip_whitespace_Some in E as (w & Hw & E). rewrite E in Hb.
    apply elem_of_app in Hb as [Hb|Hb]; [by eapply whitespace_no_word|by eapply IH].
Qed.

(** A run of blanks ends where the blanks end. *)
Lemma skip_word b s : is_word b = true -> skip_whitespace (b :: s) = None.
Proof.
  intros Hb. destruct (skip_whitespace (b :: s)) as [s'|] eqn:E; [|done].
  apply skip_whitespace_Some in E as (w & Hw & E). pose proof (whitespace_nonempty w Hw).
  destruct w as [|c w]; cbn in *; [lia|]. injection E as -> _.
  rewrite (whitespace_no_word _ c Hw) in Hb by left. done.
Qed.

Lemma trim_start_word n b s : is_word b = true -> trim_start n (b :: s) = b :: s.
Proof. intros Hb. destruct n; [done|]. cbn [trim_start]. by rewrite skip_word. Qed.

Lemma trim_end_spec s n :
  is_blank (drop n s) = true -> (forall k, (k < n)%nat -> is_blank (drop k s) = false) ->
  trim_end s = take n s.
Proof.
  intros Hn Hk. unfold trim_end.
  destruct (decide (n <= length s)%nat) as [Hle|Hgt].
  - rewrite (proj2 (list_find_Some _ _ n n)); [done|]. split_and!.
    + apply lookup_seq. lia.
    + done.
    + intros j y [-> Hj]%lookup_seq Hlt. by rewrite Hk by lia.
  - exfalso. specialize (Hk (length s)). rewrite drop_all in Hk. discriminate Hk. lia.
Qed.

Lemma trim_end_min s : exists n, (n <= length s)%nat /\ trim_end s = take n s /\
  is_blank (drop n s) = true /\ forall k, (k < n)%nat -> is_blank (drop k s) = false.
Proof.
  unfold trim_end. destruct (list_find _ _) as [[i n]|] eqn:E.
  - apply list_find_Some in E as ([-> Hlt]%lookup_seq & Hb & Hmin). exists i.
    split_and!; [lia|done|done|]. intros k Hk. apply not_true_is_false.
    apply (Hmin k k); [apply lookup_seq; lia|lia].
  - apply list_find_None in E. exfalso. rewrite Forall_forall in E. apply (E (length s)).
    + apply elem_of_seq. lia.
    + by rewrite drop_all.
Qed.

(** Blanks after a word and a space: the note of a line. *)
Lemma trim_end_note p b note :
  is_word b = true ->
  trim_end (p ++ b :: " "%byte :: note) =
  (p ++ [b]) ++ match trim_end note with [] => [] | t => " "%byte :: t end.
Proof.
  intros Hb. destruct (trim_end_min note) as (n & Hn & Ht & Hbl & Hmin). rewrite Ht.
  assert (forall k, (k <= length p)%nat -> is_blank (drop k (p ++ b :: " "%byte :: note)) = false) as Hfront.
  { intros k Hk. apply not_true_is_false. intros H. apply (blank_no_word _ b) in H; [congruence|].
    rewrite drop_app_le by done. apply elem_of_app. right. left. }
  assert (forall k, is_blank (drop (length p + 2 + k) (p ++ b :: " "%byte :: note)) = is_blank (drop k note)) as Hback.
  { intros k. rewrite drop_app_ge by lia. by replace (length p + 2 + k - length p)%nat with (S (S k)) by lia. }
  assert (is_blank (" "%byte :: note) = is_blank note) as Hsp.
  { unfold is_blank. cbn [length blank_loop]. by replace (skip_whitespace (" "%byte :: note)) with (Some note). }
  assert (drop (S (length p)) (p ++ b :: " "%byte :: note) = " "%byte :: note) as Hd1
    by (rewrite drop_app_ge by lia; by replace (S (length p) - length p)%nat with 1%nat by lia).
  destruct n as [|n].
  - cbn [take]. rewrite app_nil_r. rewrite (trim_end_spec _ (S (length p))).
    + rewrite take_app_ge by lia. by replace (S (length p) - length p)%nat with 1%nat by lia.
    + by rewrite Hd1, Hsp.
    + intros k Hk. apply Hfront. lia.
  - assert (note <> []) as Hne by (intros ->; cbn in Hn; lia).
    destruct (take (S n) note) as [|t0 t] eqn:Et; [by destruct note|]. rewrite <- Et.
    rewrite (trim_end_spec _ (length p + 2 + S n)).
    + rewrite take_app_ge by lia. replace (length p + 2 + S n - length p)%nat with (S (S (S n))) by lia.
      cbn [take]. by rewrite <- app_assoc.
    + by rewrite Hback.
    + intros k Hk. destruct (decide (k <= length p)%nat); [by apply Hfront|].
      destruct (decide (k = S (length p))) as [->|]; [rewrite Hd1, Hsp; apply (Hmin 0%nat); lia|].
      replace k with (length p + 2 + (k - length p - 2))%nat by lia. rewrite Hback. apply Hmin. lia.
Qed.

(** ** Blank texts are sequences of blanks *)

Lemma whitespace_prefix_free w w' :
  w ∈ whitespace -> w' ∈ whitespace -> w `prefix_of` w' -> w = w'.
Proof.
  intros Hw Hw' Hp.
  assert (Forall (fun w => Forall (fun w' => w `prefix_of` w' -> w = w') whitespace) whitespace) as H
    by (apply (bool_decide_unpack _); vm_compute; exact I).
  rewrite Forall_forall in H. specialize (H w Hw). rewrite Forall_forall in H. by apply H.
Qed.

Lemma skip_whitespace_app w s : w ∈ whitespace -> skip_whitespace (w ++ s) = Some s.
Proof.
  intros Hw. unfold skip_whitespace. destruct (list_find _ _) as [[i w']|] eqn:E.
  - apply list_find_Some in E as (Hi & Hp & _). apply list_elem_of_lookup_2 in Hi.
    assert (w = w') as <-; [|cbn; by rewrite drop_app_length].
    destruct (prefix_weak_total w w' (w ++ s)) as [H|H]; [by apply prefix_app_r|done|..].
    + by apply whitespace_prefix_free.
    + symmetry. by apply whitespace_prefix_free.
  - apply list_find_None in E. rewrite Forall_forall in E. destruct (E w Hw). by apply prefix_app_r.
Qed.

Lemma blank_loop_iff n s :
  (length s <= n)%nat ->
  blank_loop n s = true <-> exists ws, Forall (fun w => w ∈ whitespace) ws /\ s = concat ws.
Proof.
  revert s. induction n as [|n IH]; intros s Hn.
  - destruct s; [|cbn in Hn; lia]. split; [|done]. intros _. by exists [].
  - destruct s as [|b s]; [split; [|done]; intros _; by exists []|]. cbn [blank_loop]. split.
    + destruct (skip_whitespace (b :: s)) as [s'|] eqn:E; [|done].
      apply skip_whitespace_Some in E as (w & Hw & E). intros H. apply IH in H as (ws & Hws & ->).
      * exists (w :: ws). by split; [constructor|].
      * pose proof (whitespace_nonempty w Hw). apply (f_equal length) in E. rewrite length_app in E. cbn in *. lia.
    + intros (ws & Hws & E). destruct Hws as [|w ws Hw Hws]; [done|]. cbn in E. rewrite E, skip_whitespace_app by done.
      apply IH; [|by exists ws]. pose proof (whitespace_nonempty w Hw).
      apply (f_equal length) in E. rewrite length_app in E. cbn in *. lia.
Qed.

Lemma whitespace_cr w x : w ∈ whitespace -> w = x ++ ["013"%byte] -> x = [].
Proof.
  intros Hw ->. assert (forall w, w ∈ whitespace -> last w = Some "013"%byte -> length w = 1%nat) as H.
  { assert (Forall (fun w => last w = Some "013"%byte -> length w = 1%nat) whitespace) as H
      by (apply (bool_decide_unpack _); vm_compute; exact I). by rewrite Forall_forall in H. }
  specialize (H _ Hw). rewrite last_snoc, length_app in H. specialize (H eq_refl).
  destruct x; [done|cbn in H; lia].
Qed.

Lemma blank_cr s : is_blank (s ++ ["013"%byte]) = is_blank s.
Proof.
  apply eq_true_iff_eq. unfold is_blank. rewrite !blank_loop_iff by done. split.
  - intros (ws & Hws & E). destruct ws as [|w ws _] using rev_ind.
    { by apply (f_equal length) in E; rewrite length_app in E; cbn in E; lia. }
    apply Forall_app in Hws as [Hws Hw]. apply Forall_cons in Hw as [Hw _].
    exists ws. split; [done|]. rewrite concat_app in E. cbn in E. rewrite app_nil_r in E.
    destruct w as [|b x _] using rev_ind; [by apply whitespace_nonempty in Hw; cbn in Hw; lia|].
    rewrite app_assoc in E. apply app_inj_tail in E as [-> <-].
    by rewrite (whitespace_cr _ x Hw eq_refl), app_nil_r.
  - intros (ws & Hws & ->). exists (ws ++ [["013"%byte]]). split.
    + apply Forall_app. split; [done|]. constructor; [|done]. apply (bool_decide_unpack _). vm_compute. exact I.
    + rewrite concat_app. done.
Qed.

Lemma trim_end_cr s : trim_end (s ++ ["013"%byte]) = trim_end s.
Proof.
  destruct (trim_end_min s) as (n & Hn & -> & Hb & Hmin). rewrite (trim_end_spec _ n).
  - by rewrite take_app_le.
  - by rewrite drop_app_le, blank_cr.
  - intros k Hk. rewrite drop_app_le, blank_cr by lia. by apply Hmin.
Qed.

Lemma strip_cr_spec s : strip_cr s = s \/ s = strip_cr s ++ ["013"%byte].
Proof.
  unfold strip_cr. destruct (rev s) as [|b r] eqn:E; [by left|]. case_bool_decide; [|by left].
  right. subst b. apply (f_equal (@rev byte)) in E. by rewrite rev_involutive in E.
Qed.

Lemma trim_end_strip_cr s : trim_end (strip_cr s) = trim_end s.
Proof. destruct (strip_cr_spec s) as [->|E]; [done|]. rewrite E at 2. by rewrite trim_end_cr. Qed.

(** ** Lines *)

Lemma lines_loop_line cur l s :
  "010"%byte ∉ l -> lines_loop cur (l ++ "010"%byte :: s) = strip_cr (cur ++ l) :: lines_loop [] s.
Proof.
  revert cur. induction l as [|b l IH]; intros cur Hl; cbn [app lines_loop].
  - by rewrite app_nil_r.
  - apply not_elem_of_cons in Hl as [Hb Hl]. rewrite bool_decide_false by done.
    by rewrite IH, <- app_assoc.
Qed.

Lemma lines_concat ls :
  Forall (fun l => "010"%byte ∉ l) ls ->
  lines (concat ((fun l => l ++ ["010"%byte]) <$> ls)) = strip_cr <$> ls.
Proof.
  unfold lines. induction 1 as [|l ls Hl _ IH]; [done|]. cbn [fmap list_fmap concat].
  rewrite <- app_assoc. cbn [app]. rewrite lines_loop_line by done. by rewrite IH.
Qed.

(** [s.replace('\n', " ")] *)
Definition flatten (s : str) : str := (fun b => if bool_decide (b = "010"%byte) then " "%byte else b) <$> s.

Lemma flatten_no_newline s : "010"%byte ∉ flatten s.
Proof. unfold flatten. intros (b & Hb & _)%list_elem_of_fmap. case_bool_decide; congruence. Qed.

(** A line of words that is trimmed and read. *)
Lemma trim_line w b rest note :
  is_word b = true -> word w -> w <> [] ->
  trim (strip_cr (w ++ " "%byte :: rest ++ b :: " "%byte :: note)) =
  w ++ " "%byte :: rest ++ b :: match trim_end note with [] => [] | t => " "%byte :: t end.
Proof.
  intros Hb Hw Hne. destruct w as [|c w]; [done|]. apply andb_true_iff in Hw as [Hc _].
  set (s := (c :: w) ++ _). unfold trim.
  assert (trim_start (length (strip_cr s)) (strip_cr s) = strip_cr s) as ->.
  { destruct (strip_cr_spec s) as [->|E]; [by apply trim_start_word|].
    destruct (strip_cr s) as [|c' t]; [done|]. injection E as <- _. by apply trim_start_word. }
  rewrite trim_end_strip_cr. unfold s.
  replace ((c :: w) ++ " "%byte :: rest ++ b :: " "%byte :: note)
    with (((c :: w) ++ " "%byte :: rest) ++ b :: " "%byte :: note) by (by rewrite <- app_assoc).
  rewrite trim_end_note by done. rewrite <- !app_assoc. done.
Qed.

(** ** Files of staged lines *)

(** [line.is_empty() || line.starts_with('#')] *)
Definition is_comment (line : str) : bool :=
  match line with [] => true | b :: _ => bool_decide (b = "#"%byte) end.

(** What [std::fs::read_to_string] makes of an approvals file. *)
Inductive FileRead := FileText (text : str) | FileNotFound | FileUnreadable (e : str).

Lemma hex_word bs : word (encode bs).
Proof.
  unfold word. apply forallb_forall. intros b Hb%list_elem_of_In.
  pose proof (encode_lower bs) as H. rewrite Forall_forall in H. specialize (H b Hb).
  unfold is_lower_hex, is_word in *. apply orb_true_iff in H as [H|H]; apply andb_true_iff in H as [H1%Z.leb_le H2%Z.leb_le];
    apply andb_true_iff; split; apply Z.leb_le; lia.
Qed.

Lemma splitn_word n w s :
  word w -> splitn (S (S n)) (w ++ " "%byte :: s) = w :: splitn (S n) s.
Proof. intros Hw%word_no_space. cbn [splitn]. by rewrite split_space_word by apply Hw. Qed.

(** A space before a text that is not empty. *)
Definition spaced (t : str) : str := match t with [] => [] | b :: l => " "%byte :: b :: l end.
