(* ===== verification/Address.v ===== *)
(** * Goldcoin addresses: [relayer/src/withdrawal/address.rs]

    The hand-rolled base58 codec, the double-SHA-256 checksum, and P2PKH
    addresses.  The decoder's [num] vector is kept least significant byte
    first: the source walks it backwards ([iter_mut().rev()]) and inserts
    carries at the front, which is [Radix.mul_add] here; the encoder's
    [digits] vector is already in that order.  The theorems say the two
    directions are inverse on every input they accept, so an address text
    and the hash it pays are in one-to-one correspondence. *)
From Stdlib Require Import ZArith Lia Strings.Byte.
From stdpp Require Import base numbers strings gmap list.
From S2P Require Import Prelude Radix Hex.

Definition B58 : str := lit "123456789ABCDEFGHJKLMNPQRSTUVWXYZabcdefghijkmnopqrstuvwxyz".
Definition P2PKH_VERSION_REGTEST : Z := 0x6f.

Inductive AddressError :=
| InvalidCharacter
| WrongAddressLength (n : nat)
| BadChecksum
| UnsupportedVersion (v : Z)
| Empty.

(** [B58.iter().position(|&c| c == ch)] *)
Definition b58_position (ch : byte) : option Z :=
  (fun p => Z.of_nat p.1) <$> list_find (fun c => c = ch) B58.

(** [B58[d as usize]]; the encoder's digits are below 58. *)
Definition b58_char (d : Z) : byte := default x00 (B58 !! Z.to_nat d).

(** [take_while(|&c| c == b).count()] *)
Fixpoint leading {A} `{EqDecision A} (b : A) (s : list A) : nat :=
  match s with
  | c :: s => if decide (c = b) then S (leading b s) else 0
  | [] => 0
  end.

Definition decode_digit (num : list Z) (ch : byte) : result AddressError (list Z) :=
  let* digit := ok_or (b58_position ch) InvalidCharacter in
  Ok (mul_add 256 58 digit num).

Definition base58_decode (s : str) : result AddressError (list byte) :=
  match s with
  | [] => Err Empty
  | _ =>
      let* num := foldM decode_digit [] s in
      Ok (replicate (leading "1"%byte s) x00 ++ (byte_of_Z <$> rev num))
  end.

Definition base58_encode (data : list byte) : str :=
  let digits := foldl (fun digits byte => mul_add 58 256 (byte_to_Z byte) digits) [] data in
  replicate (leading x00 data) "1"%byte ++ (b58_char <$> rev digits).

Section addresses.
Context `{Sh : Sha2}.

Definition checksum (payload : list byte) : list byte := take 4 (sha256 (sha256 payload)).

Definition base58check_decode (addr : str) : result AddressError (Z * list byte) :=
  let* raw := base58_decode addr in
  require (length raw =? 25)%nat (WrongAddressLength (length raw)) ;;*
  let payload := take 21 raw in
  let given := drop 21 raw in
  require (bool_decide (checksum payload = given)) BadChecksum ;;*
  Ok (byte_to_Z (default x00 (payload !! 0%nat)), take 20 (drop 1 payload)).

Definition base58check_encode (version : Z) (hash160 : list byte) : str :=
  let payload := byte_of_Z version :: hash160 in
  base58_encode (payload ++ checksum payload).

Definition decode_p2pkh_hash160 (addr : str) : result AddressError (list byte) :=
  let* (version, h) := base58check_decode addr in
  require (version =? P2PKH_VERSION_REGTEST) (UnsupportedVersion version) ;;*
  Ok h.

Definition encode_p2pkh (hash160 : list byte) : str :=
  base58check_encode P2PKH_VERSION_REGTEST hash160.
End addresses.

Definition p2pkh_script_hex (hash160 : list byte) : str :=
  lit "76a914" ++ encode hash160 ++ lit "88ac".

(** ** The alphabet *)

Lemma b58_position_char d : 0 <= d < 58 -> b58_position (b58_char d) = Some d.
Proof.
  intros Hd. assert (d ∈ (Z.of_nat <$> seq 0 58)) as Hin.
  { apply list_elem_of_fmap. exists (Z.to_nat d). split; [lia|]. apply elem_of_seq. lia. }
  revert d Hd Hin. assert (Forall (fun d => b58_position (b58_char d) = Some d)
    (Z.of_nat <$> seq 0 58)) as H; [|by intros; rewrite Forall_forall in H; apply H].
  apply (bool_decide_unpack _). vm_compute. exact I.
Qed.

Lemma b58_position_Some ch d : b58_position ch = Some d -> 0 <= d < 58 /\ b58_char d = ch.
Proof.
  unfold b58_position, b58_char. intros ([i c] & Hf & Hd)%fmap_Some. cbn in Hd. subst d.
  apply list_find_Some in Hf as (Hi & -> & _). rewrite Nat2Z.id, Hi. split; [|done].
  apply lookup_lt_Some in Hi. change (length B58) with 58%nat in Hi. lia.
Qed.

Lemma b58_char_one d : 0 <= d < 58 -> b58_char d = "1"%byte -> d = 0.
Proof. intros Hd H%(f_equal b58_position). rewrite b58_position_char in H by done. by injection H. Qed.

(** The characters of a digit string. *)
Definition b58_text (ds : list Z) : str := b58_char <$> ds.

Lemma decode_text_digits ds num :
  digits 58 ds -> foldM decode_digit num (b58_text ds) =
  Ok (foldl (fun acc d => mul_add 256 58 d acc) num ds).
Proof.
  intros H. revert num. induction H as [|d ds Hd _ IH]; intros num; [done|].
  cbn [b58_text fmap list_fmap foldM foldl].
  assert (decode_digit num (b58_char d) = Ok (mul_add 256 58 d num)) as ->
    by (unfold decode_digit; by rewrite b58_position_char).
  apply IH.
Qed.

Lemma decode_text_inv s num num' :
  foldM decode_digit num s = Ok num' -> exists ds, digits 58 ds /\ s = b58_text ds.
Proof.
  revert num. induction s as [|ch s IH]; intros num; [by exists []; split; [constructor|]|].
  cbn [foldM]. intros (n1 & Hn & Hs)%bind_Ok. unfold decode_digit in Hn.
  apply bind_Ok in Hn as (d & Hd & _). apply ok_or_Ok in Hd.
  apply b58_position_Some in Hd as [Hd <-]. apply IH in Hs as (ds & Hds & ->).
  exists (d :: ds). split; [by constructor|done].
Qed.

(** ** Leading zeros *)

Lemma leading_split {A} `{EqDecision A} (b : A) s : exists s', s = replicate (leading b s) b ++ s' /\ head s' <> Some b.
Proof.
  induction s as [|c s (s' & Hs & Hh)]; [by exists []|]. cbn [leading].
  destruct (decide (c = b)) as [->|Hc].
  - exists s'. cbn. split; [by rewrite <- Hs|done].
  - exists (c :: s). split; [done|]. cbn. congruence.
Qed.

Lemma leading_replicate {A} `{EqDecision A} (b : A) k s : head s <> Some b -> leading b (replicate k b ++ s) = k.
Proof.
  intros Hs. induction k as [|k IH]; cbn [replicate app leading].
  - destruct s as [|c s]; [done|]. cbn in *. by rewrite decide_False by congruence.
  - by rewrite decide_True, IH.
Qed.

Lemma byte_digits (bs : list byte) : digits 256 (byte_to_Z <$> bs).
Proof. apply Forall_fmap, Forall_true. intros b. apply byte_to_Z_bound. Qed.

Lemma bytes_of_digits (bs : list byte) : byte_of_Z <$> (byte_to_Z <$> bs) = bs.
Proof.
  rewrite <- list_fmap_compose. rewrite <- (list_fmap_id bs) at 2. apply list_fmap_ext.
  intros i b _. apply byte_of_to_Z.
Qed.

Lemma digits_of_bytes ds : digits 256 ds -> byte_to_Z <$> (byte_of_Z <$> ds) = ds.
Proof.
  induction 1 as [|d ds Hd _ IH]; [done|]. cbn. f_equal; [|done].
  rewrite byte_to_of_Z. by apply Z.mod_small.
Qed.

(** A digit list whose most significant digit is nonzero is canonical. *)
Lemma canonical_of_head base ds : digits base ds -> head ds <> Some 0 -> canonical base (rev ds).
Proof.
  intros Hd Hh. split; [by apply (proj1 (digits_rev _ _))|]. destruct ds as [|d ds]; [done|].
  cbn [rev]. by rewrite last_snoc.
Qed.

Lemma head_of_canonical base ds : canonical base ds -> head (rev ds) <> Some 0.
Proof.
  intros Hc. destruct (rev ds) as [|d ds'] eqn:E; [done|]. cbn. intros [= ->].
  apply (f_equal (@rev Z)) in E. rewrite rev_involutive in E. rewrite E in Hc.
  by apply canonical_rev_head in Hc.
Qed.

Lemma head_fmap {A B} (f : A -> B) (P : B) l :
  (forall a, a ∈ l -> f a = P -> head l = Some a -> False) -> head (f <$> l) <> Some P.
Proof. destruct l as [|a l]; [done|]. cbn. intros H [= Ha]. by apply (H a (list_elem_of_here a l)). Qed.

Lemma head_text ds : digits 58 ds -> head ds <> Some 0 -> head (b58_text ds) <> Some "1"%byte.
Proof.
  intros Hd Hh. apply head_fmap. intros d Hin Hc Hhd. unfold digits in Hd.
  rewrite Forall_forall in Hd. apply b58_char_one in Hc; [congruence|by apply Hd].
Qed.

Lemma head_bytes ds : digits 256 ds -> head ds <> Some 0 -> head (byte_of_Z <$> ds) <> Some x00.
Proof.
  intros Hd Hh. apply head_fmap. intros d Hin Hc Hhd. unfold digits in Hd.
  rewrite Forall_forall in Hd. apply (f_equal byte_to_Z) in Hc. rewrite byte_to_of_Z in Hc.
  rewrite Z.mod_small in Hc by (by apply Hd). change (byte_to_Z x00) with 0 in Hc. congruence.
Qed.

Lemma fmap_byte_zeros k bs :
  byte_to_Z <$> replicate k x00 ++ bs = replicate k 0 ++ (byte_to_Z <$> bs).
Proof. by rewrite fmap_app, fmap_replicate. Qed.

Lemma text_zeros k ds : b58_text (replicate k 0 ++ ds) = replicate k "1"%byte ++ b58_text ds.
Proof. unfold b58_text. by rewrite fmap_app, fmap_replicate. Qed.

Lemma foldl_fmap {A B C} (f : A -> B) (g : C -> B -> C) acc l :
  foldl g acc (f <$> l) = foldl (fun acc a => g acc (f a)) acc l.
Proof. revert acc. induction l as [|a l IH]; intros acc; [done|]. apply IH. Qed.

Lemma base58_encode_text data :
  base58_encode data =
  b58_text (replicate (leading x00 data) 0 ++ rev (convert 58 256 (byte_to_Z <$> data))).
Proof. unfold base58_encode, convert. by rewrite text_zeros, foldl_fmap. Qed.

Lemma base58_decode_text ds :
  digits 58 ds -> ds <> [] ->
  base58_decode (b58_text ds) =
  Ok (replicate (leading "1"%byte (b58_text ds)) x00 ++ (byte_of_Z <$> rev (convert 256 58 ds))).
Proof.
  intros Hd Hn. unfold base58_decode. rewrite decode_text_digits by done.
  destruct ds; [done|]. done.
Qed.

(** ** The codec is a bijection *)

Lemma base58_decode_encode data : data <> [] -> base58_decode (base58_encode data) = Ok data.
Proof.
  intros Hn. destruct (leading_split x00 data) as (rest & Hs & Hh).
  set (k := leading x00 data) in *. rewrite base58_encode_text. fold k.
  assert (canonical 256 (rev (byte_to_Z <$> rest))) as Hrest.
  { apply canonical_of_head; [apply byte_digits|]. apply head_fmap. intros b _ Hb Hhd.
    apply Hh. rewrite Hhd. f_equal. by apply byte_to_Z_inj. }
  destruct (convert_spec 58 ltac:(lia) 256 (byte_to_Z <$> data) ltac:(lia) ltac:(lia)
              (byte_digits _)) as [Hcan Hval].
  assert (digits 58 (rev (convert 58 256 (byte_to_Z <$> data)))) as Hd
    by (apply (proj1 (digits_rev 58 _)), Hcan).
  assert (replicate k 0 ++ rev (convert 58 256 (byte_to_Z <$> data)) <> []) as Hne.
  { intros [Hk Hz]%app_eq_nil. apply (f_equal (@rev Z)) in Hz. rewrite rev_involutive in Hz.
    cbn in Hz. rewrite Hz in Hval. destruct k; [|discriminate Hk]. cbn in Hs, Hval.
    rewrite Hs in Hval, Hn. symmetry in Hval. apply (canonical_zero 256) in Hval; [|lia|done].
    apply (f_equal (@rev Z)) in Hval. rewrite rev_involutive in Hval. by destruct rest. }
  rewrite base58_decode_text by (done || by apply digits_zeros).
  rewrite text_zeros, leading_replicate by (by apply head_text, (head_of_canonical 58)).
  rewrite Hs at 1. rewrite fmap_byte_zeros, convert_convert, rev_involutive, bytes_of_digits
    by (lia || done).
  by rewrite <- Hs.
Qed.

Lemma base58_encode_decode s data : base58_decode s = Ok data -> base58_encode data = s.
Proof.
  intros H. assert (s <> []) as Hn by (by intros ->).
  assert (exists ds, digits 58 ds /\ s = b58_text ds) as (ds & Hd & ->).
  { unfold base58_decode in H. destruct s as [|c s]; [done|].
    apply bind_Ok in H as (num & H & _). by apply decode_text_inv in H. }
  assert (ds <> []) as Hn' by (by intros ->).
  rewrite base58_decode_text in H by done. injection H as <-.
  destruct (leading_split 0 ds) as (ds' & Hs & Hh). set (k := leading 0 ds) in *.
  assert (digits 58 ds') as Hd' by (rewrite Hs in Hd; by apply Forall_app in Hd as [_ ?]).
  assert (canonical 58 (rev ds')) as Hc by (by apply canonical_of_head).
  destruct (convert_spec 256 ltac:(lia) 58 ds ltac:(lia) ltac:(lia) Hd) as [Hcan _].
  assert (leading "1"%byte (b58_text ds) = k) as ->.
  { rewrite Hs at 1. rewrite text_zeros. by apply leading_replicate, head_text. }
  rewrite base58_encode_text.
  assert (digits 256 (rev (convert 256 58 ds))) as Hd2 by (apply (proj1 (digits_rev 256 _)), Hcan).
  rewrite leading_replicate by (by apply head_bytes, (head_of_canonical 256)).
  rewrite fmap_byte_zeros, digits_of_bytes by done. rewrite Hs at 1.
  rewrite convert_convert, rev_involutive by (lia || done). by rewrite <- Hs.
Qed.

(** ** Addresses *)

Section address_laws.
Context `{Sh : Sha2}.

Lemma length_checksum payload : length (checksum payload) = 4%nat.
Proof. unfold checksum. rewrite length_take, length_sha256. lia. Qed.

Lemma base58check_iff addr v h :
  base58check_decode addr = Ok (v, h) <->
  0 <= v < 256 /\ length h = 20%nat /\ addr = base58check_encode v h.
Proof.
  split.
  - unfold base58check_decode. intros (raw & Hraw & H)%bind_Ok.
    apply bind_Ok in H as ([] & Hlen%require_Ok & H).
    apply bind_Ok in H as ([] & Hsum%require_Ok & H). apply Nat.eqb_eq in Hlen.
    apply bool_decide_eq_true in Hsum. injection H as <- <-.
    apply base58_encode_decode in Hraw. rewrite <- Hraw.
    destruct raw as [|b raw]; [done|]. cbn [take drop lookup list_lookup default] in *.
    split; [apply byte_to_Z_bound|]. cbn in Hlen.
    rewrite drop_0, (take_ge (take 20 raw)) by (rewrite length_take; lia).
    split; [rewrite length_take; lia|].
    unfold base58check_encode, id. rewrite byte_of_to_Z, Hsum. cbn [app].
    by rewrite take_drop.
  - intros (Hv & Hh & ->). unfold base58check_decode, base58check_encode.
    rewrite base58_decode_encode by done. cbn [mbind result_bind].
    assert (length ((byte_of_Z v :: h) ++ checksum (byte_of_Z v :: h)) = 25%nat) as ->
      by (rewrite length_app, length_checksum; cbn; lia).
    rewrite take_app_length', drop_app_length' by (cbn; lia).
    rewrite bool_decide_true by done. cbn.
    rewrite byte_to_of_Z, Z.mod_small by done. rewrite drop_0, take_ge by lia. done.
Qed.

(** A text decodes to a hash exactly when the hash has 20 bytes and the text is its
    encoding: the hand-rolled base58check codec is a bijection between accepted P2PKH
    addresses and hashes, so no two address texts pay the same destination and none is
    lost. *)
Theorem p2pkh_address_iff addr h :
  decode_p2pkh_hash160 addr = Ok h <-> length h = 20%nat /\ addr = encode_p2pkh h.
Proof.
  unfold decode_p2pkh_hash160, encode_p2pkh, P2PKH_VERSION_REGTEST. split.
  - intros ([v h'] & Hd & H)%bind_Ok. apply bind_Ok in H as ([] & Hv%require_Ok & H).
    injection H as <-. apply Z.eqb_eq in Hv as ->. apply base58check_iff in Hd. naive_solver.
  - intros [Hh ->].
    rewrite (proj2 (base58check_iff _ 0x6f h)) by (split; [lia|done]). done.
Qed.
End address_laws.

(** A corrupted or foreign text is refused with a reason. *)
Example base58_examples :
  base58_decode [] = Err Empty /\
  base58_decode (lit "10") = Err InvalidCharacter /\
  base58_decode (lit "11z") = Ok [x00; x00; x39] /\
  base58_encode [x00; x00; x39] = lit "11z".
Proof. by vm_compute. Qed.
