(* ===== verification/Rpc.v ===== *)
(** * Goldcoin RPC surface: [relayer/src/glc/rpc.rs]

    The response types, the two failure classes, the retry policy and the
    normalisation of broadcast outcomes.  The node itself is outside the
    repository: callers take its answers from an effect on an abstract node
    state. *)
From Stdlib Require Import ZArith Lia Strings.Byte Floats.SpecFloat.
From stdpp Require Import base numbers strings gmap list.
From S2P Require Import Prelude Hex.

Inductive RpcError :=
| Transport (msg : str)
| Method (code : Z) (message : str)
| Malformed (msg : str).

Definition is_retriable (e : RpcError) : bool :=
  match e with Transport _ => true | _ => false end.

Record BlockHeader := {
  bh_hash : str;
  bh_confirmations : Z;
  bh_height : Z;
  bh_time : Z;
  previousblockhash : option str;
  bh_tx : list str
}.

Record DecodedScriptPubKey := { script_hex : str; script_kind : str }.

(** An [f64] is its IEEE-754 value. *)
Record DecodedVout := {
  vout_value : spec_float;
  vout_n : Z;
  script_pub_key : DecodedScriptPubKey
}.

Record DecodedTransaction := {
  dt_txid : str;
  dt_vout : list DecodedVout;
  dt_confirmations : option Z
}.

Record TxOut := { txout_confirmations : Z }.

(** ** [call_with_retry]

    [remaining] counts the attempts left after the next one
    ([max_attempts - 1 - attempt]); the back-off sleep has no effect on the
    result. *)
Section retry.
Context {S T : Type} (f : S -> S * result RpcError T).

Fixpoint retry_loop (remaining : nat) (s : S) : S * result RpcError T :=
  match f s with
  | (s', Ok v) => (s', Ok v)
  | (s', Err e) =>
      match remaining with
      | Datatypes.S remaining =>
          if is_retriable e then retry_loop remaining s' else (s', Err e)
      | O => (s', Err e)
      end
  end.

Definition call_with_retry (max_attempts : nat) (s : S) : S * result RpcError T :=
  retry_loop (max_attempts - 1) s.

(** One attempt, and [n] attempts that all failed in transport. *)
Definition transient (s s' : S) : Prop := exists m, f s = (s', Err (Transport m)).
Inductive transients : nat -> S -> S -> Prop :=
| transients_O s : transients 0 s s
| transients_S n s s1 s2 : transient s s1 -> transients n s1 s2 -> transients (Datatypes.S n) s s2.

(** The outcome is that of one attempt, reached after fewer than
    [max_attempts] transport failures; a transport failure is returned only
    when the attempts are used up. *)
Lemma retry_loop_spec n s s' r :
  retry_loop n s = (s', r) ->
  exists k s1, (k <= n)%nat /\ transients k s s1 /\ f s1 = (s', r) /\
    (forall m, r = Err (Transport m) -> k = n).
Proof.
  revert s. induction n as [|n IH]; intros s; cbn [retry_loop];
    destruct (f s) as [s1 [v|e]] eqn:Hf.
  - intros [= <- <-]. exists 0%nat, s. split_and!; [lia|constructor|done|done].
  - intros [= <- <-]. exists 0%nat, s. split_and!; [lia|constructor|done|done].
  - intros [= <- <-]. exists 0%nat, s. split_and!; [lia|constructor|done|done].
  - destruct e as [m|c m|m]; cbn [is_retriable].
    + intros (k & s2 & Hk & Htr & Hf2 & Hlast)%IH. exists (Datatypes.S k), s2.
      split_and!; [lia|econstructor; [by exists m|done]|done|].
      intros m' ->. f_equal. by eapply Hlast.
    + intros [= <- <-]. exists 0%nat, s. split_and!; [lia|constructor|done|done].
    + intros [= <- <-]. exists 0%nat, s. split_and!; [lia|constructor|done|done].
Qed.
End retry.

(** Call_with_retry always returns, after at most max_attempts calls: the answer is
    the first that is not a transport error, or the last transport error once the
    attempts are used up. *)
Theorem call_with_retry_spec {S T} (f : S -> S * result RpcError T) max_attempts s s' r :
  call_with_retry f max_attempts s = (s', r) ->
  exists k s1, (k <= max_attempts - 1)%nat /\ transients f k s s1 /\ f s1 = (s', r) /\
    (forall m, r = Err (Transport m) -> k = (max_attempts - 1)%nat).
Proof. apply retry_loop_spec. Qed.

(** A node that fails twice in transport, then answers. *)
Definition flaky (n : nat) : nat * result RpcError Z :=
  (Datatypes.S n, if (n <? 2)%nat then Err (Transport (lit "refused")) else Ok 42).

Lemma call_with_retry_spec_witness :
  exists k s1, (k <= 2)%nat /\ transients flaky k 0%nat s1 /\ flaky s1 = (3%nat, Ok 42) /\
    (forall m, Ok 42 = Err (Transport m) -> k = 2%nat).
Proof. apply (call_with_retry_spec flaky 3 0%nat 3%nat (Ok 42)). reflexivity. Defined.

(** ** Broadcast outcomes *)

Inductive BroadcastOutcome := Accepted (txid : str) | AlreadyInChain | MissingInputs.

(** The part of [send_raw_transaction] after the call: [answer] is the
    response, [Some] when it is a JSON string. *)
Definition send_raw_transaction (answer : result RpcError (option str))
  : result RpcError BroadcastOutcome :=
  match answer with
  | Ok v => let* txid := ok_or v (Malformed (lit "sendrawtransaction returned non-string")) in
            Ok (Accepted txid)
  | Err (Method code message) =>
      if code =? -27 then Ok AlreadyInChain
      else if code =? -25 then Ok MissingInputs
      else Err (Method code message)
  | Err e => Err e
  end.
