(* ===== verification/Deposit.v ===== *)
(** * Deposit extraction: [relayer/src/glc/deposit.rs]

    Vault-output matching, the OP_RETURN recipient binding, the conversion of
    the node's decimal amounts, and the claim message.  The reference
    [binding_verdict] reads the binding off the list of OP_RETURN scripts. *)
From Stdlib Require Import ZArith Lia Strings.Byte Floats.SpecFloat.
From stdpp Require Import base numbers strings gmap list.
From S2P Require Import Prelude Messages Hex Rpc.

Inductive BindingError :=
| NoOpReturn
| MultipleOpReturn
| WrongPushSize (actual : nat).

(** [hex::decode_vec] panics on a script that is not ASCII. *)
Inductive BindingFault := Binding (e : BindingError) | BindingPanic.

Definition reason_code (e : BindingError) : str :=
  match e with
  | NoOpReturn => lit "no_recipient_binding"
  | MultipleOpReturn => lit "ambiguous_recipient_binding"
  | WrongPushSize _ => lit "malformed_recipient_binding"
  end.

Record VaultDeposit := { vd_vout : Z; vd_amount_atomic : Z; vd_recipient : list byte }.
Record VaultOutputCandidate := { vo_vout : Z; vo_amount_atomic : Z }.

(** [str::eq_ignore_ascii_case] *)
Definition to_ascii_lowercase (b : byte) : byte :=
  let n := byte_to_Z b in if (65 <=? n) && (n <=? 90) then byte_of_Z (n + 32) else b.
Definition eq_ignore_ascii_case (a b : str) : bool :=
  bool_decide (map to_ascii_lowercase a = map to_ascii_lowercase b).

Definition is_vault_output (script_pub_key_hex vault_script_hex : str) : bool :=
  eq_ignore_ascii_case script_pub_key_hex vault_script_hex.

Definition OP_RETURN : byte := x6a.

(** The loop, with its accumulators [found] and [count]. *)
Fixpoint binding_loop (found : option (list byte)) (count : nat) (outs : list DecodedVout)
  : result BindingFault (option (list byte)) :=
  match outs with
  | [] => Ok found
  | v :: outs =>
      match decode_vec (script_hex (script_pub_key v)) with
      | Err Panicked => Err BindingPanic
      | Err (HexErr _) => binding_loop found count outs
      | Ok script =>
          if bool_decide (head script = Some OP_RETURN) then
            let count := S count in
            if (1 <? count)%nat then Err (Binding MultipleOpReturn)
            else
              let payload_len := default x00 (script !! 1%nat) in
              let payload := if (2 <=? length script)%nat then Some (drop 2 script) else None in
              let actual_len := default 0%nat (length <$> payload) in
              if negb (byte_to_Z payload_len =? 32) || negb (actual_len =? 32)%nat
              then Err (Binding (WrongPushSize actual_len))
              else binding_loop payload count outs
          else binding_loop found count outs
      end
  end.

Definition extract_recipient_binding (tx : DecodedTransaction)
  : result BindingFault (list byte) :=
  let* found := binding_loop None 0 (dt_vout tx) in
  ok_or found (Binding NoOpReturn).

(** [(value * 100_000_000.0).round() as u64]: binary64 multiplication, round
    half away from zero, saturating cast ([NaN] and negatives to 0). *)
Definition f64_of_int (n : Z) : spec_float := binary_normalize 53 1024 n 0 false.
Definition round_magnitude (m : positive) (e : Z) : Z :=
  if 0 <=? e then Z.pos m * 2 ^ e else (2 * Z.pos m + 2 ^ (- e)) / 2 ^ (1 - e).
Definition round_as_u64 (x : spec_float) : Z :=
  match x with
  | S754_zero _ | S754_nan | S754_infinity true | S754_finite true _ _ => 0
  | S754_infinity false => U64_MAX
  | S754_finite false m e => Z.min U64_MAX (round_magnitude m e)
  end.
Definition glc_to_atomic (value : spec_float) : Z :=
  round_as_u64 (SFmul 53 1024 value (f64_of_int 100000000)).

Definition vault_output_candidates (tx : DecodedTransaction) (vault_script_hex : str)
  : list VaultOutputCandidate :=
  (fun v => {| vo_vout := vout_n v; vo_amount_atomic := glc_to_atomic (vout_value v) |}) <$>
    filter (fun v => is_vault_output (script_hex (script_pub_key v)) vault_script_hex = true)
      (dt_vout tx).

Definition find_vault_outputs (tx : DecodedTransaction) (vault_script_hex : str)
  : result BindingFault (list VaultDeposit) :=
  let vault_vouts :=
    filter (fun v => is_vault_output (script_hex (script_pub_key v)) vault_script_hex = true)
      (dt_vout tx) in
  if bool_decide (vault_vouts = []) then Ok []
  else
    let* recipient := extract_recipient_binding tx in
    Ok ((fun v => {| vd_vout := vout_n v; vd_amount_atomic := glc_to_atomic (vout_value v);
                     vd_recipient := recipient |}) <$> vault_vouts).

Definition build_claim_message (protocol_version : Z) (program_id : list byte) (epoch : Z)
    (txid : list byte) (vout amount_atomic : Z) (recipient wrapped_mint : list byte)
  : list byte :=
  deposit_claim_message protocol_version program_id epoch txid vout amount_atomic recipient
    wrapped_mint.

(** ** Reference reading of the binding *)

(** The transaction's OP_RETURN scripts, in output order. *)
Definition op_return_scripts (outs : list DecodedVout) : list (list byte) :=
  filter (fun s => head s = Some OP_RETURN)
    (omap (fun v => match decode_vec (script_hex (script_pub_key v)) with
                    | Ok s => Some s | Err _ => None end) outs).

(** [6a 20] and a 32-byte payload. *)
Definition binding_script (recipient : list byte) : list byte :=
  [OP_RETURN; byte_of_Z 32] ++ recipient.

Definition binding_verdict (scripts : list (list byte)) : result BindingFault (list byte) :=
  match scripts with
  | [] => Err (Binding NoOpReturn)
  | s :: rest =>
      if decide (s = binding_script (drop 2 s) /\ length (drop 2 s) = 32%nat) then
        match rest with
        | [] => Ok (drop 2 s)
        | _ :: _ => Err (Binding MultipleOpReturn)
        end
      else Err (Binding (WrongPushSize (length (drop 2 s))))
  end.

Definition no_panic (outs : list DecodedVout) : Prop :=
  Forall (fun v => decode_vec (script_hex (script_pub_key v)) <> Err Panicked) outs.

Lemma binding_loop_after found outs :
  no_panic outs ->
  binding_loop found 1 outs =
  match op_return_scripts outs with [] => Ok found | _ :: _ => Err (Binding MultipleOpReturn) end.
Proof.
  unfold op_return_scripts. induction 1 as [|v outs Hv _ IH]; [done|].
  cbn [binding_loop omap list_omap].
  destruct (decode_vec _) as [s|[e|]]; [|exact IH|done].
  destruct (decide (head s = Some OP_RETURN)).
  - rewrite bool_decide_true by done. by rewrite filter_cons_True.
  - rewrite bool_decide_false by done. by rewrite filter_cons_False.
Qed.

(** The push test of the code is the shape test of the reference. *)
Lemma push_test s :
  head s = Some OP_RETURN ->
  let payload := if (2 <=? length s)%nat then Some (drop 2 s) else None in
  negb (byte_to_Z (default x00 (s !! 1%nat)) =? 32) ||
    negb (default 0%nat (length <$> payload) =? 32)%nat =
  negb (bool_decide (s = binding_script (drop 2 s) /\ length (drop 2 s) = 32%nat)) /\
  default 0%nat (length <$> payload) = length (drop 2 s) /\
  (length (drop 2 s) = 32%nat -> payload = Some (drop 2 s)).
Proof.
  destruct s as [|b0 [|b1 s]]; cbn; [done|..]; intros [= ->].
  - rewrite bool_decide_false; [by split_and!|]. intros [H _]. discriminate H.
  - rewrite drop_0. split_and!; [|done|done].
    destruct (Nat.eqb_spec (length s) 32) as [Hl|Hl].
    + rewrite orb_false_r. f_equal. apply Bool.eq_iff_eq_true.
      rewrite Z.eqb_eq, bool_decide_eq_true. unfold binding_script. cbn. split.
      * intros Hb. split; [|done]. do 2 f_equal. by apply byte_to_Z_inj.
      * intros [Hs _]. injection Hs as ->. done.
    + rewrite orb_true_r, bool_decide_false; [done|]. by intros [_ ?].
Qed.

(** The recipient binding of a deposit transaction is decided by its OP_RETURN
    scripts alone: a recipient is extracted exactly when there is one, of 34 bytes with
    a 32-byte push, and each failure is the one its scripts determine in order. *)
Theorem extract_recipient_binding_verdict tx :
  no_panic (dt_vout tx) ->
  extract_recipient_binding tx = binding_verdict (op_return_scripts (dt_vout tx)).
Proof.
  unfold extract_recipient_binding, op_return_scripts.
  induction 1 as [|v outs Hv Houts IH]; [done|]. cbn [binding_loop omap list_omap].
  destruct (decode_vec _) as [s|[e|]]; [|exact IH|done].
  destruct (decide (head s = Some OP_RETURN)) as [Hh|Hh].
  - rewrite bool_decide_true, filter_cons_True by done. cbn [binding_verdict].
    change (1 <? 1)%nat with false. cbv iota.
    destruct (push_test s Hh) as (Ht & Ha & Hp). cbv zeta in *. rewrite Ht, Ha.
    destruct (decide (s = binding_script (drop 2 s) /\ length (drop 2 s) = 32%nat)) as [Hw|Hw].
    + rewrite bool_decide_true by done. cbn [negb]. rewrite Hp by apply Hw.
      rewrite binding_loop_after by done. unfold op_return_scripts.
      by destruct (filter _ _).
    + by rewrite bool_decide_false.
  - by rewrite bool_decide_false, filter_cons_False.
Qed.

Definition demo_vout (n : Z) (script : list byte) : DecodedVout :=
  {| vout_value := f64_of_int 5; vout_n := n;
     script_pub_key := {| script_hex := encode script; script_kind := lit "nulldata" |} |}.

Lemma extract_recipient_binding_verdict_witness :
  extract_recipient_binding
    {| dt_txid := []; dt_confirmations := None;
       dt_vout := [demo_vout 0 [x76]; demo_vout 1 (binding_script (replicate 32 x07))] |} =
  Ok (replicate 32 x07).
Proof.
  rewrite extract_recipient_binding_verdict; [reflexivity|].
  repeat constructor; vm_compute; congruence.
Defined.

(** A malformed first OP_RETURN hides the ambiguity of a second one. *)
Lemma malformed_before_ambiguous :
  extract_recipient_binding
    {| dt_txid := []; dt_confirmations := None;
       dt_vout := [demo_vout 0 [OP_RETURN; x01; x01];
                   demo_vout 1 (binding_script (replicate 32 x07))] |} =
  Err (Binding (WrongPushSize 1)).
Proof. reflexivity. Qed.

(** ** Amounts *)

(** The decimals the node prints for 0.1, 0.29, 50 and 12345678.12345678 GLC,
    as the nearest binary64 values. *)
Lemma glc_to_atomic_examples :
  glc_to_atomic (SFdiv 53 1024 (f64_of_int 10000000) (f64_of_int 100000000)) = 10000000 /\
  glc_to_atomic (SFdiv 53 1024 (f64_of_int 29000000) (f64_of_int 100000000)) = 29000000 /\
  glc_to_atomic (f64_of_int 50) = 5000000000 /\
  glc_to_atomic (SFdiv 53 1024 (f64_of_int 1234567812345678) (f64_of_int 100000000))
    = 1234567812345678 /\
  glc_to_atomic S754_nan = 0 /\ glc_to_atomic (SFopp (f64_of_int 1)) = 0.
Proof. vm_compute. repeat split. Qed.

Lemma is_vault_output_case a b :
  is_vault_output (encode a) (encode b) = true <-> encode a = encode b.
Proof.
  unfold is_vault_output, eq_ignore_ascii_case. rewrite bool_decide_eq_true.
  assert (forall l, map to_ascii_lowercase (encode l) = encode l) as Hid.
  { intros l. pose proof (encode_lower l) as Hl. induction Hl as [|x xs Hx _ IH]; [done|].
    cbn. rewrite IH. f_equal. revert Hx. destruct x; done. }
  by rewrite !Hid.
Qed.
