(* ===== verification/DepositDb.v ===== *)
(** * The deposit database: [relayer/src/glc/db.rs]

    The tables as finite maps and lists, one definition per operation.  An
    operation is a function from the database to the database and a result:
    an [Err] from inside an open transaction leaves the database as it was,
    and [verify_and_load_signable_message] commits its halt before it returns
    the error.  SHA-256 is the [sha2] crate's, a parameter ([Sha2]). *)
From Stdlib Require Import ZArith Lia Strings.Byte.
From stdpp Require Import base numbers strings gmap list.
From S2P Require Import Prelude Messages Hex Text Deposit.

(** ** States *)

Inductive DepositState :=
| Candidate | Confirming | ReadyForSignature | Orphaned | Submitted | Minted | Failed
| IntegrityHalted.

#[export] Instance DepositState_eq_dec : EqDecision DepositState.
Proof. solve_decision. Defined.

Definition as_str (s : DepositState) : str :=
  match s with
  | Candidate => lit "Candidate"
  | Confirming => lit "Confirming"
  | ReadyForSignature => lit "ReadyForSignature"
  | Orphaned => lit "Orphaned"
  | Submitted => lit "Submitted"
  | Minted => lit "Minted"
  | Failed => lit "Failed"
  | IntegrityHalted => lit "IntegrityHalted"
  end.

(** The errors of this module that the modelled operations return. *)
Inductive DbError :=
| SqliteNoRows
| SqliteConstraint
| UnsupportedSchemaVersion (found supported : Z)
| UnknownState (s : str)
| MessageIntegrityMismatch (deposit_id : Z) (reason : str)
| MissingClaimArtifact (deposit_id : Z)
| OperatorNoteRequired (deposit_id : Z)
| InvalidIntegrityRecoveryTarget (deposit_id : Z) (to_state : str)
| NotIntegrityHalted (deposit_id : Z) (found : str)
| UnknownWithdrawalState (s : str)
| WithdrawalNotFound (index : Z)
| MissingPayout (index : Z)
| PayoutIntegrityMismatch (withdrawal_index : Z) (reason : str)
| ReservationInvalid (withdrawal_index : Z) (reason : str)
| PayoutAlreadyCompleted (index : Z)
| PayoutAlreadyConfirmed (index : Z)
| InsufficientVaultFunds (required available : Z)
| WithdrawalOperatorNoteRequired (index : Z)
| InvalidWithdrawalRecoveryTarget (withdrawal_index : Z) (to_state : str)
| NotWithdrawalIntegrityHalted (withdrawal_index : Z) (found : str).

Definition parse (s : str) : result DbError DepositState :=
  if decide (s = lit "Candidate") then Ok Candidate
  else if decide (s = lit "Confirming") then Ok Confirming
  else if decide (s = lit "ReadyForSignature") then Ok ReadyForSignature
  else if decide (s = lit "Orphaned") then Ok Orphaned
  else if decide (s = lit "Submitted") then Ok Submitted
  else if decide (s = lit "Minted") then Ok Minted
  else if decide (s = lit "Failed") then Ok Failed
  else if decide (s = lit "IntegrityHalted") then Ok IntegrityHalted
  else Err (UnknownState s).

Definition is_active (s : DepositState) : bool :=
  match s with
  | Candidate | Confirming | ReadyForSignature | Submitted => true
  | _ => false
  end.

Lemma parse_as_str s : parse (as_str s) = Ok s.
Proof. by destruct s. Qed.

(** ** Tables *)

Record NewBlock := {
  nb_height : Z; nb_hash : list byte; nb_prev_hash : list byte; nb_time : Z; nb_indexed_at : Z
}.

Record NewCandidate := {
  nc_txid : list byte; nc_vout : Z; nc_amount_atomic : Z; nc_recipient : list byte;
  nc_block_height : Z; nc_block_hash : list byte; nc_raw_tx_hex : str; nc_discovered_at : Z;
  nc_initial_state : DepositState; nc_failure_reason : option str
}.

Record DepositRow := {
  id : Z; txid : list byte; txid_hex : str; vout : Z; amount_atomic : Z; recipient : list byte;
  block_height : Z; block_hash : list byte; raw_tx_hex : str; state : DepositState;
  discovered_at : Z; ready_at : option Z; failure_reason : option str;
  submitted_signature : option str
}.

Record NewClaimArtifact := {
  ca_deposit_id : Z; canonical_message : list byte; message_hash : list byte;
  ca_protocol_version : Z; ca_validator_epoch : Z; ca_program_id : list byte;
  ca_wrapped_mint : list byte; ca_created_at : Z
}.

Record SignableClaim := {
  sc_deposit_id : Z; sc_message : list byte; sc_txid : list byte; sc_vout : Z;
  sc_amount_atomic : Z; sc_recipient : list byte; sc_program_id : list byte;
  sc_wrapped_mint : list byte; sc_validator_epoch : Z
}.

Record StateLog := {
  log_deposit_id : Z; from_state : option DepositState; to_state : DepositState; log_at : Z;
  log_reason : option str; log_block_hash : list byte;
  expected_message_hash : option (list byte); recomputed_message_hash : option (list byte);
  differing_fields : option str
}.

Record ReorgEvent := {
  detected_at : Z; fork_height : Z; old_tip_height : Z; old_tip_hash : list byte;
  new_tip_height : Z; new_tip_hash : list byte; orphaned_count : Z
}.

(** Rows in id order; [next_id] is the AUTOINCREMENT counter. *)
Record Db := {
  indexed_blocks : gmap Z NewBlock;
  chain_state : option (Z * list byte);
  deposit_candidates : list DepositRow;
  next_id : Z;
  deposit_state_log : list StateLog;
  reorg_events : list ReorgEvent;
  claim_artifacts : gmap Z NewClaimArtifact
}.

Definition empty_db : Db :=
  {| indexed_blocks := ∅; chain_state := None; deposit_candidates := []; next_id := 1;
     deposit_state_log := []; reorg_events := []; claim_artifacts := ∅ |}.

Definition with_chain (db : Db) (bs : gmap Z NewBlock) (tip : Z * list byte) : Db :=
  {| indexed_blocks := bs; chain_state := Some tip;
     deposit_candidates := deposit_candidates db; next_id := next_id db;
     deposit_state_log := deposit_state_log db; reorg_events := reorg_events db;
     claim_artifacts := claim_artifacts db |}.
Definition with_rows (db : Db) (rows : list DepositRow) (nid : Z) : Db :=
  {| indexed_blocks := indexed_blocks db; chain_state := chain_state db;
     deposit_candidates := rows; next_id := nid;
     deposit_state_log := deposit_state_log db; reorg_events := reorg_events db;
     claim_artifacts := claim_artifacts db |}.
Definition add_log (db : Db) (l : StateLog) : Db :=
  {| indexed_blocks := indexed_blocks db; chain_state := chain_state db;
     deposit_candidates := deposit_candidates db; next_id := next_id db;
     deposit_state_log := deposit_state_log db ++ [l]; reorg_events := reorg_events db;
     claim_artifacts := claim_artifacts db |}.
Definition add_reorg (db : Db) (e : ReorgEvent) : Db :=
  {| indexed_blocks := indexed_blocks db; chain_state := chain_state db;
     deposit_candidates := deposit_candidates db; next_id := next_id db;
     deposit_state_log := deposit_state_log db; reorg_events := reorg_events db ++ [e];
     claim_artifacts := claim_artifacts db |}.
Definition put_artifact (db : Db) (a : NewClaimArtifact) : Db :=
  {| indexed_blocks := indexed_blocks db; chain_state := chain_state db;
     deposit_candidates := deposit_candidates db; next_id := next_id db;
     deposit_state_log := deposit_state_log db; reorg_events := reorg_events db;
     claim_artifacts := <[ca_deposit_id a := a]> (claim_artifacts db) |}.

(** The columns an [UPDATE deposit_candidates] sets. *)
Definition update_row (r : DepositRow) (s : DepositState) (ready : option Z)
    (reason signature : option str) : DepositRow :=
  {| id := id r; txid := txid r; txid_hex := txid_hex r; vout := vout r;
     amount_atomic := amount_atomic r; recipient := recipient r;
     block_height := block_height r; block_hash := block_hash r; raw_tx_hex := raw_tx_hex r;
     state := s; discovered_at := discovered_at r; ready_at := ready;
     failure_reason := reason; submitted_signature := signature |}.

Definition find_row (db : Db) (deposit_id : Z) : option DepositRow :=
  snd <$> list_find (fun r => id r = deposit_id) (deposit_candidates db).
(** [UPDATE .. WHERE id = ?] *)
Definition update_where (db : Db) (deposit_id : Z) (f : DepositRow -> DepositRow) : Db :=
  with_rows db ((fun r => if decide (id r = deposit_id) then f r else r) <$>
                  deposit_candidates db) (next_id db).

Definition log_entry (deposit_id : Z) (from : option DepositState) (to : DepositState) (at_ : Z)
    (reason : option str) (bh : list byte) : StateLog :=
  {| log_deposit_id := deposit_id; from_state := from; to_state := to; log_at := at_;
     log_reason := reason; log_block_hash := bh; expected_message_hash := None;
     recomputed_message_hash := None; differing_fields := None |}.

(** ** [ingest_block] *)

(** [INSERT OR IGNORE INTO indexed_blocks]: ignored when the height or the
    hash is taken. *)
Definition insert_block (bs : gmap Z NewBlock) (b : NewBlock) : gmap Z NewBlock :=
  if decide (is_Some (bs !! nb_height b) \/
             map_Exists (fun _ b' => nb_hash b' = nb_hash b) bs)
  then bs else <[nb_height b := b]> bs.

Definition same_key (c : NewCandidate) (r : DepositRow) : Prop :=
  txid r = nc_txid c /\ vout r = nc_vout c /\ block_hash r = nc_block_hash c.
#[export] Instance same_key_dec c r : Decision (same_key c r).
Proof. unfold same_key. apply _. Defined.

Definition row_of (c : NewCandidate) (i : Z) : DepositRow :=
  {| id := i; txid := nc_txid c; txid_hex := encode (nc_txid c); vout := nc_vout c;
     amount_atomic := nc_amount_atomic c; recipient := nc_recipient c;
     block_height := nc_block_height c; block_hash := nc_block_hash c;
     raw_tx_hex := nc_raw_tx_hex c; state := nc_initial_state c;
     discovered_at := nc_discovered_at c; ready_at := None;
     failure_reason := nc_failure_reason c; submitted_signature := None |}.

(** One turn of the loop: insert or find the row, then log it either way. *)
Definition ingest_candidate (acc : Db * list Z) (c : NewCandidate) : Db * list Z :=
  let '(db, ids) := acc in
  let '(db, i) :=
    match list_find (same_key c) (deposit_candidates db) with
    | Some (_, r) => (db, id r)
    | None => (with_rows db (deposit_candidates db ++ [row_of c (next_id db)]) (next_id db + 1),
               next_id db)
    end in
  (add_log db (log_entry i None (nc_initial_state c) (nc_discovered_at c)
                 (nc_failure_reason c) (nc_block_hash c)), ids ++ [i]).

Definition ingest_block (block : NewBlock) (candidates : list NewCandidate) (db : Db)
  : Db * result DbError (list Z) :=
  let db := with_chain db (insert_block (indexed_blocks db) block)
              (nb_height block, nb_hash block) in
  let '(db, ids) := foldl ingest_candidate (db, []) candidates in
  (db, Ok ids).

(** ** [rollback_reorg] *)

Definition rolled_back (fork : Z) (r : DepositRow) : bool :=
  (fork <? block_height r) && is_active (state r).

Definition rollback_reorg (fork new_height : Z) (new_hash : list byte) (old_height : Z)
    (old_hash : list byte) (at_ : Z) (db : Db) : Db * result DbError Z :=
  let rows := filter (fun r => rolled_back fork r = true) (deposit_candidates db) in
  let count := Z.of_nat (length rows) in
  let db := foldl (fun db r =>
    add_log (update_where db (id r) (fun r => update_row r Orphaned (ready_at r)
                                       (failure_reason r) (submitted_signature r)))
      (log_entry (id r) (Some (state r)) Orphaned at_ (Some (lit "reorg_rollback"))
         (block_hash r))) db rows in
  let db := with_chain db (filter (fun '(h, _) => h <= fork) (indexed_blocks db))
              (new_height, new_hash) in
  (add_reorg db {| detected_at := at_; fork_height := fork; old_tip_height := old_height;
                   old_tip_hash := old_hash; new_tip_height := new_height;
                   new_tip_hash := new_hash; orphaned_count := count |},
   Ok count).

(** ** [transition_state] and the marks *)

(** [COALESCE(a, b)] *)
Definition coalesce {A} (a b : option A) : option A := match a with Some _ => a | None => b end.

Definition transition_state (deposit_id : Z) (to : DepositState) (at_ : Z) (reason : option str)
    (artifact : option NewClaimArtifact) (db : Db) : Db * result DbError unit :=
  match find_row db deposit_id with
  | None => (db, Err SqliteNoRows)
  | Some r =>
      let ready := if decide (to = ReadyForSignature) then Some at_ else None in
      let db' := add_log (update_where db deposit_id (fun r =>
                   update_row r to (coalesce ready (ready_at r))
                     (coalesce reason (failure_reason r)) (submitted_signature r)))
                   (log_entry deposit_id (Some (state r)) to at_ reason (block_hash r)) in
      match artifact with
      | None => (db', Ok tt)
      | Some a =>
          (* UNIQUE (deposit_id) and the foreign key on deposit_candidates *)
          if decide (claim_artifacts db !! ca_deposit_id a = None /\
                     is_Some (find_row db (ca_deposit_id a)))
          then (put_artifact db' a, Ok tt)
          else (db, Err SqliteConstraint)
      end
  end.

Definition mark_submitted (deposit_id : Z) (signature : str) (at_ : Z) (db : Db)
  : Db * result DbError unit :=
  match find_row db deposit_id with
  | None => (db, Err SqliteNoRows)
  | Some r =>
      (add_log (update_where db deposit_id (fun r =>
          update_row r Submitted (ready_at r) (failure_reason r) (Some signature)))
         (log_entry deposit_id (Some (state r)) Submitted at_ (Some signature) (block_hash r)),
       Ok tt)
  end.

Definition mark_minted (deposit_id at_ : Z) (db : Db) : Db * result DbError unit :=
  transition_state deposit_id Minted at_ None None db.

(** ** The signing safeguard *)

Definition CLAIM_FIELD_LAYOUT : list (str * nat * nat) :=
  [(lit "domain_tag", 0, 16); (lit "protocol_version", 16, 17); (lit "program_id", 17, 49);
   (lit "validator_epoch", 49, 57); (lit "action_type", 57, 58); (lit "txid", 58, 90);
   (lit "vout", 90, 94); (lit "amount_atomic", 94, 102); (lit "recipient", 102, 134);
   (lit "wrapped_mint", 134, 166)]%nat.

(** [Vec::join(",")] *)
Fixpoint join (l : list str) : str :=
  match l with
  | [] => []
  | [x] => x
  | x :: l => x ++ lit "," ++ join l
  end.

Definition diff_claim_fields (recomputed stored : list byte) : option str :=
  if negb (length stored =? length recomputed)%nat || negb (length stored =? 166)%nat then None
  else
    let differing :=
      (fun f => fst (fst f)) <$>
        filter (fun '(_, a, b) => get_range recomputed a b <> get_range stored a b)
          CLAIM_FIELD_LAYOUT in
    if bool_decide (differing = []) then None else Some (join differing).

Section safeguard.
Context {Sh : Sha2}.

Definition recompute (r : DepositRow) (a : NewClaimArtifact) : list byte :=
  build_claim_message (ca_protocol_version a) (ca_program_id a) (ca_validator_epoch a)
    (txid r) (as_u32 (vout r)) (amount_atomic r) (recipient r) (ca_wrapped_mint a).

Definition verify_and_load_signable_message (deposit_id at_ : Z) (db : Db)
  : Db * result DbError SignableClaim :=
  match find_row db deposit_id with
  | None => (db, Err (MissingClaimArtifact deposit_id))
  | Some r =>
  match claim_artifacts db !! deposit_id with
  | None => (db, Err (MissingClaimArtifact deposit_id))
  | Some a =>
    let self_consistent := bool_decide (sha256 (canonical_message a) = message_hash a) in
    let recomputed := recompute r a in
    let recomputed_matches_stored := bool_decide (recomputed = canonical_message a) in
    if negb self_consistent || negb recomputed_matches_stored then
      let reason := if negb self_consistent then lit "claim_artifact_self_inconsistent"
                    else lit "claim_message_recomputed_mismatch" in
      let db := update_where db deposit_id (fun r =>
                  update_row r IntegrityHalted (ready_at r) (Some reason)
                    (submitted_signature r)) in
      (add_log db
         {| log_deposit_id := deposit_id; from_state := Some (state r);
            to_state := IntegrityHalted; log_at := at_; log_reason := Some reason;
            log_block_hash := block_hash r; expected_message_hash := Some (message_hash a);
            recomputed_message_hash := Some (sha256 recomputed);
            differing_fields := diff_claim_fields recomputed (canonical_message a) |},
       Err (MessageIntegrityMismatch deposit_id reason))
    else
      (db, Ok {| sc_deposit_id := deposit_id; sc_message := recomputed; sc_txid := txid r;
                 sc_vout := as_u32 (vout r); sc_amount_atomic := amount_atomic r;
                 sc_recipient := recipient r; sc_program_id := ca_program_id a;
                 sc_wrapped_mint := ca_wrapped_mint a;
                 sc_validator_epoch := ca_validator_epoch a |})
  end
  end.
End safeguard.

Definition operator_clear_integrity_halt (deposit_id : Z) (to : DepositState)
    (operator_note : str) (at_ : Z) (db : Db) : Db * result DbError unit :=
  if is_blank operator_note then (db, Err (OperatorNoteRequired deposit_id))
  else if negb (bool_decide (to = ReadyForSignature \/ to = Failed))
  then (db, Err (InvalidIntegrityRecoveryTarget deposit_id (as_str to)))
  else
    match find_row db deposit_id with
    | None => (db, Err (MissingClaimArtifact deposit_id))
    | Some r =>
        if negb (bool_decide (state r = IntegrityHalted))
        then (db, Err (NotIntegrityHalted deposit_id (as_str (state r))))
        else
          (add_log (update_where db deposit_id (fun r =>
              update_row r to (ready_at r) (Some operator_note) (submitted_signature r)))
             (log_entry deposit_id (Some (state r)) to at_
                (Some (lit "operator_recovery: " ++ operator_note)) (block_hash r)),
           Ok tt)
    end.

(** ** Queries *)

Definition chain_tip (db : Db) : option (Z * list byte) := chain_state db.
Definition block_hash_at_height (db : Db) (h : Z) : option (list byte) :=
  nb_hash <$> indexed_blocks db !! h.
Definition candidates_by_state (db : Db) (s : DepositState) : list DepositRow :=
  filter (fun r => state r = s) (deposit_candidates db).
Definition history_for (db : Db) (t : list byte) (v : Z) : list DepositRow :=
  filter (fun r => txid r = t /\ vout r = v) (deposit_candidates db).
Definition get_by_id (db : Db) (deposit_id : Z) : option DepositRow := find_row db deposit_id.
Definition ready_since (since : Z) (r : DepositRow) : bool :=
  match ready_at r with Some t => since <=? t | None => false end.
(** [.sum()] of [u64]s wraps in a release build. *)
Definition ready_amount_sum_since (db : Db) (since : Z) : Z :=
  as_u64 (sumZ amount_atomic
    (filter (fun r => ready_since since r = true) (deposit_candidates db))).
Definition minted_deposit_total (db : Db) : Z :=
  as_u64 (sumZ amount_atomic (candidates_by_state db Minted)).
