(* ===== verification/DepositDbProps.v ===== *)
(** * Properties of the deposit database

    Well-formedness of the tables and its preservation, what a rollback and
    the signing safeguard do to every row, the append-only log, and the
    concrete histories in which a re-indexed block loses a deposit and a
    re-mined one is counted twice. *)
From Stdlib Require Import ZArith Lia Strings.Byte.
From stdpp Require Import base numbers strings gmap list.
From S2P Require Import Prelude Messages Hex Deposit DepositDb.

(** ** Rows *)

Lemma find_row_Some db i r :
  find_row db i = Some r -> r ∈ deposit_candidates db /\ id r = i.
Proof.
  unfold find_row. destruct (list_find _ _) as [[n x]|] eqn:E; [|done].
  intros [= <-]. apply list_find_Some in E as (Hl & Hi & _).
  split; [by eapply list_elem_of_lookup_2|done].
Qed.

Definition ids_unique (db : Db) : Prop := NoDup (id <$> deposit_candidates db).

Lemma find_row_unique db r :
  ids_unique db -> r ∈ deposit_candidates db -> find_row db (id r) = Some r.
Proof.
  unfold find_row. intros Hu Hr.
  destruct (list_find_elem_of (fun r' => id r' = id r) _ r Hr eq_refl) as [[n x] E].
  rewrite E. cbn. apply list_find_Some in E as (Hl & Hi & _).
  apply list_elem_of_lookup in Hr as [m Hm].
  assert (n = m) as ->; [|congruence].
  eapply (NoDup_lookup (id <$> deposit_candidates db)); [done|..];
    by rewrite list_lookup_fmap, ?Hl, ?Hm; cbn; rewrite ?Hi.
Qed.

(** What [UPDATE .. WHERE id = ?] leaves in the table. *)
Lemma update_where_elem db i f r' :
  r' ∈ deposit_candidates (update_where db i f) <->
  (exists r, r ∈ deposit_candidates db /\ id r = i /\ r' = f r) \/
  (r' ∈ deposit_candidates db /\ id r' <> i).
Proof.
  unfold update_where. cbn. rewrite list_elem_of_fmap. split.
  - intros (r & -> & Hr). case_decide; [left; eauto|right; done].
  - intros [(r & Hr & Hi & ->)|[Hr Hi]]; [exists r|exists r'];
      (split; [by case_decide|done]).
Qed.

(** Reading a row back after an update. *)
Lemma find_row_update db i j f :
  (forall r, id (f r) = id r) ->
  find_row (update_where db i f) j =
  if decide (j = i) then f <$> find_row db j else find_row db j.
Proof.
  intros Hf. unfold find_row, update_where. cbn [deposit_candidates with_rows].
  induction (deposit_candidates db) as [|r rows IH]; [by case_decide|].
  cbn [fmap list_fmap list_find].
  destruct (decide (id r = i)) as [Hi|Hi].
  - rewrite Hf. destruct (decide (id r = j)) as [Hj|Hj].
    + rewrite decide_True by congruence. done.
    + destruct (list_find _ (_ <$> rows)) as [[]|], (list_find _ rows) as [[]|];
        cbn in *; case_decide; simplify_eq; done.
  - destruct (decide (id r = j)) as [Hj|Hj].
    + rewrite decide_False by congruence. done.
    + destruct (list_find _ (_ <$> rows)) as [[]|], (list_find _ rows) as [[]|];
        cbn in *; case_decide; simplify_eq; done.
Qed.

(** Everything about a row except the columns the program updates. *)
Definition immutable (r : DepositRow) :=
  (id r, txid r, txid_hex r, vout r, amount_atomic r, recipient r, block_height r,
   block_hash r, raw_tx_hex r, discovered_at r).

Lemma update_where_immutable db i s ready reason sig :
  immutable <$> deposit_candidates
    (update_where db i (fun r => update_row r s (ready r) (reason r) (sig r))) =
  immutable <$> deposit_candidates db.
Proof.
  unfold update_where. cbn. rewrite <- list_fmap_compose. apply list_fmap_ext.
  intros n r _. cbn. by case_decide.
Qed.

(** ** Well-formedness *)

Record db_wf (db : Db) : Prop := {
  wf_ids : ids_unique db;
  wf_next : Forall (fun r => id r < next_id db) (deposit_candidates db);
  wf_keys : NoDup ((fun r => (txid r, vout r, block_hash r)) <$> deposit_candidates db);
  wf_hex : Forall (fun r => txid_hex r = encode (txid r)) (deposit_candidates db);
  (** an active deposit's block is on the indexed chain *)
  wf_active : Forall (fun r => is_active (state r) = true ->
    exists b, indexed_blocks db !! block_height r = Some b /\ nb_hash b = block_hash r)
    (deposit_candidates db);
  wf_blocks : map_Forall (fun h b => nb_height b = h) (indexed_blocks db);
  wf_tip : forall h hash, chain_state db = Some (h, hash) ->
    is_Some (indexed_blocks db !! h) /\
    (forall h', h < h' -> indexed_blocks db !! h' = None);
  wf_fresh : chain_state db = None -> indexed_blocks db = ∅
}.

Lemma empty_db_wf : db_wf empty_db.
Proof. constructor; cbn; try constructor; try done. Qed.

Lemma keys_immutable (l l' : list DepositRow) :
  immutable <$> l = immutable <$> l' ->
  (fun r => (txid r, vout r, block_hash r)) <$> l = (fun r => (txid r, vout r, block_hash r)) <$> l'.
Proof.
  intros H.
  assert (forall k : list DepositRow, (fun r => (txid r, vout r, block_hash r)) <$> k =
    (fun p : Z * list byte * str * Z * Z * list byte * Z * list byte * str * Z =>
       let '(_, t, _, v, _, _, _, b, _, _) := p in (t, v, b)) <$> (immutable <$> k)) as Hk.
  { intros k. by rewrite <- list_fmap_compose. }
  by rewrite !Hk, H.
Qed.

Lemma ids_immutable (l l' : list DepositRow) : immutable <$> l = immutable <$> l' -> id <$> l = id <$> l'.
Proof.
  intros H.
  assert (forall k : list DepositRow, id <$> k =
    (fun p : Z * list byte * str * Z * Z * list byte * Z * list byte * str * Z =>
       let '(i, _, _, _, _, _, _, _, _, _) := p in i) <$> (immutable <$> k)) as Hk.
  { intros k. by rewrite <- list_fmap_compose. }
  by rewrite !Hk, H.
Qed.

(** A property of the immutable columns carries over. *)
Lemma Forall_immutable (P : DepositRow -> Prop) (l l' : list DepositRow) :
  (forall r r', immutable r = immutable r' -> P r -> P r') ->
  immutable <$> l = immutable <$> l' -> Forall P l -> Forall P l'.
Proof.
  intros HP. revert l'. induction l as [|r l IH]; intros [|r' l'] H Hl; try discriminate H;
    [constructor|].
  injection H as Hr H. apply Forall_cons in Hl as [? ?]. constructor; [|by apply IH].
  apply (HP r); [|done]. unfold immutable. congruence.
Qed.

(** Updates of the mutable columns of one row preserve well-formedness when
    they do not activate a row whose block is not on the indexed chain. *)
Definition on_chain (db : Db) (r : DepositRow) : Prop :=
  exists b, indexed_blocks db !! block_height r = Some b /\ nb_hash b = block_hash r.

Lemma update_wf_on_chain db i s ready reason sig :
  (forall r, r ∈ deposit_candidates db -> id r = i -> is_active s = true -> on_chain db r) ->
  db_wf db ->
  db_wf (update_where db i (fun r => update_row r s (ready r) (reason r) (sig r))).
Proof.
  intros Hact [].
  pose proof (update_where_immutable db i s ready reason sig) as Him.
  constructor; try done.
  - unfold ids_unique. by rewrite (ids_immutable _ _ Him).
  - eapply Forall_immutable; [|by symmetry|exact wf_next0].
    intros r r' Hr. unfold immutable in Hr. cbn. by injection Hr as -> _.
  - by rewrite (keys_immutable _ _ Him).
  - eapply Forall_immutable; [|by symmetry|exact wf_hex0].
    intros r r' Hr. unfold immutable in Hr. by injection Hr as _ -> -> _.
  - apply Forall_forall. intros r' Hr'%update_where_elem Ha.
    rewrite Forall_forall in wf_active0.
    destruct Hr' as [(r & Hr & Hi & ->)|[Hr _]]; [|by apply wf_active0].
    by apply (Hact r).
Qed.

Lemma update_wf db i s ready reason sig :
  (forall r, r ∈ deposit_candidates db -> id r = i -> is_active s = true ->
     is_active (state r) = true) ->
  db_wf db ->
  db_wf (update_where db i (fun r => update_row r s (ready r) (reason r) (sig r))).
Proof.
  intros Hact Hwf. apply update_wf_on_chain; [|done]. intros r Hr Hi Ha.
  pose proof (wf_active _ Hwf) as Hc. rewrite Forall_forall in Hc. by apply Hc, Hact.
Qed.

Lemma add_log_wf db l : db_wf db -> db_wf (add_log db l).
Proof. intros []. by constructor. Qed.

Lemma put_artifact_wf db a : db_wf db -> db_wf (put_artifact db a).
Proof. intros []. by constructor. Qed.

(** *** [ingest_block] *)

Lemma with_chain_rows db bs tip : deposit_candidates (with_chain db bs tip) = deposit_candidates db.
Proof. done. Qed.

Lemma insert_block_wf db b :
  db_wf db ->
  (forall h b', indexed_blocks db !! h = Some b' -> h <= nb_height b) ->
  (forall h b', indexed_blocks db !! h = Some b' ->
     (h = nb_height b <-> nb_hash b' = nb_hash b)) ->
  db_wf (with_chain db (insert_block (indexed_blocks db) b) (nb_height b, nb_hash b)) /\
  exists b', insert_block (indexed_blocks db) b !! nb_height b = Some b' /\
    nb_hash b' = nb_hash b.
Proof.
  intros [] Htop Hhash. unfold insert_block.
  destruct (decide _) as [Hd|Hd].
  - assert (exists b', indexed_blocks db !! nb_height b = Some b' /\ nb_hash b' = nb_hash b) as Hb.
    { destruct Hd as [[b' Hb']|(h & b' & Hb' & He)].
      - exists b'. split; [done|]. by apply (Hhash _ _ Hb').
      - assert (h = nb_height b) as <- by (by eapply Hhash). eauto. }
    split; [|done]. constructor; try done. cbn. intros h hash [= <- <-].
    destruct Hb as (b' & Hb' & _). split; [eauto|]. intros h' Hlt.
    destruct (indexed_blocks db !! h') eqn:E; [|done]. apply Htop in E. lia.
  - split; [|exists b; by rewrite lookup_insert_eq].
    constructor; cbn; try done.
    + eapply Forall_impl; [exact wf_active0|]. cbn. intros r Hr Ha.
      destruct (Hr Ha) as (b' & Hb' & He). exists b'. split; [|done].
      rewrite lookup_insert_ne; [done|]. intros Heq. apply Hd. left. rewrite Heq. eauto.
    + by apply map_Forall_insert_2.
    + intros h hash [= <- <-]. split; [rewrite lookup_insert_eq; eauto|].
      intros h' Hlt. rewrite lookup_insert_ne by lia.
      destruct (indexed_blocks db !! h') eqn:E; [|done]. apply Htop in E. lia.
Qed.

(** The candidate's block is the one being indexed. *)
Definition candidate_of (db : Db) (c : NewCandidate) : Prop :=
  exists b, indexed_blocks db !! nc_block_height c = Some b /\ nb_hash b = nc_block_hash c.

Lemma ingest_candidate_wf db ids c :
  db_wf db -> candidate_of db c -> db_wf (fst (ingest_candidate (db, ids) c)).
Proof.
  intros Hwf Hc. unfold ingest_candidate.
  destruct (list_find (same_key c) (deposit_candidates db)) as [[n r]|] eqn:E; cbn.
  - by apply add_log_wf.
  - apply add_log_wf. apply list_find_None in E. destruct Hwf.
    constructor; cbn; try done.
    + unfold ids_unique in *. cbn. rewrite fmap_app. apply NoDup_app. split_and!; [done| |apply NoDup_singleton].
      intros i Hi [->|[]%elem_of_nil]%elem_of_cons. apply list_elem_of_fmap in Hi as (r & Heq & Hr).
      rewrite Forall_forall in wf_next0. specialize (wf_next0 _ Hr). cbn in Heq. lia.
    + apply Forall_app. split; [|repeat constructor; cbn; lia].
      eapply Forall_impl; [exact wf_next0|]. cbn. lia.
    + rewrite fmap_app. apply NoDup_app. split_and!; [done| |apply NoDup_singleton].
      intros k Hk [->|[]%elem_of_nil]%elem_of_cons. apply list_elem_of_fmap in Hk as (r & Heq & Hr).
      rewrite Forall_forall in E. apply (E r Hr). cbn in Heq. injection Heq as ? ? ?.
      unfold same_key. auto.
    + apply Forall_app. split; [done|]. by repeat constructor.
    + apply Forall_app. split; [done|]. repeat constructor. intros _. exact Hc.
Qed.

Lemma ingest_candidate_blocks acc c :
  indexed_blocks (fst (ingest_candidate acc c)) = indexed_blocks (fst acc) /\
  chain_state (fst (ingest_candidate acc c)) = chain_state (fst acc).
Proof. destruct acc as [db ids]. unfold ingest_candidate. by destruct (list_find _ _) as [[]|]. Qed.

Lemma ingest_candidates_wf cs acc :
  db_wf (fst acc) -> Forall (candidate_of (fst acc)) cs ->
  db_wf (fst (foldl ingest_candidate acc cs)).
Proof.
  revert acc. induction cs as [|c cs IH]; intros acc Hwf Hcs; [done|].
  apply Forall_cons in Hcs as [Hc Hcs]. cbn. apply IH.
  - destruct acc as [db ids]. by apply ingest_candidate_wf.
  - eapply Forall_impl; [exact Hcs|]. unfold candidate_of. intros c'.
    by rewrite (proj1 (ingest_candidate_blocks acc c)).
Qed.

(** The caller's obligations (the doc comment's precondition): the block
    extends the tip or is the tip, its hash is its own, and the candidates
    are this block's. *)
Record ingest_pre (b : NewBlock) (cs : list NewCandidate) (db : Db) : Prop := {
  ip_top : forall h b', indexed_blocks db !! h = Some b' -> h <= nb_height b;
  ip_hash : forall h b', indexed_blocks db !! h = Some b' ->
    (h = nb_height b <-> nb_hash b' = nb_hash b);
  ip_candidates : Forall (fun c => nc_block_height c = nb_height b /\
                                   nc_block_hash c = nb_hash b) cs
}.

Lemma ingest_block_wf b cs db :
  db_wf db -> ingest_pre b cs db -> db_wf (fst (ingest_block b cs db)).
Proof.
  intros Hwf [Ht Hh Hcs]. destruct (insert_block_wf db b Hwf Ht Hh) as [Hwf' (b' & Hb & He)].
  unfold ingest_block.
  destruct (foldl _ _ _) as [db' ids] eqn:E. cbn.
  replace db' with (fst (foldl ingest_candidate
    (with_chain db (insert_block (indexed_blocks db) b) (nb_height b, nb_hash b), []) cs))
    by (by rewrite E).
  apply ingest_candidates_wf; [done|]. eapply Forall_impl; [exact Hcs|].
  intros c [Hch Hcb]. exists b'. cbn. by rewrite Hch, Hcb.
Qed.

(** *** [rollback_reorg] *)

Definition orphan (r : DepositRow) : DepositRow :=
  update_row r Orphaned (ready_at r) (failure_reason r) (submitted_signature r).
Definition rollback_log (at_ : Z) (r : DepositRow) : StateLog :=
  log_entry (id r) (Some (state r)) Orphaned at_ (Some (lit "reorg_rollback")) (block_hash r).
Definition rollback_row (at_ : Z) (db : Db) (r : DepositRow) : Db :=
  add_log (update_where db (id r) orphan) (rollback_log at_ r).

Lemma orphan_orphan r : orphan (orphan r) = orphan r.
Proof. done. Qed.

Lemma rollback_rows at_ rs db :
  let db' := foldl (rollback_row at_) db rs in
  deposit_candidates db' =
    (fun r => if decide (id r ∈ id <$> rs) then orphan r else r) <$> deposit_candidates db /\
  deposit_state_log db' = deposit_state_log db ++ (rollback_log at_ <$> rs) /\
  indexed_blocks db' = indexed_blocks db /\ next_id db' = next_id db /\
  claim_artifacts db' = claim_artifacts db /\ reorg_events db' = reorg_events db.
Proof.
  revert db. induction rs as [|r0 rs IH]; intros db; cbn [foldl].
  - rewrite app_nil_r. split_and!; try done.
    rewrite <- (list_fmap_id (deposit_candidates db)) at 1. apply list_fmap_ext.
    intros n r _. rewrite decide_False; [done|]. cbn. set_solver.
  - destruct (IH (rollback_row at_ db r0)) as (Hr & Hl & Hb & Hn & Ha & He).
    cbv zeta. split_and!.
    + rewrite Hr. unfold rollback_row, update_where. cbn. rewrite <- list_fmap_compose.
      apply list_fmap_ext. intros n r _. cbn.
      destruct (decide (id r = id r0)) as [E|E]; cbn [id orphan update_row].
      * rewrite (decide_True (P := id r ∈ id r0 :: _)) by (apply elem_of_cons; by left).
        by case_decide.
      * destruct (decide (id r ∈ id <$> rs)).
        -- rewrite decide_True; [done|]. apply elem_of_cons. by right.
        -- rewrite decide_False; [done|]. by intros [?|?]%elem_of_cons.
    + rewrite Hl. cbn. by rewrite <- app_assoc.
    + by rewrite Hb.
    + by rewrite Hn.
    + by rewrite Ha.
    + by rewrite He.
Qed.

Lemma rolled_back_ids fork db r :
  ids_unique db -> r ∈ deposit_candidates db ->
  id r ∈ id <$> filter (fun r => rolled_back fork r = true) (deposit_candidates db) <->
  rolled_back fork r = true.
Proof.
  intros Hu Hr. rewrite list_elem_of_fmap. split.
  - intros (r' & Hi & [Hb Hr']%list_elem_of_filter).
    apply find_row_unique in Hr, Hr'; [|done..]. rewrite <- Hi in Hr'. congruence.
  - intros Hb. exists r. split; [done|]. by apply list_elem_of_filter.
Qed.

(** What a rollback does, table by table. *)
Lemma rollback_reorg_effect fork nh nhash oh ohash at_ db :
  ids_unique db ->
  let rows := filter (fun r => rolled_back fork r = true) (deposit_candidates db) in
  let db' := fst (rollback_reorg fork nh nhash oh ohash at_ db) in
  snd (rollback_reorg fork nh nhash oh ohash at_ db) = Ok (Z.of_nat (length rows)) /\
  deposit_candidates db' =
    (fun r => if rolled_back fork r then orphan r else r) <$> deposit_candidates db /\
  deposit_state_log db' = deposit_state_log db ++ (rollback_log at_ <$> rows) /\
  indexed_blocks db' = filter (fun '(h, _) => h <= fork) (indexed_blocks db) /\
  chain_state db' = Some (nh, nhash) /\ claim_artifacts db' = claim_artifacts db /\
  next_id db' = next_id db.
Proof.
  intros Hu. cbv zeta. unfold rollback_reorg. fold orphan.
  set (rows := filter (fun r => rolled_back fork r = true) (deposit_candidates db)).
  change (fun (db : Db) (r : DepositRow) => _) with (rollback_row at_).
  destruct (rollback_rows at_ rows db) as (Hr & Hl & Hb & Hn & Ha & He).
  cbn -[rollback_row]. rewrite Hl, Hb, Hn, Ha. split_and!; try done.
  rewrite Hr. apply list_fmap_ext. intros n r Hnr. apply list_elem_of_lookup_2 in Hnr.
  pose proof (rolled_back_ids fork db r Hu Hnr) as Hiff. fold rows in Hiff.
  case_decide as Hd.
  - by rewrite (proj1 Hiff Hd).
  - destruct (rolled_back fork r); [|done]. by destruct Hd; apply Hiff.
Qed.

Lemma rollback_reorg_wf fork nhash oh ohash at_ db b :
  db_wf db -> indexed_blocks db !! fork = Some b ->
  db_wf (fst (rollback_reorg fork fork nhash oh ohash at_ db)).
Proof.
  intros Hwf Hb.
  destruct (rollback_reorg_effect fork fork nhash oh ohash at_ db (wf_ids _ Hwf))
    as (_ & Hr & _ & Hbl & Htip & _ & Hn).
  assert (immutable <$> deposit_candidates (fst (rollback_reorg fork fork nhash oh ohash at_ db)) =
          immutable <$> deposit_candidates db) as Him.
  { rewrite Hr, <- list_fmap_compose. apply list_fmap_ext. intros n r _. cbn.
    by destruct (rolled_back fork r). }
  destruct Hwf. constructor.
  - unfold ids_unique. by rewrite (ids_immutable _ _ Him).
  - rewrite Hn. eapply Forall_immutable; [|by symmetry|exact wf_next0].
    intros r r' Hrr. unfold immutable in Hrr. cbn. by injection Hrr as -> _.
  - by rewrite (keys_immutable _ _ Him).
  - eapply Forall_immutable; [|by symmetry|exact wf_hex0].
    intros r r' Hrr. unfold immutable in Hrr. by injection Hrr as _ -> -> _.
  - rewrite Hr, Hbl. apply Forall_forall. intros r' (r & -> & Hrd)%list_elem_of_fmap.
    destruct (rolled_back fork r) eqn:E; [done|]. intros Ha.
    rewrite Forall_forall in wf_active0. destruct (wf_active0 _ Hrd Ha) as (b' & Hb' & He).
    exists b'. split; [|done]. apply map_lookup_filter_Some. split; [done|].
    unfold rolled_back in E. rewrite Ha, andb_true_r in E. bools. lia.
  - rewrite Hbl. intros h b0 [Hl _]%map_lookup_filter_Some. by apply wf_blocks0.
  - intros h hash. rewrite Htip, Hbl. intros [= <- <-]. split.
    + exists b. apply map_lookup_filter_Some. split; [done|]. lia.
    + intros h' Hlt. apply map_lookup_filter_None. right. intros ? _. cbn. lia.
  - by rewrite Htip.
Qed.

(** ** The operations of the indexer and the orchestrator *)

Section ops.
Context {Sh : Sha2}.

(** The calls that keep the promise of their callers: blocks extend the
    tip, a rollback forks at an indexed block, a transition does not revive
    an inactive deposit. *)
Inductive db_step (db : Db) : Db -> Prop :=
| step_ingest b cs : ingest_pre b cs db -> db_step db (fst (ingest_block b cs db))
| step_rollback fork b nhash oh ohash at_ :
    indexed_blocks db !! fork = Some b ->
    db_step db (fst (rollback_reorg fork fork nhash oh ohash at_ db))
| step_transition i to at_ reason art :
    (forall r, find_row db i = Some r -> is_active to = true -> is_active (state r) = true) ->
    db_step db (fst (transition_state i to at_ reason art db))
| step_submit i sig at_ :
    (forall r, find_row db i = Some r -> is_active (state r) = true) ->
    db_step db (fst (mark_submitted i sig at_ db))
| step_verify i at_ : db_step db (fst (verify_and_load_signable_message i at_ db))
| step_operator i to note at_ :
    (forall r, find_row db i = Some r -> is_active to = true -> on_chain db r) ->
    db_step db (fst (operator_clear_integrity_halt i to note at_ db)).

Lemma find_row_active db i s :
  ids_unique db ->
  (forall r, find_row db i = Some r -> is_active s = true -> is_active (state r) = true) ->
  forall r, r ∈ deposit_candidates db -> id r = i -> is_active s = true ->
    is_active (state r) = true.
Proof. intros Hu H r Hr <- Hs. apply H; [|done]. by apply find_row_unique. Qed.

Lemma db_step_wf db db' : db_wf db -> db_step db db' -> db_wf db'.
Proof.
  intros Hwf []; pose proof (wf_ids _ Hwf) as Hu.
  - by apply ingest_block_wf.
  - by eapply rollback_reorg_wf.
  - unfold transition_state. destruct (find_row db i) as [r|] eqn:E; [|done].
    assert (db_wf (add_log (update_where db i (fun r0 => update_row r0 to
        (coalesce (if decide (to = ReadyForSignature) then Some at_ else None) (ready_at r0))
        (coalesce reason (failure_reason r0)) (submitted_signature r0)))
        (log_entry i (Some (state r)) to at_ reason (block_hash r)))) as Hup.
    { apply add_log_wf.
      apply (update_wf db i to
               (fun r0 => coalesce (if decide (to = ReadyForSignature) then Some at_ else None) (ready_at r0))
               (fun r0 => coalesce reason (failure_reason r0)) submitted_signature); [|done].
      apply find_row_active; [done|]. by rewrite E. }
    destruct art as [a|]; [|exact Hup].
    repeat case_decide; (exact Hwf || by apply put_artifact_wf).
  - unfold mark_submitted. destruct (find_row db i) as [r|] eqn:E; [|done].
    apply add_log_wf, (update_wf db i Submitted ready_at failure_reason (fun _ => Some sig)); [|done].
    apply find_row_active; [done|]. rewrite E. auto.
  - unfold verify_and_load_signable_message.
    destruct (find_row db i) as [r|] eqn:E; [|done].
    destruct (claim_artifacts db !! i) as [a|]; [|done]. case_match; [|done].
    apply add_log_wf, (update_wf db i IntegrityHalted ready_at (fun _ => Some _) submitted_signature); [|done].
    done.
  - unfold operator_clear_integrity_halt. do 2 (case_match; [done|]).
    destruct (find_row db i) as [r|] eqn:E; [|done]. case_match; [done|].
    apply add_log_wf, (update_wf_on_chain db i to ready_at (fun _ => Some note)
                         submitted_signature); [|done].
    intros r' Hr' <- Ha. apply H; [|done]. rewrite <- E. by apply find_row_unique.
Qed.

(** Every database reached from the empty one by the operations of db.rs (a row
    being activated only while its block is on the indexed chain) has unique row ids
    below the next id, unique (txid, vout, block hash) keys, hex text agreeing with the
    txid bytes, active deposits only in blocks of the indexed chain, blocks stored under
    their own height and a tip above which nothing is indexed. *)
Theorem deposit_db_well_formed db : star db_step empty_db db -> db_wf db.
Proof. apply (star_invariant db_step db_wf db_step_wf), empty_db_wf. Qed.

(** ** The signing safeguard *)

(** The pre-signing safeguard, on every stored deposit: a signable message is
    returned exactly when the stored hash and the message recomputed from the live row
    both match the stored commitment, and then it is that message and nothing is
    written; otherwise the call fails, one log row is appended and exactly that deposit
    becomes IntegrityHalted. *)
Theorem safeguard_signs_only_the_commitment db i at_ r a :
  find_row db i = Some r -> claim_artifacts db !! i = Some a ->
  let '(db', res) := verify_and_load_signable_message i at_ db in
  if decide (sha256 (canonical_message a) = message_hash a /\
             recompute r a = canonical_message a)
  then db' = db /\ exists c, res = Ok c /\ sc_message c = canonical_message a /\
         sc_message c = deposit_claim_message (ca_protocol_version a) (ca_program_id a)
           (ca_validator_epoch a) (txid r) (as_u32 (vout r)) (amount_atomic r) (recipient r)
           (ca_wrapped_mint a) /\
         sha256 (sc_message c) = message_hash a
  else (exists reason, res = Err (MessageIntegrityMismatch i reason)) /\
       (exists l, deposit_state_log db' = deposit_state_log db ++ [l] /\
          log_deposit_id l = i /\ from_state l = Some (state r) /\
          to_state l = IntegrityHalted) /\
       (exists r', find_row db' i = Some r' /\ state r' = IntegrityHalted) /\
       (forall r', id r' <> i -> r' ∈ deposit_candidates db' <-> r' ∈ deposit_candidates db) /\
       claim_artifacts db' = claim_artifacts db.
Proof.
  intros Hr Ha. unfold verify_and_load_signable_message. rewrite Hr, Ha.
  case_decide as Hd.
  - destruct Hd as [Hh Hm]. rewrite !bool_decide_true by done. cbn [negb orb].
    split; [done|]. eexists. split; [done|]. cbn [sc_message]. split_and!; [done|done|]. by rewrite Hm.
  - assert (negb (bool_decide (sha256 (canonical_message a) = message_hash a)) ||
            negb (bool_decide (recompute r a = canonical_message a)) = true) as ->.
    { apply orb_true_iff. rewrite !negb_true_iff, !bool_decide_eq_false.
      destruct (decide (sha256 (canonical_message a) = message_hash a)); [|auto].
      right. naive_solver. }
    split_and!.
    + eauto.
    + eexists. cbn. split_and!; done.
    + change (find_row (add_log ?d _) i) with (find_row d i).
      rewrite find_row_update by done. rewrite decide_True, Hr by done. eauto.
    + intros r' Hi. cbn [fst add_log deposit_candidates]. rewrite update_where_elem.
      split; [intros [(r0 & _ & Hi0 & ->)|[? _]]; [by destruct Hi|done]|auto].
    + done.
Qed.

(** The Rust types of the fields the claim message embeds. *)
Definition row_typed (r : DepositRow) : Prop :=
  length (txid r) = 32%nat /\ in_u32 (vout r) /\ in_u64 (amount_atomic r) /\
  length (recipient r) = 32%nat.
Definition artifact_typed (a : NewClaimArtifact) : Prop :=
  in_u8 (ca_protocol_version a) /\ length (ca_program_id a) = 32%nat /\
  in_u64 (ca_validator_epoch a) /\ length (ca_wrapped_mint a) = 32%nat.

Lemma recompute_inj r r0 a :
  row_typed r -> row_typed r0 -> artifact_typed a -> recompute r a = recompute r0 a ->
  (txid r, vout r, amount_atomic r, recipient r) =
  (txid r0, vout r0, amount_atomic r0, recipient r0).
Proof.
  intros (T1 & V1 & A1 & R1) (T2 & V2 & A2 & R2) (Hv & Hp & He & Hm) Heq.
  assert (as_u32 (vout r) = vout r /\ as_u32 (vout r0) = vout r0) as [E1 E2].
  { split; apply Z.mod_small; unfold in_u32, U32_MAX in *; lia. }
  unfold recompute, build_claim_message in Heq. rewrite E1, E2 in Heq.
  apply (encode_injective
    (MintDeposit (ca_protocol_version a) (ca_program_id a) (ca_validator_epoch a) (txid r)
       (vout r) (amount_atomic r) (recipient r) (ca_wrapped_mint a))
    (MintDeposit (ca_protocol_version a) (ca_program_id a) (ca_validator_epoch a) (txid r0)
       (vout r0) (amount_atomic r0) (recipient r0) (ca_wrapped_mint a))) in Heq.
  - congruence.
  - by split_and!.
  - by split_and!.
Qed.

(** If the row's txid, vout, amount or recipient differs in any way from the values
    its claim was committed with, the safeguard refuses to sign and halts the deposit. *)
Theorem drifted_deposit_is_halted db i at_ r r0 a :
  find_row db i = Some r -> claim_artifacts db !! i = Some a ->
  canonical_message a = recompute r0 a ->
  row_typed r -> row_typed r0 -> artifact_typed a ->
  (txid r, vout r, amount_atomic r, recipient r) <>
    (txid r0, vout r0, amount_atomic r0, recipient r0) ->
  (exists reason, snd (verify_and_load_signable_message i at_ db) =
     Err (MessageIntegrityMismatch i reason)) /\
  exists r', find_row (fst (verify_and_load_signable_message i at_ db)) i = Some r' /\
    state r' = IntegrityHalted.
Proof.
  intros Hr Ha Hc Ht Ht0 Hat Hne. unfold verify_and_load_signable_message. rewrite Hr, Ha.
  rewrite (bool_decide_false (recompute r a = _)).
  - rewrite orb_true_r. split; [cbn; eauto|]. cbn [fst].
    change (find_row (add_log ?d _) i) with (find_row d i).
    rewrite find_row_update by done. rewrite decide_True, Hr by done. eauto.
  - rewrite Hc. intros Heq. by apply Hne, (recompute_inj r r0 a).
Qed.

(** ** The record is append-only *)

Record extends (db db' : Db) : Prop := {
  ex_log : deposit_state_log db `prefix_of` deposit_state_log db';
  ex_rows : (immutable <$> deposit_candidates db) `prefix_of`
            (immutable <$> deposit_candidates db');
  ex_artifacts : claim_artifacts db ⊆ claim_artifacts db'
}.

Lemma extends_refl db : extends db db.
Proof. by constructor. Qed.

Lemma extends_trans d1 d2 d3 : extends d1 d2 -> extends d2 d3 -> extends d1 d3.
Proof. intros [] []. constructor; by etrans. Qed.

Lemma extends_update db i s ready reason sig l :
  extends db (add_log (update_where db i (fun r =>
    update_row r s (ready r) (reason r) (sig r))) l).
Proof.
  constructor; [by apply prefix_app_r| |done].
  change (deposit_candidates (add_log ?d l)) with (deposit_candidates d).
  by rewrite update_where_immutable.
Qed.

Lemma ingest_candidate_extends acc c : extends (fst acc) (fst (ingest_candidate acc c)).
Proof.
  destruct acc as [db ids]. unfold ingest_candidate.
  destruct (list_find _ _) as [[n r]|]; constructor; cbn;
    [by apply prefix_app_r|done|done|by apply prefix_app_r| |done].
  rewrite fmap_app. by apply prefix_app_r.
Qed.

Lemma ingest_candidates_extend cs acc : extends (fst acc) (fst (foldl ingest_candidate acc cs)).
Proof.
  revert acc. induction cs as [|c cs IH]; intros acc; [apply extends_refl|].
  cbn. eapply extends_trans; [apply ingest_candidate_extends|apply IH].
Qed.

Lemma fst_ingest_block b cs db :
  fst (ingest_block b cs db) =
  fst (foldl ingest_candidate
    (with_chain db (insert_block (indexed_blocks db) b) (nb_height b, nb_hash b), []) cs).
Proof. unfold ingest_block. by destruct (foldl _ _ _). Qed.

Lemma db_step_extends db db' : db_wf db -> db_step db db' -> extends db db'.
Proof.
  intros Hwf [].
  - rewrite fst_ingest_block. eapply extends_trans; [|apply ingest_candidates_extend].
    constructor; cbn; done.
  - destruct (rollback_reorg_effect fork fork nhash oh ohash at_ db (wf_ids _ Hwf))
      as (_ & Hr & Hl & _ & _ & Ha & _).
    constructor; [rewrite Hl; by apply prefix_app_r| |by rewrite Ha].
    rewrite Hr, <- list_fmap_compose.
    assert (immutable ∘ (fun r => if rolled_back fork r then orphan r else r) <$>
            deposit_candidates db = immutable <$> deposit_candidates db) as ->; [|done].
    apply list_fmap_ext. intros n r _. cbn. by destruct (rolled_back fork r).
  - unfold transition_state. destruct (find_row db i) as [r|]; [|apply extends_refl].
    set (db1 := add_log _ _).
    assert (extends db db1) as He by (apply (extends_update db i to
      (fun r0 => coalesce (if decide (to = ReadyForSignature) then Some at_ else None) (ready_at r0))
      (fun r0 => coalesce reason (failure_reason r0)) submitted_signature)).
    destruct art as [a|]; [|exact He].
    case_decide as Hd; [|apply extends_refl]. destruct Hd as [Hnone _].
    eapply extends_trans; [exact He|]. constructor; [done|done|].
    by apply insert_subseteq.
  - unfold mark_submitted. destruct (find_row db i) as [r|]; [|apply extends_refl].
    apply (extends_update db i Submitted ready_at failure_reason (fun _ => Some sig)).
  - unfold verify_and_load_signable_message.
    destruct (find_row db i) as [r|]; [|apply extends_refl].
    destruct (claim_artifacts db !! i) as [a|]; [|apply extends_refl].
    case_match; [|apply extends_refl].
    apply (extends_update db i IntegrityHalted ready_at (fun _ => Some _) submitted_signature).
  - unfold operator_clear_integrity_halt. do 2 (case_match; [apply extends_refl|]).
    destruct (find_row db i) as [r|]; [|apply extends_refl].
    case_match; [apply extends_refl|].
    apply (extends_update db i to ready_at (fun _ => Some note) submitted_signature).
Qed.

(** No sequence of database operations deletes or rewrites history: the state log
    only grows, deposit rows are never removed or reordered, their identifying columns
    never change and a stored claim artifact is never altered. *)
Theorem audit_trail_append_only db db' :
  star db_step empty_db db -> star db_step db db' -> extends db db'.
Proof.
  intros H0. induction 1 as [db|db db1 db2 Hs IH Hstep]; [apply extends_refl|].
  eapply extends_trans; [by apply IH|]. apply db_step_extends; [|done].
  eapply (star_invariant db_step db_wf db_step_wf); [|exact Hs].
  eapply (star_invariant db_step db_wf db_step_wf); [apply empty_db_wf|exact H0].
Qed.
End ops.

(** ** Re-ingesting a block *)

Lemma ingest_known acc c r :
  list_find (same_key c) (deposit_candidates (fst acc)) = Some r ->
  deposit_candidates (fst (ingest_candidate acc c)) = deposit_candidates (fst acc).
Proof. destruct acc as [db ids]. unfold ingest_candidate. cbn. intros ->. by destruct r. Qed.

Lemma ingest_candidate_prefix acc c :
  deposit_candidates (fst acc) `prefix_of` deposit_candidates (fst (ingest_candidate acc c)).
Proof.
  destruct acc as [db ids]. unfold ingest_candidate. destruct (list_find _ _) as [[n r]|]; cbn;
    [done|by apply prefix_app_r].
Qed.

Lemma ingest_candidates_prefix cs acc :
  deposit_candidates (fst acc) `prefix_of` deposit_candidates (fst (foldl ingest_candidate acc cs)).
Proof.
  revert acc. induction cs as [|c cs IH]; intros acc; [done|]. cbn.
  etrans; [apply ingest_candidate_prefix|apply IH].
Qed.

(** Existing rows are never touched by ingestion. *)
Lemma ingest_block_prefix b cs db :
  deposit_candidates db `prefix_of` deposit_candidates (fst (ingest_block b cs db)).
Proof. rewrite fst_ingest_block. apply ingest_candidates_prefix. Qed.

Lemma candidate_row_present acc c :
  Exists (same_key c) (deposit_candidates (fst (ingest_candidate acc c))).
Proof.
  destruct acc as [db ids]. unfold ingest_candidate.
  destruct (list_find _ _) as [[n r]|] eqn:E; cbn.
  - apply list_find_Some in E as (Hl & Hk & _). apply Exists_exists. exists r.
    split; [by eapply list_elem_of_lookup_2|done].
  - apply Exists_app. right. by constructor.
Qed.

Lemma Exists_prefix (P : DepositRow -> Prop) l l' : l `prefix_of` l' -> Exists P l -> Exists P l'.
Proof. intros [k ->] H. apply Exists_app. by left. Qed.

Lemma candidates_present cs acc :
  Forall (fun c => Exists (same_key c)
    (deposit_candidates (fst (foldl ingest_candidate acc cs)))) cs.
Proof.
  revert acc. induction cs as [|c cs IH]; intros acc; constructor; [|apply IH]. cbn.
  eapply Exists_prefix; [apply ingest_candidates_prefix|apply candidate_row_present].
Qed.

Lemma ingest_known_candidates cs acc :
  Forall (fun c => Exists (same_key c) (deposit_candidates (fst acc))) cs ->
  deposit_candidates (fst (foldl ingest_candidate acc cs)) = deposit_candidates (fst acc).
Proof.
  revert acc. induction cs as [|c cs IH]; intros acc H; [done|].
  apply Forall_cons in H as [Hc Hcs]. cbn.
  assert (deposit_candidates (fst (ingest_candidate acc c)) = deposit_candidates (fst acc)) as Heq.
  { apply Exists_exists in Hc as (r & Hr & Hk).
    destruct (list_find_elem_of (same_key c) _ r Hr Hk) as [p Hp]. by eapply ingest_known. }
  rewrite IH; rewrite ?Heq; done.
Qed.

Lemma ingest_candidates_blocks cs acc :
  indexed_blocks (fst (foldl ingest_candidate acc cs)) = indexed_blocks (fst acc) /\
  chain_state (fst (foldl ingest_candidate acc cs)) = chain_state (fst acc).
Proof.
  revert acc. induction cs as [|c cs IH]; intros acc; [done|]. cbn.
  destruct (IH (ingest_candidate acc c)) as [-> ->]. apply ingest_candidate_blocks.
Qed.

Lemma insert_block_twice bs b :
  insert_block (insert_block bs b) b = insert_block bs b.
Proof.
  unfold insert_block at 1. rewrite decide_True; [done|].
  unfold insert_block. case_decide as Hd; [done|]. left. rewrite lookup_insert_eq. eauto.
Qed.

(** Ingesting the same block with the same candidates a second time changes no
    deposit row, no indexed block and not the chain tip. *)
Theorem reingest_changes_no_row b cs db :
  let db1 := fst (ingest_block b cs db) in
  let db2 := fst (ingest_block b cs db1) in
  deposit_candidates db2 = deposit_candidates db1 /\
  indexed_blocks db2 = indexed_blocks db1 /\ chain_state db2 = chain_state db1.
Proof.
  cbv zeta. rewrite !fst_ingest_block.
  set (acc := (with_chain db (insert_block (indexed_blocks db) b) (nb_height b, nb_hash b), [])).
  set (db1 := fst (foldl ingest_candidate acc cs)).
  destruct (ingest_candidates_blocks cs acc) as [Hb Ht]. fold db1 in Hb, Ht.
  set (acc' := (with_chain db1 (insert_block (indexed_blocks db1) b) (nb_height b, nb_hash b),
                @nil Z)).
  destruct (ingest_candidates_blocks cs acc') as [Hb' Ht'].
  split_and!.
  - rewrite ingest_known_candidates; [done|].
    change (deposit_candidates (fst acc')) with (deposit_candidates db1).
    apply candidates_present.
  - rewrite Hb'. cbn. rewrite Hb. apply insert_block_twice.
  - rewrite Ht', Ht. done.
Qed.

(** When a block that a reorg orphaned is indexed again, its deposit keeps its
    Orphaned row and no active row appears for it, so the deposit is never processed
    again. *)
Theorem reindexed_deposit_stays_orphaned b cs db c r :
  db_wf db -> ingest_pre b cs db -> c ∈ cs ->
  r ∈ deposit_candidates db -> same_key c r -> state r = Orphaned ->
  let db' := fst (ingest_block b cs db) in
  r ∈ deposit_candidates db' /\
  forall r', r' ∈ deposit_candidates db' -> same_key c r' -> is_active (state r') = false.
Proof.
  intros Hwf Hpre Hc Hr Hk Hst. cbv zeta.
  assert (r ∈ deposit_candidates (fst (ingest_block b cs db))) as Hin.
  { destruct (ingest_block_prefix b cs db) as [k ->]. apply elem_of_app. by left. }
  split; [done|]. intros r' Hr' Hk'.
  assert (r' = r) as ->; [|by rewrite Hst].
  pose proof (wf_keys _ (ingest_block_wf _ _ _ Hwf Hpre)) as Hnd.
  apply list_elem_of_lookup in Hin as [n Hn], Hr' as [m Hm].
  assert (n = m) as ->; [|congruence].
  destruct Hk as (? & ? & ?), Hk' as (? & ? & ?).
  eapply NoDup_lookup; [exact Hnd|..]; rewrite list_lookup_fmap, ?Hn, ?Hm; cbn; [done|].
  do 2 f_equal; [f_equal|]; congruence.
Qed.

(** ** Concrete histories *)

Definition demo_block (h : Z) (hash : Z) : NewBlock :=
  {| nb_height := h; nb_hash := replicate 32 (byte_of_Z hash); nb_prev_hash := [];
     nb_time := 0; nb_indexed_at := 0 |}.
Definition demo_candidate (amount h hash : Z) : NewCandidate :=
  {| nc_txid := replicate 32 (byte_of_Z 170); nc_vout := 0; nc_amount_atomic := amount;
     nc_recipient := replicate 32 (byte_of_Z 171); nc_block_height := h;
     nc_block_hash := replicate 32 (byte_of_Z hash); nc_raw_tx_hex := []; nc_discovered_at := 0;
     nc_initial_state := Candidate; nc_failure_reason := None |}.
Definition demo_ingest (h hash : Z) (cs : list NewCandidate) (db : Db) : Db :=
  fst (ingest_block (demo_block h hash) cs db).
Definition demo_rollback (db : Db) : Db :=
  fst (rollback_reorg 0 0 (replicate 32 (byte_of_Z 1)) 1 [] 0 db).

(** Genesis, then block A with the deposit; a reorg to block B without it and
    back to A. *)
Definition demo_db_A : Db := demo_ingest 1 2 [demo_candidate 500 1 2] (demo_ingest 0 1 [] empty_db).
Definition demo_db_B : Db := demo_rollback (demo_ingest 1 3 [] (demo_rollback demo_db_A)).

Lemma demo_step_ingest db h hash cs :
  map_Forall (fun h' b' => h' <= h /\ (h' = h <-> nb_hash b' = replicate 32 (byte_of_Z hash)))
    (indexed_blocks db) ->
  Forall (fun c => nc_block_height c = h /\ nc_block_hash c = replicate 32 (byte_of_Z hash)) cs ->
  ingest_pre (demo_block h hash) cs db.
Proof.
  intros Hb Hcs. constructor; [| |exact Hcs].
  - intros h' b' H. apply (Hb h' b' H).
  - intros h' b' H. apply (Hb h' b' H).
Qed.

(** The deposit of block A, back on the chain, is in no processable state. *)
Lemma deposit_lost_after_reorg_back :
  let db := demo_ingest 1 2 [demo_candidate 500 1 2] demo_db_B in
  block_hash_at_height db 1 = Some (replicate 32 (byte_of_Z 2)) /\
  map state (history_for db (replicate 32 (byte_of_Z 170)) 0) = [Orphaned] /\
  candidates_by_state db Candidate = [].
Proof. vm_compute. repeat split. Qed.

(** A minted deposit whose transaction is mined again in another block after a
    reorg is counted twice by minted_deposit_total, the figure the solvency report uses. *)
Theorem remined_deposit_counted_twice amount :
  0 <= amount < 2 ^ 62 ->
  let db1 := fst (mark_minted 1 0 (demo_ingest 1 2 [demo_candidate amount 1 2]
                    (demo_ingest 0 1 [] empty_db))) in
  let db2 := fst (mark_minted 2 0 (demo_ingest 1 3 [demo_candidate amount 1 3]
                    (demo_rollback db1))) in
  minted_deposit_total db1 = amount /\ minted_deposit_total db2 = 2 * amount.
Proof.
  intros Ha. cbv zeta. split.
  - transitivity (as_u64 (amount + 0)); [reflexivity|].
    rewrite Z.add_0_r. apply Z.mod_small. lia.
  - transitivity (as_u64 (amount + (amount + 0))); [reflexivity|].
    rewrite <- Z.add_diag, Z.add_0_r. apply Z.mod_small. lia.
Qed.

Lemma remined_deposit_counted_twice_witness :
  0 <= 500 < 2 ^ 62 /\
  let db1 := fst (mark_minted 1 0 (demo_ingest 1 2 [demo_candidate 500 1 2]
                    (demo_ingest 0 1 [] empty_db))) in
  let db2 := fst (mark_minted 2 0 (demo_ingest 1 3 [demo_candidate 500 1 3]
                    (demo_rollback db1))) in
  minted_deposit_total db1 = 500 /\ minted_deposit_total db2 = 2 * 500.
Proof. split; [lia|]. apply (remined_deposit_counted_twice 500). lia. Defined.

(** [mark_submitted] does not look at the state it leaves: a deposit orphaned
    while its signatures were collected becomes active again. *)
Lemma mark_submitted_revives db i sig at_ r :
  find_row db i = Some r ->
  exists r', find_row (fst (mark_submitted i sig at_ db)) i = Some r' /\
    state r' = Submitted.
Proof.
  intros Hr. unfold mark_submitted. rewrite Hr. cbn [fst].
  change (find_row (add_log ?d _) i) with (find_row d i).
  rewrite find_row_update by done. rewrite decide_True, Hr by done. eauto.
Qed.

#[local] Existing Instance toy_sha2.

Lemma demo_history_A : star db_step empty_db demo_db_A.
Proof.
  eapply star_step; [eapply star_step; [apply star_refl|]|].
  - eapply (step_ingest _ (demo_block 0 1) []), demo_step_ingest; [apply map_Forall_empty|constructor].
  - eapply (step_ingest _ (demo_block 1 2)), demo_step_ingest; [|by repeat constructor].
    intros h b Hb.
    replace (indexed_blocks (fst _)) with (<[0 := demo_block 0 1]> (∅ : gmap Z NewBlock))
      in Hb by (vm_compute; reflexivity).
    apply lookup_insert_Some in Hb as [[<- <-]|[_ Hb]].
    + split; [lia|]. split; [done|]. vm_compute. congruence.
    + by rewrite lookup_empty in Hb.
Qed.

Lemma demo_history_B : star db_step demo_db_A demo_db_B.
Proof.
  assert (forall db b, indexed_blocks db = <[1 := b]> (<[0 := demo_block 0 1]> ∅) ->
    db_step db (demo_rollback db)) as Hroll.
  { intros db b Hbl. apply (step_rollback db 0 (demo_block 0 1)). by rewrite Hbl. }
  eapply star_step; [eapply star_step; [eapply star_step; [apply star_refl|]|]|].
  - eapply (Hroll _ (demo_block 1 2)). vm_compute. reflexivity.
  - eapply (step_ingest _ (demo_block 1 3) []), demo_step_ingest; [|constructor].
    intros h b Hb.
    replace (indexed_blocks (demo_rollback demo_db_A)) with (<[0 := demo_block 0 1]> (∅ : gmap Z NewBlock))
      in Hb by (vm_compute; reflexivity).
    apply lookup_insert_Some in Hb as [[<- <-]|[_ Hb]]; [|by rewrite lookup_empty in Hb].
    split; [lia|]. split; [done|]. vm_compute. congruence.
  - eapply (Hroll _ (demo_block 1 3)). vm_compute. reflexivity.
Qed.

Lemma demo_B_wf : db_wf demo_db_B.
Proof.
  eapply (star_invariant db_step db_wf db_step_wf); [|apply demo_history_B].
  eapply (star_invariant db_step db_wf db_step_wf); [apply empty_db_wf|apply demo_history_A].
Qed.

Lemma deposit_db_well_formed_witness : db_wf demo_db_A.
Proof. apply deposit_db_well_formed, demo_history_A. Defined.

Lemma audit_trail_append_only_witness : extends demo_db_A demo_db_B.
Proof. apply (audit_trail_append_only demo_db_A); [apply demo_history_A|apply demo_history_B]. Defined.

Definition demo_row (amount : Z) (s : DepositState) : DepositRow :=
  update_row (row_of (demo_candidate amount 1 2) 1) s None None None.

Lemma reindexed_deposit_stays_orphaned_witness :
  demo_row 500 Orphaned ∈
    deposit_candidates (demo_ingest 1 2 [demo_candidate 500 1 2] demo_db_B) /\
  forall r', r' ∈ deposit_candidates (demo_ingest 1 2 [demo_candidate 500 1 2] demo_db_B) ->
    same_key (demo_candidate 500 1 2) r' -> is_active (state r') = false.
Proof.
  apply (reindexed_deposit_stays_orphaned (demo_block 1 2) [demo_candidate 500 1 2] demo_db_B
           (demo_candidate 500 1 2) (demo_row 500 Orphaned)).
  - apply demo_B_wf.
  - apply demo_step_ingest; [|by repeat constructor].
    intros h b Hb.
    replace (indexed_blocks demo_db_B) with (<[0 := demo_block 0 1]> (∅ : gmap Z NewBlock))
      in Hb by (vm_compute; reflexivity).
    apply lookup_insert_Some in Hb as [[<- <-]|[_ Hb]]; [|by rewrite lookup_empty in Hb].
    split; [lia|]. split; [done|]. vm_compute. congruence.
  - apply list_elem_of_singleton. done.
  - replace (deposit_candidates demo_db_B) with [demo_row 500 Orphaned] by (vm_compute; reflexivity).
    apply list_elem_of_singleton. done.
  - repeat split.
  - done.
Defined.

(** A frozen commitment for the demo deposit, and the amount edited after it. *)
Definition demo_artifact0 (message : list byte) : NewClaimArtifact :=
  {| ca_deposit_id := 1; canonical_message := message; message_hash := sha256 message;
     ca_protocol_version := 1; ca_validator_epoch := 7;
     ca_program_id := replicate 32 (byte_of_Z 17); ca_wrapped_mint := replicate 32 (byte_of_Z 34);
     ca_created_at := 0 |}.
Definition demo_artifact : NewClaimArtifact :=
  demo_artifact0 (recompute (demo_row 500 ReadyForSignature) (demo_artifact0 [])).
Definition demo_ready (amount : Z) : Db :=
  put_artifact (with_rows empty_db [demo_row amount ReadyForSignature] 2) demo_artifact.

Lemma safeguard_signs_only_the_commitment_witness :
  exists c, snd (verify_and_load_signable_message 1 0 (demo_ready 500)) = Ok c /\
    sc_message c = canonical_message demo_artifact.
Proof.
  pose proof (safeguard_signs_only_the_commitment (demo_ready 500) 1 0
    (demo_row 500 ReadyForSignature) demo_artifact eq_refl eq_refl) as H.
  destruct (verify_and_load_signable_message 1 0 (demo_ready 500)) as [db' res].
  rewrite decide_True in H by (split; vm_compute; reflexivity).
  destruct H as (_ & c & Hc & Hm & _). exists c. split; [exact Hc|exact Hm].
Defined.

Lemma drifted_deposit_is_halted_witness :
  (exists reason, snd (verify_and_load_signable_message 1 0 (demo_ready 501)) =
     Err (MessageIntegrityMismatch 1 reason)) /\
  exists r', find_row (fst (verify_and_load_signable_message 1 0 (demo_ready 501))) 1 = Some r' /\
    state r' = IntegrityHalted.
Proof.
  apply (drifted_deposit_is_halted (demo_ready 501) 1 0 (demo_row 501 ReadyForSignature)
           (demo_row 500 ReadyForSignature) demo_artifact).
  - reflexivity.
  - reflexivity.
  - vm_compute. reflexivity.
  - repeat split; vm_compute; congruence.
  - repeat split; vm_compute; congruence.
  - repeat split; vm_compute; congruence.
  - vm_compute. congruence.
Defined.
