(* ===== verification/Indexer.v ===== *)
(** * The indexer: [relayer/src/glc/indexer.rs]

    One tick over the deposit database, in a state-and-error monad whose
    state is the node, the database and the [halted] flag.  The node and the
    clock are outside the program: [GoldcoinRpc] gives their answers as
    effects on an abstract state, so that two calls may answer differently. *)
From Stdlib Require Import ZArith Lia Strings.Byte.
From stdpp Require Import base numbers strings gmap list.
From S2P Require Import Prelude Messages Hex Rpc Deposit DepositDb.

Class GoldcoinRpc := {
  node : Type;
  get_block_count : node -> node * result RpcError Z;
  get_block_hash : Z -> node -> node * result RpcError str;
  get_block : str -> node -> node * result RpcError BlockHeader;
  get_raw_transaction : str -> node -> node * result RpcError DecodedTransaction;
  get_raw_transaction_hex : str -> node -> node * result RpcError str;
  get_tx_out_confirmed : str -> Z -> node -> node * result RpcError (option TxOut);
  (** [SystemTime::now()] in seconds *)
  now_unix : node -> node * Z
}.

(** [BadHex] is [Rpc(Malformed(e.to_string()))] for a codec error. *)
Inductive IndexerError :=
| NodeUnavailable (e : RpcError)
| RpcFailed (e : RpcError)
| BadHex (e : HexError)
| DbFailed (e : DbError)
| IndexerPanic.

Record ReorgSummary := {
  rs_fork_height : Z; rs_old_tip_height : Z; rs_orphaned_count : Z
}.

Inductive TickOutcome :=
| Progressed (blocks_indexed : Z) (reorg : option ReorgSummary)
| Halted (attempted_depth : Z).

Record RollingWindow := { window_seconds : Z; cap_atomic : Z }.
Record ValueCaps := { max_deposit_atomic : option Z; rolling_window : option RollingWindow }.

(** The fields of [IndexerConfig] the tick reads. *)
Record IndexerConfig := {
  cfg_vault_script_pubkey : list byte;
  confirmation_depth : Z;
  max_reorg_depth : Z;
  min_deposit_atomic : Z;
  value_caps : ValueCaps;
  cfg_protocol_version : Z;
  cfg_program_id : list byte;
  cfg_validator_epoch : Z;
  cfg_wrapped_mint : list byte
}.

Definition INNER_RETRY_ATTEMPTS : nat := 3.

Section indexer.
Context {G : GoldcoinRpc} {Sh : Sha2}.

Record World := { w_node : node; w_db : Db; halted : bool }.
Definition M (A : Type) : Type := World -> World * result IndexerError A.

#[export] Instance M_ret : MRet M := fun A a w => (w, Ok a).
#[export] Instance M_bind : MBind M := fun A B f m w =>
  match m w with
  | (w, Ok a) => f a w
  | (w, Err e) => (w, Err e)
  end.

Definition fail {A} (e : IndexerError) : M A := fun w => (w, Err e).
Definition with_node {A} (f : node -> node * A) : M A := fun w =>
  let (n, a) := f (w_node w) in
  ({| w_node := n; w_db := w_db w; halted := halted w |}, Ok a).
Definition query {A} (f : Db -> A) : M A := fun w => (w, Ok (f (w_db w))).
Definition with_db {A} (f : Db -> Db * result DbError A) : M A := fun w =>
  let (db, r) := f (w_db w) in
  ({| w_node := w_node w; w_db := db; halted := halted w |}, map_err DbFailed r).
Definition set_halted : M unit := fun w =>
  ({| w_node := w_node w; w_db := w_db w; halted := true |}, Ok tt).
Definition is_halted : M bool := fun w => (w, Ok (halted w)).
Definition lift {A} (r : result IndexerError A) : M A := fun w => (w, r).
Fixpoint iterM {A} (f : A -> M unit) (l : list A) : M unit :=
  match l with [] => mret tt | a :: l => f a ≫= fun _ => iterM f l end.
Fixpoint foldMM {A B} (f : B -> A -> M B) (acc : B) (l : list A) : M B :=
  match l with [] => mret acc | a :: l => f acc a ≫= fun acc => foldMM f acc l end.

(** [Self::call] *)
Definition call {A} (f : node -> node * result RpcError A) : M A :=
  with_node (call_with_retry f INNER_RETRY_ATTEMPTS) ≫= fun r =>
  lift (map_err (fun e => if is_retriable e then NodeUnavailable e else RpcFailed e) r).
Definition now : M Z := with_node now_unix.
(** [hex::decode_exact(..).map_err(Malformed)] *)
Definition decode32 (s : str) : M (list byte) :=
  lift (map_err (fun f => match f with HexErr e => BadHex e | Panicked => IndexerPanic end)
          (decode_exact 32 s)).

Context (config : IndexerConfig).
Definition vault_script_hex : str := encode (cfg_vault_script_pubkey config).

(** ** [find_fork_point]

    The loop at height [h]; [fuel] bounds the remaining turns. *)
Fixpoint fork_loop (fuel : nat) (from_height h : Z) : M (option Z) :=
  match fuel with
  | O => mret None
  | S fuel =>
      if h <? 0 then mret None
      else
        live_hash_hex ← call (get_block_hash h);
        live_hash ← decode32 live_hash_hex;
        local_hash ← query (fun db => block_hash_at_height db h);
        if bool_decide (local_hash = Some live_hash) then mret (Some h)
        else
          let depth := from_height - (h - 1) in
          if max_reorg_depth config <? depth then mret None
          else fork_loop fuel from_height (h - 1)
  end.
Definition find_fork_point (from_height : Z) : M (option Z) :=
  fork_loop (Z.to_nat (from_height + 2)) from_height from_height.

(** ** [index_block] *)

(** State, reason and recipient of one vault output. *)
Definition classify (binding : result BindingError (list byte)) (out : VaultOutputCandidate)
  : DepositState * option str * list byte :=
  match binding with
  | Err e => (Failed, Some (reason_code e), zeros 32)
  | Ok recipient =>
      if vo_amount_atomic out <? min_deposit_atomic config
      then (Failed, Some (lit "below_min_deposit"), recipient)
      else (Candidate, None, recipient)
  end.

Definition candidate_for (txid : list byte) (binding : result BindingError (list byte))
    (height : Z) (hash : list byte) (raw_tx_hex : str) (discovered_at : Z)
    (out : VaultOutputCandidate) : NewCandidate :=
  let '(st, reason, recipient) := classify binding out in
  {| nc_txid := txid; nc_vout := vo_vout out; nc_amount_atomic := vo_amount_atomic out;
     nc_recipient := recipient; nc_block_height := height; nc_block_hash := hash;
     nc_raw_tx_hex := raw_tx_hex; nc_discovered_at := discovered_at;
     nc_initial_state := st; nc_failure_reason := reason |}.

(** The loop body for one transaction id of the block. *)
Definition scan_tx (height : Z) (hash : list byte) (discovered_at : Z)
    (candidates : list NewCandidate) (txid_hex : str) : M (list NewCandidate) :=
  decoded ← call (get_raw_transaction txid_hex);
  raw_tx_hex ← call (get_raw_transaction_hex txid_hex);
  let vault_outputs := vault_output_candidates decoded vault_script_hex in
  if bool_decide (vault_outputs = []) then mret candidates
  else
    txid ← decode32 txid_hex;
    binding ← match extract_recipient_binding decoded with
              | Ok r => mret (Ok r)
              | Err (Binding e) => mret (Err e)
              | Err BindingPanic => fail IndexerPanic
              end;
    mret (candidates ++
      (candidate_for txid binding height hash raw_tx_hex discovered_at <$> vault_outputs)).

Definition index_block (height : Z) : M unit :=
  hash_hex ← call (get_block_hash height);
  hash ← decode32 hash_hex;
  header ← call (get_block hash_hex);
  prev_hash ← match previousblockhash header with
              | Some p => decode32 p
              | None => mret (zeros 32)
              end;
  discovered_at ← now;
  candidates ← foldMM (scan_tx height hash discovered_at) []
                 (if height =? 0 then [] else bh_tx header);
  _ ← with_db (ingest_block
         {| nb_height := height; nb_hash := hash; nb_prev_hash := prev_hash;
            nb_time := bh_time header; nb_indexed_at := discovered_at |} candidates);
  mret tt.

(** ** Promotion *)

Definition advance_new_candidates_to_confirming : M unit :=
  fresh ← query (fun db => candidates_by_state db Candidate);
  at_ ← now;
  iterM (fun row => with_db (transition_state (id row) Confirming at_ None None)) fresh.

Definition claim_artifact_for (row : DepositRow) (created_at : Z) : NewClaimArtifact :=
  let message :=
    build_claim_message (cfg_protocol_version config) (cfg_program_id config)
      (cfg_validator_epoch config) (txid row) (as_u32 (vout row)) (amount_atomic row)
      (recipient row) (cfg_wrapped_mint config) in
  {| ca_deposit_id := id row; canonical_message := message; message_hash := sha256 message;
     ca_protocol_version := cfg_protocol_version config;
     ca_validator_epoch := cfg_validator_epoch config;
     ca_program_id := cfg_program_id config; ca_wrapped_mint := cfg_wrapped_mint config;
     ca_created_at := created_at |}.

(** Whether the rolling cap leaves room; [None] when no window is set. *)
Definition window_full (row : DepositRow) : M bool :=
  match rolling_window (value_caps config) with
  | None => mret false
  | Some window =>
      t ← now;
      let since := wrap_i64 (t - wrap_i64 (window_seconds window)) in
      sum ← query (fun db => ready_amount_sum_since db since);
      mret (cap_atomic window <? u64_saturating_add sum (amount_atomic row))
  end.

Definition over_flat_cap (row : DepositRow) : bool :=
  match max_deposit_atomic (value_caps config) with
  | Some cap => cap <? amount_atomic row
  | None => false
  end.

Definition promote_one (tip_height : Z) (row : DepositRow) : M unit :=
  let depth := tip_height - block_height row + 1 in
  if depth <? confirmation_depth config then mret tt
  else
    unspent ← call (get_tx_out_confirmed (txid_hex row) (as_u32 (vout row)));
    match unspent with
    | None =>
        t ← now;
        with_db (transition_state (id row) Failed t (Some (lit "vault_output_spent")) None)
    | Some _ =>
        if over_flat_cap row then mret tt
        else
          full ← window_full row;
          if full : bool then mret tt
          else
            created ← now;
            t ← now;
            with_db (transition_state (id row) ReadyForSignature t None
                       (Some (claim_artifact_for row created)))
    end.

Definition promote_confirming (tip_height : Z) : M unit :=
  confirming ← query (fun db => candidates_by_state db Confirming);
  iterM (promote_one tip_height) confirming.

(** ** [tick] *)

Definition resolve_start : M (option (Z * option ReorgSummary)) :=
  tip ← query chain_tip;
  match tip with
  | None => mret (Some (0, None))
  | Some (local_height, local_hash) =>
      fork ← find_fork_point local_height;
      match fork with
      | None => mret None
      | Some fork_height =>
          if fork_height =? local_height then mret (Some (local_height + 1, None))
          else
            fork_hash_hex ← call (get_block_hash fork_height);
            fork_hash ← decode32 fork_hash_hex;
            t ← now;
            orphaned ← with_db (rollback_reorg fork_height fork_height fork_hash local_height
                                  local_hash t);
            mret (Some (fork_height + 1,
                        Some {| rs_fork_height := fork_height;
                                rs_old_tip_height := local_height;
                                rs_orphaned_count := orphaned |}))
      end
  end.

Definition tick : M TickOutcome :=
  h ← is_halted;
  if h : bool then mret (Halted (max_reorg_depth config + 1))
  else
    live_tip_height ← call get_block_count;
    start ← resolve_start;
    match start with
    | None => _ ← set_halted; mret (Halted (max_reorg_depth config + 1))
    | Some (start_height, reorg) =>
        let heights := seqZ start_height (live_tip_height - start_height + 1) in
        _ ← iterM index_block heights;
        _ ← advance_new_candidates_to_confirming;
        _ ← promote_confirming live_tip_height;
        mret (Progressed (Z.of_nat (length heights)) reorg)
    end.
End indexer.
