(* ===== verification/IndexerProps.v ===== *)
(** * Properties of the indexer

    A small Hoare logic over the database part of the monad; the
    well-formedness of the database through every tick (errors included), the
    fork point on a steady chain, what promotion requires, and the halt. *)
From Stdlib Require Import ZArith Lia Strings.Byte.
From stdpp Require Import base numbers strings gmap list.
From S2P Require Import Prelude Messages Hex Rpc Deposit DepositDb DepositDbProps Indexer.

Section triples.
Context {G : GoldcoinRpc}.

Definition triple {A} (P : Db -> Prop) (m : M A) (Q : A -> Db -> Prop) (E : Db -> Prop) : Prop :=
  forall w w' r, P (w_db w) -> m w = (w', r) ->
    match r with Ok a => Q a (w_db w') | Err _ => E (w_db w') end.

Lemma triple_ret {A} (a : A) P Q E : (forall db, P db -> Q a db) -> triple P (mret a) Q E.
Proof. intros H w w' r HP [= <- <-]. auto. Qed.

Lemma triple_bind {A B} (m : M A) (f : A -> M B) P Q R E :
  triple P m Q E -> (forall a, triple (Q a) (f a) R E) -> triple P (m ≫= f) R E.
Proof.
  intros Hm Hf w w' r HP. unfold mbind, M_bind.
  destruct (m w) as [w1 [a|e]] eqn:Em; intros H; specialize (Hm _ _ _ HP Em); cbn in Hm.
  - by eapply Hf.
  - by injection H as <- <-.
Qed.

Lemma triple_weaken {A} (m : M A) (P P' : Db -> Prop) (Q Q' : A -> Db -> Prop) (E E' : Db -> Prop) :
  triple P m Q E -> (forall db, P' db -> P db) -> (forall a db, Q a db -> Q' a db) ->
  (forall db, E db -> E' db) -> triple P' m Q' E'.
Proof.
  intros Hm HP HQ HE w w' r Hp Hr. specialize (Hm _ _ _ (HP _ Hp) Hr). destruct r; auto.
Qed.

Lemma triple_pre {A} (m : M A) (P P' : Db -> Prop) Q E :
  triple P m Q E -> (forall db, P' db -> P db) -> triple P' m Q E.
Proof. intros Hm HP. by eapply triple_weaken. Qed.

Lemma triple_err {A} (m : M A) P Q (E E' : Db -> Prop) :
  triple P m Q E -> (forall db, E db -> E' db) -> triple P m Q E'.
Proof. intros Hm HE. by eapply triple_weaken. Qed.

Lemma triple_lift {A} (r : result IndexerError A) P :
  triple P (lift r) (fun a db => P db /\ r = Ok a) P.
Proof. intros w w' r' HP [= <- <-]. by destruct r. Qed.

Lemma triple_query {A} (f : Db -> A) P E : triple P (query f) (fun a db => P db /\ a = f db) E.
Proof. intros w w' r HP [= <- <-]. done. Qed.

Lemma triple_with_node {A} (f : node -> node * A) P E :
  triple P (with_node f) (fun a db => P db /\ exists n n', f n = (n', a)) E.
Proof.
  intros w w' r HP. unfold with_node. destruct (f (w_node w)) as [n a] eqn:Ef.
  intros [= <- <-]. eauto.
Qed.

Lemma triple_with_db {A} (f : Db -> Db * result DbError A) (P : Db -> Prop)
    (Q : A -> Db -> Prop) (E : Db -> Prop) :
  (forall db, P db -> match f db with (db', Ok a) => Q a db' | (db', Err _) => E db' end) ->
  triple P (with_db f) Q E.
Proof.
  intros H w w' r HP. unfold with_db. specialize (H _ HP).
  destruct (f (w_db w)) as [db' [a|e]]; intros [= <- <-]; exact H.
Qed.

Lemma triple_call {A} (f : node -> node * result RpcError A) P :
  triple P (call f) (fun a db => P db /\ exists n n', f n = (n', Ok a)) P.
Proof.
  unfold call. eapply triple_bind; [apply triple_with_node|]. cbn. intros r w w' r' [HP (n & n' & Hf)].
  unfold lift. intros [= <- <-]. destruct r as [a|e]; cbn; [|done]. split; [done|].
  change (retry_loop f 2 n = (n', Ok a)) in Hf. apply retry_loop_spec in Hf as (k & s1 & _ & _ & Hs & _). eauto.
Qed.

Lemma triple_decode32 s P :
  triple P (decode32 s) (fun bs db => P db /\ decode_exact 32 s = Ok bs) P.
Proof.
  unfold decode32. eapply triple_weaken; [apply triple_lift|done| |done].
  intros a db [HP Ha]. split; [done|]. by apply map_err_Ok in Ha.
Qed.

Lemma triple_foldMM {A B} (f : B -> A -> M B) acc l (I : B -> Db -> Prop) E :
  (forall acc a, triple (I acc) (f acc a) I E) -> triple (I acc) (foldMM f acc l) I E.
Proof.
  intros Hf. revert acc. induction l as [|a l IH]; intros acc; cbn [foldMM].
  - by apply triple_ret.
  - eapply triple_bind; [apply Hf|]. intros acc'. apply IH.
Qed.

(** Frames on the left of a precondition. *)
Lemma triple_pure {A} (m : M A) (p : Prop) P Q E :
  (p -> triple P m Q E) -> triple (fun db => P db /\ p) m Q E.
Proof. intros H w w' r [HP Hp]. by apply H. Qed.
End triples.

Section indexer_props.
Context {G : GoldcoinRpc} {Sh : Sha2} (config : IndexerConfig).

(** A block hash belongs to one height. *)
Context (height_of : list byte -> Z).
Hypothesis node_heights : forall h n n' s hash,
  get_block_hash h n = (n', Ok s) -> decode_exact 32 s = Ok hash -> height_of hash = h.

Definition inv (db : Db) : Prop :=
  db_wf db /\ map_Forall (fun h b => height_of (nb_hash b) = h) (indexed_blocks db).

(** The next block to index is [h]. *)
Definition next_height (h : Z) (db : Db) : Prop :=
  match chain_state db with None => h = 0 | Some (tip, _) => h = tip + 1 end.

Lemma ingest_blocks b cs db :
  indexed_blocks (fst (ingest_block b cs db)) = insert_block (indexed_blocks db) b /\
  chain_state (fst (ingest_block b cs db)) = Some (nb_height b, nb_hash b).
Proof. rewrite fst_ingest_block. apply ingest_candidates_blocks. Qed.

Lemma ingest_inv b cs db :
  inv db -> next_height (nb_height b) db -> height_of (nb_hash b) = nb_height b ->
  Forall (fun c => nc_block_height c = nb_height b /\ nc_block_hash c = nb_hash b) cs ->
  inv (fst (ingest_block b cs db)) /\ next_height (nb_height b + 1) (fst (ingest_block b cs db)).
Proof.
  intros [Hwf Hh] Hn Hb Hcs.
  assert (forall h b', indexed_blocks db !! h = Some b' -> h < nb_height b) as Hlt.
  { intros h b' Hl. unfold next_height in Hn.
    destruct (chain_state db) as [[tip hash]|] eqn:Et.
    - destruct (wf_tip _ Hwf _ _ Et) as [_ Hnone].
      destruct (Z.le_gt_cases h tip); [lia|]. rewrite Hnone in Hl by lia. done.
    - rewrite (wf_fresh _ Hwf Et), lookup_empty in Hl. done. }
  assert (ingest_pre b cs db) as Hpre.
  { constructor; [| |done].
    - intros h b' Hl. specialize (Hlt _ _ Hl). lia.
    - intros h b' Hl. pose proof (Hlt _ _ Hl). specialize (Hh _ _ Hl). cbn in Hh.
      split; [lia|]. intros He. rewrite He in Hh. lia. }
  destruct (ingest_blocks b cs db) as [Hbl Htip]. split; [split|].
  - by apply ingest_block_wf.
  - rewrite Hbl. unfold insert_block. case_decide; [done|]. by apply map_Forall_insert_2.
  - unfold next_height. by rewrite Htip.
Qed.

(** ** Indexing a block *)

Definition of_block (h : Z) (hash : list byte) (cs : list NewCandidate) : Prop :=
  Forall (fun c => nc_block_height c = h /\ nc_block_hash c = hash) cs.

Lemma candidates_of_block txid binding h hash raw at_ outs :
  of_block h hash (candidate_for config txid binding h hash raw at_ <$> outs).
Proof.
  apply Forall_fmap, Forall_forall. intros out _. unfold candidate_for. cbn.
  by destruct (classify config binding out) as [[]].
Qed.

Lemma scan_tx_triple P h hash at_ cs txid_hex :
  triple (fun db => P db /\ of_block h hash cs) (scan_tx config h hash at_ cs txid_hex)
    (fun cs db => P db /\ of_block h hash cs) P.
Proof.
  apply triple_pure. intros Hcs. unfold scan_tx.
  eapply triple_bind; [apply triple_call|]. intros decoded. apply triple_pure. intros _.
  eapply triple_bind; [apply triple_call|]. intros raw. apply triple_pure. intros _.
  case_bool_decide; [by apply triple_ret|].
  eapply triple_bind; [apply triple_decode32|]. intros txid. apply triple_pure. intros _.
  eapply (triple_bind _ _ P (fun _ => P)).
  - destruct (extract_recipient_binding decoded) as [r|[e|]]; [by apply triple_ret..|].
    intros w w' r HP [= <- <-]. done.
  - intros binding. apply triple_ret. intros db HP. split; [done|].
    apply Forall_app. split; [done|]. apply candidates_of_block.
Qed.

Lemma index_block_triple h :
  triple (fun db => inv db /\ next_height h db) (index_block config h)
    (fun _ db => inv db /\ next_height (h + 1) db) inv.
Proof.
  unfold index_block.
  set (E := fun db => inv db /\ (next_height h db \/ next_height (h + 1) db)).
  apply (triple_weaken _ (fun db => inv db /\ next_height h db) _
           (fun _ db => inv db /\ next_height (h + 1) db) _ E);
    [|done|done|by intros ? [? _]].
  assert (forall A (m : M A) Q, triple (fun db => inv db /\ next_height h db) m Q
    (fun db => inv db /\ next_height h db) -> triple (fun db => inv db /\ next_height h db) m Q E)
    as HE.
  { intros A m Q Hm. eapply triple_weaken; [exact Hm|done|done|]. intros db [? ?]. split; auto. }
  eapply triple_bind; [apply HE, triple_call|]. intros hash_hex.
  apply triple_pure. intros (n & n' & Hn).
  eapply triple_bind; [apply HE, triple_decode32|]. intros hash. apply triple_pure. intros Hd.
  pose proof (node_heights _ _ _ _ _ Hn Hd) as Hhash.
  eapply triple_bind; [apply HE, triple_call|]. intros header. apply triple_pure. intros _.
  eapply (triple_bind _ _ _ (fun _ db => inv db /\ next_height h db)).
  { destruct (previousblockhash header) as [p|]; [|by apply triple_ret].
    apply HE. eapply triple_weaken; [apply (triple_decode32 _ (fun db => inv db /\ next_height h db))|done
      |by intros ?? [? _]|done]. }
  intros prev. eapply triple_bind; [apply triple_with_node|]. intros at_.
  apply triple_pure. intros _.
  eapply (triple_bind _ _ _ (fun cs db => (inv db /\ next_height h db) /\ of_block h hash cs)).
  { apply HE.
    eapply triple_weaken; [apply (triple_foldMM (scan_tx config h hash at_) []
        (if h =? 0 then [] else bh_tx header)
        (fun cs db => (inv db /\ next_height h db) /\ of_block h hash cs)
        (fun db => inv db /\ next_height h db))|..];
      [|by intros db Hx; split; [exact Hx|apply Forall_nil]|done|done].
    intros acc tx. apply scan_tx_triple. }
  intros cs. eapply (triple_bind _ _ _ (fun _ db => inv db /\ next_height (h + 1) db));
    [|intros; by apply triple_ret].
  apply triple_with_db. intros db [[Hinv Hnx] Hcs].
  match goal with |- context [ingest_block ?b cs db] =>
    pose proof (ingest_inv b cs db Hinv Hnx Hhash Hcs) as [Hi Hn'];
    destruct (ingest_block b cs db) as [db' [ids|e]] eqn:Eb end;
    cbn in Hi, Hn'; [done|]. split; auto.
Qed.

Lemma index_blocks_triple n h :
  triple (fun db => inv db /\ next_height h db)
    (iterM (index_block config) (seqZ h (Z.of_nat n))) (fun _ => inv) inv.
Proof.
  revert h. induction n as [|n IH]; intros h.
  - apply triple_ret. by intros db [? _].
  - rewrite seqZ_cons by lia. cbn [iterM].
    eapply triple_bind; [apply index_block_triple|]. intros u. cbn beta.
    replace (Z.succ h) with (h + 1) by lia.
    replace (Z.pred (Z.of_nat (S n))) with (Z.of_nat n) by lia. apply IH.
Qed.

(** ** The fork point and the rollback *)

Lemma fork_loop_triple fuel from h P :
  triple P (fork_loop config fuel from h)
    (fun o db => P db /\ forall f, o = Some f -> is_Some (indexed_blocks db !! f)) P.
Proof.
  revert h. induction fuel as [|fuel IH]; intros h; cbn [fork_loop]; [by apply triple_ret|].
  destruct (h <? 0); [by apply triple_ret|].
  eapply triple_bind; [apply triple_call|]. intros s. apply triple_pure. intros _.
  eapply triple_bind; [apply triple_decode32|]. intros hash. apply triple_pure. intros _.
  eapply triple_bind; [apply triple_query|]. intros local. cbn beta.
  case_bool_decide as Hl.
  - apply triple_ret. intros db [HP ->]. split; [done|]. intros f [= <-].
    unfold block_hash_at_height in Hl. destruct (indexed_blocks db !! h); [eauto|done].
  - eapply (triple_pre _ P); [|by intros ? [? _]].
    destruct (_ <? _); [by apply triple_ret|]. apply IH.
Qed.

Lemma rollback_inv fork hash oh ohash at_ db :
  inv db -> is_Some (indexed_blocks db !! fork) ->
  inv (fst (rollback_reorg fork fork hash oh ohash at_ db)) /\
  next_height (fork + 1) (fst (rollback_reorg fork fork hash oh ohash at_ db)).
Proof.
  intros [Hwf Hh] [b Hb].
  destruct (rollback_reorg_effect fork fork hash oh ohash at_ db (wf_ids _ Hwf))
    as (_ & _ & _ & Hbl & Htip & _ & _).
  split; [split|].
  - by eapply rollback_reorg_wf.
  - rewrite Hbl. intros h b' [Hl _]%map_lookup_filter_Some. by apply Hh.
  - unfold next_height. by rewrite Htip.
Qed.

Lemma resolve_start_triple :
  triple inv (resolve_start config)
    (fun o db => inv db /\ forall h s, o = Some (h, s) -> next_height h db) inv.
Proof.
  unfold resolve_start. eapply triple_bind; [apply triple_query|]. intros tip. cbn beta.
  destruct tip as [[local lhash]|].
  - eapply triple_bind; [eapply triple_err; [apply fork_loop_triple|by intros ? [? _]]|].
    intros [fork|]; cbn beta.
    2: { apply triple_ret. by intros db [[? _] _]. }
    destruct (Z.eqb_spec fork local) as [->|].
    + apply triple_ret. intros db [[Hinv Ht] _]. split; [done|]. intros h s [= <- _].
      unfold next_height, chain_tip in *. by rewrite <- Ht.
    + apply (triple_pre _ (fun db => inv db /\ is_Some (indexed_blocks db !! fork)));
        [|intros db [[? _] Hf]; auto].
      assert (forall A (m : M A) Q,
        triple (fun db => inv db /\ is_Some (indexed_blocks db !! fork)) m Q
          (fun db => inv db /\ is_Some (indexed_blocks db !! fork)) ->
        triple (fun db => inv db /\ is_Some (indexed_blocks db !! fork)) m Q inv) as HE.
      { intros A m Q Hm. eapply triple_err; [exact Hm|by intros ? [? _]]. }
      eapply triple_bind; [apply HE, triple_call|]. intros fhex. apply triple_pure. intros _.
      eapply triple_bind; [apply HE, triple_decode32|]. intros fhash. apply triple_pure. intros _.
      eapply triple_bind; [apply triple_with_node|]. intros t. apply triple_pure. intros _.
      eapply (triple_bind _ _ _ (fun _ db => inv db /\ next_height (fork + 1) db)).
      * apply triple_with_db. intros db [Hinv Hf].
        destruct (rollback_inv fork fhash local lhash t db Hinv Hf) as [Hi Hn].
        by destruct (rollback_reorg _ _ _ _ _ _ _) as [db' [c|e]].
      * intros c. apply triple_ret. intros db [? ?]. split; [done|]. by intros h s [= <- _].
  - apply triple_ret. intros db [Hinv Ht]. split; [done|]. intros h s [= <- _].
    unfold next_height, chain_tip in *. by rewrite <- Ht.
Qed.

(** ** Transitions of the rows a query returned *)

Definition row_active (db : Db) (i : Z) : Prop :=
  exists r, find_row db i = Some r /\ is_active (state r) = true.

Lemma transition_inv i to at_ reason art db :
  inv db -> row_active db i -> inv (fst (transition_state i to at_ reason art db)) /\
  forall j, j <> i ->
    find_row (fst (transition_state i to at_ reason art db)) j = find_row db j.
Proof.
  intros [Hwf Hh] (r & Hr & Ha). split; [split|].
  - eapply db_step_wf; [exact Hwf|]. apply step_transition. intros r' Hr' _. congruence.
  - unfold transition_state. rewrite Hr. destruct art as [a|]; [case_decide|]; done.
  - intros j Hj. unfold transition_state. rewrite Hr.
    assert (forall l f, (forall r, id (f r) = id r) ->
      find_row (add_log (update_where db i f) l) j = find_row db j) as Hf.
    { intros l f Hf. change (find_row (add_log ?d l) j) with (find_row d j).
      rewrite find_row_update by done. by rewrite decide_False. }
    destruct art as [a|]; [case_decide; [|done]|]; by apply Hf.
Qed.

Lemma iterM_rows (f : DepositRow -> M unit) :
  (forall r rest, id r ∉ id <$> rest ->
     triple (fun db => inv db /\ row_active db (id r) /\ Forall (fun r => row_active db (id r)) rest)
       (f r) (fun _ db => inv db /\ Forall (fun r => row_active db (id r)) rest) inv) ->
  forall rows, NoDup (id <$> rows) ->
  triple (fun db => inv db /\ Forall (fun r => row_active db (id r)) rows) (iterM f rows)
    (fun _ => inv) inv.
Proof.
  intros Hf. induction rows as [|r rows IH]; intros Hnd; cbn [iterM].
  - apply triple_ret. by intros db [? _].
  - cbn in Hnd. apply list.NoDup_cons in Hnd as [Hn Hnd].
    eapply triple_bind; [|intros u; by apply IH].
    eapply triple_weaken; [by apply Hf|..]; [|done|done].
    intros db [Hi [? ?]%Forall_cons]. auto.
Qed.

Lemma transition_rows_triple i to at_ reason art rest :
  i ∉ id <$> rest ->
  triple (fun db => inv db /\ row_active db i /\ Forall (fun r => row_active db (id r)) rest)
    (with_db (transition_state i to at_ reason art))
    (fun _ db => inv db /\ Forall (fun r => row_active db (id r)) rest) inv.
Proof.
  intros Hn. apply triple_with_db. intros db (Hinv & Ha & Hrest).
  destruct (transition_inv i to at_ reason art db Hinv Ha) as [Hi Hf].
  destruct (transition_state _ _ _ _ _ _) as [db' [u|e]]; cbn in *; [|done].
  split; [done|]. apply Forall_forall. intros r Hr.
  rewrite Forall_forall in Hrest. destruct (Hrest _ Hr) as (r' & Hr' & Hact).
  exists r'. split; [|done]. rewrite Hf; [done|]. intros <-.
  apply Hn. apply list_elem_of_fmap. eauto.
Qed.

Lemma by_state_rows db s :
  inv db -> is_active s = true ->
  NoDup (id <$> candidates_by_state db s) /\
  Forall (fun r => row_active db (id r)) (candidates_by_state db s).
Proof.
  intros [Hwf _] Hs. split.
  - eapply sublist_NoDup; [apply (wf_ids _ Hwf)|apply fmap_sublist, sublist_filter].
  - apply Forall_forall. intros r [Hst Hr]%list_elem_of_filter. exists r.
    split; [|by rewrite Hst]. apply find_row_unique; [apply (wf_ids _ Hwf)|done].
Qed.

(** The rows a state query returns, processed one after the other. *)
Lemma for_rows_triple s (f : DepositRow -> M unit) rows :
  is_active s = true ->
  (forall r rest, id r ∉ id <$> rest ->
     triple (fun db => inv db /\ row_active db (id r) /\ Forall (fun r => row_active db (id r)) rest)
       (f r) (fun _ db => inv db /\ Forall (fun r => row_active db (id r)) rest) inv) ->
  triple (fun db => inv db /\ rows = candidates_by_state db s) (iterM f rows) (fun _ => inv) inv.
Proof.
  intros Hs Hf w w' r [Hinv ->]. destruct (by_state_rows _ s Hinv Hs) as [Hnd Hact].
  by apply iterM_rows.
Qed.

Lemma advance_triple : triple inv advance_new_candidates_to_confirming (fun _ => inv) inv.
Proof.
  unfold advance_new_candidates_to_confirming.
  eapply triple_bind; [apply triple_query|]. intros rows.
  eapply triple_bind; [apply triple_with_node|]. intros t. apply triple_pure. intros _.
  apply for_rows_triple; [done|]. intros r rest Hn. by apply transition_rows_triple.
Qed.

Lemma promote_one_triple tip r rest :
  id r ∉ id <$> rest ->
  triple (fun db => inv db /\ row_active db (id r) /\ Forall (fun r => row_active db (id r)) rest)
    (promote_one config tip r)
    (fun _ db => inv db /\ Forall (fun r => row_active db (id r)) rest) inv.
Proof.
  intros Hn. unfold promote_one.
  set (P := fun db => inv db /\ row_active db (id r) /\ Forall (fun r => row_active db (id r)) rest).
  assert (forall A (m : M A) Q, triple P m Q P -> triple P m Q inv) as HE.
  { intros A m Q Hm. eapply triple_err; [exact Hm|by intros ? [? _]]. }
  assert (triple P (mret tt)
    (fun _ db => inv db /\ Forall (fun r => row_active db (id r)) rest) inv) as Hret
    by (apply triple_ret; by intros db (? & _ & ?)).
  destruct (_ <? _); [exact Hret|].
  eapply triple_bind; [apply HE, triple_call|]. intros [o|].
  - apply triple_pure. intros _. destruct (over_flat_cap config r); [exact Hret|].
    eapply (triple_bind _ _ _ (fun _ => P)).
    + unfold window_full. destruct (rolling_window _) as [win|]; [|by apply triple_ret].
      eapply triple_bind; [apply triple_with_node|]. intros t. apply triple_pure. intros _.
      eapply triple_bind; [apply triple_query|]. intros sum.
      apply (triple_pre _ P); [by apply triple_ret|by intros ? [? _]].
    + intros [|]; [exact Hret|].
      eapply triple_bind; [apply triple_with_node|]. intros t. apply triple_pure. intros _.
      eapply triple_bind; [apply triple_with_node|]. intros t'. apply triple_pure. intros _.
      by apply transition_rows_triple.
  - apply triple_pure. intros _.
    eapply triple_bind; [apply triple_with_node|]. intros t. apply triple_pure. intros _.
    by apply transition_rows_triple.
Qed.

Lemma tick_triple : triple inv (tick config) (fun _ => inv) inv.
Proof.
  unfold tick. eapply (triple_bind _ _ _ (fun _ => inv)).
  { intros w w' r Hi [= <- <-]. exact Hi. }
  intros [|]; [by apply triple_ret|].
  eapply triple_bind; [apply triple_call|]. intros live. apply triple_pure. intros _.
  eapply triple_bind; [apply resolve_start_triple|]. intros [[start reorg]|].
  - eapply (triple_bind _ _ _ (fun _ => inv)).
    + apply (triple_pre _ (fun db => inv db /\ next_height start db));
        [|intros db [? Hn]; split; [done|by eapply Hn]].
      destruct (Z.le_gt_cases 0 (live - start + 1)) as [Hle|Hgt].
      * rewrite <- (Z2Nat.id (live - start + 1)) by done. apply index_blocks_triple.
      * rewrite seqZ_nil by lia. apply triple_ret. by intros db [? _].
    + intros u. eapply triple_bind; [apply advance_triple|]. intros u'. cbn beta.
      eapply (triple_bind _ _ _ (fun _ => inv)); [|intros; by apply triple_ret].
      unfold promote_confirming. eapply triple_bind; [apply triple_query|]. intros rows.
      apply for_rows_triple; [done|]. intros r rest. apply promote_one_triple.
  - eapply (triple_bind _ _ _ (fun _ => inv)).
    + intros w w' r [Hi _] [= <- <-]. exact Hi.
    + intros _. by apply triple_ret.
Qed.

(** One whole indexer tick, on every path through it (reorg, halt, node error
    half-way, promotion), keeps the deposit database well formed. *)
Theorem tick_preserves_database w w' r :
  inv (w_db w) -> tick config w = (w', r) -> inv (w_db w').
Proof. intros Hi Ht. pose proof (tick_triple w w' r Hi Ht). by destruct r. Qed.
End indexer_props.

(** ** The fork point on a steady chain *)

Section fork.
Context {G : GoldcoinRpc} {Sh : Sha2} (config : IndexerConfig).
Context (chain : Z -> list byte) (top : Z).
Hypothesis chain_len : forall h, length (chain h) = 32%nat.
(** The node answers the same hash for a height throughout the walk. *)
Hypothesis steady :
  forall h n, 0 <= h <= top -> get_block_hash h n = (n, Ok (encode (chain h))).

(** The local block at [h] is the live one. *)
Definition agrees (db : Db) (h : Z) : Prop := block_hash_at_height db h = Some (chain h).

#[local] Instance agrees_dec db h : Decision (agrees db h).
Proof. unfold agrees. apply _. Defined.

Lemma call_steady h w :
  0 <= h <= top -> (call (get_block_hash h) ≫= decode32) w = (w, Ok (chain h)).
Proof.
  intros Hh. unfold call, with_node, mbind, M_bind. unfold INNER_RETRY_ATTEMPTS, call_with_retry.
  cbn [Nat.sub retry_loop]. rewrite steady by done. cbn. unfold decode32, lift.
  rewrite decode_exact_encode by apply chain_len. by destruct w.
Qed.

(** One turn of the loop. *)
Lemma fork_loop_turn fuel from h w :
  0 <= h <= top ->
  fork_loop config (S fuel) from h w =
  if bool_decide (agrees (w_db w) h) then (w, Ok (Some h))
  else if max_reorg_depth config <? from - (h - 1) then (w, Ok None)
  else fork_loop config fuel from (h - 1) w.
Proof.
  intros Hh. cbn [fork_loop]. rewrite (proj2 (Z.ltb_ge h 0)) by lia.
  pose proof (call_steady h w Hh) as Hc. unfold mbind, M_bind in Hc |- *.
  destruct (call (get_block_hash h) w) as [w1 [s|e]]; [|done]. rewrite Hc. cbn.
  unfold agrees.
  destruct (decide (block_hash_at_height (w_db w) h = Some (chain h))).
  - by rewrite !bool_decide_true.
  - rewrite !bool_decide_false by done. by destruct (_ <? _).
Qed.

(** What a walk from [h] downwards must return. *)
Definition fork_result (db : Db) (from h : Z) (o : option Z) : Prop :=
  match o with
  | Some f => 0 <= f <= h /\ agrees db f /\ from - f <= max_reorg_depth config /\
              forall h', f < h' <= h -> ~ agrees db h'
  | None => forall h', 0 <= h' <= h -> from - h' <= max_reorg_depth config -> ~ agrees db h'
  end.

Lemma fork_loop_spec fuel from h w :
  h <= top -> h + 2 <= Z.of_nat fuel -> from - h <= max_reorg_depth config ->
  exists o, fork_loop config fuel from h w = (w, Ok o) /\ fork_result (w_db w) from h o.
Proof.
  revert h. induction fuel as [|fuel IH]; intros h Ht Hf Hd.
  - exists None. split; [done|]. intros h' Hh'. lia.
  - destruct (Z.lt_ge_cases h 0) as [Hneg|Hpos].
    + exists None. cbn [fork_loop]. rewrite (proj2 (Z.ltb_lt h 0)) by done.
      split; [done|]. intros h' Hh'. lia.
    + rewrite fork_loop_turn by lia. case_bool_decide as Ha.
      * exists (Some h). split; [done|]. split_and!; try done; lia.
      * destruct (Z.ltb_spec (max_reorg_depth config) (from - (h - 1))) as [Hm|Hm].
        { exists None. split; [done|]. intros h' Hh' Hd' Ha'.
          assert (h' = h) as -> by lia. done. }
        destruct (IH (h - 1)) as (o & -> & Ho); [lia|lia|lia|]. exists o. split; [done|].
        destruct o as [f|]; cbn in Ho |- *.
        { destruct Ho as (? & ? & ? & Hlow). split_and!; try done; try lia. intros h' Hh'.
          destruct (Z.eq_dec h' h) as [->|]; [done|]. apply Hlow. lia. }
        intros h' Hh' Hd' Ha'. destruct (Z.eq_dec h' h) as [->|]; [done|].
        by apply (Ho h'); [lia|lia|].
Qed.

(** With a node that answers from one steady chain, the fork search ends and
    returns the highest height at or below the start, within the allowed depth, at which
    the stored block hash agrees with the node, and None when no height within the depth
    agrees; it changes nothing. *)
Theorem find_fork_point_highest_agreement from w :
  0 <= from <= top -> 0 <= max_reorg_depth config ->
  exists o, find_fork_point config from w = (w, Ok o) /\ fork_result (w_db w) from from o.
Proof. intros Hf Hm. apply fork_loop_spec; lia. Qed.
End fork.

(** ** Promotion *)

Section promotion.
Context {G : GoldcoinRpc} {Sh : Sha2} (config : IndexerConfig).

Lemma with_node_db {A} (f : node -> node * A) w w' r :
  with_node f w = (w', r) -> w_db w' = w_db w /\ exists a, r = Ok a /\ exists n n', f n = (n', a).
Proof. unfold with_node. destruct (f (w_node w)) eqn:E. intros [= <- <-]. eauto 10. Qed.

Lemma call_db {A} (f : node -> node * result RpcError A) w w' r :
  call f w = (w', r) -> w_db w' = w_db w /\ forall a, r = Ok a -> exists n n', f n = (n', Ok a).
Proof.
  intros H. pose proof (triple_call f (fun db => db = w_db w) w w' r eq_refl H) as Ht.
  destruct r as [a|e]; [|by split]. destruct Ht as [? Hf]. split; [done|].
  intros a' [= <-]. exact Hf.
Qed.

Lemma bind_run {A B} (m : M A) (f : A -> M B) w w' b :
  (m ≫= f) w = (w', Ok b) -> exists w1 a, m w = (w1, Ok a) /\ f a w1 = (w', Ok b).
Proof.
  unfold mbind, M_bind. destruct (m w) as [w1 [a|e]]; [|done]. eauto.
Qed.

(** What a promotion to [ReadyForSignature] required. *)
Record promotion_ok (tip : Z) (row : DepositRow) (db : Db) : Prop := {
  pr_depth : confirmation_depth config <= tip - block_height row + 1;
  pr_unspent : exists n n' out,
    get_tx_out_confirmed (txid_hex row) (as_u32 (vout row)) n = (n', Ok (Some out));
  pr_flat : forall cap, max_deposit_atomic (value_caps config) = Some cap ->
    amount_atomic row <= cap;
  pr_window : forall win, rolling_window (value_caps config) = Some win ->
    exists n n' t, now_unix n = (n', t) /\
      u64_saturating_add
        (ready_amount_sum_since db (wrap_i64 (t - wrap_i64 (window_seconds win))))
        (amount_atomic row) <= cap_atomic win
}.

Lemma artifact_recompute row r t :
  txid r = txid row -> vout r = vout row -> amount_atomic r = amount_atomic row ->
  recipient r = recipient row ->
  recompute r (claim_artifact_for config row t) =
  canonical_message (claim_artifact_for config row t).
Proof. unfold recompute, claim_artifact_for. cbn. by intros -> -> -> ->. Qed.

(** When the indexer moves a Confirming deposit to ReadyForSignature, the deposit
    has the configured depth, the node reported its output unspent, the flat cap and the
    rolling-window cap (at the clock's time) hold with it included, and the safeguard
    then returns a signable claim for exactly the row's amount and recipient. *)
Theorem promoted_deposit_is_confirmed_and_signable tip row w w' r' at_ :
  find_row (w_db w) (id row) = Some row -> state row = Confirming ->
  promote_one config tip row w = (w', Ok tt) ->
  find_row (w_db w') (id row) = Some r' -> state r' = ReadyForSignature ->
  promotion_ok tip row (w_db w) /\
  exists c, verify_and_load_signable_message (id row) at_ (w_db w') = (w_db w', Ok c) /\
    sc_amount_atomic c = amount_atomic row /\ sc_recipient c = recipient row.
Proof.
  intros Hrow Hst Hrun Hr' Hready.
  assert (w_db w' = w_db w -> False) as Hsame by (intros E; rewrite E in Hr'; congruence).
  unfold promote_one in Hrun.
  destruct (Z.ltb_spec (tip - block_height row + 1) (confirmation_depth config)) as [|Hdepth].
  { injection Hrun as <-. by destruct Hsame. }
  apply bind_run in Hrun as (w1 & o & Hcall & Hrun).
  apply call_db in Hcall as [Hdb1 Hnode]. specialize (Hnode _ eq_refl).
  destruct o as [out|].
  2: { apply bind_run in Hrun as (w2 & t & Hn & Hrun). apply with_node_db in Hn as [Hdb2 _].
       unfold with_db, transition_state in Hrun. rewrite Hdb2, Hdb1, Hrow in Hrun.
       injection Hrun as <-. cbn [w_db] in Hr'.
       change (find_row (add_log ?d _) ?i) with (find_row d i) in Hr'.
       rewrite find_row_update, decide_True, Hrow in Hr' by done. cbn in Hr'.
       injection Hr' as <-. discriminate Hready. }
  destruct (over_flat_cap config row) eqn:Hflat.
  { injection Hrun as <-. by destruct Hsame. }
  apply bind_run in Hrun as (w2 & full & Hwin & Hrun).
  assert (w_db w2 = w_db w1 /\ (full = false ->
    forall win, rolling_window (value_caps config) = Some win ->
    exists n n' t, now_unix n = (n', t) /\
      u64_saturating_add (ready_amount_sum_since (w_db w1)
        (wrap_i64 (t - wrap_i64 (window_seconds win)))) (amount_atomic row)
      <= cap_atomic win)) as [Hdb2 Hwin'].
  { unfold window_full in Hwin. destruct (rolling_window _) as [win|].
    - apply bind_run in Hwin as (w3 & t & Hn & Hwin).
      apply with_node_db in Hn as (Hdb3 & ? & [= <-] & n & n' & Hclock).
      injection Hwin as <- <-. split; [done|]. intros Hlt win' [= <-].
      rewrite <- Hdb3. bools. eauto 10.
    - injection Hwin as <- <-. split; [done|]. by intros _ ? [=]. }
  destruct full; [injection Hrun as <-; destruct Hsame; congruence|].
  apply bind_run in Hrun as (w3 & t & Hn3 & Hrun). apply with_node_db in Hn3 as [Hdb3 _].
  apply bind_run in Hrun as (w4 & t' & Hn4 & Hrun). apply with_node_db in Hn4 as [Hdb4 _].
  assert (w_db w4 = w_db w) as Hdb by congruence.
  split.
  - rewrite Hdb1 in Hwin'. constructor; [done| |intros cap Hc|by apply Hwin'].
    + destruct Hnode as (n & n' & Hf). eauto.
    + unfold over_flat_cap in Hflat. rewrite Hc in Hflat. by bools.
  - unfold with_db, transition_state in Hrun. rewrite Hdb, Hrow in Hrun.
    rewrite (decide_True (P := ReadyForSignature = ReadyForSignature)) in Hrun by done.
    case_decide as Ha; [|discriminate Hrun]. injection Hrun as <-. cbn [w_db].
    unfold verify_and_load_signable_message.
    change (find_row (put_artifact (add_log ?d _) _) ?i) with (find_row d i).
    rewrite find_row_update, decide_True, Hrow by done.
    cbn [claim_artifacts put_artifact fmap option_fmap option_map].
    change (ca_deposit_id (claim_artifact_for config row t)) with (id row).
    rewrite lookup_insert_eq.
    rewrite (bool_decide_true (sha256 _ = _)) by done.
    rewrite artifact_recompute by done. rewrite bool_decide_true by done. cbn [negb orb].
    eexists. split; [reflexivity|]. done.
Qed.

(** After a reorg deeper than the limit the halted indexer's tick neither writes
    the database nor advances: it returns Halted at once, forever. *)
Theorem halted_indexer_does_nothing w :
  halted w = true ->
  tick config w = (w, Ok (Halted (max_reorg_depth config + 1))).
Proof. intros Hh. unfold tick, is_halted, mbind, M_bind. by rewrite Hh. Qed.
End promotion.

(** ** A concrete node *)

(** A quiet chain of empty blocks; every output is unspent. *)
#[export] Instance quiet_node : GoldcoinRpc := {|
  node := unit;
  get_block_count n := (n, Ok 2);
  get_block_hash h n :=
    (n, if (0 <=? h) && (h <? 2 ^ 256) then Ok (encode (le_bytes 32 h))
        else Err (Method (-8) (lit "Block height out of range")));
  get_block s n :=
    (n, Ok {| bh_hash := s; bh_confirmations := 1; bh_height := 0; bh_time := 0;
              previousblockhash := None; bh_tx := [] |});
  get_raw_transaction s n :=
    (n, Ok {| dt_txid := s; dt_vout := []; dt_confirmations := Some 1 |});
  get_raw_transaction_hex s n := (n, Ok []);
  get_tx_out_confirmed s v n := (n, Ok (Some {| txout_confirmations := 10 |}));
  now_unix n := (n, 5000)
|}.

Definition quiet_height (hash : list byte) : Z := le_val hash.
Definition demo_config : IndexerConfig :=
  {| cfg_vault_script_pubkey := replicate 25 x01; confirmation_depth := 2;
     max_reorg_depth := 6; min_deposit_atomic := 100;
     value_caps := {| max_deposit_atomic := Some 1000;
                      rolling_window := Some {| window_seconds := 60; cap_atomic := 900 |} |};
     cfg_protocol_version := 1; cfg_program_id := replicate 32 x02; cfg_validator_epoch := 0;
     cfg_wrapped_mint := replicate 32 x03 |}.
Definition demo_world (db : Db) : World := {| w_node := tt; w_db := db; halted := false |}.

Lemma find_fork_point_highest_agreement_witness :
  exists o, find_fork_point demo_config 5 (demo_world empty_db) = (demo_world empty_db, Ok o) /\
    fork_result demo_config (le_bytes 32) empty_db 5 5 o.
Proof.
  apply (find_fork_point_highest_agreement demo_config (le_bytes 32) 5).
  - intros h. apply length_le_bytes.
  - intros h n Hh. cbn [get_block_hash quiet_node].
    by rewrite (proj2 (Z.leb_le 0 h)), (proj2 (Z.ltb_lt h (2 ^ 256))) by lia.
  - lia.
  - cbn. lia.
Defined.

#[local] Existing Instance toy_sha2.

(** A confirming deposit in block 1 of the quiet chain. *)
Definition demo_confirming : Db :=
  with_rows empty_db [demo_row 500 Confirming] 2.
Definition demo_promoted : World :=
  fst (promote_one demo_config 2 (demo_row 500 Confirming) (demo_world demo_confirming)).

Lemma pair_fst {A B} (p : A * B) b : snd p = b -> p = (fst p, b).
Proof. destruct p. by intros <-. Qed.

Lemma promoted_deposit_is_confirmed_and_signable_witness :
  exists c, verify_and_load_signable_message 1 0 (w_db demo_promoted) =
    (w_db demo_promoted, Ok c) /\ sc_amount_atomic c = 500.
Proof.
  destruct (promoted_deposit_is_confirmed_and_signable demo_config 2 (demo_row 500 Confirming)
    (demo_world demo_confirming) demo_promoted
    (update_row (demo_row 500 Confirming) ReadyForSignature (Some 5000) None None) 0)
    as (_ & c & Hc & Ha & _).
  - vm_compute. reflexivity.
  - reflexivity.
  - apply pair_fst. vm_compute. reflexivity.
  - vm_compute. reflexivity.
  - reflexivity.
  - exists c. split; [exact Hc|exact Ha].
Defined.

Lemma halted_indexer_does_nothing_witness :
  tick demo_config {| w_node := tt; w_db := empty_db; halted := true |} =
  ({| w_node := tt; w_db := empty_db; halted := true |}, Ok (Halted 7)).
Proof. apply (halted_indexer_does_nothing demo_config). reflexivity. Defined.

Lemma quiet_heights h n n' s hash :
  get_block_hash h n = (n', Ok s) -> decode_exact 32 s = Ok hash -> quiet_height hash = h.
Proof.
  cbn [get_block_hash quiet_node]. destruct (_ && _) eqn:Hb; [|done]. bools. intros Heq Hd.
  assert (s = encode (le_bytes 32 h)) as -> by congruence.
  rewrite decode_exact_encode in Hd by apply length_le_bytes.
  assert (hash = le_bytes 32 h) as -> by congruence.
  unfold quiet_height. rewrite le_val_le_bytes. apply Z.mod_small.
  change (256 ^ Z.of_nat 32) with (2 ^ 256). lia.
Qed.

Lemma tick_preserves_database_witness :
  inv quiet_height (w_db (fst (tick demo_config (demo_world empty_db)))).
Proof.
  apply (tick_preserves_database demo_config quiet_height quiet_heights (demo_world empty_db) _
           (snd (tick demo_config (demo_world empty_db)))).
  - split; [apply empty_db_wf|apply map_Forall_empty].
  - by destruct (tick demo_config (demo_world empty_db)).
Defined.
