(* ===== verification/WithdrawalDb.v ===== *)
(** * The withdrawal database: [relayer/src/glc/withdrawal_db.rs]

    The withdrawal tables of [Db] as finite maps (keyed by their primary
    keys) and lists, one definition per operation.  An operation maps the
    tables to the tables and a result; an [Err] from inside an open
    transaction leaves them as they were, and a tripped pre-signing guard
    commits its halt before it returns.  Schema constraints that can fire
    are checks returning [SqliteConstraint]: the payout's primary key, the
    unique outpoint of [withdrawal_payout_inputs], the quorum history's
    unique attempt, and the foreign keys ([PRAGMA foreign_keys = ON]).
    [txid_hex] columns are not stored: their CHECK makes them [encode txid]. *)
From Stdlib Require Import ZArith Lia Strings.Byte.
From stdpp Require Import base numbers strings gmap list pretty sorting.
From S2P Require Import Prelude Hex Text DepositDb Address.

(** ** The state machine *)

Inductive WithdrawalState :=
| Observed | Validated | AwaitingFunds | Building | Signing | Broadcast | Confirming
| Completed | IntegrityHalted | Failed | Orphaned.

#[export] Instance WithdrawalState_eq_dec : EqDecision WithdrawalState.
Proof. solve_decision. Defined.

Definition as_str (s : WithdrawalState) : str :=
  match s with
  | Observed => lit "Observed"
  | Validated => lit "Validated"
  | AwaitingFunds => lit "AwaitingFunds"
  | Building => lit "Building"
  | Signing => lit "Signing"
  | Broadcast => lit "Broadcast"
  | Confirming => lit "Confirming"
  | Completed => lit "Completed"
  | IntegrityHalted => lit "IntegrityHalted"
  | Failed => lit "Failed"
  | Orphaned => lit "Orphaned"
  end.

Definition parse (s : str) : result DbError WithdrawalState :=
  if decide (s = lit "Observed") then Ok Observed
  else if decide (s = lit "Validated") then Ok Validated
  else if decide (s = lit "AwaitingFunds") then Ok AwaitingFunds
  else if decide (s = lit "Building") then Ok Building
  else if decide (s = lit "Signing") then Ok Signing
  else if decide (s = lit "Broadcast") then Ok Broadcast
  else if decide (s = lit "Confirming") then Ok Confirming
  else if decide (s = lit "Completed") then Ok Completed
  else if decide (s = lit "IntegrityHalted") then Ok IntegrityHalted
  else if decide (s = lit "Failed") then Ok Failed
  else if decide (s = lit "Orphaned") then Ok Orphaned
  else Err (UnknownWithdrawalState s).

Definition is_terminal (s : WithdrawalState) : bool :=
  match s with Completed | Failed | IntegrityHalted => true | _ => false end.

Definition may_transition_to (from to : WithdrawalState) : bool :=
  if bool_decide (to = IntegrityHalted) then negb (is_terminal from)
  else
    match from, to with
    | Observed, Validated | Observed, Failed
    | Validated, AwaitingFunds | Validated, Building | Validated, Failed
    | AwaitingFunds, Validated | AwaitingFunds, Failed
    | Building, Signing | Building, AwaitingFunds | Building, Failed
    | Signing, Broadcast
    | Broadcast, Broadcast | Broadcast, Confirming | Broadcast, Orphaned
    | Confirming, Completed | Confirming, Confirming | Confirming, Orphaned
    | Confirming, Broadcast
    | Orphaned, Broadcast
    | IntegrityHalted, Validated | IntegrityHalted, Failed => true
    | _, _ => false
    end.

(** ** Rows *)

Record NewWithdrawalRequest := {
  nw_index : Z; nw_pda : list byte; nw_amount : Z; nw_requester : list byte;
  nw_address : str; nw_hash160 : list byte; nw_slot : Z; nw_version : Z;
  nw_observed_at : Z; nw_observed_at_slot : Z
}.

Record WithdrawalRow := {
  w_index : Z; w_pda : list byte; w_amount : Z; w_requester : list byte; w_address : str;
  w_hash160 : list byte; w_slot : Z; w_version : Z; w_state : WithdrawalState;
  w_failure : option str; w_observed_at : Z
}.

Record VaultUtxo := {
  u_txid : list byte; u_txid_hex : str; u_vout : Z; u_amount : Z; u_script : str;
  u_confirmations : Z
}.

Record ObservedUtxo := {
  o_txid : list byte; o_vout : Z; o_amount : Z; o_script : str; o_confirmations : Z
}.

(** The scalar columns a payout is created with ([NewPayout] less [inputs]). *)
Record PayoutTerms := {
  t_vault_script_hash : list byte; t_quorum_indices : list byte; t_quorum_attempt : Z;
  t_commitment_hash : list byte; t_intent_bytes : list byte; t_fee : Z; t_payout : Z;
  t_change : Z; t_change_address : option str; t_unsigned_tx_hex : str; t_built_at : Z
}.

Record NewPayout := { np_index : Z; np_terms : PayoutTerms; np_inputs : list VaultUtxo }.

(** A [withdrawal_payouts] row: its terms and how far it has come. *)
Record PayoutRow := {
  p_terms : PayoutTerms;
  p_signed_tx_hex : option str; p_txid : option (list byte); p_signed_at : option Z;
  p_broadcast_at : option Z; p_mined_block_hash : option (list byte);
  p_mined_height : option Z; p_confirmations : Z; p_completed_at : option Z;
  p_onchain_completed_at : option Z; p_onchain_signature : option str
}.

Record PayoutInput := {
  i_index : Z; i_order : Z; i_txid : list byte; i_vout : Z; i_amount : Z
}.

Inductive UtxoState := Available | Reserved | Spent | Unconfirmed.
#[export] Instance UtxoState_eq_dec : EqDecision UtxoState.
Proof. solve_decision. Defined.

Record UtxoRow := {
  r_amount : Z; r_script : str; r_confirmations : Z; r_first_seen_at : Z; r_state : UtxoState;
  r_reserved_by : option Z; r_reserved_at : option Z; r_spent_by : option str
}.

Record StateLog := {
  l_index : Z; l_from : option WithdrawalState; l_to : WithdrawalState; l_at : Z;
  l_reason : option str; l_expected : option (list byte); l_recomputed : option (list byte);
  l_fields : option str
}.

Record QuorumHistory := {
  q_index : Z; q_attempt : Z; q_quorum : list byte; q_commitment : list byte; q_at : Z;
  q_reason : str
}.

Abbreviation Outpoint := (list byte * Z)%type.

(** The withdrawal tables of [Db]. *)
Record Tables := {
  withdrawal_requests : gmap Z WithdrawalRow;
  withdrawal_payouts : gmap Z PayoutRow;
  vault_utxos : gmap Outpoint UtxoRow;
  withdrawal_payout_inputs : list PayoutInput;
  withdrawal_state_log : list StateLog;
  withdrawal_quorum_history : list QuorumHistory
}.

Definition empty_tables : Tables :=
  {| withdrawal_requests := ∅; withdrawal_payouts := ∅; vault_utxos := ∅;
     withdrawal_payout_inputs := []; withdrawal_state_log := [];
     withdrawal_quorum_history := [] |}.

(** ** Table updates *)

Definition put_requests (d : Tables) (m : gmap Z WithdrawalRow) : Tables :=
  {| withdrawal_requests := m; withdrawal_payouts := withdrawal_payouts d;
     vault_utxos := vault_utxos d; withdrawal_payout_inputs := withdrawal_payout_inputs d;
     withdrawal_state_log := withdrawal_state_log d;
     withdrawal_quorum_history := withdrawal_quorum_history d |}.
Definition put_payouts (d : Tables) (m : gmap Z PayoutRow) : Tables :=
  {| withdrawal_requests := withdrawal_requests d; withdrawal_payouts := m;
     vault_utxos := vault_utxos d; withdrawal_payout_inputs := withdrawal_payout_inputs d;
     withdrawal_state_log := withdrawal_state_log d;
     withdrawal_quorum_history := withdrawal_quorum_history d |}.
Definition put_utxos (d : Tables) (m : gmap Outpoint UtxoRow) : Tables :=
  {| withdrawal_requests := withdrawal_requests d; withdrawal_payouts := withdrawal_payouts d;
     vault_utxos := m; withdrawal_payout_inputs := withdrawal_payout_inputs d;
     withdrawal_state_log := withdrawal_state_log d;
     withdrawal_quorum_history := withdrawal_quorum_history d |}.
Definition put_inputs (d : Tables) (l : list PayoutInput) : Tables :=
  {| withdrawal_requests := withdrawal_requests d; withdrawal_payouts := withdrawal_payouts d;
     vault_utxos := vault_utxos d; withdrawal_payout_inputs := l;
     withdrawal_state_log := withdrawal_state_log d;
     withdrawal_quorum_history := withdrawal_quorum_history d |}.
Definition add_log (d : Tables) (l : StateLog) : Tables :=
  {| withdrawal_requests := withdrawal_requests d; withdrawal_payouts := withdrawal_payouts d;
     vault_utxos := vault_utxos d; withdrawal_payout_inputs := withdrawal_payout_inputs d;
     withdrawal_state_log := withdrawal_state_log d ++ [l];
     withdrawal_quorum_history := withdrawal_quorum_history d |}.
Definition add_history (d : Tables) (q : QuorumHistory) : Tables :=
  {| withdrawal_requests := withdrawal_requests d; withdrawal_payouts := withdrawal_payouts d;
     vault_utxos := vault_utxos d; withdrawal_payout_inputs := withdrawal_payout_inputs d;
     withdrawal_state_log := withdrawal_state_log d;
     withdrawal_quorum_history := withdrawal_quorum_history d ++ [q] |}.

(** [UPDATE withdrawal_requests SET state, failure_reason]; no row, no effect. *)
Definition set_state (s : WithdrawalState) (reason : option str) (w : WithdrawalRow)
  : WithdrawalRow :=
  {| w_index := w_index w; w_pda := w_pda w; w_amount := w_amount w;
     w_requester := w_requester w; w_address := w_address w; w_hash160 := w_hash160 w;
     w_slot := w_slot w; w_version := w_version w; w_state := s; w_failure := reason;
     w_observed_at := w_observed_at w |}.
Definition update_request (d : Tables) (index : Z) (f : WithdrawalRow -> WithdrawalRow)
  : Tables := put_requests d (alter f index (withdrawal_requests d)).
Definition update_payout (d : Tables) (index : Z) (f : PayoutRow -> PayoutRow) : Tables :=
  put_payouts d (alter f index (withdrawal_payouts d)).

Definition log_of (index : Z) (from : option WithdrawalState) (to : WithdrawalState) (at_ : Z)
    (reason : option str) : StateLog :=
  {| l_index := index; l_from := from; l_to := to; l_at := at_; l_reason := reason;
     l_expected := None; l_recomputed := None; l_fields := None |}.

(** ** The canonical payout intent *)

Definition PAYOUT_DOMAIN_TAG : list byte := lit "GLC_BRIDGE_PAYOUT".
Definition PAYOUT_INTENT_FIXED_LEN : nat := 114.

Definition input_bytes (i : VaultUtxo) : list byte :=
  u_txid i ++ le_bytes 4 (u_vout i) ++ le_bytes 8 (u_amount i).

Definition canonical_payout_intent (protocol_version withdrawal_index : Z)
    (vault_script_hash dest_hash160 : list byte) (payout_atomic fee_atomic change_atomic : Z)
    (change_hash160 : list byte) (quorum_attempt : Z) (quorum_indices : list byte)
    (inputs : list VaultUtxo) : list byte :=
  PAYOUT_DOMAIN_TAG ++ le_bytes 1 protocol_version ++ le_bytes 8 withdrawal_index ++
  vault_script_hash ++ dest_hash160 ++ le_bytes 8 payout_atomic ++ le_bytes 8 fee_atomic ++
  le_bytes 8 change_atomic ++ change_hash160 ++ le_bytes 4 quorum_attempt ++
  le_bytes 1 (Z.of_nat (length quorum_indices)) ++ quorum_indices ++
  le_bytes 4 (Z.of_nat (length inputs)) ++ concat (input_bytes <$> inputs).

Definition PAYOUT_FIELD_LAYOUT : list (str * nat * nat) :=
  [(lit "domain_tag", 0, 17); (lit "protocol_version", 17, 18);
   (lit "withdrawal_index", 18, 26); (lit "vault_script_hash", 26, 46);
   (lit "dest_hash160", 46, 66); (lit "payout_atomic", 66, 74); (lit "fee_atomic", 74, 82);
   (lit "change_atomic", 82, 90); (lit "change_hash160", 90, 110);
   (lit "quorum_attempt", 110, 114)]%nat.

Definition diff_payout_fields (recomputed stored : list byte) : option str :=
  if ((length recomputed <? PAYOUT_INTENT_FIXED_LEN) ||
      (length stored <? PAYOUT_INTENT_FIXED_LEN))%nat then None
  else
    let slice a b (l : list byte) := take (b - a) (drop a l) in
    let differing :=
      (fun e => e.1.1) <$>
        filter (fun e => slice e.1.2 e.2 recomputed <> slice e.1.2 e.2 stored)
          PAYOUT_FIELD_LAYOUT in
    let differing :=
      if decide (drop PAYOUT_INTENT_FIXED_LEN recomputed = drop PAYOUT_INTENT_FIXED_LEN stored)
      then differing else differing ++ [lit "quorum_or_inputs"] in
    match differing with [] => None | _ => Some (join differing) end.

(** ** Observation and transitions *)

Definition row_of_request (w : NewWithdrawalRequest) : WithdrawalRow :=
  {| w_index := nw_index w; w_pda := nw_pda w; w_amount := nw_amount w;
     w_requester := nw_requester w; w_address := nw_address w; w_hash160 := nw_hash160 w;
     w_slot := nw_slot w; w_version := nw_version w; w_state := Observed; w_failure := None;
     w_observed_at := nw_observed_at w |}.

(** [INSERT OR IGNORE]: ignored when the index or the [UNIQUE] pda is known. *)
Definition observe_withdrawal (w : NewWithdrawalRequest) (d : Tables) : Tables * result DbError bool :=
  if bool_decide (is_Some (withdrawal_requests d !! nw_index w) \/
                  map_Exists (fun _ r => w_pda r = nw_pda w) (withdrawal_requests d))
  then (d, Ok false)
  else
    (add_log (put_requests d (<[nw_index w := row_of_request w]> (withdrawal_requests d)))
       (log_of (nw_index w) None Observed (nw_observed_at w)
          (Some (lit "observed at finalized commitment"))), Ok true).

Definition get_withdrawal (index : Z) (d : Tables) : option WithdrawalRow :=
  withdrawal_requests d !! index.

Definition transition_withdrawal (index : Z) (to : WithdrawalState) (at_ : Z)
    (reason : option str) (d : Tables) : Tables * result DbError unit :=
  match withdrawal_requests d !! index with
  | None => (d, Err (WithdrawalNotFound index))
  | Some w =>
      let from := w_state w in
      if negb (bool_decide (from = to)) && negb (may_transition_to from to)
      then (d, Err (UnknownWithdrawalState
                      (lit "illegal transition " ++ as_str from ++ lit " -> " ++ as_str to)))
      else
        (add_log (update_request d index (fun w => set_state to (coalesce reason (w_failure w)) w))
           (log_of index (Some from) to at_ reason), Ok tt)
  end.

(** ** The vault's outputs *)

Definition observed_row (min_confirmations at_ : Z) (u : ObservedUtxo) (old : option UtxoRow)
  : UtxoRow :=
  let state := if min_confirmations <=? o_confirmations u then Available else Unconfirmed in
  match old with
  | None =>
      {| r_amount := o_amount u; r_script := o_script u; r_confirmations := o_confirmations u;
         r_first_seen_at := at_; r_state := state; r_reserved_by := None;
         r_reserved_at := None; r_spent_by := None |}
  | Some r =>
      {| r_amount := r_amount r; r_script := r_script r; r_confirmations := o_confirmations u;
         r_first_seen_at := r_first_seen_at r;
         r_state := match r_state r with Reserved => Reserved | Spent => Spent | _ => state end;
         r_reserved_by := r_reserved_by r; r_reserved_at := r_reserved_at r;
         r_spent_by := r_spent_by r |}
  end.

Definition sync_vault_utxos (observed : list ObservedUtxo) (min_confirmations at_ : Z)
    (d : Tables) : Tables :=
  put_utxos d
    (foldl (fun m u => partial_alter (fun old => Some (observed_row min_confirmations at_ u old))
                         (o_txid u, o_vout u) m)
       (vault_utxos d) observed).

Definition set_utxo (s : UtxoState) (by_ at_ : option Z) (spent : option str) (r : UtxoRow)
  : UtxoRow :=
  {| r_amount := r_amount r; r_script := r_script r; r_confirmations := r_confirmations r;
     r_first_seen_at := r_first_seen_at r; r_state := s; r_reserved_by := by_;
     r_reserved_at := at_; r_spent_by := spent |}.

(** Outputs the node no longer reports; [present] holds txids only. *)
Definition missing (present : list (list byte)) (k : Outpoint) (r : UtxoRow) : bool :=
  bool_decide ((r_state r = Available \/ r_state r = Unconfirmed) /\
               encode k.1 ∉ (encode <$> present)).

Definition mark_missing_utxos_spent (present : list (list byte)) (d : Tables)
  : Tables * result DbError nat :=
  (put_utxos d (map_imap (fun k r =>
       Some (if missing present k r
             then set_utxo Spent (r_reserved_by r) (r_reserved_at r) (r_spent_by r) r else r))
     (vault_utxos d)),
   Ok (size (filter (fun kr => missing present kr.1 kr.2 = true) (vault_utxos d)))).

(** One guarded UPDATE; the foreign key on [reserved_by] must hold. *)
Definition reserve_one (index at_ : Z) (d : Tables) (u : VaultUtxo) : result DbError Tables :=
  match vault_utxos d !! (u_txid u, u_vout u) with
  | Some r =>
      if bool_decide (r_state r = Available) then
        require (bool_decide (is_Some (withdrawal_requests d !! index))) SqliteConstraint ;;*
        Ok (put_utxos d (<[(u_txid u, u_vout u) :=
                             set_utxo Reserved (Some index) (Some at_) (r_spent_by r) r]>
                           (vault_utxos d)))
      else Err (ReservationInvalid index (lit "outpoint no longer Available at reservation time"))
  | None => Err (ReservationInvalid index (lit "outpoint no longer Available at reservation time"))
  end.

Definition reserve_utxos (index : Z) (outpoints : list VaultUtxo) (at_ : Z) (d : Tables)
  : Tables * result DbError unit :=
  match foldM (reserve_one index at_) d outpoints with
  | Ok d' => (d', Ok tt)
  | Err e => (d, Err e)
  end.

Definition held_by (index : Z) (r : UtxoRow) : bool :=
  bool_decide (r_reserved_by r = Some index /\ r_state r = Reserved).

Definition release_reservation (index : Z) (d : Tables) : Tables * result DbError nat :=
  if bool_decide (is_Some (withdrawal_payouts d !! index))
  then (d, Err (ReservationInvalid index
                  (lit "a payout already commits these inputs; they are never released")))
  else
    (put_utxos d ((fun r => if held_by index r
                            then set_utxo Available None None (r_spent_by r) r else r)
                    <$> vault_utxos d),
     Ok (size (filter (fun kr => held_by index kr.2 = true) (vault_utxos d)))).

(** [COALESCE(MIN(reserved_at), 0) < cutoff] *)
Definition reservation_is_stale (index cutoff : Z) (d : Tables) : bool :=
  let times := omap (fun kr : Outpoint * UtxoRow =>
    if bool_decide (r_reserved_by kr.2 = Some index) then r_reserved_at kr.2 else None)
    (map_to_list (vault_utxos d)) in
  match times with
  | [] => 0 <? cutoff
  | t :: ts => foldl Z.min t ts <? cutoff
  end.

Definition row_to_utxo (k : Outpoint) (r : UtxoRow) : VaultUtxo :=
  {| u_txid := k.1; u_txid_hex := encode k.1; u_vout := k.2; u_amount := r_amount r;
     u_script := r_script r; u_confirmations := r_confirmations r |}.

(** SQLite's [memcmp] order on BLOB and TEXT values, as [<=]. *)
Fixpoint bytes_le (a b : list byte) : bool :=
  match a, b with
  | [], _ => true
  | _ :: _, [] => false
  | x :: a, y :: b =>
      (byte_to_Z x <? byte_to_Z y) || ((byte_to_Z x =? byte_to_Z y) && bytes_le a b)
  end.

(** [ORDER BY txid_hex, vout] *)
Definition outpoint_le (a b : VaultUtxo) : bool :=
  if bool_decide (u_txid_hex a = u_txid_hex b) then u_vout a <=? u_vout b
  else bytes_le (u_txid_hex a) (u_txid_hex b).

(** [ORDER BY amount_atomic DESC, txid_hex ASC, vout ASC], the amount column
    being a little-endian BLOB. *)
Definition selection_le (a b : VaultUtxo) : bool :=
  let x := le_bytes 8 (u_amount a) in
  let y := le_bytes 8 (u_amount b) in
  if bool_decide (x = y) then outpoint_le a b else bytes_le y x.

Definition outpoint_order (a b : VaultUtxo) : Prop := outpoint_le a b = true.
#[export] Instance outpoint_order_dec : RelDecision outpoint_order.
Proof. intros a b. unfold outpoint_order. apply _. Defined.
Definition selection_order (a b : VaultUtxo) : Prop := selection_le a b = true.
#[export] Instance selection_order_dec : RelDecision selection_order.
Proof. intros a b. unfold selection_order. apply _. Defined.

Definition reserved_utxos (index : Z) (d : Tables) : list VaultUtxo :=
  merge_sort outpoint_order
    ((fun kr => row_to_utxo kr.1 kr.2) <$>
       filter (fun kr => held_by index kr.2 = true) (map_to_list (vault_utxos d))).

Definition available_utxos (min_confirmations : Z) (d : Tables) : list VaultUtxo :=
  merge_sort selection_order
    ((fun kr => row_to_utxo kr.1 kr.2) <$>
       filter (fun kr => r_state kr.2 = Available /\ min_confirmations <= r_confirmations kr.2)
         (map_to_list (vault_utxos d))).

(** ** Payouts *)

Definition new_row (t : PayoutTerms) : PayoutRow :=
  {| p_terms := t; p_signed_tx_hex := None; p_txid := None; p_signed_at := None;
     p_broadcast_at := None; p_mined_block_hash := None; p_mined_height := None;
     p_confirmations := 0; p_completed_at := None; p_onchain_completed_at := None;
     p_onchain_signature := None |}.

(** [INSERT INTO withdrawal_payout_inputs]: the outpoint must be new. *)
Definition insert_input (index : Z) (acc : list PayoutInput) (iu : nat * VaultUtxo)
  : result DbError (list PayoutInput) :=
  let row := {| i_index := index; i_order := Z.of_nat iu.1; i_txid := u_txid iu.2;
                i_vout := u_vout iu.2; i_amount := u_amount iu.2 |} in
  require (bool_decide ((u_txid iu.2, u_vout iu.2) ∉
             ((fun i => (i_txid i, i_vout i)) <$> acc))) SqliteConstraint ;;*
  Ok (acc ++ [row]).

Definition create_payout (p : NewPayout) (d : Tables) : Tables * result DbError unit :=
  let index := np_index p in
  if bool_decide (is_Some (withdrawal_payouts d !! index) \/ withdrawal_requests d !! index = None)
  then (d, Err SqliteConstraint)
  else
    match foldM (insert_input index) (withdrawal_payout_inputs d)
            (zip (seq 0 (length (np_inputs p))) (np_inputs p)) with
    | Err e => (d, Err e)
    | Ok inputs =>
        (put_inputs
           (put_payouts d (<[index := new_row (np_terms p)]> (withdrawal_payouts d))) inputs,
         Ok tt)
    end.

Definition get_payout (index : Z) (d : Tables) : option PayoutRow := withdrawal_payouts d !! index.

(** The committed inputs, in their committed order (rows of one payout are
    inserted together, in [input_order]). *)
Definition committed_inputs (index : Z) (d : Tables) : list PayoutInput :=
  filter (fun i => i_index i = index) (withdrawal_payout_inputs d).

Definition payout_inputs (index : Z) (d : Tables) : list VaultUtxo :=
  (fun i =>
     let v := vault_utxos d !! (i_txid i, i_vout i) in
     {| u_txid := i_txid i; u_txid_hex := encode (i_txid i); u_vout := i_vout i;
        u_amount := i_amount i; u_script := default [] (r_script <$> v);
        u_confirmations := default 0 (r_confirmations <$> v) |})
    <$> committed_inputs index d.

Definition record_signed_payout (index : Z) (signed_tx_hex : str) (txid : list byte) (at_ : Z)
    (d : Tables) : Tables * result DbError unit :=
  if bool_decide (withdrawal_requests d !! index = None) then (d, Err SqliteConstraint)
  else
    let sign p :=
      match p_signed_tx_hex p with
      | Some _ => p
      | None =>
          {| p_terms := p_terms p; p_signed_tx_hex := Some signed_tx_hex; p_txid := Some txid;
             p_signed_at := Some at_; p_broadcast_at := p_broadcast_at p;
             p_mined_block_hash := p_mined_block_hash p; p_mined_height := p_mined_height p;
             p_confirmations := p_confirmations p; p_completed_at := p_completed_at p;
             p_onchain_completed_at := p_onchain_completed_at p;
             p_onchain_signature := p_onchain_signature p |}
      end in
    (add_log
       (update_request (update_payout d index sign) index
          (fun w => set_state Broadcast (w_failure w) w))
       (log_of index (Some Signing) Broadcast at_ (Some (lit "signed; txid " ++ encode txid))),
     Ok tt).

Definition record_broadcast (index at_ : Z) (d : Tables) : Tables :=
  update_payout d index (fun p =>
    {| p_terms := p_terms p; p_signed_tx_hex := p_signed_tx_hex p; p_txid := p_txid p;
       p_signed_at := p_signed_at p; p_broadcast_at := coalesce (p_broadcast_at p) (Some at_);
       p_mined_block_hash := p_mined_block_hash p; p_mined_height := p_mined_height p;
       p_confirmations := p_confirmations p; p_completed_at := p_completed_at p;
       p_onchain_completed_at := p_onchain_completed_at p;
       p_onchain_signature := p_onchain_signature p |}).

Definition record_confirmations (index confirmations : Z) (mined_block_hash : option (list byte))
    (mined_height : option Z) (d : Tables) : Tables :=
  update_payout d index (fun p =>
    {| p_terms := p_terms p; p_signed_tx_hex := p_signed_tx_hex p; p_txid := p_txid p;
       p_signed_at := p_signed_at p; p_broadcast_at := p_broadcast_at p;
       p_mined_block_hash := coalesce mined_block_hash (p_mined_block_hash p);
       p_mined_height := coalesce mined_height (p_mined_height p);
       p_confirmations := confirmations; p_completed_at := p_completed_at p;
       p_onchain_completed_at := p_onchain_completed_at p;
       p_onchain_signature := p_onchain_signature p |}).

(** [UPDATE vault_utxos SET state = 'Spent' ... WHERE reserved_by = index] *)
Definition spend_reserved (index : Z) (txid_hex : option str) (r : UtxoRow) : UtxoRow :=
  if bool_decide (r_reserved_by r = Some index) then set_utxo Spent None None txid_hex r else r.

Definition complete_payout (index at_ : Z) (d : Tables) : Tables * result DbError unit :=
  match withdrawal_payouts d !! index with
  | None => (d, Err SqliteNoRows)
  | Some p =>
      let complete p :=
        {| p_terms := p_terms p; p_signed_tx_hex := p_signed_tx_hex p; p_txid := p_txid p;
           p_signed_at := p_signed_at p; p_broadcast_at := p_broadcast_at p;
           p_mined_block_hash := p_mined_block_hash p; p_mined_height := p_mined_height p;
           p_confirmations := p_confirmations p; p_completed_at := Some at_;
           p_onchain_completed_at := p_onchain_completed_at p;
           p_onchain_signature := p_onchain_signature p |} in
      let d1 := update_payout d index complete in
      let d2 := put_utxos d1
                  (spend_reserved index (encode <$> p_txid p) <$> vault_utxos d1) in
      (add_log (update_request d2 index (fun w => set_state Completed (w_failure w) w))
         (log_of index (Some Confirming) Completed at_
            (Some (lit "payout confirmed at required depth"))), Ok tt)
  end.

Definition reassign_payout_quorum (index : Z) (new_quorum new_commitment new_intent : list byte)
    (new_unsigned_tx_hex reason : str) (at_ : Z) (d : Tables) : Tables * result DbError Z :=
  if is_blank reason then (d, Err (WithdrawalOperatorNoteRequired index))
  else
    match withdrawal_payouts d !! index with
    | None => (d, Err (MissingPayout index))
    | Some p =>
        let t := p_terms p in
        let attempt := t_quorum_attempt t in
        if bool_decide (is_Some (p_signed_tx_hex p))
        then (d, Err (ReservationInvalid index (lit "payout is already signed; its txid is durable and must be rebroadcast, not re-designated")))
        else if U32_MAX <? attempt + 1
        then (d, Err (ReservationInvalid index (lit "quorum attempt counter overflow")))
        else if bool_decide ((index, attempt) ∈
                  ((fun q => (q_index q, q_attempt q)) <$> withdrawal_quorum_history d))
        then (d, Err SqliteConstraint)
        else
          let next := attempt + 1 in
          let redesignate p :=
            {| p_terms := {| t_vault_script_hash := t_vault_script_hash (p_terms p);
                             t_quorum_indices := new_quorum; t_quorum_attempt := next;
                             t_commitment_hash := new_commitment; t_intent_bytes := new_intent;
                             t_fee := t_fee (p_terms p); t_payout := t_payout (p_terms p);
                             t_change := t_change (p_terms p);
                             t_change_address := t_change_address (p_terms p);
                             t_unsigned_tx_hex := new_unsigned_tx_hex;
                             t_built_at := t_built_at (p_terms p) |};
               p_signed_tx_hex := p_signed_tx_hex p; p_txid := p_txid p;
               p_signed_at := p_signed_at p; p_broadcast_at := p_broadcast_at p;
               p_mined_block_hash := p_mined_block_hash p; p_mined_height := p_mined_height p;
               p_confirmations := p_confirmations p; p_completed_at := p_completed_at p;
               p_onchain_completed_at := p_onchain_completed_at p;
               p_onchain_signature := p_onchain_signature p |} in
          let history := {| q_index := index; q_attempt := attempt;
                            q_quorum := t_quorum_indices t; q_commitment := t_commitment_hash t;
                            q_at := at_; q_reason := reason |} in
          (add_log (update_payout (add_history d history) index redesignate)
             (log_of index (Some Signing) Signing at_
                (Some (lit "quorum reassigned to attempt " ++ display next ++ lit ": " ++ reason))),
           Ok next)
    end.

Definition operator_clear_withdrawal_halt (index : Z) (to : WithdrawalState)
    (operator_note : str) (at_ : Z) (d : Tables) : Tables * result DbError unit :=
  if is_blank operator_note then (d, Err (WithdrawalOperatorNoteRequired index))
  else if negb (bool_decide (to = Validated \/ to = Failed))
  then (d, Err (InvalidWithdrawalRecoveryTarget index (as_str to)))
  else
    match withdrawal_requests d !! index with
    | None => (d, Err (WithdrawalNotFound index))
    | Some w =>
        if negb (bool_decide (w_state w = IntegrityHalted))
        then (d, Err (NotWithdrawalIntegrityHalted index (as_str (w_state w))))
        else
          (add_log (update_request d index (set_state to (Some operator_note)))
             (log_of index (Some (w_state w)) to at_
                (Some (lit "operator_recovery: " ++ operator_note))), Ok tt)
    end.

Definition record_onchain_completion (index : Z) (signature : option str) (at_ : Z) (d : Tables)
  : Tables :=
  update_payout d index (fun p =>
    {| p_terms := p_terms p; p_signed_tx_hex := p_signed_tx_hex p; p_txid := p_txid p;
       p_signed_at := p_signed_at p; p_broadcast_at := p_broadcast_at p;
       p_mined_block_hash := p_mined_block_hash p; p_mined_height := p_mined_height p;
       p_confirmations := p_confirmations p; p_completed_at := p_completed_at p;
       p_onchain_completed_at := Some at_; p_onchain_signature := signature |}).

(** ** Queries over payouts *)

(** Completed withdrawals' payouts; [SUM] over a join. *)
Definition sum_payout_column (column : PayoutTerms -> Z) (d : Tables) : Z :=
  sumZ (fun ip : Z * PayoutRow =>
          match withdrawal_requests d !! ip.1 with
          | Some w => if decide (w_state w = Completed) then column (p_terms ip.2) else 0
          | None => 0
          end) (map_to_list (withdrawal_payouts d)) mod 2 ^ 64.
Definition completed_payout_total (d : Tables) : Z := sum_payout_column t_payout d.
Definition vault_fees_paid_total (d : Tables) : Z := sum_payout_column t_fee d.

Definition withdrawal_eligible_since (index : Z) (d : Tables) : result DbError Z :=
  let* w := ok_or (withdrawal_requests d !! index) SqliteNoRows in
  Ok (foldl Z.max (w_observed_at w)
        (l_at <$> filter (fun l => l_index l = index) (withdrawal_state_log d))).

(** [ORDER BY withdrawal_index] over the primary key. *)
Definition index_order {A} (a b : Z * A) : Prop := a.1 <= b.1.
#[export] Instance index_order_dec {A} : RelDecision (@index_order A).
Proof. intros a b. unfold index_order. apply _. Defined.
Definition by_index {A} (m : gmap Z A) : list (Z * A) := merge_sort index_order (map_to_list m).

Definition withdrawals_by_state (s : WithdrawalState) (d : Tables) : list WithdrawalRow :=
  filter (fun w => w_state w = s) (snd <$> by_index (withdrawal_requests d)).

(** Locally [Completed], not yet seen completed on Solana. *)
Definition payouts_awaiting_onchain_completion (d : Tables) : list Z :=
  fst <$> filter (fun ip : Z * PayoutRow =>
      (w_state <$> withdrawal_requests d !! ip.1) = Some Completed /\
      p_onchain_completed_at ip.2 = None) (by_index (withdrawal_payouts d)).

(** Count and total of the available outputs; the sum wraps. *)
Definition vault_utxo_stats (d : Tables) : Z * Z :=
  let rows := filter (fun kr : Outpoint * UtxoRow => r_state kr.2 = Available)
                (map_to_list (vault_utxos d)) in
  (Z.of_nat (length rows), sumZ (fun kr : Outpoint * UtxoRow => r_amount kr.2) rows mod 2 ^ 64).

(** [ORDER BY quorum_attempt]: attempts are appended in increasing order. *)
Definition quorum_history (index : Z) (d : Tables) : list (Z * list byte * str) :=
  (fun q => (q_attempt q, q_quorum q, q_reason q)) <$>
    filter (fun q => q_index q = index) (withdrawal_quorum_history d).

Definition is_onchain_completed (index : Z) (d : Tables) : bool :=
  match withdrawal_payouts d !! index with
  | Some p => bool_decide (is_Some (p_onchain_completed_at p))
  | None => false
  end.

(** ** The pre-signing guard *)

Record SignablePayout := {
  s_index : Z; s_unsigned_tx_hex : str; s_payout : Z; s_fee : Z; s_change : Z;
  s_change_address : option str; s_hash160 : list byte; s_vault_script_hash : list byte;
  s_quorum_indices : list byte; s_quorum_attempt : Z; s_inputs : list VaultUtxo;
  s_commitment_hash : list byte; s_intent_bytes : list byte
}.

(** The audit reason and the error's reason of a failed input check. *)
Definition check_input (index : Z) (d : Tables) (c : PayoutInput)
  : result (str * str) VaultUtxo :=
  let* r := ok_or (vault_utxos d !! (i_txid c, i_vout c))
    (lit "reserved_utxo_no_longer_exists",
     lit "a committed input is no longer present in vault_utxos") in
  require (bool_decide (r_state r = Reserved))
    (lit "reserved_utxo_not_reserved",
     lit "a committed input is no longer in the Reserved state") ;;*
  require (bool_decide (r_reserved_by r = Some index))
    (lit "reservation_belongs_to_another_withdrawal",
     lit "a committed input is reserved by a different withdrawal") ;;*
  require (r_amount r =? i_amount c)
    (lit "reserved_utxo_amount_changed",
     lit "a committed input's amount changed after commitment") ;;*
  Ok {| u_txid := i_txid c; u_txid_hex := encode (i_txid c); u_vout := i_vout c;
        u_amount := i_amount c; u_script := r_script r; u_confirmations := r_confirmations r |}.

Fixpoint check_inputs (index : Z) (d : Tables) (cs : list PayoutInput)
  : result (str * str) (list VaultUtxo) :=
  match cs with
  | [] => Ok []
  | c :: cs =>
      let* u := check_input index d c in
      let* us := check_inputs index d cs in
      Ok (u :: us)
  end.

(** The [halt] closure: state, audit row, commit. *)
Definition halt (index at_ : Z) (from : WithdrawalState) (reason : str)
    (expected recomputed : option (list byte)) (diff : option str) (d : Tables) : Tables :=
  add_log (update_request d index (set_state IntegrityHalted (Some reason)))
    {| l_index := index; l_from := Some from; l_to := IntegrityHalted; l_at := at_;
       l_reason := Some reason; l_expected := expected; l_recomputed := recomputed;
       l_fields := diff |}.

Section guard.
Context `{Sh : Sha2}.

Definition payout_commitment (intent : list byte) : list byte := sha256 intent.

Definition change_hash160_of (index : Z) (t : PayoutTerms) : result DbError (list byte) :=
  match t_change_address t with
  | None => Ok (replicate 20 x00)
  | Some a =>
      map_err (fun _ => PayoutIntegrityMismatch index (lit "change_address_undecodable"))
        (let* (_, h) := base58check_decode a in Ok h)
  end.

(** The intent recomputed from the live rows. *)
Definition recomputed_intent (index : Z) (w : WithdrawalRow) (t : PayoutTerms)
    (change_hash160 : list byte) (inputs : list VaultUtxo) : list byte :=
  canonical_payout_intent (w_version w) index (t_vault_script_hash t) (w_hash160 w)
    (t_payout t) (t_fee t) (t_change t) change_hash160 (t_quorum_attempt t)
    (t_quorum_indices t) inputs.

Definition signable (index : Z) (w : WithdrawalRow) (t : PayoutTerms) (inputs : list VaultUtxo)
    (intent : list byte) : SignablePayout :=
  {| s_index := index; s_unsigned_tx_hex := t_unsigned_tx_hex t; s_payout := t_payout t;
     s_fee := t_fee t; s_change := t_change t; s_change_address := t_change_address t;
     s_hash160 := w_hash160 w; s_vault_script_hash := t_vault_script_hash t;
     s_quorum_indices := t_quorum_indices t; s_quorum_attempt := t_quorum_attempt t;
     s_inputs := inputs; s_commitment_hash := t_commitment_hash t; s_intent_bytes := intent |}.

Definition verify_and_load_signable_payout (index at_ : Z) (d : Tables)
  : Tables * result DbError SignablePayout :=
  match withdrawal_requests d !! index with
  | None => (d, Err (WithdrawalNotFound index))
  | Some w =>
  match withdrawal_payouts d !! index with
  | None => (d, Err (MissingPayout index))
  | Some p =>
  let t := p_terms p in
  let stop reason expected recomputed diff err :=
    (halt index at_ (w_state w) reason expected recomputed diff d, Err err) in
  if bool_decide (is_Some (p_completed_at p))
  then stop (lit "payout_already_completed") None None None (PayoutAlreadyCompleted index)
  else if 0 <? p_confirmations p
  then stop (lit "payout_already_confirmed") None None None (PayoutAlreadyConfirmed index)
  else if bool_decide (is_Some (p_signed_tx_hex p))
  then stop (lit "payout_already_signed") None None None (PayoutAlreadyConfirmed index)
  else
  match committed_inputs index d with
  | [] => stop (lit "payout_has_no_committed_inputs") None None None
            (ReservationInvalid index (lit "payout has no committed inputs"))
  | committed =>
  match check_inputs index d committed with
  | Err (audit, reason) => stop audit None None None (ReservationInvalid index reason)
  | Ok inputs =>
  match change_hash160_of index t with
  | Err e => (d, Err e)
  | Ok change_hash160 =>
  let intent := recomputed_intent index w t change_hash160 inputs in
  let recomputed_hash := payout_commitment intent in
  let stored_hash := payout_commitment (t_intent_bytes t) in
  if negb (bool_decide (stored_hash = t_commitment_hash t))
  then stop (lit "payout_commitment_self_inconsistent") (Some (t_commitment_hash t))
         (Some stored_hash) None
         (PayoutIntegrityMismatch index (lit "payout_commitment_self_inconsistent"))
  else if negb (bool_decide (intent = t_intent_bytes t))
  then stop (lit "payout_commitment_mismatch") (Some (t_commitment_hash t))
         (Some recomputed_hash) (diff_payout_fields intent (t_intent_bytes t))
         (PayoutIntegrityMismatch index (lit "payout_commitment_mismatch"))
  else if negb (t_payout t =? w_amount w)
  then stop (lit "payout_amount_not_equal_to_burned_amount") None None None
         (PayoutIntegrityMismatch index (lit "payout_atomic"))
  else (d, Ok (signable index w t inputs intent))
  end end end end end.
End guard.
