(* ===== verification/WithdrawalDbProps.v ===== *)
(** * Never pay twice: properties of the withdrawal database

    Every sequence of the operations of [WithdrawalDb] keeps the tables well
    formed ([tables_wf]) and only adds to what was recorded ([keeps]); the
    pre-signing guard is characterised exactly; and from these, a payout that
    was signed once can never be signed, re-designated or altered again. *)
From Stdlib Require Import ZArith Lia Strings.Byte.
From stdpp Require Import base numbers strings gmap list sorting.
From S2P Require Import Prelude Messages Hex DepositDb Address WithdrawalDb.

(** ** Steps *)

Inductive wstep `{Sha2} (d : Tables) : Tables -> Prop :=
| ws_observe w : wstep d (fst (observe_withdrawal w d))
| ws_transition i to at_ reason : wstep d (fst (transition_withdrawal i to at_ reason d))
| ws_sync obs minconf at_ : wstep d (sync_vault_utxos obs minconf at_ d)
| ws_missing present : wstep d (fst (mark_missing_utxos_spent present d))
| ws_reserve i us at_ : wstep d (fst (reserve_utxos i us at_ d))
| ws_release i : wstep d (fst (release_reservation i d))
| ws_create p : wstep d (fst (create_payout p d))
| ws_signed i hex txid at_ : wstep d (fst (record_signed_payout i hex txid at_ d))
| ws_broadcast i at_ : wstep d (record_broadcast i at_ d)
| ws_confirm i n hash h : wstep d (record_confirmations i n hash h d)
| ws_complete i at_ : wstep d (fst (complete_payout i at_ d))
| ws_reassign i q c int tx reason at_ :
    wstep d (fst (reassign_payout_quorum i q c int tx reason at_ d))
| ws_operator i to note at_ : wstep d (fst (operator_clear_withdrawal_halt i to note at_ d))
| ws_onchain i sig at_ : wstep d (record_onchain_completion i sig at_ d)
| ws_verify i at_ : wstep d (fst (verify_and_load_signable_payout i at_ d)).

(** ** What is kept *)

Definition same_request (w w' : WithdrawalRow) : Prop :=
  w_index w' = w_index w /\ w_pda w' = w_pda w /\ w_amount w' = w_amount w /\
  w_requester w' = w_requester w /\ w_address w' = w_address w /\ w_hash160 w' = w_hash160 w /\
  w_slot w' = w_slot w /\ w_version w' = w_version w /\ w_observed_at w' = w_observed_at w.

(** The paid amounts never change; a signed payout's terms, bytes and txid
    never change at all. *)
Record payout_kept (p p' : PayoutRow) : Prop := {
  pk_amounts : (t_payout (p_terms p'), t_fee (p_terms p'), t_change (p_terms p'),
                t_change_address (p_terms p'), t_vault_script_hash (p_terms p')) =
               (t_payout (p_terms p), t_fee (p_terms p), t_change (p_terms p),
                t_change_address (p_terms p), t_vault_script_hash (p_terms p));
  pk_attempt : t_quorum_attempt (p_terms p) <= t_quorum_attempt (p_terms p');
  pk_signed : is_Some (p_signed_tx_hex p) ->
              p_signed_tx_hex p' = p_signed_tx_hex p /\ p_txid p' = p_txid p /\
              p_terms p' = p_terms p
}.

Record keeps (d d' : Tables) : Prop := {
  k_requests : forall i w, withdrawal_requests d !! i = Some w ->
    exists w', withdrawal_requests d' !! i = Some w' /\ same_request w w';
  k_payouts : forall i p, withdrawal_payouts d !! i = Some p ->
    exists p', withdrawal_payouts d' !! i = Some p' /\ payout_kept p p';
  k_inputs : forall i, is_Some (withdrawal_payouts d !! i) ->
    committed_inputs i d' = committed_inputs i d;
  k_log : withdrawal_state_log d `prefix_of` withdrawal_state_log d';
  k_history : withdrawal_quorum_history d `prefix_of` withdrawal_quorum_history d'
}.

Lemma same_request_refl w : same_request w w.
Proof. by unfold same_request. Qed.

Lemma payout_kept_refl p : payout_kept p p.
Proof. constructor; [done|lia|done]. Qed.

Lemma payout_kept_trans p1 p2 p3 : payout_kept p1 p2 -> payout_kept p2 p3 -> payout_kept p1 p3.
Proof.
  intros [A1 T1 S1] [A2 T2 S2]. constructor; [congruence|lia|]. intros Hs.
  destruct (S1 Hs) as (E1 & E2 & E3). destruct S2 as (F1 & F2 & F3); [by rewrite E1|].
  split_and!; congruence.
Qed.

Lemma keeps_refl d : keeps d d.
Proof.
  constructor; [| |done|done|done].
  - intros i w Hw. eauto using same_request_refl.
  - intros i p Hp. eauto using payout_kept_refl.
Qed.

Lemma keeps_trans d1 d2 d3 : keeps d1 d2 -> keeps d2 d3 -> keeps d1 d3.
Proof.
  intros [R1 P1 I1 L1 H1] [R2 P2 I2 L2 H2]. constructor; [| | |by etrans|by etrans].
  - intros i w Hw. destruct (R1 i w Hw) as (w1 & Hw1 & E1). destruct (R2 i w1 Hw1) as (w2 & Hw2 & E2).
    exists w2. split; [done|]. unfold same_request in *. destruct_and!. split_and!; congruence.
  - intros i p Hp. destruct (P1 i p Hp) as (p1 & Hp1 & E1). destruct (P2 i p1 Hp1) as (p2 & Hp2 & E2).
    exists p2. split; [done|]. by eapply payout_kept_trans.
  - intros i Hi. rewrite I2; [by apply I1|]. destruct Hi as [p Hp].
    destruct (P1 i p Hp) as (p1 & ? & _). eauto.
Qed.

(** ** Well-formedness *)

Definition outpoint_of (i : PayoutInput) : Outpoint := (i_txid i, i_vout i).

Record tables_wf (d : Tables) : Prop := {
  tw_keyed : map_Forall (fun i w => w_index w = i) (withdrawal_requests d);
  tw_requested : forall i, is_Some (withdrawal_payouts d !! i) ->
    is_Some (withdrawal_requests d !! i);
  (** an outpoint funds at most one payout, ever *)
  tw_unique : NoDup (outpoint_of <$> withdrawal_payout_inputs d);
  tw_owned : Forall (fun c => is_Some (withdrawal_payouts d !! i_index c))
               (withdrawal_payout_inputs d);
  tw_signed : map_Forall (fun _ p => p_signed_tx_hex p = None <-> p_txid p = None)
                (withdrawal_payouts d);
  tw_reserved : map_Forall (fun _ r => r_state r = Reserved <-> is_Some (r_reserved_by r))
                  (vault_utxos d);
  (** superseded attempts are below the current one, so reassignment never
      meets the history's unique constraint *)
  tw_history : Forall (fun q => exists p, withdrawal_payouts d !! q_index q = Some p /\
                 q_attempt q < t_quorum_attempt (p_terms p)) (withdrawal_quorum_history d)
}.

Lemma empty_tables_wf : tables_wf empty_tables.
Proof.
  constructor; cbn; try apply map_Forall_empty; try constructor.
  intros i Hi. rewrite lookup_empty in Hi. by destruct Hi.
Qed.

(** ** Building blocks *)

Lemma alter_Some {A} (f : A -> A) (m : gmap Z A) i j x :
  alter f i m !! j = Some x ->
  (i = j /\ exists y, m !! j = Some y /\ x = f y) \/ (i <> j /\ m !! j = Some x).
Proof.
  destruct (decide (i = j)) as [->|]; [rewrite lookup_alter_eq|rewrite lookup_alter_ne by done];
    [|by right]. intros (y & ? & ?)%fmap_Some. left. eauto.
Qed.

Lemma alter_is_Some {A} (f : A -> A) (m : gmap Z A) i j :
  is_Some (alter f i m !! j) <-> is_Some (m !! j).
Proof.
  destruct (decide (i = j)) as [->|]; [rewrite lookup_alter_eq|by rewrite lookup_alter_ne].
  by rewrite fmap_is_Some.
Qed.

Lemma request_step d i f :
  (forall w, same_request w (f w)) ->
  keeps d (update_request d i f) /\ (tables_wf d -> tables_wf (update_request d i f)).
Proof.
  intros Hf. split.
  - constructor; cbn; [|eauto using payout_kept_refl|done|done|done].
    intros j w Hw. destruct (decide (i = j)) as [->|].
    + rewrite lookup_alter_eq, Hw. cbn. eauto.
    + rewrite lookup_alter_ne by done. eauto using same_request_refl.
  - intros []. constructor; cbn; try done.
    + intros j w [(-> & y & Hy & ->)|[_ Hw]]%alter_Some; [|by apply tw_keyed0].
      destruct (Hf y) as [-> _]. by apply tw_keyed0.
    + intros j Hj. apply alter_is_Some. by apply tw_requested0.
Qed.

Lemma payout_step d i f :
  (forall p, withdrawal_payouts d !! i = Some p ->
     payout_kept p (f p) /\
     ((p_signed_tx_hex p = None <-> p_txid p = None) ->
      (p_signed_tx_hex (f p) = None <-> p_txid (f p) = None))) ->
  keeps d (update_payout d i f) /\ (tables_wf d -> tables_wf (update_payout d i f)).
Proof.
  intros Hf. split.
  - constructor; cbn; [eauto using same_request_refl| |done|done|done].
    intros j p Hp. destruct (decide (i = j)) as [->|].
    + rewrite lookup_alter_eq, Hp. cbn. destruct (Hf p Hp). eauto.
    + rewrite lookup_alter_ne by done. eauto using payout_kept_refl.
  - intros []. constructor; cbn; try done.
    + intros j. rewrite alter_is_Some. apply tw_requested0.
    + eapply Forall_impl; [exact tw_owned0|]. intros c. cbn. by rewrite alter_is_Some.
    + intros j p [(-> & y & Hy & ->)|[_ Hw]]%alter_Some; [|by eapply tw_signed0].
      destruct (Hf y Hy) as [_ Hs]. apply Hs. by eapply tw_signed0.
    + eapply Forall_impl; [exact tw_history0|]. intros q (p & Hp & Hq).
      destruct (decide (i = q_index q)) as [->|].
      * rewrite lookup_alter_eq, Hp. exists (f p). split; [done|].
        destruct (Hf p Hp) as [[_ Hle _] _]. lia.
      * rewrite lookup_alter_ne by done. eauto.
Qed.

Lemma utxo_step d m :
  (tables_wf d -> map_Forall (fun _ r => r_state r = Reserved <-> is_Some (r_reserved_by r)) m) ->
  keeps d (put_utxos d m) /\ (tables_wf d -> tables_wf (put_utxos d m)).
Proof.
  intros Hm. split.
  - constructor; cbn; [eauto using same_request_refl|eauto using payout_kept_refl|done|done|done].
  - intros Hwf. pose proof (Hm Hwf). destruct Hwf. by constructor.
Qed.

Lemma log_step d l : keeps d (add_log d l) /\ (tables_wf d -> tables_wf (add_log d l)).
Proof.
  split; [|by intros []; constructor].
  constructor; cbn; [eauto using same_request_refl|eauto using payout_kept_refl|done| |done].
  by apply prefix_app_r.
Qed.

Definition good (d d' : Tables) : Prop := keeps d d' /\ (tables_wf d -> tables_wf d').

Lemma good_refl d : good d d.
Proof. split; [apply keeps_refl|done]. Qed.

Lemma good_trans d1 d2 d3 : good d1 d2 -> good d2 d3 -> good d1 d3.
Proof. intros [K1 W1] [K2 W2]. split; [by eapply keeps_trans|auto]. Qed.

Lemma set_state_same s reason w : same_request w (set_state s reason w).
Proof. by unfold same_request. Qed.

(** A state change with its log row. *)
Lemma logged_state d i f l :
  (forall w, same_request w (f w)) -> good d (add_log (update_request d i f) l).
Proof. intros Hf. eapply good_trans; [by apply (request_step d i f)|apply log_step]. Qed.

(** ** Every operation is good *)

Lemma observe_good w d : good d (fst (observe_withdrawal w d)).
Proof.
  unfold observe_withdrawal. case_bool_decide as Hk; [apply good_refl|]. cbn [fst].
  eapply good_trans; [|apply log_step].
  assert (withdrawal_requests d !! nw_index w = None) as Hn.
  { apply eq_None_not_Some. intros ?. apply Hk. by left. }
  split.
  - constructor; cbn; [|eauto using payout_kept_refl|done|done|done].
    intros i r Hr. rewrite lookup_insert_ne by congruence. eauto using same_request_refl.
  - intros []. constructor; cbn; try done.
    + by apply map_Forall_insert_2.
    + intros i Hi. apply lookup_insert_is_Some'. right. by apply tw_requested0.
Qed.

Lemma transition_good i to at_ reason d : good d (fst (transition_withdrawal i to at_ reason d)).
Proof.
  unfold transition_withdrawal. destruct (withdrawal_requests d !! i); [|apply good_refl].
  case_match; [apply good_refl|]. apply logged_state. intros w'. apply set_state_same.
Qed.

Lemma sync_good obs minconf at_ d : good d (sync_vault_utxos obs minconf at_ d).
Proof.
  apply utxo_step. intros [_ _ _ _ _ Hr _]. revert Hr. generalize (vault_utxos d).
  induction obs as [|u obs IH]; intros m Hm; [done|]. cbn. apply IH.
  intros k r. destruct (decide ((o_txid u, o_vout u) = k)) as [<-|].
  - rewrite lookup_partial_alter_eq. intros [= <-].
    destruct (m !! _) as [r|] eqn:E; cbn.
    + pose proof (Hm _ _ E) as Hr. cbn in Hr. revert Hr; destruct (r_state r); intros Hr; try exact Hr; case_match; naive_solver.
    + split; [by case_match|intros [? [=]]].
  - rewrite lookup_partial_alter_ne by done. apply Hm.
Qed.

Lemma missing_good present d : good d (fst (mark_missing_utxos_spent present d)).
Proof.
  apply utxo_step. intros [_ _ _ _ _ Hr _] k r Hl. rewrite map_lookup_imap in Hl.
  destruct (vault_utxos d !! k) as [r0|] eqn:E; [|done]. cbn in Hl. injection Hl as <-.
  pose proof (Hr _ _ E) as H0. destruct (missing present k r0) eqn:Hm; [|done].
  unfold missing in Hm. apply bool_decide_eq_true in Hm as [Hst _]. cbn.
  split; [done|]. intros Hs. apply H0 in Hs. rewrite Hs in Hst. by destruct Hst.
Qed.

Lemma reserve_one_good i at_ d u d' : reserve_one i at_ d u = Ok d' -> good d d'.
Proof.
  unfold reserve_one. destruct (vault_utxos d !! _) as [r|] eqn:E; [|done].
  case_bool_decide; [|done]. intros ([] & _ & H')%bind_Ok. injection H' as <-.
  apply utxo_step. intros [_ _ _ _ _ Hr _]. apply map_Forall_insert_2; [|done]. cbn.
  split; [eauto|done].
Qed.

Lemma reserve_good i us at_ d : good d (fst (reserve_utxos i us at_ d)).
Proof.
  unfold reserve_utxos. destruct (foldM _ _ _) as [d'|e] eqn:E; [|apply good_refl]. cbn.
  eapply (foldM_invariant (good d)); [|apply good_refl|exact E].
  intros d1 u d2 H1 H2. eapply good_trans; [exact H1|by eapply reserve_one_good].
Qed.

Lemma release_good i d : good d (fst (release_reservation i d)).
Proof.
  unfold release_reservation. case_bool_decide; [apply good_refl|]. apply utxo_step.
  intros [_ _ _ _ _ Hr _] k r. rewrite lookup_fmap. intros (r0 & E & ->)%fmap_Some.
  destruct (held_by i r0); [|by eapply Hr]. cbn. split; [done|intros [? [=]]].
Qed.

(** The inputs a payout adds, all owned by it and on fresh outpoints. *)
Lemma insert_inputs index us acc acc' :
  foldM (insert_input index) acc us = Ok acc' ->
  exists new, acc' = acc ++ new /\ Forall (fun c => i_index c = index) new /\
    (NoDup (outpoint_of <$> acc) -> NoDup (outpoint_of <$> acc')).
Proof.
  revert acc. induction us as [|u us IH]; intros acc; cbn [foldM].
  - intros [= <-]. exists []. rewrite app_nil_r. by split_and!.
  - intros (acc1 & H1 & H2)%bind_Ok. unfold insert_input in H1.
    apply bind_Ok in H1 as ([] & Hfresh%require_Ok & [= <-]).
    apply bool_decide_eq_true in Hfresh. destruct (IH _ H2) as (new & -> & Hall & Hnd).
    eexists. split; [by rewrite <- app_assoc|]. split; [by apply Forall_cons|].
    intros Ha. apply Hnd. rewrite fmap_app. apply NoDup_app. split_and!; [done| |apply NoDup_singleton].
    intros x Hx ->%list_elem_of_singleton. by apply Hfresh.
Qed.

Lemma create_good p d : good d (fst (create_payout p d)).
Proof.
  unfold create_payout. case_bool_decide as Hk; [apply good_refl|].
  destruct (foldM _ _ _) as [inputs|e] eqn:E; [|apply good_refl]. cbn [fst].
  apply insert_inputs in E as (new & -> & Hnew & Hnd).
  assert (withdrawal_payouts d !! np_index p = None) as Hn.
  { apply eq_None_not_Some. intros ?. apply Hk. by left. }
  split.
  - constructor; cbn; [eauto using same_request_refl| | |done|done].
    + intros i q Hq. rewrite lookup_insert_ne by congruence. eauto using payout_kept_refl.
    + intros i [q Hq]. unfold committed_inputs. cbn. rewrite filter_app.
      assert (filter (fun c => i_index c = i) new = []) as ->; [|by rewrite app_nil_r].
      clear Hnd. induction Hnew as [|c new Hc _ IH]; [done|].
      by rewrite filter_cons_False by congruence.
  - intros []. constructor; cbn; try done.
    + intros i [<-|Hi]%lookup_insert_is_Some'; [|by apply tw_requested0].
      apply not_eq_None_Some. intros ?. apply Hk. by right.
    + auto.
    + apply Forall_app. split.
      * eapply Forall_impl; [exact tw_owned0|]. intros c ?. apply lookup_insert_is_Some'. by right.
      * eapply Forall_impl; [exact Hnew|]. intros c <-. apply lookup_insert_is_Some'. by left.
    + by apply map_Forall_insert_2.
    + eapply Forall_impl; [exact tw_history0|]. intros q (r & Hr & ?).
      rewrite lookup_insert_ne by congruence. eauto.
Qed.

(** Updates that touch neither the terms nor the signature. *)
Lemma progress_good d i f :
  (forall p, p_terms (f p) = p_terms p /\ p_signed_tx_hex (f p) = p_signed_tx_hex p /\
             p_txid (f p) = p_txid p) -> good d (update_payout d i f).
Proof.
  intros Hf. apply payout_step. intros p _. destruct (Hf p) as (E1 & E2 & E3).
  rewrite E2, E3. split; [|done]. constructor; rewrite ?E1; [done|lia|done].
Qed.

Lemma signed_good i hex txid at_ d : good d (fst (record_signed_payout i hex txid at_ d)).
Proof.
  unfold record_signed_payout. case_bool_decide; [apply good_refl|]. cbn [fst].
  eapply good_trans; [|apply logged_state; intros w; apply set_state_same].
  apply payout_step. intros p _. destruct (p_signed_tx_hex p) eqn:E.
  - rewrite E. split; [apply payout_kept_refl|done].
  - cbn. split; [|done]. constructor; cbn; [done|lia|]. rewrite E. intros [? [=]].
Qed.

Lemma complete_good i at_ d : good d (fst (complete_payout i at_ d)).
Proof.
  unfold complete_payout. destruct (withdrawal_payouts d !! i) as [p|]; [|apply good_refl].
  cbn [fst]. eapply good_trans; [|apply logged_state; intros w; apply set_state_same].
  match goal with |- good d (put_utxos ?d1 _) => apply (good_trans d d1) end.
  { by apply progress_good. }
  apply utxo_step. intros [_ _ _ _ _ Hr _] k r. rewrite lookup_fmap. intros (r0 & E & ->)%fmap_Some.
  unfold spend_reserved. case_bool_decide; [|by eapply Hr]. cbn. split; [done|intros [? [=]]].
Qed.

Lemma reassign_good i q c int tx reason at_ d :
  good d (fst (reassign_payout_quorum i q c int tx reason at_ d)).
Proof.
  unfold reassign_payout_quorum. case_match; [apply good_refl|].
  destruct (withdrawal_payouts d !! i) as [p|] eqn:E; [|apply good_refl].
  case_bool_decide as Hs; [apply good_refl|]. do 2 (case_match; [apply good_refl|]). cbn [fst].
  eapply good_trans; [|apply log_step]. split.
  - constructor; cbn; [eauto using same_request_refl| |done|done|by apply prefix_app_r].
    intros j r Hr. destruct (decide (i = j)) as [->|].
    + rewrite lookup_alter_eq, Hr. eexists. split; [done|]. simplify_eq.
      constructor; cbn; [done|lia|done].
    + rewrite lookup_alter_ne by done. eauto using payout_kept_refl.
  - intros []. constructor; cbn; try done.
    + intros j. rewrite alter_is_Some. apply tw_requested0.
    + eapply Forall_impl; [exact tw_owned0|]. intros x. cbn. by rewrite alter_is_Some.
    + intros j r [(-> & y & Hy & ->)|[_ Hw]]%alter_Some; [|by eapply tw_signed0].
      cbn. by eapply tw_signed0.
    + apply Forall_app. split.
      * eapply Forall_impl; [exact tw_history0|]. intros h (r & Hr & ?).
        destruct (decide (i = q_index h)) as [->|].
        -- rewrite lookup_alter_eq, Hr. eexists. split; [done|]. simplify_eq. cbn. lia.
        -- rewrite lookup_alter_ne by done. eauto.
      * apply Forall_singleton. cbn. rewrite lookup_alter_eq, E. eexists. split; [done|]. cbn. lia.
Qed.

Lemma operator_good i to note at_ d : good d (fst (operator_clear_withdrawal_halt i to note at_ d)).
Proof.
  unfold operator_clear_withdrawal_halt. do 2 (case_match; [apply good_refl|]).
  destruct (withdrawal_requests d !! i); [|apply good_refl]. case_match; [apply good_refl|].
  apply logged_state. intros w'. apply set_state_same.
Qed.

Lemma halt_good i at_ from reason e r diff d : good d (halt i at_ from reason e r diff d).
Proof. apply logged_state. intros w. apply set_state_same. Qed.

Section guard_props.
Context `{Sh : Sha2}.

Lemma verify_good i at_ d : good d (fst (verify_and_load_signable_payout i at_ d)).
Proof.
  unfold verify_and_load_signable_payout.
  repeat (case_match; cbn [fst]; try apply good_refl; try apply halt_good).
Qed.

Lemma wstep_good d d' : wstep d d' -> good d d'.
Proof.
  intros [].
  - apply observe_good.
  - apply transition_good.
  - apply sync_good.
  - apply missing_good.
  - apply reserve_good.
  - apply release_good.
  - apply create_good.
  - apply signed_good.
  - by apply progress_good.
  - by apply progress_good.
  - apply complete_good.
  - apply reassign_good.
  - apply operator_good.
  - by apply progress_good.
  - apply verify_good.
Qed.

Lemma wsteps_good d d' : star wstep d d' -> good d d'.
Proof.
  induction 1 as [d|d d1 d2 _ IH Hs]; [apply good_refl|].
  eapply good_trans; [exact IH|by apply wstep_good].
Qed.

(** Every database reached from the empty one by the operations of withdrawal_db.rs
    keys requests by index, has payouts only for known requests, commits each outpoint
    to at most one payout, has signed bytes and txid together or not at all, marks an
    output Reserved exactly when someone holds it, and records only superseded quorum
    attempts in the history. *)
Theorem withdrawal_tables_well_formed d : star wstep empty_tables d -> tables_wf d.
Proof. intros Hs. apply (wsteps_good _ _ Hs), empty_tables_wf. Qed.
End guard_props.

(** ** The guard, exactly *)

(** A committed input as the live vault table shows it. *)
Definition input_live (index : Z) (d : Tables) (c : PayoutInput) (u : VaultUtxo) : Prop :=
  exists r, vault_utxos d !! outpoint_of c = Some r /\ r_state r = Reserved /\
    r_reserved_by r = Some index /\ r_amount r = i_amount c /\
    u = {| u_txid := i_txid c; u_txid_hex := encode (i_txid c); u_vout := i_vout c;
           u_amount := i_amount c; u_script := r_script r; u_confirmations := r_confirmations r |}.

Lemma check_input_Ok index d c u : check_input index d c = Ok u <-> input_live index d c u.
Proof.
  unfold check_input, input_live, outpoint_of. split.
  - intros (r & Hr & H)%bind_Ok. apply ok_or_Ok in Hr.
    apply bind_Ok in H as ([] & H1%require_Ok & H). apply bind_Ok in H as ([] & H2%require_Ok & H).
    apply bind_Ok in H as ([] & H3%require_Ok & [= <-]). bools. eauto 10.
  - intros (r & -> & Hs & Hb & Ha & ->). cbn [mbind result_bind ok_or].
    rewrite !bool_decide_true by done. cbn. by rewrite (proj2 (Z.eqb_eq _ _)).
Qed.

Lemma check_inputs_Ok index d cs us :
  check_inputs index d cs = Ok us <-> Forall2 (input_live index d) cs us.
Proof.
  revert us. induction cs as [|c cs IH]; intros us; cbn [check_inputs].
  - split; [intros [= <-]; constructor|intros H; by inversion H].
  - split.
    + intros (u & Hu%check_input_Ok & H)%bind_Ok. apply bind_Ok in H as (us' & Hus%IH & [= <-]).
      by constructor.
    + intros H. inversion H as [|? u ? us' Hu Hus]; subst.
      apply check_input_Ok in Hu. apply IH in Hus. by rewrite Hu, Hus.
Qed.

Section guard_verdict.
Context `{Sh : Sha2}.

(** Everything the guard demands of withdrawal [index] before it hands out
    [s] for signing. *)
Record payout_ready (index : Z) (d : Tables) (w : WithdrawalRow) (p : PayoutRow)
    (s : SignablePayout) : Prop := {
  pr_request : withdrawal_requests d !! index = Some w;
  pr_payout : withdrawal_payouts d !! index = Some p;
  pr_open : p_completed_at p = None /\ p_confirmations p <= 0 /\ p_signed_tx_hex p = None;
  pr_inputs : committed_inputs index d <> [] /\
              Forall2 (input_live index d) (committed_inputs index d) (s_inputs s);
  pr_commitment : payout_commitment (t_intent_bytes (p_terms p)) = t_commitment_hash (p_terms p);
  pr_intent : exists change_hash160,
      change_hash160_of index (p_terms p) = Ok change_hash160 /\
      recomputed_intent index w (p_terms p) change_hash160 (s_inputs s) =
        t_intent_bytes (p_terms p);
  pr_amount : t_payout (p_terms p) = w_amount w;
  pr_result : s = signable index w (p_terms p) (s_inputs s) (t_intent_bytes (p_terms p))
}.

Lemma verify_Ok index at_ d d' s :
  verify_and_load_signable_payout index at_ d = (d', Ok s) <->
  d' = d /\ exists w p, payout_ready index d w p s.
Proof.
  unfold verify_and_load_signable_payout. split.
  - destruct (withdrawal_requests d !! index) as [w|] eqn:Ew; [|done].
    destruct (withdrawal_payouts d !! index) as [p|] eqn:Ep; [|done].
    case_bool_decide as H1; [done|]. destruct (Z.ltb_spec 0 (p_confirmations p)); [done|].
    case_bool_decide as H3; [done|]. destruct (committed_inputs index d) as [|c cs] eqn:Ec; [done|].
    destruct (check_inputs _ _ _) as [inputs|[audit reason]] eqn:Ei; [|done].
    destruct (change_hash160_of _ _) as [h|e] eqn:Eh; [|done].
    case_bool_decide as H4; [cbn [negb]|done]. case_bool_decide as H5; [cbn [negb]|done].
    destruct (Z.eqb_spec (t_payout (p_terms p)) (w_amount w)); [cbn [negb]|done].
    intros [= <- <-]. split; [done|]. exists w, p. apply check_inputs_Ok in Ei.
    constructor; cbn [signable s_inputs]; rewrite ?Ec; try done; [|eauto|by rewrite <- H5].
    apply eq_None_not_Some in H1, H3. done.
  - intros (-> & w & p & [Hw Hp (Hc & Hn & Hs) [Hne Hi] Hcm (h & Hh & Hint) Ham Hres]).
    rewrite Hw, Hp, Hc, Hs. rewrite !bool_decide_false by (by apply is_Some_None).
    rewrite (proj2 (Z.ltb_ge _ _)) by done. apply check_inputs_Ok in Hi.
    destruct (committed_inputs index d) as [|c cs]; [done|]. rewrite Hi, Hh.
    rewrite (bool_decide_true (payout_commitment _ = _)) by done. cbn [negb].
    rewrite Hint, bool_decide_true by done. cbn [negb].
    rewrite (proj2 (Z.eqb_eq _ _)) by done. cbn [negb]. by rewrite Hres at 2.
Qed.

(** A failed guard writes nothing but the halt of this one withdrawal. *)
Lemma verify_Err index at_ d d' e :
  verify_and_load_signable_payout index at_ d = (d', Err e) ->
  d' = d \/ exists w reason x r diff, withdrawal_requests d !! index = Some w /\
    d' = halt index at_ (w_state w) reason x r diff d.
Proof.
  unfold verify_and_load_signable_payout.
  destruct (withdrawal_requests d !! index) as [w|] eqn:Ew; [|intros [= <- _]; by left].
  repeat (case_match; try (intros [= <- _]; first [by left|right; eauto 10])).
  all: try done.
Qed.

(** The pre-signing guard on a withdrawal with a payout (and a decodable change
    address): it releases a signable payout exactly when the payout is unsigned,
    unconfirmed and open, every committed input is live and reserved by this withdrawal
    at its committed amount, the commitment hashes the stored intent, the intent
    recomputed from live rows equals it and the payout equals the burned amount, and
    then writes nothing; otherwise it errs, and the only writes are this withdrawal's
    halt and one log row. *)
Theorem payout_guard_verdict index at_ d w p :
  withdrawal_requests d !! index = Some w -> withdrawal_payouts d !! index = Some p ->
  (exists h, change_hash160_of index (p_terms p) = Ok h) ->
  let '(d', res) := verify_and_load_signable_payout index at_ d in
  (exists s, res = Ok s /\ payout_ready index d w p s /\ d' = d) \/
  ((forall s, ~ payout_ready index d w p s) /\ (exists e, res = Err e) /\
   exists w' l, withdrawal_requests d' !! index = Some w' /\ w_state w' = IntegrityHalted /\
     withdrawal_state_log d' = withdrawal_state_log d ++ [l] /\ l_index l = index /\
     l_from l = Some (w_state w) /\ l_to l = IntegrityHalted /\
     withdrawal_payouts d' = withdrawal_payouts d /\ vault_utxos d' = vault_utxos d).
Proof.
  intros Hw Hp [h Hh]. destruct (verify_and_load_signable_payout index at_ d) as [d' [s|e]] eqn:E.
  - left. apply verify_Ok in E as (-> & w' & p' & Hr). destruct (pr_request _ _ _ _ _ Hr).
    exists s. split; [done|]. split; [|done]. pose proof (pr_request _ _ _ _ _ Hr).
    pose proof (pr_payout _ _ _ _ _ Hr). by simplify_eq.
  - right. split.
    { intros s Hr. assert (verify_and_load_signable_payout index at_ d = (d, Ok s))
        by (apply verify_Ok; eauto). congruence. }
    split; [eauto|].
    assert (exists reason x r diff, d' = halt index at_ (w_state w) reason x r diff d)
      as (reason & x & r & diff & ->).
    { unfold verify_and_load_signable_payout in E. rewrite Hw, Hp in E. revert E.
      rewrite Hh. repeat (case_match; try (intros [= <- _]; eauto)); done. }
    cbn. rewrite lookup_alter_eq, Hw. eexists _, _. by split_and!.
Qed.
End guard_verdict.

(** ** Never twice *)

Lemma wsteps_wf `{Sha2} d : star wstep empty_tables d -> tables_wf d.
Proof. intros Hs. apply (wsteps_good _ _ Hs), empty_tables_wf. Qed.

(** Two rows of the inputs table on one outpoint are one row. *)
Lemma same_outpoint d c c' :
  tables_wf d -> c ∈ withdrawal_payout_inputs d -> c' ∈ withdrawal_payout_inputs d ->
  outpoint_of c = outpoint_of c' -> c = c'.
Proof.
  intros Hwf [n Hn]%list_elem_of_lookup [m Hm]%list_elem_of_lookup He.
  assert (n = m) as ->; [|congruence].
  eapply NoDup_lookup; [apply (tw_unique _ Hwf)|by rewrite list_lookup_fmap, Hn|].
  by rewrite list_lookup_fmap, Hm; cbn; rewrite He.
Qed.

Lemma committed_elem i d c : c ∈ committed_inputs i d -> i_index c = i /\ c ∈ withdrawal_payout_inputs d.
Proof. unfold committed_inputs. by intros [? ?]%list_elem_of_filter. Qed.

(** The inputs of a signable payout are its committed outpoints. *)
Lemma signable_outpoints `{Sha2} index d w p s u :
  payout_ready index d w p s -> u ∈ s_inputs s ->
  exists c, c ∈ committed_inputs index d /\ outpoint_of c = (u_txid u, u_vout u) /\
    i_amount c = u_amount u.
Proof.
  intros Hr [n Hn]%list_elem_of_lookup. destruct (pr_inputs _ _ _ _ _ Hr) as [_ Hf].
  destruct (Forall2_lookup_r _ _ _ _ _ Hf Hn) as (c & Hc & r & Hl & _ & _ & Ha & ->).
  exists c. split_and!; [|done|done]. apply list_elem_of_lookup. eauto.
Qed.

Lemma verify_tables `{Sha2} i at_ d s :
  snd (verify_and_load_signable_payout i at_ d) = Ok s -> exists w p, payout_ready i d w p s.
Proof.
  destruct (verify_and_load_signable_payout i at_ d) as [d' res] eqn:E. cbn. intros ->.
  by apply verify_Ok in E as [_ ?].
Qed.

Section never_twice.
Context `{Sh : Sha2}.

(** The payouts the guard releases for two different withdrawals, at any two
    moments of any history of the database, never spend a common vault outpoint. *)
Theorem signable_payouts_share_no_input d1 d2 i j at1 at2 s1 s2 :
  star wstep empty_tables d1 -> star wstep d1 d2 ->
  snd (verify_and_load_signable_payout i at1 d1) = Ok s1 ->
  snd (verify_and_load_signable_payout j at2 d2) = Ok s2 -> i <> j ->
  forall u1 u2, u1 ∈ s_inputs s1 -> u2 ∈ s_inputs s2 ->
    (u_txid u1, u_vout u1) <> (u_txid u2, u_vout u2).
Proof.
  intros H1 H12 (w1 & p1 & R1)%verify_tables (w2 & p2 & R2)%verify_tables Hij u1 u2 Hu1 Hu2 He.
  destruct (signable_outpoints _ _ _ _ _ _ R1 Hu1) as (c1 & Hc1 & E1 & _).
  destruct (signable_outpoints _ _ _ _ _ _ R2 Hu2) as (c2 & Hc2 & E2 & _).
  destruct (wsteps_good _ _ H12) as [Hk Hwf].
  rewrite <- (k_inputs _ _ Hk) in Hc1 by (rewrite (pr_payout _ _ _ _ _ R1); eauto).
  apply committed_elem in Hc1 as [<- Hc1], Hc2 as [<- Hc2]. apply Hij. f_equal.
  eapply same_outpoint; [by apply Hwf, wsteps_wf|done|done|congruence].
Qed.

(** C5: Once a payout has been signed, in every later state of the database its signed
    bytes, txid, terms and inputs are unchanged, and for that withdrawal the guard never
    again releases anything to sign, no second payout can be created and the quorum
    cannot be re-designated. *)
Theorem signed_payout_is_final d d' i p :
  star wstep empty_tables d -> star wstep d d' ->
  withdrawal_payouts d !! i = Some p -> is_Some (p_signed_tx_hex p) ->
  (exists p', withdrawal_payouts d' !! i = Some p' /\ p_signed_tx_hex p' = p_signed_tx_hex p /\
     p_txid p' = p_txid p /\ p_terms p' = p_terms p /\ is_Some (p_txid p')) /\
  committed_inputs i d' = committed_inputs i d /\
  (forall at_ s, snd (verify_and_load_signable_payout i at_ d') <> Ok s) /\
  (forall np, np_index np = i -> create_payout np d' = (d', Err SqliteConstraint)) /\
  (forall q c int tx reason at_, exists e,
     reassign_payout_quorum i q c int tx reason at_ d' = (d', Err e)).
Proof.
  intros H0 H1 Hp Hs. destruct (wsteps_good _ _ H1) as [Hk Hwf].
  specialize (Hwf (wsteps_wf _ H0)).
  destruct (k_payouts _ _ Hk i p Hp) as (p' & Hp' & [_ _ Hsig]).
  destruct (Hsig Hs) as (E1 & E2 & E3). rewrite <- E1 in Hs. split_and!.
  - exists p'. split_and!; try done. apply not_eq_None_Some.
    intros Hn%(tw_signed _ Hwf i p' Hp'). rewrite Hn in Hs. by destruct Hs.
  - apply (k_inputs _ _ Hk). eauto.
  - intros at_ s (w & q & Hr)%verify_tables. destruct (pr_open _ _ _ _ _ Hr) as (_ & _ & Hn).
    pose proof (pr_payout _ _ _ _ _ Hr). simplify_eq. rewrite Hn in Hs. by destruct Hs.
  - intros np <-. unfold create_payout. rewrite bool_decide_true; [done|]. left. eauto.
  - intros q c int tx reason at_. unfold reassign_payout_quorum. case_match; [eauto|].
    rewrite Hp'. rewrite bool_decide_true by done. eauto.
Qed.

(** No operation of the withdrawal database ever removes a payout or a request or
    changes the paid amount, fee, change, burned amount or destination; quorum attempts
    only grow, and the state log and quorum history only get longer. *)
Theorem payout_record_is_permanent d d' i p w :
  star wstep empty_tables d -> star wstep d d' ->
  withdrawal_payouts d !! i = Some p -> withdrawal_requests d !! i = Some w ->
  (exists p' w', withdrawal_payouts d' !! i = Some p' /\ withdrawal_requests d' !! i = Some w' /\
     t_payout (p_terms p') = t_payout (p_terms p) /\ t_fee (p_terms p') = t_fee (p_terms p) /\
     t_change (p_terms p') = t_change (p_terms p) /\
     t_quorum_attempt (p_terms p) <= t_quorum_attempt (p_terms p') /\
     w_amount w' = w_amount w /\ w_hash160 w' = w_hash160 w) /\
  withdrawal_state_log d `prefix_of` withdrawal_state_log d' /\
  withdrawal_quorum_history d `prefix_of` withdrawal_quorum_history d'.
Proof.
  intros H0 H1 Hp Hw. destruct (wsteps_good _ _ H1) as [Hk _].
  destruct (k_payouts _ _ Hk i p Hp) as (p' & Hp' & [Ha Ht _]).
  destruct (k_requests _ _ Hk i w Hw) as (w' & Hw' & Hsame). unfold same_request in Hsame.
  split; [|split; apply Hk]. exists p', w'. injection Ha as -> -> -> _ _. destruct_and!.
  by split_and!.
Qed.
End never_twice.

(** ** The intent encoding *)

Definition input_sized (u : VaultUtxo) : Prop :=
  length (u_txid u) = 32%nat /\ in_u32 (u_vout u) /\ in_u64 (u_amount u).

Definition intent_sized (vh dh ch quorum : list byte) (inputs : list VaultUtxo) : Prop :=
  length vh = 20%nat /\ length dh = 20%nat /\ length ch = 20%nat /\
  (length quorum < 256)%nat /\ Z.of_nat (length inputs) <= U32_MAX /\ Forall input_sized inputs.

Definition outpoint_amount (u : VaultUtxo) : list byte * Z * Z := (u_txid u, u_vout u, u_amount u).

Lemma input_bytes_inj u1 u2 :
  input_sized u1 -> input_sized u2 -> input_bytes u1 = input_bytes u2 ->
  outpoint_amount u1 = outpoint_amount u2.
Proof.
  intros (L1 & V1 & A1) (L2 & V2 & A2) He. unfold input_bytes in He. split_fields He.
  unfold outpoint_amount. f_equal; [f_equal|]; eauto with field_inj.
Qed.

Lemma inputs_bytes_inj us1 us2 :
  Forall input_sized us1 -> Forall input_sized us2 -> length us1 = length us2 ->
  concat (input_bytes <$> us1) = concat (input_bytes <$> us2) ->
  outpoint_amount <$> us1 = outpoint_amount <$> us2.
Proof.
  intros H1 H2 Hl Hc.
  assert (forall us, Forall input_sized us -> Forall (fun x => length x = 44%nat) (input_bytes <$> us))
    as Hlen.
  { intros us Hus. apply Forall_fmap. eapply Forall_impl; [exact Hus|]. intros u (Ht & _). cbn.
    unfold input_bytes. rewrite !length_app, !length_le_bytes. lia. }
  apply (concat_chunks_inj 44) in Hc; [|by apply Hlen|by apply Hlen|by rewrite !length_fmap].
  clear Hlen Hl. revert us2 H2 Hc. induction H1 as [|u1 us1 Hu1 _ IH]; intros [|u2 us2] H2 Hc;
    try discriminate Hc; [done|].
  apply Forall_cons in H2 as [Hu2 H2]. cbn in Hc. injection Hc as Hu Hc.
  cbn. f_equal; [by apply input_bytes_inj|by apply IH].
Qed.

Lemma le_bytes_1_inj a b : 0 <= a < 256 -> 0 <= b < 256 -> le_bytes 1 a = le_bytes 1 b -> a = b.
Proof. intros Ha Hb. by apply le_bytes_inj. Qed.

(** The canonical payout intent is injective: equal bytes mean the same version,
    withdrawal, vault, destination, payout, fee, change, change address, quorum attempt,
    designated signers and ordered inputs with their amounts. *)
Theorem payout_intent_determines_payout
    v1 i1 vh1 dh1 p1 f1 c1 ch1 a1 q1 us1 v2 i2 vh2 dh2 p2 f2 c2 ch2 a2 q2 us2 :
  intent_sized vh1 dh1 ch1 q1 us1 -> intent_sized vh2 dh2 ch2 q2 us2 ->
  in_u8 v1 -> in_u8 v2 -> in_i64 i1 -> in_i64 i2 -> in_u64 p1 -> in_u64 p2 ->
  in_u64 f1 -> in_u64 f2 -> in_u64 c1 -> in_u64 c2 -> in_u32 a1 -> in_u32 a2 ->
  canonical_payout_intent v1 i1 vh1 dh1 p1 f1 c1 ch1 a1 q1 us1 =
  canonical_payout_intent v2 i2 vh2 dh2 p2 f2 c2 ch2 a2 q2 us2 ->
  (v1, i1, vh1, dh1, p1, f1, c1, ch1, a1, q1) = (v2, i2, vh2, dh2, p2, f2, c2, ch2, a2, q2) /\
  outpoint_amount <$> us1 = outpoint_amount <$> us2.
Proof.
  intros (Lvh1 & Ldh1 & Lch1 & Lq1 & Ln1 & Hus1) (Lvh2 & Ldh2 & Lch2 & Lq2 & Ln2 & Hus2).
  intros ? ? ? ? ? ? ? ? ? ? ? ? He. unfold canonical_payout_intent in He.
  apply app_inv_head in He. split_fields He.
  assert (length q1 = length q2) as Lq by (apply Nat2Z.inj, le_bytes_1_inj; lia || done).
  split_fields He.
  assert (length us1 = length us2) as Lus.
  { apply Nat2Z.inj. unfold U32_MAX in *.
    apply le_bytes_u32_inj; unfold in_u32, U32_MAX; lia || done. }
  split; [|by apply inputs_bytes_inj].
  assert (v1 = v2) as -> by (apply le_bytes_1_inj; unfold in_u8, U8_MAX in *; lia || done).
  repeat f_equal; eauto with field_inj.
Qed.

(** ** A concrete history *)

#[local] Existing Instance toy_sha2.

Definition demo_request (i : Z) : NewWithdrawalRequest :=
  {| nw_index := i; nw_pda := replicate 32 (byte_of_Z i); nw_amount := 500;
     nw_requester := replicate 32 x11; nw_address := lit "m"; nw_hash160 := replicate 20 xaa;
     nw_slot := 100; nw_version := 1; nw_observed_at := 1000; nw_observed_at_slot := 100 |}.
Definition demo_utxo (i : Z) : VaultUtxo :=
  {| u_txid := replicate 32 (byte_of_Z (i + 50)); u_txid_hex := encode (replicate 32 (byte_of_Z (i + 50)));
     u_vout := 0; u_amount := 520; u_script := lit "76"; u_confirmations := 10 |}.
Definition demo_observed (i : Z) : ObservedUtxo :=
  {| o_txid := u_txid (demo_utxo i); o_vout := 0; o_amount := 520; o_script := lit "76";
     o_confirmations := 10 |}.
Definition demo_intent (i : Z) : list byte :=
  canonical_payout_intent 1 i (replicate 20 xcc) (replicate 20 xaa) 500 20 0 (replicate 20 x00)
    0 [x00; x02] [demo_utxo i].
Definition demo_terms (i : Z) : PayoutTerms :=
  {| t_vault_script_hash := replicate 20 xcc; t_quorum_indices := [x00; x02];
     t_quorum_attempt := 0; t_commitment_hash := payout_commitment (demo_intent i);
     t_intent_bytes := demo_intent i; t_fee := 20; t_payout := 500; t_change := 0;
     t_change_address := None; t_unsigned_tx_hex := lit "0100"; t_built_at := 1100 |}.

Definition demo_open (i : Z) (d : Tables) : Tables :=
  let d := fst (observe_withdrawal (demo_request i) d) in
  let d := sync_vault_utxos [demo_observed i] 1 1000 d in
  let d := fst (reserve_utxos i [demo_utxo i] 1000 d) in
  fst (create_payout {| np_index := i; np_terms := demo_terms i; np_inputs := [demo_utxo i] |} d).
Definition demo_sign (i : Z) (d : Tables) : Tables :=
  fst (record_signed_payout i (lit "02") (replicate 32 xdd) 1200 d).

Lemma demo_open_steps i d : star wstep d (demo_open i d).
Proof.
  unfold demo_open. do 4 (eapply star_step; [|constructor]). apply star_refl.
Qed.

Definition demo_1 : Tables := demo_open 1 empty_tables.
Definition demo_2 : Tables := demo_open 2 demo_1.
Definition demo_signed : Tables := demo_sign 1 demo_1.

Definition demo_row (i : Z) : WithdrawalRow := row_of_request (demo_request i).
Definition demo_signable (i : Z) : SignablePayout :=
  signable i (demo_row i) (demo_terms i) [demo_utxo i] (demo_intent i).

Lemma demo_1_steps : star wstep empty_tables demo_1.
Proof. apply demo_open_steps. Qed.
Lemma demo_2_steps : star wstep demo_1 demo_2.
Proof. apply demo_open_steps. Qed.
Lemma demo_signed_steps : star wstep empty_tables demo_signed.
Proof. eapply star_step; [apply demo_1_steps|apply ws_signed]. Qed.

Lemma withdrawal_tables_well_formed_witness : tables_wf demo_signed.
Proof. apply (withdrawal_tables_well_formed demo_signed), demo_signed_steps. Defined.

Lemma signable_payouts_share_no_input_witness :
  (u_txid (demo_utxo 1), u_vout (demo_utxo 1)) <> (u_txid (demo_utxo 2), u_vout (demo_utxo 2)).
Proof.
  apply (signable_payouts_share_no_input demo_1 demo_2 1 2 1200 1300 (demo_signable 1)
           (demo_signable 2) demo_1_steps demo_2_steps).
  - vm_compute. reflexivity.
  - vm_compute. reflexivity.
  - lia.
  - apply list_elem_of_singleton. reflexivity.
  - apply list_elem_of_singleton. reflexivity.
Defined.

Definition demo_signed_row : PayoutRow :=
  {| p_terms := demo_terms 1; p_signed_tx_hex := Some (lit "02");
     p_txid := Some (replicate 32 xdd); p_signed_at := Some 1200; p_broadcast_at := None;
     p_mined_block_hash := None; p_mined_height := None; p_confirmations := 0;
     p_completed_at := None; p_onchain_completed_at := None; p_onchain_signature := None |}.

Lemma signed_payout_is_final_witness :
  (exists p', withdrawal_payouts (demo_open 2 demo_signed) !! 1 = Some p' /\
     p_txid p' = Some (replicate 32 xdd)) /\
  forall at_ s, snd (verify_and_load_signable_payout 1 at_ (demo_open 2 demo_signed)) <> Ok s.
Proof.
  destruct (signed_payout_is_final demo_signed (demo_open 2 demo_signed) 1 demo_signed_row)
    as ((p' & Hp & _ & Ht & _) & _ & Hv & _).
  - apply demo_signed_steps.
  - apply demo_open_steps.
  - vm_compute. reflexivity.
  - eexists. reflexivity.
  - split; [exists p'; split; [exact Hp|exact Ht]|exact Hv].
Defined.

Lemma payout_record_is_permanent_witness :
  exists p' w', withdrawal_payouts demo_2 !! 1 = Some p' /\ withdrawal_requests demo_2 !! 1 = Some w' /\
    t_payout (p_terms p') = 500 /\ w_amount w' = 500.
Proof.
  destruct (payout_record_is_permanent demo_1 demo_2 1 (new_row (demo_terms 1)) (demo_row 1))
    as ((p' & w' & Hp & Hw & Ht & _ & _ & _ & Ha & _) & _).
  - apply demo_1_steps.
  - apply demo_2_steps.
  - vm_compute. reflexivity.
  - vm_compute. reflexivity.
  - exists p', w'. split; [exact Hp|]. split; [exact Hw|]. split; [exact Ht|exact Ha].
Defined.

Lemma payout_guard_verdict_witness :
  exists s, payout_ready 1 demo_1 (demo_row 1) (new_row (demo_terms 1)) s.
Proof.
  assert (withdrawal_requests demo_1 !! 1 = Some (demo_row 1)) as Hw by (vm_compute; reflexivity).
  assert (withdrawal_payouts demo_1 !! 1 = Some (new_row (demo_terms 1))) as Hp
    by (vm_compute; reflexivity).
  assert (exists e, snd (verify_and_load_signable_payout 1 1200 demo_1) = Ok e) as [e He]
    by (exists (demo_signable 1); vm_compute; reflexivity).
  pose proof (payout_guard_verdict 1 1200 demo_1 (demo_row 1) (new_row (demo_terms 1)) Hw Hp
                (ex_intro _ (replicate 20 x00) eq_refl)) as H.
  destruct (verify_and_load_signable_payout 1 1200 demo_1) as [d' res].
  destruct H as [(s & _ & Hs & _)|(_ & (e' & He') & _)]; [exists s; exact Hs|].
  cbn in He. rewrite He' in He. discriminate He.
Defined.

Lemma payout_intent_determines_payout_witness :
  outpoint_amount <$> [demo_utxo 1] = outpoint_amount <$> [demo_utxo (3 - 2)].
Proof.
  assert (intent_sized (replicate 20 xcc) (replicate 20 xaa) (replicate 20 x00) [x00; x02]
            [demo_utxo 1]) as Hs.
  { unfold intent_sized, U32_MAX. split_and!; [done|done|done|cbn; lia|cbn; lia|].
    apply Forall_singleton. split_and!; [done|vm_compute; split; congruence..]. }
  apply (payout_intent_determines_payout 1 1 (replicate 20 xcc) (replicate 20 xaa) 500 20 0
           (replicate 20 x00) 0 [x00; x02] [demo_utxo 1] 1 1 (replicate 20 xcc) (replicate 20 xaa)
           500 20 0 (replicate 20 x00) 0 [x00; x02] [demo_utxo (3 - 2)] Hs Hs);
    vm_compute; try (split; congruence).
Defined.

(** ** Behaviours the comments do not promise *)

(** [ORDER BY amount_atomic DESC] compares little-endian blobs: an output of
    255 units sorts before one of 256. *)
Definition demo_two_utxos : Tables :=
  sync_vault_utxos
    [{| o_txid := replicate 32 x01; o_vout := 0; o_amount := 256; o_script := []; o_confirmations := 9 |};
     {| o_txid := replicate 32 x02; o_vout := 0; o_amount := 255; o_script := []; o_confirmations := 9 |}]
    1 0 empty_tables.
Example available_utxos_not_numeric : u_amount <$> available_utxos 1 demo_two_utxos = [255; 256].
Proof. by vm_compute. Qed.

(** [mark_missing_utxos_spent] looks at txids only: an output that is gone
    stays [Available] while a sibling output of its transaction is reported. *)
Example missing_output_with_present_sibling :
  snd (mark_missing_utxos_spent [replicate 32 x01] demo_two_utxos) = Ok 1%nat /\
  (forall v, missing [replicate 32 x01] (replicate 32 x01, v)
     {| r_amount := 1; r_script := []; r_confirmations := 9; r_first_seen_at := 0;
        r_state := Available; r_reserved_by := None; r_reserved_at := None; r_spent_by := None |}
   = false).
Proof. split; [by vm_compute|]. intros v. by vm_compute. Qed.

(** An undecodable change address is refused without a halt. *)
Lemma undecodable_change_is_not_halted `{Sh : Sha2} i at_ d w p e inputs :
  withdrawal_requests d !! i = Some w -> withdrawal_payouts d !! i = Some p ->
  p_completed_at p = None -> p_confirmations p <= 0 -> p_signed_tx_hex p = None ->
  committed_inputs i d <> [] -> check_inputs i d (committed_inputs i d) = Ok inputs ->
  change_hash160_of i (p_terms p) = Err e ->
  verify_and_load_signable_payout i at_ d = (d, Err e).
Proof.
  intros Hw Hp Hc Hn Hs Hne Hi He. unfold verify_and_load_signable_payout.
  rewrite Hw, Hp, Hc, Hs, !bool_decide_false by (by apply is_Some_None).
  rewrite (proj2 (Z.ltb_ge _ _)) by done. destruct (committed_inputs i d); [done|].
  by rewrite Hi, He.
Qed.

(** [record_signed_payout] moves the withdrawal to [Broadcast] whatever its
    state, also when the payout was signed before and keeps its first txid. *)
Example second_signature_is_logged_not_stored :
  let d := demo_sign 1 (demo_sign 1 demo_1) in
  (w_state <$> withdrawal_requests d !! 1) = Some Broadcast /\
  length (withdrawal_state_log d) = 3%nat /\
  (withdrawal_payouts d !! 1 ≫= p_txid) = Some (replicate 32 xdd).
Proof. split_and!; by vm_compute. Qed.

(** A halted withdrawal is left only through the operator's recovery. *)
Lemma halted_transitions to :
  may_transition_to IntegrityHalted to = true -> to = Validated \/ to = Failed.
Proof. destruct to; cbn; auto; discriminate. Qed.

Lemma withdrawal_parse_as_str s : parse (as_str s) = Ok s.
Proof. by destruct s; vm_compute. Qed.
