(* ===== verification/Coin.v ===== *)
(** * Fee policy and coin selection: [relayer/src/withdrawal/coin.rs]

    [u64] sums wrap (the relayer's release profile has no overflow checks)
    and the saturating operations saturate.  The theorems say a selection
    conserves value exactly, pays at least the configured fee, creates no
    dust and stays within the input cap, and that a refusal for lack of funds
    is right. *)
From Stdlib Require Import ZArith Lia Strings.Byte.
From stdpp Require Import base numbers strings gmap list.
From S2P Require Import Prelude Hex DepositDb WithdrawalDb.

Definition TX_OVERHEAD_BYTES : Z := 10.
Definition INPUT_BYTES : Z := 148.
Definition OUTPUT_BYTES : Z := 34.

Definition wrap_u64 (z : Z) : Z := z mod 2 ^ 64.
Definition saturating_mul (a b : Z) : Z := Z.min U64_MAX (a * b).
Definition saturating_add (a b : Z) : Z := Z.min U64_MAX (a + b).
Definition saturating_sub (a b : Z) : Z := Z.max 0 (a - b).
Definition div_ceil (a b : Z) : Z := (a + b - 1) / b.

Definition estimated_size_bytes (num_inputs num_outputs : Z) : Z :=
  wrap_u64 (TX_OVERHEAD_BYTES + INPUT_BYTES * num_inputs + OUTPUT_BYTES * num_outputs).

Definition fee_for (num_inputs num_outputs fee_rate_per_kb : Z) : Z :=
  div_ceil (saturating_mul (estimated_size_bytes num_inputs num_outputs) fee_rate_per_kb) 1000.

Record Selection := {
  sel_inputs : list VaultUtxo; sel_fee : Z; sel_change : Z; sel_total_in : Z
}.

Inductive SelectionError :=
| Insufficient (required available : Z)
| TooManyInputs (needed max : nat).

(** [iter().map(|u| u.amount_atomic).sum()] *)
Definition total (us : list VaultUtxo) : Z := wrap_u64 (sumZ u_amount us).

Definition finalize (inputs : list VaultUtxo) (amount rate dust : Z) : Selection :=
  let total_in := total inputs in
  let n := Z.of_nat (length inputs) in
  let fee_with_change := fee_for n 2 rate in
  let change := saturating_sub (saturating_sub total_in amount) fee_with_change in
  if change =? 0 then
    {| sel_inputs := inputs; sel_fee := saturating_sub total_in amount; sel_change := 0;
       sel_total_in := total_in |}
  else if change <? dust then
    {| sel_inputs := inputs; sel_fee := saturating_sub total_in amount; sel_change := 0;
       sel_total_in := total_in |}
  else
    {| sel_inputs := inputs; sel_fee := fee_with_change; sel_change := change;
       sel_total_in := total_in |}.

(** [a.amount.cmp(&b.amount).then(txid_hex).then(vout) == Less] *)
Definition smaller (a b : VaultUtxo) : bool :=
  (u_amount a <? u_amount b) ||
  ((u_amount a =? u_amount b) &&
   ((negb (bytes_le (u_txid_hex b) (u_txid_hex a))) ||
    (bool_decide (u_txid_hex a = u_txid_hex b) && (u_vout a <? u_vout b)))).

(** [Iterator::min_by]: the first of the least elements. *)
Definition min_by (us : list VaultUtxo) : option VaultUtxo :=
  match us with
  | [] => None
  | u :: us => Some (foldl (fun best v => if smaller v best then v else best) u us)
  end.

(** The largest-first loop, from the accumulated inputs on. *)
Fixpoint greedy (amount rate dust : Z) (max_inputs : nat) (acc : list VaultUtxo) (sum : Z)
    (us : list VaultUtxo) : option (result SelectionError Selection) :=
  match us with
  | [] => None
  | u :: us =>
      let acc := acc ++ [u] in
      let sum := saturating_add sum (u_amount u) in
      let fee := fee_for (Z.of_nat (length acc)) 2 rate in
      if saturating_add amount fee <=? sum then
        Some (if (max_inputs <? length acc)%nat then Err (TooManyInputs (length acc) max_inputs)
              else Ok (finalize acc amount rate dust))
      else if (max_inputs <? length acc)%nat then
        Some (Err (TooManyInputs (length acc) max_inputs))
      else greedy amount rate dust max_inputs acc sum us
  end.

Definition select (candidates : list VaultUtxo) (amount_atomic fee_rate_per_kb dust_threshold : Z)
    (max_inputs : nat) : result SelectionError Selection :=
  let available := total candidates in
  let no_change_fee := fee_for 1 1 fee_rate_per_kb in
  let exact_target := saturating_add amount_atomic no_change_fee in
  match list_find (fun u => u_amount u = exact_target) candidates with
  | Some (_, u) =>
      Ok {| sel_inputs := [u]; sel_fee := no_change_fee; sel_change := 0;
            sel_total_in := u_amount u |}
  | None =>
      let target_2 := saturating_add amount_atomic (fee_for 1 2 fee_rate_per_kb) in
      match min_by (filter (fun u => target_2 <= u_amount u) candidates) with
      | Some u => Ok (finalize [u] amount_atomic fee_rate_per_kb dust_threshold)
      | None =>
          match greedy amount_atomic fee_rate_per_kb dust_threshold max_inputs [] 0 candidates with
          | Some r => r
          | None =>
              Err (Insufficient
                     (saturating_add amount_atomic
                        (fee_for (Z.of_nat (Nat.max (length candidates) 1)) 2 fee_rate_per_kb))
                     available)
          end
      end
  end.

(** ** Arithmetic *)

Lemma div_ceil_mono a b c : 0 < c -> a <= b -> div_ceil a c <= div_ceil b c.
Proof. intros Hc Hab. apply Z.div_le_mono; lia. Qed.

Lemma div_ceil_nonneg a c : 0 < c -> 0 <= a -> 0 <= div_ceil a c.
Proof. intros Hc Ha. apply Z.div_pos; lia. Qed.

(** Shapes whose size does not wrap. *)
Definition shape (n m : Z) : Prop := 0 <= n <= 2 ^ 32 /\ 0 <= m <= 2.

Lemma estimated_size_small n m :
  shape n m -> estimated_size_bytes n m = 10 + 148 * n + 34 * m.
Proof.
  intros [Hn Hm]. unfold estimated_size_bytes, wrap_u64, TX_OVERHEAD_BYTES, INPUT_BYTES, OUTPUT_BYTES.
  apply Z.mod_small. change (2 ^ 64) with 18446744073709551616. change (2 ^ 32) with 4294967296 in *. lia.
Qed.

Lemma fee_for_mono n m n' m' rate :
  shape n m -> shape n' m' -> n <= n' -> m <= m' -> 0 <= rate ->
  fee_for n m rate <= fee_for n' m' rate.
Proof.
  intros H H' Hn Hm Hr. unfold fee_for. rewrite !estimated_size_small by done.
  apply div_ceil_mono; [lia|]. unfold saturating_mul. apply Z.min_le_compat_l. nia.
Qed.

Lemma fee_for_nonneg n m rate : shape n m -> 0 <= rate -> 0 <= fee_for n m rate.
Proof.
  intros H Hr. unfold fee_for. rewrite estimated_size_small by done. destruct H.
  apply div_ceil_nonneg; [lia|]. unfold saturating_mul, U64_MAX. nia.
Qed.

(** The rounded fee covers the rate exactly. *)
Lemma fee_for_covers n m rate :
  shape n m -> 0 <= rate -> (10 + 148 * n + 34 * m) * rate <= U64_MAX ->
  (10 + 148 * n + 34 * m) * rate <= 1000 * fee_for n m rate.
Proof.
  intros H Hr Hfit. unfold fee_for. rewrite estimated_size_small by done.
  unfold saturating_mul, div_ceil. rewrite Z.min_r by done.
  pose proof (Z.mul_succ_div_gt ((10 + 148 * n + 34 * m) * rate + 1000 - 1) 1000). lia.
Qed.

(** ** Sound selections *)

Definition sum_amounts (us : list VaultUtxo) : Z := sumZ u_amount us.

(** Amounts and totals fit in a [u64]: there is less coin than that. *)
Record fits (candidates : list VaultUtxo) (amount rate : Z) : Prop := {
  fit_amounts : Forall (fun u => in_u64 (u_amount u)) candidates;
  fit_sum : sum_amounts candidates <= U64_MAX;
  fit_count : Z.of_nat (length candidates) <= 2 ^ 32;
  fit_amount : 0 < amount;
  fit_rate : 0 <= rate;
  fit_target : amount + fee_for (Z.of_nat (Nat.max (length candidates) 1)) 2 rate <= U64_MAX
}.

Record sound (candidates : list VaultUtxo) (amount rate dust : Z) (max_inputs : nat)
    (s : Selection) : Prop := {
  so_from : sublist (sel_inputs s) candidates;
  so_total : sel_total_in s = sum_amounts (sel_inputs s);
  so_conserved : sel_total_in s = amount + sel_fee s + sel_change s;
  so_fee : fee_for (Z.of_nat (length (sel_inputs s))) (if sel_change s =? 0 then 1 else 2) rate
           <= sel_fee s;
  so_dust : sel_change s = 0 \/ (0 < sel_change s /\ dust <= sel_change s);
  so_cap : (1 <= length (sel_inputs s) <= Nat.max 1 max_inputs)%nat
}.

Lemma sum_single u : sum_amounts [u] = u_amount u.
Proof. unfold sum_amounts, sumZ. cbn. lia. Qed.

Lemma sum_nonneg us : Forall (fun u => in_u64 (u_amount u)) us -> 0 <= sum_amounts us.
Proof.
  unfold sum_amounts, sumZ. induction 1 as [|u us Hu _ IH]; cbn; [lia|]. unfold in_u64 in Hu. lia.
Qed.

Lemma sum_sublist us vs :
  Forall (fun u => in_u64 (u_amount u)) vs -> sublist us vs -> sum_amounts us <= sum_amounts vs.
Proof.
  intros Hvs Hs. induction Hs as [|u us vs Hs IH|u us vs Hs IH]; [done|..];
    apply Forall_cons in Hvs as [Hu Hvs]; specialize (IH Hvs);
    unfold sum_amounts, sumZ, in_u64 in *; cbn; lia.
Qed.

Lemma Forall_sublist {A} (P : A -> Prop) us vs : Forall P vs -> sublist us vs -> Forall P us.
Proof.
  intros Hvs Hs. induction Hs; [done|..]; apply Forall_cons in Hvs as [? ?]; auto using Forall_cons_2.
Qed.

Lemma total_small us : 0 <= sum_amounts us <= U64_MAX -> total us = sum_amounts us.
Proof. intros H. apply Z.mod_small. unfold U64_MAX in H. cbn. unfold sum_amounts in *. lia. Qed.

Section selecting.
Context (candidates : list VaultUtxo) (amount rate dust : Z) (max_inputs : nat).
Context (Hfit : fits candidates amount rate).

Lemma target_fits n :
  (1 <= n <= length candidates)%nat ->
  saturating_add amount (fee_for (Z.of_nat n) 2 rate) = amount + fee_for (Z.of_nat n) 2 rate /\
  saturating_add amount (fee_for (Z.of_nat n) 1 rate) = amount + fee_for (Z.of_nat n) 1 rate /\
  fee_for (Z.of_nat n) 1 rate <= fee_for (Z.of_nat n) 2 rate.
Proof.
  intros Hn. destruct Hfit as [_ _ Hc Ha Hr Ht].
  assert (forall m, shape (Z.of_nat n) m <-> 0 <= m <= 2) as Hsh by (unfold shape; lia).
  assert (fee_for (Z.of_nat n) 2 rate <= fee_for (Z.of_nat (Nat.max (length candidates) 1)) 2 rate).
  { apply fee_for_mono; unfold shape; lia. }
  assert (fee_for (Z.of_nat n) 1 rate <= fee_for (Z.of_nat n) 2 rate)
    by (apply fee_for_mono; unfold shape; lia).
  unfold saturating_add. split_and!; [rewrite Z.min_r; lia..|done].
Qed.

Lemma sublist_sum us :
  sublist us candidates -> 0 <= sum_amounts us <= U64_MAX /\ total us = sum_amounts us.
Proof.
  intros Hs. destruct Hfit as [Hf Hsum _ _ _ _].
  assert (0 <= sum_amounts us <= U64_MAX) as H; [|split; [done|by apply total_small]].
  split; [|etrans; [by eapply sum_sublist|done]].
  by apply sum_nonneg, (Forall_sublist _ us candidates).
Qed.

Lemma finalize_sound us :
  sublist us candidates -> (1 <= length us <= Nat.max 1 max_inputs)%nat ->
  amount + fee_for (Z.of_nat (length us)) 2 rate <= sum_amounts us ->
  sound candidates amount rate dust max_inputs (finalize us amount rate dust).
Proof.
  intros Hs Hl Ht. destruct (sublist_sum us Hs) as [Hsum Htot].
  pose proof (sublist_length _ _ Hs) as Hlen.
  destruct (target_fits (length us)) as (_ & _ & Hle); [lia|].
  assert (0 <= fee_for (Z.of_nat (length us)) 2 rate) as H0.
  { destruct Hfit. apply fee_for_nonneg; [unfold shape; lia|done]. }
  unfold finalize. rewrite Htot. unfold saturating_sub.
  pose proof (fit_amount _ _ _ Hfit).
  rewrite (Z.max_r 0 (sum_amounts us - amount)) by lia.
  rewrite (Z.max_r 0 (sum_amounts us - amount - _)) by lia.
  destruct (Z.eqb_spec (sum_amounts us - amount - fee_for (Z.of_nat (length us)) 2 rate) 0) as [E|E].
  2: destruct (Z.ltb_spec (sum_amounts us - amount - fee_for (Z.of_nat (length us)) 2 rate) dust).
  - constructor; cbn; try done; [lia|lia|by left].
  - constructor; cbn; try done; [lia|lia|by left].
  - constructor; cbn [sel_inputs sel_total_in sel_fee sel_change]; try done; [lia| |right; lia].
    rewrite (proj2 (Z.eqb_neq _ _)) by done. lia.
Qed.

Lemma min_by_elem us u : min_by us = Some u -> u ∈ us.
Proof.
  destruct us as [|v us]; [done|]. cbn [min_by]. intros [= <-]. revert v.
  induction us as [|w us IH]; intros v; cbn [foldl]; [by left|].
  destruct (smaller w v); [right; apply IH|].
  specialize (IH v). apply elem_of_cons in IH as [->|Hin]; [by left|by do 2 right].
Qed.

Lemma elem_sublist u : u ∈ candidates -> sublist [u] candidates.
Proof.
  intros (l1 & l2 & ->)%list_elem_of_split. apply sublist_inserts_l, sublist_skip, sublist_nil_l.
Qed.

(** The loop runs over a split of the candidates; what it returns. *)
Lemma greedy_spec acc us :
  acc ++ us = candidates -> (length acc <= max_inputs)%nat ->
  match greedy amount rate dust max_inputs acc (sum_amounts acc) us with
  | Some (Ok s) => sound candidates amount rate dust max_inputs s
  | Some (Err (TooManyInputs n m)) => m = max_inputs /\ (max_inputs < n <= length candidates)%nat
  | Some (Err (Insufficient _ _)) => False
  | None => us = [] \/ sum_amounts candidates < amount + fee_for (Z.of_nat (length candidates)) 2 rate
  end.
Proof.
  revert acc. induction us as [|u us IH]; intros acc Hsplit Hacc; cbn [greedy]; [by left|].
  assert (sublist (acc ++ [u]) candidates) as Hsub.
  { rewrite <- Hsplit. change (u :: us) with ([u] ++ us). rewrite (assoc_L (++)).
    by apply sublist_inserts_r. }
  destruct (sublist_sum _ Hsub) as [Hsum _].
  pose proof (sublist_length _ _ Hsub) as Hlen. rewrite length_app in Hlen. cbn in Hlen.
  assert (saturating_add (sum_amounts acc) (u_amount u) = sum_amounts (acc ++ [u])) as ->.
  { unfold saturating_add, sum_amounts in *. rewrite sumZ_app in *. cbn in *. lia. }
  destruct (target_fits (length (acc ++ [u]))) as (-> & _ & _);
    [rewrite length_app; cbn; lia|].
  destruct (Nat.ltb_spec max_inputs (length (acc ++ [u]))) as [Hmax|Hmax];
    destruct (Z.leb_spec (amount + fee_for (Z.of_nat (length (acc ++ [u]))) 2 rate)
                (sum_amounts (acc ++ [u]))) as [Ht|Ht].
  - rewrite length_app in *. cbn in *. lia.
  - rewrite length_app in *. cbn in *. lia.
  - apply finalize_sound; [done| |done]. rewrite length_app in *. cbn in *. lia.
  - specialize (IH (acc ++ [u])). destruct us as [|v us].
    + cbn. right. by rewrite <- Hsplit.
    + assert ((acc ++ [u]) ++ v :: us = candidates) as Hs by (by rewrite <- Hsplit, <- (assoc_L (++))).
      specialize (IH Hs Hmax). destruct (greedy _ _ _ _ _ _ _) as [[s|[]]|]; try done.
      destruct IH as [|]; [done|by right].
Qed.

(** Coin selection, whenever totals fit in 64 bits: a selection uses distinct
    candidates, within the input cap, whose sum is exactly amount plus fee plus change,
    with a fee at least the configured rate for its shape and no change below the dust
    threshold; Insufficient is returned only when all candidates together fall short of
    the amount plus the fee to spend them, and TooManyInputs only when more inputs than
    the cap are needed. *)
Theorem selection_is_sound :
  match select candidates amount rate dust max_inputs with
  | Ok s => sound candidates amount rate dust max_inputs s
  | Err (Insufficient required available) =>
      available = sum_amounts candidates /\ available < required /\
      required = amount + fee_for (Z.of_nat (Nat.max (length candidates) 1)) 2 rate
  | Err (TooManyInputs needed max) =>
      max = max_inputs /\ (max_inputs < needed <= length candidates)%nat
  end.
Proof.
  unfold select.
  destruct (list_find _ _) as [[n u]|] eqn:Ef.
  { apply list_find_Some in Ef as (Hn & Hu & _).
    assert (sublist [u] candidates) as Hs by (apply elem_sublist, list_elem_of_lookup; eauto).
    pose proof (sublist_length _ _ Hs) as Hlen. cbn in Hlen.
    destruct (target_fits 1) as (_ & H1 & _); [lia|]. change (Z.of_nat 1) with 1 in H1.
    rewrite H1 in Hu. constructor; cbn [sel_inputs sel_total_in sel_fee sel_change length]; rewrite ?sum_single;
      [done|done|lia|done|by left|lia]. }
  destruct (min_by _) as [u|] eqn:Em.
  { apply min_by_elem in Em. apply list_elem_of_filter in Em as [Hu Hin].
    apply elem_sublist in Hin as Hs. pose proof (sublist_length _ _ Hs) as Hlen. cbn in Hlen.
    destruct (target_fits 1) as (H2 & _ & _); [lia|]. change (Z.of_nat 1) with 1 in H2.
    rewrite H2 in Hu. apply finalize_sound; [done|cbn; lia|]. rewrite sum_single.
    change (Z.of_nat (length [u])) with 1. lia. }
  pose proof (greedy_spec [] candidates eq_refl ltac:(cbn; lia)) as Hg.
  change (sum_amounts []) with 0 in Hg.
  destruct (greedy _ _ _ _ _ _ _) as [[s|[r a|nd mx]]|]; [done|done|done|].
  destruct (sublist_sum candidates) as [Hb ->]; [done|].
  assert (saturating_add amount (fee_for (Z.of_nat (Nat.max (length candidates) 1)) 2 rate) =
          amount + fee_for (Z.of_nat (Nat.max (length candidates) 1)) 2 rate) as ->
    by (unfold saturating_add; destruct Hfit; lia).
  split; [done|]. split; [|done].
  destruct Hg as [Hnil|Hlt].
  - assert (0 <= fee_for (Z.of_nat (Nat.max (length candidates) 1)) 2 rate).
    { destruct Hfit. apply fee_for_nonneg; [unfold shape; lia|done]. }
    rewrite Hnil at 1. pose proof (fit_amount _ _ _ Hfit). change (sum_amounts []) with 0. lia.
  - destruct candidates as [|u us]; [|by rewrite Nat.max_l by (cbn; lia)].
    change (sum_amounts []) with 0 in *. destruct Hfit as [_ _ _ Ha Hr _].
    change (Z.of_nat (Nat.max (length (@nil VaultUtxo)) 1)) with 1.
    pose proof (fee_for_nonneg 1 2 rate ltac:(unfold shape; lia) Hr). lia.
Qed.
End selecting.

Definition demo_coin (n amount : Z) : VaultUtxo :=
  {| u_txid := replicate 32 (byte_of_Z n); u_txid_hex := encode (replicate 32 (byte_of_Z n));
     u_vout := 0; u_amount := amount; u_script := []; u_confirmations := 9 |}.

Lemma selection_is_sound_witness :
  let us := [demo_coin 1 900; demo_coin 2 700; demo_coin 3 300] in
  sound us 1000 10 50 5 {| sel_inputs := take 2 us; sel_fee := 4; sel_change := 596; sel_total_in := 1600 |}.
Proof.
  intros us.
  pose proof (selection_is_sound us 1000 10 50 5) as H.
  assert (select us 1000 10 50 5 = Ok {| sel_inputs := take 2 us; sel_fee := 4; sel_change := 596;
            sel_total_in := 1600 |}) as He by (vm_compute; reflexivity).
  rewrite He in H. apply H.
  constructor; [|vm_compute; congruence|vm_compute; congruence|lia|lia|vm_compute; congruence].
  repeat (apply Forall_cons; split; [vm_compute; split; congruence|]). constructor.
Defined.
