(* ===== verification/Builder.v ===== *)
(** * Payout transaction verification: [relayer/src/withdrawal/builder.rs]

    [verify_payout_tx] compares a decoded raw transaction with the plan made
    from persisted state.  [std::ptr::eq(o, dest)] is comparison of positions
    in [tx.outputs].  The verdict theorem says exactly which transactions
    pass. *)
From Stdlib Require Import ZArith Lia Strings.Byte.
From stdpp Require Import base numbers strings gmap list.
From S2P Require Import Prelude Hex Deposit DepositDb Address WithdrawalDb Coin.

Record DecodedOutput := { value_atomic : Z; script_pubkey_hex : str }.
Record DecodedInput := { in_txid_hex : str; in_vout : Z }.
Record DecodedTx := {
  tx_txid_hex : str; tx_inputs : list DecodedInput; tx_outputs : list DecodedOutput
}.

#[export] Instance DecodedOutput_eq_dec : EqDecision DecodedOutput.
Proof. solve_decision. Defined.
#[export] Instance DecodedInput_eq_dec : EqDecision DecodedInput.
Proof. solve_decision. Defined.

Record PayoutPlan := {
  dest_hash160 : list byte; payout_atomic : Z; change_script_hex : option str;
  change_atomic : Z; fee_atomic : Z; plan_inputs : list VaultUtxo
}.

Inductive VerifyError :=
| OutputCount (expected actual : nat)
| InputCount (expected actual : nat)
| InputMismatch (position : nat) (actual_txid : str) (actual_vout : Z) (expected_txid : str)
    (expected_vout : Z)
| MissingDestinationOutput (script : str)
| DestinationAmount (actual expected : Z)
| MissingChangeOutput (script : str)
| ChangeAmount (actual expected : Z)
| UnexpectedOutput (value : Z) (script : str)
| ValueNotConserved (total_in payout change fee : Z)
| UnexpectedChange
| OutputsAlteredBySigning.

(** The input loop, from [position] on; the lengths agree. *)
Fixpoint verify_inputs (position : nat) (actual : list DecodedInput) (expected : list VaultUtxo)
  : result VerifyError unit :=
  match actual, expected with
  | a :: actual, e :: expected =>
      if negb (bool_decide (in_txid_hex a = u_txid_hex e)) || negb (in_vout a =? u_vout e)
      then Err (InputMismatch position (in_txid_hex a) (in_vout a) (u_txid_hex e) (u_vout e))
      else verify_inputs (S position) actual expected
  | _, _ => Ok tt
  end.

Definition pays (script : str) (o : DecodedOutput) : bool :=
  eq_ignore_ascii_case (script_pubkey_hex o) script.

(** [outputs.iter().find(..)], with the position found, skipping [skip]. *)
Definition find_output (script : str) (skip : option nat) (outputs : list DecodedOutput)
  : option (nat * DecodedOutput) :=
  list_find (fun io => pays script io.2 = true /\ Some io.1 <> skip)
    (zip (seq 0 (length outputs)) outputs) ≫= fun p => Some p.2.

Definition verify_change (tx : DecodedTx) (plan : PayoutPlan) (dest : nat)
  : result VerifyError unit :=
  if 0 <? change_atomic plan then
    let* script := ok_or (change_script_hex plan) UnexpectedChange in
    let* change := ok_or (find_output script (Some dest) (tx_outputs tx))
                     (MissingChangeOutput script) in
    require (value_atomic change.2 =? change_atomic plan)
      (ChangeAmount (value_atomic change.2) (change_atomic plan))
  else Ok tt.

Definition verify_nothing_else (dest_script : str) (plan : PayoutPlan) (o : DecodedOutput)
  : result VerifyError unit :=
  let is_dest := pays dest_script o in
  let is_change := match change_script_hex plan with Some s => pays s o | None => false end in
  require (is_dest || is_change) (UnexpectedOutput (value_atomic o) (script_pubkey_hex o)).

Definition verify_payout_tx (tx : DecodedTx) (plan : PayoutPlan) : result VerifyError unit :=
  require (length (tx_inputs tx) =? length (plan_inputs plan))%nat
    (InputCount (length (plan_inputs plan)) (length (tx_inputs tx))) ;;*
  verify_inputs 0 (tx_inputs tx) (plan_inputs plan) ;;*
  let expected_outputs := if 0 <? change_atomic plan then 2%nat else 1%nat in
  require (length (tx_outputs tx) =? expected_outputs)%nat
    (OutputCount expected_outputs (length (tx_outputs tx))) ;;*
  let dest_script := p2pkh_script_hex (dest_hash160 plan) in
  let* dest := ok_or (find_output dest_script None (tx_outputs tx))
                 (MissingDestinationOutput dest_script) in
  require (value_atomic dest.2 =? payout_atomic plan)
    (DestinationAmount (value_atomic dest.2) (payout_atomic plan)) ;;*
  verify_change tx plan dest.1 ;;*
  for_each (verify_nothing_else dest_script plan) (tx_outputs tx) ;;*
  let total_in := total (plan_inputs plan) in
  let accounted :=
    saturating_add (saturating_add (payout_atomic plan) (change_atomic plan)) (fee_atomic plan) in
  require (total_in =? accounted)
    (ValueNotConserved total_in (payout_atomic plan) (change_atomic plan) (fee_atomic plan)).

Definition verify_signing_preserved_outputs (unsigned signed : DecodedTx) : result VerifyError unit :=
  require (bool_decide (tx_outputs unsigned = tx_outputs signed)) OutputsAlteredBySigning ;;*
  require (bool_decide (tx_inputs unsigned = tx_inputs signed)) OutputsAlteredBySigning.

(** ** What passes *)

(** The outputs the plan asks for: the destination, and the change when
    there is some, in either order. *)
Definition outputs_as_planned (plan : PayoutPlan) (outs : list DecodedOutput) : Prop :=
  let dest o := pays (p2pkh_script_hex (dest_hash160 plan)) o = true /\
                value_atomic o = payout_atomic plan in
  if 0 <? change_atomic plan then
    exists script, change_script_hex plan = Some script /\
      let change o := pays script o = true /\ value_atomic o = change_atomic plan in
      exists a b, (outs = [a; b] \/ outs = [b; a]) /\ dest a /\ change b
  else exists a, outs = [a] /\ dest a.

Record payout_as_planned (tx : DecodedTx) (plan : PayoutPlan) : Prop := {
  ap_inputs : (fun i => (in_txid_hex i, in_vout i)) <$> tx_inputs tx =
              (fun u => (u_txid_hex u, u_vout u)) <$> plan_inputs plan;
  ap_outputs : outputs_as_planned plan (tx_outputs tx);
  ap_conserved : total (plan_inputs plan) =
    saturating_add (saturating_add (payout_atomic plan) (change_atomic plan)) (fee_atomic plan)
}.

Lemma verify_inputs_Ok n actual expected :
  length actual = length expected ->
  verify_inputs n actual expected = Ok tt <->
  (fun i => (in_txid_hex i, in_vout i)) <$> actual = (fun u => (u_txid_hex u, u_vout u)) <$> expected.
Proof.
  revert n expected. induction actual as [|a actual IH]; intros n [|e expected] Hl; try discriminate Hl;
    [done|].
  cbn [verify_inputs fmap list_fmap]. injection Hl as Hl.
  case_bool_decide as Ht; cbn [negb orb].
  - destruct (Z.eqb_spec (in_vout a) (u_vout e)) as [Hv|Hv]; cbn [negb].
    + rewrite (IH (S n) expected Hl), Ht, Hv. split; [intros H; exact (f_equal2 cons eq_refl H)|].
      by intros [= H].
    + split; [done|]. intros [=]. done.
  - split; [done|]. intros [=]. done.
Qed.

Arguments find_output : simpl never.

Lemma find_output_1 script a :
  find_output script None [a] = if pays script a then Some (0%nat, a) else None.
Proof.
  unfold find_output. cbn. destruct (pays script a) eqn:E.
  - by rewrite decide_True by done.
  - rewrite decide_False by naive_solver. done.
Qed.

Lemma find_output_2 script skip a b :
  find_output script skip [a; b] =
  if decide (pays script a = true /\ Some 0%nat <> skip) then Some (0%nat, a)
  else if decide (pays script b = true /\ Some 1%nat <> skip) then Some (1%nat, b) else None.
Proof. unfold find_output. cbn. by repeat case_decide. Qed.

Definition scripts_distinct (plan : PayoutPlan) : Prop :=
  forall script o, change_script_hex plan = Some script ->
    pays (p2pkh_script_hex (dest_hash160 plan)) o = true -> pays script o = true -> False.

(** The checks on the outputs alone. *)
Definition verify_outputs (tx : DecodedTx) (plan : PayoutPlan) : result VerifyError unit :=
  let dest_script := p2pkh_script_hex (dest_hash160 plan) in
  let* dest := ok_or (find_output dest_script None (tx_outputs tx))
                 (MissingDestinationOutput dest_script) in
  require (value_atomic dest.2 =? payout_atomic plan)
    (DestinationAmount (value_atomic dest.2) (payout_atomic plan)) ;;*
  verify_change tx plan dest.1 ;;*
  for_each (verify_nothing_else dest_script plan) (tx_outputs tx).

Lemma verify_outputs_one tx plan a :
  change_atomic plan <= 0 -> tx_outputs tx = [a] ->
  verify_outputs tx plan = Ok tt <-> outputs_as_planned plan [a].
Proof.
  intros Hc Ho. unfold verify_outputs, outputs_as_planned, verify_change. rewrite Ho.
  rewrite find_output_1, (proj2 (Z.ltb_ge _ _)) by done.
  destruct (pays _ a) eqn:Ep; cbn.
  - destruct (Z.eqb_spec (value_atomic a) (payout_atomic plan)); cbn.
    + unfold verify_nothing_else. rewrite Ep. cbn. split; [|done]. eauto.
    + split; [done|]. intros (? & [= <-] & _ & ?). done.
  - split; [done|]. intros (? & [= <-] & ? & _). congruence.
Qed.

Lemma bind_Ok_tt {E} (r s : result E unit) : (r ;;* s) = Ok tt <-> r = Ok tt /\ s = Ok tt.
Proof. destruct r as [[]|e]; cbn; naive_solver. Qed.

Lemma verify_outputs_two_sound tx plan a b :
  0 < change_atomic plan -> tx_outputs tx = [a; b] ->
  verify_outputs tx plan = Ok tt -> outputs_as_planned plan [a; b].
Proof.
  intros Hc Ho. unfold verify_outputs, outputs_as_planned, verify_change. rewrite Ho.
  rewrite (proj2 (Z.ltb_lt _ _)) by done. rewrite find_output_2.
  intros (dest & Hd%ok_or_Ok & H)%bind_Ok. apply bind_Ok_tt in H as [Hv%require_Ok H].
  apply bind_Ok_tt in H as [H _]. apply bind_Ok in H as (script & Hs%ok_or_Ok & H).
  apply bind_Ok in H as (ch & Hch%ok_or_Ok & Hcv%require_Ok).
  rewrite find_output_2 in Hch. apply Z.eqb_eq in Hv, Hcv. exists script. split; [done|].
  repeat case_decide; simplify_eq; cbn in *; destruct_and?; try congruence; eauto 10.
Qed.

Lemma verify_outputs_two_complete tx plan a b :
  0 < change_atomic plan -> tx_outputs tx = [a; b] -> scripts_distinct plan ->
  outputs_as_planned plan [a; b] -> verify_outputs tx plan = Ok tt.
Proof.
  intros Hc Ho Hdis. unfold verify_outputs, outputs_as_planned, verify_change. rewrite Ho.
  rewrite (proj2 (Z.ltb_lt _ _)) by done.
  intros (script & Hs & x & y & Hxy & [Hpx Hvx] & [Hpy Hvy]). rewrite Hs. cbn [ok_or mbind result_bind].
  assert (pays script x = false) as Hnx by (apply not_true_iff_false; intros ?; by eapply Hdis).
  assert (pays (p2pkh_script_hex (dest_hash160 plan)) y = false) as Hny
    by (apply not_true_iff_false; intros ?; by eapply Hdis).
  rewrite find_output_2.
  destruct Hxy as [[= -> ->]|[= -> ->]].
  - rewrite decide_True by done. cbn. rewrite Hvx, Z.eqb_refl. cbn. rewrite find_output_2.
    rewrite decide_False by naive_solver. rewrite decide_True by done. cbn.
    rewrite Hvy, Z.eqb_refl. cbn. unfold verify_nothing_else. rewrite Hs, Hpx, Hpy, Hny. done.
  - rewrite decide_False by naive_solver congruence. rewrite decide_True by done. cbn.
    rewrite Hvx, Z.eqb_refl. cbn. rewrite find_output_2. rewrite decide_True by done. cbn.
    rewrite Hvy, Z.eqb_refl. cbn. unfold verify_nothing_else. rewrite Hs, Hpx, Hpy, Hny. done.
Qed.

Lemma verify_payout_tx_split tx plan :
  verify_payout_tx tx plan = Ok tt <->
  length (tx_inputs tx) = length (plan_inputs plan) /\
  verify_inputs 0 (tx_inputs tx) (plan_inputs plan) = Ok tt /\
  length (tx_outputs tx) = (if (0 <? change_atomic plan)%Z then 2 else 1)%nat /\
  verify_outputs tx plan = Ok tt /\
  total (plan_inputs plan) =
    saturating_add (saturating_add (payout_atomic plan) (change_atomic plan)) (fee_atomic plan).
Proof.
  unfold verify_payout_tx, verify_outputs. cbv zeta.
  rewrite !bind_Ok_tt, !require_Ok, !Nat.eqb_eq. do 3 apply and_iff_compat_l.
  destruct (find_output _ _ _) as [dest|]; cbn [ok_or mbind result_bind]; [|naive_solver].
  rewrite !bind_Ok_tt, !require_Ok, !Z.eqb_eq. naive_solver.
Qed.

(** A decoded transaction that passes verify_payout_tx spends exactly the planned
    outpoints in order, has exactly the planned outputs (destination and, when planned,
    change, with exact values) and conserves value; and every such transaction passes
    when the two scripts differ. *)
Theorem verify_payout_tx_verdict tx plan :
  (verify_payout_tx tx plan = Ok tt -> payout_as_planned tx plan) /\
  (scripts_distinct plan -> payout_as_planned tx plan -> verify_payout_tx tx plan = Ok tt).
Proof.
  rewrite verify_payout_tx_split. split.
  - intros (Hl & Hi & Ho & Hv & Ht). apply (verify_inputs_Ok 0) in Hi; [|done].
    constructor; [done| |done].
    destruct (Z.ltb_spec 0 (change_atomic plan)) as [Hc|Hc].
    + destruct (tx_outputs tx) as [|a [|b [|]]] eqn:E; try discriminate Ho.
      by eapply verify_outputs_two_sound.
    + destruct (tx_outputs tx) as [|a [|]] eqn:E; try discriminate Ho.
      by eapply verify_outputs_one.
  - intros Hdis [Hi Ho Ht].
    assert (length (tx_inputs tx) = length (plan_inputs plan)) as Hl.
    { apply (f_equal length) in Hi. by rewrite !length_fmap in Hi. }
    split; [done|]. split; [by apply verify_inputs_Ok|]. pose proof Ho as Ho'.
    unfold outputs_as_planned in Ho'. destruct (Z.ltb_spec 0 (change_atomic plan)) as [Hc|Hc].
    + destruct Ho' as (script & _ & x & y & Hxy & _).
      destruct (tx_outputs tx) as [|a [|b [|]]] eqn:E; try (by destruct Hxy; simplify_eq).
      split_and!; [done| |done]. by eapply verify_outputs_two_complete.
    + destruct Ho' as (x & E & _). rewrite E in Ho |- *. split_and!; [done| |done].
      by eapply verify_outputs_one.
Qed.

(** A plan made from a sound selection satisfies the conservation check. *)
Lemma selection_conserves candidates amount rate dust max_inputs s plan :
  fits candidates amount rate -> sound candidates amount rate dust max_inputs s ->
  plan_inputs plan = sel_inputs s -> payout_atomic plan = amount ->
  change_atomic plan = sel_change s -> fee_atomic plan = sel_fee s ->
  total (plan_inputs plan) =
    saturating_add (saturating_add (payout_atomic plan) (change_atomic plan)) (fee_atomic plan).
Proof.
  intros Hfit [Hfrom Htot Hcons Hfee Hdust _] -> -> -> ->.
  destruct (sublist_sum candidates amount rate Hfit _ Hfrom) as [Hb ->].
  pose proof (fit_amount _ _ _ Hfit). rewrite <- Htot, Hcons in *. unfold saturating_add.
  assert (0 <= sel_fee s); [|lia].
  etrans; [|exact Hfee]. apply fee_for_nonneg; [|apply (fit_rate _ _ _ Hfit)].
  pose proof (sublist_length _ _ Hfrom). pose proof (fit_count _ _ _ Hfit). unfold shape.
  destruct (sel_change s =? 0); lia.
Qed.

Lemma signing_preserved_iff unsigned signed :
  verify_signing_preserved_outputs unsigned signed = Ok tt <->
  tx_outputs unsigned = tx_outputs signed /\ tx_inputs unsigned = tx_inputs signed.
Proof.
  unfold verify_signing_preserved_outputs.
  rewrite bind_Ok_tt, !require_Ok, !bool_decide_eq_true. done.
Qed.

(** ** A concrete payout *)

Definition demo_plan : PayoutPlan :=
  {| dest_hash160 := replicate 20 xaa; payout_atomic := 1000;
     change_script_hex := Some (lit "A914bb87"); change_atomic := 596; fee_atomic := 4;
     plan_inputs := [demo_coin 1 900; demo_coin 2 700] |}.
Definition demo_out_change : DecodedOutput :=
  {| value_atomic := 596; script_pubkey_hex := lit "a914bb87" |}.
Definition demo_out_dest : DecodedOutput :=
  {| value_atomic := 1000; script_pubkey_hex := p2pkh_script_hex (replicate 20 xaa) |}.
Definition demo_tx : DecodedTx :=
  {| tx_txid_hex := []; tx_outputs := [demo_out_change; demo_out_dest];
     tx_inputs := (fun u => {| in_txid_hex := u_txid_hex u; in_vout := u_vout u |})
                    <$> plan_inputs demo_plan |}.

Lemma eq_ignore_ascii_case_len a b : eq_ignore_ascii_case a b = true -> length a = length b.
Proof.
  unfold eq_ignore_ascii_case. intros H%bool_decide_eq_true%(f_equal length).
  by rewrite !length_fmap in H.
Qed.

Lemma verify_payout_tx_verdict_witness :
  payout_as_planned demo_tx demo_plan /\ verify_payout_tx demo_tx demo_plan = Ok tt.
Proof.
  assert (payout_as_planned demo_tx demo_plan) as Hp.
  { apply (proj1 (verify_payout_tx_verdict demo_tx demo_plan)). vm_compute. reflexivity. }
  split; [exact Hp|].
  apply (proj2 (verify_payout_tx_verdict demo_tx demo_plan)); [|exact Hp].
  intros script o [= <-] H1 H2. apply eq_ignore_ascii_case_len in H1, H2.
  rewrite H1 in H2. vm_compute in H2. discriminate H2.
Defined.

(** When change and destination share a script the first output is read as
    the payout: a transaction with the two in the other order is refused. *)
Example same_script_order_matters :
  let plan := {| dest_hash160 := replicate 20 xaa; payout_atomic := 1000;
                 change_script_hex := Some (p2pkh_script_hex (replicate 20 xaa));
                 change_atomic := 596; fee_atomic := 4;
                 plan_inputs := [demo_coin 1 900; demo_coin 2 700] |} in
  let own := {| value_atomic := 596; script_pubkey_hex := p2pkh_script_hex (replicate 20 xaa) |} in
  verify_payout_tx {| tx_txid_hex := []; tx_outputs := [own; demo_out_dest];
                      tx_inputs := tx_inputs demo_tx |} plan = Err (DestinationAmount 596 1000) /\
  verify_payout_tx {| tx_txid_hex := []; tx_outputs := [demo_out_dest; own];
                      tx_inputs := tx_inputs demo_tx |} plan = Ok tt.
Proof. split; by vm_compute. Qed.
