(* ===== verification/Vault.v ===== *)
(** * P2SH multisig vaults: [relayer/src/withdrawal/vault.rs]

    A vault's redeem script, its parser, the address derived from it and the
    quorum check.  [Secp256k1] is the interface of the [libsecp256k1] crate
    and [Ripemd160] that of the [ripemd] crate.  The theorems: exactly the
    well-formed threshold policies become vaults, and a redeem script is
    accepted exactly when it is the script of the vault returned. *)
From Stdlib Require Import ZArith Lia Strings.Byte.
From stdpp Require Import base numbers strings gmap list pretty sorting.
From S2P Require Import Prelude Hex Text DepositDb Address.

Class Ripemd160 := {
  ripemd160 : list byte -> list byte;
  length_ripemd160 d : length (ripemd160 d) = 20%nat
}.

(** Keys and signatures are the crate's parsed values; [ecdsa_verify sighash
    sig key]. *)
Class Secp256k1 := {
  Signature : Type;
  PublicKey : Type;
  parse_der : list byte -> option Signature;
  parse_compressed : list byte -> option PublicKey;
  ecdsa_verify : list byte -> Signature -> PublicKey -> bool;
  (** [SecretKey::parse_slice], then [serialize_compressed] of its public key *)
  public_of_secret : list byte -> option (list byte)
}.

Definition P2SH_VERSION_REGTEST : Z := 0x3a.
Definition COMPRESSED_PUBKEY_LEN : nat := 33.
Definition MAX_VAULT_SIGNERS : nat := 16.

(** [VaultPanic]: the hex decoder slices off a character boundary. *)
Inductive VaultError :=
| ZeroThreshold
| ThresholdExceedsSigners (m n : nat)
| NoSigners
| TooManySigners (n : nat)
| UncompressedPubkey (index len : nat)
| BadPubkeyPrefix (index : nat) (prefix : byte)
| DuplicateSigner (index : nat)
| MalformedRedeemScript (reason : str)
| AddressMismatch (configured derived : str)
| VaultPanic.

Abbreviation pubkey := (list byte).

Record MultisigVault := {
  threshold : nat; signer_pubkeys : list pubkey; redeem_script : list byte;
  script_hash160 : list byte; address : str
}.

(** [0x50 + n as u8] *)
Definition op_n (n : nat) : byte := byte_of_Z (0x50 + Z.of_nat n).

(** [pk[0]] of a 33-byte array *)
Definition prefix_byte (pk : pubkey) : byte := default x00 (head pk).

(** The key loop, [seen] being [signer_pubkeys[..i]]. *)
Fixpoint check_keys (seen keys : list pubkey) : result VaultError unit :=
  match keys with
  | [] => Ok tt
  | pk :: keys =>
      require (bool_decide (prefix_byte pk = x02 \/ prefix_byte pk = x03))
        (BadPubkeyPrefix (length seen) (prefix_byte pk)) ;;*
      require (bool_decide (pk ∉ seen)) (DuplicateSigner (length seen)) ;;*
      check_keys (seen ++ [pk]) keys
  end.

Definition key_push (pk : pubkey) : list byte := byte_of_Z (Z.of_nat COMPRESSED_PUBKEY_LEN) :: pk.

Definition script_of (m : nat) (keys : list pubkey) : list byte :=
  [op_n m] ++ concat (key_push <$> keys) ++ [op_n (length keys)] ++ [xae].

Section vaults.
Context `{Sh : Sha2, Rm : Ripemd160}.

Definition hash160 (data : list byte) : list byte := ripemd160 (sha256 data).

Definition vault_of (m : nat) (keys : list pubkey) : MultisigVault :=
  let script := script_of m keys in
  {| threshold := m; signer_pubkeys := keys; redeem_script := script;
     script_hash160 := hash160 script;
     address := base58check_encode P2SH_VERSION_REGTEST (hash160 script) |}.

(** [MultisigVault::new] *)
Definition new (m : nat) (keys : list pubkey) : result VaultError MultisigVault :=
  require (negb (length keys =? 0)%nat) NoSigners ;;*
  require (length keys <=? MAX_VAULT_SIGNERS)%nat (TooManySigners (length keys)) ;;*
  require (negb (m =? 0)%nat) ZeroThreshold ;;*
  require (m <=? length keys)%nat (ThresholdExceedsSigners m (length keys)) ;;*
  check_keys [] keys ;;*
  Ok (vault_of m keys).

(** [b.checked_sub(0x50)] *)
Definition small_int (b : byte) : option nat :=
  if 0x50 <=? byte_to_Z b then Some (Z.to_nat (byte_to_Z b - 0x50)) else None.

(** The push loop at offset [i]: each turn consumes 34 bytes, so
    [body_end - i] turns are more than enough. *)
Fixpoint parse_keys (fuel : nat) (script : list byte) (body_end i : nat) (keys : list pubkey)
  : result VaultError (list pubkey) :=
  if (i <? body_end)%nat then
    match fuel with
    | O => Ok keys
    | S fuel =>
        let len := Z.to_nat (byte_to_Z (default x00 (script !! i))) in
        require (len =? COMPRESSED_PUBKEY_LEN)%nat
          (MalformedRedeemScript (lit "expected a 33-byte compressed pubkey push")) ;;*
        let start := S i in
        let end_ := (start + COMPRESSED_PUBKEY_LEN)%nat in
        require (end_ <=? body_end)%nat
          (MalformedRedeemScript (lit "pubkey push runs past the script")) ;;*
        parse_keys fuel script body_end end_
          (keys ++ [take COMPRESSED_PUBKEY_LEN (drop start script)])
    end
  else Ok keys.

Definition from_redeem_script_hex (script_hex : str) : result VaultError MultisigVault :=
  let* script := map_err (fun f => match f with
                                   | HexErr _ => MalformedRedeemScript (lit "not valid hex")
                                   | Panicked => VaultPanic
                                   end) (decode_vec script_hex) in
  require (3 <=? length script)%nat (MalformedRedeemScript (lit "too short")) ;;*
  require (bool_decide (last script = Some xae))
    (MalformedRedeemScript (lit "does not end in OP_CHECKMULTISIG")) ;;*
  let* m := ok_or (small_int (default x00 (script !! 0%nat)))
    (MalformedRedeemScript (lit "leading opcode is not OP_1..OP_16")) in
  let* n := ok_or (small_int (default x00 (script !! (length script - 2)%nat)))
    (MalformedRedeemScript (lit "signer count opcode is not OP_1..OP_16")) in
  require (negb ((m =? 0) || (n =? 0) || (16 <? m) || (16 <? n))%nat)
    (MalformedRedeemScript (lit "M or N out of range")) ;;*
  let body_end := (length script - 2)%nat in
  let* keys := parse_keys body_end script body_end 1 [] in
  require (length keys =? n)%nat
    (MalformedRedeemScript (lit "declared signer count does not match the number of pubkeys")) ;;*
  new m keys.

Definition require_address (v : MultisigVault) (configured : str) : result VaultError unit :=
  require (bool_decide (configured = address v)) (AddressMismatch configured (address v)).

Definition script_pubkey_hex (v : MultisigVault) : str :=
  lit "a914" ++ encode (script_hash160 v) ++ lit "87".

Definition redeem_script_hex (v : MultisigVault) : str := encode (redeem_script v).

Definition signer_count (v : MultisigVault) : nat := length (signer_pubkeys v).

(** The quorum loop after [last]. *)
Fixpoint check_quorum (v : MultisigVault) (last : option Z) (indices : list byte)
  : result VaultError unit :=
  match indices with
  | [] => Ok tt
  | i :: indices =>
      let i := byte_to_Z i in
      require (i <? Z.of_nat (signer_count v))
        (MalformedRedeemScript (lit "quorum index is outside the signer set")) ;;*
      require (match last with Some prev => prev <? i | None => true end)
        (MalformedRedeemScript (lit "quorum indices must be strictly ascending and unique")) ;;*
      check_quorum v (Some i) indices
  end.

Definition validate_quorum (v : MultisigVault) (indices : list byte) : result VaultError unit :=
  require (length indices =? threshold v)%nat
    (ThresholdExceedsSigners (length indices) (threshold v)) ;;*
  check_quorum v None indices.

Definition decode_p2sh_hash160 (addr : str) : result AddressError (list byte) :=
  let* (version, payload) := base58check_decode addr in
  require (version =? P2SH_VERSION_REGTEST) (UnsupportedVersion version) ;;*
  Ok payload.

Context `{Sc : Secp256k1}.

Definition compressed_pubkey_from_wif (wif : str) : result VaultError pubkey :=
  let* raw := map_err (fun _ => MalformedRedeemScript (lit "WIF is not valid base58"))
                (base58_decode (trim wif)) in
  require (length raw =? 38)%nat
    (MalformedRedeemScript (lit "WIF is not a 38-byte compressed-key encoding")) ;;*
  let payload := take 34 raw in
  let given := drop 34 raw in
  require (bool_decide (checksum payload = given))
    (MalformedRedeemScript (lit "WIF checksum is wrong")) ;;*
  require (bool_decide (payload !! 33%nat = Some x01))
    (MalformedRedeemScript (lit "WIF is not marked compressed; an uncompressed key is not in any vault script")) ;;*
  ok_or (public_of_secret (take 32 (drop 1 payload)))
    (MalformedRedeemScript (lit "WIF does not encode a valid key")).

Definition require_signer_at (v : MultisigVault) (signer_index : byte) (wif : str)
  : result VaultError unit :=
  let* expected := ok_or (signer_pubkeys v !! Z.to_nat (byte_to_Z signer_index))
    (MalformedRedeemScript (lit "configured vault signer index is out of range for this vault")) in
  let* derived := compressed_pubkey_from_wif wif in
  require (bool_decide (derived = expected))
    (AddressMismatch
       (lit "key at configured index " ++ String.list_byte_of_string (pretty (byte_to_Z signer_index))
          ++ lit " (" ++ encode derived ++ lit ")")
       (lit "vault expects " ++ encode expected)).
End vaults.

(** ** Keys and scripts *)

Definition good_prefix (pk : pubkey) : Prop := prefix_byte pk = x02 \/ prefix_byte pk = x03.

(** The policies a vault may have. *)
Record policy (m : nat) (keys : list pubkey) : Prop := {
  po_threshold : (1 <= m <= length keys)%nat;
  po_signers : (length keys <= MAX_VAULT_SIGNERS)%nat;
  po_prefixes : Forall good_prefix keys;
  po_distinct : NoDup keys
}.

Lemma check_keys_Ok seen keys :
  NoDup seen ->
  check_keys seen keys = Ok tt <-> Forall good_prefix keys /\ NoDup (seen ++ keys).
Proof.
  revert seen. induction keys as [|pk keys IH]; intros seen Hs; cbn [check_keys].
  - rewrite app_nil_r. split; [by split; [constructor|]|done].
  - rewrite bind_Ok. setoid_rewrite require_Ok. setoid_rewrite bind_Ok. setoid_rewrite require_Ok.
    rewrite Forall_cons. split.
    + intros ([] & Hp%bool_decide_eq_true & [] & Hn%bool_decide_eq_true & Hk).
      apply IH in Hk as [Hf Hnd].
      * rewrite <- app_assoc in Hnd. by split_and!.
      * apply NoDup_app. split_and!; [done| |apply NoDup_singleton]. set_solver.
    + intros [[Hp Hf] Hnd]. rewrite cons_middle, (assoc_L (++)) in Hnd.
      exists tt. split; [by apply bool_decide_eq_true|]. exists tt. pose proof Hnd as Hnd'.
      apply NoDup_app in Hnd as [Hnd _]. apply NoDup_app in Hnd as (_ & Hd & _).
      split; [apply bool_decide_eq_true; set_solver|]. apply IH; [|done].
      by apply NoDup_app in Hnd' as [? _].
Qed.

Lemma op_n_small m : (m <= 16)%nat -> small_int (op_n m) = Some m.
Proof.
  intros Hm. unfold small_int, op_n. rewrite byte_to_of_Z, Z.mod_small by lia.
  destruct (Z.leb_spec 80 (80 + Z.of_nat m)); [|lia]. f_equal. lia.
Qed.

Lemma small_int_op b m : small_int b = Some m -> (m <= 16)%nat -> b = op_n m.
Proof.
  unfold small_int, op_n. case_match; bools; [|done]. intros [= <-] _.
  rewrite Z2Nat.id by lia. replace (80 + (byte_to_Z b - 80)) with (byte_to_Z b) by lia.
  by rewrite byte_of_to_Z.
Qed.

(** A nonempty range is its first byte, the bytes to [e], and the rest. *)
Lemma range_split (s : list byte) i e be :
  (i < e <= be)%nat -> (be <= length s)%nat ->
  take (be - i) (drop i s) =
  default x00 (s !! i) :: take (e - S i) (drop (S i) s) ++ take (be - e) (drop e s).
Proof.
  intros He Hl. destruct (lookup_lt_is_Some_2 s i) as [b Hb]; [lia|].
  rewrite (drop_S _ _ _ Hb), Hb. replace (be - i)%nat with (S (be - S i)) by lia.
  cbn [take default from_option id]. f_equal.
  replace (be - S i)%nat with ((e - S i) + (be - e))%nat by lia. rewrite <- take_take_drop.
  rewrite drop_drop. do 2 f_equal. f_equal. lia.
Qed.

Lemma key_push_split (s : list byte) i be :
  (S i + COMPRESSED_PUBKEY_LEN <= be)%nat -> (be <= length s)%nat ->
  Z.to_nat (byte_to_Z (default x00 (s !! i))) = COMPRESSED_PUBKEY_LEN ->
  take (be - i) (drop i s) =
  key_push (take COMPRESSED_PUBKEY_LEN (drop (S i) s)) ++
  take (be - (S i + COMPRESSED_PUBKEY_LEN)) (drop (S i + COMPRESSED_PUBKEY_LEN) s).
Proof.
  intros He Hl Hb. rewrite (range_split s i (S i + COMPRESSED_PUBKEY_LEN) be)
    by (unfold COMPRESSED_PUBKEY_LEN in *; lia).
  rewrite <- (byte_of_to_Z (default x00 (s !! i))).
  rewrite <- (Z2Nat.id (byte_to_Z (default x00 (s !! i)))) by apply byte_to_Z_bound.
  rewrite Hb. unfold key_push. cbn [app]. do 2 f_equal. f_equal. unfold COMPRESSED_PUBKEY_LEN. lia.
Qed.

(** Enough turns: what the key loop accepts is exactly a body of key pushes. *)
Lemma parse_keys_Ok fuel script be i keys keys' :
  (be - i <= fuel)%nat -> (be <= length script)%nat ->
  parse_keys fuel script be i keys = Ok keys' <->
  exists ks, keys' = keys ++ ks /\ Forall (fun k => length k = COMPRESSED_PUBKEY_LEN) ks /\
    take (be - i) (drop i script) = concat (key_push <$> ks).
Proof.
  intros Hf Hl. revert i keys Hf. induction fuel as [|fuel IH]; intros i keys Hf; cbn [parse_keys];
    destruct (Nat.ltb_spec i be) as [Hi|Hi]; try lia.
  1,3: replace (be - i)%nat with 0%nat by lia; split;
    [intros [= <-]; exists []; rewrite app_nil_r; by split_and!; [|constructor|]
    |intros ([|k ks] & -> & _ & Hc); [by rewrite app_nil_r|discriminate Hc]].
  rewrite bind_Ok. setoid_rewrite require_Ok. setoid_rewrite bind_Ok. setoid_rewrite require_Ok.
  setoid_rewrite Nat.eqb_eq. setoid_rewrite Nat.leb_le. split.
  - intros ([] & Hb & [] & He & Hk). apply IH in Hk as (ks & -> & Hks & Hc);
      [|unfold COMPRESSED_PUBKEY_LEN in *; lia].
    eexists (_ :: ks). rewrite <- app_assoc. split; [done|]. split.
    + apply Forall_cons. split; [|done]. rewrite length_take, length_drop.
      unfold COMPRESSED_PUBKEY_LEN in *. lia.
    + rewrite (key_push_split script i be) by done. cbn [fmap list_fmap concat]. by rewrite <- Hc.
  - intros ([|k ks] & -> & Hks & Hc).
    { apply (f_equal length) in Hc. rewrite length_take, length_drop in Hc. cbn in Hc. lia. }
    apply Forall_cons in Hks as [Hk Hks].
    assert (S i + COMPRESSED_PUBKEY_LEN <= be)%nat as He.
    { apply (f_equal length) in Hc. rewrite length_take, length_drop in Hc. cbn [fmap list_fmap concat] in Hc.
      rewrite length_app in Hc. unfold key_push in Hc. cbn [length] in Hc. lia. }
    rewrite (range_split script i (S i + COMPRESSED_PUBKEY_LEN) be) in Hc
      by (unfold COMPRESSED_PUBKEY_LEN in *; lia).
    cbn [fmap list_fmap concat] in Hc. unfold key_push at 1 in Hc. cbn [app] in Hc.
    injection Hc as Hb Hc. rewrite Hb.
    apply app_inj_1 in Hc as [Hkey Hrest].
    2: { rewrite length_take, length_drop, Hk. lia. }
    exists tt. split; [done|]. exists tt. split; [done|].
    apply IH; [unfold COMPRESSED_PUBKEY_LEN in *; lia|]. exists ks. rewrite <- app_assoc.
    split; [|done]. f_equal. cbn [app]. f_equal. rewrite <- Hkey. f_equal. lia.
Qed.

Section vault_facts.
Context `{Sh : Sha2, Rm : Ripemd160}.

(** What a vault built by [new] from 33-byte keys is. *)
Record vault_wf (v : MultisigVault) : Prop := {
  vw_policy : policy (threshold v) (signer_pubkeys v);
  vw_keys : Forall (fun k => length k = COMPRESSED_PUBKEY_LEN) (signer_pubkeys v);
  vw_of : v = vault_of (threshold v) (signer_pubkeys v)
}.

(** A vault is built exactly from a well-formed policy. *)
Lemma new_Ok m keys v : new m keys = Ok v <-> policy m keys /\ v = vault_of m keys.
Proof.
  unfold new. split.
  - intros ([] & Hne%require_Ok & H)%bind_Ok. apply bind_Ok in H as ([] & Hmax%require_Ok & H).
    apply bind_Ok in H as ([] & Hm%require_Ok & H). apply bind_Ok in H as ([] & Hle%require_Ok & H).
    apply bind_Ok in H as ([] & [? ?]%check_keys_Ok & [= <-]); [|constructor].
    apply Nat.leb_le in Hmax, Hle. apply negb_true_iff, Nat.eqb_neq in Hm.
    split; [|done]. constructor; [lia|done|done|done].
  - intros [[? ? ? ?] ->]. unfold MAX_VAULT_SIGNERS in *.
    rewrite (proj2 (Nat.eqb_neq (length keys) 0)) by lia.
    rewrite (proj2 (Nat.leb_le (length keys) _)) by done.
    rewrite (proj2 (Nat.eqb_neq m 0)) by lia. rewrite (proj2 (Nat.leb_le m _)) by lia. res_red.
    rewrite (proj2 (check_keys_Ok [] keys (NoDup_nil_2))); [done|]. by split.
Qed.

Lemma script_of_length m keys :
  Forall (fun k => length k = COMPRESSED_PUBKEY_LEN) keys ->
  length (script_of m keys) = (3 + 34 * length keys)%nat.
Proof.
  intros Hk. unfold script_of. rewrite !length_app. cbn [length].
  assert (length (concat (key_push <$> keys)) = (34 * length keys)%nat) as ->; [|lia].
  induction Hk as [|k keys Hk _ IH]; [done|]. cbn [fmap list_fmap concat]. rewrite length_app, IH.
  unfold key_push. cbn [length]. rewrite Hk. unfold COMPRESSED_PUBKEY_LEN. lia.
Qed.

(** The four parts of a script of at least three bytes. *)
Lemma script_parts (s : list byte) :
  (3 <= length s)%nat ->
  s = [default x00 (s !! 0%nat)] ++ take (length s - 2 - 1) (drop 1 s) ++
      [default x00 (s !! (length s - 2)%nat)] ++ [default x00 (last s)].
Proof.
  intros Hl. destruct s as [|b s]; [cbn in Hl; lia|]. cbn [app lookup list_lookup]. f_equal.
  change (drop 1 (b :: s)) with s. cbn [length] in *.
  destruct s as [|y s _] using rev_ind; [cbn in Hl; lia|].
  destruct s as [|x s _] using rev_ind; [cbn in Hl; lia|].
  rewrite !length_app in *. cbn [length] in *.
  replace (S (length s + 1 + 1) - 2 - 1)%nat with (length s) by lia.
  replace (S (length s + 1 + 1) - 2)%nat with (S (length s)) by lia.
  rewrite <- !(assoc_L (++)). rewrite take_app_length. f_equal. cbn [lookup list_lookup].
  change (@lookup nat byte (list byte) _ (length s) (s ++ [x] ++ [y])) with ((s ++ [x] ++ [y]) !! length s).
  rewrite lookup_app_r, Nat.sub_diag by lia. cbn [app lookup list_lookup default from_option id].
  rewrite app_comm_cons, (cons_middle x), (assoc_L (++)), last_snoc. done.
Qed.
Lemma parse_script_of m keys :
  policy m keys -> Forall (fun k => length k = COMPRESSED_PUBKEY_LEN) keys ->
  let script := script_of m keys in
  parse_keys (length script - 2) script (length script - 2) 1 [] = Ok keys /\
  script !! 0%nat = Some (op_n m) /\ script !! (length script - 2)%nat = Some (op_n (length keys)) /\
  last script = Some xae.
Proof.
  intros Hp Hk script. pose proof (script_of_length m keys Hk) as Hl. fold script in Hl.
  assert (length (concat (key_push <$> keys)) = (34 * length keys)%nat) as Hb.
  { unfold script, script_of in Hl. rewrite !length_app in Hl. cbn [length] in Hl. lia. }
  split_and!; [|done| |].
  - apply parse_keys_Ok; [lia..|]. exists keys. split; [done|]. split; [done|].
    change (drop 1 script) with (concat (key_push <$> keys) ++ [op_n (length keys)] ++ [xae]).
    replace (length script - 2 - 1)%nat with (length (concat (key_push <$> keys))) by lia.
    apply take_app_length.
  - replace (length script - 2)%nat with (length ([op_n m] ++ concat (key_push <$> keys)) + 0)%nat
      by (rewrite length_app, Hb; cbn [length]; lia).
    unfold script, script_of. rewrite (assoc_L (++) [op_n m]), lookup_app_r by lia.
    by rewrite Nat.add_0_r, Nat.sub_diag.
  - unfold script, script_of. by rewrite !(assoc_L (++)), last_snoc.
Qed.

(** The parser accepts exactly the scripts of well-formed vaults. *)
Lemma from_redeem_script_iff script_hex v :
  from_redeem_script_hex script_hex = Ok v <->
  decode_vec script_hex = Ok (redeem_script v) /\ vault_wf v.
Proof.
  unfold from_redeem_script_hex. split.
  - intros (s & Hs%map_err_Ok & H)%bind_Ok. res_inv. bools. rewrite Nat.leb_le, Nat.eqb_eq in *.
    repeat match goal with H : _ = false |- _ => apply orb_false_iff in H as [? ?] end.
    rewrite Nat.ltb_ge in *.
    match goal with H : parse_keys _ _ _ _ _ = Ok _ |- _ => apply parse_keys_Ok in H as (ks & -> & Hks & Hc); [|lia..] end.
    match goal with H : new _ _ = Ok _ |- _ => apply new_Ok in H as [Hp ->] end. cbn [app] in *.
    split; [|by constructor]. cbn [redeem_script vault_of].
    rewrite Hs. f_equal. rewrite (script_parts s) by done. unfold script_of.
    repeat match goal with H : small_int _ = Some _ |- _ => apply small_int_op in H; [|lia] end.
    match goal with H : last s = _ |- _ => rewrite H end.
    match goal with H : default _ (s !! 0%nat) = _ |- _ => rewrite H end.
    match goal with H : default _ (s !! (_ - 2)%nat) = _ |- _ => rewrite H end.
    rewrite Hc. by subst.
  - intros [Hs [Hp Hk Hv]]. rewrite Hs. cbn [map_err]. res_red. rewrite Hv in *.
    cbn [threshold signer_pubkeys redeem_script vault_of] in *.
    destruct (parse_script_of _ _ Hp Hk) as (-> & -> & -> & ->). cbn [from_option Datatypes.id].
    pose proof (script_of_length (threshold v) _ Hk) as ->.
    destruct (po_threshold _ _ Hp) as [? ?]. pose proof (po_signers _ _ Hp) as Hn. unfold MAX_VAULT_SIGNERS in Hn.
    rewrite (proj2 (Nat.leb_le _ _)) by lia. rewrite bool_decide_eq_true_2 by done. res_red.
    rewrite !op_n_small by lia. res_red.
    rewrite (proj2 (Nat.eqb_neq (threshold v) 0)) by lia.
    rewrite (proj2 (Nat.eqb_neq (length _) 0)) by lia.
    rewrite !(proj2 (Nat.ltb_ge _ _)) by lia. res_red. rewrite Nat.eqb_refl. res_red.
    by apply new_Ok.
Qed.

Lemma redeem_script_size v : vault_wf v -> (length (redeem_script v) <= 547)%nat.
Proof.
  intros [Hp Hk ->]. cbn [redeem_script vault_of]. rewrite script_of_length by done.
  pose proof (po_signers _ _ Hp) as Hn. unfold MAX_VAULT_SIGNERS in Hn. lia.
Qed.

(** A redeem script is accepted exactly when it is the canonical script of a vault
    that the constructor itself accepts from the same threshold and keys: every value of
    the vault type that parsing yields satisfies the policy (threshold, distinct
    compressed keys, size limits) and re-encodes to the very bytes it came from. *)
Theorem redeem_script_decides_vault script_hex v :
  from_redeem_script_hex script_hex = Ok v <->
  decode_vec script_hex = Ok (redeem_script v) /\
  new (threshold v) (signer_pubkeys v) = Ok v /\
  Forall (fun k => length k = COMPRESSED_PUBKEY_LEN) (signer_pubkeys v).
Proof.
  rewrite from_redeem_script_iff, new_Ok. split.
  - by intros (? & [? ? ?]).
  - intros (? & [? ?] & ?). split; [done|by constructor].
Qed.

(** ** Quorums *)

Lemma check_quorum_Ok v last_ indices :
  check_quorum v last_ indices = Ok tt <->
  Forall (fun i => byte_to_Z i < Z.of_nat (signer_count v)) indices /\
  Sorted Z.lt (option_list last_ ++ (byte_to_Z <$> indices)).
Proof.
  revert last_. induction indices as [|i indices IH]; intros last_; cbn [check_quorum fmap list_fmap].
  - split; [|done]. split; [constructor|]. destruct last_; cbn; repeat constructor.
  - rewrite bind_Ok. setoid_rewrite require_Ok. setoid_rewrite bind_Ok. setoid_rewrite require_Ok.
    rewrite Forall_cons. specialize (IH (Some (byte_to_Z i))). cbn [option_list app] in IH.
    split.
    + intros ([] & Hi%Z.ltb_lt & [] & Hl & [Hf Hs]%IH). split; [done|].
      destruct last_ as [prev|]; [|done]. apply Z.ltb_lt in Hl. constructor; [done|by constructor].
    + intros [[Hi Hf] Hs]. exists tt. split; [by apply Z.ltb_lt|]. exists tt. destruct last_ as [prev|].
      * apply Sorted_inv in Hs as [Hs Hhd]. inversion Hhd; subst. rewrite IH. split; [by apply Z.ltb_lt|done].
      * by rewrite IH.
Qed.

(** Exactly [threshold] signers of the vault, in strictly ascending order. *)
Lemma validate_quorum_Ok v indices :
  validate_quorum v indices = Ok tt <->
  length indices = threshold v /\
  Forall (fun i => byte_to_Z i < Z.of_nat (signer_count v)) indices /\
  Sorted Z.lt (byte_to_Z <$> indices).
Proof.
  unfold validate_quorum. rewrite bind_Ok. setoid_rewrite require_Ok. setoid_rewrite Nat.eqb_eq.
  pose proof (check_quorum_Ok v None indices) as Hq. cbn [option_list app] in Hq.
  split; [intros ([] & ? & ?%Hq); naive_solver|]. intros (? & Hs). exists tt. split; [done|]. by apply Hq.
Qed.
End vault_facts.

(** A stand-in digest of the right length, for evaluation only. *)
#[refine] Definition toy_ripemd : Ripemd160 := {| ripemd160 d := take 20 (d ++ replicate 20 x00) |}.
Proof. intros d. rewrite length_take, length_app, length_replicate. lia. Defined.

Definition demo_key (n : Z) : pubkey := x02 :: replicate 32 (byte_of_Z n).
Definition demo_keys : list pubkey := [demo_key 1; demo_key 2; demo_key 3].

Lemma redeem_script_decides_vault_witness :
  let v := @vault_of toy_sha2 toy_ripemd 2 demo_keys in
  @from_redeem_script_hex toy_sha2 toy_ripemd (redeem_script_hex v) = Ok v /\
  length (redeem_script v) = 105%nat.
Proof.
  cbv zeta. split; [|reflexivity].
  apply (@redeem_script_decides_vault toy_sha2 toy_ripemd).
  split; [vm_compute; reflexivity|]. split; [vm_compute; reflexivity|].
  repeat (apply Forall_cons; split; [reflexivity|]). constructor.
Defined.
