(* ===== verification/Assignment.v ===== *)
(** * Who acts first: [relayer/src/withdrawal/assignment.rs]

    Designation of operators by arithmetic, the failover window and the
    designated quorum of a payout.  A [usize] is 64 bits wide; operator
    indices and counts are [Z]. *)
From Stdlib Require Import ZArith Lia Strings.Byte.
From stdpp Require Import base numbers strings gmap list sorting.
From S2P Require Import Prelude Hex Address Vault.

Inductive AssignmentError :=
| IndexOutOfRange (index count : Z)
| NoOperators
| ZeroTimeout.

Record OperatorAssignment := {
  index : Z; count : Z; build_timeout_secs : Z; submit_timeout_secs : Z
}.

(** [OperatorAssignment::new] *)
Definition new (index count build_timeout submit_timeout : Z)
  : result AssignmentError OperatorAssignment :=
  require (negb (count =? 0)) NoOperators ;;*
  require (negb (count <=? index)) (IndexOutOfRange index count) ;;*
  require (negb ((build_timeout <=? 0) || (submit_timeout <=? 0))) ZeroTimeout ;;*
  Ok {| index := index; count := count; build_timeout_secs := build_timeout;
        submit_timeout_secs := submit_timeout |}.

Definition designated_for (a : OperatorAssignment) (work_id : Z) : Z := work_id mod count a.

Definition is_designated_for (a : OperatorAssignment) (work_id : Z) : bool :=
  designated_for a work_id =? index a.

Definition may_build (a : OperatorAssignment) (withdrawal_index observed_at now : Z) : bool :=
  is_designated_for a withdrawal_index ||
  (build_timeout_secs a <=? i64_saturating_sub now observed_at).

Definition may_submit (a : OperatorAssignment) (deposit_id ready_at now : Z) : bool :=
  is_designated_for a deposit_id ||
  (submit_timeout_secs a <=? i64_saturating_sub now ready_at).

Definition may_propose (a : OperatorAssignment) (proposer withdrawal_index observed_at now : Z)
  : bool :=
  (designated_for a withdrawal_index =? proposer) ||
  (build_timeout_secs a <=? i64_saturating_sub now observed_at).

(** The numeric order of bytes, for [sort_unstable]. *)
Definition byte_order (a b : byte) : Prop := byte_to_Z a <= byte_to_Z b.
#[export] Instance byte_order_dec : RelDecision byte_order.
Proof. intros a b. unfold byte_order. apply _. Defined.

(** [(start + k) % signer_count], a signer's position. *)
Definition position (start k signer_count : nat) : byte :=
  byte_of_Z (Z.of_nat ((start + k) mod signer_count)%nat).

(** [signer_count] is not zero. *)
Definition designate_quorum (withdrawal_index : Z) (signer_count threshold : nat) : list byte :=
  let start := Z.to_nat (Z.abs withdrawal_index mod Z.of_nat signer_count) in
  merge_sort byte_order ((fun k => position start k signer_count) <$> seq 0 threshold).

(** ** One builder per withdrawal until the window has passed *)

(** The operators of one federation: the same settings, every index. *)
Definition federation (count build_timeout submit_timeout : Z) (a : OperatorAssignment) : Prop :=
  exists i, 0 <= i /\ new i count build_timeout submit_timeout = Ok a.

Lemma federation_iff n bt st a :
  federation n bt st a <->
  0 <= index a < n /\ count a = n /\ build_timeout_secs a = bt /\ submit_timeout_secs a = st /\
  0 < bt /\ 0 < st.
Proof.
  unfold federation, new. split.
  - intros (i & Hi & H). res_inv. bools. subst. cbn. lia.
  - intros (Hi & <- & <- & <- & Hb & Hs). exists (index a). split; [lia|].
    rewrite (proj2 (Z.eqb_neq _ _)) by lia. rewrite (proj2 (Z.leb_gt (count a) _)) by lia.
    rewrite (proj2 (Z.leb_gt (build_timeout_secs a) _)) by lia.
    rewrite (proj2 (Z.leb_gt (submit_timeout_secs a) _)) by lia. res_red. by destruct a.
Qed.

Lemma saturated_wait now since t :
  in_i64 t -> t <= i64_saturating_sub now since <-> t <= now - since \/ t <= I64_MIN.
Proof. unfold in_i64, i64_saturating_sub, I64_MIN, I64_MAX. lia. Qed.

(** Among the operators of one federation configuration at most one may build a
    given withdrawal before the failover time, one always may, after the failover time
    everyone may, and a signer judges a proposer exactly as the proposer judges itself. *)
Theorem one_builder_before_failover n bt st w since now :
  0 <= w -> in_i64 bt ->
  (forall a b, federation n bt st a -> federation n bt st b -> now - since < bt ->
     may_build a w since now = true -> may_build b w since now = true -> index a = index b) /\
  (forall a, federation n bt st a -> bt <= now - since -> may_build a w since now = true) /\
  (0 < n -> 0 < bt -> 0 < st ->
   exists a, federation n bt st a /\ forall t, may_build a w since t = true) /\
  (forall a p, federation n bt st a -> 0 <= p < n ->
     may_propose a p w since now =
     may_build {| index := p; count := n; build_timeout_secs := bt; submit_timeout_secs := st |}
       w since now).
Proof.
  intros Hw Hbt. split_and!.
  - intros a b (_ & Hna & Ha & _ & Hpos & _)%federation_iff (_ & Hnb & Hb & _)%federation_iff Hlt.
    unfold may_build, is_designated_for, designated_for. rewrite Hna, Hnb, Ha, Hb.
    assert ((bt <=? i64_saturating_sub now since) = false) as ->.
    { apply Z.leb_gt, Z.nle_gt. rewrite saturated_wait by done. unfold I64_MIN. lia. }
    rewrite !orb_false_r, !Z.eqb_eq. lia.
  - intros a (_ & _ & Ha & _)%federation_iff Hge. unfold may_build. rewrite Ha.
    apply orb_true_iff. right. apply Z.leb_le, saturated_wait; auto.
  - intros Hn Hb Hs. exists {| index := w mod n; count := n; build_timeout_secs := bt;
                          submit_timeout_secs := st |}. split.
    + apply federation_iff. cbn. pose proof (Z.mod_pos_bound w n Hn). lia.
    + intros t. unfold may_build, is_designated_for, designated_for. cbn. by rewrite Z.eqb_refl.
  - intros a p (_ & Hn & Hb & _)%federation_iff _. unfold may_propose, may_build, is_designated_for, designated_for.
    cbn. by rewrite Hn, Hb.
Qed.

Lemma one_builder_before_failover_witness :
  let a i := {| index := i; count := 3; build_timeout_secs := 600; submit_timeout_secs := 60 |} in
  index (a 1) = index (a 1) /\ may_build (a 1) 7 1000 1599 = true /\
  may_build (a 0) 7 1000 1599 = false /\ may_build (a 2) 7 1000 1600 = true.
Proof.
  intros a. pose proof (one_builder_before_failover 3 600 60 7 1000 1599) as H.
  destruct H as (H & _); [lia|unfold in_i64, I64_MIN, I64_MAX; lia|].
  split_and!; [|reflexivity..].
  apply H; [exists 1; split; [lia|reflexivity]..|lia|reflexivity|reflexivity].
Defined.

(** ** The designated quorum *)

Lemma position_inj start n k k' :
  (n <= 256)%nat -> (k < n)%nat -> (k' < n)%nat -> position start k n = position start k' n -> k = k'.
Proof.
  intros Hn Hk Hk' H. unfold position in H. apply (f_equal byte_to_Z) in H.
  rewrite !byte_to_of_Z in H.
  pose proof (Nat.mod_upper_bound (start + k) n ltac:(lia)).
  pose proof (Nat.mod_upper_bound (start + k') n ltac:(lia)).
  rewrite !Z.mod_small in H by lia. apply Nat2Z.inj in H.
  pose proof (Nat.div_mod_eq (start + k) n). pose proof (Nat.div_mod_eq (start + k') n).
  assert ((start + k) / n = (start + k') / n)%nat by nia. nia.
Qed.

Lemma positions_NoDup start n t :
  (n <= 256)%nat -> (t <= n)%nat -> NoDup ((fun k => position start k n) <$> seq 0 t).
Proof.
  intros Hn Ht. apply NoDup_fmap_2_strong; [|apply NoDup_seq].
  intros k k' Hk Hk'. apply elem_of_seq in Hk, Hk'. apply position_inj; lia.
Qed.

Lemma sorted_strict (l : list byte) :
  StronglySorted byte_order l -> NoDup l -> Sorted Z.lt (byte_to_Z <$> l).
Proof.
  intros Hs. induction Hs as [|b l Hs IH Hb]; intros Hn; [constructor|].
  apply NoDup_cons in Hn as [Hb' Hn]. cbn [fmap list_fmap]. constructor; [by apply IH|].
  destruct l as [|c l]; [constructor|]. cbn [fmap list_fmap]. constructor.
  apply Forall_cons in Hb as [Hc _]. unfold byte_order in Hc.
  assert (byte_to_Z b <> byte_to_Z c); [|lia]. intros ->%byte_to_Z_inj. apply Hb'. by left.
Qed.

Section designation.
Context `{Sh : Sha2, Rm : Ripemd160}.

(** For every vault within the policy and every withdrawal index the designated
    quorum is accepted by the vault (threshold many indices, strictly increasing, below
    the number of signers, each fitting its byte) and consists of exactly the cyclic run
    of signers that starts at the index modulo their number. *)
Theorem designated_quorum_is_valid v withdrawal_index :
  policy (threshold v) (signer_pubkeys v) ->
  let q := designate_quorum withdrawal_index (signer_count v) (threshold v) in
  validate_quorum v q = Ok tt /\
  (forall i, byte_of_Z (Z.of_nat i) ∈ q <->
     exists k, (k < threshold v)%nat /\
       Z.of_nat i mod 256 = (Z.abs withdrawal_index + Z.of_nat k) mod Z.of_nat (signer_count v)).
Proof.
  intros [[Hm Hle] Hn _ _] q. unfold MAX_VAULT_SIGNERS in Hn.
  set (n := signer_count v) in *. unfold signer_count in n. fold n in Hn, Hle.
  set (start := Z.to_nat (Z.abs withdrawal_index mod Z.of_nat n)).
  set (l := (fun k => position start k n) <$> seq 0 (threshold v)).
  assert (q ≡ₚ l) as Hp by apply merge_sort_Permutation. split.
  - apply validate_quorum_Ok. split_and!.
    + rewrite Hp. unfold l. by rewrite length_fmap, length_seq.
    + rewrite Hp. unfold l. apply Forall_fmap, Forall_forall. intros k _. cbn. unfold position.
      rewrite byte_to_of_Z. fold n. pose proof (Nat.mod_upper_bound (start + k) n ltac:(lia)).
      change (signer_count v) with n. rewrite Z.mod_small by lia. lia.
    + apply sorted_strict.
      * apply Sorted_StronglySorted; [intros ??? ??; unfold byte_order in *; lia|].
        apply Sorted_merge_sort. intros a b. unfold byte_order. lia.
      * rewrite Hp. apply positions_NoDup; lia.
  - intros i. rewrite Hp. unfold l. rewrite list_elem_of_fmap. unfold start, position.
    assert (forall k, Z.of_nat ((Z.to_nat (Z.abs withdrawal_index mod Z.of_nat n) + k) mod n)%nat =
                      (Z.abs withdrawal_index + Z.of_nat k) mod Z.of_nat n) as Hpos.
    { intros k. rewrite Nat2Z.inj_mod, Nat2Z.inj_add, Z2Nat.id by (apply Z.mod_pos_bound; lia).
      by rewrite Z.add_mod_idemp_l by lia. }
    setoid_rewrite elem_of_seq. split.
    + intros (k & Hb & _ & Hk). exists k. split; [lia|]. apply (f_equal byte_to_Z) in Hb.
      rewrite !byte_to_of_Z, Hpos in Hb. rewrite Hb. apply Z.mod_small.
      pose proof (Z.mod_pos_bound (Z.abs withdrawal_index + Z.of_nat k) (Z.of_nat n)). lia.
    + intros (k & Hk & Hi). exists k. split; [|lia]. apply byte_to_Z_inj.
      rewrite !byte_to_of_Z, Hpos, Hi. symmetry. apply Z.mod_small.
      pose proof (Z.mod_pos_bound (Z.abs withdrawal_index + Z.of_nat k) (Z.of_nat n)). lia.
Qed.
End designation.

Lemma designated_quorum_is_valid_witness :
  let v := @vault_of toy_sha2 toy_ripemd 2 demo_keys in
  designate_quorum 5 3 2 = [x00; x02] /\ validate_quorum v (designate_quorum 5 3 2) = Ok tt.
Proof.
  cbv zeta. split; [vm_compute; reflexivity|].
  apply (@designated_quorum_is_valid (@vault_of toy_sha2 toy_ripemd 2 demo_keys) 5).
  constructor; [cbn; lia|cbn; unfold MAX_VAULT_SIGNERS; lia| |].
  - repeat (apply Forall_cons; split; [by left|]). constructor.
  - apply (bool_decide_unpack _). vm_compute. exact I.
Defined.
