(* ===== verification/Multisig.v ===== *)
(** * scriptSig assembly: [relayer/src/withdrawal/multisig.rs]

    Legacy transactions, their parser and serializer, the [SIGHASH_ALL]
    digest, the assembly of partial signatures and their extraction.  The
    parser is a function of a cursor; [usize] is 64 bits, and a [take] whose
    end overflows it is past the data as well.  [checkmultisig] is the
    consensus rule the assembled script must satisfy, stated on its own. *)
From Stdlib Require Import ZArith Lia Strings.Byte.
From stdpp Require Import base numbers strings gmap list sorting.
From S2P Require Import Prelude Hex DepositDb Address Vault.

Definition SIGHASH_ALL : Z := 0x01.
Definition OP_0 : byte := x00.
Definition MAX_DER_SIG_LEN : nat := 73.

(** [MultisigPanic]: the hex decoder slices off a character boundary. *)
Inductive MultisigError :=
| NotHex
| Truncated (pos : nat)
| InputCountMismatch (n : nat)
| SignerNotInVault (pubkey_hex : str)
| DuplicateContribution (pubkey_hex : str) (count : nat)
| ThresholdNotMet (input got threshold : nat)
| TooManySignatures (input got threshold : nat)
| MalformedSignature (input : nat) (pubkey_hex reason : str)
| SignatureDoesNotVerify (input : nat) (pubkey_hex : str)
| VarIntTooLarge (pos : nat)
| NoInputs
| MultisigPanic.

Record TxInput := {
  prev_txid : list byte; prev_vout : Z; script_sig : list byte; sequence : Z
}.
Record TxOutput := { value : Z; script_pubkey : list byte }.
Record Transaction := {
  version : Z; inputs : list TxInput; outputs : list TxOutput; lock_time : Z
}.

(** ** Parsing *)

Record Cursor := { data : list byte; pos : nat }.
Definition parser (A : Type) : Type := Cursor -> result MultisigError (A * Cursor).

#[export] Instance parser_ret : MRet parser := fun A a c => Ok (a, c).
#[export] Instance parser_bind : MBind parser := fun A B f p c =>
  match p c with Ok (a, c) => f a c | Err e => Err e end.
Definition parse_fail {A} (e : nat -> MultisigError) : parser A := fun c => Err (e (pos c)).

(** [Cursor::take] *)
Definition take_bytes (n : Z) : parser (list byte) := fun c =>
  if Z.of_nat (length (data c)) <? Z.of_nat (pos c) + n then Err (Truncated (pos c))
  else Ok (take (Z.to_nat n) (drop (pos c) (data c)),
           {| data := data c; pos := pos c + Z.to_nat n |}).

Definition u32_le : parser Z := bs ← take_bytes 4; mret (le_val bs).
Definition u64_le : parser Z := bs ← take_bytes 8; mret (le_val bs).

Definition varint : parser Z :=
  first ← take_bytes 1;
  match byte_to_Z (default x00 (first !! 0%nat)) with
  | 0xfd => bs ← take_bytes 2; mret (le_val bs)
  | 0xfe => bs ← take_bytes 4; mret (le_val bs)
  | 0xff => bs ← take_bytes 8; mret (le_val bs)
  | n => mret n
  end.

(** [for _ in 0..n { .. push(p()?) }] *)
Fixpoint times {A} (n : nat) (p : parser A) : parser (list A) :=
  match n with
  | O => mret []
  | S n => a ← p; l ← times n p; mret (a :: l)
  end.

Definition parse_input : parser TxInput :=
  prev_txid ← take_bytes 32;
  prev_vout ← u32_le;
  slen ← varint;
  script_sig ← take_bytes slen;
  sequence ← u32_le;
  mret {| prev_txid := prev_txid; prev_vout := prev_vout; script_sig := script_sig;
          sequence := sequence |}.

Definition parse_output : parser TxOutput :=
  value ← u64_le;
  slen ← varint;
  script_pubkey ← take_bytes slen;
  mret {| value := value; script_pubkey := script_pubkey |}.

(** [as i32] *)
Definition as_i32 (z : Z) : Z := (z + 2 ^ 31) mod 2 ^ 32 - 2 ^ 31.

Definition parse_transaction : parser Transaction :=
  version ← u32_le;
  n_in ← varint;
  if n_in =? 0 then parse_fail (fun _ => NoInputs)
  else if 10000 <? n_in then parse_fail VarIntTooLarge
  else
    inputs ← times (Z.to_nat n_in) parse_input;
    n_out ← varint;
    if 10000 <? n_out then parse_fail VarIntTooLarge
    else
      outputs ← times (Z.to_nat n_out) parse_output;
      lock_time ← u32_le;
      mret {| version := as_i32 version; inputs := inputs; outputs := outputs;
              lock_time := lock_time |}.

Definition parse (raw : list byte) : result MultisigError Transaction :=
  let* (t, _) := parse_transaction {| data := raw; pos := 0 |} in Ok t.

Definition parse_hex (hex_str : str) : result MultisigError Transaction :=
  let* raw := map_err (fun f => match f with HexErr _ => NotHex | Panicked => MultisigPanic end)
                (decode_vec hex_str) in
  parse raw.

(** ** Serialization *)

Definition put_varint (n : Z) : list byte :=
  if n <=? 0xfc then [byte_of_Z n]
  else if n <=? 0xffff then xfd :: le_bytes 2 n
  else if n <=? 0xffffffff then xfe :: le_bytes 4 n
  else xff :: le_bytes 8 n.

(** A length as the [u64] it is written as. *)
Definition put_len {A} (l : list A) : list byte := put_varint (Z.of_nat (length l)).

Definition serialize_input (i : TxInput) : list byte :=
  prev_txid i ++ le_bytes 4 (prev_vout i) ++ put_len (script_sig i) ++ script_sig i ++
  le_bytes 4 (sequence i).

Definition serialize_output (o : TxOutput) : list byte :=
  le_bytes 8 (value o) ++ put_len (script_pubkey o) ++ script_pubkey o.

Definition serialize (t : Transaction) : list byte :=
  le_bytes 4 (version t) ++ put_len (inputs t) ++ concat (serialize_input <$> inputs t) ++
  put_len (outputs t) ++ concat (serialize_output <$> outputs t) ++ le_bytes 4 (lock_time t).

Definition serialize_hex (t : Transaction) : str := encode (serialize t).

(** Minimal pushes up to 0xff bytes; a longer length is [n as u16]. *)
Definition push_data (bs : list byte) : list byte :=
  let n := Z.of_nat (length bs) in
  (if n <? 0x4c then [byte_of_Z n]
   else if n <=? 0xff then [x4c; byte_of_Z n]
   else x4d :: le_bytes 2 n) ++ bs.

Definition set_script (s : list byte) (i : TxInput) : TxInput :=
  {| prev_txid := prev_txid i; prev_vout := prev_vout i; script_sig := s;
     sequence := sequence i |}.
Definition with_inputs (t : Transaction) (inps : list TxInput) : Transaction :=
  {| version := version t; inputs := inps; outputs := outputs t; lock_time := lock_time t |}.

(** ** Script pushes *)

(** The loop at offset [i]; every turn consumes a byte. *)
Fixpoint parse_pushes (fuel : nat) (script : list byte) (i : nat) (items : list (list byte))
  : result MultisigError (list (list byte)) :=
  match fuel, script !! i with
  | S fuel, Some op =>
      let i := S i in
      let op := byte_to_Z op in
      let* (n, i) :=
        if op <=? 0x4b then Ok (Z.to_nat op, i)
        else if op =? 0x4c then
          let* b := ok_or (script !! i) (Truncated i) in
          Ok (Z.to_nat (byte_to_Z b), S i)
        else if op =? 0x4d then
          let* bs := ok_or (get_range script i (i + 2)) (Truncated i) in
          Ok (Z.to_nat (le_val bs), (i + 2)%nat)
        else Err (Truncated i) in
      require (i + n <=? length script)%nat (Truncated i) ;;*
      parse_pushes fuel script (i + n) (items ++ [take n (drop i script)])
  | _, _ => Ok items
  end.

Definition parse_script_pushes (script : list byte) : result MultisigError (list (list byte)) :=
  parse_pushes (length script) script 0 [].

(** ** Signatures *)

Record PartialSignature := { vault_pubkey : pubkey; signatures : list (list byte) }.

Section assembly.
Context `{Sh : Sha2, Sc : Secp256k1}.

Definition txid (t : Transaction) : list byte := sha256 (sha256 (serialize t)).
Definition txid_hex (t : Transaction) : str := encode (rev (txid t)).

(** Every other input's script emptied, this one's replaced. *)
Definition sighash_preimage (t : Transaction) (input_index : nat) (redeem : list byte) : list byte :=
  serialize (with_inputs t
    (imap (fun i => set_script (if (i =? input_index)%nat then redeem else [])) (inputs t))) ++
  le_bytes 4 SIGHASH_ALL.

Definition sighash_all (t : Transaction) (input_index : nat) (redeem : list byte) : list byte :=
  sha256 (sha256 (sighash_preimage t input_index redeem)).

Definition verify_partial (input : nat) (key : pubkey) (der_with_hashtype sighash : list byte)
  : result MultisigError unit :=
  let bad reason := MalformedSignature input (encode key) (lit reason) in
  let len := length der_with_hashtype in
  require (negb ((len =? 0) || (MAX_DER_SIG_LEN <? len))%nat) (bad "implausible signature length") ;;*
  let der := take (len - 1) der_with_hashtype in
  require (bool_decide (drop (len - 1) der_with_hashtype = [byte_of_Z SIGHASH_ALL]))
    (bad "sighash type is not SIGHASH_ALL") ;;*
  let* sig := ok_or (parse_der der) (bad "not a valid DER ECDSA signature") in
  let* pk := ok_or (parse_compressed key) (bad "not a valid compressed secp256k1 public key") in
  require (ecdsa_verify sighash sig pk) (SignatureDoesNotVerify input (encode key)).

(** Adds one contributor with its position in the redeem script. *)
Definition place (v : MultisigVault) (placed : list (nat * PartialSignature))
    (p : PartialSignature) : result MultisigError (list (nat * PartialSignature)) :=
  let* (pos, _) := ok_or (list_find (fun k => k = vault_pubkey p) (signer_pubkeys v))
                     (SignerNotInVault (encode (vault_pubkey p))) in
  match list_find (fun ip => ip.1 = pos) placed with
  | Some (_, (_, prev)) => Err (DuplicateContribution (encode (vault_pubkey prev)) 2)
  | None => Ok (placed ++ [(pos, p)])
  end.

(** [sort_by_key] on the position. *)
Definition by_position (a b : nat * PartialSignature) : Prop := (a.1 <= b.1)%nat.
#[export] Instance by_position_dec : RelDecision by_position.
Proof. intros a b. unfold by_position. apply _. Defined.

(** The script of one input, after the signatures already pushed. *)
Fixpoint push_signatures (input_index : nat) (sighash script : list byte)
    (placed : list (nat * PartialSignature)) : result MultisigError (list byte) :=
  match placed with
  | [] => Ok script
  | (_, p) :: placed =>
      let sig := default [] (signatures p !! input_index) in
      verify_partial input_index (vault_pubkey p) sig sighash ;;*
      push_signatures input_index sighash (script ++ push_data sig) placed
  end.

Definition sign_input (unsigned : Transaction) (v : MultisigVault)
    (placed : list (nat * PartialSignature)) (input_index : nat) (inp : TxInput)
  : result MultisigError TxInput :=
  let got := length placed in
  require (negb (got <? threshold v)%nat) (ThresholdNotMet input_index got (threshold v)) ;;*
  require (negb (threshold v <? got)%nat) (TooManySignatures input_index got (threshold v)) ;;*
  let sighash := sighash_all unsigned input_index (redeem_script v) in
  let* script := push_signatures input_index sighash [OP_0] placed in
  Ok (set_script (script ++ push_data (redeem_script v)) inp).

Fixpoint sign_inputs (unsigned : Transaction) (v : MultisigVault)
    (placed : list (nat * PartialSignature)) (input_index : nat) (inps : list TxInput)
  : result MultisigError (list TxInput) :=
  match inps with
  | [] => Ok []
  | inp :: inps =>
      let* inp := sign_input unsigned v placed input_index inp in
      let* inps := sign_inputs unsigned v placed (S input_index) inps in
      Ok (inp :: inps)
  end.

Definition assemble (unsigned : Transaction) (v : MultisigVault)
    (partials : list PartialSignature) : result MultisigError Transaction :=
  require (negb (length (inputs unsigned) =? 0)%nat) NoInputs ;;*
  for_each (fun p => require (length (signatures p) =? length (inputs unsigned))%nat
                       (InputCountMismatch (length (signatures p)))) partials ;;*
  let* placed := foldM (place v) [] partials in
  let placed := merge_sort by_position placed in
  let* inps := sign_inputs unsigned v placed 0 (inputs unsigned) in
  Ok (with_inputs unsigned inps).

(** The first nonempty item of each input that is not the redeem script. *)
Fixpoint extract_from (i : nat) (redeem : list byte) (inps : list TxInput)
  : result MultisigError (list (list byte)) :=
  match inps with
  | [] => Ok []
  | inp :: inps =>
      let* items := parse_script_pushes (script_sig inp) in
      let* (_, sig) := ok_or (list_find (fun it => it <> [] /\ it <> redeem) items)
        (MalformedSignature i [] (lit "partial scriptSig contains no signature")) in
      let* rest := extract_from (S i) redeem inps in
      Ok (sig :: rest)
  end.

Definition extract_signatures (partial : Transaction) (redeem : list byte)
  : result MultisigError (list (list byte)) := extract_from 0 redeem (inputs partial).
End assembly.

(** ** Round trip *)

(** [p] reads [bs], wherever it stands, as [a]. *)
Definition reads {A} (p : parser A) (a : A) (bs : list byte) : Prop :=
  forall pre rest,
    p {| data := pre ++ bs ++ rest; pos := length pre |} =
    Ok (a, {| data := pre ++ bs ++ rest; pos := length pre + length bs |}).

(** Whatever [p] returns satisfies [P]. *)
Definition ensures {A} (p : parser A) (P : A -> Prop) : Prop :=
  forall c a c', p c = Ok (a, c') -> P a.

Lemma reads_ret {A} (a : A) : reads (mret a) a [].
Proof. intros pre rest. cbn. by rewrite Nat.add_0_r. Qed.

Lemma reads_bind {A B} (p : parser A) (f : A -> parser B) a b bs bs' :
  reads p a bs -> reads (f a) b bs' -> reads (p ≫= f) b (bs ++ bs').
Proof.
  intros Hp Hf pre rest. unfold mbind, parser_bind. rewrite <- (assoc_L (++)).
  rewrite Hp. specialize (Hf (pre ++ bs) rest). rewrite <- (assoc_L (++)), length_app in Hf.
  rewrite Hf. by rewrite length_app, Nat.add_assoc.
Qed.

(** The last read of a parser. *)
Lemma reads_last {A B} (p : parser A) (f : A -> B) a bs :
  reads p a bs -> reads (x ← p; mret (f x)) (f a) bs.
Proof. intros Hp. rewrite <- (app_nil_r bs). eapply reads_bind; [exact Hp|]. apply reads_ret. Qed.

Lemma ensures_bind {A B} (p : parser A) (f : A -> parser B) P Q :
  ensures p P -> (forall a, P a -> ensures (f a) Q) -> ensures (p ≫= f) Q.
Proof.
  intros Hp Hf c b c'. unfold mbind, parser_bind. destruct (p c) as [[a c1]|] eqn:E; [|done].
  apply Hf. by eapply Hp.
Qed.

Lemma ensures_ret {A} (a : A) (P : A -> Prop) : P a -> ensures (mret a) P.
Proof. intros HP c a' c' H. injection H as <- <-. exact HP. Qed.

Lemma ensures_fail {A} e (P : A -> Prop) : ensures (parse_fail e) P.
Proof. intros c a c' H. discriminate H. Qed.

Lemma reads_take bs n : n = Z.of_nat (length bs) -> reads (take_bytes n) bs bs.
Proof.
  intros -> pre rest. unfold take_bytes. cbn [data pos]. rewrite !length_app.
  destruct (Z.ltb_spec (Z.of_nat (length pre + (length bs + length rest)))
              (Z.of_nat (length pre) + Z.of_nat (length bs))); [lia|].
  by rewrite Nat2Z.id, drop_app_length, take_app_length.
Qed.

Lemma ensures_take n : ensures (take_bytes n) (fun bs => length bs = Z.to_nat n).
Proof.
  intros c bs c'. unfold take_bytes. case_match; [done|]. bools. intros [= <- _].
  rewrite length_take, length_drop. lia.
Qed.

Lemma reads_le n z : reads (bs ← take_bytes (Z.of_nat n); mret (le_val bs)) (z mod 256 ^ Z.of_nat n) (le_bytes n z).
Proof.
  rewrite <- (app_nil_r (le_bytes n z)). eapply reads_bind.
  - apply reads_take. by rewrite length_le_bytes.
  - rewrite <- le_val_le_bytes. apply reads_ret.
Qed.

Lemma ensures_le n :
  ensures (bs ← take_bytes (Z.of_nat n); mret (le_val bs)) (fun z => 0 <= z < 256 ^ Z.of_nat n).
Proof.
  eapply ensures_bind; [apply ensures_take|]. intros bs Hbs. apply ensures_ret.
  pose proof (le_val_bound bs) as H. by rewrite Hbs, Nat2Z.id in H.
Qed.

Lemma reads_u32 z : reads u32_le (z mod 2 ^ 32) (le_bytes 4 z).
Proof. apply (reads_le 4). Qed.

Lemma reads_u64 z : in_u64 z -> reads u64_le z (le_bytes 8 z).
Proof.
  unfold in_u64, U64_MAX. intros Hz. rewrite <- (Z.mod_small z (2 ^ 64)) at 1 by lia.
  apply (reads_le 8).
Qed.

Lemma reads_varint n : in_u64 n -> reads varint n (put_varint n).
Proof.
  unfold in_u64, U64_MAX. intros Hn. unfold put_varint, varint.
  destruct (Z.leb_spec n 0xfc) as [H1|H1].
  { rewrite <- (app_nil_r [byte_of_Z n]). eapply reads_bind; [by apply reads_take|].
    cbn [lookup list_lookup]. change (default x00 (Some (byte_of_Z n))) with (byte_of_Z n).
    rewrite byte_to_of_Z, Z.mod_small by lia.
    destruct n as [|p|p]; [apply reads_ret| |lia].
    do 8 (destruct p as [p|p|]; try lia; try apply reads_ret). }
  destruct (Z.leb_spec n 0xffff) as [H2|H2];
    [|destruct (Z.leb_spec n 0xffffffff) as [H3|H3]].
  - change (xfd :: le_bytes 2 n) with ([xfd] ++ le_bytes 2 n).
    eapply reads_bind; [by apply reads_take|]. cbn.
    pose proof (reads_le 2 n) as H. rewrite Z.mod_small in H by lia. exact H.
  - change (xfe :: le_bytes 4 n) with ([xfe] ++ le_bytes 4 n).
    eapply reads_bind; [by apply reads_take|]. cbn.
    pose proof (reads_le 4 n) as H. rewrite Z.mod_small in H by lia. exact H.
  - change (xff :: le_bytes 8 n) with ([xff] ++ le_bytes 8 n).
    eapply reads_bind; [by apply reads_take|]. cbn.
    pose proof (reads_le 8 n) as H. rewrite Z.mod_small in H by lia. exact H.
Qed.

Lemma ensures_varint : ensures varint in_u64.
Proof.
  unfold varint. eapply ensures_bind; [apply (ensures_take 1)|]. intros bs _.
  assert (forall k, (k <= 8)%nat ->
    ensures (bs ← take_bytes (Z.of_nat k); mret (le_val bs)) in_u64) as Hk.
  { intros k Hk c a c' H. apply ensures_le in H. unfold in_u64, U64_MAX.
    assert (256 ^ Z.of_nat k <= 2 ^ 64) by (change (2 ^ 64) with (256 ^ 8); apply Z.pow_le_mono_r; lia). lia. }
  pose proof (byte_to_Z_bound (default x00 (bs !! 0%nat))) as Hb.
  assert (in_u64 (byte_to_Z (default x00 (bs !! 0%nat)))) as Hs by (unfold in_u64, U64_MAX; lia).
  revert Hs. generalize (byte_to_Z (default x00 (bs !! 0%nat))). intros z Hz.
  repeat case_match; try (by apply ensures_ret); [apply (Hk 8%nat)|apply (Hk 2%nat)|apply (Hk 4%nat)]; lia.
Qed.

Lemma reads_times {A} (p : parser A) (enc : A -> list byte) l :
  Forall (fun a => reads p a (enc a)) l -> reads (times (length l) p) l (concat (enc <$> l)).
Proof.
  induction 1 as [|a l Ha _ IH]; [apply reads_ret|]. cbn [length times fmap list_fmap concat].
  eapply reads_bind; [exact Ha|]. by apply (reads_last _ (cons a)).
Qed.

Lemma ensures_times {A} (p : parser A) P n :
  ensures p P -> ensures (times n p) (fun l => length l = n /\ Forall P l).
Proof.
  intros Hp. induction n as [|n IH]; cbn [times]; [apply ensures_ret; by split|].
  eapply ensures_bind; [exact Hp|]. intros a Ha. eapply ensures_bind; [exact IH|].
  intros l [<- Hl]. apply ensures_ret. split; [done|by constructor].
Qed.

Definition wf_script (s : list byte) : Prop := in_u64 (Z.of_nat (length s)).
Record input_wf (i : TxInput) : Prop := {
  iw_txid : length (prev_txid i) = 32%nat; iw_vout : in_u32 (prev_vout i);
  iw_script : wf_script (script_sig i); iw_sequence : in_u32 (sequence i)
}.
Record output_wf (o : TxOutput) : Prop := {
  ow_value : in_u64 (value o); ow_script : wf_script (script_pubkey o)
}.
(** The fields in their machine ranges, and counts the parser accepts. *)
Record tx_wf (t : Transaction) : Prop := {
  xw_version : - 2 ^ 31 <= version t < 2 ^ 31;
  xw_lock : in_u32 (lock_time t);
  xw_inputs : 1 <= Z.of_nat (length (inputs t)) <= 10000;
  xw_outputs : Z.of_nat (length (outputs t)) <= 10000;
  xw_each_input : Forall input_wf (inputs t);
  xw_each_output : Forall output_wf (outputs t)
}.

Lemma reads_u32_in z : in_u32 z -> reads u32_le z (le_bytes 4 z).
Proof.
  unfold in_u32, U32_MAX. intros Hz. rewrite <- (Z.mod_small z (2 ^ 32)) at 1 by lia.
  apply reads_u32.
Qed.

Lemma ensures_u32 : ensures u32_le in_u32.
Proof.
  intros c a c' H. apply (ensures_le 4) in H. change (256 ^ Z.of_nat 4) with (2 ^ 32) in H.
  unfold in_u32, U32_MAX. lia.
Qed.

Lemma ensures_u64 : ensures u64_le in_u64.
Proof.
  intros c a c' H. apply (ensures_le 8) in H. change (256 ^ Z.of_nat 8) with (2 ^ 64) in H.
  unfold in_u64, U64_MAX. lia.
Qed.

Lemma ensures_script n : in_u64 n -> ensures (take_bytes n) wf_script.
Proof.
  intros Hn c bs c' H. apply ensures_take in H. unfold wf_script. rewrite H.
  unfold in_u64 in *. lia.
Qed.

Lemma reads_input i : input_wf i -> reads parse_input i (serialize_input i).
Proof.
  intros [H1 H2 H3 H4]. unfold serialize_input, parse_input.
  eapply reads_bind; [by apply reads_take; rewrite H1|].
  eapply reads_bind; [by apply reads_u32_in|].
  eapply reads_bind; [by apply reads_varint|].
  eapply reads_bind; [by apply reads_take|].
  destruct i.
  by apply (reads_last _ (fun s => {| prev_txid := _; prev_vout := _; script_sig := _; sequence := s |})),
    reads_u32_in.
Qed.

Lemma ensures_input : ensures parse_input input_wf.
Proof.
  unfold parse_input. eapply ensures_bind; [apply ensures_take|]. intros ? H1.
  eapply ensures_bind; [apply ensures_u32|]. intros ? H2.
  eapply ensures_bind; [apply ensures_varint|]. intros ? Hn.
  eapply ensures_bind; [by apply ensures_script|]. intros ? H3.
  eapply ensures_bind; [apply ensures_u32|]. intros ? H4. by apply ensures_ret.
Qed.

Lemma reads_output o : output_wf o -> reads parse_output o (serialize_output o).
Proof.
  intros [H1 H2]. unfold serialize_output, parse_output.
  eapply reads_bind; [by apply reads_u64|]. eapply reads_bind; [by apply reads_varint|].
  destruct o. by apply (reads_last _ (fun s => {| value := _; script_pubkey := s |})), reads_take.
Qed.

Lemma ensures_output : ensures parse_output output_wf.
Proof.
  unfold parse_output. eapply ensures_bind; [apply ensures_u64|]. intros ? H1.
  eapply ensures_bind; [apply ensures_varint|]. intros ? Hn.
  eapply ensures_bind; [by apply ensures_script|]. intros ? H2. by apply ensures_ret.
Qed.

Lemma as_i32_mod z : - 2 ^ 31 <= z < 2 ^ 31 -> as_i32 (z mod 2 ^ 32) = z.
Proof.
  intros Hz. unfold as_i32. rewrite Z.add_mod_idemp_l by lia. rewrite Z.mod_small by lia. lia.
Qed.

Lemma as_i32_range z : - 2 ^ 31 <= as_i32 z < 2 ^ 31.
Proof. unfold as_i32. pose proof (Z.mod_pos_bound (z + 2 ^ 31) (2 ^ 32)). lia. Qed.

Lemma reads_transaction t : tx_wf t -> reads parse_transaction t (serialize t).
Proof.
  intros [H1 H2 H3 H4 H5 H6]. unfold serialize, parse_transaction.
  eapply reads_bind; [apply reads_u32|].
  eapply reads_bind; [apply reads_varint; unfold in_u64, U64_MAX; lia|].
  rewrite (proj2 (Z.eqb_neq _ _)) by lia. rewrite (proj2 (Z.ltb_ge _ _)) by lia.
  rewrite Nat2Z.id. eapply reads_bind.
  { apply reads_times. eapply Forall_impl; [exact H5|]. apply reads_input. }
  eapply reads_bind; [apply reads_varint; unfold in_u64, U64_MAX; lia|].
  rewrite (proj2 (Z.ltb_ge _ _)) by lia. rewrite Nat2Z.id. eapply reads_bind.
  { apply reads_times. eapply Forall_impl; [exact H6|]. apply reads_output. }
  rewrite as_i32_mod by done. destruct t.
  by apply (reads_last _ (fun l => {| version := _; inputs := _; outputs := _; lock_time := l |})),
    reads_u32_in.
Qed.

Lemma ensures_transaction : ensures parse_transaction tx_wf.
Proof.
  unfold parse_transaction. eapply ensures_bind; [apply ensures_u32|]. intros v Hv.
  eapply ensures_bind; [apply ensures_varint|]. intros n Hn. unfold in_u64 in Hn.
  destruct (Z.eqb_spec n 0); [apply ensures_fail|].
  destruct (Z.ltb_spec 10000 n); [apply ensures_fail|].
  eapply ensures_bind; [apply ensures_times, ensures_input|]. intros inps [Hl Hi].
  eapply ensures_bind; [apply ensures_varint|]. intros m Hm. unfold in_u64 in Hm.
  destruct (Z.ltb_spec 10000 m); [apply ensures_fail|].
  eapply ensures_bind; [apply ensures_times, ensures_output|]. intros outs [Hl' Ho].
  eapply ensures_bind; [apply ensures_u32|]. intros l Hlock. apply ensures_ret.
  constructor; cbn; [apply as_i32_range|done|lia|lia|done|done].
Qed.

Lemma parse_serialize t rest : tx_wf t -> parse (serialize t ++ rest) = Ok t.
Proof.
  intros Hw. unfold parse. pose proof (reads_transaction t Hw [] rest) as H.
  cbn [app length] in H. by rewrite H.
Qed.

Lemma parse_wf raw t : parse raw = Ok t -> tx_wf t.
Proof. intros ([t' c] & H & [= ->])%bind_Ok. by apply ensures_transaction in H. Qed.

(** The hand-written transaction codec: every well-formed transaction parses back
    from its serialization (trailing bytes are ignored), whatever parses is well formed
    and survives the round trip, and serialization is injective on well-formed
    transactions. *)
Theorem transaction_roundtrip :
  (forall t rest, tx_wf t -> parse (serialize t ++ rest) = Ok t) /\
  (forall raw t, parse raw = Ok t -> tx_wf t /\ parse (serialize t) = Ok t) /\
  (forall t t', tx_wf t -> tx_wf t' -> serialize t = serialize t' -> t = t').
Proof.
  split; [apply parse_serialize|]. split.
  - intros raw t H%parse_wf. split; [done|]. rewrite <- (app_nil_r (serialize t)). by apply parse_serialize.
  - intros t t' Hw Hw' He. apply (parse_serialize t []) in Hw. apply (parse_serialize t' []) in Hw'.
    rewrite He in Hw. congruence.
Qed.

(** ** Pushes *)

Lemma length_push_data bs : (1 <= length (push_data bs))%nat.
Proof. unfold push_data. rewrite length_app. repeat case_match; cbn; lia. Qed.

Lemma byte_len z : 0 <= z < 256 -> byte_to_Z (byte_of_Z z) = z.
Proof. intros Hz. rewrite byte_to_of_Z. by apply Z.mod_small. Qed.

Lemma lookup_middle (pre : list byte) b rest : (pre ++ b :: rest) !! length pre = Some b.
Proof. rewrite lookup_app_r, Nat.sub_diag by lia. done. Qed.

(** One turn of the loop reads one push of at most [0xffff] bytes. *)
Lemma parse_pushes_step fuel pre bs rest items :
  Z.of_nat (length bs) <= 0xffff ->
  parse_pushes (S fuel) (pre ++ push_data bs ++ rest) (length pre) items =
  parse_pushes fuel (pre ++ push_data bs ++ rest) (length (pre ++ push_data bs)) (items ++ [bs]).
Proof.
  intros Hl. set (script := pre ++ push_data bs ++ rest).
  assert (forall h, push_data bs = h ++ bs ->
    script = (pre ++ h) ++ bs ++ rest /\ length (pre ++ push_data bs) = (length (pre ++ h) + length bs)%nat) as Hh.
  { intros h E. unfold script. rewrite E, !length_app, <- !(assoc_L (++)). split; [done|lia]. }
  assert (forall h i, push_data bs = h ++ bs -> i = length (pre ++ h) ->
    (require (i + length bs <=? length script)%nat (Truncated i) ;;*
     parse_pushes fuel script (i + length bs) (items ++ [take (length bs) (drop i script)])) =
    parse_pushes fuel script (length (pre ++ push_data bs)) (items ++ [bs])) as Hend.
  { intros h i E ->. destruct (Hh h E) as [Hs ->]. rewrite (proj2 (Nat.leb_le _ _)).
    2: { rewrite Hs, (length_app (pre ++ h)), (length_app bs). lia. }
    res_red. rewrite Hs. by rewrite drop_app_length, take_app_length. }
  cbn [parse_pushes]. unfold push_data in Hend, Hh. unfold script at 1, push_data.
  destruct (Z.ltb_spec (Z.of_nat (length bs)) 0x4c) as [H1|H1];
    [|destruct (Z.leb_spec (Z.of_nat (length bs)) 0xff) as [H2|H2]].
  - cbn [app]. rewrite lookup_middle, byte_len by lia.
    rewrite (proj2 (Z.leb_le _ 0x4b)) by lia. cbn [mbind result_bind]. rewrite Nat2Z.id.
    apply (Hend [byte_of_Z (Z.of_nat (length bs))]); [done|]. rewrite length_app. cbn. lia.
  - cbn [app]. rewrite lookup_middle. change (byte_to_Z x4c) with 0x4c. cbn [Z.leb Z.compare Pos.compare Pos.compare_cont Z.eqb Pos.eqb].
    assert (script !! S (length pre) = Some (byte_of_Z (Z.of_nat (length bs)))) as ->.
    { destruct (Hh [x4c; byte_of_Z (Z.of_nat (length bs))] eq_refl) as [-> _].
      rewrite lookup_app_l by (rewrite length_app; cbn; lia).
      rewrite lookup_app_r by lia. by replace (S (length pre) - length pre)%nat with 1%nat by lia. }
    cbn [ok_or mbind result_bind]. rewrite byte_len, Nat2Z.id by lia.
    apply (Hend [x4c; byte_of_Z (Z.of_nat (length bs))]); [done|]. rewrite length_app. cbn. lia.
  - cbn [app]. rewrite lookup_middle. change (byte_to_Z x4d) with 0x4d. cbn [Z.leb Z.compare Pos.compare Pos.compare_cont Z.eqb Pos.eqb].
    assert (get_range script (S (length pre)) (S (length pre) + 2) = Some (le_bytes 2 (Z.of_nat (length bs)))) as ->.
    { destruct (Hh (x4d :: le_bytes 2 (Z.of_nat (length bs))) eq_refl) as [-> _].
      rewrite cons_middle, (assoc_L (++) pre), <- (assoc_L (++) (pre ++ [x4d])).
      apply get_range_app; rewrite ?length_app, ?length_le_bytes; cbn; lia. }
    cbn [ok_or mbind result_bind]. rewrite le_val_le_bytes, Z.mod_small, Nat2Z.id by (cbn; lia).
    apply (Hend (x4d :: le_bytes 2 (Z.of_nat (length bs)))); [done|].
    rewrite length_app. cbn [length]. rewrite length_le_bytes. lia.
Qed.

Definition pushes (items : list (list byte)) : list byte := concat (push_data <$> items).

Lemma pushes_app l k : pushes (l ++ k) = pushes l ++ pushes k.
Proof. unfold pushes. by rewrite fmap_app, concat_app. Qed.

Lemma pushes_one d : pushes [d] = push_data d.
Proof. apply app_nil_r. Qed.

Lemma parse_pushes_all fuel pre items acc :
  (length items <= fuel)%nat -> Forall (fun d => Z.of_nat (length d) <= 0xffff) items ->
  parse_pushes fuel (pre ++ pushes items) (length pre) acc = Ok (acc ++ items).
Proof.
  intros Hf Hs. revert fuel pre acc Hf. induction Hs as [|d items Hd _ IH]; intros fuel pre acc Hf.
  - cbn [pushes fmap list_fmap concat]. rewrite !app_nil_r. destruct fuel; cbn [parse_pushes]; [done|].
    by rewrite lookup_ge_None_2.
  - destruct fuel as [|fuel]; [cbn in Hf; lia|]. unfold pushes. cbn [fmap list_fmap concat].
    rewrite parse_pushes_step by done. rewrite (assoc_L (++)).
    rewrite (cons_middle d acc items), (assoc_L (++)). apply IH. cbn in Hf. lia.
Qed.

Lemma parse_script_pushes_pushes items :
  Forall (fun d => Z.of_nat (length d) <= 0xffff) items ->
  parse_script_pushes (pushes items) = Ok items.
Proof.
  intros Hs. apply (parse_pushes_all _ [] items []); [|done]. cbn [length app].
  unfold pushes. clear Hs. induction items as [|d items IH]; [done|].
  cbn [fmap list_fmap concat length]. rewrite length_app. pose proof (length_push_data d). lia.
Qed.

(** ** Assembly *)

(** The consensus rule of [OP_CHECKMULTISIG]: the signatures match keys of
    the script in the script's order. *)
Fixpoint checkmultisig (ok : pubkey -> list byte -> bool) (keys : list pubkey)
    (sigs : list (list byte)) : bool :=
  match keys, sigs with
  | _, [] => true
  | [], _ :: _ => false
  | k :: keys, s :: sigs' =>
      if ok k s then checkmultisig ok keys sigs' else checkmultisig ok keys sigs
  end.

(** Signatures and keys matched in order, with no strategy. *)
Inductive in_order (ok : pubkey -> list byte -> bool) : list pubkey -> list (list byte) -> Prop :=
| io_nil keys : in_order ok keys []
| io_skip k keys sigs : in_order ok keys sigs -> in_order ok (k :: keys) sigs
| io_use k keys s sigs : ok k s = true -> in_order ok keys sigs -> in_order ok (k :: keys) (s :: sigs).

Lemma in_order_drop ok keys s sigs : in_order ok keys (s :: sigs) -> in_order ok keys sigs.
Proof.
  remember (s :: sigs) as l eqn:E. intros H. revert s sigs E.
  induction H as [keys|k keys l H IH|k keys s' l Hs H IH]; intros s sigs E; [done| |].
  - subst. apply io_skip. by eapply IH.
  - injection E as -> ->. by apply io_skip.
Qed.

(** The greedy walk finds a match when there is one. *)
Lemma checkmultisig_in_order ok keys sigs : in_order ok keys sigs -> checkmultisig ok keys sigs = true.
Proof.
  revert sigs. induction keys as [|k keys IH]; intros [|s sigs] H; try done; [inversion H|].
  cbn [checkmultisig]. inversion H; subst.
  - destruct (ok k s); apply IH; [by eapply in_order_drop|done].
  - match goal with H : ok k s = true |- _ => rewrite H end. by apply IH.
Qed.

Lemma in_order_skip ok n keys sigs : in_order ok (drop n keys) sigs -> in_order ok keys sigs.
Proof.
  revert keys. induction n as [|n IH]; intros [|k keys] H; try done. cbn in H. by apply io_skip, IH.
Qed.

Section assembly_facts.
Context `{Sh : Sha2, Sc : Secp256k1}.

(** A partial's position, when its key is in the vault. *)
Definition seat (v : MultisigVault) (p : PartialSignature) : option nat :=
  fst <$> list_find (fun k => k = vault_pubkey p) (signer_pubkeys v).

Definition seated (v : MultisigVault) (ip : nat * PartialSignature) : Prop :=
  seat v ip.2 = Some ip.1.

Lemma seat_Some v p i : seat v p = Some i -> signer_pubkeys v !! i = Some (vault_pubkey p).
Proof. unfold seat. intros ((j & k) & (Hj & -> & _)%list_find_Some & ->)%fmap_Some. done. Qed.

Lemma seat_is_Some v p : is_Some (seat v p) <-> vault_pubkey p ∈ signer_pubkeys v.
Proof.
  split.
  - intros [i Hi%seat_Some]. by eapply list_elem_of_lookup_2.
  - intros Hin. destruct (list_find_elem_of (fun k => k = vault_pubkey p) _ _ Hin eq_refl) as [ik Hf].
    unfold seat. rewrite Hf. by eexists.
Qed.

Lemma seat_eq v p q i : seat v p = Some i -> seat v q = Some i <-> vault_pubkey q = vault_pubkey p.
Proof.
  intros Hp. split.
  - intros Hq. apply seat_Some in Hp, Hq. congruence.
  - intros E. unfold seat in *. by rewrite E.
Qed.

Definition seats (v : MultisigVault) (ps : list PartialSignature) : list (nat * PartialSignature) :=
  (fun p => (default 0%nat (seat v p), p)) <$> ps.

Lemma place_Ok v placed p placed' :
  Forall (seated v) placed ->
  place v placed p = Ok placed' <->
  vault_pubkey p ∈ signer_pubkeys v /\ vault_pubkey p ∉ ((fun ip => vault_pubkey ip.2) <$> placed) /\
  placed' = placed ++ seats v [p].
Proof.
  intros Hp. rewrite <- seat_is_Some. unfold place, seats. cbn [fmap list_fmap].
  destruct (list_find (fun k => k = vault_pubkey p) (signer_pubkeys v)) as [[i k]|] eqn:Ef.
  2: { unfold seat. rewrite Ef. cbn. split; [done|]. intros [[? [=]] _]. }
  assert (seat v p = Some i) as Hs by (unfold seat; by rewrite Ef).
  rewrite Hs. cbn [ok_or mbind result_bind default from_option Datatypes.id].
  destruct (list_find _ placed) as [[j [i' q]]|] eqn:Eq.
  - apply list_find_Some in Eq as (Hj & Hi & _). cbn in Hi. subst i'.
    assert (seat v q = Some i) as Hq by (rewrite Forall_lookup in Hp; exact (Hp _ _ Hj)).
    split; [done|]. intros (_ & Hnin & _). exfalso. apply Hnin.
    apply list_elem_of_fmap. exists (i, q). split; [|by eapply list_elem_of_lookup_2].
    cbn. symmetry. by apply (seat_eq v p q i Hs).
  - apply list_find_None in Eq. split.
    + intros [= <-]. split; [eauto|]. split; [|done].
      intros ([i' q] & E & Hin)%list_elem_of_fmap. cbn in E.
      rewrite Forall_forall in Eq, Hp. apply (Eq _ Hin). pose proof (Hp _ Hin) as Hq.
      unfold seated in Hq. cbn in *. symmetry in E. apply (seat_eq v p q i Hs) in E. congruence.
    + by intros (_ & _ & ->).
Qed.

Lemma seats_seated v ps :
  Forall (fun p => vault_pubkey p ∈ signer_pubkeys v) ps -> Forall (seated v) (seats v ps).
Proof.
  intros H. unfold seats. apply Forall_fmap. eapply Forall_impl; [exact H|].
  intros p [i Hi]%seat_is_Some. unfold seated. cbn. by rewrite Hi.
Qed.

Lemma seats_keys v ps : (fun ip => vault_pubkey ip.2) <$> seats v ps = vault_pubkey <$> ps.
Proof. unfold seats. by rewrite <- list_fmap_compose. Qed.

Lemma seats_app v ps qs : seats v (ps ++ qs) = seats v ps ++ seats v qs.
Proof. apply fmap_app. Qed.

Lemma place_all v qs ps placed :
  Forall (fun p => vault_pubkey p ∈ signer_pubkeys v) qs ->
  foldM (place v) (seats v qs) ps = Ok placed <->
  Forall (fun p => vault_pubkey p ∈ signer_pubkeys v) ps /\
  Forall (fun p => vault_pubkey p ∉ (vault_pubkey <$> qs)) ps /\
  NoDup (vault_pubkey <$> ps) /\ placed = seats v (qs ++ ps).
Proof.
  revert qs. induction ps as [|p ps IH]; intros qs Hq; cbn [foldM fmap list_fmap].
  - rewrite app_nil_r. split; [intros [= <-]; split_and!; by try constructor|by intros (_ & _ & _ & ->)].
  - rewrite bind_Ok. setoid_rewrite place_Ok; [|by apply seats_seated].
    rewrite seats_keys, !Forall_cons, NoDup_cons.
    assert (vault_pubkey p ∈ signer_pubkeys v ->
      foldM (place v) (seats v qs ++ seats v [p]) ps = Ok placed <->
      Forall (fun p => vault_pubkey p ∈ signer_pubkeys v) ps /\
      Forall (fun q => vault_pubkey q ∉ (vault_pubkey <$> (qs ++ [p]))) ps /\
      NoDup (vault_pubkey <$> ps) /\ placed = seats v ((qs ++ [p]) ++ ps)) as H.
    { intros Hin. rewrite <- seats_app. apply IH. apply Forall_app. by split; [|constructor]. }
    assert (Forall (fun q => vault_pubkey q ∉ (vault_pubkey <$> (qs ++ [p]))) ps <->
            Forall (fun q => vault_pubkey q ∉ (vault_pubkey <$> qs)) ps /\
            vault_pubkey p ∉ (vault_pubkey <$> ps)) as Hsplit.
    { rewrite !Forall_forall, fmap_app. cbn [fmap list_fmap]. setoid_rewrite elem_of_app.
      setoid_rewrite list_elem_of_singleton. split.
      - intros Hall. split; [naive_solver|]. intros (q & E & Hin)%list_elem_of_fmap. naive_solver.
      - intros [Hall Hnin] q Hin [?|E]; [by eapply Hall|]. apply Hnin. rewrite <- E.
        by apply list_elem_of_fmap_2. }
    rewrite Hsplit in H. rewrite <- (assoc_L (++)) in H. cbn [app] in H. split.
    + intros (? & (Hin & Hnin & ->) & Hf). apply (H Hin) in Hf. naive_solver.
    + intros ([Hin ?] & [? ?] & [? ?] & ->). eexists. split; [done|]. apply (H Hin). naive_solver.
Qed.

(** The bytes a full set of partials puts on one input. *)
Definition signature_at (input_index : nat) (p : PartialSignature) : list byte :=
  default [] (signatures p !! input_index).
Definition script_for (v : MultisigVault) (placed : list (nat * PartialSignature)) (i : nat)
  : list byte :=
  pushes ([] :: ((fun ip => signature_at i ip.2) <$> placed) ++ [redeem_script v]).

Definition good_at (unsigned : Transaction) (v : MultisigVault) (i : nat) (p : PartialSignature)
  : Prop :=
  verify_partial i (vault_pubkey p) (signature_at i p) (sighash_all unsigned i (redeem_script v)) = Ok tt.

Lemma push_signatures_Ok i sighash script placed script' :
  push_signatures i sighash script placed = Ok script' <->
  Forall (fun ip => verify_partial i (vault_pubkey ip.2) (signature_at i ip.2) sighash = Ok tt) placed /\
  script' = script ++ pushes ((fun ip => signature_at i ip.2) <$> placed).
Proof.
  revert script. induction placed as [|[j p] placed IH]; intros script; cbn [push_signatures].
  - unfold pushes. cbn. rewrite app_nil_r. split; [intros [= <-]; by split; [constructor|]|by intros [_ ->]].
  - rewrite bind_Ok, Forall_cons. unfold pushes. cbn [fmap list_fmap concat]. split.
    + intros ([] & Hv & [Hf ->]%IH). rewrite <- (assoc_L (++)). split; [by split|done].
    + intros [[Hv Hf] ->]. exists tt. split; [done|]. apply IH. split; [done|]. by rewrite <- (assoc_L (++)).
Qed.

Lemma sign_input_Ok u v placed i inp inp' :
  sign_input u v placed i inp = Ok inp' <->
  length placed = threshold v /\ Forall (fun ip => good_at u v i ip.2) placed /\
  inp' = set_script (script_for v placed i) inp.
Proof.
  unfold sign_input, script_for. change [OP_0] with (pushes [[]]).
  assert (forall l, pushes [[]] ++ pushes l ++ push_data (redeem_script v) = pushes ([] :: l ++ [redeem_script v])) as Hp.
  { intros l. change ([] :: l ++ [redeem_script v]) with ([[]] ++ l ++ [redeem_script v]).
    by rewrite !pushes_app, !pushes_one. }
  destruct (Nat.ltb_spec (length placed) (threshold v)) as [H1|H1]; res_red;
    [split; [done|]; intros (? & _); lia|].
  destruct (Nat.ltb_spec (threshold v) (length placed)) as [H2|H2]; res_red;
    [split; [done|]; intros (? & _); lia|].
  rewrite <- Hp. split.
  - intros (s & [Hf ->]%push_signatures_Ok & [= <-])%bind_Ok. split_and!; [lia|done|].
    done.
  - intros (_ & Hf & ->). apply bind_Ok. eexists. split; [by apply push_signatures_Ok|]. done.
Qed.

Lemma sign_inputs_Ok u v placed k inps inps' :
  sign_inputs u v placed k inps = Ok inps' <->
  (forall j, (j < length inps)%nat ->
     length placed = threshold v /\ Forall (fun ip => good_at u v (k + j) ip.2) placed) /\
  inps' = imap (fun j => set_script (script_for v placed (k + j))) inps.
Proof.
  revert k inps'. induction inps as [|inp inps IH]; intros k inps'; cbn [sign_inputs].
  - split; [intros [= <-]; split; [cbn; lia|done]|by intros [_ ->]].
  - assert (imap (fun j => set_script (script_for v placed (k + j))) (inp :: inps) =
            set_script (script_for v placed k) inp ::
            imap (fun j => set_script (script_for v placed (S k + j))) inps) as ->.
    { rewrite imap_cons, Nat.add_0_r. f_equal. apply imap_ext. intros i x _. cbn. by rewrite Nat.add_succ_r. }
    split.
    + intros (? & (Hl & Hf & ->)%sign_input_Ok & H)%bind_Ok.
      apply bind_Ok in H as (rest & [Hr ->]%IH & [= <-]). split; [|done].
      intros [|j] Hj; [by rewrite Nat.add_0_r|]. rewrite Nat.add_succ_r. apply Hr. cbn in Hj. lia.
    + intros [Hall ->]. apply bind_Ok. eexists. split.
      { apply sign_input_Ok. destruct (Hall 0%nat) as [Hl Hf]; [cbn; lia|].
        rewrite Nat.add_0_r in Hf. by split_and!. }
      apply bind_Ok. eexists. split; [|done]. apply IH. split; [|done]. intros j Hj.
      specialize (Hall (S j)). rewrite Nat.add_succ_r in Hall. apply Hall. cbn. lia.
Qed.

(** What [assemble] needs: one signature per input from exactly [threshold]
    distinct members of the vault, each valid for its input. *)
Record full_quorum (u : Transaction) (v : MultisigVault) (ps : list PartialSignature) : Prop := {
  fq_inputs : inputs u <> [];
  fq_counts : Forall (fun p => length (signatures p) = length (inputs u)) ps;
  fq_members : Forall (fun p => vault_pubkey p ∈ signer_pubkeys v) ps;
  fq_distinct : NoDup (vault_pubkey <$> ps);
  fq_threshold : length ps = threshold v;
  fq_valid : forall i, (i < length (inputs u))%nat -> Forall (good_at u v i) ps
}.

Definition assembled (u : Transaction) (v : MultisigVault) (ps : list PartialSignature)
  : Transaction :=
  with_inputs u (imap (fun i => set_script (script_for v (merge_sort by_position (seats v ps)) i))
                   (inputs u)).

Lemma Forall_sorted v ps P :
  Forall (fun ip : nat * PartialSignature => P ip.2) (merge_sort by_position (seats v ps)) <->
  Forall P ps.
Proof.
  rewrite merge_sort_Permutation. unfold seats. by rewrite Forall_fmap.
Qed.

Lemma assemble_Ok u v ps t :
  assemble u v ps = Ok t <-> full_quorum u v ps /\ t = assembled u v ps.
Proof.
  unfold assemble.
  assert (forall n, Forall (fun p => require (length (signatures p) =? n)%nat
                      (InputCountMismatch (length (signatures p))) = Ok tt) ps <->
                    Forall (fun p => length (signatures p) = n) ps) as Hcount.
  { intros n. apply Forall_iff. intros p. by rewrite require_Ok, Nat.eqb_eq. }
  change (foldM (place v) [] ps) with (foldM (place v) (seats v []) ps).
  assert (length (merge_sort by_position (seats v ps)) = length ps) as Hlen.
  { rewrite merge_sort_Permutation. apply length_fmap. }
  split.
  - intros ([] & Hne%require_Ok & H)%bind_Ok.
    apply bind_Ok in H as ([] & Hc%for_each_Ok%Hcount & H).
    apply bind_Ok in H as (placed & (Hm & _ & Hd & ->)%place_all & H); [|done].
    apply bind_Ok in H as (inps & [Hg ->]%sign_inputs_Ok & [= <-]). cbn [app] in *.
    assert (inputs u <> []) as Hin by (by destruct (inputs u)).
    split; [|done]. constructor; [done|done|done|done| |].
    + destruct (Hg 0%nat) as [Hl _]; [destruct (inputs u); [done|cbn; lia]|]. by rewrite Hlen in Hl.
    + intros i Hi. destruct (Hg i Hi) as [_ Hf]. by apply Forall_sorted in Hf.
  - intros [[Hin Hc Hm Hd Ht Hv] ->]. apply bind_Ok. exists tt.
    split; [by destruct (inputs u)|]. apply bind_Ok. exists tt. split; [by apply for_each_Ok, Hcount|].
    apply bind_Ok. exists (seats v ps). split.
    + apply place_all; [constructor|]. split_and!; [done| |done|done].
      apply Forall_forall. intros p _ H. by apply elem_of_nil in H.
    + apply bind_Ok. eexists. split; [|done]. apply sign_inputs_Ok. split; [|done].
      intros j Hj. rewrite Hlen. split; [done|].
      apply (Forall_sorted v ps (good_at u v j)). by apply Hv.
Qed.

(** Assembly succeeds exactly on a full quorum (as many signers as the threshold,
    distinct keys of the vault, one valid signature of each for every input) and then
    its result is the unsigned transaction with the signatures in key order; on anything
    else it fails. *)
Theorem assemble_verdict u v ps :
  match assemble u v ps with
  | Ok t => full_quorum u v ps /\ t = assembled u v ps
  | Err _ => ~ full_quorum u v ps
  end.
Proof.
  destruct (assemble u v ps) as [t|e] eqn:E; [by apply assemble_Ok|].
  intros Hq. assert (assemble u v ps = Ok (assembled u v ps)) as H by (by apply assemble_Ok).
  congruence.
Qed.

(** ** What the assembled transaction is worth *)

Definition valid_for (t : Transaction) (v : MultisigVault) (i : nat) (key : pubkey)
    (sig : list byte) : bool :=
  match verify_partial i key sig (sighash_all t i (redeem_script v)) with
  | Ok _ => true
  | Err _ => false
  end.

(** Input [i] satisfies the vault's script: a dummy item, [threshold]
    signatures in the order of the script's keys, and the script. *)
Definition spends (t : Transaction) (v : MultisigVault) (i : nat) : Prop :=
  exists inp sigs, inputs t !! i = Some inp /\
    parse_script_pushes (script_sig inp) = Ok ([] :: sigs ++ [redeem_script v]) /\
    length sigs = threshold v /\
    checkmultisig (valid_for t v i) (signer_pubkeys v) sigs = true.

Lemma sighash_ignores_scripts t (f : nat -> list byte) i redeem :
  sighash_all (with_inputs t (imap (fun j => set_script (f j)) (inputs t))) i redeem =
  sighash_all t i redeem.
Proof.
  unfold sighash_all, sighash_preimage. do 4 f_equal. unfold with_inputs. cbn. f_equal.
  apply list_eq. intros k. rewrite !list_lookup_imap. by destruct (inputs t !! k).
Qed.

Lemma verify_partial_length i key sig sighash :
  verify_partial i key sig sighash = Ok tt -> (1 <= length sig <= MAX_DER_SIG_LEN)%nat.
Proof.
  unfold verify_partial. intros ([] & H%require_Ok & _)%bind_Ok.
  apply negb_true_iff, orb_false_iff in H as [H1%Nat.eqb_neq H2%Nat.ltb_ge]. lia.
Qed.

Lemma seats_in_order (ok : pubkey -> list byte -> bool) keys (sig : PartialSignature -> list byte) n placed :
  StronglySorted (fun a b : nat * PartialSignature => a.1 < b.1)%nat placed ->
  Forall (fun ip => n <= ip.1)%nat placed ->
  Forall (fun ip : nat * PartialSignature => keys !! ip.1 = Some (vault_pubkey ip.2)) placed ->
  Forall (fun ip : nat * PartialSignature => ok (vault_pubkey ip.2) (sig ip.2) = true) placed ->
  in_order ok (drop n keys) ((fun ip => sig ip.2) <$> placed).
Proof.
  intros Hs. revert n. induction Hs as [|[i p] placed Hs IH Hlt]; intros n Hn Hk Hok; [constructor|].
  apply Forall_cons in Hn as [Hn _], Hk as [Hk Hks], Hok as [Hok Hoks]. cbn in *.
  apply (in_order_skip ok (i - n)). rewrite drop_drop. replace (n + (i - n))%nat with i by lia.
  rewrite (drop_S _ _ _ Hk). apply io_use; [done|]. apply IH; [|done|done].
  eapply Forall_impl; [exact Hlt|]. intros ip. cbn. lia.
Qed.

(** Members of the vault with distinct keys, sorted by position. *)
Lemma sorted_seats v ps :
  Forall (fun p => vault_pubkey p ∈ signer_pubkeys v) ps -> NoDup (vault_pubkey <$> ps) ->
  StronglySorted (fun a b : nat * PartialSignature => a.1 < b.1)%nat (merge_sort by_position (seats v ps)) /\
  Forall (seated v) (merge_sort by_position (seats v ps)).
Proof.
  intros Hm Hd. pose proof (seats_seated v ps Hm) as Hseat.
  assert (seats v ps ≡ₚ merge_sort by_position (seats v ps)) as Hp by (symmetry; apply merge_sort_Permutation).
  assert (NoDup ((fun ip => vault_pubkey ip.2) <$> merge_sort by_position (seats v ps))) as Hnd
    by (rewrite <- Hp, seats_keys; done).
  rewrite Hp in Hseat. split; [|done]. revert Hseat Hnd.
  assert (StronglySorted by_position (merge_sort by_position (seats v ps))) as Hs.
  { apply Sorted_StronglySorted; [intros ??? ??; unfold by_position in *; lia|].
    apply Sorted_merge_sort. intros a b. unfold by_position. lia. }
  clear Hp Hm Hd. induction Hs as [|a l Hs IH Ha]; intros Hseat Hnd; [constructor|].
  apply Forall_cons in Hseat as [Hsa Hsl]. cbn [fmap list_fmap] in Hnd.
  apply NoDup_cons in Hnd as [Hna Hnd]. constructor; [by apply IH|].
  apply Forall_forall. intros b Hb. rewrite Forall_forall in Ha, Hsl.
  specialize (Ha b Hb). unfold by_position in Ha.
  assert (a.1 <> b.1); [|lia]. intros E. apply Hna, list_elem_of_fmap. exists b. split; [|done].
  pose proof (Hsl b Hb) as Hsb. unfold seated in Hsa, Hsb. rewrite <- E in Hsb.
  symmetry. by apply (seat_eq v a.2 b.2 a.1).
Qed.

Lemma assembled_transaction_facts `{Rm : Ripemd160} u v ps t :
  vault_wf v -> assemble u v ps = Ok t ->
  (forall i, (i < length (inputs t))%nat -> spends t v i) /\
  (version t, outputs t, lock_time t) = (version u, outputs u, lock_time u) /\
  (fun i => (prev_txid i, prev_vout i, sequence i)) <$> inputs t =
    (fun i => (prev_txid i, prev_vout i, sequence i)) <$> inputs u.
Proof.
  intros Hv Ha. pose proof Ha as Ha'. apply assemble_Ok in Ha' as [Hq ->]. split_and!; [|done|].
  - intros i Hi. unfold assembled in Hi. cbn in Hi. rewrite length_imap in Hi.
    destruct (lookup_lt_is_Some_2 (inputs u) i Hi) as [inp Hinp].
    destruct Hq as [_ Hc Hm Hd Ht Hvalid]. destruct (sorted_seats v ps Hm Hd) as [Hs Hseat].
    exists (set_script (script_for v (merge_sort by_position (seats v ps)) i) inp),
      ((fun ip => signature_at i ip.2) <$> merge_sort by_position (seats v ps)).
    split_and!.
    + unfold assembled. cbn. by rewrite list_lookup_imap, Hinp.
    + apply parse_script_pushes_pushes. constructor; [cbn; lia|]. apply Forall_app. split.
      * apply Forall_fmap. apply (Forall_sorted v ps (fun p => Z.of_nat (length (signature_at i p)) <= 0xffff)).
        eapply Forall_impl; [by apply Hvalid|]. intros p Hg. apply verify_partial_length in Hg.
        unfold MAX_DER_SIG_LEN in Hg. lia.
      * constructor; [|constructor]. pose proof (redeem_script_size v Hv). lia.
    + rewrite length_fmap, merge_sort_Permutation. unfold seats. by rewrite length_fmap.
    + apply checkmultisig_in_order. apply (seats_in_order _ _ (signature_at i) 0); [done| | |].
      * apply Forall_forall. intros. lia.
      * eapply Forall_impl; [exact Hseat|]. intros ip Hip. by apply seat_Some.
      * apply (Forall_sorted v ps (fun p => valid_for (assembled u v ps) v i (vault_pubkey p) (signature_at i p) = true)).
        eapply Forall_impl; [by apply Hvalid|]. intros p Hg. unfold valid_for, assembled.
        rewrite sighash_ignores_scripts. unfold good_at in Hg. by rewrite Hg.
  - unfold assembled. cbn. apply list_eq. intros k. rewrite !list_lookup_fmap, list_lookup_imap.
    by destruct (inputs u !! k).
Qed.

(** The order of the partials does not matter. *)
Lemma assemble_any_order u v ps ps' t : ps' ≡ₚ ps -> assemble u v ps = Ok t -> assemble u v ps' = Ok t.
Proof.
  intros Hp [[Hne Hc Hm Hd Ht Hvalid] ->]%assemble_Ok. apply assemble_Ok.
  assert (full_quorum u v ps') as Hq'.
  { constructor; [done|by rewrite Hp|by rewrite Hp|by rewrite Hp|by rewrite Hp|].
    intros i Hi. rewrite Hp. by apply Hvalid. }
  split; [done|]. unfold assembled.
  assert (merge_sort by_position (seats v ps') = merge_sort by_position (seats v ps)) as ->; [|done].
  destruct (sorted_seats v ps Hm Hd) as [Hs _].
  destruct (sorted_seats v ps') as [Hs' _]; [by rewrite Hp..|].
  eapply StronglySorted_unique_strong; [|exact Hs'|exact Hs|].
  + intros x1 x2 _ _ H1 H2. cbn in H1, H2. lia.
  + rewrite !merge_sort_Permutation. unfold seats. by rewrite Hp.
Qed.

(** C31: A transaction assembled for a well-formed vault satisfies the vault's
    CHECKMULTISIG script on every input (threshold signatures, in the order of the keys,
    each valid over that input's digest of the final transaction), changes nothing but
    the input scripts, and does not depend on the order in which the partial signatures
    arrived. *)
Theorem assembled_transaction_spends `{Rm : Ripemd160} u v ps t :
  vault_wf v -> assemble u v ps = Ok t ->
  (forall i, (i < length (inputs t))%nat -> spends t v i) /\
  (version t, outputs t, lock_time t) = (version u, outputs u, lock_time u) /\
  (fun i => (prev_txid i, prev_vout i, sequence i)) <$> inputs t =
    (fun i => (prev_txid i, prev_vout i, sequence i)) <$> inputs u /\
  (forall ps', ps' ≡ₚ ps -> assemble u v ps' = Ok t).
Proof.
  intros Hv Ha. destruct (assembled_transaction_facts u v ps t Hv Ha) as (H1 & H2 & H3).
  split_and!; [done..|]. intros ps' Hp. by eapply assemble_any_order.
Qed.

End assembly_facts.

(** What the node's partial transaction yields: the first signature of each
    input. *)
Lemma extract_signatures_pushes redeem (sigs : list (list byte)) (inps : list TxInput) i :
  (Z.of_nat (length redeem) <= 0xffff) ->
  Forall2 (fun sig inp => sig <> [] /\ sig <> redeem /\ Z.of_nat (length sig) <= 0xffff /\
             script_sig inp = pushes [[]; sig; redeem]) sigs inps ->
  extract_from i redeem inps = Ok sigs.
Proof.
  intros Hr H. revert i. induction H as [|sig inp sigs inps (Hne & Hnr & Hl & Hs) _ IH]; intros i; [done|].
  cbn [extract_from]. rewrite Hs, parse_script_pushes_pushes.
  2: { repeat constructor; try done. }
  cbn [mbind result_bind]. replace (list_find _ _) with (Some (1%nat, sig)).
  - cbn [ok_or mbind result_bind]. by rewrite IH.
  - symmetry. apply list_find_Some. split; [done|]. split; [done|].
    intros [|j] y Hj Hlt; [|lia]. injection Hj as <-. by intros [? _].
Qed.

(** ** A concrete quorum *)

(** Signatures that name the key and the digest, for evaluation only. *)
Definition toy_secp : Secp256k1 :=
  {| Signature := list byte; PublicKey := list byte; parse_der d := Some d;
     parse_compressed k := Some k;
     ecdsa_verify h s k := bool_decide (s = take 4 (drop 1 k) ++ take 4 h);
     public_of_secret s := Some (x02 :: s) |}.

Definition demo_vault : MultisigVault := @vault_of toy_sha2 toy_ripemd 2 demo_keys.
Definition demo_unsigned : Transaction :=
  {| version := 2; lock_time := 0;
     inputs := [{| prev_txid := replicate 32 x07; prev_vout := 1; script_sig := [];
                   sequence := 0xffffffff |}];
     outputs := [{| value := 5000; script_pubkey := replicate 25 x76 |}] |}.
Definition demo_partial (k : pubkey) : PartialSignature :=
  {| vault_pubkey := k;
     signatures := [take 4 (drop 1 k) ++
       take 4 (@sighash_all toy_sha2 demo_unsigned 0 (redeem_script demo_vault)) ++ [x01]] |}.
Definition demo_partials : list PartialSignature := [demo_partial (demo_key 3); demo_partial (demo_key 1)].

Lemma demo_vault_wf : @vault_wf toy_sha2 toy_ripemd demo_vault.
Proof.
  constructor; [| |reflexivity].
  - constructor; [cbn; lia|cbn; unfold MAX_VAULT_SIGNERS; lia| |].
    + repeat (apply Forall_cons; split; [by left|]). constructor.
    + apply (bool_decide_unpack _). vm_compute. exact I.
  - repeat (apply Forall_cons; split; [reflexivity|]). constructor.
Qed.

Definition demo_signed : Transaction := assembled demo_unsigned demo_vault demo_partials.

Lemma demo_unsigned_wf : tx_wf demo_unsigned.
Proof.
  constructor; [cbn; lia|vm_compute; split; congruence|cbn; lia|cbn; lia| |].
  - constructor; [|constructor].
    constructor; [reflexivity|vm_compute; split; congruence..].
  - constructor; [|constructor]. constructor; vm_compute; split; congruence.
Qed.

Lemma transaction_roundtrip_witness :
  tx_wf demo_unsigned /\ parse (serialize demo_unsigned ++ [x00; x01]) = Ok demo_unsigned.
Proof.
  split; [exact demo_unsigned_wf|]. exact (proj1 transaction_roundtrip demo_unsigned [x00; x01] demo_unsigned_wf).
Defined.

Lemma assembled_transaction_spends_witness :
  @spends toy_sha2 toy_secp demo_signed demo_vault 0 /\
  @assemble toy_sha2 toy_secp demo_unsigned demo_vault (rev demo_partials) = Ok demo_signed.
Proof.
  destruct (@assembled_transaction_spends toy_sha2 toy_secp toy_ripemd demo_unsigned demo_vault
              demo_partials demo_signed demo_vault_wf) as (Hs & _ & _ & Hp).
  - vm_compute. reflexivity.
  - split; [apply Hs; cbn; lia|]. apply Hp. symmetry. apply Permutation_rev.
Defined.

(** The parser stops at the lock time and takes any encoding of a length. *)
Example parse_ignores_trailing_bytes :
  parse (serialize demo_unsigned ++ lit "junk") = Ok demo_unsigned.
Proof. vm_compute. reflexivity. Qed.

Example parse_accepts_long_varint :
  parse ([x01; x00; x00; x00; xfd; x01; x00] ++ replicate 32 x00 ++ replicate 4 x00 ++ [x00] ++
         replicate 4 x00 ++ [x00] ++ replicate 4 x00) =
  Ok {| version := 1; lock_time := 0; outputs := [];
        inputs := [{| prev_txid := replicate 32 x00; prev_vout := 0; script_sig := []; sequence := 0 |}] |}.
Proof. vm_compute. reflexivity. Qed.
