(* ===== verification/WithdrawalConfig.v ===== *)
(** * Executor configuration: [relayer/src/withdrawal/config.rs]

    Validation of the raw settings; what it accepts is exactly the settings
    whose addresses are the vault's own and whose policies are not zero. *)
From Stdlib Require Import ZArith Lia Strings.Byte.
From stdpp Require Import base numbers strings gmap list.
From S2P Require Import Prelude Hex Address Vault.

Inductive WithdrawalConfigError :=
| EmptyField (field : str)
| InvalidAddress (field : str) (source : AddressError)
| ZeroFeeRate
| InvalidVault (e : VaultError)
| ChangeAddressNotVault (vault configured : str)
| ZeroConfirmationDepth
| ZeroMaxInputs
| NonFinalizedCommitment (s : str).

Record RawWithdrawalConfig := {
  raw_vault_redeem_script_hex : str; raw_vault_address : str; raw_change_address : str;
  raw_fee_rate_per_kb : Z; raw_dust_threshold_atomic : Z; raw_vault_min_confirmations : Z;
  raw_confirmation_depth : Z; raw_max_inputs_per_payout : nat;
  raw_reservation_timeout_secs : Z; raw_discovery_commitment : str; raw_poll_interval_ms : Z
}.

(** [discovery_commitment] is a unit: [Finalized] is the only value built. *)
Record WithdrawalConfig := {
  vault : MultisigVault; vault_address : str; vault_hash160 : list byte;
  change_address : str; change_hash160 : list byte; fee_rate_per_kb : Z;
  dust_threshold_atomic : Z; vault_min_confirmations : Z; confirmation_depth : Z;
  max_inputs_per_payout : nat; reservation_timeout_secs : Z; poll_interval_ms : Z
}.

Section validation.
Context `{Sh : Sha2, Rm : Ripemd160}.

Definition validate (raw : RawWithdrawalConfig) : result WithdrawalConfigError WithdrawalConfig :=
  require (negb (bool_decide (raw_vault_address raw = []))) (EmptyField (lit "vault_address")) ;;*
  require (negb (bool_decide (raw_change_address raw = []))) (EmptyField (lit "change_address")) ;;*
  let* v := map_err InvalidVault (from_redeem_script_hex (raw_vault_redeem_script_hex raw)) in
  map_err InvalidVault (require_address v (raw_vault_address raw)) ;;*
  require (bool_decide (raw_change_address raw = address v))
    (ChangeAddressNotVault (address v) (raw_change_address raw)) ;;*
  require (negb (raw_fee_rate_per_kb raw =? 0)) ZeroFeeRate ;;*
  require (negb (raw_confirmation_depth raw <? 1)) ZeroConfirmationDepth ;;*
  require (negb (raw_max_inputs_per_payout raw =? 0)%nat) ZeroMaxInputs ;;*
  require (bool_decide (raw_discovery_commitment raw = lit "finalized"))
    (NonFinalizedCommitment (raw_discovery_commitment raw)) ;;*
  Ok {| vault := v; vault_address := raw_vault_address raw;
        vault_hash160 := script_hash160 v; change_address := raw_change_address raw;
        change_hash160 := script_hash160 v; fee_rate_per_kb := raw_fee_rate_per_kb raw;
        dust_threshold_atomic := raw_dust_threshold_atomic raw;
        vault_min_confirmations := raw_vault_min_confirmations raw;
        confirmation_depth := raw_confirmation_depth raw;
        max_inputs_per_payout := raw_max_inputs_per_payout raw;
        reservation_timeout_secs := raw_reservation_timeout_secs raw;
        poll_interval_ms := raw_poll_interval_ms raw |}.

(** What every running executor may rely on. *)
Record config_wf (c : WithdrawalConfig) : Prop := {
  cw_vault : vault_wf (vault c);
  cw_addresses : vault_address c = address (vault c) /\ change_address c = address (vault c);
  cw_hashes : vault_hash160 c = script_hash160 (vault c) /\ change_hash160 c = script_hash160 (vault c);
  cw_fee : fee_rate_per_kb c <> 0;
  cw_depth : 1 <= confirmation_depth c;
  cw_max_inputs : max_inputs_per_payout c <> 0%nat
}.

Lemma validate_wf raw c : validate raw = Ok c -> config_wf c.
Proof.
  unfold validate, require_address. intros H.
  repeat match goal with
  | H : (_ ;;* _) = Ok _ |- _ => apply bind_Ok in H as ([] & ? & H)
  | H : mbind _ _ = Ok _ |- _ => apply bind_Ok in H as (v & ? & H)
  | H : map_err _ _ = Ok _ |- _ => apply map_err_Ok in H
  | H : require _ _ = Ok _ |- _ => apply require_Ok in H
  end.
  injection H as <-. bools.
  match goal with H : from_redeem_script_hex _ = Ok _ |- _ => apply from_redeem_script_iff in H as [_ Hv] end.
  repeat match goal with H : (_ =? _)%nat = false |- _ => apply Nat.eqb_neq in H end.
  by constructor.
Qed.

(** Every valid configuration can be written down. *)
Lemma validate_complete c :
  config_wf c -> address (vault c) <> [] ->
  exists raw, validate raw = Ok c /\ raw_vault_redeem_script_hex raw = redeem_script_hex (vault c).
Proof.
  intros [Hv [Ha1 Ha2] [Hh1 Hh2] Hf Hd Hm] Hne.
  exists {| raw_vault_redeem_script_hex := redeem_script_hex (vault c);
            raw_vault_address := vault_address c; raw_change_address := change_address c;
            raw_fee_rate_per_kb := fee_rate_per_kb c;
            raw_dust_threshold_atomic := dust_threshold_atomic c;
            raw_vault_min_confirmations := vault_min_confirmations c;
            raw_confirmation_depth := confirmation_depth c;
            raw_max_inputs_per_payout := max_inputs_per_payout c;
            raw_reservation_timeout_secs := reservation_timeout_secs c;
            raw_discovery_commitment := lit "finalized";
            raw_poll_interval_ms := poll_interval_ms c |}.
  split; [|done]. unfold validate, require_address.
  cbn [raw_vault_redeem_script_hex raw_vault_address raw_change_address raw_fee_rate_per_kb
       raw_dust_threshold_atomic raw_vault_min_confirmations raw_confirmation_depth
       raw_max_inputs_per_payout raw_reservation_timeout_secs raw_discovery_commitment
       raw_poll_interval_ms].
  assert (from_redeem_script_hex (redeem_script_hex (vault c)) = Ok (vault c)) as ->.
  { apply from_redeem_script_iff. split; [|done]. apply decode_encode. }
  assert (vault_address c <> [] /\ change_address c <> []) as [H1 H2] by (by rewrite Ha1, Ha2).
  rewrite (bool_decide_eq_false_2 _ H1), (bool_decide_eq_false_2 _ H2). res_red. cbn [map_err].
  rewrite bool_decide_eq_true_2 by done. res_red. cbn [map_err]. res_red.
  rewrite bool_decide_eq_true_2 by done. res_red.
  rewrite (proj2 (Z.eqb_neq _ _)) by done. rewrite (proj2 (Z.ltb_ge _ _)) by lia.
  rewrite (proj2 (Nat.eqb_neq _ _)) by done. res_red. rewrite bool_decide_eq_true_2 by done. res_red.
  destruct c; cbn in *. by subst.
Qed.
End validation.
