(* ===== verification/Epoch.v ===== *)
(** * The epoch observation: [relayer/src/solana/epoch.rs]

    What a node knows of the validator-set epoch and when it last learned
    it.  [refresh] is one turn of the refresher: only a successful read moves
    the observation. *)
From Stdlib Require Import ZArith Lia Strings.Byte.
From stdpp Require Import base numbers list.
From S2P Require Import Prelude.

Definition MAX_VIEW_STALENESS : Z := 60.
Definition EPOCH_POLL_INTERVAL : Z := 10.

Record EpochObservation := { epoch : Z; observed_at : Z }.

Definition seeded (epoch at_unix : Z) : EpochObservation :=
  {| epoch := epoch; observed_at := at_unix |}.

Definition record (epoch at_unix : Z) (o : EpochObservation) : EpochObservation :=
  {| epoch := epoch; observed_at := at_unix |}.

Definition is_fresh_at (o : EpochObservation) (now_unix : Z) : bool :=
  let age := i64_saturating_sub now_unix (observed_at o) in
  (0 <=? age) && (age <=? MAX_VIEW_STALENESS).

(** One turn of [run_epoch_refresher] after its sleep. *)
Definition refresh {E} (observed : result E Z) (now_unix : Z) (o : EpochObservation)
  : EpochObservation :=
  match observed with
  | Ok epoch => record epoch now_unix o
  | Err _ => o
  end.

Lemma is_fresh_at_iff o now :
  is_fresh_at o now = true <-> observed_at o <= now <= observed_at o + MAX_VIEW_STALENESS.
Proof.
  unfold is_fresh_at, i64_saturating_sub, MAX_VIEW_STALENESS, I64_MIN, I64_MAX.
  rewrite andb_true_iff, !Z.leb_le. lia.
Qed.

(** The turns of a refresher: the reads' results with their times. *)
Definition run_refresher {E} (turns : list (result E Z * Z)) (o : EpochObservation)
  : EpochObservation := foldl (fun o t => refresh t.1 t.2 o) o turns.

(** An epoch the refresher reports as fresh is the result of the last successful
    read (or the seed when no read succeeded), made within the staleness bound, whatever
    failed reads came after it. *)
Theorem fresh_epoch_was_read {E} (turns : list (result E Z * Z)) seed seed_at now :
  let o := run_refresher turns (seeded seed seed_at) in
  is_fresh_at o now = true ->
  now - MAX_VIEW_STALENESS <= observed_at o <= now /\
  ((epoch o, observed_at o) = (seed, seed_at) /\ Forall (fun t => exists e, t.1 = Err e) turns \/
   exists before after, turns = before ++ (Ok (epoch o), observed_at o) :: after /\
     Forall (fun t => exists e, t.1 = Err e) after).
Proof.
  intros o Hf%is_fresh_at_iff. split; [lia|]. clear Hf. subst o.
  induction turns as [|[r t] turns IH] using rev_ind; [left; split; [done|constructor]|].
  unfold run_refresher in *. rewrite foldl_app. cbn [foldl]. destruct r as [e|e]; cbn [refresh fst snd].
  - right. exists turns, []. split; [done|constructor].
  - destruct IH as [[-> Hall]|(b & a & E1 & Hall)].
    + left. split; [done|]. apply Forall_app. split; [done|]. constructor; [by exists e|constructor].
    + right. exists b, (a ++ [(Err e, t)]). split; [by rewrite E1 at 1; rewrite <- app_assoc|].
      apply Forall_app. split; [done|]. constructor; [by exists e|constructor].
Qed.

Lemma fresh_epoch_was_read_witness :
  let turns := [(Ok 4, 1010); (Err tt, 1020); (Err tt, 1030)] in
  exists before after : list (result unit Z * Z),
    turns = before ++ (Ok 4, 1010) :: after /\ Forall (fun t => exists e, t.1 = Err e) after.
Proof.
  intros turns. destruct (fresh_epoch_was_read turns 3 1000 1065) as [_ [[H _]|H]].
  - vm_compute. reflexivity.
  - discriminate H.
  - exact H.
Defined.
