(* ===== verification/Executor.v ===== *)
(** * The withdrawal executor: [relayer/src/withdrawal/executor.rs]

    One tick over the withdrawal tables, in a state-and-error monad: an
    [Err] leaves what was done before it, as [?] does.  The Goldcoin node,
    the signers, the Solana status reader, the shared epoch observation and
    the clock are the class [PayoutRpc] over one abstract outside state;
    everything may change between two calls. *)
From Stdlib Require Import ZArith Lia Strings.Byte.
From stdpp Require Import base numbers strings gmap list.
From S2P Require Import Prelude Hex DepositDb Address Rpc WithdrawalDb Coin Builder.
From S2P Require Import Vault Assignment Multisig WithdrawalConfig Epoch.

(** ** Messages of the errors that reach the audit log *)

Definition show_nat (n : nat) : str := display (Z.of_nat n).

Definition show_address_error (e : AddressError) : str :=
  match e with
  | InvalidCharacter => lit "address contains a non-base58 character"
  | WrongAddressLength n => lit "address does not decode to 25 bytes (got " ++ show_nat n ++ lit ")"
  | BadChecksum => lit "address checksum mismatch — the address is corrupt or mistyped"
  | UnsupportedVersion v =>
      lit "unsupported address version byte 0x" ++ encode [byte_of_Z v] ++
      lit "; only regtest P2PKH (0x6f) is supported"
  | Empty => lit "address is empty"
  end.

Definition show_verify_error (e : VerifyError) : str :=
  match e with
  | OutputCount expected actual =>
      lit "expected " ++ show_nat expected ++ lit " outputs, transaction has " ++ show_nat actual
  | InputCount expected actual =>
      lit "expected " ++ show_nat expected ++ lit " inputs, transaction has " ++ show_nat actual
  | InputMismatch position actual_txid actual_vout expected_txid expected_vout =>
      lit "input " ++ show_nat position ++ lit " is " ++ actual_txid ++ lit ":" ++
      display actual_vout ++ lit ", expected the reserved outpoint " ++ expected_txid ++
      lit ":" ++ display expected_vout
  | MissingDestinationOutput s => lit "no output pays the destination script " ++ s
  | DestinationAmount actual expected =>
      lit "destination output pays " ++ display actual ++ lit " atomic, expected exactly " ++
      display expected
  | MissingChangeOutput s => lit "no output pays the expected change script " ++ s
  | ChangeAmount actual expected =>
      lit "change output pays " ++ display actual ++ lit " atomic, expected exactly " ++
      display expected
  | UnexpectedOutput v s =>
      lit "transaction contains an unexpected output paying " ++ display v ++ lit " to script " ++ s
  | ValueNotConserved total_in payout change fee =>
      lit "value is not conserved: inputs " ++ display total_in ++ lit " != payout " ++
      display payout ++ lit " + change " ++ display change ++ lit " + fee " ++ display fee
  | UnexpectedChange => lit "a change output is present but the plan expects none"
  | OutputsAlteredBySigning => lit "signing altered the transaction outputs — refusing to broadcast"
  end.

Definition show_multisig_error (e : MultisigError) : str :=
  match e with
  | NotHex => lit "transaction hex is not valid hex"
  | Truncated p => lit "transaction is truncated at byte " ++ show_nat p
  | InputCountMismatch n =>
      lit "transaction has " ++ show_nat n ++
      lit " inputs but signatures were supplied for a different count"
  | SignerNotInVault k =>
      lit "signer public key " ++ k ++
      lit " is not present in the vault redeem script — refusing to place a signature that cannot satisfy this vault"
  | DuplicateContribution k count =>
      lit "signer " ++ k ++ lit " contributed " ++ show_nat count ++
      lit " signatures for one input; a signer counts once"
  | ThresholdNotMet input got threshold =>
      lit "input " ++ show_nat input ++ lit " has " ++ show_nat got ++
      lit " signatures but the vault threshold is " ++ show_nat threshold ++
      lit " — refusing to assemble a scriptSig that cannot spend"
  | TooManySignatures input got threshold =>
      lit "input " ++ show_nat input ++ lit " has " ++ show_nat got ++
      lit " signatures, more than the vault threshold " ++ show_nat threshold
  | MalformedSignature input k reason =>
      lit "signature for input " ++ show_nat input ++ lit " from " ++ k ++
      lit " is malformed: " ++ reason
  | SignatureDoesNotVerify input k =>
      lit "signature for input " ++ show_nat input ++ lit " from " ++ k ++
      lit " does not verify over the sighash"
  | VarIntTooLarge p =>
      lit "varint at byte " ++ show_nat p ++ lit " is too large for this transaction shape"
  | NoInputs => lit "transaction has no inputs"
  | MultisigPanic => []
  end.

(** ** What the executor asks of the outside *)

Record TxStatus := {
  confirmations : Z; block_hash_hex : option str; block_height : option Z
}.

Class PayoutRpc := {
  outside : Type;
  now_unix : outside -> outside * Z;
  list_unspent : Z -> list str -> outside -> outside * result RpcError (list ObservedUtxo);
  create_raw_transaction : list (str * Z) -> list (str * Z) -> outside ->
    outside * result RpcError str;
  decode_raw_transaction : str -> outside -> outside * result RpcError DecodedTx;
  send_raw_transaction : str -> outside -> outside * result RpcError BroadcastOutcome;
  transaction_confirmations : str -> outside -> outside * result RpcError (option TxStatus);
  block_on_main_chain : str -> outside -> outside * result RpcError bool;
  (** [OnChainWithdrawalStatus::is_completed] *)
  is_completed : Z -> outside -> outside * result str bool;
  (** [PayoutPartialCollector::collect_payout_partials]: epoch, index,
      quorum attempt, intent, unsigned transaction, quorum *)
  collect_payout_partials : Z -> Z -> Z -> list byte -> str -> list byte -> outside ->
    outside * list PartialSignature;
  (** the shared [EpochObservation], as its atomics read now *)
  epoch_observation : outside -> EpochObservation
}.

(** [BadHex] and [BadQuorum] stand for [Rpc(Malformed(e.to_string()))]. *)
Inductive ExecutorError :=
| NodeUnavailable (e : RpcError)
| RpcFailed (e : RpcError)
| DbFailed (e : DbError)
| Assembly (e : MultisigError)
| BadHex (e : HexError)
| BadQuorum (e : VaultError)
| ExecutorPanic.

Record WithdrawalTickReport := {
  observed : Z; validated : Z; awaiting_funds : Z; built : Z; signed : Z; broadcast : Z;
  confirming : Z; completed : Z; halted : Z; failed : Z; orphaned : Z
}.
Definition default_report : WithdrawalTickReport :=
  {| observed := 0; validated := 0; awaiting_funds := 0; built := 0; signed := 0;
     broadcast := 0; confirming := 0; completed := 0; halted := 0; failed := 0; orphaned := 0 |}.

(** [report.x += 1] *)
Inductive Counter :=
| CValidated | CAwaitingFunds | CBuilt | CSigned | CBroadcast | CConfirming | CCompleted
| CHalted | CFailed | COrphaned.
#[export] Instance Counter_eq_dec : EqDecision Counter.
Proof. solve_decision. Defined.
Definition bump (c : Counter) (r : WithdrawalTickReport) : WithdrawalTickReport :=
  let one k := Z.b2z (bool_decide (c = k)) in
  {| observed := observed r; validated := validated r + one CValidated;
     awaiting_funds := awaiting_funds r + one CAwaitingFunds; built := built r + one CBuilt;
     signed := signed r + one CSigned; broadcast := broadcast r + one CBroadcast;
     confirming := confirming r + one CConfirming; completed := completed r + one CCompleted;
     halted := halted r + one CHalted; failed := failed r + one CFailed;
     orphaned := orphaned r + one COrphaned |}.

(** [classify] *)
Definition classify (e : RpcError) : ExecutorError :=
  if is_retriable e then NodeUnavailable e else RpcFailed e.

(** The executor's own fields; [onchain_status] says whether a status reader
    is attached. *)
Record Settings := {
  config : WithdrawalConfig; assignment : option OperatorAssignment; onchain_status : bool
}.

Section executor.
Context `{Sh : Sha2, Sc : Secp256k1, N : PayoutRpc}.

(** ** The monad *)

Record World := { w_outside : outside; w_db : Tables; w_report : WithdrawalTickReport }.
Definition M (A : Type) : Type := World -> World * result ExecutorError A.

#[export] Instance M_ret : MRet M := fun A a w => (w, Ok a).
#[export] Instance M_bind : MBind M := fun A B f m w =>
  match m w with
  | (w, Ok a) => f a w
  | (w, Err e) => (w, Err e)
  end.

Definition lift {A} (r : result ExecutorError A) : M A := fun w => (w, r).
Definition ask {A} (f : outside -> outside * A) : M A := fun w =>
  let (o, a) := f (w_outside w) in
  ({| w_outside := o; w_db := w_db w; w_report := w_report w |}, Ok a).
(** An RPC with [.map_err(classify)?]. *)
Definition rpc {A} (f : outside -> outside * result RpcError A) : M A :=
  r ← ask f; lift (map_err classify r).
Definition now : M Z := ask now_unix.
Definition query {A} (f : Tables -> A) : M A := fun w => (w, Ok (f (w_db w))).
(** A database operation, its result kept as a value. *)
Definition try_db {A} (f : Tables -> Tables * result DbError A) : M (result DbError A) := fun w =>
  let (d, r) := f (w_db w) in
  ({| w_outside := w_outside w; w_db := d; w_report := w_report w |}, Ok r).
Definition with_db {A} (f : Tables -> Tables * result DbError A) : M A :=
  r ← try_db f; lift (map_err DbFailed r).
Definition put_db (f : Tables -> Tables) : M unit := with_db (fun d => (f d, Ok tt)).
Definition count_ (c : Counter) : M unit := fun w =>
  ({| w_outside := w_outside w; w_db := w_db w; w_report := bump c (w_report w) |}, Ok tt).
Fixpoint iterM {A} (f : A -> M unit) (l : list A) : M unit :=
  match l with [] => mret tt | a :: l => f a ≫= fun _ => iterM f l end.

(** [self.db.transition_withdrawal(index, to, now_unix(), reason)?] *)
Definition transition (index : Z) (to : WithdrawalState) (reason : option str) : M unit :=
  t ← now; with_db (transition_withdrawal index to t reason).
(** [self.db.get_withdrawal(index)?.ok_or(WithdrawalNotFound(index))?] *)
Definition load_withdrawal (index : Z) : M WithdrawalRow :=
  o ← query (get_withdrawal index);
  lift (ok_or o (DbFailed (WithdrawalNotFound index))).

Context (S : Settings).
Abbreviation cfg := (config S).

(** ** The pieces of a tick *)

Definition may_build (index eligible_since : Z) : M bool :=
  match assignment S with
  | None => mret true
  | Some a => t ← now; mret (Assignment.may_build a (as_u64 index) eligible_since t)
  end.

Definition safe_to_broadcast (index : Z) : M bool :=
  if onchain_status S then
    r ← ask (is_completed (as_u64 index));
    match r with Ok false => mret true | Ok true => mret false | Err _ => mret false end
  else mret true.

Definition ingest_discovered (discovered : list NewWithdrawalRequest) : M Z :=
  (fix go n l :=
     match l with
     | [] => mret n
     | w :: l => fresh ← with_db (observe_withdrawal w); go (if fresh : bool then n + 1 else n) l
     end) 0 discovered.

Definition sync_vault : M unit :=
  obs ← rpc (list_unspent (vault_min_confirmations cfg) [vault_address cfg]);
  t ← now;
  _ ← put_db (sync_vault_utxos obs (vault_min_confirmations cfg) t);
  _ ← with_db (mark_missing_utxos_spent (o_txid <$> obs));
  mret tt.

Definition reclaim_one (cutoff : Z) (w : WithdrawalRow) : M unit :=
  let index := w_index w in
  p ← query (get_payout index);
  if bool_decide (is_Some p) then mret tt
  else
    reserved ← query (reserved_utxos index);
    if bool_decide (reserved = []) then mret tt
    else
      stale ← query (reservation_is_stale index cutoff);
      if stale : bool then _ ← with_db (release_reservation index); mret tt else mret tt.

Definition reclaim_abandoned_reservations : M unit :=
  t ← now;
  let cutoff := wrap_i64 (t - reservation_timeout_secs cfg) in
  iterM (fun state => ws ← query (withdrawals_by_state state); iterM (reclaim_one cutoff) ws)
    [Validated; AwaitingFunds; Building].

Definition validate (index : Z) : M unit :=
  w ← load_withdrawal index;
  match decode_p2pkh_hash160 (w_address w) with
  | Err e =>
      _ ← transition index Failed
            (Some (lit "undecodable destination address: " ++ show_address_error e));
      count_ CFailed
  | Ok h =>
      if negb (bool_decide (h = w_hash160 w)) then
        _ ← transition index IntegrityHalted (Some (lit "stored address and hash160 disagree"));
        count_ CHalted
      else if w_amount w <? dust_threshold_atomic cfg then
        _ ← transition index Failed
              (Some (lit "amount is below the dust threshold and can never be paid out"));
        count_ CFailed
      else
        _ ← transition index Validated None;
        count_ CValidated
  end.

Definition designate_quorum (index : Z) : list byte :=
  Assignment.designate_quorum index (signer_count (vault cfg)) (threshold (vault cfg)).

Definition wait_for_funds (index : Z) (w : WithdrawalRow) : M unit :=
  _ ← (if bool_decide (w_state w = AwaitingFunds) then mret tt
       else transition index AwaitingFunds (Some (lit "insufficient spendable vault funds")));
  count_ CAwaitingFunds.

(** The outputs asked of the node and the plan they are checked against. *)
Definition payout_outputs (w : WithdrawalRow) (s : Selection) : list (str * Z) :=
  (w_address w, w_amount w) ::
  (if 0 <? sel_change s then [(change_address cfg, sel_change s)] else []).

Definition payout_plan (w : WithdrawalRow) (s : Selection) : PayoutPlan :=
  {| dest_hash160 := w_hash160 w; payout_atomic := w_amount w;
     change_script_hex :=
       if 0 <? sel_change s then Some (Vault.script_pubkey_hex (vault cfg)) else None;
     change_atomic := sel_change s; fee_atomic := sel_fee s; plan_inputs := sel_inputs s |}.

Definition payout_intent (index : Z) (w : WithdrawalRow) (s : Selection) (quorum : list byte)
  : list byte :=
  canonical_payout_intent (w_version w) index (script_hash160 (vault cfg)) (w_hash160 w)
    (w_amount w) (sel_fee s) (sel_change s)
    (if 0 <? sel_change s then change_hash160 cfg else replicate 20 x00) 0 quorum (sel_inputs s).

Definition new_payout (index : Z) (w : WithdrawalRow) (s : Selection) (quorum : list byte)
    (unsigned_hex : str) (built_at : Z) : NewPayout :=
  let intent := payout_intent index w s quorum in
  {| np_index := index; np_inputs := sel_inputs s;
     np_terms :=
       {| t_vault_script_hash := script_hash160 (vault cfg); t_quorum_indices := quorum;
          t_quorum_attempt := 0; t_commitment_hash := payout_commitment intent;
          t_intent_bytes := intent; t_fee := sel_fee s; t_payout := w_amount w;
          t_change := sel_change s;
          t_change_address := if 0 <? sel_change s then Some (change_address cfg) else None;
          t_unsigned_tx_hex := unsigned_hex; t_built_at := built_at |} |}.

(** [build] from the verified transaction on. *)
Definition commit_payout (index : Z) (w : WithdrawalRow) (s : Selection) (unsigned_hex : str)
  : M unit :=
  let quorum := designate_quorum index in
  _ ← lift (map_err BadQuorum (validate_quorum (vault cfg) quorum));
  t ← now;
  _ ← with_db (create_payout (new_payout index w s quorum unsigned_hex t));
  _ ← transition index Signing None;
  count_ CBuilt.

(** [build] from the reserved selection on. *)
Definition build_transaction (index : Z) (w : WithdrawalRow) (s : Selection) : M unit :=
  _ ← transition index Building None;
  unsigned_hex ← rpc (create_raw_transaction
                        ((fun u => (u_txid_hex u, u_vout u)) <$> sel_inputs s) (payout_outputs w s));
  decoded ← rpc (decode_raw_transaction unsigned_hex);
  match verify_payout_tx decoded (payout_plan w s) with
  | Err e =>
      _ ← transition index IntegrityHalted
            (Some (lit "output verification failed: " ++ show_verify_error e));
      count_ CHalted
  | Ok _ => commit_payout index w s unsigned_hex
  end.

Definition build (index : Z) : M unit :=
  existing ← query (get_payout index);
  if bool_decide (is_Some existing) then transition index Signing None
  else
    w ← load_withdrawal index;
    candidates ← query (available_utxos (vault_min_confirmations cfg));
    match select candidates (w_amount w) (fee_rate_per_kb cfg) (dust_threshold_atomic cfg)
            (max_inputs_per_payout cfg) with
    | Err _ => wait_for_funds index w
    | Ok s =>
        _ ← (if bool_decide (w_state w = AwaitingFunds) then transition index Validated None
             else mret tt);
        t ← now;
        r ← try_db (reserve_utxos index (sel_inputs s) t);
        match r with
        | Err _ => count_ CAwaitingFunds
        | Ok _ => build_transaction index w s
        end
    end.

Definition halt_payout (index : Z) (reason : str) : M unit :=
  _ ← transition index IntegrityHalted (Some reason);
  count_ CHalted.

(** [hex::decode_exact::<32>(..).map_err(Rpc(Malformed))?] *)
Definition decode32 (s : str) : M (list byte) :=
  lift (map_err (fun f => match f with HexErr e => BadHex e | Panicked => ExecutorPanic end)
          (decode_exact 32 s)).

(** [sign] from the assembled transaction on. *)
Definition record_assembled (index : Z) (s : SignablePayout) (t : Multisig.Transaction) : M unit :=
  let signed_hex := serialize_hex t in
  signed_decoded ← rpc (decode_raw_transaction signed_hex);
  if negb (bool_decide (tx_txid_hex signed_decoded = Multisig.txid_hex t)) then
    halt_payout index (lit "assembled txid disagrees with the node's decoding")
  else
    unsigned_decoded ← rpc (decode_raw_transaction (s_unsigned_tx_hex s));
    match verify_signing_preserved_outputs unsigned_decoded signed_decoded with
    | Err e => halt_payout index (show_verify_error e)
    | Ok _ =>
        txid ← decode32 (tx_txid_hex signed_decoded);
        at_ ← now;
        _ ← with_db (record_signed_payout index signed_hex txid at_);
        count_ CSigned
    end.

Definition sign (index : Z) : M unit :=
  t ← now;
  r ← try_db (verify_and_load_signable_payout index t);
  match r with
  | Err _ => count_ CHalted
  | Ok signable =>
      t ← now;
      obs ← ask (fun o => (o, epoch_observation o));
      if negb (is_fresh_at obs t) then mret tt
      else
        epoch ← ask (fun o => (o, epoch (epoch_observation o)));
        partials ← ask (collect_payout_partials epoch (as_u64 index) (s_quorum_attempt signable)
                          (s_intent_bytes signable) (s_unsigned_tx_hex signable)
                          (s_quorum_indices signable));
        if (length partials <? threshold (vault cfg))%nat then mret tt
        else
          unsigned ← lift (map_err Assembly (parse_hex (s_unsigned_tx_hex signable)));
          match assemble unsigned (vault cfg) partials with
          | Err e =>
              halt_payout index (lit "multisig assembly failed: " ++ show_multisig_error e)
          | Ok tx => record_assembled index signable tx
          end
  end.

(** [reconcile_broadcast] once the node knows the transaction. *)
Definition confirm_payout (index : Z) (status : TxStatus) : M unit :=
  block_hash ← match decode_exact 32 <$> block_hash_hex status with
               | Some (Ok b) => mret (Some b)
               | Some (Err Panicked) => lift (Err ExecutorPanic)
               | _ => mret None
               end;
  _ ← put_db (record_confirmations index (confirmations status) block_hash (block_height status));
  w ← load_withdrawal index;
  _ ← (if bool_decide (w_state w = Broadcast) then transition index Confirming None else mret tt);
  if confirmation_depth cfg <=? confirmations status then
    t ← now;
    _ ← with_db (complete_payout index t);
    count_ CCompleted
  else count_ CConfirming.

Definition orphan_payout (index : Z) (reason : str) : M unit :=
  _ ← transition index Orphaned (Some reason);
  count_ COrphaned.

Definition reconcile_broadcast (index : Z) : M unit :=
  p ← query (get_payout index);
  match p ≫= p_txid with
  | None => mret tt
  | Some txid =>
      status ← rpc (transaction_confirmations (encode txid));
      match status with
      | None => orphan_payout index (lit "payout transaction unknown to the node")
      | Some status =>
          on_chain ← match block_hash_hex status with
                     | Some bh => rpc (block_on_main_chain bh)
                     | None => mret true
                     end;
          if on_chain : bool then confirm_payout index status
          else orphan_payout index (lit "payout block orphaned by a reorg")
      end
  end.

(** After the node took, or already had, the transaction. *)
Definition after_send (index : Z) : M unit :=
  t ← now;
  _ ← put_db (record_broadcast index t);
  w ← query (get_withdrawal index);
  _ ← (if bool_decide (w_state <$> w = Some Orphaned)
       then transition index Broadcast (Some (lit "rebroadcast identical bytes after orphaning"))
       else mret tt);
  _ ← count_ CBroadcast;
  reconcile_broadcast index.

Definition rebroadcast (index : Z) : M unit :=
  p ← query (get_payout index);
  match p ≫= p_signed_tx_hex with
  | None => mret tt
  | Some signed =>
      safe ← safe_to_broadcast index;
      if negb safe then mret tt
      else
        outcome ← rpc (send_raw_transaction signed);
        match outcome with
        | Accepted _ | AlreadyInChain => after_send index
        | MissingInputs => reconcile_broadcast index
        end
  end.

(** ** The tick *)

(** [for w in self.db.withdrawals_by_state(state)? { f(w.withdrawal_index)? }] *)
Definition for_state (state : WithdrawalState) (f : Z -> M unit) : M unit :=
  ws ← query (withdrawals_by_state state);
  iterM (fun w => f (w_index w)) ws.

Definition build_if_designated (index : Z) : M unit :=
  r ← query (withdrawal_eligible_since index);
  eligible_since ← lift (map_err DbFailed r);
  may ← may_build index eligible_since;
  if may : bool then build index else mret tt.

Definition broadcast_fresh (index : Z) : M unit :=
  p ← query (get_payout index);
  if bool_decide (p_confirmations <$> p = Some 0) then rebroadcast index else mret tt.

Definition tick_body : M unit :=
  _ ← sync_vault;
  _ ← reclaim_abandoned_reservations;
  _ ← for_state Broadcast reconcile_broadcast;
  _ ← for_state Confirming reconcile_broadcast;
  _ ← for_state Orphaned rebroadcast;
  _ ← for_state Observed validate;
  _ ← iterM (fun state => for_state state build_if_designated) [AwaitingFunds; Validated];
  _ ← for_state Signing sign;
  for_state Broadcast broadcast_fresh.

(** One pass: the report starts at zero and is returned with the state. *)
Definition tick (o : outside) (d : Tables)
  : outside * Tables * result ExecutorError WithdrawalTickReport :=
  let (w, r) := tick_body {| w_outside := o; w_db := d; w_report := default_report |} in
  (w_outside w, w_db w, let* _ := r in Ok (w_report w)).
End executor.
