(* ===== verification/ExecutorProps.v ===== *)
(** * The executor: proof rules and theorems

    A relation between the states before and after an action, kept by every
    action of a tick once it is kept by the atomic ones.  [vstep] and
    [istep] are the table operations a tick performs: on the vault, and for
    one withdrawal. *)
From Stdlib Require Import ZArith Lia Strings.Byte.
From stdpp Require Import base numbers strings gmap list sorting.
From S2P Require Import Prelude Hex DepositDb Address Rpc WithdrawalDb WithdrawalDbProps.
From S2P Require Import Coin Builder Vault Assignment Multisig WithdrawalConfig Epoch.
From S2P Require Import Executor.

(** ** Table operations of a tick *)

Inductive vstep (d : Tables) : Tables -> Prop :=
| vs_sync obs minconf at_ : vstep d (sync_vault_utxos obs minconf at_ d)
| vs_missing present : vstep d (fst (mark_missing_utxos_spent present d))
| vs_release i : vstep d (fst (release_reservation i d)).

(** [heights] are the block heights the node may report. *)
Inductive istep `{Sha2} (heights : option Z -> Prop) (j : Z) (d : Tables) : Tables -> Prop :=
| is_transition to at_ reason : istep heights j d (fst (transition_withdrawal j to at_ reason d))
| is_reserve us at_ : istep heights j d (fst (reserve_utxos j us at_ d))
| is_create p : np_index p = j -> istep heights j d (fst (create_payout p d))
| is_broadcast at_ : istep heights j d (record_broadcast j at_ d)
| is_confirm n hash h : heights h -> istep heights j d (record_confirmations j n hash h d)
| is_complete at_ : istep heights j d (fst (complete_payout j at_ d))
| is_verify at_ : istep heights j d (fst (verify_and_load_signable_payout j at_ d)).

(** The same without the creation of a payout. *)
Inductive kstep `{Sha2} (heights : option Z -> Prop) (j : Z) (d : Tables) : Tables -> Prop :=
| ks_transition to at_ reason : kstep heights j d (fst (transition_withdrawal j to at_ reason d))
| ks_reserve us at_ : kstep heights j d (fst (reserve_utxos j us at_ d))
| ks_broadcast at_ : kstep heights j d (record_broadcast j at_ d)
| ks_confirm n hash h : heights h -> kstep heights j d (record_confirmations j n hash h d)
| ks_complete at_ : kstep heights j d (fst (complete_payout j at_ d))
| ks_verify at_ : kstep heights j d (fst (verify_and_load_signable_payout j at_ d)).

Lemma kstep_istep `{Sha2} heights j d d' : kstep heights j d d' -> istep heights j d d'.
Proof. intros []; by constructor. Qed.

Lemma vstep_wstep `{Sha2} d d' : vstep d d' -> wstep d d'.
Proof. intros []; constructor. Qed.

Definition any_height (h : option Z) : Prop := True.

Lemma istep_wstep `{Sha2} heights j d d' : istep heights j d d' -> wstep d d'.
Proof. intros []; constructor. Qed.

Section logic.
Context `{Sh : Sha2, Sc : Secp256k1, N : PayoutRpc}.
Context (R : World -> World -> Prop) {HR : PreOrder R}.

Definition sound {A} (m : M A) : Prop := forall w, R w (fst (m w)).

Lemma sound_ret {A} (a : A) : sound (mret a).
Proof. intros w. apply HR. Qed.

Lemma sound_lift {A} (r : result ExecutorError A) : sound (lift r).
Proof. intros w. apply HR. Qed.

Lemma sound_query {A} (f : Tables -> A) : sound (query f).
Proof. intros w. apply HR. Qed.

Lemma sound_bind {A B} (m : M A) (f : A -> M B) :
  sound m -> (forall a, sound (f a)) -> sound (m ≫= f).
Proof.
  intros Hm Hf w. unfold mbind, M_bind. pose proof (Hm w) as H.
  destruct (m w) as [w1 [a|e]]; cbn in *; [|done].
  etrans; [exact H|]. apply Hf.
Qed.

(** The continuation runs only on values the first part returns. *)
Definition returns {A} (m : M A) (a : A) : Prop := exists w w', m w = (w', Ok a).

Lemma sound_bind_returns {A B} (m : M A) (f : A -> M B) :
  sound m -> (forall a, returns m a -> sound (f a)) -> sound (m ≫= f).
Proof.
  intros Hm Hf w. unfold mbind, M_bind. pose proof (Hm w) as H.
  destruct (m w) as [w1 [a|e]] eqn:E; cbn in *; [|done].
  etrans; [exact H|]. apply Hf. by exists w, w1.
Qed.

Lemma returns_rpc {A} (f : outside -> outside * result RpcError A) a :
  returns (rpc f) a -> exists o, (f o).2 = Ok a.
Proof.
  intros (w & w' & H). unfold rpc, ask, mbind, M_bind, lift in H. cbn in H.
  exists (w_outside w). destruct (f (w_outside w)) as [o r]. cbn in H.
  injection H as _ H. by apply map_err_Ok in H.
Qed.

Lemma sound_iterM {A} (f : A -> M unit) l : (forall a, a ∈ l -> sound (f a)) -> sound (iterM f l).
Proof.
  induction l as [|a l IH]; intros Hf; cbn [iterM]; [apply sound_ret|].
  apply sound_bind; [apply Hf; by left|]. intros _. apply IH. intros b Hb. apply Hf. by right.
Qed.

(** A database operation whose tables are related. *)
Lemma sound_try_db {A} (f : Tables -> Tables * result DbError A) :
  (forall o d rep, R {| w_outside := o; w_db := d; w_report := rep |}
                     {| w_outside := o; w_db := fst (f d); w_report := rep |}) ->
  sound (try_db f).
Proof. intros Hf [o d rep]. unfold try_db. cbn. specialize (Hf o d rep). by destruct (f d). Qed.

Lemma sound_with_db {A} (f : Tables -> Tables * result DbError A) :
  sound (try_db f) -> sound (with_db f).
Proof. intros Hf. apply sound_bind; [done|]. intros r. apply sound_lift. Qed.

Lemma sound_rpc {A} (f : outside -> outside * result RpcError A) : sound (ask f) -> sound (rpc f).
Proof. intros Hf. apply sound_bind; [done|]. intros r. apply sound_lift. Qed.
End logic.

#[export] Hint Resolve sound_ret sound_lift sound_query : exec.

(** The outside calls a tick makes besides sending and asking for the
    status of a withdrawal. *)
Record quiet_calls `{N : PayoutRpc} (quiet : forall A, (outside -> outside * A) -> Prop) : Prop := {
  qc_now : quiet _ now_unix;
  qc_unspent n l : quiet _ (list_unspent n l);
  qc_create i o : quiet _ (create_raw_transaction i o);
  qc_decode h : quiet _ (decode_raw_transaction h);
  qc_confirmations t : quiet _ (transaction_confirmations t);
  qc_main_chain b : quiet _ (block_on_main_chain b);
  qc_collect e i a b u q : quiet _ (collect_payout_partials e i a b u q);
  qc_observation {A} (f : outside -> A) : quiet _ (fun o => (o, f o))
}.

Section generic.
Context `{Sh : Sha2, Sc : Secp256k1, N : PayoutRpc} (S : Settings).
Context (quiet : forall A, (outside -> outside * A) -> Prop) (Hq : quiet_calls quiet).
Context (R : World -> World -> Prop) {HR : PreOrder R}.
Context (Hask : forall A (f : outside -> outside * A), quiet A f -> sound R (ask f)).
Context (Hcount : forall c, sound R (count_ c)).
Context (heights : option Z -> Prop).
Context (Hheights : forall txid o status,
  (transaction_confirmations txid o).2 = Ok (Some status) -> heights (block_height status)).

(** Relates worlds that differ in the tables only. *)
Definition related (step : Tables -> Tables -> Prop) : Prop :=
  forall o d rep d', step d d' ->
    R {| w_outside := o; w_db := d; w_report := rep |} {| w_outside := o; w_db := d'; w_report := rep |}.

Lemma related_kstep j : related (istep heights j) -> related (kstep heights j).
Proof. intros Hi o d rep d' Hs. by apply Hi, kstep_istep. Qed.

Lemma sound_now : sound R now.
Proof. apply Hask, Hq. Qed.

Ltac sound_step :=
  match goal with
  | |- sound _ (mbind _ _) => apply sound_bind; [done| |intros ?]
  | |- sound _ now => apply sound_now
  | |- sound _ (count_ _) => apply Hcount
  | |- sound _ (mret _) => by apply sound_ret
  | |- sound _ (lift _) => by apply sound_lift
  | |- sound _ (query _) => by apply sound_query
  | |- sound _ (rpc _) => apply sound_rpc; [done|apply Hask, Hq]
  | |- sound _ (ask _) => apply Hask, Hq
  | |- sound _ (with_db _) => apply sound_with_db; [done|]
  | |- sound _ (put_db _) => unfold put_db
  | |- sound _ (match _ with _ => _ end) => case_match
  | |- sound _ (if _ then _ else _) => case_match
  | |- sound _ (let _ := _ in _) => cbv zeta
  end.
Ltac sounds := repeat sound_step.

(** ** The vault's part *)

Section vault.
Context (Hv : related vstep).

Lemma sound_sync_vault : sound R (sync_vault S).
Proof.
  unfold sync_vault. sounds.
  - apply sound_try_db. intros o d rep. apply Hv. constructor.
  - apply sound_try_db. intros o d rep. apply Hv. constructor.
Qed.

Lemma sound_reclaim : sound R (reclaim_abandoned_reservations S).
Proof.
  unfold reclaim_abandoned_reservations. sounds. apply sound_iterM; [done|]. intros s _. sounds.
  apply sound_iterM; [done|]. intros w _. unfold reclaim_one. sounds.
  apply sound_try_db. intros o d rep. apply Hv. constructor.
Qed.
End vault.

(** ** One withdrawal's part *)

Section one.
Context (j : Z) (Hi : related (kstep heights j)).

Lemma sound_transition to reason : sound R (transition j to reason).
Proof.
  unfold transition. sounds. apply sound_try_db. intros o d rep. apply Hi. constructor.
Qed.

Lemma sound_load : sound R (load_withdrawal j).
Proof. unfold load_withdrawal. sounds. Qed.

Lemma sound_validate : sound R (Executor.validate S j).
Proof.
  unfold Executor.validate. apply sound_bind; [done|apply sound_load|]. intros w.
  sounds; apply sound_transition.
Qed.

Lemma sound_confirm status : heights (block_height status) -> sound R (confirm_payout S j status).
Proof.
  intros Hh. unfold confirm_payout. sounds; try apply sound_transition; try apply sound_load;
    apply sound_try_db; intros ? ? ?; apply Hi; by constructor.
Qed.

Lemma sound_reconcile : sound R (reconcile_broadcast S j).
Proof.
  unfold reconcile_broadcast, orphan_payout. apply sound_bind; [done|by apply sound_query|].
  intros p. case_match; [|by apply sound_ret].
  apply sound_bind_returns; [done|apply sound_rpc; [done|apply Hask, Hq]|].
  intros status (o & Ho)%returns_rpc. case_match; subst; sounds; try apply sound_transition.
  apply sound_confirm. by eapply Hheights.
Qed.

Lemma sound_after_send : sound R (after_send S j).
Proof.
  unfold after_send. sounds; try apply sound_transition; try apply sound_reconcile.
  apply sound_try_db. intros o d rep. apply Hi. constructor.
Qed.

Lemma sound_halt reason : sound R (halt_payout j reason).
Proof. unfold halt_payout. sounds. apply sound_transition. Qed.

Lemma sound_guard at_ : sound R (try_db (verify_and_load_signable_payout j at_)).
Proof. apply sound_try_db. intros o d rep. apply Hi. constructor. Qed.

(** Sending, when both calls of it are quiet too. *)
Lemma sound_rebroadcast :
  (forall h, sound R (ask (send_raw_transaction h))) -> (forall i, sound R (ask (is_completed i))) ->
  sound R (rebroadcast S j).
Proof.
  intros Hsend Hstatus. unfold rebroadcast, safe_to_broadcast.
  sounds; try apply sound_after_send; try apply sound_reconcile; try apply Hstatus.
  apply sound_rpc; [done|apply Hsend].
Qed.

Lemma sound_broadcast_fresh : sound R (rebroadcast S j) -> sound R (broadcast_fresh S j).
Proof. intros H. unfold broadcast_fresh. by sounds. Qed.

(** Signing, when the record of a signature is kept too. *)
Lemma sound_sign :
  (forall o d rep hex txid at_,
     R {| w_outside := o; w_db := d; w_report := rep |}
       {| w_outside := o; w_db := fst (record_signed_payout j hex txid at_ d); w_report := rep |}) ->
  sound R (sign S j).
Proof.
  intros Hs. unfold sign, record_assembled, Executor.decode32.
  sounds; try apply sound_guard; try apply sound_halt.
  apply sound_try_db. intros o d rep. apply Hs.
Qed.
End one.

Section creating.
Context (j : Z) (Hi : related (istep heights j)).

Lemma sound_commit w s hex : sound R (commit_payout S j w s hex).
Proof.
  unfold commit_payout. sounds.
  - apply sound_try_db. intros o d rep. apply Hi. by constructor.
  - by apply sound_transition, related_kstep.
Qed.

Lemma sound_build : sound R (build S j).
Proof.
  unfold build. sounds; try (by apply sound_transition, related_kstep); try apply sound_load.
  - apply sound_try_db. intros o d rep. apply Hi. constructor.
  - unfold build_transaction. sounds; try (by apply sound_transition, related_kstep). apply sound_commit.
  - unfold wait_for_funds. sounds; by apply sound_transition, related_kstep.
Qed.

Lemma sound_build_if_designated : sound R (build_if_designated S j).
Proof. unfold build_if_designated, may_build. sounds. apply sound_build. Qed.
End creating.

(** ** The whole tick *)

Lemma sound_tick_parts (allowed : Z -> Prop) :
  related vstep ->
  (forall j, allowed j -> related (kstep heights j)) ->
  (forall j, allowed j -> sound R (rebroadcast S j)) ->
  (forall j, allowed j -> sound R (build_if_designated S j)) ->
  (forall j, allowed j -> sound R (sign S j)) ->
  (forall s f, s <> Building -> (forall j, allowed j -> sound R (f j)) -> sound R (for_state s f)) ->
  sound R (tick_body S).
Proof.
  intros Hv Hi Hr Hb Hs Hfor. unfold tick_body.
  apply sound_bind; [done|by apply sound_sync_vault|intros _].
  apply sound_bind; [done|by apply sound_reclaim|intros _].
  apply sound_bind; [done|apply Hfor; [done|]; intros j Hj; by apply sound_reconcile, Hi|intros _].
  apply sound_bind; [done|apply Hfor; [done|]; intros j Hj; by apply sound_reconcile, Hi|intros _].
  apply sound_bind; [done|apply Hfor; [done|]; intros j Hj; by apply Hr|intros _].
  apply sound_bind; [done|apply Hfor; [done|]; intros j Hj; by apply sound_validate, Hi|intros _].
  apply sound_bind; [done| |intros _].
  { apply sound_iterM; [done|]. intros s Hin.
    apply Hfor; [intros ->; set_solver|]. intros j Hj. by apply Hb. }
  apply sound_bind; [done|apply Hfor; [done|]; intros j Hj; by apply Hs|intros _].
  apply Hfor; [done|]. intros j Hj. by apply sound_broadcast_fresh, Hr.
Qed.

Lemma sound_tick_body (allowed : Z -> Prop) :
  related vstep ->
  (forall j, allowed j -> related (istep heights j)) ->
  (forall j, allowed j -> sound R (rebroadcast S j)) ->
  (forall j, allowed j -> sound R (sign S j)) ->
  (forall s f, s <> Building -> (forall j, allowed j -> sound R (f j)) -> sound R (for_state s f)) ->
  sound R (tick_body S).
Proof.
  intros Hv Hi Hr Hs Hfor. apply (sound_tick_parts allowed); try done.
  - intros j Hj. by apply related_kstep, Hi.
  - intros j Hj. by apply sound_build_if_designated, Hi.
Qed.

Lemma sound_for_state s f : (forall j, sound R (f j)) -> sound R (for_state s f).
Proof. intros Hf. unfold for_state. sounds. apply sound_iterM; [done|]. intros w _. apply Hf. Qed.
End generic.

(** * Properties of the withdrawal executor

    Every tick is a sequence of database operations; nothing is sent but the
    recorded bytes of a signed payout right after the chain said the
    withdrawal is open; what is recorded as signed is a transaction that
    spends the vault with the outputs that were committed to; and a
    withdrawal left in [Building] without a payout stays there. *)

(** ** A tick is a sequence of database operations *)

Lemma star_trans {A} (step : A -> A -> Prop) a b c : star step a b -> star step b c -> star step a c.
Proof. intros Hab. induction 1; eauto. Qed.

Section ticks.
Context `{Sh : Sha2, Sc : Secp256k1, N : PayoutRpc} (S : Settings).

Definition db_steps (w w' : World) : Prop := star wstep (w_db w) (w_db w').
#[local] Instance db_steps_preorder : PreOrder db_steps.
Proof. split; [intros w; constructor|intros a b c; apply star_trans]. Qed.

Lemma any_node_height (txid : str) o status :
  (transaction_confirmations txid o).2 = Ok (Some status) -> any_height (block_height status).
Proof. done. Qed.

Lemma any_calls_quiet : quiet_calls (fun A (_ : outside -> outside * A) => True).
Proof. by constructor. Qed.

Lemma ask_db_steps {A} (f : outside -> outside * A) : sound db_steps (ask f).
Proof. intros w. unfold ask, db_steps. destruct (f (w_outside w)). constructor. Qed.

Lemma count_db_steps c : sound db_steps (count_ c).
Proof. intros w. unfold db_steps. constructor. Qed.

Lemma step_db_steps (step : Tables -> Tables -> Prop) :
  (forall d d', step d d' -> wstep d d') -> related db_steps step.
Proof. intros H o d rep d' Hs. unfold db_steps. cbn. eapply star_step; [constructor|by apply H]. Qed.

Lemma tick_body_steps : sound db_steps (tick_body S).
Proof.
  eapply (sound_tick_body S _ any_calls_quiet db_steps (fun A f _ => ask_db_steps f) count_db_steps any_height any_node_height (fun _ => True)).
  - apply step_db_steps, vstep_wstep.
  - intros j _. apply step_db_steps, istep_wstep.
  - intros j _. eapply (sound_rebroadcast S _ any_calls_quiet db_steps) with (heights := any_height); eauto using any_node_height, ask_db_steps, count_db_steps.
    apply related_kstep, step_db_steps, istep_wstep.
  - intros j _. eapply (sound_sign S _ any_calls_quiet db_steps) with (heights := any_height); eauto using ask_db_steps, count_db_steps.
    + apply related_kstep, step_db_steps, istep_wstep.
    + intros o d rep hex txid at_. unfold db_steps. cbn. eapply star_step; [constructor|constructor].
  - intros s f _ Hf. apply sound_for_state; [apply _|]. eauto.
Qed.

Lemma tick_steps o d : star wstep d (tick S o d).1.2.
Proof.
  unfold tick. pose proof (tick_body_steps {| w_outside := o; w_db := d; w_report := default_report |}) as H.
  unfold db_steps in H. by destruct (tick_body S _).
Qed.

(** A whole executor tick, on every path through it and whatever the outside
    answers, acts on the database only by the operations of withdrawal_db.rs, so it
    keeps the tables well formed and everything that is permanent in them. *)
Theorem tick_keeps_the_database o d :
  star wstep empty_tables d ->
  star wstep d (tick S o d).1.2 /\ tables_wf (tick S o d).1.2 /\ keeps d (tick S o d).1.2.
Proof.
  intros Hd. pose proof (tick_steps o d) as H. split; [done|].
  destruct (wsteps_good _ _ H) as [Hk Hwf]. split; [|done]. apply Hwf, wsteps_good with (1 := Hd), empty_tables_wf.
Qed.
End ticks.

(** ** What is sent *)

(** The calls that matter before funds move. *)
Inductive Event :=
| Status (index : Z) (answer : result str bool)
| Sent (hex : str).

(** Any outside, with a log of those calls. *)
Definition pass {O A} (f : O -> O * A) (o : O * list Event) : (O * list Event) * A :=
  let (o', a) := f o.1 in ((o', o.2), a).
Definition noting {O A} (e : A -> Event) (f : O -> O * A) (o : O * list Event)
  : (O * list Event) * A :=
  let (o', a) := f o.1 in ((o', o.2 ++ [e a]), a).

Definition logging (N : PayoutRpc) : PayoutRpc :=
  {| outside := outside * list Event;
     now_unix := pass now_unix;
     list_unspent n l := pass (list_unspent n l);
     create_raw_transaction i o := pass (create_raw_transaction i o);
     decode_raw_transaction h := pass (decode_raw_transaction h);
     send_raw_transaction h := noting (fun _ => Sent h) (send_raw_transaction h);
     transaction_confirmations t := pass (transaction_confirmations t);
     block_on_main_chain b := pass (block_on_main_chain b);
     is_completed i := noting (Status i) (is_completed i);
     collect_payout_partials e i a b u q := pass (collect_payout_partials e i a b u q);
     epoch_observation o := epoch_observation o.1 |}.

(** Every send is of the recorded bytes of a withdrawal's payout; with a
    reader of the chain attached ([asks]), it directly follows the answer that
    this withdrawal is not completed. *)
Section guarded.
Context (asks : bool).

Definition guarded (d : Tables) (evs : list Event) : Prop :=
  forall before after hex, evs = before ++ Sent hex :: after ->
    exists i p, withdrawal_payouts d !! i = Some p /\ p_signed_tx_hex p = Some hex /\
      (asks = true -> exists before', before = before' ++ [Status (as_u64 i) (Ok false)]).

Lemma guarded_nil d : guarded d [].
Proof. intros [|? ?] ? ? [=]. Qed.

Lemma guarded_status d i a : guarded d [Status i a].
Proof. intros [|? [|? ?]] ? ? [=]. Qed.

Lemma guarded_send d i p hex :
  withdrawal_payouts d !! i = Some p -> p_signed_tx_hex p = Some hex ->
  guarded d [Status (as_u64 i) (Ok false); Sent hex].
Proof.
  intros Hp Hs [|e1 [|e2 [|? ?]]] after h; intros [=]; subst. exists i, p. split_and!; [done..|by exists []].
Qed.

Lemma guarded_unasked d i p hex :
  asks = false -> withdrawal_payouts d !! i = Some p -> p_signed_tx_hex p = Some hex -> guarded d [Sent hex].
Proof.
  intros Ha Hp Hs [|e1 [|? ?]] after h; intros [=]; subst. exists i, p. split_and!; done.
Qed.

Lemma guarded_app d l1 l2 : guarded d l1 -> guarded d l2 -> guarded d (l1 ++ l2).
Proof.
  intros H1 H2 before after hex E. apply app_eq_inv in E as [(k & E1 & E2)|(k & E1 & E2)].
  - destruct k as [|e k].
    + rewrite app_nil_r in E1. subst. cbn in E2. symmetry in E2.
      destruct (H2 [] after hex E2) as (i & p & Hp & Hs & Hb). exists i, p. split_and!; [done..|].
      intros Ha. destruct (Hb Ha) as [b' Hb']. by destruct b'.
    + cbn in E2. injection E2 as <- E2. by eapply H1.
  - symmetry in E2. destruct (H2 k after hex) as (i & p & Hp & Hs & Hb); [done|].
    exists i, p. split_and!; [done..|]. intros Ha. destruct (Hb Ha) as [b' Hb']. exists (l1 ++ b').
    rewrite E1, Hb'. by rewrite <- app_assoc.
Qed.

Lemma guarded_keeps d d' evs : keeps d d' -> guarded d evs -> guarded d' evs.
Proof.
  intros Hk Hg before after hex E. destruct (Hg before after hex E) as (i & p & Hp & Hs & Hb).
  destruct (k_payouts _ _ Hk i p Hp) as (p' & Hp' & [_ _ Hsig]). exists i, p'.
  split_and!; [done| |done]. destruct Hsig as [-> _]; [by rewrite Hs|done].
Qed.
End guarded.

Section sending.
Context `{Sh : Sha2, Sc : Secp256k1} (N : PayoutRpc) (S : Settings).
Abbreviation guarded := (guarded (onchain_status S)).
#[local] Instance logged : PayoutRpc := logging N.

Definition log_of_world (w : World) : list Event := snd (w_outside w : @outside N * list Event).

Definition sends_guarded (w w' : World) : Prop :=
  keeps (w_db w) (w_db w') /\
  exists evs, log_of_world w' = log_of_world w ++ evs /\ guarded (w_db w') evs.

#[local] Instance sends_guarded_preorder : PreOrder sends_guarded.
Proof.
  split.
  - intros w. split; [apply keeps_refl|]. exists []. split; [by rewrite app_nil_r|apply guarded_nil].
  - intros a b c [K1 (e1 & L1 & G1)] [K2 (e2 & L2 & G2)]. split; [by eapply keeps_trans|].
    exists (e1 ++ e2). rewrite L2, L1, <- app_assoc. split; [done|].
    apply guarded_app; [by eapply guarded_keeps|done].
Qed.

(** Calls that leave the log alone. *)
Definition unlogged (A : Type) (f : outside -> outside * A) : Prop :=
  forall o, snd (fst (f o) : @outside N * list Event) = snd (o : @outside N * list Event).

Lemma logged_quiet : quiet_calls unlogged.
Proof.
  split; intros; intros x; try done; cbn; unfold pass;
    match goal with |- context [let (_, _) := ?f in _] => by destruct f end.
Qed.

Lemma same_log_guarded w w' :
  keeps (w_db w) (w_db w') -> log_of_world w' = log_of_world w -> sends_guarded w w'.
Proof.
  intros Hk Hl. split; [done|]. exists []. rewrite app_nil_r. split; [done|apply guarded_nil].
Qed.

Lemma ask_unlogged {A} (f : outside -> outside * A) : unlogged A f -> sound sends_guarded (ask f).
Proof.
  intros Hf w. unfold ask. specialize (Hf (w_outside w)). destruct (f (w_outside w)) as [o a] eqn:E.
  apply same_log_guarded; [apply keeps_refl|]. unfold log_of_world. cbn in *. done.
Qed.

Lemma count_sends c : sound sends_guarded (count_ c).
Proof. intros w. apply same_log_guarded; [apply keeps_refl|done]. Qed.

Lemma step_sends (step : Tables -> Tables -> Prop) :
  (forall d d', step d d' -> wstep d d') -> related sends_guarded step.
Proof.
  intros H o d rep d' Hs. apply same_log_guarded; [|done]. cbn. by apply wstep_good, H.
Qed.

(** The send itself, and what follows the node's answer. *)
Lemma sound_send p i hex (k : BroadcastOutcome -> M unit) o1 d rep before :
  withdrawal_payouts d !! i = Some p -> p_signed_tx_hex p = Some hex ->
  (forall o, sound sends_guarded (k o)) ->
  forall w, w_db w = d -> keeps (w_db w) d ->
  (exists evs, before = log_of_world w ++ evs /\ guarded d (evs ++ [Sent hex])) ->
  sends_guarded w (fst ((outcome ← rpc (send_raw_transaction hex); k outcome)
    {| w_outside := (o1, before) : @outside logged; w_db := d; w_report := rep |})).
Proof.
  intros Hp Hs Hk w Hd Hkeep (evs & -> & Hg). unfold rpc, mbind, M_bind, ask.
  cbn [w_outside w_db w_report send_raw_transaction logged logging]. unfold noting. cbn [fst snd].
  destruct (send_raw_transaction hex o1) as [o2 r]. cbn [w_outside].
  set (w2 := {| w_outside := (o2, (log_of_world w ++ evs) ++ [Sent hex]) : @outside logged;
                w_db := d; w_report := rep |}).
  assert (sends_guarded w w2) as H2.
  { split; [done|]. exists (evs ++ [Sent hex]). split; [unfold log_of_world; cbn; by rewrite <- app_assoc|done]. }
  destruct r as [out|e]; cbn [lift map_err]; [|exact H2]. etrans; [exact H2|apply Hk].
Qed.

(** From the status question to the answer of the node. *)
Lemma sound_send_pair i p hex (k : BroadcastOutcome -> M unit) w :
  withdrawal_payouts (w_db w) !! i = Some p -> p_signed_tx_hex p = Some hex ->
  (forall o, sound sends_guarded (k o)) ->
  sends_guarded w (fst ((safe ← safe_to_broadcast S i;
                         if negb safe then mret tt else outcome ← rpc (send_raw_transaction hex); k outcome) w)).
Proof.
  intros Hp Hs Hk. destruct w as [[o log] d rep]. cbn in Hp.
  unfold safe_to_broadcast. destruct (onchain_status S) eqn:Hstatus.
  - unfold mbind, M_bind, ask at 1.
    cbn [w_outside w_db w_report is_completed logged logging]. unfold noting at 1. cbn [fst snd].
    destruct (is_completed (as_u64 i) o) as [o1 a]. cbn [w_outside].
    assert (sends_guarded {| w_outside := (o, log); w_db := d; w_report := rep |}
      {| w_outside := (o1, log ++ [Status (as_u64 i) a]) : @outside logged; w_db := d; w_report := rep |}) as H1.
    { split; [apply keeps_refl|]. eexists. split; [reflexivity|apply guarded_status]. }
    destruct a as [[]|]; cbn [mret M_ret negb]; [exact H1| |exact H1].
    eapply sound_send; [exact Hp|exact Hs|exact Hk|done|apply keeps_refl|].
    exists [Status (as_u64 i) (Ok false)]. split; [done|]. by eapply guarded_send.
  - unfold mbind at 1, M_bind at 1. cbn [mret M_ret negb fst].
    eapply sound_send; [exact Hp|exact Hs|exact Hk|done|apply keeps_refl|].
    exists []. split; [by rewrite app_nil_r|]. by eapply guarded_unasked.
Qed.

Lemma rebroadcast_sends j : sound sends_guarded (rebroadcast S j).
Proof.
  intros w. unfold rebroadcast. unfold mbind at 1, M_bind at 1, query. cbn [fst].
  unfold get_payout. destruct (withdrawal_payouts (w_db w) !! j) as [p|] eqn:Ep; [|reflexivity].
  cbn [mbind option_bind]. destruct (p_signed_tx_hex p) as [hex|] eqn:Es; [|reflexivity].
  eapply sound_send_pair; [exact Ep|exact Es|]. intros out.
  assert (sound sends_guarded (reconcile_broadcast S j) /\ sound sends_guarded (after_send S j)) as [? ?].
  { split; [eapply (sound_reconcile S _ logged_quiet sends_guarded) with (heights := any_height)
           |eapply (sound_after_send S _ logged_quiet sends_guarded) with (heights := any_height)];
      eauto using any_node_height, ask_unlogged, count_sends; apply related_kstep, step_sends, istep_wstep. }
  by destruct out.
Qed.

Lemma tick_body_sends : sound sends_guarded (tick_body S).
Proof.
  eapply (sound_tick_body S _ logged_quiet sends_guarded (fun A => ask_unlogged) count_sends any_height any_node_height (fun _ => True)).
  - apply step_sends, vstep_wstep.
  - intros j _. apply step_sends, istep_wstep.
  - intros j _. apply rebroadcast_sends.
  - intros j _. eapply (sound_sign S _ logged_quiet sends_guarded) with (heights := any_height); eauto using ask_unlogged, count_sends.
    + apply related_kstep, step_sends, istep_wstep.
    + intros o d rep hex txid at_. apply same_log_guarded; [|done]. cbn. apply wstep_good. constructor.
  - intros s f _ Hf. apply sound_for_state; [apply _|]. eauto.
Qed.

(** A history: ticks, operations of other parts of the relayer on the same
    database, and the outside changing on its own. *)
Inductive hstep : (@outside N * list Event) * Tables -> (@outside N * list Event) * Tables -> Prop :=
| h_tick o d : hstep (o, d) (fst (tick S o d))
| h_db o d d' : wstep d d' -> hstep (o, d) (o, d')
| h_outside n n' log d : hstep ((n, log), d) ((n', log), d).

Lemma history_guarded n s :
  star hstep ((n, []), empty_tables) s -> star wstep empty_tables s.2 /\ guarded s.2 s.1.2.
Proof.
  intros H. remember ((n, []), empty_tables) as s0 eqn:E. induction H as [s|s0 s1 s2 _ IH Hs].
  - subst. split; [constructor|apply guarded_nil].
  - destruct (IH E) as [Hw Hg]. clear IH E. destruct Hs as [o d|o d d' Hd|n1 n2 log d]; cbn in *.
    + split; [eapply star_trans; [exact Hw|apply (tick_steps (N := logged) S)]|]. unfold tick.
      pose proof (tick_body_sends {| w_outside := o; w_db := d; w_report := default_report |}) as Ht.
      destruct (tick_body S _) as [w r]. destruct Ht as [Hk (evs & Hl & Hge)]. cbn in *.
      unfold log_of_world in Hl. cbn in Hl. rewrite Hl. apply guarded_app; [by eapply guarded_keeps|done].
    + split; [by eapply star_step|]. eapply guarded_keeps; [by apply wstep_good|done].
    + done.
Qed.

(** C6: In any history of the withdrawal database in which executor ticks (whatever the
    node, the chain and the federation answer) alternate with any other operation on it,
    every transaction ever sent to the Goldcoin network is one a payout of the database
    durably records as signed; and when the executor has a reader of the chain attached
    (it is optional; main.rs always attaches one), the chain answered right before the
    send, for that very withdrawal, that it is not completed. *)
Theorem sends_are_recorded_and_open n s before hex after :
  star hstep ((n, []), empty_tables) s -> s.1.2 = before ++ Sent hex :: after ->
  exists i p, withdrawal_payouts s.2 !! i = Some p /\ p_signed_tx_hex p = Some hex /\
    (onchain_status S = true -> exists before', before = before' ++ [Status (as_u64 i) (Ok false)]).
Proof. intros [_ Hg]%history_guarded E. by eapply Hg. Qed.
End sending.

(** ** What is recorded as signed *)

Definition no_new_signature (d d' : Tables) : Prop :=
  forall i p', withdrawal_payouts d' !! i = Some p' -> is_Some (p_signed_tx_hex p') ->
    exists p, withdrawal_payouts d !! i = Some p /\ is_Some (p_signed_tx_hex p).

Lemma same_payouts_no_new d d' :
  withdrawal_payouts d' = withdrawal_payouts d -> no_new_signature d d'.
Proof. intros E i p' Hp Hs. exists p'. by rewrite <- E. Qed.

Lemma update_no_new d j f :
  (forall p, p_signed_tx_hex (f p) = p_signed_tx_hex p) -> no_new_signature d (update_payout d j f).
Proof.
  intros Hf i p' [(-> & p & Hp & ->)|[_ Hp]]%alter_Some Hs; [|by exists p'].
  exists p. by rewrite <- Hf.
Qed.

Lemma reserve_payouts j us at_ d : withdrawal_payouts (fst (reserve_utxos j us at_ d)) = withdrawal_payouts d.
Proof.
  unfold reserve_utxos. destruct (foldM _ _ _) as [d'|e] eqn:E; [|done]. cbn.
  eapply (foldM_invariant (fun d' => withdrawal_payouts d' = withdrawal_payouts d)); [|done|exact E].
  intros d1 u d2 H1 H2. unfold reserve_one in H2. case_match; [|done]. case_bool_decide; [|done].
  apply bind_Ok in H2 as ([] & _ & [= <-]). done.
Qed.

Lemma istep_no_new `{Sha2} heights j d d' : istep heights j d d' -> no_new_signature d d'.
Proof.
  intros [].
  - apply same_payouts_no_new. unfold transition_withdrawal. by repeat case_match.
  - apply same_payouts_no_new, reserve_payouts.
  - unfold create_payout. case_match; [by apply same_payouts_no_new|].
    case_match; [|by apply same_payouts_no_new]. intros i p'. cbn.
    destruct (decide (np_index p = i)) as [<-|]; [|rewrite lookup_insert_ne by done; eauto].
    rewrite lookup_insert_eq. intros [= <-] [? [=]].
  - by apply update_no_new.
  - by apply update_no_new.
  - unfold complete_payout. case_match; [|by apply same_payouts_no_new]. cbn.
    intros i p' Hp Hs. eapply update_no_new; [|exact Hp|exact Hs]. done.
  - apply same_payouts_no_new. unfold verify_and_load_signable_payout, halt. by repeat case_match.
Qed.

Lemma vstep_payouts d d' : vstep d d' -> withdrawal_payouts d' = withdrawal_payouts d.
Proof. intros []; try done. unfold release_reservation. by case_match. Qed.

Section signing.
Context `{Sh : Sha2, Sc : Secp256k1, N : PayoutRpc} (S : Settings).
Abbreviation vlt := (vault (config S)).

(** A payout signed with a transaction that spends every input of the vault
    under the threshold, differs from the committed one in the input scripts
    only, and whose own id is the recorded one. *)
Record properly_signed (p : PayoutRow) : Prop := {
  ps_tx : exists u t, parse_hex (t_unsigned_tx_hex (p_terms p)) = Ok u /\
    p_signed_tx_hex p = Some (serialize_hex t) /\
    p_txid p = Some (rev (Multisig.txid t)) /\
    (forall i, (i < length (inputs t))%nat -> spends t vlt i) /\
    (Multisig.version t, outputs t, lock_time t) = (Multisig.version u, outputs u, lock_time u) /\
    (fun i => (prev_txid i, prev_vout i, sequence i)) <$> inputs t =
      (fun i => (prev_txid i, prev_vout i, sequence i)) <$> inputs u
}.

Definition signs_properly (w w' : World) : Prop :=
  keeps (w_db w) (w_db w') /\
  forall i p', withdrawal_payouts (w_db w') !! i = Some p' -> is_Some (p_signed_tx_hex p') ->
    properly_signed p' \/
    exists p, withdrawal_payouts (w_db w) !! i = Some p /\ is_Some (p_signed_tx_hex p).

#[local] Instance signs_properly_preorder : PreOrder signs_properly.
Proof.
  split.
  - intros w. split; [apply keeps_refl|]. intros i p Hp Hs. right. by exists p.
  - intros a b c [K1 H1] [K2 H2]. split; [by eapply keeps_trans|].
    intros i pc Hc Hsc. destruct (H2 i pc Hc Hsc) as [?|(pb & Hb & Hsb)]; [by left|].
    destruct (H1 i pb Hb Hsb) as [[(u & t & Hu & Ht & Hrest)]|?]; [|by right].
    destruct (k_payouts _ _ K2 i pb Hb) as (p' & Hp' & [_ _ Hk]). simplify_eq.
    destruct (Hk Hsb) as (E1 & E2 & E3). left. constructor. exists u, t. by rewrite E3, E1, E2.
Qed.

Lemma no_new_signs_properly (step : Tables -> Tables -> Prop) :
  (forall d d', step d d' -> wstep d d' /\ no_new_signature d d') -> related signs_properly step.
Proof.
  intros H o d rep d' Hs. destruct (H d d' Hs) as [Hw Hn]. split; [by apply wstep_good|].
  intros i p' Hp Hsig. right. exact (Hn i p' Hp Hsig).
Qed.

Lemma istep_signs j : related signs_properly (istep any_height j).
Proof. apply no_new_signs_properly. eauto using istep_wstep, istep_no_new. Qed.

Lemma vstep_signs : related signs_properly vstep.
Proof. apply no_new_signs_properly. eauto using vstep_wstep, same_payouts_no_new, vstep_payouts. Qed.

Lemma same_db_signs w w' : w_db w' = w_db w -> signs_properly w w'.
Proof.
  intros E. unfold signs_properly. rewrite E. split; [apply keeps_refl|].
  intros i p Hp Hs. right. by exists p.
Qed.

Lemma ask_signs {A} (f : outside -> outside * A) : sound signs_properly (ask f).
Proof. intros w. apply same_db_signs. unfold ask. by destruct (f _). Qed.

Lemma count_signs c : sound signs_properly (count_ c).
Proof. intros w. by apply same_db_signs. Qed.

(** An action that leaves the tables alone, then one that starts from them. *)
Definition frames {A} (m : M A) : Prop := forall w, w_db (fst (m w)) = w_db w.

Lemma frames_ask {A} (f : outside -> outside * A) : frames (ask f).
Proof. intros w. unfold ask. by destruct (f _). Qed.

Lemma frames_rpc {A} (f : outside -> outside * result RpcError A) : frames (rpc f).
Proof.
  intros w. unfold rpc, mbind, M_bind. pose proof (frames_ask f w) as H.
  by destruct (ask f w) as [w' [r|e]].
Qed.

Lemma frames_lift {A} (r : result ExecutorError A) : frames (lift r).
Proof. done. Qed.

Lemma bind_frame {A} (m : M A) (f : A -> M unit) w :
  frames m ->
  (forall a w', m w = (w', Ok a) -> w_db w' = w_db w -> signs_properly w' (fst (f a w'))) ->
  signs_properly w (fst ((m ≫= f) w)).
Proof.
  intros Hm Hf. unfold mbind, M_bind. pose proof (Hm w) as H.
  destruct (m w) as [w' [a|e]] eqn:E; cbn in *; [|by apply same_db_signs].
  etrans; [apply same_db_signs; exact H|]. by apply Hf.
Qed.

Lemma halt_signs j reason : sound signs_properly (halt_payout j reason).
Proof.
  eapply (sound_halt _ any_calls_quiet signs_properly) with (heights := any_height); eauto using ask_signs, count_signs, related_kstep, istep_signs.
Qed.

Lemma txid_of_hex (t : Multisig.Transaction) b :
  decode_exact 32 (Multisig.txid_hex t) = Ok b -> b = rev (Multisig.txid t).
Proof.
  unfold Multisig.txid_hex. rewrite decode_exact_encode; [by intros [= <-]|].
  rewrite length_rev. apply length_sha256.
Qed.

Lemma record_signs `{Rm : Ripemd160} j s u t ps p w :
  vault_wf vlt -> parse_hex (s_unsigned_tx_hex s) = Ok u -> assemble u vlt ps = Ok t ->
  withdrawal_payouts (w_db w) !! j = Some p -> p_signed_tx_hex p = None ->
  s_unsigned_tx_hex s = t_unsigned_tx_hex (p_terms p) ->
  signs_properly w (fst (record_assembled j s t w)).
Proof.
  intros Hv Hu Ht Hp Hn Hs. unfold record_assembled.
  apply bind_frame; [apply frames_rpc|]. intros sd w1 _ E1.
  case_bool_decide as Hid; cbn [negb]; [|apply halt_signs].
  apply bind_frame; [apply frames_rpc|]. intros ud w2 _ E2.
  destruct (verify_signing_preserved_outputs ud sd); [|apply halt_signs].
  apply bind_frame; [apply frames_lift|]. intros b w3 Hb E3.
  apply bind_frame; [apply frames_ask|]. intros at_ w4 _ E4.
  assert (b = rev (Multisig.txid t)) as ->.
  { apply txid_of_hex. rewrite <- Hid. unfold Executor.decode32, lift in Hb. injection Hb as _ Hb.
    by apply map_err_Ok in Hb. }
  assert (w_db w4 = w_db w) as E by congruence. clear E1 E2 E3 E4 Hb.
  destruct (assembled_transaction_facts u vlt ps t Hv Ht) as (Hspend & Hfields & Hpoints).
  set (d' := fst (record_signed_payout j (serialize_hex t) (rev (Multisig.txid t)) at_ (w_db w4))).
  assert (signs_properly w4 {| w_outside := w_outside w4; w_db := d'; w_report := w_report w4 |}) as Hr.
  { split; [cbn; apply wstep_good; constructor|]. intros i p' Hp' Hsig. cbn in Hp'. unfold d', record_signed_payout in Hp'.
    case_bool_decide; cbn in Hp'; [right; by exists p'|].
    apply alter_Some in Hp' as [(-> & q & Hq & ->)|[_ Hq]]; [|right; by exists p'].
    rewrite E, Hp in Hq. injection Hq as <-. rewrite Hn. left. constructor. exists u, t. rewrite Hs in Hu.
    exact (conj Hu (conj eq_refl (conj eq_refl (conj Hspend (conj Hfields Hpoints))))). }
  unfold with_db, try_db, mbind, M_bind, lift. cbn.
  destruct (record_signed_payout j _ _ at_ (w_db w4)) as [d2 [r|e]]; cbn in *; exact Hr.
Qed.

Lemma sign_signs `{Rm : Ripemd160} j : vault_wf vlt -> sound signs_properly (sign S j).
Proof.
  intros Hv w. unfold sign. apply bind_frame; [apply frames_ask|]. intros at_ w1 _ _.
  unfold mbind at 1, M_bind at 1, try_db.
  destruct (verify_and_load_signable_payout j at_ (w_db w1)) as [d' [s|e]] eqn:Ev.
  - apply verify_Ok in Ev as [-> (wr & p & Hr)]. cbn [fst].
    set (w2 := {| w_outside := w_outside w1; w_db := w_db w1; w_report := w_report w1 |}).
    etrans; [apply (same_db_signs _ w2); done|].
    assert (w_db w2 = w_db w1) as E2 by done. clearbody w2.
    apply bind_frame; [apply frames_ask|]. intros t w3 _ E3.
    apply bind_frame; [apply frames_ask|]. intros obs w4 _ E4.
    case_match; [by apply same_db_signs|].
    apply bind_frame; [apply frames_ask|]. intros ep w5 _ E5.
    apply bind_frame; [apply frames_ask|]. intros ps w6 _ E6.
    case_match; [by apply same_db_signs|].
    apply bind_frame; [apply frames_lift|]. intros u w7 Hu E7.
    injection Hu as _ Hu. apply map_err_Ok in Hu.
    destruct (assemble u vlt ps) as [t'|e] eqn:Ea; [|apply halt_signs].
    destruct (pr_open _ _ _ _ _ Hr) as (_ & _ & Hn).
    apply (record_signs j s u t' ps p); [done|done|done| |done|].
    + rewrite E7, E6, E5, E4, E3, E2. apply (pr_payout _ _ _ _ _ Hr).
    + by rewrite (pr_result _ _ _ _ _ Hr) at 1.
  - cbn [fst]. etrans; [|apply count_signs].
    pose proof (istep_signs j (w_outside w1) (w_db w1) (w_report w1) _ (is_verify _ j _ at_)) as H.
    rewrite Ev in H. by destruct w1.
Qed.

Lemma tick_body_signs `{Rm : Ripemd160} : vault_wf vlt -> sound signs_properly (tick_body S).
Proof.
  intros Hv.
  eapply (sound_tick_body S _ any_calls_quiet signs_properly (fun A f _ => ask_signs f) count_signs any_height any_node_height (fun _ => True)).
  - apply vstep_signs.
  - intros j _. apply istep_signs.
  - intros j _. eapply (sound_rebroadcast S _ any_calls_quiet signs_properly) with (heights := any_height); eauto using any_node_height, ask_signs, count_signs, related_kstep, istep_signs.
  - intros j _. by apply sign_signs.
  - intros s f _ Hf. apply sound_for_state; [apply _|]. eauto.
Qed.

(** C7: What an executor tick newly records as signed always comes out of the assembly:
    the stored bytes are the serialization of a transaction that spends the vault with a
    full quorum of valid signatures on every input, and the stored txid is that
    transaction's; a payout signed before the tick keeps its bytes, txid and terms. *)
Theorem ticks_sign_vault_spends `{Rm : Ripemd160} o d i p' :
  vault_wf vlt ->
  withdrawal_payouts (tick S o d).1.2 !! i = Some p' -> is_Some (p_signed_tx_hex p') ->
  properly_signed p' \/
  exists p, withdrawal_payouts d !! i = Some p /\ p_signed_tx_hex p = p_signed_tx_hex p' /\
    p_txid p = p_txid p' /\ p_terms p = p_terms p'.
Proof.
  intros Hv Hp Hs. unfold tick in Hp.
  pose proof (tick_body_signs Hv {| w_outside := o; w_db := d; w_report := default_report |}) as [Hk H].
  destruct (tick_body S _) as [w r]. cbn in *.
  destruct (H i p' Hp Hs) as [?|(p & Hd & Hsp)]; [by left|right].
  destruct (k_payouts _ _ Hk i p Hd) as (q & Hq & [_ _ Hkk]). simplify_eq.
  destruct (Hkk Hsp) as (E1 & E2 & E3). by exists p.
Qed.
End signing.

(** ** A withdrawal left in [Building] *)

Definition is_building (i : Z) (d : Tables) : Prop :=
  w_state <$> withdrawal_requests d !! i = Some Building.

Lemma update_request_other d j f i :
  i <> j -> withdrawal_requests (update_request d j f) !! i = withdrawal_requests d !! i.
Proof. intros. cbn. by apply lookup_alter_ne. Qed.

Lemma reserve_requests j us at_ d : withdrawal_requests (fst (reserve_utxos j us at_ d)) = withdrawal_requests d.
Proof.
  unfold reserve_utxos. destruct (foldM _ _ _) as [d'|e] eqn:E; [|done]. cbn.
  eapply (foldM_invariant (fun d' => withdrawal_requests d' = withdrawal_requests d)); [|done|exact E].
  intros d1 u d2 H1 H2. unfold reserve_one in H2. case_match; [|done]. case_bool_decide; [|done].
  apply bind_Ok in H2 as ([] & _ & [= <-]). done.
Qed.

Lemma istep_other `{Sha2} heights j d d' i :
  istep heights j d d' -> i <> j -> withdrawal_requests d' !! i = withdrawal_requests d !! i.
Proof.
  intros [] Hij; try done.
  - unfold transition_withdrawal. repeat case_match; try done. by apply update_request_other.
  - by rewrite reserve_requests.
  - unfold create_payout. by repeat case_match.
  - unfold complete_payout. case_match; [|done]. cbn. by apply lookup_alter_ne.
  - unfold verify_and_load_signable_payout, halt.
    repeat case_match; try done; by apply update_request_other.
Qed.

Lemma vstep_requests d d' : vstep d d' -> withdrawal_requests d' = withdrawal_requests d.
Proof. intros []; try done. unfold release_reservation. by case_match. Qed.

Lemma by_state_index s d w :
  tables_wf d -> w ∈ withdrawals_by_state s d ->
  w_state w = s /\ withdrawal_requests d !! w_index w = Some w.
Proof.
  intros Hwf Hw. unfold withdrawals_by_state in Hw. apply list_elem_of_filter in Hw as [Hs Hw].
  split; [done|]. apply list_elem_of_fmap in Hw as ([k r] & -> & Hin). unfold by_index in Hin.
  rewrite merge_sort_Permutation in Hin. apply elem_of_map_to_list in Hin. cbn.
  by rewrite (tw_keyed _ Hwf k r Hin).
Qed.

Section building.
Context `{Sh : Sha2, Sc : Secp256k1, N : PayoutRpc} (S : Settings) (i : Z).

Definition left_building (d : Tables) : Prop := tables_wf d /\ is_building i d.
Definition stays_building (w w' : World) : Prop :=
  left_building (w_db w) -> left_building (w_db w').
#[local] Instance stays_building_preorder : PreOrder stays_building.
Proof. split; [intros w H; exact H|]. intros a b c H1 H2 H. exact (H2 (H1 H)). Qed.

Lemma ask_building {A} (f : outside -> outside * A) : sound stays_building (ask f).
Proof. intros w. unfold ask, stays_building. destruct (f _). intros H. exact H. Qed.

Lemma count_building c : sound stays_building (count_ c).
Proof. intros w H. exact H. Qed.

Lemma istep_building j : i <> j -> related stays_building (istep any_height j).
Proof.
  intros Hij o d rep d' Hs [Hwf Hb]. cbn in *. split.
  - by eapply wstep_good; [eapply istep_wstep|].
  - unfold is_building. by rewrite (istep_other _ j d d' i Hs Hij).
Qed.

Lemma for_state_building s f :
  s <> Building -> (forall j, i <> j -> sound stays_building (f j)) -> sound stays_building (for_state s f).
Proof.
  intros Hs Hf w Hl. unfold for_state, mbind, M_bind, query.
  revert Hl. fold (stays_building w (fst (iterM (fun w => f (w_index w)) (withdrawals_by_state s (w_db w)) w))).
  assert (forall l, (left_building (w_db w) -> Forall (fun r => i <> w_index r) l) ->
    forall w0, (left_building (w_db w0) -> left_building (w_db w)) ->
      stays_building w0 (fst (iterM (fun r => f (w_index r)) l w0))) as H.
  { intros l Hall w0 Hw0 Hl. specialize (Hall (Hw0 Hl)). revert Hl. clear Hw0.
    change (stays_building w0 (fst (iterM (fun r => f (w_index r)) l w0))).
    apply sound_iterM; [apply _|]. intros r Hr. apply Hf. rewrite Forall_forall in Hall. by apply Hall. }
  apply H; [|done]. intros [Hwf Hb]. apply Forall_forall. intros r Hr ->.
  destruct (by_state_index s _ r Hwf Hr) as [Hst Hlk]. unfold is_building in Hb.
  rewrite Hlk in Hb. cbn in Hb. congruence.
Qed.

Lemma tick_body_building : sound stays_building (tick_body S).
Proof.
  eapply (sound_tick_body S _ any_calls_quiet stays_building (fun A f _ => ask_building f) count_building any_height any_node_height (fun j => i <> j)).
  - intros o d rep d' Hs [Hwf Hb]. cbn in *. split.
    + by eapply wstep_good; [eapply vstep_wstep|].
    + unfold is_building. by rewrite (vstep_requests d d' Hs).
  - intros j Hj. by apply istep_building.
  - intros j Hj. eapply (sound_rebroadcast S _ any_calls_quiet stays_building) with (heights := any_height); eauto using any_node_height, ask_building, count_building, related_kstep, istep_building.
  - intros j Hj. eapply (sound_sign S _ any_calls_quiet stays_building) with (heights := any_height); eauto using ask_building, count_building, related_kstep, istep_building.
    intros o d rep hex txid at_ [Hwf Hb]. cbn in *. split.
    + by eapply wstep_good; [constructor|].
    + unfold is_building, record_signed_payout. case_match; [done|]. cbn. by rewrite lookup_alter_ne.
  - intros s f Hs Hf. by apply for_state_building.
Qed.

(** A withdrawal left in Building (a crash between two writes of the builder) stays
    in Building after any number of executor ticks, whatever the outside answers: the
    recovery branch of build is never reached. *)
Theorem building_is_never_left (os : list outside) d :
  star wstep empty_tables d -> is_building i d ->
  is_building i (foldl (fun d o => (tick S o d).1.2) d os).
Proof.
  intros Hd Hb. assert (left_building d) as Hl.
  { split; [|done]. eapply wsteps_good; [exact Hd|apply empty_tables_wf]. }
  clear Hd Hb. revert d Hl. induction os as [|o os IH]; intros d Hl; cbn [foldl]; [apply Hl|].
  apply IH. pose proof (tick_body_building {| w_outside := o; w_db := d; w_report := default_report |} Hl) as H.
  unfold tick. by destruct (tick_body S _).
Qed.
End building.
