(* ===== verification/ExecutorScenario.v ===== *)
(** * A withdrawal from request to confirmation

    An honest outside for evaluation: a node that builds, decodes and
    confirms what it is asked, three signers with stand-in signatures, and a
    clock that is the outside state itself.  The witnesses of the executor's
    theorems run it.  Then outputs a listing misses, and what becomes of them. *)
From Stdlib Require Import ZArith Lia Strings.Byte.
From stdpp Require Import base numbers strings gmap list sorting.
From S2P Require Import Address.
From S2P Require Import Coin Builder Assignment Epoch.
From S2P Require Import Prelude Hex Rpc DepositDb WithdrawalDb WithdrawalDbProps.
From S2P Require Import Vault Multisig WithdrawalConfig Executor ExecutorProps.

#[local] Existing Instance toy_sha2.
#[local] Existing Instance toy_ripemd.
#[local] Existing Instance toy_secp.

Definition script_of_address (a : str) : list byte :=
  match decode_p2pkh_hash160 a, decode_p2sh_hash160 a with
  | Ok h, _ => [x76; xa9; x14] ++ h ++ [x88; xac]
  | _, Ok h => [xa9; x14] ++ h ++ [x87]
  | _, _ => []
  end.

Definition node_create (ins outs : list (str * Z)) : str :=
  serialize_hex
    {| version := 2; lock_time := 0;
       inputs := (fun i => {| prev_txid := rev (match decode_exact 32 i.1 with Ok b => b | Err _ => [] end);
                              prev_vout := i.2; script_sig := []; sequence := 0xffffffff |}) <$> ins;
       outputs := (fun o => {| value := o.2; script_pubkey := script_of_address o.1 |}) <$> outs |}.

Definition node_decode (h : str) : result RpcError DecodedTx :=
  match parse_hex h with
  | Ok t =>
      Ok {| tx_txid_hex := Multisig.txid_hex t;
            tx_inputs := (fun i => {| in_txid_hex := encode (rev (prev_txid i)); in_vout := prev_vout i |})
                           <$> inputs t;
            tx_outputs := (fun o => {| value_atomic := value o; Builder.script_pubkey_hex := encode (script_pubkey o) |})
                           <$> outputs t |}
  | Err _ => Err (Method (-22) (lit "TX decode failed"))
  end.

Definition toy_signature (u : Multisig.Transaction) (v : MultisigVault) (k : pubkey) (i : nat) : list byte :=
  take 4 (drop 1 k) ++ take 4 (sighash_all u i (redeem_script v)) ++ [x01].

Definition sign_all (u : str) (quorum : list byte) : list PartialSignature :=
  match parse_hex u with
  | Ok t => (fun q => let k := default [] (signer_pubkeys demo_vault !! Z.to_nat (byte_to_Z q)) in
                      {| vault_pubkey := k;
                         signatures := toy_signature t demo_vault k <$> seq 0 (length (inputs t)) |}) <$> quorum
  | Err _ => []
  end.

Definition demo_coin_observed : ObservedUtxo :=
  {| o_txid := replicate 32 x07; o_vout := 1; o_amount := 1000000;
     o_script := Vault.script_pubkey_hex demo_vault; o_confirmations := 9 |}.

(** The clock is the state; transactions are mined from time 2000 on. *)
Definition demo_rpc : PayoutRpc :=
  {| outside := Z;
     now_unix o := (o, o);
     list_unspent _ _ o := (o, Ok [demo_coin_observed]);
     create_raw_transaction ins outs o := (o, Ok (node_create ins outs));
     decode_raw_transaction h o := (o, node_decode h);
     send_raw_transaction h o := (o, Ok (Accepted h));
     transaction_confirmations t o :=
       (o, Ok (Some {| confirmations := if o <? 2000 then 0 else 6; block_hash_hex := None;
                       block_height := None |}));
     block_on_main_chain b o := (o, Ok true);
     is_completed i o := (o, Ok false);
     collect_payout_partials e i a int u q o := (o, sign_all u q);
     epoch_observation o := {| epoch := 1; observed_at := o |} |}.

(** The same with a node that is down when asked to build. *)
Definition failing_rpc : PayoutRpc :=
  {| outside := Z; now_unix := @now_unix demo_rpc; list_unspent := @list_unspent demo_rpc;
     create_raw_transaction _ _ o := (o, Err (Transport (lit "connection refused")));
     decode_raw_transaction := @decode_raw_transaction demo_rpc;
     send_raw_transaction := @send_raw_transaction demo_rpc;
     transaction_confirmations := @transaction_confirmations demo_rpc;
     block_on_main_chain := @block_on_main_chain demo_rpc; is_completed := @is_completed demo_rpc;
     collect_payout_partials := @collect_payout_partials demo_rpc;
     epoch_observation := @epoch_observation demo_rpc |}.

Definition demo_settings : Settings :=
  {| config :=
       {| vault := demo_vault; vault_address := address demo_vault;
          vault_hash160 := script_hash160 demo_vault; change_address := address demo_vault;
          change_hash160 := script_hash160 demo_vault; fee_rate_per_kb := 1000;
          dust_threshold_atomic := 1000; vault_min_confirmations := 6; confirmation_depth := 6;
          max_inputs_per_payout := 5; reservation_timeout_secs := 600; poll_interval_ms := 1000 |};
     assignment := Some {| index := 1; count := 3; build_timeout_secs := 600; submit_timeout_secs := 60 |};
     onchain_status := true |}.

(** A request of 50000 that every operator sees as number 7. *)
Definition demo_withdrawal : NewWithdrawalRequest :=
  {| nw_index := 7; nw_pda := replicate 32 x0a; nw_amount := 50000;
     nw_requester := replicate 32 x0b; nw_address := encode_p2pkh (replicate 20 xaa);
     nw_hash160 := replicate 20 xaa; nw_slot := 9; nw_version := 1; nw_observed_at := 1000;
     nw_observed_at_slot := 9 |}.

Definition requested : Tables := fst (observe_withdrawal demo_withdrawal empty_tables).
Definition demo_tick (o : Z) (d : Tables) : Tables := (@tick _ _ demo_rpc demo_settings o d).1.2.

Definition state_of (d : Tables) : option WithdrawalState := w_state <$> withdrawal_requests d !! 7.

Definition demo_signed_hex : str :=
  default [] (withdrawal_payouts (demo_tick 1100 requested) !! 7 ≫= p_signed_tx_hex).

(** One tick takes the request to the chain, the next to completion. *)
Example two_ticks_complete :
  state_of (demo_tick 1100 requested) = Some Confirming /\
  state_of (demo_tick 2100 (demo_tick 1100 requested)) = Some Completed /\
  (l_to <$> withdrawal_state_log (demo_tick 2100 (demo_tick 1100 requested))) =
    [Observed; Validated; Building; Signing; Broadcast; Confirming; Completed].
Proof. vm_compute. by split_and!. Qed.

Lemma requested_steps : star wstep empty_tables requested.
Proof. eapply star_step; [constructor|constructor]. Qed.

Lemma tick_keeps_the_database_witness :
  tables_wf (demo_tick 1100 requested) /\ state_of (demo_tick 1100 requested) = Some Confirming.
Proof.
  split; [|vm_compute; reflexivity].
  destruct (@tick_keeps_the_database _ _ demo_rpc demo_settings 1100 requested requested_steps) as (_ & H & _).
  exact H.
Defined.

Definition demo_logged : (Z * list Event) * Tables :=
  fst (@tick _ _ (logged demo_rpc) demo_settings (1100, []) requested).

Lemma demo_history : star (hstep demo_rpc demo_settings) ((1100, []), empty_tables) demo_logged.
Proof.
  refine (star_step _ _ ((1100, []), requested) _ _ (h_tick demo_rpc demo_settings (1100, []) requested)).
  eapply star_step; [constructor|]. apply h_db. constructor.
Qed.

Lemma sends_are_recorded_and_open_witness :
  exists i p, withdrawal_payouts demo_logged.2 !! i = Some p /\ p_signed_tx_hex p = Some demo_signed_hex /\
    exists before', [Status 7 (Ok false)] = before' ++ [Status (as_u64 i) (Ok false)].
Proof.
  destruct (@sends_are_recorded_and_open _ _ demo_rpc demo_settings 1100 demo_logged
              [Status 7 (Ok false)] demo_signed_hex []) as (i & p & Hp & Hs & Ho).
  - exact demo_history.
  - vm_compute. reflexivity.
  - exists i, p. split; [exact Hp|]. split; [exact Hs|exact (Ho eq_refl)].
Defined.

Lemma ticks_sign_vault_spends_witness :
  exists p, withdrawal_payouts (demo_tick 1100 requested) !! 7 = Some p /\ properly_signed demo_settings p.
Proof.
  destruct (withdrawal_payouts (demo_tick 1100 requested) !! 7) as [p|] eqn:E.
  2: { vm_compute in E. discriminate E. }
  exists p. split; [reflexivity|]. pose proof E as E'. unfold demo_tick in E'.
  destruct (@ticks_sign_vault_spends _ _ demo_rpc demo_settings _ 1100 requested 7 p demo_vault_wf E') as [H|(q & Hq & _)].
  - vm_compute in E. injection E as <-. by eexists.
  - exact H.
  - vm_compute in Hq. discriminate Hq.
Defined.

(** The node fails once, between the reservation and the payout. *)
Definition interrupted : Tables := (@tick _ _ failing_rpc demo_settings 1100 requested).1.2.

Lemma interrupted_steps : star wstep empty_tables interrupted.
Proof. eapply star_trans; [exact requested_steps|apply (@tick_steps _ _ failing_rpc)]. Qed.

Definition demo_ticks (os : list Z) (d : Tables) : Tables :=
  foldl (fun d o => (@tick _ _ demo_rpc demo_settings o d).1.2) d os.

Lemma building_is_never_left_witness :
  is_building 7 interrupted /\ reserved_utxos 7 interrupted <> [] /\
  is_building 7 (demo_ticks [1200; 1900; 2600] interrupted) /\
  reserved_utxos 7 (demo_ticks [1200; 1900; 2600] interrupted) = [].
Proof.
  assert (is_building 7 interrupted) as H by (vm_compute; reflexivity).
  split; [exact H|]. split; [vm_compute; discriminate|]. split; [|vm_compute; reflexivity].
  pose proof (@building_is_never_left _ _ demo_rpc demo_settings 7 [1200; 1900; 2600] interrupted
                interrupted_steps H) as Hb.
  unfold demo_ticks. exact Hb.
Defined.

(** * What becomes of a vault output

    [Spent] is the end of a row of [vault_utxos]: no operation of
    [glc/withdrawal_db.rs] leaves it.  The executor writes it both for
    outputs a completed payout spent and for outputs the node did not list
    at one tick, so an output that is missing once is lost to the payouts,
    although the node reports it again. *)

(** ** Spent for good *)

Definition is_spent (k : Outpoint) (m : gmap Outpoint UtxoRow) : Prop :=
  exists r, m !! k = Some r /\ r_state r = Spent.

Lemma sync_spent k obs minconf at_ d :
  is_spent k (vault_utxos d) -> is_spent k (vault_utxos (sync_vault_utxos obs minconf at_ d)).
Proof.
  cbn. generalize (vault_utxos d). induction obs as [|u obs IH]; intros m Hm; [done|]. cbn. apply IH.
  destruct Hm as (r & Hr & Hs). destruct (decide ((o_txid u, o_vout u) = k)) as [<-|].
  - eexists. rewrite lookup_partial_alter_eq. split; [done|]. rewrite Hr. cbn. by rewrite Hs.
  - exists r. by rewrite lookup_partial_alter_ne.
Qed.

Lemma fmap_spent k (f : UtxoRow -> UtxoRow) m :
  (forall r, r_state r = Spent -> r_state (f r) = Spent) -> is_spent k m -> is_spent k (f <$> m).
Proof. intros Hf (r & Hr & Hs). exists (f r). rewrite lookup_fmap, Hr. split; [done|by apply Hf]. Qed.

Lemma wstep_spent `{Sha2} k d d' : wstep d d' -> is_spent k (vault_utxos d) -> is_spent k (vault_utxos d').
Proof.
  intros [] Hk; try exact Hk.
  - unfold observe_withdrawal. by case_bool_decide.
  - unfold transition_withdrawal. by repeat case_match.
  - by apply sync_spent.
  - destruct Hk as (r & Hr & Hs). unfold is_spent. cbn. setoid_rewrite map_lookup_imap. rewrite Hr. cbn.
    eexists. split; [done|]. by case_match.
  - unfold reserve_utxos. destruct (foldM _ _ _) as [d1|e] eqn:E; [|done]. cbn.
    eapply (foldM_invariant (fun d => is_spent k (vault_utxos d))); [|exact Hk|exact E].
    intros d1' u d2 (r & Hr & Hs). unfold reserve_one. destruct (vault_utxos d1' !! (u_txid u, u_vout u)) as [r0|] eqn:E0; [|done].
    case_bool_decide as Ha; [|done]. intros ([] & _ & [= <-])%bind_Ok.
    exists r. split; [|done]. cbn. rewrite lookup_insert_ne; [done|]. intros <-. congruence.
  - unfold release_reservation. case_bool_decide; [done|]. cbn. apply fmap_spent; [|done].
    intros r Hs. case_match eqn:Eh; [|done]. unfold held_by in Eh. apply bool_decide_eq_true in Eh as []. congruence.
  - unfold create_payout. by repeat case_match.
  - unfold record_signed_payout. by case_match.
  - unfold complete_payout. case_match; [|done]. cbn. apply fmap_spent; [|done].
    intros r Hs. unfold spend_reserved. by case_match.
  - unfold reassign_payout_quorum. by repeat case_match.
  - unfold operator_clear_withdrawal_halt. by repeat case_match.
  - unfold verify_and_load_signable_payout, halt. by repeat case_match.
Qed.

Lemma wsteps_spent `{Sha2} k d d' : star wstep d d' -> is_spent k (vault_utxos d) -> is_spent k (vault_utxos d').
Proof. induction 1; eauto using wstep_spent. Qed.

Lemma spent_not_available k d minconf u :
  is_spent k (vault_utxos d) -> u ∈ available_utxos minconf d -> (u_txid u, u_vout u) <> k.
Proof.
  intros (r & Hr & Hs) Hu <-. unfold available_utxos in Hu. rewrite merge_sort_Permutation in Hu.
  apply list_elem_of_fmap in Hu as ([[t v] r'] & -> & Hin). apply list_elem_of_filter in Hin as [[Ha _] Hin].
  apply elem_of_map_to_list in Hin. cbn in *. congruence.
Qed.

(** ** One look at the node *)

Section sync.
Context `{Sh : Sha2, Sc : Secp256k1, N : PayoutRpc} (S : Settings).
Abbreviation cfg := (config S).

(** An output no listed output of its transaction speaks for. *)
Lemma unlisted_is_spent k r obs minconf at_ d :
  vault_utxos d !! k = Some r -> r_state r <> Reserved -> k.1 ∉ (o_txid <$> obs) ->
  is_spent k (vault_utxos (mark_missing_utxos_spent (o_txid <$> obs) (sync_vault_utxos obs minconf at_ d)).1).
Proof.
  intros Hr Hn Hk. assert (vault_utxos (sync_vault_utxos obs minconf at_ d) !! k = Some r) as Hr'.
  { cbn. revert Hr Hk. generalize (vault_utxos d). induction obs as [|u obs IH]; intros m Hr Hk; [done|]. cbn.
    cbn in Hk. apply not_elem_of_cons in Hk as [Hku Hk]. apply IH; [|done].
    rewrite lookup_partial_alter_ne; [done|]. intros <-. by apply Hku. }
  unfold is_spent, mark_missing_utxos_spent. cbn [fst vault_utxos put_utxos]. setoid_rewrite map_lookup_imap.
  rewrite Hr'. cbn. eexists. split; [done|]. unfold missing.
  destruct (decide (r_state r = Spent)) as [Hs|Hs]; [by case_match|].
  rewrite bool_decide_true; [done|]. split; [destruct (r_state r); naive_solver|].
  intros (t & He & Ht)%list_elem_of_fmap. apply encode_inj in He. by rewrite He in Hk.
Qed.

(** C24: When one listing of the vault lacks every output of a transaction, for instance
    because a reorganisation took it below the confirmation floor for a moment, the
    outputs it knew and had not reserved are marked spent, and in every later state of
    the database, under any further operations and listings, none of them is offered to
    coin selection again. *)
Theorem missed_output_is_never_spent_again k r obs w d' minconf u :
  (list_unspent (vault_min_confirmations cfg) [vault_address cfg] (w_outside w)).2 = Ok obs ->
  vault_utxos (w_db w) !! k = Some r -> r_state r <> Reserved -> k.1 ∉ (o_txid <$> obs) ->
  star wstep (w_db (sync_vault S w).1) d' ->
  u ∈ available_utxos minconf d' -> (u_txid u, u_vout u) <> k.
Proof.
  intros Ho Hr Hn Hk Hd'. apply spent_not_available. apply (wsteps_spent k _ _ Hd').
  unfold sync_vault, rpc, ask, lift, now, ask, put_db, with_db, try_db, mbind, M_bind.
  destruct (list_unspent _ _ (w_outside w)) as [o1 res]. cbn in Ho. subst res. cbn.
  destruct (now_unix o1) as [o2 t]. cbn. by eapply unlisted_is_spent.
Qed.
End sync.

(** ** A reorganisation of one block *)

(** The vault's output had just the confirmations the executor asks for; one
    block is replaced, and the node lists it again a tick later. *)
Definition briefly_unlisted : PayoutRpc :=
  {| outside := Z; now_unix := @now_unix demo_rpc;
     list_unspent _ _ o := (o, Ok (if o =? 1100 then [] else [demo_coin_observed]));
     create_raw_transaction := @create_raw_transaction demo_rpc;
     decode_raw_transaction := @decode_raw_transaction demo_rpc;
     send_raw_transaction := @send_raw_transaction demo_rpc;
     transaction_confirmations := @transaction_confirmations demo_rpc;
     block_on_main_chain := @block_on_main_chain demo_rpc; is_completed := @is_completed demo_rpc;
     collect_payout_partials := @collect_payout_partials demo_rpc;
     epoch_observation := @epoch_observation demo_rpc |}.

#[local] Existing Instance toy_sha2.
#[local] Existing Instance toy_ripemd.
#[local] Existing Instance toy_secp.

Definition seen : Tables := sync_vault_utxos [demo_coin_observed] 6 1000 requested.
Definition ticked (N : PayoutRpc) (o : @outside N) (d : Tables) : Tables := (@tick _ _ N demo_settings o d).1.2.

Definition missed_once : Tables :=
  w_db (@sync_vault briefly_unlisted demo_settings
    {| w_outside := 1100 : @outside briefly_unlisted; w_db := seen; w_report := default_report |}).1.

Lemma missed_output_is_never_spent_again_witness :
  Forall (fun u => (u_txid u, u_vout u) <> (replicate 32 x07, 1))
    (available_utxos 6 (ticked briefly_unlisted (1200 : @outside briefly_unlisted) missed_once)).
Proof.
  apply Forall_forall. intros u.
  apply (@missed_output_is_never_spent_again _ briefly_unlisted demo_settings (replicate 32 x07, 1)
    (observed_row 6 1000 demo_coin_observed None) []
    {| w_outside := 1100 : @outside briefly_unlisted; w_db := seen; w_report := default_report |}).
  - vm_compute. reflexivity.
  - vm_compute. reflexivity.
  - discriminate.
  - apply not_elem_of_nil.
  - apply tick_steps.
Defined.

(** The withdrawal then waits for funds, with the money in the vault. *)
Example funds_are_missing :
  let d := ticked briefly_unlisted (1200 : @outside briefly_unlisted)
             (ticked briefly_unlisted (1100 : @outside briefly_unlisted) seen) in
  state_of d = Some AwaitingFunds /\
  state_of (ticked demo_rpc (1200 : @outside demo_rpc) (ticked demo_rpc (1100 : @outside demo_rpc) seen)) = Some Confirming.
Proof. vm_compute. by split. Qed.
