(* ===== verification/Accounts.v ===== *)
(** * Account data: [solana/rpc.rs], the layouts of [state.rs]

    What Anchor writes for the accounts of [State] (an eight-byte
    discriminator and the Borsh encoding of the fields in order; whatever the
    account held further on stays) and the decoders the relayer reads them
    back with.  [layout] is the one lemma that relates them: a decoder that
    reads consecutive ranges reads consecutive fields. *)
From Stdlib Require Import ZArith Lia Strings.Byte.
From stdpp Require Import base numbers strings gmap list.
From S2P Require Import Prelude Messages State Hex.

(** ** Borsh *)

Definition borsh_bool (b : bool) : list byte := [if b then x01 else x00].
Definition borsh_option {A} (f : A -> list byte) (o : option A) : list byte :=
  match o with None => [x00] | Some a => x01 :: f a end.
(** A [Vec] or [String]: [u32] length, then the elements. *)
Definition borsh_vec {A} (f : A -> list byte) (l : list A) : list byte :=
  le_bytes 4 (Z.of_nat (length l)) ++ concat (f <$> l).
Definition borsh_bytes (l : list byte) : list byte := le_bytes 4 (Z.of_nat (length l)) ++ l.

(** The fields in the order of the struct. *)
Definition config_fields (c : BridgeConfig) : list (list byte) :=
  [le_bytes 1 (protocol_version c); admin c; borsh_option id (pending_admin c);
   borsh_bool (paused c); le_bytes 8 (withdrawal_count c); le_bytes 8 (min_deposit c);
   le_bytes 8 (min_withdrawal c); le_bytes 1 (config_bump c); wrapped_mint c;
   le_bytes 1 (mint_authority_bump c); le_bytes 8 (governance_timelock_seconds c);
   le_bytes 8 (max_wrapped_supply c); config_reserved c].

Definition set_fields (s : ValidatorSet) : list (list byte) :=
  [le_bytes 8 (epoch s); le_bytes 1 (threshold s); le_bytes 1 (set_bump s);
   borsh_vec id (validators s); set_reserved s].

Definition action_fields (p : PendingGovernanceAction) : list (list byte) :=
  [le_bytes 1 (action p); le_bytes 8 (proposed_under_epoch p); le_bytes 8 (eta p);
   le_bytes 1 (proposed_threshold p); borsh_vec id (proposed_validators p);
   le_bytes 1 (action_bump p); le_bytes 8 (proposed_max_wrapped_supply p); action_reserved p].

Definition claim_fields (d : DepositClaim) : list (list byte) :=
  [claim_txid d; le_bytes 4 (claim_vout d); le_bytes 8 (claim_amount d); claim_recipient d;
   le_bytes 8 (claim_epoch d); le_bytes 1 (claim_protocol_version d);
   le_bytes 8 (slot_created d); le_bytes 1 (claim_bump d); claim_reserved d].

Definition status_tag_of (s : WithdrawalStatus) : Z :=
  match s with Pending => 0 | Broadcast => 1 | Completed => 2 end.

Definition request_fields (w : WithdrawalRequest) : list (list byte) :=
  [le_bytes 8 (index w); le_bytes 8 (wr_amount w); requester w; glc_address w;
   le_bytes 1 (glc_address_len w); le_bytes 1 (status_tag_of (status w));
   le_bytes 8 (requested_at_slot w); le_bytes 1 (wr_protocol_version w);
   le_bytes 1 (wr_bump w); wr_reserved w].

(** The account's data: the discriminator, the fields, and what the buffer
    of [SPACE] bytes held beyond them. *)
Definition account_data (disc : list byte) (fields : list (list byte)) (beyond : list byte)
  : list byte := disc ++ concat fields ++ beyond.

(** ** The decoders *)

Inductive SolanaRpcError :=
| Transport (msg : str)
| Method (msg : str)
| Malformed (what : str).

Definition is_retriable (e : SolanaRpcError) : bool :=
  match e with Transport _ => true | _ => false end.

Definition DISCRIMINATOR_LEN : nat := 8.

(** [data.get(a..)] *)
Definition get_from (d : list byte) (a : nat) : option (list byte) := get_range d a (length d).

Definition field (d : list byte) (a b : nat) (what : str) : result SolanaRpcError (list byte) :=
  ok_or (get_range d a b) (Malformed what).
Definition byte_field (d : list byte) (a : nat) (what : str) : result SolanaRpcError Z :=
  let* b := ok_or (d !! a) (Malformed what) in Ok (byte_to_Z b).

Definition account_body (data : list byte) : result SolanaRpcError (list byte) :=
  ok_or (get_from data DISCRIMINATOR_LEN) (Malformed (lit "account shorter than discriminator")).

(** [for _ in 0..vec_len { push(body.get(offset..offset + 32)?); offset += 32 }] *)
Fixpoint decode_keys (n : nat) (body : list byte) (offset : nat) (what : str)
  : result SolanaRpcError (list Pubkey) :=
  match n with
  | O => Ok []
  | S n =>
      let* pk := field body offset (offset + 32) what in
      let* pks := decode_keys n body (offset + 32) what in
      Ok (pk :: pks)
  end.

Record ValidatorSetSnapshot := {
  vs_epoch : Z; vs_threshold : Z; vs_validators : list Pubkey
}.

Definition decode_validator_set (data : list byte) : result SolanaRpcError ValidatorSetSnapshot :=
  let* body := account_body data in
  let* epoch := field body 0 8 (lit "missing epoch") in
  let* threshold := byte_field body 8 (lit "missing threshold") in
  let* vec_len := field body 10 14 (lit "missing validators length") in
  let* validators :=
    decode_keys (Z.to_nat (le_val vec_len)) body 14 (lit "truncated validators list") in
  Ok {| vs_epoch := le_val epoch; vs_threshold := threshold; vs_validators := validators |}.

Record BridgeConfigSnapshot := {
  bc_protocol_version : Z;
  bc_admin : Pubkey;
  bc_pending_admin : option Pubkey;
  bc_paused : bool;
  bc_withdrawal_count : Z;
  bc_min_deposit : Z;
  bc_min_withdrawal : Z;
  bc_wrapped_mint : Pubkey;
  bc_governance_timelock_seconds : Z;
  bc_max_wrapped_supply : Z
}.

Definition mint_is_configured (c : BridgeConfigSnapshot) : bool :=
  negb (bool_decide (bc_wrapped_mint c = default_pubkey)).

(** The option tag, the value and the offset after it. *)
Definition decode_pending_admin (body : list byte)
  : result SolanaRpcError (option Pubkey * nat) :=
  let* tag := byte_field body 33 (lit "bridge config: missing pending admin tag") in
  if tag =? 0 then Ok (None, 34%nat)
  else if tag =? 1 then
    let* pk := field body 34 66 (lit "bridge config: missing pending admin") in
    Ok (Some pk, 66%nat)
  else Err (Malformed (lit "bridge config: pending_admin has an invalid Borsh option tag " ++ display tag)).

Definition decode_bridge_config (data : list byte) : result SolanaRpcError BridgeConfigSnapshot :=
  let* body := account_body data in
  let* version := byte_field body 0 (lit "bridge config: missing protocol version") in
  let* admin := field body 1 33 (lit "bridge config: missing admin") in
  let* (pending_admin, off) := decode_pending_admin body in
  let* paused := byte_field body off (lit "bridge config: missing paused") in
  let off := (off + 1)%nat in
  let* withdrawal_count := field body off (off + 8) (lit "bridge config: missing withdrawal count") in
  let off := (off + 8)%nat in
  let* min_deposit := field body off (off + 8) (lit "bridge config: missing min deposit") in
  let off := (off + 8)%nat in
  let* min_withdrawal := field body off (off + 8) (lit "bridge config: missing min withdrawal") in
  let off := (off + 8 + 1)%nat in
  let* wrapped_mint := field body off (off + 32) (lit "bridge config: missing wrapped mint") in
  let off := (off + 32 + 1)%nat in
  let* timelock := field body off (off + 8) (lit "bridge config: missing governance timelock") in
  let off := (off + 8)%nat in
  let* cap := field body off (off + 8) (lit "bridge config: missing max wrapped supply") in
  Ok {| bc_protocol_version := version; bc_admin := admin; bc_pending_admin := pending_admin;
        bc_paused := negb (paused =? 0); bc_withdrawal_count := le_val withdrawal_count;
        bc_min_deposit := le_val min_deposit; bc_min_withdrawal := le_val min_withdrawal;
        bc_wrapped_mint := wrapped_mint;
        bc_governance_timelock_seconds := wrap_i64 (le_val timelock);
        bc_max_wrapped_supply := le_val cap |}.

Record PendingActionSnapshot := {
  pa_action : Z;
  pa_proposed_under_epoch : Z;
  pa_eta : Z;
  pa_threshold : Z;
  pa_validators : list Pubkey;
  pa_proposed_max_wrapped_supply : Z
}.

Definition decode_pending_action (data : list byte)
  : result SolanaRpcError PendingActionSnapshot :=
  let* body := account_body data in
  let* action := byte_field body 0 (lit "pending action: missing action") in
  let* proposed_under_epoch := field body 1 9 (lit "pending action: missing epoch") in
  let* eta := field body 9 17 (lit "pending action: missing eta") in
  let* threshold := byte_field body 17 (lit "pending action: missing threshold") in
  let* vec_len := field body 18 22 (lit "pending action: missing validators length") in
  let n := Z.to_nat (le_val vec_len) in
  let* validators := decode_keys n body 22 (lit "pending action: missing a validator") in
  let offset := (22 + 32 * n + 1)%nat in
  let* cap := field body offset (offset + 8)
                (lit "pending action: missing proposed max wrapped supply") in
  Ok {| pa_action := action; pa_proposed_under_epoch := le_val proposed_under_epoch;
        pa_eta := wrap_i64 (le_val eta); pa_threshold := threshold; pa_validators := validators;
        pa_proposed_max_wrapped_supply := le_val cap |}.

Definition TOKEN_ACCOUNT_AMOUNT_OFFSET : nat := 64.
Definition token_account_amount (data : list byte) : option Z :=
  le_val <$> get_range data TOKEN_ACCOUNT_AMOUNT_OFFSET (TOKEN_ACCOUNT_AMOUNT_OFFSET + 8).

(** ** Reading consecutive fields *)

Lemma get_field fs rest k x a b :
  fs !! k = Some x -> a = length (concat (take k fs)) -> b = (a + length x)%nat ->
  get_range (concat fs ++ rest) a b = Some x.
Proof.
  intros Hk -> ->. rewrite <- (take_drop_middle fs k x Hk) at 1.
  rewrite concat_app. cbn [concat]. rewrite <- !app_assoc. by apply get_range_app.
Qed.

Lemma get_byte_field (fs : list (list byte)) rest k (c : byte) a :
  fs !! k = Some [c] -> a = length (concat (take k fs)) -> (concat fs ++ rest) !! a = Some c.
Proof.
  intros Hk Ha. rewrite <- (take_drop_middle fs k [c] Hk), concat_app. cbn [concat].
  rewrite <- !app_assoc, lookup_app_r, Ha, Nat.sub_diag by (by rewrite Ha). done.
Qed.

(** Any buffer long enough is a sequence of fields of given lengths. *)
Lemma cut_fields ns (d : list byte) :
  (sum_list ns <= length d)%nat ->
  exists fs rest, d = concat fs ++ rest /\ length <$> fs = ns.
Proof.
  revert d. induction ns as [|n ns IH]; intros d Hd; [by exists [], d|].
  cbn in Hd. destruct (IH (drop n d)) as (fs & rest & E & Hl); [rewrite length_drop; lia|].
  exists (take n d :: fs), rest. cbn. rewrite <- app_assoc, <- E, take_drop, Hl.
  split; [done|]. f_equal. rewrite length_take. lia.
Qed.

Lemma account_body_Ok data body :
  account_body data = Ok body <-> exists disc, length disc = DISCRIMINATOR_LEN /\ data = disc ++ body.
Proof.
  unfold account_body, get_from. rewrite ok_or_Ok, get_range_Some. split.
  - intros (H & _ & ->). exists (take DISCRIMINATOR_LEN data). split; [rewrite length_take; lia|].
    rewrite (take_ge (drop _ _)) by (rewrite length_drop; lia). by rewrite take_drop.
  - intros (disc & Hd & ->). rewrite length_app, <- Hd, drop_app_length. split_and!; [lia..|].
    rewrite take_ge by lia. done.
Qed.

(** ** Key lists *)

Definition keys_typed (l : list Pubkey) : Prop :=
  Forall (fun k => length k = 32%nat) l /\ Z.of_nat (length l) <= U32_MAX.

Lemma length_concat_keys (l : list Pubkey) :
  Forall (fun k => length k = 32%nat) l -> length (concat l) = (32 * length l)%nat.
Proof. induction 1 as [|k l Hk _ IH]; cbn [concat length]; [done|]. rewrite length_app, Hk, IH. lia. Qed.

Lemma decode_keys_app fs (l : list Pubkey) rest off what :
  Forall (fun k => length k = 32%nat) l -> off = length (concat fs) ->
  decode_keys (length l) (concat fs ++ concat l ++ rest) off what = Ok l.
Proof.
  revert fs off. induction l as [|k l IH]; intros fs off Hl ->; [done|].
  apply Forall_cons in Hl as [Hk Hl]. cbn [length decode_keys]. unfold field.
  cbn [concat]. rewrite <- app_assoc.
  rewrite (get_range_app (concat fs) k) by (done || by rewrite Hk). res_red.
  pose proof (IH (fs ++ [k]) (length (concat fs) + 32)%nat Hl) as IH'.
  rewrite concat_app in IH'. cbn [concat] in IH'. rewrite app_nil_r, <- app_assoc in IH'.
  rewrite IH' by (rewrite length_app, Hk; done). done.
Qed.

Lemma decode_keys_bound n body off what l :
  decode_keys n body off what = Ok l -> (0 < n)%nat -> (off + 32 * n <= length body)%nat.
Proof.
  revert off l. induction n as [|n IH]; intros off l; cbn [decode_keys]; [lia|].
  unfold field. intros H _. res_inv. apply get_range_Some in H as (_ & ? & _).
  destruct n as [|n]; [lia|]. apply IH in H0; lia.
Qed.

Lemma borsh_vec_id (l : list Pubkey) : borsh_vec id l = le_bytes 4 (Z.of_nat (length l)) ++ concat l.
Proof. unfold borsh_vec. by rewrite list_fmap_id. Qed.

Lemma le_field n z : 0 <= z < 256 ^ Z.of_nat n -> le_val (le_bytes n z) = z.
Proof. intros. by rewrite le_val_le_bytes, Z.mod_small. Qed.

Lemma le_field_i64 z : in_i64 z -> wrap_i64 (le_val (le_bytes 8 z)) = z.
Proof.
  unfold in_i64, I64_MIN, I64_MAX, wrap_i64. intros Hz. rewrite le_val_le_bytes.
  change (256 ^ Z.of_nat 8) with (2 ^ 64).
  rewrite Zplus_mod_idemp_l, Z.mod_small by lia. lia.
Qed.

(** Reads the next field of an explicit list: the position of the read picks
    the field. *)
Ltac lens := cbn [take concat]; rewrite ?length_app, ?length_le_bytes; cbn [length]; lia.
Ltac read_range fs rest a b k := rewrite (get_field fs rest k _ a b eq_refl) by lens.
Ltac read_byte fs rest a k := rewrite (get_byte_field fs rest k _ a eq_refl) by lens.
Ltac pick tac :=
  first [tac 0%nat | tac 1%nat | tac 2%nat | tac 3%nat | tac 4%nat | tac 5%nat | tac 6%nat
        | tac 7%nat | tac 8%nat | tac 9%nat | tac 10%nat | tac 11%nat | tac 12%nat].
Ltac read_fields :=
  repeat match goal with
    | |- context [get_range (concat ?fs ++ ?rest) ?a ?b] => pick ltac:(read_range fs rest a b)
    | |- context [(concat ?fs ++ ?rest) !! ?a] => pick ltac:(read_byte fs rest a)
    end.

(** ** Validator set *)

(** What the Rust types guarantee of the encoded fields; the reserved bytes,
    which no decoder reads, are left free. *)
Definition set_typed (s : ValidatorSet) : Prop :=
  in_u64 (epoch s) /\ in_u8 (threshold s) /\ in_u8 (set_bump s) /\ keys_typed (validators s).

Definition set_snapshot (s : ValidatorSet) : ValidatorSetSnapshot :=
  {| vs_epoch := epoch s; vs_threshold := threshold s; vs_validators := validators s |}.

Lemma byte_field_le1 z : in_u8 z -> byte_to_Z (byte_of_Z z) = z.
Proof. unfold in_u8, U8_MAX. intros Hz. rewrite byte_to_of_Z, Z.mod_small; lia. Qed.

Lemma decode_validator_set_data disc s beyond :
  length disc = DISCRIMINATOR_LEN -> set_typed s ->
  decode_validator_set (account_data disc (set_fields s) beyond) = Ok (set_snapshot s).
Proof.
  intros Hd (He & Ht & Hb & Hk & Hn). unfold decode_validator_set, account_data.
  rewrite (proj2 (account_body_Ok _ (concat (set_fields s) ++ beyond))) by eauto. res_red.
  assert (concat (set_fields s) ++ beyond =
          concat [le_bytes 8 (epoch s); le_bytes 1 (threshold s); le_bytes 1 (set_bump s);
                  le_bytes 4 (Z.of_nat (length (validators s)))] ++
          concat (validators s) ++ (set_reserved s ++ beyond)) as ->.
  { unfold set_fields. cbn [concat]. by rewrite borsh_vec_id, <- !app_assoc. }
  unfold field, byte_field. read_fields. res_red.
  rewrite !le_field by (unfold in_u64, U64_MAX, U32_MAX in *; cbn; lia).
  rewrite Nat2Z.id, decode_keys_app by done. res_red. by rewrite byte_field_le1.
Qed.

Lemma byte_field_Ok d a what z :
  byte_field d a what = Ok z <-> exists c, d !! a = Some c /\ z = byte_to_Z c.
Proof. unfold byte_field. rewrite bind_Ok. setoid_rewrite ok_or_Ok. naive_solver. Qed.

Lemma field_Ok d a b what x : field d a b what = Ok x <-> get_range d a b = Some x.
Proof. apply ok_or_Ok. Qed.

Lemma get_range_bound d a b x : get_range d a b = Some x -> (b <= length d)%nat.
Proof. by intros (_ & ? & _)%get_range_Some. Qed.

(** Cutting a buffer into a fixed head and [n] keys. *)
Lemma cut_keys ns n (d : list byte) :
  (sum_list ns + 32 * n <= length d)%nat ->
  exists fs ks rest, d = concat fs ++ concat ks ++ rest /\ length <$> fs = ns /\
    length ks = n /\ Forall (fun k => length k = 32%nat) ks.
Proof.
  intros Hd. destruct (cut_fields (ns ++ replicate n 32%nat) d) as (l & rest & -> & Hl).
  { rewrite sum_list_with_app, sum_list_replicate. lia. }
  exists (take (length ns) l), (drop (length ns) l), rest.
  rewrite app_assoc, <- concat_app, take_drop. split; [done|].
  rewrite fmap_take, Hl, take_app_length. split; [done|].
  assert (length <$> drop (length ns) l = replicate n 32%nat) as Hr.
  { by rewrite fmap_drop, Hl, drop_app_length. }
  split; [by rewrite <- (length_fmap length), Hr, length_replicate|].
  apply Forall_lookup. intros i k Hk. apply (f_equal (fun o => length <$> o)) in Hk.
  rewrite <- list_lookup_fmap, Hr in Hk. by apply lookup_replicate in Hk as [? _].
Qed.

Lemma le_val_field n x : length x = n -> le_bytes n (le_val x) = x.
Proof. intros <-. apply le_bytes_le_val. Qed.

Lemma le_val_typed x n : length x = n -> 0 <= le_val x < 256 ^ Z.of_nat n.
Proof. intros <-. apply le_val_bound. Qed.

Lemma decode_validator_set_sound data snap :
  decode_validator_set data = Ok snap ->
  exists disc s beyond, length disc = DISCRIMINATOR_LEN /\ set_typed s /\
    data = account_data disc (set_fields s) beyond /\ snap = set_snapshot s.
Proof.
  intros H0. pose proof H0 as H. unfold decode_validator_set in H.
  apply bind_Ok in H as (body & Hb & H). apply account_body_Ok in Hb as (disc & Hd & ->).
  apply bind_Ok in H as (e & _ & H). apply bind_Ok in H as (t & _ & H).
  apply bind_Ok in H as (vl & Hvl%field_Ok & H). apply bind_Ok in H as (ks & Hks & _).
  pose proof (get_range_bound _ _ _ _ Hvl) as Hbd.
  destruct (cut_keys [8; 1; 1; 4]%nat (Z.to_nat (le_val vl)) body) as (fs & ks' & rest & -> & Hl & Hn & Hk).
  { destruct (Nat.eq_dec (Z.to_nat (le_val vl)) 0%nat) as [->|]; [cbn; lia|].
    apply decode_keys_bound in Hks; cbn; lia. }
  destruct fs as [|f0 [|f1 [|f2 [|f3 [|]]]]]; try discriminate Hl. injection Hl as L0 L1 L2 L3.
  erewrite (get_field _ _ 3) in Hvl; [|reflexivity|cbn; rewrite !length_app; cbn; lia|lia].
  injection Hvl as <-.
  set (s := {| epoch := le_val f0; threshold := le_val f1; set_bump := le_val f2;
               validators := ks'; set_reserved := rest |}).
  pose proof (le_val_typed _ _ L0). pose proof (le_val_typed _ _ L1).
  pose proof (le_val_typed _ _ L2). pose proof (le_val_typed _ _ L3).
  assert (set_typed s) as Hs.
  { unfold set_typed, keys_typed, in_u64, in_u8, U64_MAX, U8_MAX, U32_MAX. cbn.
    change (256 ^ Z.of_nat 8) with (2 ^ 64) in *. change (256 ^ Z.of_nat 1) with 256 in *.
    change (256 ^ Z.of_nat 4) with (2 ^ 32) in *. split_and!; [lia..|done|lia]. }
  assert (disc ++ concat [f0; f1; f2; f3] ++ concat ks' ++ rest = account_data disc (set_fields s) []) as E.
  { unfold account_data, set_fields, s. cbn [concat epoch threshold set_bump validators set_reserved].
    rewrite borsh_vec_id, Hn, !le_val_field, Z2Nat.id, le_val_field by (done || lia).
    by rewrite <- !app_assoc, !app_nil_r. }
  exists disc, s, []. split_and!; [done..|]. rewrite E, decode_validator_set_data in H0 by done.
  by injection H0 as <-.
Qed.

(** ** Configuration and pending action *)

Definition config_typed (c : BridgeConfig) : Prop :=
  in_u8 (protocol_version c) /\ length (admin c) = 32%nat /\
  (forall p, pending_admin c = Some p -> length p = 32%nat) /\ in_u64 (withdrawal_count c) /\
  in_u64 (min_deposit c) /\ in_u64 (min_withdrawal c) /\ in_u8 (config_bump c) /\
  length (wrapped_mint c) = 32%nat /\ in_u8 (mint_authority_bump c) /\
  in_i64 (governance_timelock_seconds c) /\ in_u64 (max_wrapped_supply c).

Definition config_snapshot (c : BridgeConfig) : BridgeConfigSnapshot :=
  {| bc_protocol_version := protocol_version c; bc_admin := admin c;
     bc_pending_admin := pending_admin c; bc_paused := paused c;
     bc_withdrawal_count := withdrawal_count c; bc_min_deposit := min_deposit c;
     bc_min_withdrawal := min_withdrawal c; bc_wrapped_mint := wrapped_mint c;
     bc_governance_timelock_seconds := governance_timelock_seconds c;
     bc_max_wrapped_supply := max_wrapped_supply c |}.

Lemma le_field_u64 z : in_u64 z -> le_val (le_bytes 8 z) = z.
Proof. intros Hz. apply le_field. unfold in_u64, U64_MAX in Hz. cbn. lia. Qed.

Lemma decode_bridge_config_data disc c beyond :
  length disc = DISCRIMINATOR_LEN -> config_typed c ->
  decode_bridge_config (account_data disc (config_fields c) beyond) = Ok (config_snapshot c).
Proof.
  intros Hd (Hv & Ha & Hp & Hwc & Hmd & Hmw & Hcb & Hm & Hmb & Ht & Hcap).
  unfold decode_bridge_config, account_data.
  rewrite (proj2 (account_body_Ok _ (concat (config_fields c) ++ beyond))) by eauto. res_red.
  unfold decode_pending_admin, field, byte_field.
  destruct (pending_admin c) as [p|] eqn:Ep.
  - specialize (Hp p eq_refl).
    assert (concat (config_fields c) ++ beyond =
      concat [le_bytes 1 (protocol_version c); admin c; [x01]; p; [if paused c then x01 else x00];
        le_bytes 8 (withdrawal_count c); le_bytes 8 (min_deposit c); le_bytes 8 (min_withdrawal c);
        le_bytes 1 (config_bump c); wrapped_mint c; le_bytes 1 (mint_authority_bump c);
        le_bytes 8 (governance_timelock_seconds c); le_bytes 8 (max_wrapped_supply c)] ++
      (config_reserved c ++ beyond)) as ->.
    { unfold config_fields, borsh_bool. cbn [concat]. rewrite Ep. cbn [borsh_option id].
      by rewrite <- !app_assoc. }
    read_fields. res_red. change (byte_to_Z x01) with 1. cbn [Z.eqb Pos.eqb]. res_red.
    read_fields. res_red. unfold config_snapshot. rewrite Ep, le_field_i64, !le_field_u64 by done.
    rewrite byte_field_le1 by done. by destruct (paused c).
  - assert (concat (config_fields c) ++ beyond =
      concat [le_bytes 1 (protocol_version c); admin c; [x00]; [if paused c then x01 else x00];
        le_bytes 8 (withdrawal_count c); le_bytes 8 (min_deposit c); le_bytes 8 (min_withdrawal c);
        le_bytes 1 (config_bump c); wrapped_mint c; le_bytes 1 (mint_authority_bump c);
        le_bytes 8 (governance_timelock_seconds c); le_bytes 8 (max_wrapped_supply c)] ++
      (config_reserved c ++ beyond)) as ->.
    { unfold config_fields, borsh_bool. cbn [concat]. rewrite Ep. cbn [borsh_option id].
      by rewrite <- !app_assoc. }
    read_fields. res_red. change (byte_to_Z x00) with 0. cbn [Z.eqb]. res_red.
    read_fields. res_red. unfold config_snapshot. rewrite Ep, le_field_i64, !le_field_u64 by done.
    rewrite byte_field_le1 by done. by destruct (paused c).
Qed.

Definition action_typed (p : PendingGovernanceAction) : Prop :=
  in_u8 (action p) /\ in_u64 (proposed_under_epoch p) /\ in_i64 (eta p) /\
  in_u8 (proposed_threshold p) /\ keys_typed (proposed_validators p) /\
  in_u64 (proposed_max_wrapped_supply p).

Definition action_snapshot (p : PendingGovernanceAction) : PendingActionSnapshot :=
  {| pa_action := action p; pa_proposed_under_epoch := proposed_under_epoch p; pa_eta := eta p;
     pa_threshold := proposed_threshold p; pa_validators := proposed_validators p;
     pa_proposed_max_wrapped_supply := proposed_max_wrapped_supply p |}.

Lemma decode_pending_action_data disc p beyond :
  length disc = DISCRIMINATOR_LEN -> action_typed p ->
  decode_pending_action (account_data disc (action_fields p) beyond) = Ok (action_snapshot p).
Proof.
  intros Hd (Ha & He & Heta & Ht & [Hk Hn] & Hcap). unfold decode_pending_action, account_data.
  rewrite (proj2 (account_body_Ok _ (concat (action_fields p) ++ beyond))) by eauto. res_red.
  set (tail := concat (proposed_validators p) ++ le_bytes 1 (action_bump p) ++
                 le_bytes 8 (proposed_max_wrapped_supply p) ++ action_reserved p ++ beyond).
  assert (concat (action_fields p) ++ beyond =
    concat [le_bytes 1 (action p); le_bytes 8 (proposed_under_epoch p); le_bytes 8 (eta p);
            le_bytes 1 (proposed_threshold p);
            le_bytes 4 (Z.of_nat (length (proposed_validators p)))] ++ tail) as ->.
  { unfold action_fields, tail. cbn [concat]. by rewrite borsh_vec_id, <- !app_assoc. }
  unfold field, byte_field. read_fields. res_red.
  rewrite (le_field 4), Nat2Z.id by (unfold U32_MAX in Hn; cbn; lia). unfold tail.
  rewrite decode_keys_app by done. res_red.
  assert (forall h l b x r, h ++ concat l ++ b ++ x ++ r = (h ++ concat l ++ b) ++ x ++ r :> list byte) as ->.
  { intros. by rewrite <- !app_assoc. }
  rewrite (get_range_app _ (le_bytes 8 (proposed_max_wrapped_supply p)))
    by (cbn [concat]; rewrite !length_app, length_concat_keys, !length_le_bytes by done;
        rewrite ?length_le_bytes; cbn [length]; lia).
  res_red. unfold action_snapshot.
  by rewrite le_field_i64, !le_field_u64, !byte_field_le1 by done.
Qed.

(** The encodings fit the allocated [SPACE], with equality where the layout
    is fixed. *)
Lemma config_fits c :
  config_typed c -> length (config_reserved c) = 15%nat ->
  8 + Z.of_nat (length (concat (config_fields c))) <= BridgeConfig_SPACE.
Proof.
  intros (_ & Ha & Hp & _ & _ & _ & _ & Hm & _) Hr. unfold config_fields, BridgeConfig_SPACE.
  cbn [concat]. rewrite !length_app, !length_le_bytes, Ha, Hm, Hr. unfold borsh_bool.
  destruct (pending_admin c) as [p|]; cbn [borsh_option id length]; [rewrite (Hp p eq_refl)|]; lia.
Qed.

Lemma keys_fit (vs : list Pubkey) :
  Forall (fun k => length k = 32%nat) vs -> (length vs <= MAX_VALIDATORS)%nat ->
  Z.of_nat (length (borsh_vec id vs)) <= 4 + 32 * Z.of_nat MAX_VALIDATORS.
Proof.
  intros Hk Hn. rewrite borsh_vec_id, length_app, length_le_bytes, length_concat_keys by done. lia.
Qed.

Lemma set_fits s :
  Forall (fun k => length k = 32%nat) (validators s) ->
  (length (validators s) <= MAX_VALIDATORS)%nat -> length (set_reserved s) = 32%nat ->
  8 + Z.of_nat (length (concat (set_fields s))) <= ValidatorSet_SPACE.
Proof.
  intros Hk Hn Hr. pose proof (keys_fit _ Hk Hn). unfold set_fields, ValidatorSet_SPACE.
  cbn [concat]. rewrite !length_app, !length_le_bytes, Hr. cbn [length]. lia.
Qed.

Lemma action_fits p :
  Forall (fun k => length k = 32%nat) (proposed_validators p) ->
  (length (proposed_validators p) <= MAX_VALIDATORS)%nat -> length (action_reserved p) = 24%nat ->
  8 + Z.of_nat (length (concat (action_fields p))) <= PendingGovernanceAction_SPACE.
Proof.
  intros Hk Hn Hr. pose proof (keys_fit _ Hk Hn).
  unfold action_fields, PendingGovernanceAction_SPACE.
  cbn [concat]. rewrite !length_app, !length_le_bytes, Hr. cbn [length]. lia.
Qed.

Lemma request_fits w :
  length (requester w) = 32%nat -> length (glc_address w) = 64%nat ->
  length (wr_reserved w) = 48%nat ->
  8 + Z.of_nat (length (concat (request_fields w))) = WithdrawalRequest_SPACE.
Proof.
  intros Ha Hg Hr. unfold request_fields, WithdrawalRequest_SPACE.
  cbn [concat]. rewrite !length_app, !length_le_bytes, Ha, Hg, Hr. cbn [length]. lia.
Qed.

Lemma claim_fits d :
  length (claim_txid d) = 32%nat -> length (claim_recipient d) = 32%nat ->
  length (claim_reserved d) = 16%nat ->
  8 + Z.of_nat (length (concat (claim_fields d))) = DepositClaim_SPACE.
Proof.
  intros Ha Hg Hr. unfold claim_fields, DepositClaim_SPACE.
  cbn [concat]. rewrite !length_app, !length_le_bytes, Ha, Hg, Hr. cbn [length]. lia.
Qed.

(** The relayer's hand-written account decoders read back exactly what the program
    stores: decoding the Borsh bytes of a validator set, a config or a pending action
    gives its fields, and conversely bytes accepted as a validator set are the encoding
    of one. *)
Theorem account_decoders_read_the_program disc beyond :
  length disc = DISCRIMINATOR_LEN ->
  (forall s, set_typed s ->
     decode_validator_set (account_data disc (set_fields s) beyond) = Ok (set_snapshot s)) /\
  (forall data snap, decode_validator_set data = Ok snap ->
     exists disc' s beyond', length disc' = DISCRIMINATOR_LEN /\ set_typed s /\
       data = account_data disc' (set_fields s) beyond' /\ snap = set_snapshot s) /\
  (forall c, config_typed c ->
     decode_bridge_config (account_data disc (config_fields c) beyond) = Ok (config_snapshot c)) /\
  (forall p, action_typed p ->
     decode_pending_action (account_data disc (action_fields p) beyond) = Ok (action_snapshot p)).
Proof.
  intros Hd. split_and!; eauto using decode_validator_set_data, decode_validator_set_sound,
    decode_bridge_config_data, decode_pending_action_data.
Qed.

Lemma account_decoders_read_the_program_witness :
  let s := {| epoch := 7; threshold := 2; set_bump := 254;
              validators := [replicate 32 x01; replicate 32 x02; replicate 32 x03];
              set_reserved := zeros 32 |} in
  decode_validator_set (account_data (zeros 8) (set_fields s) (replicate 5 xff)) = Ok (set_snapshot s).
Proof.
  intros s. destruct (account_decoders_read_the_program (zeros 8) (replicate 5 xff) eq_refl) as [H _].
  apply H. unfold set_typed, keys_typed, in_u64, in_u8, U64_MAX, U8_MAX, U32_MAX.
  split_and!; cbn; try lia. repeat constructor.
Defined.

(** A pending handover moves every later field: fixed offsets would read
    the wrong numbers. *)
Example handover_shifts_fields :
  let c p := {| protocol_version := 1; admin := replicate 32 x11; pending_admin := p;
                paused := true; withdrawal_count := 9; min_deposit := 1000;
                min_withdrawal := 2000; config_bump := 253; wrapped_mint := replicate 32 x22;
                mint_authority_bump := 254; governance_timelock_seconds := 3600;
                max_wrapped_supply := 21000; config_reserved := zeros 15 |} in
  let read p := decode_bridge_config (account_data (zeros 8) (config_fields (c p)) []) in
  (bc_max_wrapped_supply <$> read None) = Ok 21000 /\
  (bc_max_wrapped_supply <$> read (Some (replicate 32 x33))) = Ok 21000.
Proof. by split; vm_compute. Qed.
