(* ===== verification/SolanaInstruction.v ===== *)
(** * The relayer's instruction builders: [relayer/src/solana/instruction.rs]

    Hand-built instructions: discriminator, Borsh arguments, account metas in
    the order of the program's account structs.  What the program expects is
    written down separately, from the handler signatures of [lib.rs]
    ([arguments_of]) and the [#\[derive(Accounts)\]] structs of
    [instructions/] ([roles_of], [keys_of]); the theorem compares the two.
    Program-derived addresses and the addresses of other programs are the
    class [SolanaRuntime]. *)
From Stdlib Require Import ZArith Lia Strings.Byte.
From stdpp Require Import base numbers strings gmap list.
From S2P Require Import Prelude Messages State Hex Address Token Program Accounts.

Class SolanaRuntime := {
  (** [Pubkey::find_program_address]: the address and its canonical bump. *)
  find_program_address : list (list byte) -> Pubkey -> Pubkey * Z;
  spl_token_ID : Pubkey;
  system_program_id : Pubkey;
  instructions_sysvar_ID : Pubkey;
  rent_sysvar_ID : Pubkey;
  bpf_loader_upgradeable_id : Pubkey
}.

Record AccountMeta := { am_pubkey : Pubkey; am_is_signer : bool; am_is_writable : bool }.
(** [AccountMeta::new] and [AccountMeta::new_readonly] *)
Definition writable (k : Pubkey) (signer : bool) : AccountMeta :=
  {| am_pubkey := k; am_is_signer := signer; am_is_writable := true |}.
Definition readonly (k : Pubkey) (signer : bool) : AccountMeta :=
  {| am_pubkey := k; am_is_signer := signer; am_is_writable := false |}.

Record SolanaInstruction := {
  si_program_id : Pubkey; si_accounts : list AccountMeta; si_data : list byte
}.

Definition SEED_BRIDGE_CONFIG : str := lit "bridge_config".
Definition SEED_VALIDATOR_SET : str := lit "validator_set".
Definition SEED_MINT_AUTHORITY : str := lit "mint_authority".
Definition SEED_DEPOSIT_CLAIM : str := lit "deposit_claim".
Definition SEED_GOVERNANCE_ACTION : str := lit "governance_action".
Definition SEED_WITHDRAWAL : str := lit "withdrawal".

(** [pubkey!("metaqbxxUerdq28cj1RbAWkYQm3ybzjb6a8bt518x1s")] *)
Definition TOKEN_METADATA_PROGRAM_ID : Pubkey := map byte_of_Z
  [0x0b; 0x70; 0x65; 0xb1; 0xe3; 0xd1; 0x7c; 0x45; 0x38; 0x9d; 0x52; 0x7f; 0x6b; 0x04; 0xc3;
   0xcd; 0x58; 0xb8; 0x6c; 0x73; 0x1a; 0xa0; 0xfd; 0xb5; 0x49; 0xb6; 0xd1; 0xbc; 0x03; 0xf8;
   0x29; 0x46].
Definition WRAPPED_GLC_NAME : str := lit "Wrapped Goldcoin".
Definition WRAPPED_GLC_SYMBOL : str := lit "wGLC".
Definition WRAPPED_GLC_URI : str := lit "https://goldcoinproject.org/assets/wglc.json".

Record MintWrappedKeys := {
  mk_submitter : Pubkey; mk_bridge_config : Pubkey; mk_validator_set : Pubkey;
  mk_deposit_claim : Pubkey; mk_wrapped_mint : Pubkey; mk_mint_authority : Pubkey;
  mk_recipient : Pubkey; mk_recipient_token_account : Pubkey
}.
Record CompleteWithdrawalKeys := {
  ck_submitter : Pubkey; ck_bridge_config : Pubkey; ck_validator_set : Pubkey;
  ck_withdrawal : Pubkey
}.
Record BurnWrappedKeys := {
  bk_user : Pubkey; bk_bridge_config : Pubkey; bk_wrapped_mint : Pubkey;
  bk_user_token_account : Pubkey; bk_withdrawal : Pubkey
}.

Section builders.
Context `{Sh : Sha2, Rt : SolanaRuntime}.

Definition bridge_config_pda (program_id : Pubkey) : Pubkey * Z :=
  find_program_address [SEED_BRIDGE_CONFIG] program_id.
Definition validator_set_pda (program_id : Pubkey) : Pubkey * Z :=
  find_program_address [SEED_VALIDATOR_SET] program_id.
Definition mint_authority_pda (program_id : Pubkey) : Pubkey * Z :=
  find_program_address [SEED_MINT_AUTHORITY] program_id.
Definition deposit_claim_pda (program_id : Pubkey) (txid : list byte) (vout : Z) : Pubkey * Z :=
  find_program_address [SEED_DEPOSIT_CLAIM; txid; le_bytes 4 vout] program_id.
Definition withdrawal_pda (program_id : Pubkey) (index : Z) : Pubkey * Z :=
  find_program_address [SEED_WITHDRAWAL; le_bytes 8 index] program_id.
Definition governance_action_pda (program_id : Pubkey) : Pubkey * Z :=
  find_program_address [SEED_GOVERNANCE_ACTION] program_id.
Definition program_data_address (program_id : Pubkey) : Pubkey :=
  (find_program_address [program_id] bpf_loader_upgradeable_id).1.
Definition token_metadata_pda (mint : Pubkey) : Pubkey * Z :=
  find_program_address [lit "metadata"; TOKEN_METADATA_PROGRAM_ID; mint] TOKEN_METADATA_PROGRAM_ID.

Definition anchor_discriminator (name : str) : list byte :=
  take 8 (sha256 (lit "global:" ++ name)).

Definition destination_commitment (glc_address_bytes : list byte) : list byte :=
  sha256 glc_address_bytes.

(** ** Value instructions *)

Definition mint_wrapped_instruction (program_id : Pubkey) (accounts : MintWrappedKeys)
    (txid : list byte) (vout amount epoch : Z) : SolanaInstruction :=
  {| si_program_id := program_id;
     si_accounts :=
       [writable (mk_submitter accounts) true;
        readonly (mk_bridge_config accounts) false;
        readonly (mk_validator_set accounts) false;
        writable (mk_deposit_claim accounts) false;
        writable (mk_wrapped_mint accounts) false;
        readonly (mk_mint_authority accounts) false;
        readonly (mk_recipient accounts) false;
        writable (mk_recipient_token_account accounts) false;
        readonly instructions_sysvar_ID false;
        readonly spl_token_ID false;
        readonly system_program_id false];
     si_data := anchor_discriminator (lit "mint_wrapped") ++ txid ++ le_bytes 4 vout ++
                le_bytes 8 amount ++ le_bytes 8 epoch |}.

Definition complete_withdrawal_instruction (program_id : Pubkey)
    (accounts : CompleteWithdrawalKeys) (index : Z) (payout_txid : list byte)
    (payout_height epoch : Z) : SolanaInstruction :=
  {| si_program_id := program_id;
     si_accounts :=
       [writable (ck_submitter accounts) true;
        readonly (ck_bridge_config accounts) false;
        readonly (ck_validator_set accounts) false;
        writable (ck_withdrawal accounts) false;
        readonly instructions_sysvar_ID false];
     si_data := anchor_discriminator (lit "complete_withdrawal") ++ le_bytes 8 index ++
                payout_txid ++ le_bytes 8 payout_height ++ le_bytes 8 epoch |}.

Definition burn_wrapped_instruction (program_id : Pubkey) (accounts : BurnWrappedKeys)
    (amount_atomic : Z) (glc_address : str) : SolanaInstruction :=
  {| si_program_id := program_id;
     si_accounts :=
       [writable (bk_user accounts) true;
        writable (bk_bridge_config accounts) false;
        writable (bk_wrapped_mint accounts) false;
        writable (bk_user_token_account accounts) false;
        writable (bk_withdrawal accounts) false;
        readonly spl_token_ID false;
        readonly system_program_id false];
     si_data := anchor_discriminator (lit "burn_wrapped") ++ le_bytes 8 amount_atomic ++
                borsh_bytes glc_address |}.

(** ** Admin and governance instructions *)

Definition admin_config_metas (admin program_id : Pubkey) : list AccountMeta :=
  [readonly admin true; writable (bridge_config_pda program_id).1 false].

Definition set_paused_instruction (program_id admin : Pubkey) (paused : bool) : SolanaInstruction :=
  {| si_program_id := program_id; si_accounts := admin_config_metas admin program_id;
     si_data := anchor_discriminator (lit "set_paused") ++ [if paused then x01 else x00] |}.

Definition lower_supply_cap_instruction (program_id admin : Pubkey) (new_max : Z)
  : SolanaInstruction :=
  {| si_program_id := program_id; si_accounts := admin_config_metas admin program_id;
     si_data := anchor_discriminator (lit "lower_wrapped_supply_cap") ++ le_bytes 8 new_max |}.

Definition propose_metas (proposer program_id : Pubkey) : list AccountMeta :=
  [writable proposer true; readonly (bridge_config_pda program_id).1 false;
   readonly (validator_set_pda program_id).1 false;
   writable (governance_action_pda program_id).1 false;
   readonly instructions_sysvar_ID false; readonly system_program_id false].

Definition execute_metas (executor program_id : Pubkey) (config_writable : bool)
  : list AccountMeta :=
  let config := (bridge_config_pda program_id).1 in
  [writable executor true;
   if config_writable then writable config false else readonly config false;
   if config_writable then readonly (validator_set_pda program_id).1 false
   else writable (validator_set_pda program_id).1 false;
   writable (governance_action_pda program_id).1 false].

Definition propose_rotation_instruction (program_id proposer : Pubkey) (validators : list Pubkey)
    (threshold : Z) : SolanaInstruction :=
  {| si_program_id := program_id; si_accounts := propose_metas proposer program_id;
     si_data := anchor_discriminator (lit "propose_validator_rotation") ++
                le_bytes 4 (as_u32 (Z.of_nat (length validators))) ++ concat validators ++
                [byte_of_Z threshold] |}.

Definition execute_rotation_instruction (program_id executor : Pubkey) : SolanaInstruction :=
  {| si_program_id := program_id; si_accounts := execute_metas executor program_id false;
     si_data := anchor_discriminator (lit "execute_validator_rotation") |}.

Definition cancel_rotation_instruction (program_id canceller : Pubkey) : SolanaInstruction :=
  {| si_program_id := program_id;
     si_accounts :=
       [writable canceller true; readonly (bridge_config_pda program_id).1 false;
        readonly (validator_set_pda program_id).1 false;
        writable (governance_action_pda program_id).1 false;
        readonly instructions_sysvar_ID false];
     si_data := anchor_discriminator (lit "cancel_validator_rotation") |}.

Definition propose_cap_raise_instruction (program_id proposer : Pubkey) (new_max : Z)
  : SolanaInstruction :=
  {| si_program_id := program_id; si_accounts := propose_metas proposer program_id;
     si_data := anchor_discriminator (lit "propose_wrapped_supply_cap_raise") ++
                le_bytes 8 new_max |}.

Definition execute_cap_raise_instruction (program_id executor : Pubkey) : SolanaInstruction :=
  {| si_program_id := program_id; si_accounts := execute_metas executor program_id true;
     si_data := anchor_discriminator (lit "execute_wrapped_supply_cap_raise") |}.

(** ** Bootstrap, handover, metadata *)

Definition initialize_instruction (program_id authority : Pubkey) (validators : list Pubkey)
    (threshold min_deposit min_withdrawal governance_timelock_seconds max_wrapped_supply : Z)
  : SolanaInstruction :=
  {| si_program_id := program_id;
     si_accounts :=
       [writable authority true; writable (bridge_config_pda program_id).1 false;
        writable (validator_set_pda program_id).1 false; readonly program_id false;
        readonly (program_data_address program_id) false; readonly system_program_id false];
     si_data := anchor_discriminator (lit "initialize") ++
                le_bytes 4 (as_u32 (Z.of_nat (length validators))) ++ concat validators ++
                [byte_of_Z threshold] ++ le_bytes 8 min_deposit ++ le_bytes 8 min_withdrawal ++
                le_bytes 8 governance_timelock_seconds ++ le_bytes 8 max_wrapped_supply |}.

Definition create_wrapped_mint_instruction (program_id admin wrapped_mint : Pubkey)
  : SolanaInstruction :=
  {| si_program_id := program_id;
     si_accounts :=
       [writable admin true; writable (bridge_config_pda program_id).1 false;
        readonly (mint_authority_pda program_id).1 false; writable wrapped_mint true;
        readonly spl_token_ID false; readonly system_program_id false];
     si_data := anchor_discriminator (lit "create_wrapped_mint") |}.

Definition transfer_admin_instruction (program_id admin new_admin : Pubkey) : SolanaInstruction :=
  {| si_program_id := program_id; si_accounts := admin_config_metas admin program_id;
     si_data := anchor_discriminator (lit "transfer_admin") ++ new_admin |}.

Definition accept_admin_instruction (program_id new_admin : Pubkey) : SolanaInstruction :=
  {| si_program_id := program_id;
     si_accounts := [readonly new_admin true; writable (bridge_config_pda program_id).1 false];
     si_data := anchor_discriminator (lit "accept_admin") |}.

Definition create_token_metadata_instruction (program_id admin wrapped_mint : Pubkey) (uri : str)
  : SolanaInstruction :=
  {| si_program_id := program_id;
     si_accounts :=
       [writable admin true; readonly (bridge_config_pda program_id).1 false;
        readonly (mint_authority_pda program_id).1 false; readonly wrapped_mint false;
        writable (token_metadata_pda wrapped_mint).1 false;
        readonly TOKEN_METADATA_PROGRAM_ID false; readonly system_program_id false;
        readonly rent_sysvar_ID false];
     si_data := anchor_discriminator (lit "create_token_metadata") ++ borsh_bytes uri |}.

Definition update_token_metadata_instruction (program_id admin wrapped_mint : Pubkey)
    (name symbol uri : str) : SolanaInstruction :=
  {| si_program_id := program_id;
     si_accounts :=
       [readonly admin true; readonly (bridge_config_pda program_id).1 false;
        readonly (mint_authority_pda program_id).1 false;
        writable (token_metadata_pda wrapped_mint).1 false;
        readonly TOKEN_METADATA_PROGRAM_ID false];
     si_data := anchor_discriminator (lit "update_token_metadata") ++
                concat (borsh_bytes <$> [name; symbol; uri]) |}.
End builders.

(** ** What the program expects *)

Section program_side.
Context `{Sh : Sha2, Rt : SolanaRuntime}.

(** The handler's name in [lib.rs] and its Borsh-encoded arguments. *)
Definition name_of (i : BridgeInstruction) : str :=
  match i with
  | Initialize _ _ _ _ _ _ _ => lit "initialize"
  | SetPaused _ _ => lit "set_paused"
  | ProposeValidatorRotation _ _ _ => lit "propose_validator_rotation"
  | ExecuteValidatorRotation => lit "execute_validator_rotation"
  | CancelValidatorRotation => lit "cancel_validator_rotation"
  | TransferAdmin _ _ => lit "transfer_admin"
  | AcceptAdmin _ => lit "accept_admin"
  | CreateWrappedMint _ => lit "create_wrapped_mint"
  | MintWrapped _ _ _ _ _ => lit "mint_wrapped"
  | BurnWrapped _ _ _ => lit "burn_wrapped"
  | LowerWrappedSupplyCap _ _ => lit "lower_wrapped_supply_cap"
  | ProposeWrappedSupplyCapRaise _ _ => lit "propose_wrapped_supply_cap_raise"
  | ExecuteWrappedSupplyCapRaise => lit "execute_wrapped_supply_cap_raise"
  | CompleteWithdrawal _ _ _ _ => lit "complete_withdrawal"
  end.

Definition arguments_of (i : BridgeInstruction) : list byte :=
  match i with
  | Initialize _ vs t min_dep min_wd timelock cap =>
      borsh_vec id vs ++ le_bytes 1 t ++ le_bytes 8 min_dep ++ le_bytes 8 min_wd ++
      le_bytes 8 timelock ++ le_bytes 8 cap
  | SetPaused _ p => borsh_bool p
  | ProposeValidatorRotation _ vs t => borsh_vec id vs ++ le_bytes 1 t
  | TransferAdmin _ new_admin => new_admin
  | MintWrapped _ txid vout amount e => txid ++ le_bytes 4 vout ++ le_bytes 8 amount ++ le_bytes 8 e
  | BurnWrapped _ amount address => le_bytes 8 amount ++ borsh_bytes address
  | LowerWrappedSupplyCap _ m => le_bytes 8 m
  | ProposeWrappedSupplyCapRaise _ m => le_bytes 8 m
  | CompleteWithdrawal idx txid h e => le_bytes 8 idx ++ txid ++ le_bytes 8 h ++ le_bytes 8 e
  | ExecuteValidatorRotation | CancelValidatorRotation | AcceptAdmin _ | CreateWrappedMint _
  | ExecuteWrappedSupplyCapRaise => []
  end.

(** [(is_signer, is_writable)] of each account in the struct's order: a
    [Signer] signs; [mut], [init] and [close] accounts are writable; a mint
    created by [init] signs for its own creation. *)
Definition admin_config_roles : list (bool * bool) := [(true, false); (false, true)].
Definition propose_roles : list (bool * bool) :=
  [(true, true); (false, false); (false, false); (false, true); (false, false); (false, false)].

Definition roles_of (i : BridgeInstruction) : list (bool * bool) :=
  match i with
  | Initialize _ _ _ _ _ _ _ =>
      [(true, true); (false, true); (false, true); (false, false); (false, false); (false, false)]
  | SetPaused _ _ | TransferAdmin _ _ | LowerWrappedSupplyCap _ _ => admin_config_roles
  | AcceptAdmin _ => [(true, false); (false, true)]
  | ProposeValidatorRotation _ _ _ | ProposeWrappedSupplyCapRaise _ _ => propose_roles
  | ExecuteValidatorRotation => [(true, true); (false, false); (false, true); (false, true)]
  | ExecuteWrappedSupplyCapRaise => [(true, true); (false, true); (false, false); (false, true)]
  | CancelValidatorRotation =>
      [(true, true); (false, false); (false, false); (false, true); (false, false)]
  | CreateWrappedMint _ =>
      [(true, true); (false, true); (false, false); (true, true); (false, false); (false, false)]
  | MintWrapped _ _ _ _ _ =>
      [(true, true); (false, false); (false, false); (false, true); (false, true); (false, false);
       (false, false); (false, true); (false, false); (false, false); (false, false)]
  | BurnWrapped _ _ _ =>
      [(true, true); (false, true); (false, true); (false, true); (false, true); (false, false);
       (false, false)]
  | CompleteWithdrawal _ _ _ _ =>
      [(true, true); (false, false); (false, false); (false, true); (false, false)]
  end.

(** The addresses the [seeds] and [address] constraints and the handler's
    inputs ask for; [payer] is the transaction's fee payer and [count] the
    withdrawal counter. *)
Definition keys_of (program_id payer : Pubkey) (count : Z) (i : BridgeInstruction) : list Pubkey :=
  let config := (find_program_address [SEED_BRIDGE_CONFIG] program_id).1 in
  let set := (find_program_address [SEED_VALIDATOR_SET] program_id).1 in
  let pending := (find_program_address [SEED_GOVERNANCE_ACTION] program_id).1 in
  let authority := (find_program_address [SEED_MINT_AUTHORITY] program_id).1 in
  match i with
  | Initialize acc _ _ _ _ _ _ =>
      [init_authority acc; config; set; program_id; program_data_key acc; system_program_id]
  | SetPaused s _ | TransferAdmin s _ | LowerWrappedSupplyCap s _ | AcceptAdmin s => [s; config]
  | ProposeValidatorRotation _ _ _ | ProposeWrappedSupplyCapRaise _ _ =>
      [payer; config; set; pending; instructions_sysvar_ID; system_program_id]
  | ExecuteValidatorRotation | ExecuteWrappedSupplyCapRaise => [payer; config; set; pending]
  | CancelValidatorRotation => [payer; config; set; pending; instructions_sysvar_ID]
  | CreateWrappedMint acc =>
      [cm_admin acc; config; authority; cm_wrapped_mint acc; spl_token_ID; system_program_id]
  | MintWrapped acc txid vout _ _ =>
      [mw_submitter acc; config; set;
       (find_program_address [SEED_DEPOSIT_CLAIM; txid; le_bytes 4 vout] program_id).1;
       mw_wrapped_mint acc; authority; mw_recipient acc; mw_recipient_token_account acc;
       instructions_sysvar_ID; spl_token_ID; system_program_id]
  | BurnWrapped acc _ _ =>
      [bw_user acc; config; bw_wrapped_mint acc; bw_user_token_account acc;
       (find_program_address [SEED_WITHDRAWAL; le_bytes 8 count] program_id).1; spl_token_ID;
       system_program_id]
  | CompleteWithdrawal idx _ _ _ =>
      [payer; config; set;
       (find_program_address [SEED_WITHDRAWAL; le_bytes 8 idx] program_id).1;
       instructions_sysvar_ID]
  end.

(** An instruction of a transaction is a call of the program. *)
Record calls (program_id payer : Pubkey) (count : Z) (ix : SolanaInstruction)
    (i : BridgeInstruction) : Prop := {
  calls_program : si_program_id ix = program_id;
  calls_data : si_data ix = anchor_discriminator (name_of i) ++ arguments_of i;
  calls_roles : (fun m => (am_is_signer m, am_is_writable m)) <$> si_accounts ix = roles_of i;
  calls_keys : am_pubkey <$> si_accounts ix = keys_of program_id payer count i
}.

(** The key records the callers build from the derived addresses. *)
Definition mint_keys (program_id submitter mint recipient ata : Pubkey) (txid : list byte)
    (vout : Z) : MintWrappedKeys :=
  {| mk_submitter := submitter; mk_bridge_config := (bridge_config_pda program_id).1;
     mk_validator_set := (validator_set_pda program_id).1;
     mk_deposit_claim := (deposit_claim_pda program_id txid vout).1; mk_wrapped_mint := mint;
     mk_mint_authority := (mint_authority_pda program_id).1; mk_recipient := recipient;
     mk_recipient_token_account := ata |}.
Definition completion_keys (program_id submitter : Pubkey) (index : Z) : CompleteWithdrawalKeys :=
  {| ck_submitter := submitter; ck_bridge_config := (bridge_config_pda program_id).1;
     ck_validator_set := (validator_set_pda program_id).1;
     ck_withdrawal := (withdrawal_pda program_id index).1 |}.
Definition burn_keys (program_id user mint ata : Pubkey) (count : Z) : BurnWrappedKeys :=
  {| bk_user := user; bk_bridge_config := (bridge_config_pda program_id).1;
     bk_wrapped_mint := mint; bk_user_token_account := ata;
     bk_withdrawal := (withdrawal_pda program_id count).1 |}.

Lemma vec_u32 (vs : list Pubkey) :
  le_bytes 4 (as_u32 (Z.of_nat (length vs))) ++ concat vs = borsh_vec id vs.
Proof.
  rewrite borsh_vec_id. f_equal. unfold as_u32. change (2 ^ 32) with (256 ^ Z.of_nat 4).
  rewrite <- le_val_le_bytes. rewrite <- (length_le_bytes 4 (Z.of_nat (length vs))) at 1.
  by rewrite le_bytes_le_val.
Qed.

Lemma vec_u32_app (vs : list Pubkey) r :
  le_bytes 4 (as_u32 (Z.of_nat (length vs))) ++ concat vs ++ r = borsh_vec id vs ++ r.
Proof. by rewrite <- vec_u32, <- app_assoc. Qed.

Ltac call := constructor; cbn [si_program_id si_accounts si_data name_of arguments_of]; try done;
  cbn [si_data execute_rotation_instruction cancel_rotation_instruction execute_cap_raise_instruction
       create_wrapped_mint_instruction accept_admin_instruction propose_rotation_instruction
       initialize_instruction]; by rewrite ?app_nil_r, ?vec_u32_app.

Lemma completion_calls program_id payer count idx txid h e :
  calls program_id payer count
    (complete_withdrawal_instruction program_id (completion_keys program_id payer idx) idx txid h e)
    (CompleteWithdrawal idx txid h e).
Proof. call. Qed.

Lemma mint_calls program_id payer count acc txid vout amount e :
  mw_submitter acc = payer ->
  calls program_id payer count
    (mint_wrapped_instruction program_id
       (mint_keys program_id payer (mw_wrapped_mint acc) (mw_recipient acc)
          (mw_recipient_token_account acc) txid vout) txid vout amount e)
    (MintWrapped acc txid vout amount e).
Proof. intros <-. call. Qed.

Lemma burn_calls program_id payer count acc amount address :
  bw_user acc = payer ->
  calls program_id payer count
    (burn_wrapped_instruction program_id
       (burn_keys program_id payer (bw_wrapped_mint acc) (bw_user_token_account acc) count) amount address)
    (BurnWrapped acc amount address).
Proof. intros <-. call. Qed.

(** Every instruction the relayer builds is a call of the program as the program
    reads it: the Anchor discriminator of the instruction's name, the Borsh encoding of
    its arguments, and the accounts its Accounts struct declares, in order, with the
    same addresses, signer and writable flags. *)
Theorem builders_call_the_program program_id payer count :
  (forall acc txid vout amount e, mw_submitter acc = payer ->
     calls program_id payer count
       (mint_wrapped_instruction program_id
          (mint_keys program_id payer (mw_wrapped_mint acc) (mw_recipient acc)
             (mw_recipient_token_account acc) txid vout) txid vout amount e)
       (MintWrapped acc txid vout amount e)) /\
  (forall idx txid h e,
     calls program_id payer count
       (complete_withdrawal_instruction program_id (completion_keys program_id payer idx)
          idx txid h e) (CompleteWithdrawal idx txid h e)) /\
  (forall acc amount address, bw_user acc = payer ->
     calls program_id payer count
       (burn_wrapped_instruction program_id
          (burn_keys program_id payer (bw_wrapped_mint acc) (bw_user_token_account acc) count)
          amount address) (BurnWrapped acc amount address)) /\
  (forall acc vs t md mw tl cap,
     init_authority acc = payer -> program_data_key acc = program_data_address program_id ->
     calls program_id payer count
       (initialize_instruction program_id payer vs t md mw tl cap)
       (Initialize acc vs t md mw tl cap)) /\
  (forall acc, cm_admin acc = payer ->
     calls program_id payer count
       (create_wrapped_mint_instruction program_id payer (cm_wrapped_mint acc))
       (CreateWrappedMint acc)) /\
  (forall p, calls program_id payer count (set_paused_instruction program_id payer p)
               (SetPaused payer p)) /\
  (forall a, calls program_id payer count (transfer_admin_instruction program_id payer a)
               (TransferAdmin payer a)) /\
  calls program_id payer count (accept_admin_instruction program_id payer) (AcceptAdmin payer) /\
  (forall m, calls program_id payer count (lower_supply_cap_instruction program_id payer m)
               (LowerWrappedSupplyCap payer m)) /\
  (forall bump vs t, calls program_id payer count
               (propose_rotation_instruction program_id payer vs t)
               (ProposeValidatorRotation bump vs t)) /\
  (forall bump m, calls program_id payer count
               (propose_cap_raise_instruction program_id payer m)
               (ProposeWrappedSupplyCapRaise bump m)) /\
  calls program_id payer count (execute_rotation_instruction program_id payer)
    ExecuteValidatorRotation /\
  calls program_id payer count (cancel_rotation_instruction program_id payer)
    CancelValidatorRotation /\
  calls program_id payer count (execute_cap_raise_instruction program_id payer)
    ExecuteWrappedSupplyCapRaise.
Proof.
  split_and!.
  - intros. by apply mint_calls.
  - intros. apply completion_calls.
  - intros acc amount address <-. call.
  - intros acc vs t md mw tl cap <- E. constructor; try done.
    + cbn [si_data initialize_instruction name_of arguments_of]. by rewrite vec_u32_app.
    + cbn. by rewrite E.
  - intros acc <-. call.
  - intros. call.
  - intros. call.
  - call.
  - intros. call.
  - intros. call.
  - intros. call.
  - call.
  - call.
  - call.
Qed.
End program_side.

(** A stand-in runtime for evaluation: the seeds, padded. *)
Definition toy_solana : SolanaRuntime :=
  {| find_program_address seeds program_id := (take 32 (concat (rev seeds) ++ program_id ++ zeros 32), 255);
     spl_token_ID := replicate 32 x06; system_program_id := zeros 32;
     instructions_sysvar_ID := replicate 32 x08; rent_sysvar_ID := replicate 32 x09;
     bpf_loader_upgradeable_id := replicate 32 x0a |}.

Lemma builders_call_the_program_witness :
  let acc := {| mw_submitter := replicate 32 x01; mw_wrapped_mint := replicate 32 x02;
                mw_recipient := replicate 32 x03; mw_recipient_token_account := replicate 32 x04;
                mw_bump_deposit_claim := 255 |} in
  @calls toy_sha2 toy_solana crate_ID (replicate 32 x01) 0
    (@mint_wrapped_instruction toy_sha2 toy_solana crate_ID
       (@mint_keys toy_solana crate_ID (replicate 32 x01) (mw_wrapped_mint acc) (mw_recipient acc)
          (mw_recipient_token_account acc) (zeros 32) 1) (zeros 32) 1 5000 3)
    (MintWrapped acc (zeros 32) 1 5000 3).
Proof.
  intros acc. destruct (@builders_call_the_program toy_sha2 toy_solana crate_ID (replicate 32 x01) 0)
    as [H _]. by apply H.
Defined.

(** The metadata program's address is the base58 text of the source. *)
Example token_metadata_program_text :
  Address.base58_decode (lit "metaqbxxUerdq28cj1RbAWkYQm3ybzjb6a8bt518x1s") =
  Ok TOKEN_METADATA_PROGRAM_ID.
Proof. vm_compute. reflexivity. Qed.
