(* ===== verification/SolanaRpc.v ===== *)
(** * The Solana node: [relayer/src/solana/rpc.rs]

    The trait [SolanaRpc] as a class over an abstract state of everything
    outside the process, and the retry wrapper.  A transaction is its
    instructions, its payer, who signed it and its blockhash. *)
From Stdlib Require Import ZArith Lia Strings.Byte.
From stdpp Require Import base numbers strings gmap list.
From S2P Require Import Prelude State Hex Accounts SolanaInstruction.

(** The fields of [solana_sdk::account::Account] the relayer reads. *)
Record Account := { acc_owner : Pubkey; acc_data : list byte }.

Record SolanaTransaction := {
  tx_instructions : list SolanaInstruction;
  tx_payer : Pubkey;
  tx_signers : list Pubkey;
  tx_blockhash : list byte
}.

Inductive CommitmentLevel := Processed | Confirmed | Finalized.

Class SolanaRpc (outside : Type) := {
  get_account : Pubkey -> outside -> outside * result SolanaRpcError (option Account);
  get_latest_blockhash : outside -> outside * result SolanaRpcError (list byte);
  (** The signature's text. *)
  send_transaction : SolanaTransaction -> outside -> outside * result SolanaRpcError str;
  get_program_accounts_sized : Pubkey -> Z -> CommitmentLevel ->
    outside -> outside * result SolanaRpcError (list (Pubkey * Account))
}.

(** [call_with_retry]: [remaining] is [max_attempts - 1 - attempt]; the
    back-off only sleeps. *)
Section retry.
Context {O T : Type} (f : O -> O * result SolanaRpcError T).

Fixpoint retry_from (remaining : nat) (o : O) : O * result SolanaRpcError T :=
  match f o with
  | (o', Ok v) => (o', Ok v)
  | (o', Err e) =>
      match remaining with
      | S remaining => if is_retriable e then retry_from remaining o' else (o', Err e)
      | O => (o', Err e)
      end
  end.

Definition call_with_retry (max_attempts : nat) (o : O) : O * result SolanaRpcError T :=
  retry_from (max_attempts - 1) o.

(** The final answer is the answer of the last attempt, and every earlier
    one was a transport failure. *)
Lemma call_with_retry_answer n o :
  exists k o1, (k <= n - 1)%nat /\ f o1 = call_with_retry n o /\
    ((k < n - 1)%nat -> forall e, (call_with_retry n o).2 = Err e -> is_retriable e = false).
Proof.
  unfold call_with_retry. generalize (n - 1)%nat as r. intros r. revert o.
  induction r as [|r IH]; intros o; cbn [retry_from]; destruct (f o) as [o' [v|e]] eqn:E.
  - exists 0%nat, o. split_and!; [lia|done|lia].
  - exists 0%nat, o. split_and!; [lia|done|lia].
  - exists 0%nat, o. split_and!; [lia|done|done].
  - destruct (is_retriable e) eqn:Er.
    + destruct (IH o') as (k & o1 & Hk & Hf & He). exists (S k), o1. split_and!; [lia|done|].
      intros Hlt. apply He. lia.
    + exists 0%nat, o. split_and!; [lia|done|]. intros _ e' [= <-]. done.
Qed.
End retry.
