(* ===== verification/Discovery.v ===== *)
(** * Withdrawal discovery: [relayer/src/withdrawal/discovery.rs]

    The decoder of a [WithdrawalRequest] account with all its refusals, and
    the scan of the program's accounts.  The theorem composes it with the
    program: over the accounts of a reachable state the scan returns exactly
    the open requests with a payable address. *)
From Stdlib Require Import ZArith Lia Strings.Byte.
From stdpp Require Import base numbers strings gmap list sorting.
From S2P Require Import Prelude Messages State Token Program Handlers Invariants Scenario.
From S2P Require Import Hex Address WithdrawalDb Accounts SolanaInstruction SolanaRpc.

Definition WITHDRAWAL_ACCOUNT_LEN : nat := 180.
Definition STATUS_COMPLETED : Z := 2.

Inductive DiscoveryError :=
| WrongLength (n : nat)
| WrongOwner (owner expected : Pubkey)
| PdaMismatch (actual expected : Pubkey) (index : Z)
| BumpMismatch (stored canonical : Z)
| AddressLengthOutOfRange (n : Z)
| NonAsciiAddress
| NonZeroAddressPadding
| UnusableAddress (e : AddressError)
| ZeroAmount.

Record DecodedWithdrawal := {
  d_index : Z; d_pda : Pubkey; d_amount_atomic : Z; d_requester : Pubkey; d_glc_address : str;
  d_glc_address_hash160 : list byte; d_requested_at_slot : Z; d_protocol_version : Z;
  d_status_tag : Z
}.

(** [&body[a..b]] and [body[i]], which the length check keeps in range. *)
Definition slice (d : list byte) (a b : nat) : list byte := take (b - a) (drop a d).
Definition byte_at (d : list byte) (i : nat) : Z := byte_to_Z (default x00 (d !! i)).
Definition is_ascii (d : list byte) : bool := forallb (fun b => byte_to_Z b <? 128) d.

Section discovery.
Context `{Sh : Sha2, Rt : SolanaRuntime}.

Definition decode_withdrawal (program_id address owner : Pubkey) (data : list byte)
  : result DiscoveryError DecodedWithdrawal :=
  require (bool_decide (owner = program_id)) (WrongOwner owner program_id) ;;*
  require (length data =? WITHDRAWAL_ACCOUNT_LEN)%nat (WrongLength (length data)) ;;*
  let body := drop DISCRIMINATOR_LEN data in
  let index := le_val (slice body 0 8) in
  let amount_atomic := le_val (slice body 8 16) in
  let requester := slice body 16 48 in
  let addr_bytes := slice body 48 112 in
  let addr_len := byte_at body 112 in
  let status_tag := byte_at body 113 in
  let requested_at_slot := le_val (slice body 114 122) in
  let protocol_version := byte_at body 122 in
  let stored_bump := byte_at body 123 in
  let (expected_pda, canonical_bump) := withdrawal_pda program_id index in
  require (bool_decide (address = expected_pda)) (PdaMismatch address expected_pda index) ;;*
  require (stored_bump =? canonical_bump) (BumpMismatch stored_bump canonical_bump) ;;*
  require (negb (amount_atomic =? 0)) ZeroAmount ;;*
  require (negb ((addr_len =? 0) || (64 <? addr_len))) (AddressLengthOutOfRange addr_len) ;;*
  let used := take (Z.to_nat addr_len) addr_bytes in
  require (is_ascii used) NonAsciiAddress ;;*
  require (forallb (fun b => bool_decide (b = x00)) (drop (Z.to_nat addr_len) addr_bytes))
    NonZeroAddressPadding ;;*
  let* hash160 := map_err UnusableAddress (decode_p2pkh_hash160 used) in
  Ok {| d_index := index; d_pda := address; d_amount_atomic := amount_atomic;
        d_requester := requester; d_glc_address := used; d_glc_address_hash160 := hash160;
        d_requested_at_slot := requested_at_slot; d_protocol_version := protocol_version;
        d_status_tag := status_tag |}.

(** [index as i64] for the row. *)
Definition observed_row (w : DecodedWithdrawal) (observed_at observed_at_slot : Z)
  : NewWithdrawalRequest :=
  {| nw_index := wrap_i64 (d_index w); nw_pda := d_pda w; nw_amount := d_amount_atomic w;
     nw_requester := d_requester w; nw_address := d_glc_address w;
     nw_hash160 := d_glc_address_hash160 w; nw_slot := wrap_i64 (d_requested_at_slot w);
     nw_version := d_protocol_version w; nw_observed_at := observed_at;
     nw_observed_at_slot := observed_at_slot |}.

(** One account of the scan: completed and undecodable ones are skipped. *)
Definition scan_account (program_id : Pubkey) (observed_at observed_at_slot : Z)
    (a : Pubkey * Account) : option NewWithdrawalRequest :=
  match decode_withdrawal program_id a.1 (acc_owner a.2) (acc_data a.2) with
  | Ok w => if d_status_tag w =? STATUS_COMPLETED then None
            else Some (observed_row w observed_at observed_at_slot)
  | Err _ => None
  end.

Definition by_index (x y : NewWithdrawalRequest) : Prop := nw_index x <= nw_index y.
#[local] Instance by_index_dec x y : Decision (by_index x y).
Proof. unfold by_index. apply _. Defined.

Definition scan_withdrawals {outside} `{N : SolanaRpc outside} (program_id : Pubkey) (commitment : CommitmentLevel)
    (observed_at observed_at_slot : Z) (o : outside)
  : outside * result SolanaRpcError (list NewWithdrawalRequest) :=
  let (o, accounts) :=
    get_program_accounts_sized program_id (Z.of_nat WITHDRAWAL_ACCOUNT_LEN) commitment o in
  (o, let* accounts := accounts in
      Ok (merge_sort by_index
            (omap (scan_account program_id observed_at observed_at_slot) accounts))).
End discovery.

(** ** What the program stores *)

(** The shape [burn_wrapped] gives a request, for ever. *)
Record request_shape (w : WithdrawalRequest) : Prop := {
  sh_address : exists a, (1 <= length a <= 64)%nat /\ glc_address w = splice (zeros 64) 0 a /\
                 glc_address_len w = Z.of_nat (length a);
  sh_requester : length (requester w) = 32%nat;
  sh_slot : in_u64 (requested_at_slot w);
  sh_version : wr_protocol_version w = PROTOCOL_VERSION
}.

Section shapes.
Context {T : SplToken} {R : Runtime}.

Lemma burned_shape env acc amount address b c :
  env_wf env -> is_pubkey (bw_user acc) -> protocol_version c = PROTOCOL_VERSION ->
  burn_ok acc amount address b c -> request_shape (request_of env acc amount address c).
Proof.
  intros [_ Hs] Hu Hv [_ _ _ _ _ _ _ _ _ _ _ Hne Hlen _]. unfold MAX_GLC_ADDRESS_LEN in Hlen.
  constructor; cbn -[splice zeros]; try done. exists address.
  destruct address as [|x l]; [done|]. split_and!; [cbn; lia|done|done|].
  unfold as_u8. rewrite Z.mod_small; [done|]. cbn [length] in *. lia.
Qed.

Lemma transition_shapes env b i b' evs :
  env_wf env -> instr_wf i -> bridge_inv b ->
  map_Forall (fun _ => request_shape) (Program.withdrawal_requests b) ->
  transition env b i b' evs -> map_Forall (fun _ => request_shape) (Program.withdrawal_requests b').
Proof.
  intros He Hi Hinv Hsh Htr. destruct Htr; cbn -[request_of set_payout_record]; try done.
  - apply map_Forall_insert_2; [|done]. cbn in Hi. eapply burned_shape; [done|by destruct Hi| |done].
    destruct Hinv as [? | c' s' Hc ? [Hv _ _ _ _]]; destruct H; congruence.
  - apply map_Forall_insert_2; [|done]. destruct H. destruct (Hsh _ _ co_request) as [? ? ? ?].
    by constructor.
Qed.

Lemma steps_shapes ls b :
  steps ls b -> map_Forall (fun _ => request_shape) (Program.withdrawal_requests b).
Proof.
  induction 1 as [|ls b l b' Hls IH Hstep]; [apply map_Forall_empty|].
  pose proof (steps_inv _ _ Hls) as Hinv. destruct Hstep as [env i b' evs He Hi Hx|t' _]; [|done].
  apply exec_iff in Hx; [|by apply inv_set_bounded]. by eapply transition_shapes.
Qed.
End shapes.

(** ** Decoding what the program stores *)

Definition request_typed (w : WithdrawalRequest) : Prop :=
  in_u64 (index w) /\ in_u64 (wr_amount w) /\ length (requester w) = 32%nat /\
  length (glc_address w) = 64%nat /\ in_u8 (glc_address_len w) /\
  in_u64 (requested_at_slot w) /\ in_u8 (wr_protocol_version w) /\ in_u8 (wr_bump w) /\
  length (wr_reserved w) = 48%nat.

Lemma slice_field fs rest k x a b :
  fs !! k = Some x -> a = length (concat (take k fs)) -> b = (a + length x)%nat ->
  slice (concat fs ++ rest) a b = x.
Proof. intros Hk Ha Hb. by destruct (get_range_Some (concat fs ++ rest) a b x) as [(_ & _ & ->) _]; [eapply get_field|]. Qed.

Lemma byte_at_field fs rest k c a :
  fs !! k = Some [c] -> a = length (concat (take k fs)) -> byte_at (concat fs ++ rest) a = byte_to_Z c.
Proof. intros Hk Ha. unfold byte_at. by rewrite (get_byte_field _ _ k c). Qed.

Lemma status_tag_u8 s : byte_to_Z (byte_of_Z (status_tag_of s)) = status_tag_of s.
Proof. apply byte_field_le1. by destruct s. Qed.

Section decoding.
Context `{Sh : Sha2, Rt : SolanaRuntime}.

Definition used_address (w : WithdrawalRequest) : str :=
  take (Z.to_nat (glc_address_len w)) (glc_address w).

Definition decoded (w : WithdrawalRequest) (pda : Pubkey) (hash160 : list byte) : DecodedWithdrawal :=
  {| d_index := index w; d_pda := pda; d_amount_atomic := wr_amount w;
     d_requester := requester w; d_glc_address := used_address w;
     d_glc_address_hash160 := hash160; d_requested_at_slot := requested_at_slot w;
     d_protocol_version := wr_protocol_version w; d_status_tag := status_tag_of (status w) |}.

(** Every field the decoder works with is the program's. *)
Lemma decode_withdrawal_eq program_id address owner disc w :
  length disc = DISCRIMINATOR_LEN -> request_typed w ->
  decode_withdrawal program_id address owner (account_data disc (request_fields w) []) =
  (require (bool_decide (owner = program_id)) (WrongOwner owner program_id) ;;*
   let (expected_pda, canonical_bump) := withdrawal_pda program_id (index w) in
   require (bool_decide (address = expected_pda)) (PdaMismatch address expected_pda (index w)) ;;*
   require (wr_bump w =? canonical_bump) (BumpMismatch (wr_bump w) canonical_bump) ;;*
   require (negb (wr_amount w =? 0)) ZeroAmount ;;*
   require (negb ((glc_address_len w =? 0) || (64 <? glc_address_len w)))
     (AddressLengthOutOfRange (glc_address_len w)) ;;*
   require (is_ascii (used_address w)) NonAsciiAddress ;;*
   require (forallb (fun b => bool_decide (b = x00))
              (drop (Z.to_nat (glc_address_len w)) (glc_address w))) NonZeroAddressPadding ;;*
   let* hash160 := map_err UnusableAddress (decode_p2pkh_hash160 (used_address w)) in
   Ok (decoded w address hash160)).
Proof.
  intros Hd (Hi & Ha & Hr & Hg & Hl & Hs & Hv & Hb & Hres).
  unfold decode_withdrawal, account_data.
  assert (length (disc ++ concat (request_fields w) ++ []) = WITHDRAWAL_ACCOUNT_LEN) as ->.
  { rewrite app_nil_r, length_app, Hd. pose proof (request_fits w Hr Hg Hres) as Hf.
    unfold WithdrawalRequest_SPACE, DISCRIMINATOR_LEN, WITHDRAWAL_ACCOUNT_LEN in *. lia. }
  rewrite Nat.eqb_refl. res_red. rewrite <- Hd, drop_app_length.
  rewrite (slice_field (request_fields w) [] 0 (le_bytes 8 (index w)) 0 8)
    by (try reflexivity; unfold request_fields; lens).
  rewrite (slice_field (request_fields w) [] 1 (le_bytes 8 (wr_amount w)) 8 16)
    by (try reflexivity; unfold request_fields; lens).
  rewrite (slice_field (request_fields w) [] 2 (requester w) 16 48)
    by (try reflexivity; unfold request_fields; lens).
  rewrite (slice_field (request_fields w) [] 3 (glc_address w) 48 112)
    by (try reflexivity; unfold request_fields; lens).
  rewrite (byte_at_field (request_fields w) [] 4 (byte_of_Z (glc_address_len w)) 112)
    by (try reflexivity; unfold request_fields; lens).
  rewrite (byte_at_field (request_fields w) [] 5 (byte_of_Z (status_tag_of (status w))) 113)
    by (try reflexivity; unfold request_fields; lens).
  rewrite (slice_field (request_fields w) [] 6 (le_bytes 8 (requested_at_slot w)) 114 122)
    by (try reflexivity; unfold request_fields; lens).
  rewrite (byte_at_field (request_fields w) [] 7 (byte_of_Z (wr_protocol_version w)) 122)
    by (try reflexivity; unfold request_fields; lens).
  rewrite (byte_at_field (request_fields w) [] 8 (byte_of_Z (wr_bump w)) 123)
    by (try reflexivity; unfold request_fields; lens).
  by rewrite !le_field_u64, status_tag_u8, !byte_field_le1 by done.
Qed.

(** What a payer accepts of a stored request. *)
Definition payable (program_id : Pubkey) (w : WithdrawalRequest) (hash160 : list byte) : Prop :=
  wr_bump w = (withdrawal_pda program_id (index w)).2 /\
  is_ascii (used_address w) = true /\ decode_p2pkh_hash160 (used_address w) = Ok hash160.

Lemma splice_padding a n :
  (length a <= n)%nat ->
  take (length a) (splice (zeros n) 0 a) = a /\
  drop (length a) (splice (zeros n) 0 a) = zeros (n - length a).
Proof.
  intros Hl. unfold splice. rewrite take_0, app_nil_l, take_app_length, drop_app_length. split; [done|].
  unfold zeros. by rewrite drop_replicate.
Qed.

Lemma decode_stored program_id disc c i w :
  length disc = DISCRIMINATOR_LEN -> request_ok c i w -> request_shape w -> in_u64 i ->
  in_u8 (wr_bump w) ->
  forall d, decode_withdrawal program_id (withdrawal_pda program_id i).1 program_id
         (account_data disc (request_fields w) []) = Ok d <->
       exists h, payable program_id w h /\ d = decoded w (withdrawal_pda program_id i).1 h.
Proof.
  intros Hd [Hi Hrange [Hpos Hamt] [Hgl Hlen] Hrec] [(a & Ha & Hg & Hgn) Hreq Hslot Hver] Hi64 Hb d.
  destruct (splice_padding a 64) as [Htake Hdrop]; [lia|].
  rewrite decode_withdrawal_eq; [|done|].
  2: { unfold request_typed, in_u8, U8_MAX in *. rewrite Hi, Hver. split_and!; try done; try lia.
       destruct Hrec as [[_ ->]|(_ & ? & _)]; done. }
  rewrite Hi, bool_decide_true by done. res_red. unfold payable. rewrite Hi.
  destruct (withdrawal_pda program_id i) as [pda bump]. cbn [fst snd].
  rewrite bool_decide_true by done. res_red.
  destruct (Z.eqb_spec (wr_bump w) bump) as [Hbump|Hbump]; res_red;
    [|split; [done|intros (h & (? & _) & _); congruence]].
  rewrite (proj2 (Z.eqb_neq (wr_amount w) 0)) by lia. res_red.
  rewrite (proj2 (Z.eqb_neq (glc_address_len w) 0)), (proj2 (Z.ltb_ge 64 (glc_address_len w))) by lia.
  cbn [orb negb]. res_red.
  destruct (is_ascii (used_address w)); res_red;
    [|split; [done|intros (h & (_ & ? & _) & _); congruence]].
  assert (forallb (fun b => bool_decide (b = x00))
            (drop (Z.to_nat (glc_address_len w)) (glc_address w)) = true) as ->.
  { rewrite Hg, Hgn, Nat2Z.id, Hdrop. apply forallb_forall. intros b Hin.
    apply list_elem_of_In, elem_of_replicate in Hin as [-> _]. by apply bool_decide_true. }
  res_red. destruct (decode_p2pkh_hash160 (used_address w)) as [h|e]; cbn [map_err]; res_red.
  - split; [intros [= <-]; eauto|]. intros (h' & (_ & _ & [= <-]) & ->). done.
  - split; [done|]. intros (h & (_ & _ & ?) & _). congruence.
Qed.
End decoding.

(** ** The scan over a reachable state *)

Section scan.
Context `{Sh : Sha2, Rt : SolanaRuntime} {T : SplToken} {R : Runtime}.
Context {outside : Type} `{N : SolanaRpc outside}.

(** The withdrawal accounts of a state, as the node reports them. *)
Definition stored_account (program_id : Pubkey) (disc : list byte) (iw : Z * WithdrawalRequest)
  : Pubkey * Account :=
  ((withdrawal_pda program_id iw.1).1,
   {| acc_owner := program_id; acc_data := account_data disc (request_fields iw.2) [] |}).
Definition stored_accounts (program_id : Pubkey) (disc : list byte) (b : Bridge)
  : list (Pubkey * Account) :=
  stored_account program_id disc <$> map_to_list (Program.withdrawal_requests b).

Definition canonical_bumps (program_id : Pubkey) (b : Bridge) : Prop :=
  forall i w, Program.withdrawal_requests b !! i = Some w ->
    in_u8 (wr_bump w) /\ wr_bump w = (withdrawal_pda program_id i).2.

Lemma scan_stored program_id disc at_ slot_ ls b i w r :
  steps ls b -> canonical_bumps program_id b -> length disc = DISCRIMINATOR_LEN ->
  Program.withdrawal_requests b !! i = Some w ->
  scan_account program_id at_ slot_ (stored_account program_id disc (i, w)) = Some r <->
  status w = Pending /\ exists h, is_ascii (used_address w) = true /\
    decode_p2pkh_hash160 (used_address w) = Ok h /\
    r = observed_row (decoded w (withdrawal_pda program_id i).1 h) at_ slot_.
Proof.
  intros Hls Hbumps Hd Hw. destruct (Hbumps i w Hw) as [Hb8 Hb].
  pose proof (steps_shapes _ _ Hls i w Hw) as Hsh.
  destruct (steps_inv _ _ Hls) as [? ? ? ? He|c s Hc Hs Hcok Hsok _ _ Hreqs _];
    [by rewrite He in Hw|].
  pose proof (Hreqs i w Hw) as Hok. destruct Hcok as [_ _ _ Hcount _].
  assert (in_u64 i) as Hi64. { destruct Hok as [_ Hr _ _ _]. unfold in_u64 in *. lia. }
  pose proof (decode_stored program_id disc c i w Hd Hok Hsh Hi64 Hb8) as Hdec.
  assert (index w = i) as Hidx by (by destruct Hok).
  unfold scan_account, stored_account. cbn [fst snd acc_owner acc_data].
  destruct (decode_withdrawal _ _ _ _) as [d|e] eqn:E.
  - destruct (proj1 (Hdec d) eq_refl) as (h & (_ & Ha & Hh) & ->). cbn [d_status_tag decoded].
    destruct (status w) eqn:Est; cbn.
    + split; [intros [= <-]; eauto 6|]. intros (_ & h' & _ & Hh' & ->).
      rewrite Hh in Hh'. by injection Hh' as <-.
    + split; [|intros [? _]; discriminate]. intros _. destruct Hok as [_ _ _ _ [[? _]|[? _]]]; congruence.
    + split; [done|]. by intros [? _].
  - split; [done|]. intros (_ & h & Ha & Hh & _).
    destruct (Hdec (decoded w (withdrawal_pda program_id i).1 h)) as [_ H]. discriminate H.
    exists h. split; [|done]. split_and!; [by rewrite Hidx|done|done].
Qed.

(** When the node lists the accounts a reachable program state stores, the scan
    returns, sorted by index, exactly the pending requests whose address is ASCII and
    decodes as a Goldcoin P2PKH address, each with the fields the program wrote;
    completed requests and undecodable ones are left out and stop nothing. *)
Theorem open_withdrawals_are_discovered program_id disc commitment at_ slot_ ls b o o' accounts :
  steps ls b -> canonical_bumps program_id b -> length disc = DISCRIMINATOR_LEN ->
  get_program_accounts_sized program_id WithdrawalRequest_SPACE commitment o = (o', Ok accounts) ->
  accounts ≡ₚ stored_accounts program_id disc b ->
  exists rows, scan_withdrawals program_id commitment at_ slot_ o = (o', Ok rows) /\
    Sorted by_index rows /\
    forall r, r ∈ rows <-> exists i w h,
      Program.withdrawal_requests b !! i = Some w /\ status w = Pending /\
      is_ascii (used_address w) = true /\ decode_p2pkh_hash160 (used_address w) = Ok h /\
      r = observed_row (decoded w (withdrawal_pda program_id i).1 h) at_ slot_.
Proof.
  intros Hls Hb Hd Hn Hp. unfold scan_withdrawals.
  change (Z.of_nat WITHDRAWAL_ACCOUNT_LEN) with WithdrawalRequest_SPACE. rewrite Hn. res_red.
  eexists. split; [done|]. split; [apply Sorted_merge_sort; intros x y; unfold by_index; lia|].
  intros r. rewrite merge_sort_Permutation, list_elem_of_omap. split.
  - intros (a & Ha & Hr). rewrite Hp in Ha. apply list_elem_of_fmap in Ha as ([i w] & -> & Hin).
    apply elem_of_map_to_list in Hin.
    apply (scan_stored _ _ _ _ ls b) in Hr as (? & h & ? & ? & ->); [|done..].
    by exists i, w, h.
  - intros (i & w & h & Hw & Hst & Ha & Hh & ->).
    exists (stored_account program_id disc (i, w)). split.
    + rewrite Hp. apply list_elem_of_fmap. exists (i, w). split; [done|]. by apply elem_of_map_to_list.
    + apply (scan_stored _ _ _ _ ls b); [done..|]. eauto.
Qed.
End scan.

(** ** A burned withdrawal, discovered *)

Definition open_address : str := @encode_p2pkh toy_sha2 (replicate 20 x05).
Definition open_burn_accounts : BurnWrappedAccounts :=
  {| bw_user := demo_user; bw_wrapped_mint := demo_mint;
     bw_user_token_account := demo_account; bw_bump_withdrawal_request := 255 |}.
Definition open_tx : TxEnv * BridgeInstruction :=
  (at_time 1003 None, BurnWrapped open_burn_accounts 200 open_address).
Definition open_state : Bridge :=
  match run_from (demo_state 3) [open_tx] with Ok b => b | Err _ => demo_genesis end.

Lemma open_tx_wf : tx_wf open_tx.
Proof. split; cbn; repeat split; try (vm_compute; congruence). Qed.

Lemma open_run : is_ok (run_from (demo_state 3) [open_tx]) = true.
Proof. vm_compute. reflexivity. Qed.

Lemma open_state_reachable : steps (demo_labels 3 ++ [Tx open_tx.1 open_tx.2]) open_state.
Proof.
  apply (run_from_steps _ (demo_state 3) [open_tx]); [apply demo_reachable; lia| |].
  - constructor; [apply open_tx_wf|constructor].
  - unfold open_state. pose proof open_run as H. by destruct (run_from (demo_state 3) [open_tx]).
Qed.

(** A node that knows a list of accounts. *)
Definition listing_node : SolanaRpc (list (Pubkey * Account)) :=
  {| get_account k o := 
       (o, Ok (match list_find (fun a => a.1 = k) o with Some (_, a) => Some a.2 | None => None end));
     get_latest_blockhash o := (o, Ok (zeros 32));
     send_transaction _ o := (o, Err (Method (lit "read-only")));
     get_program_accounts_sized _ _ _ o := (o, Ok o) |}.

Lemma open_bumps : @canonical_bumps toy_solana ledger crate_ID open_state.
Proof.
  assert (forallb (fun iw => wr_bump iw.2 =? 255) (map_to_list (Program.withdrawal_requests open_state)) = true)
    as H by (vm_compute; reflexivity).
  intros i w Hw. rewrite forallb_forall in H. specialize (H (i, w)). cbn in H.
  rewrite <- list_elem_of_In, elem_of_map_to_list in H. specialize (H Hw). bools.
  rewrite H. split; [unfold in_u8, U8_MAX; lia|done].
Qed.

Lemma open_withdrawals_are_discovered_witness :
  let accounts := @stored_accounts toy_solana ledger crate_ID (zeros 8) open_state in
  exists rows,
    @scan_withdrawals toy_sha2 toy_solana _ listing_node crate_ID Finalized 2000 90 accounts =
      (accounts, Ok rows) /\ Sorted by_index rows /\
    forall r, r ∈ rows <-> exists i w h,
      Program.withdrawal_requests open_state !! i = Some w /\ status w = Pending /\
      is_ascii (used_address w) = true /\
      @decode_p2pkh_hash160 toy_sha2 (used_address w) = Ok h /\
      r = observed_row (decoded w (@withdrawal_pda toy_solana crate_ID i).1 h) 2000 90.
Proof.
  intros accounts.
  exact (@open_withdrawals_are_discovered toy_sha2 toy_solana ledger toy_runtime _ listing_node
    crate_ID (zeros 8) Finalized 2000 90 _ open_state accounts accounts accounts
    open_state_reachable open_bumps eq_refl eq_refl (Permutation_refl accounts)).
Defined.

(** The row the scan returns for it. *)
Example open_withdrawal_row :
  let accounts := @stored_accounts toy_solana ledger crate_ID (zeros 8) open_state in
  match (@scan_withdrawals toy_sha2 toy_solana _ listing_node crate_ID Finalized 2000 90 accounts).2 with
  | Ok rows => map (fun r => (nw_index r, nw_amount r, nw_address r, nw_hash160 r)) rows
  | Err _ => []
  end = [(0, 200, open_address, replicate 20 x05)].
Proof. vm_compute. reflexivity. Qed.
