(* ===== verification/Effects.v ===== *)
(** * Stateful fallible code

    The monad of the async services: a function of a state that returns the
    new state and a result.  An [Err] keeps the state reached so far, as [?]
    does.  [hoare] and [runs] are the proof rules: a relation kept by every
    primitive is kept by what is built from them. *)
From Stdlib Require Import ZArith Lia.
From stdpp Require Import base list.
From S2P Require Import Prelude.

Definition SE (W E A : Type) : Type := W -> W * result E A.

#[export] Instance SE_ret W E : MRet (SE W E) := fun A a w => (w, Ok a).
#[export] Instance SE_bind W E : MBind (SE W E) := fun A B f m w =>
  match m w with
  | (w, Ok a) => f a w
  | (w, Err e) => (w, Err e)
  end.

Definition lift {W E A} (r : result E A) : SE W E A := fun w => (w, r).
Definition gets {W E A} (f : W -> A) : SE W E A := fun w => (w, Ok (f w)).
Definition modify {W E} (f : W -> W) : SE W E unit := fun w => (f w, Ok tt).
(** [for a in l { f(a).await?; }] *)
Fixpoint for_all {W E A} (f : A -> SE W E unit) (l : list A) : SE W E unit :=
  match l with
  | [] => mret tt
  | a :: l => f a ≫= fun _ => for_all f l
  end.

(** ** Proof rules

    [hoare P m Q]: from a state with [P] every run of [m], failed or not, is
    a step of [R], and a successful one ends in [Q]. *)
Section logic.
Context {W E : Type} (R : W -> W -> Prop) {HR : PreOrder R}.

Definition hoare {A} (P : W -> Prop) (m : SE W E A) (Q : A -> W -> Prop) : Prop :=
  forall w, P w -> R w (m w).1 /\ forall a, (m w).2 = Ok a -> Q a (m w).1.

Lemma hoare_ret {A} (a : A) (P : W -> Prop) : hoare P (mret a) (fun a' w => a' = a /\ P w).
Proof. intros w Hw. split; [cbn; reflexivity|]. by intros ? [= <-]. Qed.

Lemma hoare_lift {A} (r : result E A) (P : W -> Prop) :
  hoare P (lift r) (fun a w => r = Ok a /\ P w).
Proof. intros w Hw. split; [cbn; reflexivity|]. done. Qed.

Lemma hoare_gets {A} (f : W -> A) (P : W -> Prop) :
  hoare P (gets f) (fun a w => a = f w /\ P w).
Proof. intros w Hw. split; [cbn; reflexivity|]. by intros ? [= <-]. Qed.

Lemma hoare_modify (f : W -> W) (P : W -> Prop) (Q : unit -> W -> Prop) :
  (forall w, P w -> R w (f w) /\ Q tt (f w)) -> hoare P (modify f) Q.
Proof. intros Hf w Hw. destruct (Hf w Hw). split; [done|]. by intros [] _. Qed.

Lemma hoare_bind {A B} P (m : SE W E A) Q (f : A -> SE W E B) S :
  hoare P m Q -> (forall a, hoare (Q a) (f a) S) -> hoare P (m ≫= f) S.
Proof.
  intros Hm Hf w Hw. destruct (Hm w Hw) as [HR1 HQ]. unfold mbind, SE_bind.
  destruct (m w) as [w' [a|e]]; cbn in *; [|done].
  destruct (Hf a w') as [HR2 HS]; [by apply HQ|]. split; [by etrans|done].
Qed.

Lemma hoare_conseq {A} (P P' : W -> Prop) (m : SE W E A) (Q Q' : A -> W -> Prop) :
  hoare P' m Q' -> (forall w, P w -> P' w) -> (forall a w, Q' a w -> Q a w) -> hoare P m Q.
Proof. intros Hm HP HQ w Hw. destruct (Hm w (HP w Hw)). eauto. Qed.

Lemma hoare_pre {A} (P P' : W -> Prop) (m : SE W E A) Q :
  hoare P' m Q -> (forall w, P w -> P' w) -> hoare P m Q.
Proof. eauto using hoare_conseq. Qed.

Lemma hoare_pure {A} (F : Prop) (P : W -> Prop) (m : SE W E A) Q :
  (F -> hoare P m Q) -> hoare (fun w => F /\ P w) m Q.
Proof. intros H w [HF HP]. by apply H. Qed.

Lemma hoare_for_all {A} (f : A -> SE W E unit) (P : W -> Prop) l :
  (forall a, a ∈ l -> hoare P (f a) (fun _ => P)) -> hoare P (for_all f l) (fun _ => P).
Proof.
  induction l as [|a l IH]; intros Hf; cbn [for_all].
  - eapply hoare_conseq; [apply hoare_ret|done|by intros ? ? [_ ?]].
  - eapply hoare_bind; [apply Hf; left|]. intros u. apply IH. intros b Hb. apply Hf. by right.
Qed.

(** What every state reached from [w] along [R] still satisfies. *)
Lemma hoare_frame {A} (P I : W -> Prop) (m : SE W E A) Q :
  (forall w w', I w -> R w w' -> I w') -> hoare P m Q ->
  hoare (fun w => I w /\ P w) m (fun a w => I w /\ Q a w).
Proof. intros HI Hm w [Hi Hw]. destruct (Hm w Hw). split; [done|]. split; eauto. Qed.

(** Every run, failed or not, is a step of [R]. *)
Definition runs {A} (m : SE W E A) : Prop := forall w, R w (m w).1.

Lemma runs_ret {A} (a : A) : runs (mret a).
Proof. intros w. cbn. reflexivity. Qed.
Lemma runs_lift {A} (r : result E A) : runs (lift r).
Proof. intros w. cbn. reflexivity. Qed.
Lemma runs_gets {A} (f : W -> A) : runs (gets f).
Proof. intros w. cbn. reflexivity. Qed.
Lemma runs_modify f : (forall w, R w (f w)) -> runs (modify f).
Proof. done. Qed.

Lemma runs_bind {A B} (m : SE W E A) (f : A -> SE W E B) :
  runs m -> (forall a, runs (f a)) -> runs (m ≫= f).
Proof.
  intros Hm Hf w. unfold mbind, SE_bind. pose proof (Hm w) as H.
  destruct (m w) as [w' [a|e]]; cbn in *; [|done]. etrans; [exact H|apply Hf].
Qed.

Lemma runs_for_all {A} (f : A -> SE W E unit) l : (forall a, runs (f a)) -> runs (for_all f l).
Proof.
  intros Hf. induction l as [|a l IH]; cbn [for_all]; [apply runs_ret|]. by apply runs_bind.
Qed.
End logic.

(** Takes a computation apart at its control flow. *)
Ltac runs :=
  repeat first
    [ apply runs_ret; by apply _ | apply runs_lift; by apply _ | apply runs_gets; by apply _
    | apply runs_bind; [by apply _| |intros ?]
    | apply runs_for_all; [by apply _|intros ?]
    | case_match ].

(** A preorder from any step relation on a component of the state. *)
#[export] Instance star_preorder {S} (step : S -> S -> Prop) : PreOrder (star step).
Proof.
  split; [intros s; constructor|]. intros a b c Hab Hbc. induction Hbc; eauto using star_step.
Qed.

Lemma SE_bind_Ok {W E A B} (m : SE W E A) (f : A -> SE W E B) w w' b :
  (m ≫= f) w = (w', Ok b) <-> exists w1 a, m w = (w1, Ok a) /\ f a w1 = (w', Ok b).
Proof.
  unfold mbind, SE_bind. destruct (m w) as [w1 [a|e]]; split; [eauto| |done|].
  - by intros (? & ? & [= <- <-] & ?).
  - by intros (? & ? & ? & ?).
Qed.

(** Steps through a computation whose next primitive's outcome is known. *)
Lemma SE_bind_step {W E A B} (m : SE W E A) (f : A -> SE W E B) w w1 a :
  m w = (w1, Ok a) -> (m ≫= f) w = f a w1.
Proof. intros H. unfold mbind, SE_bind. by rewrite H. Qed.

Lemma SE_bind_stop {W E A B} (m : SE W E A) (f : A -> SE W E B) w w1 e :
  m w = (w1, Err e) -> (m ≫= f) w = (w1, Err e).
Proof. intros H. unfold mbind, SE_bind. by rewrite H. Qed.
