(* ===== verification/ChainPass.v ===== *)
(** * A pass that submits transactions

    What [relayer/src/withdrawal/completion.rs] and
    [relayer/src/orchestrator.rs] have in common: a pass over a database and
    a chain client that reads accounts, collects signatures and sends
    transactions, and the proof rules for what it sends. *)
From Stdlib Require Import ZArith Lia Strings.Byte.
From stdpp Require Import base numbers strings gmap list.
From S2P Require Import Prelude Effects State Token Hex Verification Program Handlers SignatureProof Accounts.
From S2P Require Import SolanaInstruction SolanaRpc.

(** ** The state and its primitives *)

Record World {outside db report : Type} := {
  c_outside : outside; c_db : db; c_report : report
}.
Arguments World : clear implicits.

Section primitives.
Context {outside db report E : Type}.
Abbreviation M := (SE (World outside db report) E).

Definition ask {A} (f : outside -> outside * A) : M A := fun w =>
  let (o, a) := f (c_outside w) in
  ({| c_outside := o; c_db := c_db w; c_report := c_report w |}, Ok a).
(** A database operation and its [map_err]. *)
Definition with_db {X A} (wrap : X -> E) (f : db -> db * result X A) : M A := fun w =>
  let (d, r) := f (c_db w) in
  ({| c_outside := c_outside w; c_db := d; c_report := c_report w |}, map_err wrap r).
Definition put_db (f : db -> db) : M unit :=
  modify (fun w => {| c_outside := c_outside w; c_db := f (c_db w); c_report := c_report w |}).
Definition count_ (f : report -> report) : M unit :=
  modify (fun w => {| c_outside := c_outside w; c_db := c_db w; c_report := f (c_report w) |}).

(** [Self::call] of both submitters. *)
Definition retrying {A} (classify : SolanaRpcError -> E) (attempts : nat)
    (f : outside -> outside * result SolanaRpcError A) : M A :=
  r ← ask (call_with_retry f attempts); lift (map_err classify r).
End primitives.

(** The [Instruction] of [build_ed25519_instruction]. *)
Definition ed25519_instruction {R : Runtime} (sigs : list (Pubkey * Signature)) (message : list byte)
  : SolanaInstruction :=
  {| si_program_id := ed25519_program_ID; si_accounts := [];
     si_data := build_ed25519_instruction sigs message |}.

(** The program accepts it as the proof of the next instruction. *)
Lemma approved_by_proof {R : Runtime} env s (sigs : list (Pubkey * Signature)) message n :
  (length (validators s) <= MAX_VALIDATORS)%nat -> sized sigs message ->
  NoDup sigs.*1 -> Forall (fun pk => pk ∈ validators s) sigs.*1 ->
  count_unique_threshold_signers sigs (validators s) (threshold s) = Ok n ->
  previous_instruction env = Some {| ix_program_id := ed25519_program_ID;
                                     ix_data := build_ed25519_instruction sigs message |} ->
  approved env s message.
Proof.
  intros Hlen Hs Hnd Hin Hc Hp. apply approved_spec; [done|]. eexists _, (length sigs).
  split_and!; [exact Hp|done|by apply built_proof_verdict|].
  unfold count_unique_threshold_signers in Hc. rewrite threshold_count in Hc by done.
  case_match; [|done]. by bools.
Qed.

(** ** The calls that matter *)

Inductive Event :=
| Read (key : Pubkey) (answer : result SolanaRpcError (option Account))
| Sent (tx : SolanaTransaction).

Definition pass {O A} (f : O -> O * A) (o : O * list Event) : (O * list Event) * A :=
  let (o', a) := f o.1 in ((o', o.2), a).
Definition noting {O A} (e : A -> Event) (f : O -> O * A) (o : O * list Event)
  : (O * list Event) * A :=
  let (o', a) := f o.1 in ((o', o.2 ++ [e a]), a).

(** Any outside, with a log of them. *)
Definition logging_rpc {O} (N : SolanaRpc O) : SolanaRpc (O * list Event) :=
  {| get_account k := noting (Read k) (get_account k);
     get_latest_blockhash := pass get_latest_blockhash;
     send_transaction tx := noting (fun _ => Sent tx) (send_transaction tx);
     get_program_accounts_sized p n c := pass (get_program_accounts_sized p n c) |}.

Lemma noting_eq {O A} (e : A -> Event) (f : O -> O * A) o :
  noting e f o = (((f o.1).1, o.2 ++ [e (f o.1).2]), (f o.1).2).
Proof. unfold noting. by destruct (f o.1). Qed.

Lemma pass_eq {O A} (f : O -> O * A) (o : O * list Event) :
  pass f o = (((f o.1).1, o.2), (f o.1).2).
Proof. unfold pass. by destruct (f o.1). Qed.

(** The events of a retried call: one per attempt, the last for its answer. *)
Lemma retry_noting {O A} (e : result SolanaRpcError A -> Event) (f : O -> O * result SolanaRpcError A)
    n (o : O * list Event) :
  exists rs, (call_with_retry (noting e f) n o).1.2 =
    o.2 ++ (e <$> rs) ++ [e (call_with_retry (noting e f) n o).2].
Proof.
  unfold call_with_retry. generalize (n - 1)%nat as k. intros k. revert o.
  induction k as [|k IH]; intros o; cbn [retry_from]; rewrite noting_eq;
    destruct (f o.1) as [o' [v|err]]; cbn [fst snd].
  1-3: by exists [].
  destruct (is_retriable err); [|by exists []].
  destruct (IH (o', o.2 ++ [e (Err err)])) as (rs & Hl). exists (Err err :: rs).
  rewrite Hl. cbn. by rewrite <- app_assoc.
Qed.

Lemma retry_pass {O A} (f : O -> O * result SolanaRpcError A) n (o : O * list Event) :
  (call_with_retry (pass f) n o).1.2 = o.2.
Proof.
  unfold call_with_retry. generalize (n - 1)%nat as k. intros k. revert o.
  induction k as [|k IH]; intros o; cbn [retry_from]; rewrite pass_eq;
    destruct (f o.1) as [o' [v|err]]; try done.
  cbn [fst snd]. destruct (is_retriable err); [|done]. by rewrite IH.
Qed.

(** ** Proof rules for what is sent

    [J before tx]: [tx] may be sent after the calls [before].  [Keeps]
    relates the databases before and after. *)
Section rules.
Context {O D R E : Type} (J : list Event -> SolanaTransaction -> Prop) (Keeps : D -> D -> Prop).
Context {HK : PreOrder Keeps}.
Context (J_more : forall before more tx, J before tx -> J (before ++ more) tx).
Abbreviation W := (World (O * list Event) D R).

Definition log (w : W) : list Event := (c_outside w).2.

(** Every transaction of [new] is justified by what came before it. *)
Definition all_justified (before new : list Event) : Prop :=
  forall a tx z, new = a ++ Sent tx :: z -> J (before ++ a) tx.

Lemma all_justified_app before new1 new2 :
  all_justified before new1 -> all_justified (before ++ new1) new2 ->
  all_justified before (new1 ++ new2).
Proof.
  intros H1 H2 a tx z E'. apply app_eq_inv in E' as [(l & -> & El)|(l & -> & El)].
  - destruct l as [|x l]; cbn in El.
    + rewrite app_nil_r in H2. pose proof (H2 [] tx z (eq_sym El)) as H. by rewrite app_nil_r in H.
    + injection El as <- El. by eapply H1.
  - rewrite app_assoc. by eapply H2.
Qed.

Lemma no_sends_justified before new : (forall tx, Sent tx ∉ new) -> all_justified before new.
Proof. intros H a tx z ->. destruct (H tx). apply elem_of_app. right. left. Qed.

Definition passes (w w' : W) : Prop :=
  Keeps (c_db w) (c_db w') /\
  exists new, log w' = log w ++ new /\ all_justified (log w) new.

#[export] Instance passes_preorder : PreOrder passes.
Proof.
  split.
  - intros w. split; [reflexivity|]. exists []. rewrite app_nil_r. split; [done|].
    apply no_sends_justified. intros tx []%elem_of_nil.
  - intros w1 w2 w3 [Hs1 (n1 & E1 & J1)] [Hs2 (n2 & E2 & J2)]. split; [by etrans|].
    exists (n1 ++ n2). rewrite E2, E1, app_assoc. split; [done|].
    apply all_justified_app; [done|]. by rewrite <- E1.
Qed.

(** Steps that send nothing. *)
Lemma quiet_passes (w w' : W) new :
  Keeps (c_db w) (c_db w') -> log w' = log w ++ new -> (forall tx, Sent tx ∉ new) -> passes w w'.
Proof. intros Hs Hl Hn. split; [done|]. exists new. split; [done|]. by apply no_sends_justified. Qed.

Lemma silent_passes (w w' : W) : Keeps (c_db w) (c_db w') -> log w' = log w -> passes w w'.
Proof.
  intros Hs Hl. apply (quiet_passes _ _ []); [done|by rewrite app_nil_r|]. intros tx []%elem_of_nil.
Qed.

Definition seen (e : Event) (w : W) : Prop := e ∈ log w.
Lemma seen_passes e w w' : seen e w -> passes w w' -> seen e w'.
Proof. unfold seen. intros He [_ (n & -> & _)]. apply elem_of_app. by left. Qed.

(** What holds on along a pass. *)
Definition lasting (P : W -> Prop) : Prop := forall w w', P w -> passes w w' -> P w'.
Lemma lasting_seen e : lasting (seen e).
Proof. intros w w'. apply seen_passes. Qed.
Lemma lasting_and P Q : lasting P -> lasting Q -> lasting (fun w => P w /\ Q w).
Proof. intros HP HQ w w' [? ?] Hp. split; eauto. Qed.
Lemma lasting_const (P : Prop) : lasting (fun _ => P).
Proof. by intros w w'. Qed.
Lemma lasting_exists {A} (P : A -> W -> Prop) :
  (forall a, lasting (P a)) -> lasting (fun w => exists a, P a w).
Proof. intros HP w w' [a Ha] Hp. exists a. by eapply HP. Qed.
Lemma lasting_keeps (P : D -> Prop) : (forall d d', P d -> Keeps d d' -> P d') -> lasting (fun w => P (c_db w)).
Proof. intros HP w w' Hw [Hk _]. eauto. Qed.

Abbreviation hoare := (Effects.hoare (E := E) passes).

Lemma hoare_seq {A B} P (m : SE W E A) Q (f : A -> SE W E B) S' :
  hoare P m Q -> (forall a, hoare (Q a) (f a) S') -> hoare P (m ≫= f) S'.
Proof. apply hoare_bind, _. Qed.

Lemma hoare_ask_answer {A} (P : W -> Prop) (f : O -> O * A) :
  lasting P -> hoare P (ask (pass f)) (fun a w => (exists o, a = (f o).2) /\ P w).
Proof.
  intros HP w Hw. unfold ask. rewrite pass_eq. cbn.
  assert (passes w {| c_outside := ((f (c_outside w).1).1, (c_outside w).2); c_db := c_db w; c_report := c_report w |})
    by (by apply silent_passes).
  split; [done|]. intros a [= <-]. split; [eauto|]. by eapply HP.
Qed.

Lemma hoare_ask_pass {A} (P : W -> Prop) (f : O -> O * A) :
  lasting P -> hoare P (ask (pass f)) (fun _ => P).
Proof.
  intros HP. eapply hoare_conseq; [by apply hoare_ask_answer|done|]. by intros a w [_ ?].
Qed.

Lemma hoare_call_pass {A} (P : W -> Prop) cl n (f : O -> O * result SolanaRpcError A) :
  lasting P -> hoare P (retrying cl n (pass f)) (fun _ => P).
Proof.
  intros HP. unfold retrying. eapply (hoare_bind passes _ _ (fun _ => P)).
  - intros w Hw. unfold ask. destruct (call_with_retry (pass f) n (c_outside w)) as [o' r] eqn:Er.
    assert (o'.2 = (c_outside w).2) as Hl by (by rewrite <- (retry_pass f n (c_outside w)), Er).
    cbn. assert (passes w {| c_outside := o'; c_db := c_db w; c_report := c_report w |})
      by (by apply silent_passes).
    split; [done|]. intros a _. by eapply HP.
  - intros r. eapply hoare_conseq; [apply hoare_lift, _|done|]. by intros a w [_ ?].
Qed.

Lemma hoare_call_read (P : W -> Prop) cl n k (f : O -> O * result SolanaRpcError (option Account)) :
  lasting P -> hoare P (retrying cl n (noting (Read k) f)) (fun a w => seen (Read k (Ok a)) w /\ P w).
Proof.
  intros HP. unfold retrying.
  eapply (hoare_bind passes _ _ (fun r w => seen (Read k r) w /\ P w)).
  - intros w Hw. unfold ask. pose proof (retry_noting (Read k) f n (c_outside w)) as [rs Hl].
    destruct (call_with_retry _ _ _) as [o' r]. cbn in *.
    assert (passes w {| c_outside := o'; c_db := c_db w; c_report := c_report w |}) as Hp.
    { apply (quiet_passes _ _ ((Read k <$> rs) ++ [Read k r])); [done|done|].
      intros tx [(? & ? & _)%list_elem_of_fmap|H%list_elem_of_singleton]%elem_of_app; done. }
    split; [done|]. intros a [= <-]. split; [|by eapply HP]. unfold seen, log. cbn. rewrite Hl.
    rewrite !elem_of_app. right. right. by left.
  - intros r. eapply hoare_conseq; [apply hoare_lift, _|exact (fun w H => H)|].
    intros a w [Hr [Hs Hw]]. destruct r; [|done]. injection Hr as ->. done.
Qed.

Lemma hoare_call_send {A} (P : W -> Prop) cl n tx (f : O -> O * result SolanaRpcError A) :
  lasting P -> (forall w, P w -> J (log w) tx) ->
  hoare P (retrying cl n (noting (fun _ => Sent tx) f)) (fun _ => P).
Proof.
  intros HP Hj. unfold retrying. eapply (hoare_bind passes _ _ (fun _ => P)).
  - intros w Hw. unfold ask. pose proof (retry_noting (fun _ => Sent tx) f n (c_outside w)) as [rs Hl].
    destruct (call_with_retry _ _ _) as [o' r]. cbn in *.
    assert (passes w {| c_outside := o'; c_db := c_db w; c_report := c_report w |}) as Hp.
    { split; [done|]. eexists. split; [exact Hl|]. intros a tx' z E'.
      assert (Sent tx' ∈ ((fun _ => Sent tx) <$> rs) ++ [Sent tx]) as Hin.
      { rewrite E'. apply elem_of_app. right. left. }
      assert (tx' = tx) as ->.
      { apply elem_of_app in Hin as [(? & [= ->] & _)%list_elem_of_fmap|[= ->]%list_elem_of_singleton]; done. }
      by apply J_more, Hj. }
    split; [done|]. intros a _. by eapply HP.
  - intros r. eapply hoare_conseq; [apply hoare_lift, _|done|]. by intros a w [_ ?].
Qed.

Lemma hoare_put_db (P : W -> Prop) (f : D -> D) :
  lasting P -> (forall d, Keeps d (f d)) -> hoare P (put_db f) (fun _ => P).
Proof.
  intros HP Hf. apply hoare_modify. intros w Hw.
  assert (passes w {| c_outside := c_outside w; c_db := f (c_db w); c_report := c_report w |})
    by (by apply silent_passes).
  split; [done|]. by eapply HP.
Qed.

Lemma hoare_with_db {X A} (P : W -> Prop) (wrap : X -> E) (f : D -> D * result X A) :
  lasting P -> (forall d, Keeps d (f d).1) ->
  hoare P (with_db wrap f) (fun a w => (exists d d', Keeps d d' /\ Keeps d' (c_db w) /\ f d = (d', Ok a)) /\ P w).
Proof.
  intros HP Hf w Hw. unfold with_db. pose proof (Hf (c_db w)) as Hk.
  destruct (f (c_db w)) as [d r] eqn:Ef. cbn in *.
  assert (passes w {| c_outside := c_outside w; c_db := d; c_report := c_report w |})
    by (by apply silent_passes).
  split; [done|]. intros a Ha. destruct r as [a'|x]; [|done]. injection Ha as ->.
  split; [|by eapply HP]. exists (c_db w), d. split; [done|]. split; [reflexivity|done].
Qed.

Lemma hoare_count (P : W -> Prop) f : lasting P -> hoare P (count_ f) (fun _ => P).
Proof.
  intros HP. apply hoare_modify. intros w Hw.
  assert (passes w {| c_outside := c_outside w; c_db := c_db w; c_report := f (c_report w) |})
    by (by apply silent_passes).
  split; [done|]. by eapply HP.
Qed.

Lemma hoare_gets_quiet {A} (P : W -> Prop) (f : W -> A) :
  hoare P (gets f) (fun a w => a = f w /\ P w).
Proof. apply hoare_gets, _. Qed.

Lemma hoare_lift_quiet {A} (P : W -> Prop) (r : result E A) :
  hoare P (lift r) (fun a w => r = Ok a /\ P w).
Proof. apply hoare_lift, _. Qed.

(** What a whole pass sends. *)
Lemma pass_justified {A} (m : SE W E A) (P : W -> Prop) Q (o : O) d r :
  hoare P m Q -> P {| c_outside := (o, []); c_db := d; c_report := r |} ->
  all_justified [] (log (m {| c_outside := (o, []); c_db := d; c_report := r |}).1).
Proof.
  intros Hm HP. destruct (Hm _ HP) as [[_ (new & Hn & Hj)] _]. cbn in *. by rewrite Hn.
Qed.
End rules.

(** ** What a pass writes: any relation its database operations satisfy *)
Section writes.
Context {O D R E : Type} (Rel : D -> D -> Prop) {HR : PreOrder Rel}.

Definition writes (w w' : World O D R) : Prop := Rel (c_db w) (c_db w').
#[export] Instance writes_preorder : PreOrder writes.
Proof. split; [intros w; unfold writes; reflexivity|]. intros a b c H1 H2. unfold writes in *. by etrans. Qed.

Lemma runs_ask {A} (f : O -> O * A) : runs (E := E) writes (ask f).
Proof. intros w. unfold ask, writes. destruct (f (c_outside w)). cbn. reflexivity. Qed.
Lemma runs_count f : runs (E := E) writes (count_ f).
Proof. intros w. unfold writes. cbn. reflexivity. Qed.
Lemma runs_put_db f : (forall d, Rel d (f d)) -> runs (E := E) writes (put_db f).
Proof. intros Hf w. apply Hf. Qed.
Lemma runs_with_db {X A} (wrap : X -> E) (f : D -> D * result X A) :
  (forall d, Rel d (f d).1) -> runs writes (with_db wrap f).
Proof. intros Hf w. unfold with_db, writes. specialize (Hf (c_db w)). by destruct (f (c_db w)). Qed.
Lemma runs_retrying {A} cl n (f : O -> O * result SolanaRpcError A) :
  runs (E := E) writes (retrying cl n f).
Proof. apply runs_bind; [apply _|apply runs_ask|]. intros r. apply runs_lift, _. Qed.
End writes.
