(* ===== verification/Completion.v ===== *)
(** * Recording payouts on chain: [relayer/src/withdrawal/completion.rs], [status.rs]

    The submitter's pass over the payouts this relayer has seen through: it
    first reads the chain, then asks the federation to attest its own
    facts, and sends one transaction.  The chain, the signers, the clock and
    the epoch observation are the class [CompletionOutside]. *)
From Stdlib Require Import ZArith Lia Strings.Byte.
From stdpp Require Import base numbers strings gmap list.
From S2P Require Import Prelude Effects Messages State Token Hex DepositDb WithdrawalDb.
From S2P Require Import Verification SignatureProof Accounts SolanaInstruction SolanaRpc Discovery Epoch ChainPass.

Definition STATUS_OFFSET : nat := 8 + 113.

Inductive CompletionError :=
| NodeUnavailable (e : SolanaRpcError)
| RpcFailed (e : SolanaRpcError)
| DbFailed (e : DbError)
| ValidatorSetMissing
| CompletionPanic.

Record CompletionReport := {
  reconciled : Z; submitted : Z; insufficient : Z; skipped : Z
}.
Definition default_report : CompletionReport :=
  {| reconciled := 0; submitted := 0; insufficient := 0; skipped := 0 |}.
Definition count_reconciled (r : CompletionReport) : CompletionReport :=
  {| reconciled := reconciled r + 1; submitted := submitted r; insufficient := insufficient r;
     skipped := skipped r |}.
Definition count_submitted (r : CompletionReport) : CompletionReport :=
  {| reconciled := reconciled r; submitted := submitted r + 1; insufficient := insufficient r;
     skipped := skipped r |}.
Definition count_insufficient (r : CompletionReport) : CompletionReport :=
  {| reconciled := reconciled r; submitted := submitted r; insufficient := insufficient r + 1;
     skipped := skipped r |}.
Definition count_skipped (r : CompletionReport) : CompletionReport :=
  {| reconciled := reconciled r; submitted := submitted r; insufficient := insufficient r;
     skipped := skipped r + 1 |}.

Class CompletionOutside (outside : Type) := {
  co_rpc :: SolanaRpc outside;
  co_now_unix : outside -> outside * Z;
  co_epoch : outside -> EpochObservation;
  (** [collect_completion_signatures]: epoch, index, txid, height, message *)
  collect_completion_signatures : Z -> Z -> list byte -> Z -> list byte -> outside ->
    outside * list (Pubkey * Signature)
}.

(** The submitter's own fields. *)
Record Submitter := {
  s_program_id : Pubkey; s_submitter : Pubkey; s_protocol_version : Z
}.

Definition INNER_RETRY_ATTEMPTS : nat := 3.

(** [SolanaWithdrawalStatus::is_completed] *)
Definition is_completed {outside} `{Rt : SolanaRuntime, N : SolanaRpc outside} (program_id : Pubkey)
    (withdrawal_index : Z) (o : outside) : outside * result str bool :=
  let (o, account) := get_account (withdrawal_pda program_id withdrawal_index).1 o in
  (o, let* account := map_err (fun e => match e with
                                        | Transport m => lit "transport error contacting Solana RPC: " ++ m
                                        | Method m => lit "Solana RPC returned an error: " ++ m
                                        | Malformed m => lit "malformed account data: " ++ m
                                        end) account in
      let* account :=
        ok_or account (lit "no on-chain account for withdrawal " ++ display withdrawal_index) in
      let* status := ok_or (acc_data account !! STATUS_OFFSET)
                       (lit "withdrawal account is too short to carry a status") in
      Ok (byte_to_Z status =? STATUS_COMPLETED)).

Section submitter.
Context `{Sh : Sha2, Rt : SolanaRuntime, R : Runtime} {outside : Type} `{N : CompletionOutside outside}.

Abbreviation World := (ChainPass.World outside Tables CompletionReport).
Abbreviation M := (SE World CompletionError).

Definition now : M Z := ask co_now_unix.

Definition classify (e : SolanaRpcError) : CompletionError :=
  if is_retriable e then NodeUnavailable e else RpcFailed e.
(** [Self::call] *)
Definition call {A} (f : outside -> outside * result SolanaRpcError A) : M A :=
  retrying classify INNER_RETRY_ATTEMPTS f.

Context (S : Submitter).

(** The facts to attest, from this relayer's own database.  A [txid_hex]
    column is the encoding of the txid. *)
Definition local_completion_facts (index : Z) (d : Tables)
  : result CompletionError (option (list byte * Z * Z * list byte)) :=
  match get_withdrawal index d, get_payout index d with
  | Some w, Some p =>
      match encode <$> p_txid p with
      | None => Ok None
      | Some txid_hex =>
          match decode_exact 32 txid_hex with
          | Err Panicked => Err CompletionPanic
          | Err (HexErr _) => Ok None
          | Ok txid =>
              match p_mined_height p with
              | None => Ok None
              | Some height =>
                  Ok (Some (rev txid, as_u64 height, w_amount w,
                            destination_commitment (w_address w)))
              end
          end
      end
  | _, _ => Ok None
  end.

(** The transaction of [process_one]. *)
Definition completion_transaction (sigs : list (Pubkey * Signature)) (message : list byte)
    (index : Z) (payout_txid : list byte) (payout_height epoch : Z) (blockhash : list byte)
  : SolanaTransaction :=
  {| tx_instructions :=
       [ed25519_instruction sigs message;
        complete_withdrawal_instruction (s_program_id S)
          {| ck_submitter := s_submitter S;
             ck_bridge_config := (bridge_config_pda (s_program_id S)).1;
             ck_validator_set := (validator_set_pda (s_program_id S)).1;
             ck_withdrawal := (withdrawal_pda (s_program_id S) (as_u64 index)).1 |}
          (as_u64 index) payout_txid payout_height epoch];
     tx_payer := s_submitter S; tx_signers := [s_submitter S]; tx_blockhash := blockhash |}.

(** [process_one] from the collection of the signatures on. *)
Definition attest_and_submit (index : Z) (payout_txid : list byte) (payout_height amount : Z)
    (dest_commitment : list byte) : M unit :=
  epoch ← gets (fun w => Epoch.epoch (co_epoch (c_outside w)));
  let message :=
    withdrawal_completion_message (s_protocol_version S) (s_program_id S) epoch (as_u64 index)
      payout_txid payout_height amount dest_commitment in
  sigs ← ask (collect_completion_signatures epoch (as_u64 index) payout_txid payout_height message);
  set_account ← call (get_account (validator_set_pda (s_program_id S)).1);
  set_account ← lift (ok_or set_account ValidatorSetMissing);
  snapshot ← lift (map_err RpcFailed (decode_validator_set (acc_data set_account)));
  match count_unique_threshold_signers sigs (vs_validators snapshot) (vs_threshold snapshot) with
  | Err _ => count_ count_insufficient
  | Ok _ =>
      blockhash ← call get_latest_blockhash;
      signature ← call (send_transaction
        (completion_transaction sigs message index payout_txid payout_height epoch blockhash));
      t ← now;
      _ ← put_db (record_onchain_completion index (Some signature) t);
      count_ count_submitted
  end.

Definition process_one (index : Z) : M unit :=
  account ← call (get_account (withdrawal_pda (s_program_id S) (as_u64 index)).1);
  match account with
  | None => count_ count_skipped
  | Some account =>
      if bool_decide (byte_to_Z <$> acc_data account !! STATUS_OFFSET = Some STATUS_COMPLETED) then
        t ← now;
        _ ← put_db (record_onchain_completion index None t);
        count_ count_reconciled
      else
        t ← now;
        observation ← gets (fun w => co_epoch (c_outside w));
        if negb (is_fresh_at observation t) then mret tt
        else
          facts ← (d ← gets c_db; lift (local_completion_facts index d));
          match facts with
          | None => count_ count_skipped
          | Some (payout_txid, payout_height, amount, dest_commitment) =>
              attest_and_submit index payout_txid payout_height amount dest_commitment
          end
  end.

Definition tick_body : M unit :=
  pending ← gets (fun w => payouts_awaiting_onchain_completion (c_db w));
  for_all process_one pending.

Definition tick (o : outside) (d : Tables) : outside * Tables * result CompletionError CompletionReport :=
  let (w, r) := tick_body {| c_outside := o; c_db := d; c_report := default_report |} in
  (c_outside w, c_db w, let* _ := r in Ok (c_report w)).
End submitter.

(** ** What is sent *)

Definition logging {O} (N : CompletionOutside O) : CompletionOutside (O * list Event) :=
  {| co_rpc := logging_rpc co_rpc;
     co_now_unix := pass co_now_unix;
     co_epoch o := co_epoch o.1;
     collect_completion_signatures e i t h m := pass (collect_completion_signatures e i t h m) |}.

(** Everything but the on-chain columns of the payouts. *)
Definition same_facts (d d' : Tables) : Prop :=
  withdrawal_requests d' = withdrawal_requests d /\
  forall i, (fun p => (p_txid p, p_mined_height p)) <$> withdrawal_payouts d' !! i =
            (fun p => (p_txid p, p_mined_height p)) <$> withdrawal_payouts d !! i.

#[export] Instance same_facts_equiv : Equivalence same_facts.
Proof.
  split.
  - by intros d.
  - intros d d' [H1 H2]. by split.
  - intros d1 d2 d3 [H1 H2] [H3 H4]. split; [by rewrite H3|]. intros i. by rewrite H4.
Qed.

Lemma record_onchain_same_facts i sig t d : same_facts d (record_onchain_completion i sig t d).
Proof.
  split; [done|]. intros j. unfold record_onchain_completion, update_payout. cbn.
  destruct (decide (i = j)) as [->|]; [|by rewrite lookup_alter_ne].
  rewrite lookup_alter_eq. by destruct (withdrawal_payouts d !! j).
Qed.

(** ** What is written *)

(** One recorded completion. *)
Definition records (d d' : Tables) : Prop :=
  exists i sig t, d' = record_onchain_completion i sig t d.

Lemma tick_records `{Sh : Sha2, Rt : SolanaRuntime, R : Runtime} {outside}
    `{N : CompletionOutside outside} (S : Submitter) (o : outside) d :
  star records d (tick S o d).1.2.
Proof.
  assert (runs (writes (star records)) (tick_body S)) as Ht.
  { unfold tick_body, process_one, attest_and_submit, now, call.
    repeat first [apply runs_ask; apply _|apply runs_count; apply _|apply runs_retrying; apply _
                 |apply runs_put_db; intros d'; eapply star_step; [constructor|]; eexists _, _, _; done
                 |progress runs]. }
  specialize (Ht {| c_outside := o; c_db := d; c_report := default_report |}). unfold writes, tick in *.
  by destruct (tick_body S _).
Qed.

Section sending.
Context `{Sh : Sha2, Rt : SolanaRuntime, R : Runtime} {outside : Type} {N : CompletionOutside outside}.
Context (S : Submitter).
#[local] Instance logged : CompletionOutside (outside * list Event) := logging N.
Abbreviation CW := (ChainPass.World (outside * list Event) Tables CompletionReport).

(** Why a transaction may be sent, given the tables and the calls before it. *)
Definition justified (d : Tables) (before : list Event) (tx : SolanaTransaction) : Prop :=
  exists index txid height amount destination account set_account snapshot sigs n epoch blockhash,
    w_state <$> withdrawal_requests d !! index = Some Completed /\
    local_completion_facts index d = Ok (Some (txid, height, amount, destination)) /\
    Read (withdrawal_pda (s_program_id S) (as_u64 index)).1 (Ok (Some account)) ∈ before /\
    byte_to_Z <$> acc_data account !! STATUS_OFFSET <> Some STATUS_COMPLETED /\
    Read (validator_set_pda (s_program_id S)).1 (Ok (Some set_account)) ∈ before /\
    decode_validator_set (acc_data set_account) = Ok snapshot /\
    count_unique_threshold_signers sigs (vs_validators snapshot) (vs_threshold snapshot) = Ok n /\
    (exists o : outside, sigs = (collect_completion_signatures epoch (as_u64 index) txid height
       (withdrawal_completion_message (s_protocol_version S) (s_program_id S) epoch (as_u64 index)
          txid height amount destination) o).2) /\
    tx = completion_transaction S sigs
           (withdrawal_completion_message (s_protocol_version S) (s_program_id S) epoch (as_u64 index)
              txid height amount destination) index txid height epoch blockhash.

Lemma justified_more d before more tx : justified d before tx -> justified d (before ++ more) tx.
Proof.
  intros (i & t & h & a & de & ac & sa & sn & sg & n & e & bh & H1 & H2 & H3 & H4 & H5 & H6 & H7 & H8 & H9).
  exists i, t, h, a, de, ac, sa, sn, sg, n, e, bh.
  split_and!; try done; apply elem_of_app; by left.
Qed.

(** ** One pass *)

Context (d0 : Tables).
Definition settled (w : CW) : Prop := same_facts d0 (c_db w).

Abbreviation passes := (ChainPass.passes (R := CompletionReport) (justified d0) same_facts).
Abbreviation lasting := (ChainPass.lasting (R := CompletionReport) (justified d0) same_facts).
Abbreviation hoare := (Effects.hoare (E := CompletionError) passes).

Lemma lasting_settled : lasting settled.
Proof. apply (lasting_keeps _ _ (same_facts d0)). intros d d' H1 H2. by etrans. Qed.

Lemma facts_same i d : same_facts d0 d -> local_completion_facts i d = local_completion_facts i d0.
Proof.
  intros [Hw Hp]. unfold local_completion_facts, get_withdrawal, get_payout. rewrite Hw.
  specialize (Hp i). destruct (withdrawal_payouts d !! i), (withdrawal_payouts d0 !! i);
    cbn in Hp; try discriminate Hp; [|done]. injection Hp as -> ->. done.
Qed.

Lemma attest_and_submit_passes index account txid height amount destination :
  w_state <$> withdrawal_requests d0 !! index = Some Completed ->
  local_completion_facts index d0 = Ok (Some (txid, height, amount, destination)) ->
  byte_to_Z <$> acc_data account !! STATUS_OFFSET <> Some STATUS_COMPLETED ->
  let open := Read (withdrawal_pda (s_program_id S) (as_u64 index)).1 (Ok (Some account)) in
  hoare (fun w => settled w /\ seen open w)
    (attest_and_submit S index txid height amount destination)
    (fun _ w => settled w /\ seen open w).
Proof.
  intros Hst Hf Hacc open. set (P := fun w => settled w /\ seen open w).
  assert (lasting P) as HP by (apply lasting_and; [apply lasting_settled|apply lasting_seen]).
  unfold attest_and_submit. eapply (hoare_seq (justified d0) same_facts); [apply (hoare_gets_quiet (justified d0) same_facts)|]. intros epoch.
  eapply (hoare_seq (justified d0) same_facts); [eapply hoare_pre; [apply (hoare_ask_answer (justified d0) same_facts P), HP|by intros w [_ ?]]|].
  intros sigs. apply hoare_pure. intros Hsigs. eapply (hoare_seq (justified d0) same_facts); [apply (hoare_call_read (justified d0) same_facts P), HP|]. intros set_account.
  eapply (hoare_seq (justified d0) same_facts); [apply (hoare_lift_quiet (justified d0) same_facts)|]. intros a.
  eapply (hoare_seq (justified d0) same_facts); [apply (hoare_lift_quiet (justified d0) same_facts)|]. intros snapshot. cbv beta.
  set (Q := fun w => P w /\ exists set_account, seen (Read (validator_set_pda (s_program_id S)).1 (Ok (Some set_account))) w /\
              decode_validator_set (acc_data set_account) = Ok snapshot).
  assert (lasting Q) as HQ.
  { apply lasting_and; [done|]. apply lasting_exists. intros sa.
    apply lasting_and; [apply lasting_seen|apply lasting_const]. }
  apply (hoare_conseq passes _ Q _ _ (fun _ => Q)); cycle 1.
  { intros w (Hd & Ha & Hseen & Hw). split; [done|]. exists a.
    apply ok_or_Ok in Ha as ->. split; [done|]. by apply map_err_Ok in Hd. }
  { by intros _ w [? _]. }
  destruct (count_unique_threshold_signers _ _ _) as [n|e] eqn:Hn; [|apply (hoare_count (justified d0) same_facts), HQ].
  eapply (hoare_seq (justified d0) same_facts); [apply (hoare_call_pass (justified d0) same_facts Q), HQ|]. intros blockhash. cbv beta.
  eapply (hoare_seq (justified d0) same_facts).
  { apply (hoare_call_send (justified d0) same_facts (justified_more d0) Q); [apply HQ|]. intros w [[_ Hopen] (sa & Hsa & Hd)].
    by exists index, txid, height, amount, destination, account, sa, snapshot, sigs, n, epoch, blockhash. }
  intros signature. cbv beta. eapply (hoare_seq (justified d0) same_facts); [apply (hoare_ask_pass (justified d0) same_facts Q), HQ|].
  intros t. cbv beta. eapply (hoare_seq (justified d0) same_facts); [apply (hoare_put_db (justified d0) same_facts Q); [apply HQ|apply record_onchain_same_facts]|].
  intros u. apply (hoare_count (justified d0) same_facts), HQ.
Qed.

Lemma process_one_passes index :
  w_state <$> withdrawal_requests d0 !! index = Some Completed ->
  hoare settled (process_one S index) (fun _ => settled).
Proof.
  intros Hst. unfold process_one. pose proof lasting_settled as HP.
  eapply (hoare_seq (justified d0) same_facts); [apply (hoare_call_read (justified d0) same_facts settled), HP|]. intros [account|]; cbv beta.
  2: { eapply hoare_pre; [apply (hoare_count (justified d0) same_facts), HP|by intros w [_ ?]]. }
  set (open := Read _ _).
  destruct (bool_decide_reflect (byte_to_Z <$> acc_data account !! STATUS_OFFSET = Some STATUS_COMPLETED)) as [_|Hacc].
  { eapply (hoare_seq (justified d0) same_facts); [eapply hoare_pre; [apply (hoare_ask_pass (justified d0) same_facts settled), HP|by intros w [_ ?]]|].
    intros t. eapply (hoare_seq (justified d0) same_facts); [apply (hoare_put_db (justified d0) same_facts settled); [apply HP|apply record_onchain_same_facts]|]. intros u. apply (hoare_count (justified d0) same_facts), HP. }
  set (P := fun w => settled w /\ seen open w).
  assert (lasting P) as HP' by (apply lasting_and; [apply lasting_settled|apply lasting_seen]).
  eapply (hoare_seq (justified d0) same_facts); [eapply hoare_pre; [apply (hoare_ask_pass (justified d0) same_facts P), HP'|by intros w [? ?]]|].
  intros t. eapply (hoare_seq (justified d0) same_facts); [apply (hoare_gets_quiet (justified d0) same_facts)|]. intros obs. cbv beta.
  destruct (is_fresh_at obs t); cbn [negb].
  2: { eapply hoare_conseq; [apply hoare_ret, _|exact (fun w H => H)|]. by intros u w (_ & _ & ? & _). }
  eapply (hoare_seq (justified d0) same_facts _ _ (fun facts w => local_completion_facts index d0 = Ok facts /\ P w)).
  - eapply (hoare_seq (justified d0) same_facts); [apply (hoare_gets_quiet (justified d0) same_facts)|]. intros d.
    eapply hoare_conseq; [apply (hoare_lift_quiet (justified d0) same_facts)|exact (fun w H => H)|].
    intros facts w (Hf & -> & _ & [Hs Ho]). split; [|done]. by rewrite <- (facts_same index (c_db w)).
  - intros [[[[txid height] amount] destination]|]; cbv beta.
    + intros w [Hf Hw]. destruct (attest_and_submit_passes index account txid height amount destination Hst Hf Hacc w Hw) as [HR HQ].
      split; [done|]. intros u Hu. by apply HQ in Hu as [? _].
    + eapply hoare_pre; [apply (hoare_count (justified d0) same_facts), HP|by intros w (_ & ? & _)].
Qed.
End sending.
