(* ===== verification/CompletionProps.v ===== *)
(** * Completions end to end

    What a pass of the submitter sends, and what the program does with it:
    the composition of [Completion] with the builders of [SolanaInstruction],
    the proof layout of [SignatureProof] and the handler of [Program]. *)
From Stdlib Require Import ZArith Lia Strings.Byte.
From stdpp Require Import base numbers strings gmap list.
From S2P Require Import Prelude Effects Messages State Validation Verification Token Program Handlers.
From S2P Require Import Invariants Scenario SignatureProof Hex DepositDb WithdrawalDb WithdrawalDbProps.
From S2P Require Import Address Accounts SolanaInstruction SolanaRpc Discovery Epoch ChainPass Completion.

Section sent.
Context `{Sh : Sha2, Rt : SolanaRuntime, R : Runtime} {outside : Type} {N : CompletionOutside outside}.
Context (S : Submitter).

Lemma awaiting_completed d index :
  index ∈ payouts_awaiting_onchain_completion d ->
  w_state <$> WithdrawalDb.withdrawal_requests d !! index = Some WithdrawalDb.Completed.
Proof.
  unfold payouts_awaiting_onchain_completion.
  by intros ([i p] & -> & [[? _] _]%list_elem_of_filter)%list_elem_of_fmap.
Qed.

Lemma tick_justified (o : outside) d :
  all_justified (justified S d) [] (tick (N := logging N) S (o, []) d).1.1.2.
Proof.
  assert (hoare (passes (justified S d) same_facts) (settled d) (tick_body (N := logging N) S) (fun _ => settled d)) as Ht.
  { eapply (hoare_seq (justified S d) same_facts); [apply (hoare_gets_quiet (justified S d) same_facts)|]. intros pending.
    intros w [-> Hw]. cbv beta in *.
    assert (forall i, i ∈ payouts_awaiting_onchain_completion (c_db w) ->
              w_state <$> WithdrawalDb.withdrawal_requests d !! i = Some WithdrawalDb.Completed) as Hp.
    { intros i Hi. destruct Hw as [<- _]. by apply awaiting_completed. }
    assert (hoare (passes (justified S d) same_facts) (settled d) (for_all (process_one (N := logging N) S) (payouts_awaiting_onchain_completion (c_db w)))
              (fun _ => settled d)) as Hl; [|by apply Hl].
    apply hoare_for_all; [apply _|]. intros i Hi. apply process_one_passes. auto. }
  pose proof (pass_justified _ _ _ _ _ o d default_report Ht ltac:(done)) as Hj.
  unfold tick, log in *. by destruct (tick_body _ _).
Qed.

(** C8: Every transaction a completion tick sends, whatever the node and the federation
    answer, is the completion of a withdrawal the local database holds as Completed,
    carries exactly the payout facts of that database, and is sent only after the node
    returned that withdrawal's account without the completed status and a validator set
    whose threshold the signatures meet that the collector returned for exactly that
    message. *)
Theorem sent_completions_are_justified (o : outside) d before tx after :
  (tick (N := logging N) S (o, []) d).1.1.2 = before ++ Sent tx :: after ->
  justified S d before tx.
Proof. intros E. exact (tick_justified o d before tx after E). Qed.
End sent.

(** ** What the program does with it *)

Section accepted.
Context {T : SplToken} {R : Runtime} `{Sh : Sha2, Rt : SolanaRuntime}.

(** C9: The transaction the relayer builds from a threshold of distinct validators is
    one the on-chain program accepts: in every reachable unpaused state where the
    request is pending, its second instruction calls complete_withdrawal with the
    accounts the program expects, and with its first instruction as the proof the
    program completes the request and records the txid and height. *)
Theorem completion_transaction_is_accepted S ls b c s w idx txid height sigs n blockhash env :
  let message :=
    withdrawal_completion_message (s_protocol_version S) (s_program_id S) (State.epoch s) idx txid
      height (wr_amount w) (destination_commitment (used_address w)) in
  let tx := completion_transaction S sigs message idx txid height (State.epoch s) blockhash in
  (forall bs, sol_hash bs = sha256 bs) ->
  s_program_id S = crate_ID -> s_protocol_version S = PROTOCOL_VERSION ->
  steps ls b -> bridge_config b = Some c -> validator_set b = Some s -> paused c = false ->
  Program.withdrawal_requests b !! idx = Some w -> status w = Pending ->
  length txid = 32%nat -> txid <> zeros 32 -> 0 < height -> in_u64 height ->
  sized sigs message -> NoDup sigs.*1 -> Forall (fun pk => pk ∈ validators s) sigs.*1 ->
  count_unique_threshold_signers sigs (validators s) (State.threshold s) = Ok n ->
  exists call, tx_instructions tx = [ed25519_instruction sigs message; call] /\
    calls crate_ID (s_submitter S) (withdrawal_count c) call (CompleteWithdrawal idx txid height (State.epoch s)) /\
    (previous_instruction env = Some {| ix_program_id := ed25519_program_ID;
                                        ix_data := si_data (ed25519_instruction sigs message) |} ->
     exists b' w', exec env (CompleteWithdrawal idx txid height (State.epoch s)) b =
         Ok (b', [WithdrawalCompleted idx txid height (wr_amount w) (State.epoch s)]) /\
       Program.withdrawal_requests b' !! idx = Some w' /\ payout_record w' = Some (txid, height)).
Proof.
  intros message tx Hhash Hpid Hver Hls Hc Hs Hpaused Hw Hst Htxid Hnz Hh Hh64 Hsz Hnd Hin Hn.
  pose proof (steps_inv _ _ Hls) as Hinv. pose proof (inv_set_bounded _ Hinv) as Hbd.
  destruct Hinv as [? _ _ _ _|c' s' Hc' Hs' Hcok Hsok _ _ Hreqs _]; [congruence|]. simplify_eq.
  pose proof (Hreqs idx w Hw) as Hok. destruct Hok as [Hidx Hrange _ [Hgl Hlen] Hrec].
  destruct Hrec as [[_ Hres]|[? _]]; [|congruence].
  assert (as_u64 idx = idx) as Hi64.
  { destruct Hcok as [_ _ _ Hcount _]. unfold in_u64, U64_MAX in Hcount. apply Z.mod_small. lia. }
  destruct Hsok as [(_ & Hl & _) _ _].
  eexists. split; [reflexivity|]. split.
  { rewrite Hpid, Hi64. apply completion_calls. }
  cbn [si_data ed25519_instruction]. intros Henv.
  destruct (payout_record_written w txid height) as (Hwritten & _ & _); [by rewrite Hres|done|done|].
  eexists _, (with_status (set_payout_record w txid height) State.Completed).
  split; [apply exec_iff; [done|]; apply (T_complete env b idx txid height _ c s w)|split; [|done]].
  - constructor; try done.
    + unfold payout_record_is_unset. by rewrite Hres.
    + rewrite Hgl. lia.
    + assert (Messages.encode (completion_statement idx txid height w c s) = message) as ->.
      { unfold completion_statement, Messages.encode, message. destruct Hcok as [-> _ _ _ _].
        by rewrite Hpid, Hver, Hhash. }
      by eapply (approved_by_proof env s sigs message).
  - cbn -[set_payout_record]. by rewrite lookup_insert_eq.
Qed.
End accepted.

(** ** A completion, end to end *)

#[local] Existing Instance toy_sha2.
#[local] Existing Instance toy_solana.

Definition demo_submitter : Submitter :=
  {| s_program_id := crate_ID; s_submitter := key 60; s_protocol_version := PROTOCOL_VERSION |}.
Definition demo_set : ValidatorSet :=
  {| State.epoch := 0; threshold := 2; set_bump := 254; validators := demo_validators;
     set_reserved := zeros 32 |}.
Definition demo_sigs : list (Pubkey * Signature) := (fun k => (k, demo_signature)) <$> quorum.

(** A chain on which withdrawal accounts are pending; the clock is the state. *)
Definition completing_node : CompletionOutside Z :=
  {| co_rpc :=
       {| get_account k o :=
            (o, Ok (Some {| acc_owner := crate_ID;
                            acc_data := if bool_decide (k = (validator_set_pda crate_ID).1)
                                        then account_data (zeros 8) (set_fields demo_set) []
                                        else zeros 180 |}));
          get_latest_blockhash o := (o, Ok (zeros 32));
          send_transaction _ o := (o + 1, Ok (lit "5igna7ure"));
          get_program_accounts_sized _ _ _ o := (o, Ok []) |};
     co_now_unix o := (o, o);
     co_epoch o := seeded 0 o;
     collect_completion_signatures _ _ _ _ _ o := (o, demo_sigs) |}.

(** Withdrawal 1 signed, mined at height 700 and seen through. *)
Definition demo_completed : Tables :=
  (complete_payout 1 1300 (record_confirmations 1 6 (Some (replicate 32 xee)) (Some 700) demo_signed)).1.

Definition demo_pass : (Z * list Event) * Tables * result CompletionError CompletionReport :=
  tick (N := logging completing_node) demo_submitter (2000, []) demo_completed.

Definition demo_sent : SolanaTransaction :=
  completion_transaction demo_submitter demo_sigs
    (withdrawal_completion_message PROTOCOL_VERSION crate_ID 0 1 (replicate 32 xdd) 700 500
       (destination_commitment (lit "m"))) 1 (replicate 32 xdd) 700 0 (zeros 32).

Definition demo_reads : list Event :=
  [Read (withdrawal_pda crate_ID 1).1 (Ok (Some {| acc_owner := crate_ID; acc_data := zeros 180 |}));
   Read (validator_set_pda crate_ID).1
     (Ok (Some {| acc_owner := crate_ID; acc_data := account_data (zeros 8) (set_fields demo_set) [] |}))].

Lemma sent_completions_are_justified_witness :
  justified (N := completing_node) demo_submitter demo_completed demo_reads demo_sent.
Proof.
  apply (sent_completions_are_justified (N := completing_node) demo_submitter 2000 demo_completed
           demo_reads demo_sent []).
  vm_compute. reflexivity.
Defined.

(** The pass recorded it, and a second pass has nothing left to do. *)
Example demo_pass_report :
  demo_pass.2 = Ok {| reconciled := 0; submitted := 1; insufficient := 0; skipped := 0 |} /\
  payouts_awaiting_onchain_completion demo_pass.1.2 = [].
Proof. split; vm_compute; reflexivity. Qed.

(** The open withdrawal of [Discovery], completed. *)
Definition open_request : WithdrawalRequest :=
  {| index := 0; wr_amount := 200; requester := demo_user; glc_address := splice (zeros 64) 0 open_address;
     glc_address_len := Z.of_nat (length open_address); status := Pending; requested_at_slot := 77;
     wr_protocol_version := 1; wr_bump := 255; wr_reserved := zeros 48 |}.
Definition open_message : list byte :=
  withdrawal_completion_message (s_protocol_version demo_submitter) (s_program_id demo_submitter)
    (State.epoch demo_set) 0 demo_payout 700 (wr_amount open_request)
    (destination_commitment (used_address open_request)).
Definition open_env : TxEnv :=
  at_time 1004 (Some {| ix_program_id := ed25519_program_ID;
                        ix_data := si_data (ed25519_instruction demo_sigs open_message) |}).

Lemma completion_transaction_is_accepted_witness :
  exists b' w', exec open_env (CompleteWithdrawal 0 demo_payout 700 0) open_state =
      Ok (b', [WithdrawalCompleted 0 demo_payout 700 200 0]) /\
    Program.withdrawal_requests b' !! 0 = Some w' /\ payout_record w' = Some (demo_payout, 700).
Proof.
  destruct (bridge_config open_state) as [c|] eqn:Hc; [|by vm_compute in Hc].
  assert (paused c = false) as Hp by (vm_compute in Hc; injection Hc as <-; reflexivity).
  destruct (completion_transaction_is_accepted demo_submitter
              (demo_labels 3 ++ [Tx open_tx.1 open_tx.2]) open_state c demo_set open_request 0
              demo_payout 700 demo_sigs 2 (zeros 32) open_env) as (call & _ & _ & H).
  - reflexivity.
  - reflexivity.
  - reflexivity.
  - apply open_state_reachable.
  - exact Hc.
  - vm_compute. reflexivity.
  - exact Hp.
  - vm_compute. reflexivity.
  - reflexivity.
  - reflexivity.
  - vm_compute. discriminate.
  - lia.
  - unfold in_u64, U64_MAX. lia.
  - split; [repeat constructor|]. split; [vm_compute; discriminate|cbn; lia].
  - apply (bool_decide_unpack _). vm_compute. exact I.
  - apply (bool_decide_unpack _). vm_compute. exact I.
  - vm_compute. reflexivity.
  - apply H. reflexivity.
Defined.
