(* ===== verification/NodeClient.v ===== *)
(** * The JSON-RPC client: [relayer/src/glc/rpc.rs], [RpcClient]

    Every method of the client over two interfaces: [SerdeJson], the JSON
    values of [serde_json] with the accessors the code uses, and
    [GoldcoinHttp], one POST of a method and its parameters that returns the
    parsed body or the text of a transport error. *)
From Stdlib Require Import ZArith Lia Strings.Byte Floats.SpecFloat.
From stdpp Require Import base numbers strings gmap list.
From S2P Require Import Prelude Hex Rpc.

(** [serde_json::Value] and [Number::from_f64]. *)
Class SerdeJson := {
  value : Type;
  is_null : value -> bool;
  get : str -> value -> option value;
  as_i64 : value -> option Z;
  as_f64 : value -> option spec_float;
  as_str : value -> option str;
  as_array : value -> option (list value);
  number : Type;
  number_from_f64 : spec_float -> option number
}.

(** [serde_json::from_value] at a type that derives [Deserialize]. *)
Class Deserialize `{SerdeJson} (T : Type) := from_value : value -> result str T.

(** The expressions under [json!]. *)
Inductive Param `{SerdeJson} :=
| PInt (n : Z)
| PBool (b : bool)
| PStr (s : str)
| PNumber (x : number)
| PArray (l : list Param)
| PObject (fields : list (str * Param)).

Class GoldcoinHttp `{SerdeJson} (outside : Type) := {
  post : str -> list Param -> outside -> outside * result str value
}.

(** An entry of [listunspent]. *)
Record ListUnspentEntry := {
  lu_txid : str; lu_vout : Z; lu_address : option str; lu_script_pub_key : str;
  lu_amount : spec_float; lu_confirmations : Z; lu_spendable : bool; lu_solvable : bool
}.

(** A previous output a signer needs. *)
Record PrevTx := {
  pt_txid : str; pt_vout : Z; pt_script_pub_key : str; pt_redeem_script : str
}.

Record SignResult := { sr_hex : str; sr_complete : bool }.

Section client.
Context `{J : SerdeJson} {outside : Type} `{H : !GoldcoinHttp outside}.
Context `{!Deserialize Z, !Deserialize str, !Deserialize BlockHeader, !Deserialize DecodedTransaction}.
Context `{!Deserialize TxOut, !Deserialize (list ListUnspentEntry), !Deserialize SignResult}.

(** [call] after the body was read: a non-null [error] member is a method
    error, otherwise the [result] member is the answer. *)
Definition read_response (parsed : value) : result RpcError value :=
  let error := e ← get (lit "error") parsed; if is_null e then None else Some e in
  match error with
  | Some error =>
      Err (Method (default (-1) (get (lit "code") error ≫= as_i64))
             (default (lit "(no message)") (get (lit "message") error ≫= as_str)))
  | None => ok_or (get (lit "result") parsed)
              (Malformed (lit "response has neither result nor error"))
  end.

Definition call (method : str) (params : list Param) (o : outside)
  : outside * result RpcError value :=
  let (o, r) := post method params o in
  (o, let* parsed := map_err Transport r in read_response parsed).

Definition call_typed {T} `{!Deserialize T} (method : str) (params : list Param) (o : outside)
  : outside * result RpcError T :=
  let (o, r) := call method params o in
  (o, let* v := r in map_err Malformed (from_value v)).

Definition get_block_count : outside -> outside * result RpcError Z :=
  call_typed (lit "getblockcount") [].
Definition get_block_hash (height : Z) : outside -> outside * result RpcError str :=
  call_typed (lit "getblockhash") [PInt height].
Definition get_block (hash : str) : outside -> outside * result RpcError BlockHeader :=
  call_typed (lit "getblock") [PStr hash; PBool true].
Definition get_raw_transaction (txid_hex : str)
  : outside -> outside * result RpcError DecodedTransaction :=
  call_typed (lit "getrawtransaction") [PStr txid_hex; PBool true].
Definition get_raw_transaction_hex (txid_hex : str) : outside -> outside * result RpcError str :=
  call_typed (lit "getrawtransaction") [PStr txid_hex; PBool false].

(** [gettxout] without the mempool; a null result is a spent output. *)
Definition get_tx_out_confirmed (txid_hex : str) (vout : Z) (o : outside)
  : outside * result RpcError (option TxOut) :=
  let (o, r) := call (lit "gettxout") [PStr txid_hex; PInt vout; PBool false] o in
  (o, let* v := r in
      if is_null v then Ok None
      else let* t := map_err Malformed (from_value v) in Ok (Some t)).

Definition call_raw : str -> list Param -> outside -> outside * result RpcError value := call.

Definition list_unspent (min_conf : Z) (addresses : list str)
  : outside -> outside * result RpcError (list ListUnspentEntry) :=
  call_typed (lit "listunspent") [PInt min_conf; PInt 9999999; PArray (PStr <$> addresses)].

(** The inputs as objects; the outputs are one object, address to amount. *)
Definition create_raw_transaction (inputs : list (str * Z)) (outputs : list (str * Param))
  : outside -> outside * result RpcError str :=
  let ins := (fun i => PObject [(lit "txid", PStr i.1); (lit "vout", PInt i.2)]) <$> inputs in
  call_typed (lit "createrawtransaction") [PArray ins; PObject outputs].

Definition decode_raw_transaction (hex : str)
  : outside -> outside * result RpcError DecodedTransaction :=
  call_typed (lit "decoderawtransaction") [PStr hex].
Definition sign_raw_transaction (hex : str) : outside -> outside * result RpcError SignResult :=
  call_typed (lit "signrawtransaction") [PStr hex].

Definition prevtx_param (p : PrevTx) : Param :=
  PObject [(lit "txid", PStr (pt_txid p)); (lit "vout", PInt (pt_vout p));
           (lit "scriptPubKey", PStr (pt_script_pub_key p));
           (lit "redeemScript", PStr (pt_redeem_script p))].

Definition sign_raw_transaction_with_prevtxs (hex : str) (prevtxs : list PrevTx)
    (private_keys : option (list str)) : outside -> outside * result RpcError SignResult :=
  call_typed (lit "signrawtransaction")
    ([PStr hex; PArray (prevtx_param <$> prevtxs)] ++
     match private_keys with Some keys => [PArray (PStr <$> keys)] | None => [] end).

(** Both answers are discarded. *)
Definition import_vault (address redeem_script_hex : str) (o : outside)
  : outside * result RpcError unit :=
  let (o, _) := call (lit "importaddress")
                  [PStr address; PStr (lit "glc-vault"); PBool false] o in
  let (o, _) := call (lit "importaddress")
                  [PStr redeem_script_hex; PStr (lit "glc-vault-redeem"); PBool false; PBool true] o in
  (o, Ok tt).

(** The request of [send_raw_transaction]; [Rpc.send_raw_transaction] reads
    the answer. *)
Definition broadcast_raw_transaction (hex : str) (o : outside)
  : outside * result RpcError BroadcastOutcome :=
  let (o, r) := call (lit "sendrawtransaction") [PStr hex] o in
  (o, Rpc.send_raw_transaction (as_str <$> r)).

(** ** What a method error is

    The client never reports a transport failure for an answered request,
    and a typed answer is the decoded [result] member of a body without an
    error. *)
Lemma read_response_not_transport parsed m : read_response parsed <> Err (Transport m).
Proof.
  unfold read_response. case_match; [done|]. by destruct (get (lit "result") parsed).
Qed.

Lemma call_transport_iff method params o m :
  (call method params o).2 = Err (Transport m) <-> (post method params o).2 = Err m.
Proof.
  unfold call. destruct (post method params o) as [o' [v|e]]; cbn.
  - split; [intros E; by destruct (read_response_not_transport v m)|done].
  - split; [by intros [= ->]|by intros [= ->]].
Qed.
End client.

(** ** A concrete tree of JSON values *)

Inductive tree :=
| TNull | TInt (n : Z) | TFloat (x : spec_float) | TStr (s : str)
| TArr (l : list tree) | TObj (fields : list (str * tree)).

Fixpoint field_of (k : str) (fields : list (str * tree)) : option tree :=
  match fields with
  | [] => None
  | (k', v) :: fields => if bool_decide (k = k') then Some v else field_of k fields
  end.

Definition tree_json : SerdeJson :=
  {| value := tree;
     is_null v := match v with TNull => true | _ => false end;
     get k v := match v with TObj fields => field_of k fields | _ => None end;
     as_i64 v := match v with TInt n => Some n | _ => None end;
     as_f64 v := match v with TFloat x => Some x | _ => None end;
     as_str v := match v with TStr s => Some s | _ => None end;
     as_array v := match v with TArr l => Some l | _ => None end;
     number := spec_float;
     number_from_f64 x := match x with S754_nan | S754_infinity _ => None | _ => Some x end |}.

Example method_errors_are_read :
  read_response (J := tree_json)
    (TObj [(lit "result", TNull);
           (lit "error", TObj [(lit "code", TInt (-5)); (lit "message", TStr (lit "No such"))])]) =
  Err (Method (-5) (lit "No such")).
Proof. vm_compute. reflexivity. Qed.
