(* ===== verification/Adapter.v ===== *)
(** * The Goldcoin node adapter: [relayer/src/withdrawal/adapter.rs]

    [RealPayoutRpc], the executor's interface [PayoutRpc] over the JSON-RPC
    client.  The clock, the Solana status reader, the epoch view and the
    collector of partial signatures are not part of that file's trait
    implementation; [real_payout_rpc] takes them from [RelayerOutside]. *)
From Stdlib Require Import ZArith Lia Strings.Byte Floats.SpecFloat.
From stdpp Require Import base numbers strings gmap list.
From S2P Require Import Prelude State Token SignatureProof Accounts SolanaInstruction SolanaRpc Completion.
From S2P Require Import Hex Rpc Deposit WithdrawalDb Builder Vault Multisig Epoch Executor NodeClient.

(** The code's own copy of the conversion of [deposit.rs]. *)
Definition glc_to_atomic (v : spec_float) : Z :=
  round_as_u64 (SFmul 53 1024 v (f64_of_int 100000000)).

(** [e.to_string()] of a codec error; a panic has no text. *)
Definition show_hex_fault (f : HexFault) : str :=
  match f with
  | HexErr (OddLength n) => lit "hex string has odd length " ++ show_nat n
  | HexErr (WrongLength e b a) =>
      lit "expected " ++ show_nat e ++ lit " hex chars (" ++ show_nat b ++ lit " bytes), got " ++
      show_nat a
  | HexErr (InvalidDigit s) => lit "invalid hex digit in " ++ [x22] ++ s ++ [x22]
  | Panicked => []
  end.

(** [format!("{frac:08}")] of a number below [10^8]. *)
Definition pad8 (n : Z) : str :=
  (fun k => byte_of_Z (48 + n / 10 ^ k mod 10)) <$> [7; 6; 5; 4; 3; 2; 1; 0].

(** [format!("{whole}.{frac:08}")] *)
Definition amount_text (atomic : Z) : str :=
  display (atomic / 100000000) ++ lit "." ++ pad8 (atomic mod 100000000).

(** [str::parse::<f64>] of that text: the binary64 value nearest to
    [atomic / 10^8]. *)
Definition amount_f64 (atomic : Z) : spec_float :=
  match atomic with
  | Z.pos p => SFdiv 53 1024 (S754_finite false p 0) (S754_finite false 100000000 0)
  | _ => S754_zero false
  end.

(** [Map::insert] *)
Fixpoint map_insert {A} (k : str) (v : A) (m : list (str * A)) : list (str * A) :=
  match m with
  | [] => [(k, v)]
  | (k', v') :: m => if bool_decide (k = k') then (k, v) :: m else (k', v') :: map_insert k v m
  end.

Class RelayerOutside `{SerdeJson} (outside : Type) := {
  ro_http :: GoldcoinHttp outside;
  ro_solana :: CompletionOutside outside;
  ro_collect_payout_partials : Z -> Z -> Z -> list byte -> str -> list byte -> outside ->
    outside * list PartialSignature
}.

Section adapter.
Context `{J : SerdeJson} {outside : Type} `{H : !GoldcoinHttp outside}.
Context `{!Deserialize str, !Deserialize (list ListUnspentEntry), !Deserialize SignResult}.

Definition observed_utxo (e : ListUnspentEntry) : result RpcError ObservedUtxo :=
  let* txid := map_err (fun f => Malformed (show_hex_fault f)) (decode_exact 32 (lu_txid e)) in
  Ok {| o_txid := txid; o_vout := lu_vout e; o_amount := glc_to_atomic (lu_amount e);
        o_script := lu_script_pub_key e; o_confirmations := lu_confirmations e |}.

Definition list_unspent (min_conf : Z) (addresses : list str) (o : outside)
  : outside * result RpcError (list ObservedUtxo) :=
  let (o, entries) := NodeClient.list_unspent min_conf addresses o in
  (o, let* entries := entries in
      mapM observed_utxo (filter (fun e => lu_solvable e = true) entries)).

(** One output of the map the node takes. *)
Definition insert_output (m : list (str * Param)) (out : str * Z)
  : result RpcError (list (str * Param)) :=
  let* n := ok_or (number_from_f64 (amount_f64 out.2))
              (Malformed (lit "unrepresentable amount " ++ amount_text out.2)) in
  Ok (map_insert out.1 (PNumber n) m).

Definition create_raw_transaction (inputs : list (str * Z)) (outputs : list (str * Z)) (o : outside)
  : outside * result RpcError str :=
  match foldM insert_output [] outputs with
  | Err e => (o, Err e)
  | Ok m => NodeClient.create_raw_transaction inputs m o
  end.

(** [.ok_or_else(|| Malformed(what))?] *)
Definition need {A} (x : option A) (what : String.string) : result RpcError A :=
  ok_or x (Malformed (lit what)).

Definition decode_input (v : value) : result RpcError DecodedInput :=
  let* txid := need (get (lit "txid") v ≫= as_str) "vin without txid" in
  let* vout := need (get (lit "vout") v ≫= as_i64) "vin without vout" in
  Ok {| in_txid_hex := txid; in_vout := vout |}.

Definition decode_output (v : value) : result RpcError DecodedOutput :=
  let* x := need (get (lit "value") v ≫= as_f64) "vout without value" in
  let* script := need (s ← get (lit "scriptPubKey") v; h ← get (lit "hex") s; as_str h)
                   "vout without scriptPubKey.hex" in
  Ok {| value_atomic := glc_to_atomic x; Builder.script_pubkey_hex := script |}.

Definition read_decoded (raw : value) : result RpcError DecodedTx :=
  let* txid := need (get (lit "txid") raw ≫= as_str) "decoderawtransaction: no txid" in
  let* vin := need (get (lit "vin") raw ≫= as_array) "decoderawtransaction: no vin" in
  let* inputs := mapM decode_input vin in
  let* vout := need (get (lit "vout") raw ≫= as_array) "decoderawtransaction: no vout" in
  let* outputs := mapM decode_output vout in
  Ok {| tx_txid_hex := txid; tx_inputs := inputs; tx_outputs := outputs |}.

Definition decode_raw_transaction (hex : str) (o : outside) : outside * result RpcError DecodedTx :=
  let (o, raw) := call_raw (lit "decoderawtransaction") [PStr hex] o in
  (o, let* raw := raw in read_decoded raw).

Definition sign_raw_transaction (hex : str) (prevtxs : list PrevTx) (o : outside)
  : outside * result RpcError (str * bool) :=
  let (o, r) := sign_raw_transaction_with_prevtxs hex prevtxs None o in
  (o, let* r := r in Ok (sr_hex r, sr_complete r)).

Definition send_raw_transaction : str -> outside -> outside * result RpcError BroadcastOutcome :=
  broadcast_raw_transaction.

(** A mempool transaction has no [confirmations] member. *)
Definition read_status (v : value) : TxStatus :=
  {| confirmations := default 0 (get (lit "confirmations") v ≫= as_i64);
     block_hash_hex := get (lit "blockhash") v ≫= as_str;
     block_height := None |}.

Definition transaction_confirmations (txid_hex : str) (o : outside)
  : outside * result RpcError (option TxStatus) :=
  let (o, r) := call_raw (lit "getrawtransaction") [PStr txid_hex; PBool true] o in
  (o, match r with
      | Ok v => Ok (Some (read_status v))
      | Err (Method code message) => if code =? -5 then Ok None else Err (Method code message)
      | Err e => Err e
      end).

Definition block_on_main_chain (block_hash_hex : str) (o : outside) : outside * result RpcError bool :=
  let (o, r) := call_raw (lit "getblock") [PStr block_hash_hex; PBool true] o in
  (o, match r with
      | Ok v => Ok (match get (lit "confirmations") v ≫= as_i64 with
                    | Some c => 0 <=? c
                    | None => false
                    end)
      | Err (Method code message) => if code =? -5 then Ok false else Err (Method code message)
      | Err e => Err e
      end).

(** The adapter never reports a block height. *)
Lemma transaction_confirmations_height txid o status :
  (transaction_confirmations txid o).2 = Ok (Some status) -> block_height status = None.
Proof.
  unfold transaction_confirmations. destruct (call_raw _ _ o) as [o' [v|[m|c m|m]]]; cbn.
  - by intros [= <-].
  - done.
  - by destruct (c =? -5).
  - done.
Qed.

End adapter.

#[export] Instance real_payout_rpc `{Rt : SolanaRuntime, R : Runtime, Sh : Sha2} `{J : SerdeJson}
    {outside} `{O : !RelayerOutside outside}
    `{!Deserialize str, !Deserialize (list ListUnspentEntry)} (program_id : Pubkey) : PayoutRpc :=
  {| Executor.outside := outside;
     now_unix := co_now_unix;
     Executor.list_unspent := list_unspent;
     Executor.create_raw_transaction := create_raw_transaction;
     Executor.decode_raw_transaction := decode_raw_transaction;
     Executor.send_raw_transaction := send_raw_transaction;
     Executor.transaction_confirmations := transaction_confirmations;
     Executor.block_on_main_chain := block_on_main_chain;
     Executor.is_completed := Completion.is_completed program_id;
     collect_payout_partials := ro_collect_payout_partials;
     epoch_observation := co_epoch |}.
