(* ===== verification/Daemon.v ===== *)
(** * The withdrawal side of the daemon: [relayer/src/main.rs]

    One withdrawal pass (discovery, ingestion, executor tick) over the real
    adapter, the passes a running relayer makes, and what they add up to: no
    pass ever records the height of a payout's block, so no completion is
    ever sent.  Concrete passes at the end. *)
From Stdlib Require Import ZArith Lia Strings.Byte Floats.SpecFloat.
From stdpp Require Import base numbers strings gmap list.
From S2P Require Import Prelude Messages State Token SignatureProof Scenario Accounts.
From S2P Require Import SolanaInstruction SolanaRpc.
From S2P Require Import Discovery ChainPass Completion CompletionProps Hex Rpc DepositDb Address.
From S2P Require Import WithdrawalDb.
From S2P Require Import WithdrawalDbProps Builder Vault Multisig Epoch Executor ExecutorProps.
From S2P Require Import ExecutorProps ExecutorScenario NodeClient Adapter.

Inductive WithdrawalTickError :=
| DiscoveryFailed (e : SolanaRpcError)
| ExecutorFailed (e : ExecutorError).

Section daemon.
Context `{Rt : SolanaRuntime, R : Runtime, Sh : Sha2, Sc : Secp256k1, J : SerdeJson}.
Context {outside : Type} `{O : !RelayerOutside outside}.
Context `{!Deserialize str, !Deserialize (list ListUnspentEntry)}.
Context (S : Settings) (program_id : Pubkey).

#[local] Instance node : PayoutRpc := real_payout_rpc program_id.

(** [withdrawal_tick]: a failed discovery is logged and skipped. *)
Definition withdrawal_tick (o : outside) (d : Tables)
  : outside * Tables * result WithdrawalTickError unit :=
  let (o, now) := co_now_unix o in
  let (o, found) := scan_withdrawals program_id Finalized now 0 o in
  let ingest : M Z := match found with Ok found => ingest_discovered found | Err _ => mret 0 end in
  let (w, r) := ingest {| w_outside := o; w_db := d; w_report := default_report |} in
  match r with
  | Err e => (w_outside w, w_db w, Err (ExecutorFailed e))
  | Ok _ =>
      let '(o, d, r) := Executor.tick S (w_outside w) (w_db w) in
      (o, d, let* _ := map_err ExecutorFailed r in Ok tt)
  end.

(** ** Heights *)

(** No payout has the height of its block. *)
Definition unset (d : Tables) : Prop :=
  map_Forall (fun _ p => p_mined_height p = None) (withdrawal_payouts d).
(** An operation that keeps it so. *)
Definition keeps_unset (d d' : Tables) : Prop := unset d -> unset d'.

#[local] Instance keeps_unset_preorder : PreOrder keeps_unset.
Proof. split; [intros d Hd; exact Hd|intros a b c H1 H2 Ha; by apply H2, H1]. Qed.

Lemma unset_payouts d d' : withdrawal_payouts d' = withdrawal_payouts d -> keeps_unset d d'.
Proof. intros E Hd. unfold unset in *. by rewrite E. Qed.

Lemma unset_update d d' i f :
  withdrawal_payouts d' = alter f i (withdrawal_payouts d) ->
  (forall p, p_mined_height p = None -> p_mined_height (f p) = None) -> keeps_unset d d'.
Proof.
  unfold keeps_unset, unset. intros -> Hf Hd j p [(-> & q & Hq & ->)|[_ Hp]]%alter_Some.
  - by eapply Hf, Hd.
  - by eapply Hd.
Qed.

Lemma unset_reserve_one i at_ d u d' : reserve_one i at_ d u = Ok d' -> keeps_unset d d'.
Proof.
  unfold reserve_one. do 2 (case_match; try done). intros [_ [_ [= <-]]]%bind_Ok. by apply unset_payouts.
Qed.

Lemma unset_reserve i us at_ d : keeps_unset d (fst (reserve_utxos i us at_ d)).
Proof.
  unfold reserve_utxos. destruct (foldM _ d us) as [d'|] eqn:E; [|done]. cbn.
  revert d E. induction us as [|u us IH]; intros d; cbn [foldM]; [by intros [= <-]|].
  intros (d1 & H1 & H2)%bind_Ok. etrans; [by eapply unset_reserve_one|by apply IH].
Qed.

Ltac payouts_unset :=
  repeat first
    [ reflexivity
    | by apply unset_payouts
    | eapply unset_update; [reflexivity|by intros ? ?]
    | case_match; cbn [fst] ].

Lemma istep_unset j d d' : istep (fun h => h = None) j d d' -> keeps_unset d d'.
Proof.
  intros [to at_ reason|us at_|p _|at_|n hash h ->|at_|at_].
  - unfold transition_withdrawal. payouts_unset.
  - apply unset_reserve.
  - unfold create_payout. case_bool_decide; [reflexivity|].
    destruct (foldM _ _ _); cbn [fst]; [|reflexivity].
    intros Hd j' q. cbn. rewrite lookup_insert_Some. intros [[_ <-]|[_ Hq]]; [done|by eapply Hd].
  - eapply unset_update; [reflexivity|by intros ? ?].
  - eapply unset_update; [reflexivity|]. intros p Hp. cbn. by rewrite Hp.
  - unfold complete_payout. payouts_unset.
  - unfold verify_and_load_signable_payout. payouts_unset.
Qed.

Lemma vstep_unset d d' : vstep d d' -> keeps_unset d d'.
Proof.
  intros []; [by apply unset_payouts|by apply unset_payouts|].
  unfold release_reservation. payouts_unset.
Qed.

(** Any operation of the database but a confirmation with a height. *)
Definition other_step (d d' : Tables) : Prop :=
  wstep d d' /\ forall i n hash h, d' <> record_confirmations i n hash (Some h) d.

Lemma other_step_unset d d' : other_step d d' -> keeps_unset d d'.
Proof.
  intros [[] Hne].
  - unfold observe_withdrawal. payouts_unset.
  - eapply istep_unset. constructor.
  - by apply unset_payouts.
  - by apply unset_payouts.
  - apply unset_reserve.
  - unfold release_reservation. payouts_unset.
  - eapply istep_unset. by econstructor.
  - unfold record_signed_payout. case_bool_decide; [reflexivity|]. cbn [fst].
    eapply unset_update; [reflexivity|]. intros p Hp. cbn. by destruct (p_signed_tx_hex p).
  - eapply istep_unset. constructor.
  - destruct h as [h|]; [by destruct (Hne i n hash h)|]. eapply istep_unset. by constructor.
  - eapply istep_unset. constructor.
  - unfold reassign_payout_quorum. payouts_unset.
  - unfold operator_clear_withdrawal_halt. payouts_unset.
  - eapply unset_update; [reflexivity|by intros ? ?].
  - eapply istep_unset. constructor.
Qed.

Definition worlds_unset (w w' : World) : Prop := keeps_unset (w_db w) (w_db w').
#[local] Instance worlds_unset_preorder : PreOrder worlds_unset.
Proof. unfold worlds_unset. split; [intros w; reflexivity|intros a b c; apply transitivity]. Qed.

Lemma ask_unset {A} (f : Executor.outside -> Executor.outside * A) : sound worlds_unset (ask f).
Proof. intros w. unfold ask, worlds_unset. destruct (f (w_outside w)). reflexivity. Qed.

Lemma count_unset c : sound worlds_unset (count_ c).
Proof. intros w. unfold worlds_unset. reflexivity. Qed.

Lemma executor_tick_unset o d : keeps_unset d (Executor.tick S o d).1.2.
Proof.
  assert (forall j, related worlds_unset (istep (fun h => h = None) j)) as Hi.
  { intros j o' d1 rep d2 Hs. unfold worlds_unset. by eapply istep_unset. }
  assert (sound worlds_unset (tick_body S)) as Ht.
  { eapply (sound_tick_body S _ any_calls_quiet worlds_unset (fun A f _ => ask_unset f) count_unset
              (fun h => h = None) transaction_confirmations_height (fun _ => True)).
    - intros o' d1 rep d2 Hs. by apply vstep_unset.
    - intros j _. apply Hi.
    - intros j _. eapply (sound_rebroadcast S _ any_calls_quiet worlds_unset) with (heights := fun h => h = None).
      all: try solve [eauto using ask_unset, count_unset, related_kstep].
      exact transaction_confirmations_height.
    - intros j _. eapply (sound_sign S _ any_calls_quiet worlds_unset) with (heights := fun h => h = None).
      all: try solve [eauto using ask_unset, count_unset, related_kstep].
      intros o' d1 rep hex txid at_. unfold worlds_unset. cbn [w_db].
      unfold record_signed_payout. case_bool_decide; [reflexivity|]. cbn [fst].
      eapply unset_update; [reflexivity|]. intros p Hp. cbn. by destruct (p_signed_tx_hex p).
    - intros s f _ Hf. apply sound_for_state; [apply _|]. eauto. }
  unfold Executor.tick. specialize (Ht {| w_outside := o; w_db := d; w_report := default_report |}).
  unfold worlds_unset in Ht. by destruct (tick_body S _).
Qed.

Lemma ingest_unset found : sound worlds_unset (ingest_discovered found).
Proof.
  unfold ingest_discovered. generalize 0 as n. induction found as [|x found IH]; intros n.
  - by apply sound_ret, _.
  - apply sound_bind; [apply _| |intros fresh; apply IH].
    apply sound_with_db; [apply _|]. apply sound_try_db. intros o d rep. unfold worlds_unset. cbn.
    unfold observe_withdrawal. payouts_unset.
Qed.

Lemma withdrawal_tick_unset o d : keeps_unset d (withdrawal_tick o d).1.2.
Proof.
  unfold withdrawal_tick. destruct (co_now_unix o) as [o1 t].
  destruct (scan_withdrawals _ _ _ _ o1) as [o2 found].
  set (ingest := match found with Ok _ => _ | Err _ => _ end).
  assert (sound worlds_unset ingest) as Hi.
  { subst ingest. destruct found; [apply ingest_unset|by apply sound_ret, _]. }
  specialize (Hi {| w_outside := o2; w_db := d; w_report := default_report |}).
  destruct (ingest _) as [w [n|e]]; unfold worlds_unset in Hi; cbn in *; [|done].
  pose proof (executor_tick_unset (w_outside w) (w_db w)) as Ht.
  destruct (Executor.tick S (w_outside w) (w_db w)) as [[o3 d3] r]. cbn in *. by etrans.
Qed.

Lemma records_unset d d' : star records d d' -> keeps_unset d d'.
Proof.
  induction 1 as [d|d d1 d2 _ IH (i & sig & t & ->)]; [reflexivity|]. etrans; [exact IH|].
  eapply unset_update; [reflexivity|by intros ? ?].
Qed.

(** ** What a relayer does to its withdrawal tables

    A withdrawal pass, a completion pass, or any other operation of the
    database, an operator's or one that runs between two passes, as long as
    it is not a confirmation with a height. *)
Inductive relayer_step (Sub : Submitter) (d : Tables) : Tables -> Prop :=
| rs_pass o : relayer_step Sub d (withdrawal_tick o d).1.2
| rs_completion (o : outside) : relayer_step Sub d (Completion.tick Sub o d).1.2
| rs_other d' : other_step d d' -> relayer_step Sub d d'.

Lemma relayer_unset Sub d : star (relayer_step Sub) empty_tables d -> unset d.
Proof.
  intros H. assert (keeps_unset empty_tables d) as Hk; [|by apply Hk]. revert H.
  generalize empty_tables as d0. induction 1 as [d|d0 d1 d2 _ IH []]; [reflexivity|etrans; [exact IH|]..].
  - apply withdrawal_tick_unset.
  - apply records_unset, tick_records.
  - by apply other_step_unset.
Qed.

(** C14: With the real node adapter no completion is ever sent: it reports every
    transaction without a block height, so in any history of withdrawal passes,
    completion passes and other database operations no payout ever has a mined height,
    the completion facts of every withdrawal are missing, and a completion pass sends no
    transaction whatever the chain and the federation answer. *)
Theorem relayer_sends_no_completion Sub d (o : outside) tx :
  star (relayer_step Sub) empty_tables d ->
  (forall i, local_completion_facts i d = Ok None \/
             local_completion_facts i d = Err CompletionPanic) /\
  ChainPass.Sent tx ∉ (Completion.tick (N := Completion.logging ro_solana) Sub (o, []) d).1.1.2.
Proof.
  intros H%relayer_unset.
  assert (forall i, local_completion_facts i d = Ok None \/
                    local_completion_facts i d = Err CompletionPanic) as Hn.
  { intros i. unfold local_completion_facts, get_payout.
    destruct (get_withdrawal i d); [|by left].
    destruct (withdrawal_payouts d !! i) as [p|] eqn:Hp; [|by left]. rewrite (H i p Hp).
    destruct (encode <$> p_txid p); [|by left]. destruct (decode_exact 32 _) as [?|[?|]]; auto. }
  split; [done|]. intros (before & after & E)%list_elem_of_split.
  destruct (tick_justified Sub o d before tx after E) as (i & ? & ? & ? & ? & ? & ? & ? & ? & ? & ? & ? & _ & Hf & _).
  destruct (Hn i); congruence.
Qed.
End daemon.

(** * A relayer's passes over a JSON node

    A Goldcoin node that answers the client's requests with JSON trees and a
    chain that lists one withdrawal account: the real adapter run from the
    account to the completed payout, which the completion pass then skips. *)

#[local] Existing Instance toy_sha2.
#[local] Existing Instance toy_ripemd.
#[local] Existing Instance toy_secp.
#[local] Existing Instance toy_solana.
#[local] Existing Instance toy_runtime.
#[local] Existing Instance tree_json.

#[local] Instance tree_str : Deserialize str := fun v =>
  match v with TStr s => Ok s | _ => Err (lit "expected a string") end.

Definition entry_of (v : tree) : option ListUnspentEntry :=
  txid ← get (lit "txid") v ≫= as_str;
  vout ← get (lit "vout") v ≫= as_i64;
  script ← get (lit "scriptPubKey") v ≫= as_str;
  amount ← get (lit "amount") v ≫= as_f64;
  confs ← get (lit "confirmations") v ≫= as_i64;
  Some {| lu_txid := txid; lu_vout := vout; lu_address := get (lit "address") v ≫= as_str;
          lu_script_pub_key := script; lu_amount := amount; lu_confirmations := confs;
          lu_spendable := false; lu_solvable := true |}.

#[local] Instance tree_entries : Deserialize (list ListUnspentEntry) := fun v =>
  match v with
  | TArr l => ok_or (mapM (M := option) entry_of l) (lit "not an entry")
  | _ => Err (lit "expected a list")
  end.

(** ** The node *)

Definition answer (v : tree) : tree := TObj [(lit "result", v); (lit "error", TNull)].
Definition refusal (code : Z) : tree :=
  TObj [(lit "result", TNull); (lit "error", TObj [(lit "code", TInt code)])].

Definition coin_entry : tree :=
  TObj [(lit "txid", TStr (encode (o_txid demo_coin_observed))); (lit "vout", TInt 1);
        (lit "scriptPubKey", TStr (o_script demo_coin_observed));
        (lit "amount", TFloat (amount_f64 (o_amount demo_coin_observed)));
        (lit "confirmations", TInt 9)].

Definition read_input (p : Param) : str * Z :=
  match p with
  | PObject [(_, PStr txid); (_, PInt vout)] => (txid, vout)
  | _ => ([], 0)
  end.
Definition read_output (p : str * Param) : str * Z :=
  (p.1, match p.2 with PNumber x => Adapter.glc_to_atomic x | _ => 0 end).

Definition tx_tree (t : DecodedTx) : tree :=
  TObj [(lit "txid", TStr (tx_txid_hex t));
        (lit "vin", TArr ((fun i => TObj [(lit "txid", TStr (in_txid_hex i)); (lit "vout", TInt (in_vout i))])
                            <$> tx_inputs t));
        (lit "vout", TArr ((fun o => TObj [(lit "value", TFloat (amount_f64 (value_atomic o)));
                                           (lit "scriptPubKey", TObj [(lit "hex", TStr (Builder.script_pubkey_hex o))])])
                             <$> tx_outputs t))].

(** Transactions are mined from time 2000 on. *)
Definition node_answer (method : str) (params : list Param) (o : Z) : tree :=
  match params with
  | [PInt _; PInt _; PArray _] => answer (TArr [coin_entry])
  | [PArray ins; PObject outs] => answer (TStr (node_create (read_input <$> ins) (read_output <$> outs)))
  | [PStr h] =>
      if bool_decide (method = lit "decoderawtransaction") then
        match node_decode h with Ok t => answer (tx_tree t) | Err _ => refusal (-22) end
      else answer (TStr h)
  | [PStr _; PBool true] =>
      if o <? 2000 then answer (TObj [])
      else answer (TObj [(lit "confirmations", TInt 6); (lit "blockhash", TStr (encode (replicate 32 xee)))])
  | _ => refusal (-32601)
  end.

Definition json_node : GoldcoinHttp Z :=
  {| post method params o := (o, Ok (node_answer method params o)) |}.

(** Withdrawal 7 of 50000, as the program stores it. *)
Definition listed_request : WithdrawalRequest :=
  {| State.index := 7; wr_amount := 50000; requester := demo_user;
     glc_address := splice (zeros 64) 0 (nw_address demo_withdrawal);
     glc_address_len := Z.of_nat (length (nw_address demo_withdrawal)); status := Pending;
     requested_at_slot := 9; wr_protocol_version := 1; wr_bump := 255; wr_reserved := zeros 48 |}.

Definition listing_chain : CompletionOutside Z :=
  {| co_rpc :=
       {| get_account k o :=
            (o, Ok (Some {| acc_owner := crate_ID;
                            acc_data := account_data (zeros 8) (request_fields listed_request) [] |}));
          get_latest_blockhash o := (o, Ok (zeros 32));
          SolanaRpc.send_transaction _ o := (o + 1, Ok (lit "5igna7ure"));
          get_program_accounts_sized _ _ _ o :=
            (o, Ok [stored_account crate_ID (zeros 8) (7, listed_request)]) |};
     co_now_unix o := (o, o);
     co_epoch o := seeded 1 o;
     collect_completion_signatures _ _ _ _ _ o := (o, demo_sigs) |}.

#[local] Instance json_relayer : RelayerOutside Z :=
  {| ro_http := json_node; ro_solana := listing_chain;
     ro_collect_payout_partials e i a int u q o := (o, sign_all u q) |}.

Definition pass_at (o : Z) (d : Tables) : Z * Tables * result WithdrawalTickError unit :=
  withdrawal_tick demo_settings crate_ID o d.

Definition paid : Tables := (pass_at 2100 (pass_at 1100 empty_tables).1.2).1.2.

(** The account is discovered, paid and confirmed over the JSON adapter. *)
Example passes_pay_the_listed_request :
  (pass_at 1100 empty_tables).2 = Ok tt /\ (pass_at 2100 (pass_at 1100 empty_tables).1.2).2 = Ok tt /\
  (l_to <$> withdrawal_state_log paid) =
    [Observed; Validated; Building; Signing; Broadcast; Confirming; WithdrawalDb.Completed] /\
  payouts_awaiting_onchain_completion paid = [7].
Proof. vm_compute. by split_and!. Qed.

(** Nothing is sent for it, whatever its block. *)
Example completion_pass_skips :
  (Completion.tick demo_submitter 2200 paid).2 =
  Ok {| reconciled := 0; submitted := 0; insufficient := 0; skipped := 1 |}.
Proof. vm_compute. reflexivity. Qed.

Lemma relayer_sends_no_completion_witness :
  local_completion_facts 7 paid = Ok None /\
  forall tx, ChainPass.Sent tx ∉
    (Completion.tick (N := Completion.logging ro_solana) demo_submitter (2200, []) paid).1.1.2.
Proof.
  assert (star (relayer_step demo_settings crate_ID demo_submitter) empty_tables paid) as H.
  { unfold paid, pass_at. eapply star_step; [eapply star_step; [constructor|]|]; apply rs_pass. }
  split.
  - destruct (relayer_sends_no_completion demo_settings crate_ID demo_submitter paid 2200
                {| tx_instructions := []; tx_payer := []; tx_signers := []; tx_blockhash := [] |} H) as [Hf _].
    destruct (Hf 7) as [E|E]; [exact E|]. vm_compute in E. discriminate E.
  - intros tx. apply (relayer_sends_no_completion demo_settings crate_ID demo_submitter paid 2200 tx H).
Defined.
