(* ===== verification/CompletionView.v ===== *)
(** * What a validator attests: [relayer/src/p2p/completion_view.rs]

    The decision over the validator's own database and its own Goldcoin node
    ([PayoutRpc]), and the characterisation of what it grants. *)
From Stdlib Require Import ZArith Lia Strings.Byte.
From stdpp Require Import base numbers strings gmap list.
From S2P Require Import Prelude Messages State Token SignatureProof Accounts SolanaInstruction SolanaRpc.
From S2P Require Import Completion Hex Rpc DepositDb WithdrawalDb WithdrawalDbProps Vault Multisig Epoch Executor.

(** A refusal carries the node's error where the code carries its text. *)
Inductive CompletionRefusal :=
| UnknownWithdrawal (index : Z)
| NotLocallyCompleted (index : Z) (state : str)
| NoPayout (index : Z)
| TxidMismatch (requested local : str)
| HeightMismatch (requested local : Z)
| InsufficientConfirmations (index confirmations required : Z)
| PayoutUnknownToNode (txid_hex : str)
| NodeUnavailable (e : RpcError)
| IndexOutOfRange (index : Z)
| MalformedLocalState (index : Z) (reason : str).

Record CompletionAttestation := {
  at_withdrawal_index : Z; at_payout_txid : list byte; at_payout_height : Z; at_amount : Z;
  at_dest_commitment : list byte
}.

Section view.
Context `{Sh : Sha2, Rt : SolanaRuntime, R : Runtime, N : PayoutRpc}.
Context (confirmation_depth : Z).

(** The local half: everything before the node is consulted. *)
Definition local_payout (withdrawal_index : Z) (payout_txid : list byte) (d : Tables)
  : result CompletionRefusal (WithdrawalRow * str) :=
  let* index := if withdrawal_index <=? I64_MAX then Ok withdrawal_index
                else Err (IndexOutOfRange withdrawal_index) in
  let* w := ok_or (get_withdrawal index d) (UnknownWithdrawal withdrawal_index) in
  require (bool_decide (w_state w = WithdrawalDb.Completed))
    (NotLocallyCompleted withdrawal_index (as_str (w_state w))) ;;*
  let* payout := ok_or (get_payout index d) (NoPayout withdrawal_index) in
  let* local_txid_hex :=
    ok_or (encode <$> p_txid payout)
      (MalformedLocalState withdrawal_index (lit "completed payout has no txid")) in
  let requested_hex := encode (rev payout_txid) in
  require (bool_decide (requested_hex = local_txid_hex)) (TxidMismatch requested_hex local_txid_hex) ;;*
  Ok (w, local_txid_hex).

(** The node's half, on its answer. *)
Definition confirmed_payout (withdrawal_index : Z) (payout_txid : list byte) (payout_height : Z)
    (w : WithdrawalRow) (local_txid_hex : str) (status : result RpcError (option TxStatus))
  : result CompletionRefusal CompletionAttestation :=
  let* status := map_err NodeUnavailable status in
  let* status := ok_or status (PayoutUnknownToNode local_txid_hex) in
  require (confirmation_depth <=? confirmations status)
    (InsufficientConfirmations withdrawal_index (confirmations status) confirmation_depth) ;;*
  let local_height := as_u64 (default 0 (block_height status)) in
  require (local_height =? payout_height) (HeightMismatch payout_height local_height) ;;*
  Ok {| at_withdrawal_index := withdrawal_index; at_payout_txid := payout_txid;
        at_payout_height := payout_height; at_amount := w_amount w;
        at_dest_commitment := destination_commitment (w_address w) |}.

Definition attest (withdrawal_index : Z) (payout_txid : list byte) (payout_height : Z)
    (o : outside) (d : Tables) : outside * result CompletionRefusal CompletionAttestation :=
  match local_payout withdrawal_index payout_txid d with
  | Err e => (o, Err e)
  | Ok (w, local_txid_hex) =>
      let (o, status) := transaction_confirmations local_txid_hex o in
      (o, confirmed_payout withdrawal_index payout_txid payout_height w local_txid_hex status)
  end.

(** ** What is granted *)

Lemma local_payout_Ok idx txid d w hex :
  local_payout idx txid d = Ok (w, hex) <->
  idx <= I64_MAX /\ withdrawal_requests d !! idx = Some w /\ w_state w = WithdrawalDb.Completed /\
  (exists p t, withdrawal_payouts d !! idx = Some p /\ p_txid p = Some t /\ hex = encode t) /\
  hex = encode (rev txid).
Proof.
  unfold local_payout, get_withdrawal, get_payout. split.
  - intros (i & Hi & H)%bind_Ok. destruct (idx <=? I64_MAX) eqn:Hle; [|discriminate Hi].
    injection Hi as <-. apply Z.leb_le in Hle.
    apply bind_Ok in H as (w' & Hw%ok_or_Ok & H). apply bind_Ok in H as (u & Hs%require_Ok & H).
    apply bind_Ok in H as (p & Hp%ok_or_Ok & H). apply bind_Ok in H as (h & Hh%ok_or_Ok & H).
    apply bind_Ok in H as (u' & He%require_Ok & [= -> ->]).
    apply bool_decide_eq_true in Hs, He. apply fmap_Some in Hh as (t & Ht & ->).
    split_and!; [done..| |done]. by exists p, t.
  - intros (Hle & Hw & Hs & (p & t & Hp & Ht & ->) & He).
    rewrite (proj2 (Z.leb_le _ _) Hle). cbn. rewrite Hw. cbn. rewrite bool_decide_true by done. cbn.
    rewrite Hp. cbn. rewrite Ht. cbn. rewrite <- He, bool_decide_true by done. done.
Qed.

Lemma confirmed_payout_Ok idx txid h w hex status a :
  confirmed_payout idx txid h w hex status = Ok a <->
  exists s, status = Ok (Some s) /\ confirmation_depth <= confirmations s /\
    as_u64 (default 0 (block_height s)) = h /\
    a = {| at_withdrawal_index := idx; at_payout_txid := txid; at_payout_height := h;
           at_amount := w_amount w; at_dest_commitment := destination_commitment (w_address w) |}.
Proof.
  unfold confirmed_payout. split.
  - intros (s & Hs%map_err_Ok & H)%bind_Ok. apply bind_Ok in H as (s' & Hs'%ok_or_Ok & H).
    apply bind_Ok in H as (u & Hd%require_Ok%Z.leb_le & H).
    apply bind_Ok in H as (u' & Hh%require_Ok%Z.eqb_eq & [= <-]). subst s. by exists s'.
  - intros (s & -> & Hd%Z.leb_le & Hh & ->). cbn. rewrite Hd. cbn. rewrite (proj2 (Z.eqb_eq _ _) Hh). done.
Qed.

(** C30: A validator attests a completion exactly when its own database holds the
    withdrawal as Completed with a payout of the requested txid and its own node then
    reports that transaction at the configured depth and at the requested height (zero
    when it names none); what it attests is the amount and the destination of its own
    row. *)
Theorem attests_exactly_its_confirmed_payout idx txid h o d a o' :
  attest idx txid h o d = (o', Ok a) <->
  idx <= I64_MAX /\
  exists w p t s,
    withdrawal_requests d !! idx = Some w /\ w_state w = WithdrawalDb.Completed /\
    withdrawal_payouts d !! idx = Some p /\ p_txid p = Some t /\ t = rev txid /\
    transaction_confirmations (encode t) o = (o', Ok (Some s)) /\
    confirmation_depth <= confirmations s /\ as_u64 (default 0 (block_height s)) = h /\
    a = {| at_withdrawal_index := idx; at_payout_txid := txid; at_payout_height := h;
           at_amount := w_amount w; at_dest_commitment := destination_commitment (w_address w) |}.
Proof.
  unfold attest. split.
  - destruct (local_payout idx txid d) as [[w hex]|e] eqn:El; [|done].
    apply local_payout_Ok in El as (Hle & Hw & Hs & (p & t & Hp & Ht & ->) & He).
    destruct (transaction_confirmations _ o) as [o1 st] eqn:Et. intros [= <- Hc].
    apply confirmed_payout_Ok in Hc as (s & -> & Hd & Hh & Ha).
    apply encode_inj in He. split; [done|]. by exists w, p, t, s.
  - intros (Hle & w & p & t & s & Hw & Hs & Hp & Ht & -> & Hc & Hd & Hh & ->).
    rewrite (proj2 (local_payout_Ok idx txid d w (encode (rev txid)))).
    2: { split_and!; [done..| |done]. by exists p, (rev txid). }
    rewrite Hc. f_equal. apply confirmed_payout_Ok. by exists s.
Qed.
End view.
