(* ===== verification/PayoutView.v ===== *)
(** * What a validator signs for a payout: [relayer/src/p2p/payout_view.rs]

    The payout half of a signer, over its own withdrawal tables and its own
    node ([PartialSigner]), in the state-and-error monad of [Effects]: what
    was written before a refusal stays. *)
From Stdlib Require Import ZArith Lia Strings.Byte.
From stdpp Require Import base numbers strings gmap list.
From S2P Require Import Prelude Effects Hex DepositDb Address Rpc WithdrawalDb Builder NodeClient.
From S2P Require Import Coin Vault Assignment Multisig WithdrawalConfig.

(** Refusals carry the errors whose text the code carries. *)
Inductive HaltReason :=
| Unreadable (e : DbError)
| CouldNotReserve (e : DbError)
| CouldNotPersist (e : DbError).

Inductive PartialFault :=
| ProposalUnparseable (e : MultisigError)
| BadScriptHex (e : HexFault)
| BadPartial (e : MultisigError).

Inductive PayoutRefusal :=
| UnknownWithdrawal (index : Z)
| NotSignable (index : Z) (state : str)
| QuorumAttemptMismatch (requested local : Z)
| IntentMismatch (index : Z)
| UnsignedTxMismatch (index : Z)
| NotDesignated (index attempt : Z)
| IntegrityHalted (index : Z) (reason : HaltReason)
| SigningFailed (e : str)
| MalformedPartial (e : PartialFault)
| IndexOutOfRange (index : Z)
| NotTheDesignatedBuilder (index proposer : Z)
| InputNotLocallyAvailable (index : Z) (outpoint : str)
| InputAmountMismatch (index : Z) (outpoint : str) (proposed local : Z)
| DestinationMismatch (index : Z)
| AmountMismatch (index proposed local : Z).

Record PayoutPartial := { pp_vault_pubkey : pubkey; pp_signatures : list (list byte) }.

(** The signer's own node: the partially signed transaction, or the text of
    the failure. *)
Class PartialSigner (outside : Type) :=
  sign_partial : str -> list PrevTx -> outside -> outside * result str str.

Record PayoutView := {
  pv_config : WithdrawalConfig; pv_vault : MultisigVault; pv_vault_signer_index : byte;
  pv_assignment : option OperatorAssignment
}.

(** [PayoutView::new]; [None] is the refusal to start. *)
Definition new (config : WithdrawalConfig) (vault_signer_index : byte) : option PayoutView :=
  if Z.of_nat (length (signer_pubkeys (vault config))) <=? byte_to_Z vault_signer_index then None
  else Some {| pv_config := config; pv_vault := vault config;
               pv_vault_signer_index := vault_signer_index; pv_assignment := None |}.

Definition with_assignment (V : PayoutView) (a : OperatorAssignment) : PayoutView :=
  {| pv_config := pv_config V; pv_vault := pv_vault V;
     pv_vault_signer_index := pv_vault_signer_index V; pv_assignment := Some a |}.

Definition proposal_is_timely (V : PayoutView) (index proposer observed_at now : Z) : bool :=
  match pv_assignment V with
  | None => true
  | Some a => may_propose a proposer index observed_at now
  end.

(** The index is in range, by [new]. *)
Definition vault_pubkey (V : PayoutView) : pubkey :=
  default [] (signer_pubkeys (pv_vault V) !! Z.to_nat (byte_to_Z (pv_vault_signer_index V))).

Section view.
Context `{Sh : Sha2} {outside : Type} `{N : !PartialSigner outside}.

Record World := { v_outside : outside; v_db : Tables }.
Abbreviation M := (SE World PayoutRefusal).

(** A database operation and its [map_err]. *)
Definition with_db {A} (f : Tables -> Tables * result DbError A) (refusal : DbError -> PayoutRefusal)
  : M A := fun w =>
  let (d, r) := f (v_db w) in
  ({| v_outside := v_outside w; v_db := d |}, map_err refusal r).
Definition node {A} (f : outside -> outside * result str A) : M A := fun w =>
  let (o, r) := f (v_outside w) in
  ({| v_outside := o; v_db := v_db w |}, map_err SigningFailed r).

(** The code sums [u64]s: wrapping in a release build. *)
Definition sum_values (l : list TxOutput) : Z := wrap_u64 (sumZ value l).

Definition outpoint_text (i : TxInput) : str :=
  encode (rev (prev_txid i)) ++ lit ":" ++ display (prev_vout i).

(** [available.iter().find(..)] for one proposed input. *)
Definition local_input (index : Z) (available : list VaultUtxo) (i : TxInput)
  : result PayoutRefusal VaultUtxo :=
  ok_or (snd <$> list_find (fun u => u_txid_hex u = encode (rev (prev_txid i)) /\
                                     u_vout u = prev_vout i) available)
    (InputNotLocallyAvailable index (outpoint_text i)).

(** What an adopted transaction means to this operator. *)
Definition adopted_terms (V : PayoutView) (w : WithdrawalRow) (tx : Multisig.Transaction)
    (dest_script : list byte) (inputs : list VaultUtxo) (unsigned_tx_hex : str) (now_unix : Z)
  : PayoutTerms :=
  let index := w_index w in
  let pays_dest o := bool_decide (script_pubkey o = dest_script) in
  let paid := sum_values (filter (fun o => pays_dest o = true) (outputs tx)) in
  let total_in := wrap_u64 (sumZ u_amount inputs) in
  let total_out := sum_values (outputs tx) in
  let fee := Z.max 0 (total_in - total_out) in
  let change := sum_values (filter (fun o => pays_dest o = false) (outputs tx)) in
  let quorum := designate_quorum index (signer_count (pv_vault V)) (threshold (pv_vault V)) in
  let intent :=
    canonical_payout_intent (w_version w) index (script_hash160 (pv_vault V)) (w_hash160 w) paid fee
      change (change_hash160 (pv_config V)) 0 quorum inputs in
  {| t_vault_script_hash := script_hash160 (pv_vault V); t_quorum_indices := quorum;
     t_quorum_attempt := 0; t_commitment_hash := payout_commitment intent; t_intent_bytes := intent;
     t_fee := fee; t_payout := paid; t_change := change;
     t_change_address := Some (encode_p2pkh (change_hash160 (pv_config V)));
     t_unsigned_tx_hex := unsigned_tx_hex; t_built_at := now_unix |}.

(** The checks of a proposal, before anything is written. *)
Definition check_proposal (V : PayoutView) (w : WithdrawalRow) (unsigned_tx_hex : str) (d : Tables)
  : result PayoutRefusal (Multisig.Transaction * list byte * list VaultUtxo) :=
  let idx := as_u64 (w_index w) in
  let* tx := map_err (fun e => MalformedPartial (ProposalUnparseable e)) (parse_hex unsigned_tx_hex) in
  let available := available_utxos (vault_min_confirmations (pv_config V)) d in
  let* inputs := mapM (local_input idx available) (Multisig.inputs tx) in
  let* dest_script :=
    map_err (fun e => MalformedPartial (BadScriptHex e)) (decode_vec (p2pkh_script_hex (w_hash160 w))) in
  let paid := sum_values (filter (fun o => bool_decide (script_pubkey o = dest_script) = true) (outputs tx)) in
  require (negb (paid =? 0)) (DestinationMismatch idx) ;;*
  require (paid =? w_amount w) (AmountMismatch idx paid (w_amount w)) ;;*
  Ok (tx, dest_script, inputs).

(** What an adoption writes: the reservation, the payout, the state. *)
Definition record_adoption (V : PayoutView) (w : WithdrawalRow) (tx : Multisig.Transaction)
    (dest_script : list byte) (inputs : list VaultUtxo) (unsigned_tx_hex : str) (now_unix : Z)
  : M unit :=
  let index := w_index w in
  let idx := as_u64 index in
  let halted e := IntegrityHalted idx (Unreadable e) in
  _ ← with_db (reserve_utxos index inputs now_unix) (fun e => IntegrityHalted idx (CouldNotReserve e));
  _ ← with_db (create_payout
        {| np_index := index;
           np_terms := adopted_terms V w tx dest_script inputs unsigned_tx_hex now_unix;
           np_inputs := inputs |}) (fun e => IntegrityHalted idx (CouldNotPersist e));
  _ ← (if bool_decide (w_state w = AwaitingFunds)
       then with_db (transition_withdrawal index Validated now_unix None) halted else mret tt);
  for_all (fun step => with_db (transition_withdrawal index step now_unix None) halted)
    [Building; Signing].

Definition adopt_proposal (V : PayoutView) (w : WithdrawalRow) (unsigned_tx_hex : str) (now_unix : Z)
  : M unit :=
  checked ← (d ← gets v_db; lift (check_proposal V w unsigned_tx_hex d));
  let '(tx, dest_script, inputs) := checked in
  record_adoption V w tx dest_script inputs unsigned_tx_hex now_unix.

Definition prevtx_of (V : PayoutView) (u : VaultUtxo) : PrevTx :=
  {| pt_txid := u_txid_hex u; pt_vout := u_vout u; pt_script_pub_key := u_script u;
     pt_redeem_script := redeem_script_hex (pv_vault V) |}.

(** The last part: this signer's own node, one key. *)
Definition produce_partial (V : PayoutView) (unsigned_tx_hex : str) (inputs : list VaultUtxo)
  : M PayoutPartial :=
  partial_hex ← node (sign_partial unsigned_tx_hex (prevtx_of V <$> inputs));
  partial ← lift (map_err (fun e => MalformedPartial (BadPartial e)) (parse_hex partial_hex));
  signatures ← lift (map_err (fun e => MalformedPartial (BadPartial e))
                       (extract_signatures partial (redeem_script (pv_vault V))));
  mret {| pp_vault_pubkey := vault_pubkey V; pp_signatures := signatures |}.

(** From the second load of the withdrawal to the comparisons. *)
Definition agreed_payout (V : PayoutView) (index quorum_attempt : Z) (canonical_intent : list byte)
    (unsigned_tx_hex : str) (now_unix : Z) : M SignablePayout :=
  let halted e := IntegrityHalted index (Unreadable e) in
  w ← (d ← gets v_db; lift (ok_or (get_withdrawal index d) (UnknownWithdrawal index)));
  _ ← lift (require (bool_decide (w_state w = Building \/ w_state w = Signing))
              (NotSignable index (WithdrawalDb.as_str (w_state w))));
  s ← with_db (verify_and_load_signable_payout index now_unix) halted;
  _ ← lift (require (s_quorum_attempt s =? quorum_attempt)
              (QuorumAttemptMismatch quorum_attempt (s_quorum_attempt s)));
  _ ← lift (require (bool_decide (pv_vault_signer_index V ∈ s_quorum_indices s))
              (NotDesignated index quorum_attempt));
  _ ← lift (require (bool_decide (s_intent_bytes s = canonical_intent)) (IntentMismatch index));
  _ ← lift (require (bool_decide (s_unsigned_tx_hex s = unsigned_tx_hex)) (UnsignedTxMismatch index));
  mret s.

Definition sign_payout (V : PayoutView) (withdrawal_index quorum_attempt : Z)
    (canonical_intent : list byte) (unsigned_tx_hex : str) (proposer_index now_unix : Z)
  : M PayoutPartial :=
  let halted e := IntegrityHalted withdrawal_index (Unreadable e) in
  index ← lift (if withdrawal_index <=? I64_MAX then Ok withdrawal_index
                else Err (IndexOutOfRange withdrawal_index));
  w ← (d ← gets v_db; lift (ok_or (get_withdrawal index d) (UnknownWithdrawal withdrawal_index)));
  eligible_since ← (d ← gets v_db; lift (map_err halted (withdrawal_eligible_since index d)));
  _ ← lift (require (proposal_is_timely V withdrawal_index proposer_index eligible_since now_unix)
              (NotTheDesignatedBuilder withdrawal_index proposer_index));
  _ ← (if bool_decide (w_state w = Validated \/ w_state w = AwaitingFunds)
       then adopt_proposal V w unsigned_tx_hex now_unix else mret tt);
  s ← agreed_payout V index quorum_attempt canonical_intent unsigned_tx_hex now_unix;
  produce_partial V (s_unsigned_tx_hex s) (s_inputs s).
End view.
