(* ===== verification/PayoutViewProps.v ===== *)
(** * What the payout signer grants

    For a payout its own executor built, a validator signs exactly its own
    record.  For one it adopts from a proposal, the decision does not depend
    on where the outputs other than the destination's pay, and a payout that
    leaves no change is never adopted. *)
From Stdlib Require Import ZArith Lia Strings.Byte.
From stdpp Require Import base numbers strings gmap list.
From S2P Require Import Executor.
From S2P Require Import Prelude Effects Hex DepositDb Address Rpc WithdrawalDb WithdrawalDbProps.
From S2P Require Import Builder.
From S2P Require Import NodeClient Coin Vault Assignment Multisig WithdrawalConfig.
From S2P Require Import PayoutView.

Section props.
Context `{Sh : Sha2} {outside : Type} `{N : !PartialSigner outside}.
Abbreviation W := (World (outside := outside)).
Implicit Types (o : outside) (d : Tables).

Definition at_ o d : W := {| v_outside := o; v_db := d |}.

Lemma lift_at {A} (r : result PayoutRefusal A) (w : W) : lift r w = (w, r).
Proof. done. Qed.

(** ** Reading a run backwards *)

Lemma require_step {A} b e (k : SE W PayoutRefusal A) (w w' : W) a :
  (lift (require b e) ≫= fun _ => k) w = (w', Ok a) <-> b = true /\ k w = (w', Ok a).
Proof. unfold mbind, SE_bind, lift. destruct b; cbn; naive_solver. Qed.

Lemma ok_or_step {A B} (x : option A) e (k : A -> SE W PayoutRefusal B) (w w' : W) b :
  (lift (ok_or x e) ≫= k) w = (w', Ok b) <-> exists a, x = Some a /\ k a w = (w', Ok b).
Proof. unfold mbind, SE_bind, lift. destruct x; cbn; naive_solver. Qed.

Lemma verify_Ok_tables i t d d' s :
  verify_and_load_signable_payout i t d = (d', Ok s) -> d' = d.
Proof.
  unfold verify_and_load_signable_payout.
  repeat (case_match; try congruence).
Qed.

Lemma agreed_Ok V i attempt intent hex now (w w' : W) s :
  agreed_payout V i attempt intent hex now w = (w', Ok s) <->
  w' = w /\ (exists r, withdrawal_requests (v_db w) !! i = Some r /\ (w_state r = Building \/ w_state r = Signing)) /\
  verify_and_load_signable_payout i now (v_db w) = (v_db w, Ok s) /\ s_quorum_attempt s = attempt /\
  pv_vault_signer_index V ∈ s_quorum_indices s /\ s_intent_bytes s = intent /\ s_unsigned_tx_hex s = hex.
Proof.
  unfold agreed_payout. rewrite SE_bind_Ok. unfold gets, get_withdrawal.
  setoid_rewrite require_step. setoid_rewrite SE_bind_Ok. do 4 setoid_rewrite require_step.
  unfold with_db. split.
  - intros (w1 & r & (w0 & d0 & [= <- <-] & [= <- Hr%ok_or_Ok]) & Hs & w2 & s' & Hv & Ha & Hq & Hi & Hu & [= <- <-]).
    destruct (verify_and_load_signable_payout i now (v_db w)) as [d1 r1] eqn:E.
    injection Hv as <- Hv%map_err_Ok. subst r1. pose proof (verify_Ok_tables _ _ _ _ _ E) as ->.
    apply bool_decide_eq_true in Hs, Hq, Hi, Hu. apply Z.eqb_eq in Ha. rewrite Ha in *.
    destruct w. split_and!; eauto.
  - intros (-> & (r & Hr & Hs) & Hv & Ha & Hq & Hi & Hu). exists w, r.
    split; [exists w, (v_db w); by rewrite Hr|]. split; [by apply bool_decide_eq_true|]. exists w, s. rewrite Hv.
    split; [by destruct w|]. rewrite Ha, Z.eqb_refl, !bool_decide_true by done. done.
Qed.

Lemma produce_Ok V hex ins (w w' : W) p :
  produce_partial V hex ins w = (w', Ok p) <->
  exists o partial_hex partial,
    sign_partial hex (prevtx_of V <$> ins) (v_outside w) = (o, Ok partial_hex) /\ w' = at_ o (v_db w) /\
    parse_hex partial_hex = Ok partial /\
    extract_signatures partial (redeem_script (pv_vault V)) = Ok (pp_signatures p) /\
    pp_vault_pubkey p = vault_pubkey V.
Proof.
  unfold produce_partial, node. rewrite SE_bind_Ok. setoid_rewrite SE_bind_Ok. setoid_rewrite SE_bind_Ok.
  unfold lift. split.
  - intros (w1 & ph & Hn & w2 & partial & Hp & w3 & sigs & Hs & Hret).
    destruct (sign_partial hex _ (v_outside w)) as [o r]. injection Hn as <- Hr%map_err_Ok. subst r.
    injection Hp as <- Hp%map_err_Ok. injection Hs as <- Hs%map_err_Ok. injection Hret as <- <-.
    by exists o, ph, partial.
  - intros (o & ph & partial & Hn & -> & Hp & Hs & Hk). rewrite Hn.
    exists (at_ o (v_db w)), ph. split; [done|]. exists (at_ o (v_db w)), partial. rewrite Hp.
    split; [done|]. exists (at_ o (v_db w)), (pp_signatures p). rewrite Hs. split; [done|].
    rewrite <- Hk. by destruct p.
Qed.

#[local] Opaque agreed_payout adopt_proposal produce_partial.

(** The checks that come before the adoption, as one condition. *)
Definition timely V i proposer now d : Prop :=
  i <= I64_MAX /\ exists since, withdrawal_eligible_since i d = Ok since /\
    proposal_is_timely V i proposer since now = true.

Lemma sign_Ok V i attempt intent hex proposer now (w w' : W) p :
  sign_payout V i attempt intent hex proposer now w = (w', Ok p) <->
  timely V i proposer now (v_db w) /\
  exists r w1 s, withdrawal_requests (v_db w) !! i = Some r /\
    (if bool_decide (w_state r = Validated \/ w_state r = AwaitingFunds)
     then adopt_proposal V r hex now else mret tt) w = (w1, Ok tt) /\
    agreed_payout V i attempt intent hex now w1 = (w1, Ok s) /\
    produce_partial V (s_unsigned_tx_hex s) (s_inputs s) w1 = (w', Ok p).
Proof.
  unfold sign_payout, timely. rewrite SE_bind_Ok. setoid_rewrite SE_bind_Ok.
  setoid_rewrite SE_bind_Ok. setoid_rewrite require_step. repeat setoid_rewrite SE_bind_Ok.
  unfold gets, get_withdrawal, lift. split.
  - intros (w0 & i' & Hi & w2 & r & (w3 & d3 & [= <- <-] & [= <- Hr%ok_or_Ok]) & w4 & since &
            (w5 & d5 & [= <- <-] & [= <- Hs%map_err_Ok]) & Ht & w6 & [] & Had & w7 & s & Hag & Hp).
    destruct (i <=? I64_MAX) eqn:Hle; [|discriminate Hi]. injection Hi as <- <-. apply Z.leb_le in Hle.
    split; [eauto|]. pose proof (proj1 (agreed_Ok _ _ _ _ _ _ _ _ _) Hag) as (-> & _).
    by exists r, w6, s.
  - intros ([Hle (since & Hs & Ht)] & r & w1 & s & Hr & Had & Hag & Hp).
    exists w, i. rewrite (proj2 (Z.leb_le _ _) Hle). split; [done|].
    exists w, r. split; [exists w, (v_db w); by rewrite Hr|].
    exists w, since. split; [exists w, (v_db w); by rewrite Hs|]. split; [done|].
    exists w1, tt. split; [done|]. by exists w1, s.
Qed.

(** C19: For a withdrawal whose payout its own executor built, a validator answers a
    payout request with signatures exactly when the proposer is timely, the withdrawal
    is Building or Signing, its own pre-signing guard releases a payout whose intent
    bytes, transaction and quorum attempt equal the request's, it is in the designated
    quorum, and its node signs that very transaction over its own rows; nothing is
    written. *)
Theorem built_payout_is_signed_as_recorded V i attempt intent hex proposer now o d w' p r :
  withdrawal_requests d !! i = Some r -> w_state r <> Validated -> w_state r <> AwaitingFunds ->
  sign_payout V i attempt intent hex proposer now (at_ o d) = (w', Ok p) <->
  timely V i proposer now d /\ (w_state r = Building \/ w_state r = Signing) /\
  exists s o' partial_hex partial,
    verify_and_load_signable_payout i now d = (d, Ok s) /\ s_quorum_attempt s = attempt /\
    pv_vault_signer_index V ∈ s_quorum_indices s /\ s_intent_bytes s = intent /\
    s_unsigned_tx_hex s = hex /\
    sign_partial hex (prevtx_of V <$> s_inputs s) o = (o', Ok partial_hex) /\ w' = at_ o' d /\
    parse_hex partial_hex = Ok partial /\
    extract_signatures partial (redeem_script (pv_vault V)) = Ok (pp_signatures p) /\
    pp_vault_pubkey p = vault_pubkey V.
Proof.
  intros Hr Hv Ha. rewrite sign_Ok. cbn [at_ v_db]. split.
  - intros (Ht & r' & w1 & s & Hr' & Had & Hag & Hp). rewrite Hr in Hr'. injection Hr' as <-.
    rewrite bool_decide_false in Had by naive_solver. injection Had as <-.
    apply agreed_Ok in Hag as (_ & (r' & Hr' & Hs) & Hver & Hat & Hq & Hi & Hu). cbn [at_ v_db] in *.
    rewrite Hr in Hr'. injection Hr' as <-.
    apply produce_Ok in Hp as (o' & ph & partial & Hn & -> & Hp). rewrite Hu in Hn.
    split; [done|]. split; [done|]. by exists s, o', ph, partial.
  - intros (Ht & Hs & s & o' & ph & partial & Hver & Hat & Hq & Hi & Hu & Hn & -> & Hp).
    split; [done|]. exists r, (at_ o d), s. split; [done|].
    rewrite bool_decide_false by naive_solver. split; [done|].
    split; [apply agreed_Ok; split_and!; eauto|]. apply produce_Ok. rewrite Hu. by exists o', ph, partial.
Qed.
End props.

(** * Adopting a proposal

    A passive validator takes a designated builder's transaction as its own
    payout.  Two proposals that spend the same inputs and pay the destination
    the same are treated alike whatever their other outputs pay: they are
    refused together or signed together. *)

(** ** The same payout with another transaction *)

Definition retold_terms (h : str) (t : PayoutTerms) : PayoutTerms :=
  {| t_vault_script_hash := t_vault_script_hash t; t_quorum_indices := t_quorum_indices t;
     t_quorum_attempt := t_quorum_attempt t; t_commitment_hash := t_commitment_hash t;
     t_intent_bytes := t_intent_bytes t; t_fee := t_fee t; t_payout := t_payout t;
     t_change := t_change t; t_change_address := t_change_address t; t_unsigned_tx_hex := h;
     t_built_at := t_built_at t |}.

Definition retold_row (h : str) (p : PayoutRow) : PayoutRow :=
  {| p_terms := retold_terms h (p_terms p); p_signed_tx_hex := p_signed_tx_hex p; p_txid := p_txid p;
     p_signed_at := p_signed_at p; p_broadcast_at := p_broadcast_at p;
     p_mined_block_hash := p_mined_block_hash p; p_mined_height := p_mined_height p;
     p_confirmations := p_confirmations p; p_completed_at := p_completed_at p;
     p_onchain_completed_at := p_onchain_completed_at p; p_onchain_signature := p_onchain_signature p |}.

Definition retold (i : Z) (h : str) (d : Tables) : Tables := update_payout d i (retold_row h).

Definition retold_signable (h : str) (s : SignablePayout) : SignablePayout :=
  {| s_index := s_index s; s_unsigned_tx_hex := h; s_payout := s_payout s; s_fee := s_fee s;
     s_change := s_change s; s_change_address := s_change_address s; s_hash160 := s_hash160 s;
     s_vault_script_hash := s_vault_script_hash s; s_quorum_indices := s_quorum_indices s;
     s_quorum_attempt := s_quorum_attempt s; s_inputs := s_inputs s;
     s_commitment_hash := s_commitment_hash s; s_intent_bytes := s_intent_bytes s |}.

(** The transaction recorded for a payout. *)
Definition records_tx (i : Z) (h : str) (d : Tables) : Prop :=
  (fun p => t_unsigned_tx_hex (p_terms p)) <$> withdrawal_payouts d !! i = Some h.

Section adoption.
Context `{Sh : Sha2} {outside : Type} `{N : !PartialSigner outside}.
Implicit Types (o : outside) (d : Tables).

Lemma retold_transition i h j to t reason d :
  transition_withdrawal j to t reason (retold i h d) =
  (retold i h (transition_withdrawal j to t reason d).1, (transition_withdrawal j to t reason d).2).
Proof.
  unfold transition_withdrawal. change (withdrawal_requests (retold i h d)) with (withdrawal_requests d).
  destruct (withdrawal_requests d !! j) as [w|]; [|done]. by case_match.
Qed.

Lemma records_transition i h j to t reason d :
  records_tx i h d -> records_tx i h (transition_withdrawal j to t reason d).1.
Proof.
  unfold transition_withdrawal. destruct (withdrawal_requests d !! j); [|done]. by case_match.
Qed.

Lemma retold_create p h d d' :
  create_payout p d = (d', Ok tt) ->
  create_payout {| np_index := np_index p; np_terms := retold_terms h (np_terms p);
                   np_inputs := np_inputs p |} d = (retold (np_index p) h d', Ok tt) /\
  records_tx (np_index p) (t_unsigned_tx_hex (np_terms p)) d'.
Proof.
  unfold create_payout. cbn [np_index np_terms np_inputs].
  case_bool_decide; [done|]. destruct (foldM _ _ _) as [ins|e]; [|done]. intros [= <-]. split.
  - f_equal. unfold retold, update_payout, put_inputs, put_payouts. cbn. f_equal.
    by rewrite alter_insert_eq.
  - unfold records_tx. cbn. by rewrite lookup_insert_eq.
Qed.

Lemma retold_create_Err p h d d' e :
  create_payout p d = (d', Err e) ->
  create_payout {| np_index := np_index p; np_terms := retold_terms h (np_terms p);
                   np_inputs := np_inputs p |} d = (d', Err e).
Proof.
  unfold create_payout. cbn [np_index np_terms np_inputs].
  case_bool_decide; [done|]. by destruct (foldM _ _ _).
Qed.

Lemma check_inputs_utxos i d d' cs :
  vault_utxos d' = vault_utxos d -> check_inputs i d' cs = check_inputs i d cs.
Proof.
  intros E. induction cs as [|c cs IH]; cbn [check_inputs]; [done|].
  unfold check_input. by rewrite E, IH.
Qed.

Lemma retold_verify i t h h' d :
  records_tx i h d ->
  (exists d1 e, verify_and_load_signable_payout i t d = (d1, Err e) /\
     (verify_and_load_signable_payout i t (retold i h' d)).2 = Err e) \/
  (exists s, verify_and_load_signable_payout i t d = (d, Ok s) /\ s_unsigned_tx_hex s = h /\
     verify_and_load_signable_payout i t (retold i h' d) = (retold i h' d, Ok (retold_signable h' s))).
Proof.
  unfold records_tx. intros (p & Hp & Hh)%fmap_Some.
  assert (withdrawal_payouts (retold i h' d) !! i = Some (retold_row h' p)) as Hp'.
  { unfold retold, update_payout. cbn. by rewrite lookup_alter_eq, Hp. }
  unfold verify_and_load_signable_payout. rewrite Hp, Hp'.
  change (withdrawal_requests (retold i h' d)) with (withdrawal_requests d).
  change (committed_inputs i (retold i h' d)) with (committed_inputs i d).
  destruct (withdrawal_requests d !! i) as [w|]; [|by left; eauto]. cbn [p_terms retold_row p_completed_at p_confirmations p_signed_tx_hex].
  case_bool_decide; [by left; eauto|]. case_match; [by left; eauto|].
  case_bool_decide; [by left; eauto|].
  destruct (committed_inputs i d) as [|c cs]; [by left; eauto|].
  rewrite (check_inputs_utxos i d (retold i h' d)) by done.
  destruct (check_inputs i d (c :: cs)) as [ins|[audit reason]]; [|by left; eauto].
  change (change_hash160_of i (retold_terms h' (p_terms p))) with (change_hash160_of i (p_terms p)).
  destruct (change_hash160_of i (p_terms p)) as [ch|e]; [|by left; eauto].
  change (recomputed_intent i w (retold_terms h' (p_terms p))) with (recomputed_intent i w (p_terms p)).
  cbn [t_intent_bytes t_commitment_hash t_payout retold_terms].
  case_match; [by left; eauto|]. case_match; [by left; eauto|]. case_match; [by left; eauto|].
  right. eexists. split; [done|]. split; [exact (eq_sym Hh)|]. done.
Qed.

(** ** Two runs in step *)

Definition in_step (i : Z) (h h' : str) (m : SE (World (outside := outside)) PayoutRefusal unit) : Prop :=
  forall o d, records_tx i h d -> exists d1,
    m (at_ o d) = (at_ o d1, (m (at_ o d)).2) /\ records_tx i h d1 /\
    m (at_ o (retold i h' d)) = (at_ o (retold i h' d1), (m (at_ o d)).2).

Lemma in_step_ret i h h' : in_step i h h' (mret tt).
Proof. intros o d H. by exists d. Qed.

Lemma in_step_transition i h h' j to t reason f :
  in_step i h h' (with_db (transition_withdrawal j to t reason) f).
Proof.
  intros o d H. pose proof (records_transition i h j to t reason d H) as Hr.
  pose proof (retold_transition i h' j to t reason d) as Ht.
  unfold with_db. cbn [at_ v_db v_outside].
  destruct (transition_withdrawal j to t reason d) as [d1 r]. cbn [fst snd] in *.
  exists d1. split; [done|]. split; [done|]. by rewrite Ht.
Qed.

Lemma in_step_bind i h h' m k :
  in_step i h h' m -> in_step i h h' k -> in_step i h h' (m ≫= fun _ => k).
Proof.
  intros Hm Hk o d H. destruct (Hm o d H) as (d1 & E1 & H1 & E1').
  unfold mbind, SE_bind. rewrite E1, E1'. destruct (m (at_ o d)).2 as [[]|e]; cbn [snd].
  - apply Hk, H1.
  - by exists d1.
Qed.

(** ** The proposal *)

Lemma sumZ_cons {A} (f : A -> Z) a l : sumZ f (a :: l) = f a + sumZ f l.
Proof. done. Qed.

(** The same outputs, those that do not pay [dest] redirected at will. *)
Definition redirected (dest : list byte) : list TxOutput -> list TxOutput -> Prop :=
  Forall2 (fun a b => a = b \/
    value b = value a /\ script_pubkey a <> dest /\ script_pubkey b <> dest).

Lemma redirected_sums dest outs outs' (b : bool) :
  redirected dest outs outs' ->
  sumZ value (filter (fun x => bool_decide (script_pubkey x = dest) = b) outs') =
  sumZ value (filter (fun x => bool_decide (script_pubkey x = dest) = b) outs) /\
  sumZ value outs' = sumZ value outs.
Proof.
  induction 1 as [|a a' outs outs' Ha _ [IH1 IH2]]; [done|].
  rewrite !filter_cons, !sumZ_cons, IH2. destruct Ha as [<-|(Hv & Hn & Hn')].
  - split; [|done]. case_decide; rewrite ?sumZ_cons; by rewrite IH1.
  - rewrite (bool_decide_false (script_pubkey a = dest)) by done.
    rewrite (bool_decide_false (script_pubkey a' = dest)) by done.
    rewrite Hv. split; [|done]. case_decide; rewrite ?sumZ_cons; by rewrite ?IH1, ?Hv.
Qed.

Lemma adopt_eq V w h now o d :
  adopt_proposal V w h now (at_ o d) =
  match check_proposal V w h d with
  | Ok (t, s, ins) => record_adoption V w t s ins h now (at_ o d)
  | Err e => (at_ o d, Err e)
  end.
Proof.
  unfold adopt_proposal, mbind, SE_bind, gets, lift. cbn [at_ v_db].
  by destruct (check_proposal V w h d) as [[[t s] ins]|e].
Qed.

Section two.
Context (V : PayoutView) (w : WithdrawalRow) (hex hex' : str) (tx tx' : Multisig.Transaction).
Context (dest : list byte).
Context (Htx : parse_hex hex = Ok tx) (Htx' : parse_hex hex' = Ok tx').
Context (Hdest : decode_vec (p2pkh_script_hex (w_hash160 w)) = Ok dest).
Context (Hins : inputs tx' = inputs tx) (Houts : redirected dest (outputs tx) (outputs tx')).

Lemma sum_redirected (b : bool) :
  sum_values (filter (fun x => bool_decide (script_pubkey x = dest) = b) (outputs tx')) =
  sum_values (filter (fun x => bool_decide (script_pubkey x = dest) = b) (outputs tx)).
Proof. unfold sum_values. by rewrite (proj1 (redirected_sums dest _ _ b Houts)). Qed.

Lemma adopted_terms_retold ins now :
  adopted_terms V w tx' dest ins hex' now = retold_terms hex' (adopted_terms V w tx dest ins hex now).
Proof.
  assert (sum_values (outputs tx') = sum_values (outputs tx)) as Ht.
  { unfold sum_values. by rewrite (proj2 (redirected_sums dest _ _ true Houts)). }
  unfold adopted_terms. cbv zeta. by rewrite !sum_redirected, Ht.
Qed.

Lemma check_redirected d :
  match check_proposal V w hex d with
  | Ok (t, s, ins) => t = tx /\ s = dest /\ check_proposal V w hex' d = Ok (tx', dest, ins)
  | Err e => check_proposal V w hex' d = Err e
  end.
Proof.
  unfold check_proposal. rewrite Htx, Htx', Hdest. cbn [map_err mbind result_bind].
  rewrite Hins, sum_redirected. destruct (mapM _ _) as [ins|e]; [|done]. cbn [mbind result_bind].
  destruct (negb _); [|done]. cbn [require mbind result_bind]. by destruct (_ =? w_amount w).
Qed.

Lemma record_in_step ins o d now :
  (exists d1, record_adoption V w tx dest ins hex now (at_ o d) = (at_ o d1, Ok tt) /\
     records_tx (w_index w) hex d1 /\
     record_adoption V w tx' dest ins hex' now (at_ o d) = (at_ o (retold (w_index w) hex' d1), Ok tt)) \/
  (exists e, (record_adoption V w tx dest ins hex now (at_ o d)).2 = Err e /\
     (record_adoption V w tx' dest ins hex' now (at_ o d)).2 = Err e).
Proof.
  unfold record_adoption. cbv zeta. rewrite adopted_terms_retold.
  set (reserve := with_db (reserve_utxos _ _ _) _).
  assert (exists d1 r, reserve (at_ o d) = (at_ o d1, r)) as (d1 & [u|e] & Hr).
  { unfold reserve, with_db. cbn [at_ v_db v_outside]. destruct (reserve_utxos _ _ _ d). eauto. }
  2: { rewrite !(SE_bind_stop _ _ _ _ _ Hr). right. by exists e. }
  rewrite !(SE_bind_step _ _ _ _ _ Hr).
  set (p := {| np_index := w_index w; np_terms := adopted_terms V w tx dest ins hex now; np_inputs := ins |}).
  set (p' := {| np_terms := retold_terms hex' _ |}).
  set (create := with_db (create_payout p) _). set (create' := with_db (create_payout p') _).
  set (finish := fun _ : unit => _ ≫= _).
  assert (forall u, in_step (w_index w) hex hex' (finish u)) as Hf.
  { intros []. unfold finish. apply in_step_bind.
    - case_bool_decide; [apply in_step_transition|apply in_step_ret].
    - cbn [for_all]. repeat apply in_step_bind; try apply in_step_transition. apply in_step_ret. }
  destruct (create_payout p d1) as [d2 [[]|e]] eqn:Ec.
  - destruct (retold_create p hex' _ _ Ec) as [Ec' Hrec].
    change (create_payout p' d1 = (retold (w_index w) hex' d2, Ok tt)) in Ec'.
    rewrite (SE_bind_step create finish (at_ o d1) (at_ o d2) tt)
      by (unfold create, with_db; cbn [at_ v_db v_outside]; by rewrite Ec).
    rewrite (SE_bind_step create' finish (at_ o d1) (at_ o (retold (w_index w) hex' d2)) tt)
      by (unfold create', with_db; cbn [at_ v_db v_outside]; by rewrite Ec').
    destruct (Hf tt o d2 Hrec) as (d3 & E3 & H3 & E3'). rewrite E3'.
    destruct (finish tt (at_ o d2)).2 as [[]|e] eqn:Er; [left; by exists d3|right; by exists e].
  - pose proof (retold_create_Err p hex' _ _ _ Ec) as Ec'.
    change (create_payout p' d1 = (d2, Err e)) in Ec'. right. eexists.
    rewrite (SE_bind_stop create finish (at_ o d1) (at_ o d2)) with (e := IntegrityHalted (as_u64 (w_index w)) (CouldNotPersist e))
      by (unfold create, with_db; cbn [at_ v_db v_outside]; by rewrite Ec).
    rewrite (SE_bind_stop create' finish (at_ o d1) (at_ o d2)) with (e := IntegrityHalted (as_u64 (w_index w)) (CouldNotPersist e))
      by (unfold create', with_db; cbn [at_ v_db v_outside]; by rewrite Ec').
    done.
Qed.

Lemma adopt_in_step o d now :
  (exists d1, adopt_proposal V w hex now (at_ o d) = (at_ o d1, Ok tt) /\
     records_tx (w_index w) hex d1 /\
     adopt_proposal V w hex' now (at_ o d) = (at_ o (retold (w_index w) hex' d1), Ok tt)) \/
  (exists e, (adopt_proposal V w hex now (at_ o d)).2 = Err e /\
     (adopt_proposal V w hex' now (at_ o d)).2 = Err e).
Proof.
  pose proof (check_redirected d) as Hc. rewrite !adopt_eq. destruct (check_proposal V w hex d) as [[[t s] ins]|e].
  - destruct Hc as (-> & -> & ->). apply record_in_step.
  - rewrite Hc. right. by exists e.
Qed.
End two.

Lemma agreed_in_step V i attempt intent hex hex' now o d :
  records_tx i hex d ->
  (exists s, agreed_payout V i attempt intent hex now (at_ o d) = (at_ o d, Ok s) /\
     s_unsigned_tx_hex s = hex /\
     agreed_payout V i attempt intent hex' now (at_ o (retold i hex' d)) =
       (at_ o (retold i hex' d), Ok (retold_signable hex' s))) \/
  (exists e, (agreed_payout V i attempt intent hex now (at_ o d)).2 = Err e /\
     (agreed_payout V i attempt intent hex' now (at_ o (retold i hex' d))).2 = Err e).
Proof.
  intros H. pose proof (retold_verify i now hex hex' d H) as Hv.
  unfold agreed_payout, mbind, SE_bind, gets, lift, get_withdrawal. cbn [at_ v_db].
  change (withdrawal_requests (retold i hex' d)) with (withdrawal_requests d).
  destruct (withdrawal_requests d !! i) as [w|]; cbn [ok_or]; [|right; by eexists].
  destruct (bool_decide _); cbn [require]; [|right; by eexists].
  unfold with_db. cbn [at_ v_db v_outside].
  destruct Hv as [(d1 & e & Hv & Hv')|(s & Hv & Hs & Hv')].
  - rewrite Hv. destruct (verify_and_load_signable_payout i now (retold i hex' d)) as [d2 r].
    cbn in Hv'. subst r. cbn [map_err]. right. by eexists.
  - rewrite Hv, Hv'. cbn [map_err retold_signable s_quorum_attempt s_quorum_indices s_intent_bytes s_unsigned_tx_hex].
    destruct (s_quorum_attempt s =? attempt); cbn [require]; [|right; by eexists].
    destruct (bool_decide (pv_vault_signer_index V ∈ s_quorum_indices s)); cbn [require]; [|right; by eexists].
    destruct (bool_decide (s_intent_bytes s = intent)); cbn [require]; [|right; by eexists].
    rewrite !bool_decide_true by done. left. by exists s.
Qed.

#[local] Opaque agreed_payout adopt_proposal produce_partial.

(** The checks before the adoption pass, or fail whatever the transaction. *)
Lemma sign_passive V i attempt intent proposer now o d w :
  withdrawal_requests d !! i = Some w -> (w_state w = Validated \/ w_state w = AwaitingFunds) ->
  (forall hex, sign_payout V i attempt intent hex proposer now (at_ o d) =
     (adopt_proposal V w hex now ≫= fun _ =>
      agreed_payout V i attempt intent hex now ≫= fun s =>
      produce_partial V (s_unsigned_tx_hex s) (s_inputs s)) (at_ o d)) \/
  (exists e, forall hex, (sign_payout V i attempt intent hex proposer now (at_ o d)).2 = Err e).
Proof.
  intros Hw Hs. unfold sign_payout, gets, lift, get_withdrawal.
  destruct (i <=? I64_MAX) eqn:Hle; [|right; by eexists].
  destruct (withdrawal_eligible_since i d) as [since|e] eqn:Hsince.
  2: { right. eexists. intros hex. unfold mbind, SE_bind. cbn [at_ v_db]. by rewrite Hw, Hsince. }
  destruct (proposal_is_timely V i proposer since now) eqn:Ht.
  2: { right. eexists. intros hex. unfold mbind, SE_bind. cbn [at_ v_db].
    rewrite Hw, Hsince. cbn [ok_or map_err]. by rewrite Ht. }
  left. intros hex. unfold mbind, SE_bind. cbn [at_ v_db]. rewrite Hw, Hsince. cbn [ok_or map_err].
  rewrite Ht. cbn [require]. by rewrite bool_decide_true.
Qed.

(** A passive validator's answer to a proposal does not depend on where the outputs
    that do not pay the destination pay: two proposals with the same inputs and the same
    amounts, one returning the change to the vault and the other to anyone, are refused
    with the same error or both handed to the node for signing, and the tables they
    leave differ only in the transaction text. *)
Theorem adoption_ignores_other_outputs V i attempt intent hex hex' proposer now o d w tx tx' dest :
  withdrawal_requests d !! i = Some w -> w_index w = i ->
  (w_state w = Validated \/ w_state w = AwaitingFunds) ->
  parse_hex hex = Ok tx -> parse_hex hex' = Ok tx' ->
  decode_vec (p2pkh_script_hex (w_hash160 w)) = Ok dest ->
  inputs tx' = inputs tx -> redirected dest (outputs tx) (outputs tx') ->
  (exists e, (sign_payout V i attempt intent hex proposer now (at_ o d)).2 = Err e /\
     (sign_payout V i attempt intent hex' proposer now (at_ o d)).2 = Err e) \/
  (exists d1 utxos,
     sign_payout V i attempt intent hex proposer now (at_ o d) =
       produce_partial V hex utxos (at_ o d1) /\
     sign_payout V i attempt intent hex' proposer now (at_ o d) =
       produce_partial V hex' utxos (at_ o (retold i hex' d1))).
Proof.
  intros Hw Hi Hs Htx Htx' Hdest Hins Houts. subst i.
  destruct (sign_passive V (w_index w) attempt intent proposer now o d w Hw Hs) as [Heq|(e & He)].
  2: { left. exists e. by rewrite !He. }
  rewrite !Heq. unfold mbind, SE_bind.
  destruct (adopt_in_step V w hex hex' tx tx' dest Htx Htx' Hdest Hins Houts o d now)
    as [(d1 & E & Hrec & E')|(e & E & E')].
  - rewrite E, E'. destruct (agreed_in_step V (w_index w) attempt intent hex hex' now o d1 Hrec)
      as [(s & Ea & Hu & Ea')|(e & Ea & Ea')].
    + rewrite Ea, Ea'. right. exists d1, (s_inputs s). by rewrite Hu.
    + left. exists e. destruct (agreed_payout _ _ _ _ _ _ (at_ o d1)), (agreed_payout _ _ _ _ _ _ (at_ o (retold _ _ d1))).
      cbn in *. by subst.
  - left. exists e. destruct (adopt_proposal V w hex now (at_ o d)), (adopt_proposal V w hex' now (at_ o d)).
    cbn in *. by subst.
Qed.

End adoption.

(** * A payout without change

    The executor writes twenty zero bytes for the change of a payout that has
    none; an adoption writes the vault's own hash.  A passive validator
    therefore refuses every such proposal, after it has recorded it. *)

Section exact.
Context `{Sh : Sha2} {outside : Type} `{N : !PartialSigner outside}.
Implicit Types (o : outside) (d : Tables).

(** ** What an adoption records *)

Lemma transition_payouts j to t reason d :
  withdrawal_payouts (transition_withdrawal j to t reason d).1 = withdrawal_payouts d.
Proof.
  unfold transition_withdrawal. destruct (withdrawal_requests d !! j); [|done]. by case_match.
Qed.

Lemma create_payout_row p d d' :
  create_payout p d = (d', Ok tt) -> withdrawal_payouts d' !! np_index p = Some (new_row (np_terms p)).
Proof.
  unfold create_payout. destruct (bool_decide _); [done|]. destruct (foldM _ _ _); [|done].
  intros [= <-]. cbn. by rewrite lookup_insert_eq.
Qed.

Lemma record_adoption_Ok V w tx dest ins hex now o d w1 :
  record_adoption V w tx dest ins hex now (at_ o d) = (w1, Ok tt) ->
  v_outside w1 = o /\
  withdrawal_payouts (v_db w1) !! w_index w = Some (new_row (adopted_terms V w tx dest ins hex now)).
Proof.
  unfold record_adoption. cbv zeta. rewrite SE_bind_Ok. intros (x1 & u1 & H1 & H).
  apply SE_bind_Ok in H as (x2 & u2 & H2 & H). apply SE_bind_Ok in H as (x3 & u3 & H3 & H).
  cbn [for_all] in H. apply SE_bind_Ok in H as (x4 & u4 & H4 & H).
  apply SE_bind_Ok in H as (x5 & u5 & H5 & [= <-]).
  unfold with_db in *. cbn [at_ v_db v_outside] in *.
  destruct (reserve_utxos _ _ _ d) as [d1 r1]. injection H1 as <- _. cbn [at_ v_db v_outside] in *.
  destruct (create_payout _ d1) as [d2 r2] eqn:Ec. injection H2 as <- Hr2%map_err_Ok. subst r2. destruct u2. cbn [v_db v_outside] in *.
  assert (withdrawal_payouts d2 !! w_index w = Some (new_row (adopted_terms V w tx dest ins hex now))) as Hp.
    by (exact (create_payout_row _ _ _ Ec)).
  assert (v_outside x3 = o /\ withdrawal_payouts (v_db x3) = withdrawal_payouts d2) as [Ho3 Hp3].
  { case_bool_decide; [|by injection H3 as <- _].
    pose proof (transition_payouts (w_index w) Validated now None d2) as Ht. revert H3. cbn [v_db v_outside].
    destruct (transition_withdrawal (w_index w) Validated now None d2) as [d3 r3]. intros [= <- _]. done. }
  pose proof (transition_payouts (w_index w) Building now None (v_db x3)) as Ht4.
  destruct (transition_withdrawal _ _ _ _ (v_db x3)) as [d4 r4]. injection H4 as <- _. cbn [v_db v_outside fst] in *.
  pose proof (transition_payouts (w_index w) Signing now None d4) as Ht5.
  destruct (transition_withdrawal _ _ _ _ d4) as [d5 r5]. injection H5 as <- _. cbn [v_db v_outside fst] in *.
  split; [done|]. by rewrite Ht5, Ht4, Hp3.
Qed.

(** The change hash of an intent, by its place. *)
Lemma intent_change_hash v v' i i' vh vh' dh dh' p p' f f' c c' ch ch' q q' qi qi' ins ins' :
  canonical_payout_intent v i vh dh p f c ch q qi ins =
  canonical_payout_intent v' i' vh' dh' p' f' c' ch' q' qi' ins' ->
  length vh = length vh' -> length dh = length dh' -> length ch = length ch' -> ch = ch'.
Proof.
  unfold canonical_payout_intent. intros E Hv Hd Hc.
  do 2 (apply app_inj_1 in E as [_ E]; [|by rewrite ?length_le_bytes]).
  apply app_inj_1 in E as [_ E]; [|by rewrite ?length_le_bytes].
  apply app_inj_1 in E as [_ E]; [|done]. apply app_inj_1 in E as [_ E]; [|done].
  do 3 (apply app_inj_1 in E as [_ E]; [|by rewrite ?length_le_bytes]).
  by apply app_inj_1 in E as [-> _].
Qed.

(** A payout without change is never co-signed by a passive validator: whatever
    transaction is proposed, the intent the builder computes for a selection without
    change (twenty zero bytes for the change) differs from the one an adoption records
    (the vault's own hash), so the request is refused. *)
Theorem exact_payout_is_never_adopted V (S : Executor.Settings) i attempt proposer now o d w hex wb sel quorum w' p :
  withdrawal_requests d !! i = Some w -> w_index w = i ->
  (w_state w = Validated \/ w_state w = AwaitingFunds) ->
  Executor.config S = pv_config V -> WithdrawalConfig.vault (pv_config V) = pv_vault V ->
  length (script_hash160 (pv_vault V)) = 20%nat -> length (w_hash160 w) = 20%nat ->
  length (w_hash160 wb) = 20%nat -> length (change_hash160 (pv_config V)) = 20%nat ->
  change_hash160 (pv_config V) <> replicate 20 x00 -> sel_change sel = 0 ->
  sign_payout V i attempt (Executor.payout_intent S i wb sel quorum) hex proposer now (at_ o d) <> (w', Ok p).
Proof.
  intros Hw Hi Hs HS HV Hlv Hlw Hlb Hlc Hnz Hsel Hok.
  apply sign_Ok in Hok as (_ & r & w1 & s & Hr & Had & Hag & _). cbn [at_ v_db] in Hr.
  rewrite Hw in Hr. injection Hr as <-. rewrite bool_decide_true in Had by done.
  apply agreed_Ok in Hag as (_ & _ & Hver & _ & _ & Hint & _).
  assert (exists tx dest ins, withdrawal_payouts (v_db w1) !! i =
            Some (new_row (adopted_terms V w tx dest ins hex now))) as (tx & dest & ins & Hp).
  { rewrite adopt_eq in Had. destruct (check_proposal V w hex d) as [[[t sc] ins]|e]; [|done].
    apply record_adoption_Ok in Had as [_ Hp]. rewrite Hi in Hp. by exists t, sc, ins. }
  apply verify_Ok in Hver as (_ & w2 & p2 & [_ Hp2 _ _ _ _ _ Hres]). rewrite Hp in Hp2. injection Hp2 as <-.
  rewrite Hres in Hint. cbn [signable s_intent_bytes p_terms new_row adopted_terms t_intent_bytes] in Hint.
  unfold Executor.payout_intent in Hint. rewrite Hsel in Hint. cbn [Z.ltb Z.compare] in Hint.
  apply intent_change_hash in Hint; [by destruct Hnz| | |by rewrite Hlc].
  - by rewrite HS, HV.
  - by rewrite Hlw.
Qed.
End exact.
