(* ===== verification/PayoutScenario.v ===== *)
(** * A proposal that takes the change

    A passive validator with one vault coin and one validated request, a
    proposal that pays the request and returns the rest to the vault, and the
    same proposal with the rest sent elsewhere: its node signs both. *)
From Stdlib Require Import ZArith Lia Strings.Byte.
From stdpp Require Import base numbers strings gmap list.
From S2P Require Import Prelude Effects Hex DepositDb Address Rpc WithdrawalDb WithdrawalDbProps Builder.
From S2P Require Import NodeClient Coin Vault Assignment Multisig WithdrawalConfig Executor ExecutorScenario.
From S2P Require Import PayoutView PayoutViewProps.

#[local] Existing Instance toy_sha2.
#[local] Existing Instance toy_ripemd.
#[local] Existing Instance toy_secp.

Definition signer_view (k : byte) : PayoutView :=
  {| pv_config := config demo_settings; pv_vault := demo_vault; pv_vault_signer_index := k;
     pv_assignment := assignment demo_settings |}.

(** A signer of the quorum of withdrawal 7. *)
Definition passive : PayoutView :=
  signer_view (default x00 (Assignment.designate_quorum 7 3 2 !! 0%nat)).

(** The signer's own node, with its one key. *)
Definition partial_tx (V : PayoutView) (unsigned : str) : result str str :=
  match parse_hex unsigned with
  | Ok t =>
      let sig i := toy_signature t demo_vault (vault_pubkey V) i in
      Ok (serialize_hex
            {| version := version t; outputs := outputs t; lock_time := lock_time t;
               inputs := imap (fun i x => set_script (x00 :: push_data (sig i) ++ push_data (redeem_script demo_vault)) x)
                           (inputs t) |})
  | Err _ => Err (lit "TX decode failed")
  end.
#[local] Instance passive_node : PartialSigner Z := fun unsigned _ o => (o, partial_tx passive unsigned).

(** The coin seen, the request validated. *)
Definition passive_tables : Tables :=
  fst (transition_withdrawal 7 Validated 1050 None
         (sync_vault_utxos [demo_coin_observed] 6 1000 requested)).

Definition passive_row : WithdrawalRow :=
  {| w_index := 7; w_pda := nw_pda demo_withdrawal; w_amount := 50000; w_requester := nw_requester demo_withdrawal;
     w_address := nw_address demo_withdrawal; w_hash160 := replicate 20 xaa; w_slot := 9; w_version := 1;
     w_state := Validated; w_failure := None; w_observed_at := 1000 |}.

Definition p2pkh_script (h : list byte) : list byte := [x76; xa9; x14] ++ h ++ [x88; xac].

(** 50000 to the destination, 949000 to [change_script], 1000 as the fee. *)
Definition proposal (change_script : list byte) : Multisig.Transaction :=
  {| version := 2; lock_time := 0;
     inputs := [{| prev_txid := rev (o_txid demo_coin_observed); prev_vout := 1; script_sig := []; sequence := 0xffffffff |}];
     outputs := [{| value := 50000; script_pubkey := p2pkh_script (replicate 20 xaa) |};
                 {| value := 949000; script_pubkey := change_script |}] |}.
Definition honest : Multisig.Transaction :=
  proposal ([xa9; x14] ++ script_hash160 demo_vault ++ [x87]).
Definition stealing : Multisig.Transaction := proposal (p2pkh_script (replicate 20 x66)).

(** The intent of a payout of 50000 with fee 1000 and change to the vault. *)
Definition proposed_intent : list byte :=
  canonical_payout_intent 1 7 (script_hash160 demo_vault) (replicate 20 xaa) 50000 1000 949000
    (script_hash160 demo_vault) 0 (Assignment.designate_quorum 7 3 2)
    [{| u_txid := replicate 32 x07; u_txid_hex := encode (replicate 32 x07); u_vout := 1; u_amount := 1000000;
        u_script := Vault.script_pubkey_hex demo_vault; u_confirmations := 9 |}].

Definition asked (t : Multisig.Transaction) : World (outside := Z) * result PayoutRefusal PayoutPartial :=
  sign_payout passive 7 0 proposed_intent (serialize_hex t) 1 1100 (at_ 1100 passive_tables).

(** It signs the honest proposal, and the one that takes the change. *)
Example both_are_signed :
  (asked honest).2 = Ok {| pp_vault_pubkey := vault_pubkey passive;
                           pp_signatures := [toy_signature honest demo_vault (vault_pubkey passive) 0] |} /\
  (asked stealing).2 = Ok {| pp_vault_pubkey := vault_pubkey passive;
                             pp_signatures := [toy_signature stealing demo_vault (vault_pubkey passive) 0] |}.
Proof. vm_compute. by split. Qed.

(** The hypotheses of the theorems on adoptions, met by these two proposals. *)
Definition redirected_proposals : redirected (p2pkh_script (replicate 20 xaa)) (outputs honest) (outputs stealing).
Proof.
  unfold redirected. apply Forall2_cons; split; [by left|]. apply Forall2_cons; split; [|constructor].
  right. split; [done|]. by split; apply (bool_decide_unpack _).
Defined.


Lemma adoption_ignores_other_outputs_witness :
  (asked honest).1 <> at_ 1100 passive_tables /\
  exists d1 utxos,
    asked honest = produce_partial passive (serialize_hex honest) utxos (at_ 1100 d1) /\
    asked stealing = produce_partial passive (serialize_hex stealing) utxos
                       (at_ 1100 (retold 7 (serialize_hex stealing) d1)).
Proof.
  split; [intros H; apply (f_equal (fun w => w_state <$> withdrawal_requests (v_db w) !! 7)) in H; by vm_compute in H|].
  destruct (adoption_ignores_other_outputs passive 7 0 proposed_intent (serialize_hex honest) (serialize_hex stealing)
              1 1100 1100 passive_tables passive_row honest stealing (p2pkh_script (replicate 20 xaa)))
    as [(e & He & _)|H]; [vm_compute; reflexivity|vm_compute; reflexivity|by left|vm_compute; reflexivity
      |vm_compute; reflexivity|vm_compute; reflexivity|vm_compute; reflexivity|exact redirected_proposals| |exact H].
  exfalso. by vm_compute in He.
Defined.

(** The tables the honest adoption leaves, where the payout is its own. *)
Definition adopted_tables : Tables := v_db (asked honest).1.
Definition adopted_row : WithdrawalRow := default passive_row (withdrawal_requests adopted_tables !! 7).
Definition again : World (outside := Z) * result PayoutRefusal PayoutPartial :=
  sign_payout passive 7 0 proposed_intent (serialize_hex honest) 1 1200 (at_ 1200 adopted_tables).
Definition again_partial : PayoutPartial :=
  {| pp_vault_pubkey := vault_pubkey passive;
     pp_signatures := [toy_signature honest demo_vault (vault_pubkey passive) 0] |}.

Lemma built_payout_is_signed_as_recorded_witness :
  w_state adopted_row = Signing /\ timely passive 7 1 1200 adopted_tables /\
  exists s o' partial_hex partial,
    verify_and_load_signable_payout 7 1200 adopted_tables = (adopted_tables, Ok s) /\ s_quorum_attempt s = 0 /\
    pv_vault_signer_index passive ∈ s_quorum_indices s /\ s_intent_bytes s = proposed_intent /\
    s_unsigned_tx_hex s = serialize_hex honest /\
    sign_partial (serialize_hex honest) (prevtx_of passive <$> s_inputs s) 1200 = (o', Ok partial_hex) /\
    at_ 1200 adopted_tables = at_ o' adopted_tables /\ parse_hex partial_hex = Ok partial /\
    extract_signatures partial (redeem_script (pv_vault passive)) = Ok (pp_signatures again_partial) /\
    pp_vault_pubkey again_partial = vault_pubkey passive.
Proof.
  assert (again = (at_ 1200 adopted_tables, Ok again_partial)) as Hok by (vm_compute; reflexivity).
  split; [vm_compute; reflexivity|].
  destruct (proj1 (built_payout_is_signed_as_recorded passive 7 0 proposed_intent (serialize_hex honest) 1 1200
              1200 adopted_tables (at_ 1200 adopted_tables) again_partial adopted_row
              ltac:(vm_compute; reflexivity) ltac:(vm_compute; discriminate) ltac:(vm_compute; discriminate)) Hok)
    as (Ht & _ & H).
  split; [exact Ht|exact H].
Defined.

(** A selection without change, for the same withdrawal and destination. *)
Definition exact_selection : Selection :=
  {| sel_inputs := [{| u_txid := replicate 32 x07; u_txid_hex := encode (replicate 32 x07); u_vout := 1; u_amount := 51000;
                       u_script := Vault.script_pubkey_hex demo_vault; u_confirmations := 9 |}];
     sel_fee := 1000; sel_change := 0; sel_total_in := 51000 |}.

Lemma exact_payout_is_never_adopted_witness :
  withdrawal_requests passive_tables !! 7 = Some passive_row /\
  forall w' p, sign_payout passive 7 0
    (Executor.payout_intent demo_settings 7 passive_row exact_selection (Assignment.designate_quorum 7 3 2))
    (serialize_hex honest) 1 1100 (at_ 1100 passive_tables) <> (w', Ok p).
Proof.
  split; [vm_compute; reflexivity|]. intros w' p.
  apply (PayoutViewProps.exact_payout_is_never_adopted passive demo_settings 7 0 1 1100 1100 passive_tables passive_row
           (serialize_hex honest) passive_row exact_selection (Assignment.designate_quorum 7 3 2) w' p);
    [vm_compute; reflexivity|reflexivity|by left|reflexivity|reflexivity|vm_compute; reflexivity..| |reflexivity].
  vm_compute. discriminate.
Defined.
