(* ===== verification/Orchestrator.v ===== *)
(** * The mint pipeline: [relayer/src/orchestrator.rs]

    The pass over the deposits that are ready or submitted: it first reads
    the chain, then lets the safeguard release the claim, asks the federation
    for signatures and sends one transaction.  The chain, the signers and the
    clock are the class [MintOutside]. *)
From Stdlib Require Import ZArith Lia Strings.Byte.
From stdpp Require Import base numbers strings gmap list.
From S2P Require Import Prelude Effects Messages State Token Verification SignatureProof Accounts.
From S2P Require Import SolanaInstruction SolanaRpc ChainPass Hex Deposit DepositDb.

Inductive OrchestratorError :=
| NodeUnavailable (e : SolanaRpcError)
| RpcFailed (e : SolanaRpcError)
| DbFailed (e : DbError)
| ValidatorSetMissing.

Inductive DepositOutcome := OMinted | OSubmitted | OInsufficientSignatures | OIntegrityHalted.

Record TickReport := { minted : Z; submitted : Z; insufficient : Z; halted : Z }.
Definition default_report : TickReport :=
  {| minted := 0; submitted := 0; insufficient := 0; halted := 0 |}.
Definition count_outcome (o : DepositOutcome) (r : TickReport) : TickReport :=
  {| minted := minted r + match o with OMinted => 1 | _ => 0 end;
     submitted := submitted r + match o with OSubmitted => 1 | _ => 0 end;
     insufficient := insufficient r + match o with OInsufficientSignatures => 1 | _ => 0 end;
     halted := halted r + match o with OIntegrityHalted => 1 | _ => 0 end |}.

Definition INNER_RETRY_ATTEMPTS : nat := 3.

Class MintOutside (outside : Type) := {
  mt_rpc :: SolanaRpc outside;
  mt_now_unix : outside -> outside * Z;
  (** epoch, message, txid, vout *)
  collect_mint_signatures : Z -> list byte -> list byte -> Z -> outside ->
    outside * list (Pubkey * Signature)
}.

(** The fields of [Orchestrator] that are not the database or a client. *)
Record Orchestrator := { or_program_id : Pubkey; or_submitter : Pubkey }.

Section orchestrator.
Context {T : SplToken} `{Sh : Sha2, Rt : SolanaRuntime, R : Runtime} {outside : Type} `{N : MintOutside outside}.
Abbreviation World := (ChainPass.World outside Db TickReport).
Abbreviation M := (SE World OrchestratorError).

Definition now : M Z := ask mt_now_unix.
Definition classify (e : SolanaRpcError) : OrchestratorError :=
  if is_retriable e then NodeUnavailable e else RpcFailed e.
(** [Self::call] *)
Definition call {A} (f : outside -> outside * result SolanaRpcError A) : M A :=
  retrying classify INNER_RETRY_ATTEMPTS f.

Context (S : Orchestrator).

(** The safeguard; a mismatch is an outcome and not an error. *)
Definition load_signable (deposit_id at_ : Z) (d : Db) : Db * result DbError (option SignableClaim) :=
  match verify_and_load_signable_message deposit_id at_ d with
  | (d, Ok c) => (d, Ok (Some c))
  | (d, Err (MessageIntegrityMismatch _ _)) => (d, Ok None)
  | (d, Err e) => (d, Err e)
  end.

(** The transaction of [process_one]. *)
Definition mint_transaction (sigs : list (Pubkey * Signature)) (claim : SignableClaim)
    (claim_pda : Pubkey) (blockhash : list byte) : SolanaTransaction :=
  let program_id := or_program_id S in
  {| tx_instructions :=
       [ed25519_instruction sigs (sc_message claim);
        mint_wrapped_instruction program_id
          {| mk_submitter := or_submitter S;
             mk_bridge_config := (bridge_config_pda program_id).1;
             mk_validator_set := (validator_set_pda program_id).1;
             mk_deposit_claim := claim_pda;
             mk_wrapped_mint := sc_wrapped_mint claim;
             mk_mint_authority := (SolanaInstruction.mint_authority_pda program_id).1;
             mk_recipient := sc_recipient claim;
             mk_recipient_token_account :=
               associated_token_address (sc_recipient claim) (sc_wrapped_mint claim) |}
          (sc_txid claim) (sc_vout claim) (sc_amount_atomic claim) (sc_validator_epoch claim)];
     tx_payer := or_submitter S; tx_signers := [or_submitter S]; tx_blockhash := blockhash |}.

(** [process_one] from the collection of the signatures on. *)
Definition sign_and_submit (row : DepositRow) (claim : SignableClaim) (claim_pda : Pubkey)
  : M DepositOutcome :=
  sigs ← ask (collect_mint_signatures (sc_validator_epoch claim) (sc_message claim)
                (sc_txid claim) (sc_vout claim));
  set_account ← call (get_account (validator_set_pda (or_program_id S)).1);
  set_account ← lift (ok_or set_account ValidatorSetMissing);
  snapshot ← lift (map_err RpcFailed (decode_validator_set (acc_data set_account)));
  match count_unique_threshold_signers sigs (vs_validators snapshot) (vs_threshold snapshot) with
  | Err _ => mret OInsufficientSignatures
  | Ok _ =>
      blockhash ← call get_latest_blockhash;
      signature ← call (send_transaction (mint_transaction sigs claim claim_pda blockhash));
      t ← now;
      _ ← with_db DbFailed (mark_submitted (id row) signature t);
      mret OSubmitted
  end.

Definition process_one (row : DepositRow) : M DepositOutcome :=
  let claim_pda := (deposit_claim_pda (or_program_id S) (txid row) (as_u32 (vout row))).1 in
  account ← call (get_account claim_pda);
  match account with
  | Some _ =>
      t ← now;
      _ ← with_db DbFailed (mark_minted (id row) t);
      mret OMinted
  | None =>
      t ← now;
      claim ← with_db DbFailed (load_signable (id row) t);
      match claim with
      | None => mret OIntegrityHalted
      | Some claim =>
          if negb (bool_decide (sc_program_id claim = or_program_id S)) then mret OIntegrityHalted
          else sign_and_submit row claim claim_pda
      end
  end.

(** What a tick works on: the rows as they were when it started. *)
Definition worklist (d : Db) : list DepositRow :=
  candidates_by_state d ReadyForSignature ++ candidates_by_state d Submitted.

Definition tick_body : M unit :=
  rows ← gets (fun w => worklist (c_db w));
  for_all (fun row => outcome ← process_one row; count_ (count_outcome outcome)) rows.

Definition tick (o : outside) (d : Db) : outside * Db * result OrchestratorError TickReport :=
  let (w, r) := tick_body {| c_outside := o; c_db := d; c_report := default_report |} in
  (c_outside w, c_db w, let* _ := r in Ok (c_report w)).
End orchestrator.
