(* ===== verification/OrchestratorProps.v ===== *)
(** * Mints end to end

    What a tick of the mint pipeline sends, and what the program does with
    it: the composition of [Orchestrator] with the safeguard of [DepositDb],
    the builders of [SolanaInstruction], the proof layout of [SignatureProof]
    and the handler of [Program]; and what becomes of a queue of deposits. *)
From Stdlib Require Import ZArith Lia Strings.Byte.
From stdpp Require Import base numbers strings gmap list.
From S2P Require Import Validation Program Handlers.
From S2P Require Import Invariants Scenario Safety.
From S2P Require Import Prelude Effects Messages State Token Verification SignatureProof Accounts.
From S2P Require Import SolanaInstruction SolanaRpc ChainPass Hex Deposit DepositDb DepositDbProps.
From S2P Require Import Orchestrator.

(** ** What a tick never changes about a deposit *)

Definition claim_columns (r : DepositRow) : Z * list byte * Z * Z * list byte :=
  (id r, txid r, vout r, amount_atomic r, recipient r).

Definition same_claims (d d' : Db) : Prop :=
  claim_artifacts d' = claim_artifacts d /\
  forall i, claim_columns <$> find_row d' i = claim_columns <$> find_row d i.

#[export] Instance same_claims_equiv : Equivalence same_claims.
Proof.
  split.
  - by intros d.
  - intros d d' [H1 H2]. by split.
  - intros d1 d2 d3 [H1 H2] [H3 H4]. split; [congruence|]. intros i. by rewrite H4.
Qed.

Lemma update_where_claims d i f l :
  (forall r, claim_columns (f r) = claim_columns r) -> same_claims d (add_log (update_where d i f) l).
Proof.
  intros Hf. split; [done|]. intros j. change (find_row (add_log _ _) j) with (find_row (update_where d i f) j).
  rewrite find_row_update by (intros r; specialize (Hf r); unfold claim_columns in Hf; congruence).
  case_decide as Hj; [|done]. subst j. destruct (find_row d i); cbn; [by rewrite Hf|done].
Qed.

Lemma mark_minted_claims i t d : same_claims d (mark_minted i t d).1.
Proof.
  unfold mark_minted, transition_state. destruct (find_row d i) as [r|]; [|done]. cbn.
  by apply update_where_claims.
Qed.
Lemma mark_submitted_claims i s t d : same_claims d (mark_submitted i s t d).1.
Proof.
  unfold mark_submitted. destruct (find_row d i); [|done]. cbn.
  by apply update_where_claims.
Qed.

Section released.
Context {Sh : Sha2}.

Lemma load_signable_claims i t d : same_claims d (load_signable i t d).1.
Proof.
  unfold load_signable, verify_and_load_signable_message.
  destruct (find_row d i); [|done]. destruct (claim_artifacts d !! i); [|done].
  destruct (negb _ || negb _)%bool; [|done]. cbn. by apply update_where_claims.
Qed.

(** The safeguard reads nothing else. *)
Lemma released_claims i t d d0 c :
  same_claims d0 d -> (load_signable i t d).2 = Ok (Some c) ->
  verify_and_load_signable_message i t d0 = (d0, Ok c).
Proof.
  intros [Ha Hr]. specialize (Hr i). unfold load_signable, verify_and_load_signable_message. rewrite Ha.
  destruct (find_row d i) as [r|] eqn:Er; [|done].
  destruct (find_row d0 i) as [r0|] eqn:Er0; [|done].
  destruct (claim_artifacts d0 !! i) as [a|]; [|done].
  injection Hr as Hid Htx Hv Ham Hre. unfold recompute. rewrite Htx, Hv, Ham, Hre.
  destruct (negb _ || negb _)%bool; [done|]. cbn. by intros [= <-].
Qed.
End released.

(** ** What is sent *)

Definition logging {O} (N : MintOutside O) : MintOutside (O * list Event) :=
  {| mt_rpc := logging_rpc mt_rpc; mt_now_unix := pass mt_now_unix;
     collect_mint_signatures e m t v := pass (collect_mint_signatures e m t v) |}.

Section sending.
Context {T : SplToken} `{Sh : Sha2, Rt : SolanaRuntime, R : Runtime} {outside : Type} {N : MintOutside outside}.
Context (S : Orchestrator).
#[local] Instance logged : MintOutside (outside * list Event) := logging N.
Abbreviation OW := (ChainPass.World (outside * list Event) Db TickReport).

Definition claim_address (row : DepositRow) : Pubkey :=
  (deposit_claim_pda (or_program_id S) (txid row) (as_u32 (vout row))).1.

(** Why a transaction may be sent, given the tables at the start of the tick
    and the calls before it. *)
Definition justified (d : Db) (before : list Event) (tx : SolanaTransaction) : Prop :=
  exists row claim t set_account snapshot sigs n blockhash,
    row ∈ worklist d /\
    verify_and_load_signable_message (id row) t d = (d, Ok claim) /\
    sc_program_id claim = or_program_id S /\
    Read (claim_address row) (Ok None) ∈ before /\
    Read (validator_set_pda (or_program_id S)).1 (Ok (Some set_account)) ∈ before /\
    decode_validator_set (acc_data set_account) = Ok snapshot /\
    count_unique_threshold_signers sigs (vs_validators snapshot) (vs_threshold snapshot) = Ok n /\
    (exists o : outside, sigs = (collect_mint_signatures (sc_validator_epoch claim) (sc_message claim)
                                   (sc_txid claim) (sc_vout claim) o).2) /\
    tx = mint_transaction S sigs claim (claim_address row) blockhash.

Lemma mint_justified_more d before more tx : justified d before tx -> justified d (before ++ more) tx.
Proof.
  intros (r & c & t & sa & sn & sg & n & bh & H1 & H2 & H3 & H4 & H5 & H6 & H7 & H8 & H9).
  exists r, c, t, sa, sn, sg, n, bh. split_and!; try done; apply elem_of_app; by left.
Qed.

Context (d0 : Db).
Abbreviation J := (justified d0).
Abbreviation lasting := (ChainPass.lasting (R := TickReport) J same_claims).
Abbreviation hoare := (Effects.hoare (E := OrchestratorError) (passes (R := TickReport) J same_claims)).
Definition settled (w : OW) : Prop := same_claims d0 (c_db w).

Lemma lasting_unchanged : lasting settled.
Proof. apply (lasting_keeps _ _ (same_claims d0)). intros d d' H1 H2. by etrans. Qed.

Lemma sign_and_submit_passes row claim t :
  row ∈ worklist d0 -> verify_and_load_signable_message (id row) t d0 = (d0, Ok claim) ->
  sc_program_id claim = or_program_id S ->
  let absent := Read (claim_address row) (Ok None) in
  hoare (fun w => settled w /\ seen absent w)
    (sign_and_submit S row claim (claim_address row)) (fun _ w => settled w /\ seen absent w).
Proof.
  intros Hrow Hver Hpid absent. set (P := fun w => settled w /\ seen absent w).
  assert (lasting P) as HP by (apply lasting_and; [apply lasting_unchanged|apply lasting_seen]).
  unfold sign_and_submit. eapply (hoare_seq J same_claims); [apply (hoare_ask_answer J same_claims P), HP|].
  intros sigs. apply hoare_pure. intros Hsigs. eapply (hoare_seq J same_claims); [apply (hoare_call_read J same_claims P), HP|]. intros set_account.
  eapply (hoare_seq J same_claims); [apply (hoare_lift_quiet J same_claims)|]. intros a.
  eapply (hoare_seq J same_claims); [apply (hoare_lift_quiet J same_claims)|]. intros snapshot. cbv beta.
  set (Q := fun w => P w /\ exists sa, seen (Read (validator_set_pda (or_program_id S)).1 (Ok (Some sa))) w /\
              decode_validator_set (acc_data sa) = Ok snapshot).
  assert (lasting Q) as HQ.
  { apply lasting_and; [done|]. apply lasting_exists. intros sa.
    apply lasting_and; [apply lasting_seen|apply lasting_const]. }
  apply (hoare_conseq _ _ Q _ _ (fun _ => Q)); cycle 1.
  { intros w (Hd & Ha & Hseen & Hw). split; [done|]. exists a.
    apply ok_or_Ok in Ha as ->. split; [done|]. by apply map_err_Ok in Hd. }
  { by intros _ w [? _]. }
  destruct (count_unique_threshold_signers _ _ _) as [n|e] eqn:Hn.
  2: { eapply hoare_conseq; [apply hoare_ret, _|exact (fun w H => H)|]. by intros ? w [_ ?]. }
  eapply (hoare_seq J same_claims); [apply (hoare_call_pass J same_claims Q), HQ|]. intros blockhash. cbv beta.
  eapply (hoare_seq J same_claims).
  { apply (hoare_call_send J same_claims (mint_justified_more d0) Q); [apply HQ|]. intros w [[_ Habs] (sa & Hsa & Hd)].
    by exists row, claim, t, sa, snapshot, sigs, n, blockhash. }
  intros signature. cbv beta. eapply (hoare_seq J same_claims); [apply (hoare_ask_pass J same_claims Q), HQ|].
  intros t'. cbv beta. eapply (hoare_seq J same_claims).
  { apply (hoare_with_db J same_claims Q); [apply HQ|]. intros d. apply mark_submitted_claims. }
  intros u. eapply hoare_conseq; [apply hoare_ret, _|exact (fun w H => H)|]. by intros ? w [_ [_ ?]].
Qed.

Lemma mint_one_passes row :
  row ∈ worklist d0 -> hoare settled (process_one S row) (fun _ => settled).
Proof.
  intros Hrow. unfold process_one. fold (claim_address row). pose proof lasting_unchanged as HP.
  eapply (hoare_seq J same_claims); [apply (hoare_call_read J same_claims settled), HP|].
  set (P := fun w => settled w /\ seen (Read (claim_address row) (Ok None)) w).
  assert (lasting P) as HP' by (apply lasting_and; [apply lasting_unchanged|apply lasting_seen]).
  intros [account|]; cbv beta.
  { eapply (hoare_seq J same_claims); [eapply hoare_pre; [apply (hoare_ask_pass J same_claims settled), HP|by intros w [_ ?]]|].
    intros t. eapply (hoare_seq J same_claims).
    { apply (hoare_with_db J same_claims settled); [apply HP|]. intros d. apply mark_minted_claims. }
    intros u. eapply hoare_conseq; [apply hoare_ret, _|exact (fun w H => H)|]. by intros ? w [_ [_ ?]]. }
  eapply (hoare_seq J same_claims); [eapply hoare_pre; [apply (hoare_ask_pass J same_claims P), HP'|by intros w [? ?]]|].
  intros t. eapply (hoare_seq J same_claims).
  { apply (hoare_with_db J same_claims P); [apply HP'|]. intros d. apply load_signable_claims. }
  intros [claim|]; cbv beta.
  2: { eapply hoare_conseq; [apply hoare_ret, _|exact (fun w H => H)|]. by intros ? w (_ & _ & ? & _). }
  destruct (bool_decide_reflect (sc_program_id claim = or_program_id S)) as [Hpid|_]; cbn [negb].
  2: { eapply hoare_conseq; [apply hoare_ret, _|exact (fun w H => H)|]. by intros ? w (_ & _ & ? & _). }
  intros w [(d & d' & Hk & Hk' & Hl) Hw].
  assert (same_claims d0 d) as Hd0 by (destruct Hw as [Hs _]; etrans; [exact Hs|symmetry; by etrans]).
  assert ((load_signable (id row) t d).2 = Ok (Some claim)) as Hrel by (by rewrite Hl).
  pose proof (released_claims (id row) t d d0 claim Hd0 Hrel) as Hver.
  destruct (sign_and_submit_passes row claim t Hrow Hver Hpid w Hw) as [HR HQ].
  split; [done|]. intros a Ha. by destruct (HQ a Ha).
Qed.

Lemma tick_body_passes w :
  c_db w = d0 -> hoare (fun w' => w' = w) (tick_body S) (fun _ => settled).
Proof.
  intros Hw. unfold tick_body. intros w' ->. unfold mbind, SE_bind, gets. cbn.
  assert (hoare settled (for_all (fun row => outcome ← process_one S row; count_ (count_outcome outcome))
            (worklist (c_db w))) (fun _ => settled)) as Hl.
  { apply hoare_for_all; [apply _|]. intros row Hrow. rewrite Hw in Hrow.
    eapply (hoare_seq J same_claims); [by apply mint_one_passes|]. intros o.
    apply (hoare_count J same_claims), lasting_unchanged. }
  apply Hl. unfold settled. by rewrite Hw.
Qed.
End sending.

Section sent.
Context {T : SplToken} `{Sh : Sha2, Rt : SolanaRuntime, R : Runtime} {outside : Type} {N : MintOutside outside}.
Context (S : Orchestrator).

Lemma sent_mints_pass (o : outside) d before tx after :
  (tick (N := logging N) S (o, []) d).1.1.2 = before ++ Sent tx :: after ->
  justified S d before tx.
Proof.
  set (w0 := {| c_outside := (o, [] : list Event); c_db := d; c_report := default_report |}).
  pose proof (pass_justified _ _ _ _ _ o d default_report (tick_body_passes (N := N) S d w0 eq_refl) eq_refl) as Hj.
  unfold tick, ChainPass.log in *. destruct (tick_body _ _) as [w r]. cbn in *. intros E. exact (Hj before tx after E).
Qed.

(** C10: Every transaction a tick of the mint pipeline sends, whatever the node and the
    federation answer, is the mint of a deposit that was ready or submitted when the
    tick began, with exactly the claim the safeguard releases from the tables of that
    moment, and is sent only after the node answered that the deposit has no claim
    account and returned a validator set whose threshold the signatures meet that the
    collector returned for exactly that claim. *)
Theorem sent_mints_are_justified (o : outside) d before tx after :
  (tick (N := logging N) S (o, []) d).1.1.2 = before ++ Sent tx :: after ->
  justified S d before tx.
Proof. apply sent_mints_pass. Qed.
End sent.

(** ** What the program does with it *)

Section accepted.
Context {T : SplToken} {L : SplTokenLaws T} {Ac : SplTokenAccepts T} {R : Runtime} `{Sh : Sha2, Rt : SolanaRuntime}.

(** The accounts of the mint instruction for a released claim. *)
Definition mint_accounts (S : Orchestrator) (claim : SignableClaim) (bump : Z) : MintWrappedAccounts :=
  {| mw_submitter := or_submitter S; mw_wrapped_mint := sc_wrapped_mint claim;
     mw_recipient := sc_recipient claim;
     mw_recipient_token_account := associated_token_address (sc_recipient claim) (sc_wrapped_mint claim);
     mw_bump_deposit_claim := bump |}.

(** What the safeguard releases is the statement of its own fields. *)
Lemma released_message i t d claim :
  verify_and_load_signable_message i t d = (d, Ok claim) ->
  exists a, claim_artifacts d !! i = Some a /\
    sc_message claim = deposit_claim_message (ca_protocol_version a) (sc_program_id claim)
      (sc_validator_epoch claim) (sc_txid claim) (sc_vout claim) (sc_amount_atomic claim)
      (sc_recipient claim) (sc_wrapped_mint claim).
Proof.
  unfold verify_and_load_signable_message. destruct (find_row d i) as [r|]; [|done].
  destruct (claim_artifacts d !! i) as [a|]; [|done].
  destruct (negb _ || negb _)%bool; [done|]. intros [= <-]. by exists a.
Qed.

(** The token program takes the mint of a running bridge into an account of its
    recipient that is in use. *)
Lemma released_mint_lands ls b c acc recipient supply bal amount :
  steps ls b -> bridge_config b = Some c -> wrapped_mint c <> default_pubkey ->
  mint_supply (tokens b) (wrapped_mint c) = Some supply ->
  holds (tokens b) (mw_recipient_token_account acc) recipient (wrapped_mint c) bal -> bal <= supply ->
  supply + amount <= U64_MAX -> 0 <= amount ->
  exists t, mint_to_checked (tokens b) (wrapped_mint c) (mw_recipient_token_account acc)
      Token.mint_authority_pda amount WRAPPED_GLC_DECIMALS = Some t /\
    mint_supply t (wrapped_mint c) = Some (supply + amount) /\
    token_balance t (mw_recipient_token_account acc) = Some (bal + amount).
Proof.
  intros Hls Hc Hnd Hsup Hh Hcov Hu Hpos. pose proof (conserved_reachable _ _ Hls) as Hcons.
  unfold conserved in Hcons. rewrite Hc in Hcons. destruct Hcons as [_ [Hauth _]]; [done|].
  destruct (mint_to_checked_accepts (tokens b) (wrapped_mint c) (mw_recipient_token_account acc)
    Token.mint_authority_pda recipient amount WRAPPED_GLC_DECIMALS supply bal) as (t & Ht); try done; try lia.
  { by eapply steps_decimals. }
  exists t. split; [done|]. apply mint_to_checked_law in Ht as (s' & b' & Hs & _ & _ & Hs' & Hb & Hb' & _).
  destruct Hh as [Hbal _ _ _]. rewrite Hs', Hb'. split; congruence.
Qed.

(** C11: The transaction the relayer builds for a claim the safeguard released is one
    the on-chain program accepts: in every reachable unpaused state of the claim's
    program, version, epoch and mint, with a fresh outpoint, an amount from the minimum
    deposit up to the room under the cap and a threshold of distinct validators (32-byte
    keys, 64-byte signatures, a proof that fits one instruction), its second instruction
    calls mint_wrapped with the accounts the program expects, and with the first as the
    proof the program mints the amount to the recipient's associated token account and
    records the claim. Assumed: that account exists, is the recipient's, for the mint,
    not frozen and covered by the supply (otherwise the mint is refused, see the finding
    at orchestrator.rs:150), and SPL Token accepts MintToChecked with the mint's
    authority and decimals; that these are the program's is proved. *)
Theorem mint_transaction_is_accepted S ls b c s d i at_ claim sigs n blockhash env bump supply bal :
  let acc := mint_accounts S claim bump in
  let pda := (deposit_claim_pda (or_program_id S) (sc_txid claim) (sc_vout claim)).1 in
  let tx := mint_transaction S sigs claim pda blockhash in
  let call_ := MintWrapped acc (sc_txid claim) (sc_vout claim) (sc_amount_atomic claim) (sc_validator_epoch claim) in
  or_program_id S = crate_ID -> steps ls b -> bridge_config b = Some c -> validator_set b = Some s ->
  verify_and_load_signable_message i at_ d = (d, Ok claim) -> sc_program_id claim = or_program_id S ->
  ca_protocol_version <$> claim_artifacts d !! i = Some PROTOCOL_VERSION ->
  sc_validator_epoch claim = State.epoch s -> sc_wrapped_mint claim = wrapped_mint c ->
  wrapped_mint c <> default_pubkey -> paused c = false ->
  deposit_claims b !! (sc_txid claim, sc_vout claim) = None ->
  mint_supply (tokens b) (wrapped_mint c) = Some supply ->
  holds (tokens b) (mw_recipient_token_account acc) (sc_recipient claim) (wrapped_mint c) bal -> bal <= supply ->
  0 < sc_amount_atomic claim -> min_deposit c <= sc_amount_atomic claim ->
  supply + sc_amount_atomic claim <= max_wrapped_supply c ->
  sized sigs (sc_message claim) -> NoDup sigs.*1 -> Forall (fun pk => pk ∈ validators s) sigs.*1 ->
  count_unique_threshold_signers sigs (validators s) (threshold s) = Ok n ->
  exists call, tx_instructions tx = [ed25519_instruction sigs (sc_message claim); call] /\
    calls crate_ID (or_submitter S) (withdrawal_count c) call call_ /\
    (previous_instruction env = Some {| ix_program_id := ed25519_program_ID;
                                        ix_data := si_data (ed25519_instruction sigs (sc_message claim)) |} ->
     exists t, exec env call_ b =
       Ok (put_claim (put_tokens b t) (sc_txid claim, sc_vout claim)
             (claim_of env acc (sc_txid claim) (sc_vout claim) (sc_amount_atomic claim) c s),
           [DepositClaimMinted (sc_txid claim) (sc_vout claim) (sc_recipient claim)
              (sc_amount_atomic claim) (State.epoch s)]) /\
       mint_supply t (wrapped_mint c) = Some (supply + sc_amount_atomic claim) /\
       token_balance t (mw_recipient_token_account acc) = Some (bal + sc_amount_atomic claim)).
Proof.
  intros acc pda tx call_ Hpid Hls Hc Hs Hver Hcp Hpv Hep Hwm Hnd Hp Hfresh Hsup Hata Hcov Hpos Hmin Hcap
    Hsz Hnodup Hin Hn.
  pose proof (steps_inv _ _ Hls) as Hinv. pose proof (inv_set_bounded _ Hinv) as Hbd.
  destruct Hinv as [? _ _ _ _|c' s' Hc' Hs' Hcok Hsok _ _ _ _]; [congruence|]. simplify_eq.
  destruct (released_message _ _ _ _ Hver) as (a & Ha & Hmsg). rewrite Ha in Hpv. injection Hpv as Hpv.
  destruct Hsok as [(_ & Hl & _) _ _].
  eexists. split; [reflexivity|]. split.
  { subst pda. rewrite Hpid. by apply (mint_calls crate_ID (or_submitter S) (withdrawal_count c) acc). }
  cbn [si_data ed25519_instruction]. intros Henv.
  assert (supply + sc_amount_atomic claim <= U64_MAX) as Hu64
    by (destruct Hcok as [_ _ [_ Hu] _ _]; unfold in_u64 in Hu; lia).
  destruct (released_mint_lands ls b c acc (sc_recipient claim) supply bal (sc_amount_atomic claim)) as (t & Ht & Hs1 & Hb1);
    [done..|lia|]. exists t. split; [|by split].
  apply exec_iff; [done|]. apply (T_mint env b acc _ _ _ _ c s supply t); [|done].
  destruct Hata as [Hbal Hown _ _]. constructor; try done.
  - cbn. by rewrite Hwm.
  - assert (Messages.encode (mint_statement acc (sc_txid claim) (sc_vout claim) (sc_amount_atomic claim) c s) = sc_message claim) as ->.
    { rewrite Hmsg. unfold mint_statement, Messages.encode. destruct Hcok as [-> _ _ _ _].
      by rewrite Hpv, Hcp, Hpid, Hep, Hwm. }
    by eapply (approved_by_proof env s sigs (sc_message claim)).
Qed.
End accepted.

(** * The order of the mint pipeline

    A tick works through its deposits in one order and ends at the first
    error: a deposit whose transaction the node keeps refusing keeps every
    deposit behind it from being minted. *)

Section queue.
Context {T : SplToken} `{Sh : Sha2, Rt : SolanaRuntime, R : Runtime} {outside : Type} {N : MintOutside outside}.
Context (S : Orchestrator).
#[local] Instance logged_queue : MintOutside (outside * list Event) := logging N.
Abbreviation OW := (ChainPass.World (outside * list Event) Db TickReport).

(** [n] ticks, one after the other. *)
Fixpoint ticks (n : nat) (o : outside * list Event) (d : Db) : (outside * list Event) * Db :=
  match n with
  | O => (o, d)
  | Datatypes.S n => let '(o, d, _) := tick S o d in ticks n o d
  end.

(** An outside that goes on to answer a deposit's mint alike, and to refuse
    its transaction. *)
Record refuses (row : DepositRow) (d : Db) (claim : SignableClaim) (sigs : list (Pubkey * Signature))
    (blockhash : list byte) (e : SolanaRpcError) : Prop := {
  rf_released : forall t, verify_and_load_signable_message (id row) t d = (d, Ok claim);
  rf_program : sc_program_id claim = or_program_id S;
  rf_absent : forall o : outside, (get_account (claim_address S row) o).2 = Ok None;
  rf_signed : forall o : outside,
    (collect_mint_signatures (sc_validator_epoch claim) (sc_message claim) (sc_txid claim) (sc_vout claim) o).2 = sigs;
  rf_set : exists account snapshot n,
    (forall o : outside, (get_account (validator_set_pda (or_program_id S)).1 o).2 = Ok (Some account)) /\
    decode_validator_set (acc_data account) = Ok snapshot /\
    count_unique_threshold_signers sigs (vs_validators snapshot) (vs_threshold snapshot) = Ok n;
  rf_blockhash : forall o : outside, (get_latest_blockhash o).2 = Ok blockhash;
  rf_refused : forall o : outside,
    (send_transaction (mint_transaction S sigs claim (claim_address S row) blockhash) o).2 = Err e
}.

(** The tables are [d] and nothing but [tx] was sent. *)
Definition stuck_at (d : Db) (tx : SolanaTransaction) (w : OW) : Prop :=
  c_db w = d /\ forall tx', Sent tx' ∈ ChainPass.log w -> tx' = tx.

Lemma retry_answer {O A} (f : O -> O * result SolanaRpcError A) r n o :
  (forall o, (f o).2 = r) -> (call_with_retry f n o).2 = r.
Proof.
  intros Hf. unfold call_with_retry. generalize (n - 1)%nat as k. intros k. revert o.
  induction k as [|k IH]; intros o; cbn [retry_from]; specialize (Hf o) as Ho;
    destruct (f o) as [o' [v|e]]; cbn in *; try done. by destruct (is_retriable e).
Qed.

Section stuck.
Context (d : Db) (tx : SolanaTransaction).
Abbreviation calm := (stuck_at d tx).

Lemma ask_calm {A} (f : outside -> outside * A) a w :
  (forall o, (f o).2 = a) -> calm w -> exists w', calm w' /\ ask (E := OrchestratorError) (pass f) w = (w', Ok a).
Proof.
  intros Hf [Hd Hs]. unfold ask. rewrite pass_eq, Hf. eexists. split; [|done]. by split.
Qed.

Lemma now_calm w : calm w -> exists w' t, calm w' /\ now w = (w', Ok t).
Proof.
  intros [Hd Hs]. unfold now, ask. change mt_now_unix with (pass (mt_now_unix (MintOutside := N))).
  rewrite pass_eq. eexists _, _. split; [|done]. by split.
Qed.

Lemma retrying_calm {A} (f : outside * list Event -> (outside * list Event) * result SolanaRpcError A) r w :
  (forall o, (f o).2 = r) ->
  (forall o tx', Sent tx' ∈ (call_with_retry f INNER_RETRY_ATTEMPTS o).1.2 -> Sent tx' ∈ o.2 \/ tx' = tx) ->
  calm w -> exists w', calm w' /\ call f w = (w', map_err classify r).
Proof.
  intros Hf Hl [Hd Hs]. pose proof (retry_answer f r INNER_RETRY_ATTEMPTS (c_outside w) Hf) as Hr.
  specialize (Hl (c_outside w)). unfold call, retrying, mbind, SE_bind, ask.
  destruct (call_with_retry f INNER_RETRY_ATTEMPTS (c_outside w)) as [o' r'] eqn:E. cbn in *. subst r'.
  eexists. split; [|done]. split; [done|]. intros tx' Hin. by destruct (Hl tx' Hin) as [?%Hs|?].
Qed.

Lemma read_calm k r w :
  (forall o : outside, (get_account k o).2 = r) -> calm w ->
  exists w', calm w' /\ call (get_account (SolanaRpc := mt_rpc) k) w = (w', map_err classify r).
Proof.
  intros Hr. apply retrying_calm.
  - intros o. change (get_account k o) with (noting (Read k) (get_account (SolanaRpc := mt_rpc (MintOutside := N)) k) o).
    rewrite noting_eq. apply Hr.
  - intros o tx'. change (get_account k) with (noting (Read k) (get_account (SolanaRpc := mt_rpc (MintOutside := N)) k)).
    pose proof (retry_noting (Read k) (get_account k) INNER_RETRY_ATTEMPTS o) as [rs ->].
    rewrite !elem_of_app. intros [Hi|[(x & Hx & _)%list_elem_of_fmap|Hx%list_elem_of_singleton]]; [by left|discriminate Hx|discriminate Hx].
Qed.

Lemma blockhash_calm r w :
  (forall o : outside, (get_latest_blockhash o).2 = r) -> calm w ->
  exists w', calm w' /\ call (get_latest_blockhash (SolanaRpc := mt_rpc)) w = (w', map_err classify r).
Proof.
  intros Hr. apply retrying_calm.
  - intros o. change (get_latest_blockhash o) with (pass (get_latest_blockhash (SolanaRpc := mt_rpc (MintOutside := N))) o).
    rewrite pass_eq. apply Hr.
  - intros o tx'. change get_latest_blockhash with (pass (get_latest_blockhash (SolanaRpc := mt_rpc (MintOutside := N)))).
    rewrite retry_pass. by left.
Qed.

Lemma send_calm r w :
  (forall o : outside, (send_transaction tx o).2 = r) -> calm w ->
  exists w', calm w' /\ call (send_transaction (SolanaRpc := mt_rpc) tx) w = (w', map_err classify r).
Proof.
  intros Hr. apply retrying_calm.
  - intros o. change (send_transaction tx o) with
      (noting (fun _ => Sent tx) (send_transaction (SolanaRpc := mt_rpc (MintOutside := N)) tx) o).
    rewrite noting_eq. apply Hr.
  - intros o tx'. change (send_transaction tx) with
      (noting (fun _ => Sent tx) (send_transaction (SolanaRpc := mt_rpc (MintOutside := N)) tx)).
    pose proof (retry_noting (fun _ => Sent tx) (send_transaction tx) INNER_RETRY_ATTEMPTS o) as [rs ->].
    rewrite !elem_of_app.
    intros [?|[(? & [= ->] & _)%list_elem_of_fmap|[= ->]%list_elem_of_singleton]]; [by left|by right..].
Qed.
End stuck.

Lemma process_one_refused row d claim sigs blockhash e w :
  refuses row d claim sigs blockhash e ->
  let tx := mint_transaction S sigs claim (claim_address S row) blockhash in
  stuck_at d tx w -> exists w', stuck_at d tx w' /\ process_one S row w = (w', Err (classify e)).
Proof.
  intros [Hrel Hpid Habs Hsig (sa & sn & n & Hset & Hdec & Hn) Hbh Hsend] tx H0.
  unfold process_one. fold (claim_address S row).
  destruct (read_calm _ _ _ _ _ Habs H0) as (w1 & H1 & E1). rewrite (SE_bind_step _ _ _ _ _ E1).
  destruct (now_calm _ _ _ H1) as (w2 & t & H2 & E2). rewrite (SE_bind_step _ _ _ _ _ E2).
  assert (with_db DbFailed (load_signable (id row) t) w2 = (w2, Ok (Some claim))) as E3.
  { destruct H2 as [Hd _]. unfold with_db, load_signable. rewrite Hd, Hrel. cbn. destruct w2. cbn in *. by subst. }
  rewrite (SE_bind_step _ _ _ _ _ E3), bool_decide_true by done. cbn [negb]. unfold sign_and_submit.
  destruct (ask_calm _ _ _ _ _ Hsig H2) as (w3 & H3 & E4). rewrite (SE_bind_step _ _ _ _ _ E4).
  destruct (read_calm _ _ _ _ _ Hset H3) as (w4 & H4 & E5). rewrite (SE_bind_step _ _ _ _ _ E5).
  rewrite (SE_bind_step (lift (ok_or (Some sa) ValidatorSetMissing)) _ w4 w4 sa) by done.
  rewrite (SE_bind_step (lift (map_err RpcFailed (decode_validator_set (acc_data sa)))) _ w4 w4 sn)
    by (unfold lift; by rewrite Hdec).
  rewrite Hn.
  destruct (blockhash_calm _ _ _ _ Hbh H4) as (w5 & H5 & E6). rewrite (SE_bind_step _ _ _ _ _ E6).
  destruct (send_calm _ _ _ _ Hsend H5) as (w6 & H6 & E7). rewrite (SE_bind_stop _ _ _ _ _ E7).
  by exists w6.
Qed.

Lemma tick_refused row rest d claim sigs blockhash e o l :
  worklist d = row :: rest -> refuses row d claim sigs blockhash e ->
  let tx := mint_transaction S sigs claim (claim_address S row) blockhash in
  (forall tx', Sent tx' ∈ l -> tx' = tx) ->
  exists o' l', tick S (o, l) d = ((o', l'), d, Err (classify e)) /\ forall tx', Sent tx' ∈ l' -> tx' = tx.
Proof.
  intros Hw Hr tx Hl. unfold tick, tick_body.
  set (w := {| c_outside := (o, l); c_db := d; c_report := default_report |}).
  destruct (process_one_refused row d claim sigs blockhash e w Hr) as (w' & [Hd Hs] & E); [done|].
  assert (worklist (c_db w) = row :: rest) as Hw' by done.
  unfold mbind at 1, SE_bind at 1, gets at 1. rewrite Hw'. cbn [for_all].
  rewrite (SE_bind_stop _ _ w w' (classify e)).
  - destruct w' as [[o' l'] d' r']. cbn in *. subst d'. by exists o', l'.
  - by rewrite (SE_bind_stop _ _ _ _ _ E).
Qed.

(** As long as the node refuses the transaction of the first deposit of the work
    list, every tick ends with that error after sending nothing but that transaction and
    changes no table: after any number of ticks every deposit behind it is as it was,
    and no mint of another deposit was ever sent. *)
Theorem refused_mint_blocks_the_queue row rest d claim sigs blockhash e n o :
  worklist d = row :: rest -> refuses row d claim sigs blockhash e ->
  let '(o', d') := ticks n (o, []) d in
  d' = d /\ (tick S o' d').2 = Err (classify e) /\
  forall tx, Sent tx ∈ o'.2 -> tx = mint_transaction S sigs claim (claim_address S row) blockhash.
Proof.
  intros Hw Hr. assert (forall tx, Sent tx ∈ (o, [] : list Event).2 ->
    tx = mint_transaction S sigs claim (claim_address S row) blockhash) as Hl by (by intros tx []%elem_of_nil).
  revert Hl. generalize (o, [] : list Event) as ol. induction n as [|n IH]; intros [o1 l1] Hl; cbn [ticks].
  - destruct (tick_refused row rest d claim sigs blockhash e o1 l1 Hw Hr Hl) as (o' & l' & -> & _). done.
  - destruct (tick_refused row rest d claim sigs blockhash e o1 l1 Hw Hr Hl) as (o' & l' & -> & Hl').
    by apply IH.
Qed.
End queue.
