(* ===== verification/MintScenario.v ===== *)
(** * A mint, end to end

    A deposit that is ready, minted by one tick and reconciled by the next;
    and two deposits of which the first is refused for good. *)
From Stdlib Require Import ZArith Lia Strings.Byte.
From stdpp Require Import base numbers strings gmap list.
From S2P Require Import Prelude Effects Messages State Validation Verification Token Program Handlers.
From S2P Require Import Invariants Scenario SignatureProof Accounts SolanaInstruction SolanaRpc ChainPass Hex.
From S2P Require Import Address Completion CompletionProps Deposit DepositDb DepositDbProps Orchestrator.
From S2P Require Import OrchestratorProps.

#[local] Existing Instance toy_sha2.
#[local] Existing Instance toy_solana.

Definition demo_pipeline : Orchestrator := {| or_program_id := crate_ID; or_submitter := key 60 |}.

Definition ready_row (i : Z) (t : list byte) : DepositRow :=
  {| id := i; txid := t; txid_hex := Hex.encode t; vout := 0; amount_atomic := 500;
     recipient := demo_user; block_height := 1; block_hash := replicate 32 x02; raw_tx_hex := [];
     state := ReadyForSignature; discovered_at := 900; ready_at := Some 950; failure_reason := None;
     submitted_signature := None |}.
Definition frozen (message : list byte) (i : Z) : NewClaimArtifact :=
  {| ca_deposit_id := i; canonical_message := message; message_hash := sha256 message;
     ca_protocol_version := PROTOCOL_VERSION; ca_validator_epoch := 0; ca_program_id := crate_ID;
     ca_wrapped_mint := demo_mint; ca_created_at := 950 |}.
Definition freeze (r : DepositRow) : NewClaimArtifact := frozen (recompute r (frozen [] 0)) (id r).
Definition ready_db (rows : list DepositRow) : Db :=
  foldl (fun d r => put_artifact d (freeze r)) (with_rows empty_db rows 9) rows.

Definition one_ready : Db := ready_db [ready_row 1 demo_txid].
Definition released (r : DepositRow) : SignableClaim :=
  {| sc_deposit_id := id r; sc_message := canonical_message (freeze r); sc_txid := txid r; sc_vout := 0;
     sc_amount_atomic := 500; sc_recipient := demo_user; sc_program_id := crate_ID;
     sc_wrapped_mint := demo_mint; sc_validator_epoch := 0 |}.

(** A chain without the claim accounts in [absent] and an honest quorum; the
    clock is the state. *)
Definition minting_node (sent : result SolanaRpcError str) : MintOutside Z :=
  {| mt_rpc :=
       {| get_account k o :=
            (o, Ok (if bool_decide (k = (validator_set_pda crate_ID).1)
                    then Some {| acc_owner := crate_ID; acc_data := account_data (zeros 8) (set_fields demo_set) [] |}
                    else None));
          get_latest_blockhash o := (o, Ok (zeros 32));
          send_transaction _ o := (o + 1, sent);
          get_program_accounts_sized _ _ _ o := (o, Ok []) |};
     mt_now_unix o := (o, o);
     collect_mint_signatures _ _ _ _ o := (o, demo_sigs) |}.

Definition mint_tx (r : DepositRow) : SolanaTransaction :=
  mint_transaction demo_pipeline demo_sigs (released r)
    (deposit_claim_pda crate_ID (txid r) 0).1 (zeros 32).

Definition mint_reads : list ChainPass.Event :=
  [Read (deposit_claim_pda crate_ID demo_txid 0).1 (Ok None);
   Read (validator_set_pda crate_ID).1
     (Ok (Some {| acc_owner := crate_ID; acc_data := account_data (zeros 8) (set_fields demo_set) [] |}))].

Lemma sent_mints_are_justified_witness :
  justified (N := minting_node (Ok (lit "5igna7ure"))) demo_pipeline one_ready mint_reads (mint_tx (ready_row 1 demo_txid)).
Proof.
  apply (sent_mints_are_justified (N := minting_node (Ok (lit "5igna7ure"))) demo_pipeline 2000 one_ready
           mint_reads (mint_tx (ready_row 1 demo_txid)) []).
  vm_compute. reflexivity.
Defined.

Example mint_is_recorded :
  let '(_, d, r) := tick (N := minting_node (Ok (lit "5igna7ure"))) demo_pipeline 2000 one_ready in
  r = Ok {| minted := 0; submitted := 1; insufficient := 0; halted := 0 |} /\
  map state (deposit_candidates d) = [Submitted].
Proof. vm_compute. by split. Qed.

Definition mint_env : TxEnv :=
  at_time 1002 (Some {| ix_program_id := ed25519_program_ID;
                        ix_data := si_data (ed25519_instruction demo_sigs
                                     (sc_message (released (ready_row 1 demo_txid)))) |}).

Lemma mint_transaction_is_accepted_witness :
  exists b', exec mint_env (MintWrapped (mint_accounts demo_pipeline (released (ready_row 1 demo_txid)) 253)
                              demo_txid 0 500 0) (demo_state 2) =
    Ok (b', [DepositClaimMinted demo_txid 0 demo_user 500 0]).
Proof.
  destruct (bridge_config (demo_state 2)) as [c|] eqn:Hc; [|by vm_compute in Hc].
  assert (paused c = false /\ wrapped_mint c = demo_mint /\ min_deposit c = 10 /\ max_wrapped_supply c = 1000)
    as (Hp & Hm & Hmin & Hmax) by (vm_compute in Hc; injection Hc as <-; done).
  destruct (mint_transaction_is_accepted demo_pipeline (demo_labels 2) (demo_state 2) c demo_set one_ready 1 2000
              (released (ready_row 1 demo_txid)) demo_sigs 2 (zeros 32) mint_env 253 0 0) as (call & _ & _ & H).
  - reflexivity.
  - apply demo_reachable. lia.
  - exact Hc.
  - vm_compute. reflexivity.
  - vm_compute. reflexivity.
  - reflexivity.
  - vm_compute. reflexivity.
  - reflexivity.
  - by rewrite Hm.
  - rewrite Hm. vm_compute. discriminate.
  - exact Hp.
  - vm_compute. reflexivity.
  - rewrite Hm. vm_compute. reflexivity.
  - rewrite Hm. split; vm_compute; reflexivity.
  - lia.
  - cbn. lia.
  - cbn. lia.
  - cbn. lia.
  - split; [repeat constructor|]. split; [vm_compute; discriminate|cbn; lia].
  - apply (bool_decide_unpack _). vm_compute. exact I.
  - apply (bool_decide_unpack _). vm_compute. exact I.
  - vm_compute. reflexivity.
  - destruct (H eq_refl) as (t & Hx & _). eexists. exact Hx.
Defined.

(** Two deposits; the node refuses the transaction of the first. *)
Definition two_ready : Db := ready_db [ready_row 1 demo_txid; ready_row 2 (replicate 32 x77)].
Definition refusal : SolanaRpcError := Method (lit "Transaction simulation failed").

Lemma first_is_refused :
  refuses (N := minting_node (Err refusal)) demo_pipeline (ready_row 1 demo_txid) two_ready
    (released (ready_row 1 demo_txid)) demo_sigs (zeros 32) refusal.
Proof.
  constructor.
  - intros t. vm_compute. reflexivity.
  - reflexivity.
  - intros o. vm_compute. reflexivity.
  - intros o. reflexivity.
  - eexists _, _, 2%nat. split_and!; [intros o; vm_compute; reflexivity|vm_compute; reflexivity..].
  - intros o. reflexivity.
  - intros o. reflexivity.
Defined.

Lemma refused_mint_blocks_the_queue_witness :
  let '(o', d') := ticks (N := minting_node (Err refusal)) demo_pipeline 5 (2000, []) two_ready in
    d' = two_ready /\ (tick (N := logging (minting_node (Err refusal))) demo_pipeline o' d').2 = Err (RpcFailed refusal) /\
    forall tx, Sent tx ∈ o'.2 -> tx = mint_tx (ready_row 1 demo_txid).
Proof.
  apply (refused_mint_blocks_the_queue (N := minting_node (Err refusal)) demo_pipeline (ready_row 1 demo_txid)
           [ready_row 2 (replicate 32 x77)] two_ready (released (ready_row 1 demo_txid)) demo_sigs (zeros 32) refusal 5 2000).
  - vm_compute. reflexivity.
  - exact first_is_refused.
Defined.
