(* ===== verification/GovernanceView.v ===== *)
(** * What a validator signs for governance: [relayer/src/p2p/governance_view.rs]

    The approvals an operator stages, their text form, and the decision over
    them.  What has been signed lives in the view's own map. *)
From Stdlib Require Import ZArith Lia Strings.Byte.
From stdpp Require Import base numbers strings gmap list sorting.
From S2P Require Import Prelude Messages Hex Text.

Definition APPROVAL_TTL_SECONDS : Z := 24 * 60 * 60.

Inductive GovernanceRefusal :=
| NotAGovernanceAction (action : Z)
| NotApproved (action : Z)
| ApprovalExpired (action expiry now : Z)
| AlreadySignedAnother (action : Z)
| EpochMismatch (requested observed : Z)
| StoreUnreadable (reason : str).

(** A refusal, or the panic of a hex decoder inside a character. *)
Inductive GovernanceFault := Refused (r : GovernanceRefusal) | GovernancePanic.

Record Approval := {
  ap_action : Z; ap_params_commitment : list byte; ap_epoch : Z; ap_expiry_unix : Z; ap_note : str
}.

Abbreviation ApprovalStore := (gmap Z Approval).
Definition stage (a : Approval) (s : ApprovalStore) : ApprovalStore := <[ap_action a := a]> s.

(** ** The text form *)

Definition approval_line (a : Approval) : str :=
  display (ap_action a) ++ " "%byte :: encode (ap_params_commitment a) ++ " "%byte ::
  display (ap_epoch a) ++ " "%byte :: display (ap_expiry_unix a) ++ " "%byte :: flatten (ap_note a).

(** The keys of the map, sorted. *)
Definition by_action (p q : Z * Approval) : Prop := p.1 <= q.1.
#[export] Instance by_action_dec p q : Decision (by_action p q).
Proof. unfold by_action. apply _. Defined.
Definition sorted_approvals (s : ApprovalStore) : list Approval :=
  snd <$> merge_sort by_action (map_to_list s).

Definition to_text (s : ApprovalStore) : str :=
  concat ((fun a => approval_line a ++ ["010"%byte]) <$> sorted_approvals s).

(** One line that is neither empty nor a comment; [n] counts from zero. *)
Definition read_approval (n : nat) (line : str) : result GovernanceFault Approval :=
  let parts := splitn 5 line in
  let bad what :=
    Refused (StoreUnreadable (lit "line " ++ display (Z.of_nat n + 1) ++ lit ": " ++ what)) in
  let* action := ok_or (parts !! 0%nat) (bad (lit "missing action")) in
  let* action := ok_or (parse_unsigned U8_MAX action) (bad (lit "action is not a u8")) in
  let* commitment := ok_or (parts !! 1%nat) (bad (lit "missing commitment")) in
  let* commitment :=
    map_err (fun e => match e with
                      | HexErr _ => bad (lit "commitment is not 32 hex bytes")
                      | Panicked => GovernancePanic
                      end) (decode_exact 32 commitment) in
  let* epoch := ok_or (parts !! 2%nat) (bad (lit "missing epoch")) in
  let* epoch := ok_or (parse_unsigned U64_MAX epoch) (bad (lit "epoch is not a u64")) in
  let* expiry := ok_or (parts !! 3%nat) (bad (lit "missing expiry")) in
  let* expiry := ok_or (parse_i64 expiry) (bad (lit "expiry is not an i64")) in
  Ok {| ap_action := action; ap_params_commitment := commitment; ap_epoch := epoch;
        ap_expiry_unix := expiry; ap_note := default [] (parts !! 4%nat) |}.

Definition read_line (store : ApprovalStore) (nl : nat * str) : result GovernanceFault ApprovalStore :=
  let line := trim nl.2 in
  if is_comment line then Ok store
  else let* a := read_approval nl.1 line in Ok (stage a store).

Definition from_text (text : str) : result GovernanceFault ApprovalStore :=
  foldM read_line ∅ (imap pair (lines text)).

Definition load (file : FileRead) : result GovernanceFault ApprovalStore :=
  match file with
  | FileText text => from_text text
  | FileNotFound => Ok ∅
  | FileUnreadable e => Err (Refused (StoreUnreadable e))
  end.

(** ** The decision *)

Definition is_governance_action (action : Z) : bool :=
  (action =? ACTION_PROPOSE_ROTATION) || (action =? ACTION_CANCEL_ROTATION) ||
  (action =? ACTION_PROPOSE_TVL_RAISE).

(** [GovernanceView::signed]: the commitment signed for an action. *)
Abbreviation Signed := (gmap Z (list byte)).

(** The checks before the equivocation guard. *)
Definition approved_by_operator (file : FileRead) (action : Z) (params_commitment : list byte)
    (requested_epoch observed_epoch now_unix : Z) : result GovernanceFault unit :=
  require (is_governance_action action) (Refused (NotAGovernanceAction action)) ;;*
  require (requested_epoch =? observed_epoch) (Refused (EpochMismatch requested_epoch observed_epoch)) ;;*
  let* store := load file in
  let* approval := ok_or (store !! action) (Refused (NotApproved action)) in
  require (bool_decide (ap_params_commitment approval = params_commitment)) (Refused (NotApproved action)) ;;*
  require (ap_epoch approval =? observed_epoch) (Refused (EpochMismatch (ap_epoch approval) observed_epoch)) ;;*
  require (now_unix <=? ap_expiry_unix approval)
    (Refused (ApprovalExpired action (ap_expiry_unix approval) now_unix)).

Definition approve (file : FileRead) (action : Z) (params_commitment : list byte)
    (requested_epoch observed_epoch now_unix : Z) (signed : Signed)
  : Signed * result GovernanceFault unit :=
  match approved_by_operator file action params_commitment requested_epoch observed_epoch now_unix with
  | Err e => (signed, Err e)
  | Ok _ =>
      match signed !! action with
      | Some prev =>
          if bool_decide (prev = params_commitment) then (signed, Ok tt)
          else (signed, Err (Refused (AlreadySignedAnother action)))
      | None => (<[action := params_commitment]> signed, Ok tt)
      end
  end.

(** ** The store reads back *)

(** An approval whose fields fit their types. *)
Definition approval_typed (a : Approval) : Prop :=
  0 <= ap_action a <= U8_MAX /\ length (ap_params_commitment a) = 32%nat /\
  0 <= ap_epoch a <= U64_MAX /\ I64_MIN <= ap_expiry_unix a <= I64_MAX.

Definition store_typed (s : ApprovalStore) : Prop :=
  map_Forall (fun k a => ap_action a = k /\ approval_typed a) s.

(** What the line format keeps of a note. *)
Definition written_note (a : Approval) : Approval :=
  {| ap_action := ap_action a; ap_params_commitment := ap_params_commitment a; ap_epoch := ap_epoch a;
     ap_expiry_unix := ap_expiry_unix a; ap_note := trim_end (flatten (ap_note a)) |}.

(** Four words and what is left of the note. *)
Lemma splitn_line w1 w2 w3 w4 t :
  word w1 -> word w2 -> word w3 -> word w4 ->
  let l := splitn 5 (w1 ++ " "%byte :: w2 ++ " "%byte :: w3 ++ " "%byte :: w4 ++
                     spaced t) in
  l !! 0%nat = Some w1 /\ l !! 1%nat = Some w2 /\ l !! 2%nat = Some w3 /\ l !! 3%nat = Some w4 /\
  default [] (l !! 4%nat) = t.
Proof.
  intros H1 H2 H3 H4. cbv zeta. do 3 rewrite splitn_word by done. destruct t as [|b t]; cbn [spaced].
  - rewrite app_nil_r. cbn [splitn]. by rewrite split_space_none by apply (word_no_space w4 H4).
  - by rewrite splitn_word.
Qed.

(** The line a typed approval comes back from. *)
Definition read_back (a : Approval) : str :=
  display (ap_action a) ++ " "%byte :: encode (ap_params_commitment a) ++ " "%byte ::
  display (ap_epoch a) ++ " "%byte :: display (ap_expiry_unix a) ++
  spaced (trim_end (flatten (ap_note a))).

Lemma trimmed_line a : trim (strip_cr (approval_line a)) = read_back a.
Proof.
  unfold approval_line, read_back.
  destruct (display_word (ap_action a)) as [Wa Na], (display_word (ap_expiry_unix a)) as [Wx Nx].
  destruct (exists_last Nx) as (x & b & Ex). rewrite Ex in *.
  assert (is_word b = true) as Hb by (apply (word_elem _ _ Wx), elem_of_app; right; left).
  pose proof (trim_line (display (ap_action a)) b
    (encode (ap_params_commitment a) ++ " "%byte :: display (ap_epoch a) ++ " "%byte :: x)
    (flatten (ap_note a)) Hb Wa Na) as H.
  repeat (rewrite <- app_assoc in H; cbn [app] in H).
  repeat (rewrite <- app_assoc; cbn [app]). exact H.
Qed.

Lemma read_line_back store n a :
  approval_typed a ->
  read_line store (n, strip_cr (approval_line a)) = Ok (stage (written_note a) store).
Proof.
  intros ((Ha & Ha') & Hc & He & Hx). unfold read_line. cbn [fst snd]. rewrite trimmed_line.
  destruct (display_word (ap_epoch a)) as [We _], (display_word (ap_expiry_unix a)) as [Wx _],
    (display_word (ap_action a)) as [Wa Na].
  assert (is_comment (read_back a) = false) as ->.
  { unfold read_back. pose proof (plain_number_dec (Z.to_N (ap_action a))) as Hd.
    pose proof (plain_number_nonempty (Z.to_N (ap_action a))) as Hn.
    rewrite display_nonneg by lia. destruct (plain_number _) as [|b w]; [done|]. cbn.
    apply bool_decide_false. intros ->. done. }
  destruct (splitn_line _ _ _ _ (trim_end (flatten (ap_note a))) Wa (hex_word (ap_params_commitment a)) We Wx)
    as (H0 & H1 & H2 & H3 & H4).
  unfold read_approval, read_back. cbv zeta. rewrite H0, H1, H2, H3, H4. cbn [ok_or mbind result_bind].
  rewrite parse_display by lia. cbn [ok_or mbind result_bind].
  rewrite decode_exact_encode by done. cbn [map_err mbind result_bind].
  rewrite parse_display by done. cbn [ok_or mbind result_bind]. by rewrite parse_display_i64.
Qed.

Lemma read_lines_back store (g : nat -> str -> nat * str) l :
  Forall approval_typed l -> (forall i x, (g i x).2 = x) ->
  foldM read_line store (imap g (strip_cr <$> (approval_line <$> l))) =
  Ok (foldl (fun s a => stage (written_note a) s) store l).
Proof.
  intros Hl. revert store g. induction Hl as [|a l Ha _ IH]; intros store g Hg; [done|].
  cbn [fmap list_fmap]. rewrite imap_cons. cbn [foldM foldl].
  pose proof (Hg 0%nat (strip_cr (approval_line a))) as H0. destruct (g 0%nat _) as [n x]. cbn in H0. subst x.
  rewrite read_line_back by done. cbn. apply IH. intros i x. apply Hg.
Qed.

Lemma approval_line_no_newline a : "010"%byte ∉ approval_line a.
Proof.
  unfold approval_line. destruct (display_word (ap_action a)) as [Wa _], (display_word (ap_epoch a)) as [We _],
    (display_word (ap_expiry_unix a)) as [Wx _].
  apply word_no_space in Wa as [_ Wa]. apply word_no_space in We as [_ We]. apply word_no_space in Wx as [_ Wx].
  pose proof (proj2 (word_no_space _ (hex_word (ap_params_commitment a)))) as Wc.
  repeat (rewrite not_elem_of_app || rewrite not_elem_of_cons). split_and!; try done. apply flatten_no_newline.
Qed.

Lemma foldl_stage (w : Approval -> Approval) store l :
  (forall a, ap_action (w a) = ap_action a) -> NoDup (ap_action <$> l) ->
  foldl (fun s a => stage (w a) s) store l =
  (list_to_map ((fun a => (ap_action a, w a)) <$> l) : ApprovalStore) ∪ store.
Proof.
  intros Hw. revert store. induction l as [|a l IH]; intros store Hnd; cbn [foldl fmap list_fmap].
  - symmetry. apply (left_id_L ∅ (∪)).
  - apply NoDup_cons in Hnd as [Ha Hnd]. rewrite IH by done. unfold stage. rewrite Hw.
    rewrite list_to_map_cons, <- insert_union_l, insert_union_r; [done|].
    apply not_elem_of_list_to_map_1. rewrite <- list_fmap_compose. exact Ha.
Qed.

Lemma sorted_approvals_spec s :
  store_typed s ->
  Forall approval_typed (sorted_approvals s) /\ NoDup (ap_action <$> sorted_approvals s) /\
  (list_to_map ((fun a => (ap_action a, written_note a)) <$> sorted_approvals s) : ApprovalStore) = written_note <$> s.
Proof.
  intros Hs. unfold sorted_approvals. set (l := merge_sort by_action (map_to_list s)).
  assert (l ≡ₚ map_to_list s) as Hp by apply merge_sort_Permutation.
  assert (Forall (fun p => ap_action p.2 = p.1 /\ approval_typed p.2) l) as Hl.
  { apply Forall_forall. intros [k a] Hk. rewrite Hp, elem_of_map_to_list in Hk. by apply (Hs k a). }
  assert (ap_action <$> (snd <$> l) = fst <$> l) as Hk.
  { rewrite <- list_fmap_compose. apply list_fmap_ext. intros i [k a] Hi.
    rewrite Forall_lookup in Hl. by destruct (Hl i _ Hi). }
  split_and!.
  - apply Forall_fmap. eapply Forall_impl; [exact Hl|]. by intros p [_ ?].
  - rewrite Hk. rewrite (fmap_Permutation fst _ _ Hp). apply NoDup_fst_map_to_list.
  - rewrite <- list_fmap_compose.
    assert (((fun a => (ap_action a, written_note a)) ∘ snd) <$> l = prod_map id written_note <$> l) as ->.
    { apply list_fmap_ext. intros i [k a] Hi. rewrite Forall_lookup in Hl. destruct (Hl i _ Hi) as [Hka _].
      cbn in *. by rewrite Hka. }
    rewrite list_to_map_fmap. f_equal. rewrite <- (list_to_map_to_list s). apply list_to_map_proper; [|done].
    rewrite (fmap_Permutation fst _ _ Hp). apply NoDup_fst_map_to_list.
Qed.

(** The approval file reads back: for every store of well-typed approvals the
    parser returns from its printed text the same actions, commitments, epochs and
    expiries, with newlines of the notes turned into spaces and trailing blanks dropped. *)
Theorem approvals_read_back s :
  store_typed s -> from_text (to_text s) = Ok (written_note <$> s).
Proof.
  intros Hs. destruct (sorted_approvals_spec s Hs) as (Ht & Hnd & Hm).
  unfold from_text, to_text.
  rewrite (list_fmap_compose approval_line (fun l => l ++ ["010"%byte])).
  rewrite lines_concat.
  - rewrite read_lines_back by done. rewrite (foldl_stage written_note) by done.
    by rewrite Hm, (right_id_L ∅ (∪)).
  - apply Forall_fmap, Forall_true. intros a. apply approval_line_no_newline.
Qed.

(** ** What is signed *)

(** The operator staged exactly this commitment for this epoch, and it has not expired. *)
Record governance_granted (file : FileRead) (action : Z) (commitment : list byte)
    (requested observed now : Z) : Prop := {
  gg_action : action ∈ [ACTION_PROPOSE_ROTATION; ACTION_CANCEL_ROTATION; ACTION_PROPOSE_TVL_RAISE];
  gg_epoch : requested = observed;
  gg_staged : exists store a, load file = Ok store /\ store !! action = Some a /\
    ap_params_commitment a = commitment /\ ap_epoch a = observed /\ now <= ap_expiry_unix a
}.

Lemma approved_by_operator_Ok file action c requested observed now :
  approved_by_operator file action c requested observed now = Ok tt <->
  governance_granted file action c requested observed now.
Proof.
  assert (is_governance_action action = true <->
    action ∈ [ACTION_PROPOSE_ROTATION; ACTION_CANCEL_ROTATION; ACTION_PROPOSE_TVL_RAISE]) as Ha.
  { unfold is_governance_action. rewrite !orb_true_iff, !Z.eqb_eq, !elem_of_cons, elem_of_nil. tauto. }
  unfold approved_by_operator. split.
  - intros H. apply bind_Ok in H as ([] & H1%require_Ok & H). apply bind_Ok in H as ([] & H2%require_Ok & H).
    apply bind_Ok in H as (store & Hl & H). apply bind_Ok in H as (a & Hs%ok_or_Ok & H).
    apply bind_Ok in H as ([] & H3%require_Ok & H). apply bind_Ok in H as ([] & H4%require_Ok & H5%require_Ok).
    bools. constructor; [by apply Ha|done|]. by exists store, a.
  - intros [Hg -> (store & a & Hl & Hs & Hc & He & Hn)]. apply Ha in Hg. rewrite Hg, Z.eqb_refl.
    cbn [require mbind result_bind]. rewrite Hl. cbn [mbind result_bind]. rewrite Hs. cbn [ok_or mbind result_bind].
    rewrite bool_decide_true by done. rewrite He, Z.eqb_refl. cbn. by rewrite (proj2 (Z.leb_le _ _)).
Qed.

(** A call and its answer. *)
Record GovernanceCall := {
  gc_file : FileRead; gc_action : Z; gc_commitment : list byte; gc_requested : Z; gc_observed : Z; gc_now : Z
}.
Definition call_granted (c : GovernanceCall) : Prop :=
  governance_granted (gc_file c) (gc_action c) (gc_commitment c) (gc_requested c) (gc_observed c) (gc_now c).
Definition answer (c : GovernanceCall) (signed : Signed) : Signed * result GovernanceFault unit :=
  approve (gc_file c) (gc_action c) (gc_commitment c) (gc_requested c) (gc_observed c) (gc_now c) signed.

Fixpoint answers (l : list GovernanceCall) (signed : Signed) : Signed * list (result GovernanceFault unit) :=
  match l with
  | [] => (signed, [])
  | c :: l => let (signed, r) := answer c signed in let (signed, rs) := answers l signed in (signed, r :: rs)
  end.

(** An answer signs exactly when the operator staged the call and nothing else was signed for the
    action; then that is what is remembered. *)
Lemma answer_Ok c signed :
  (answer c signed).2 = Ok tt <->
  call_granted c /\ (forall prev, signed !! gc_action c = Some prev -> prev = gc_commitment c).
Proof.
  unfold answer, approve, call_granted. rewrite <- approved_by_operator_Ok.
  destruct (approved_by_operator _ _ _ _ _ _) as [[]|e]; [|by split; [|intros []]].
  destruct (signed !! gc_action c) as [prev|]; [case_bool_decide as E|]; cbn; split; try done.
  - intros _. split; [done|]. by intros ? [= <-].
  - intros [_ H]. by destruct (E (H _ eq_refl)).
Qed.

Lemma answer_signed c signed :
  (answer c signed).1 =
  match (answer c signed).2 with Ok _ => <[gc_action c := gc_commitment c]> signed | Err _ => signed end.
Proof.
  unfold answer, approve. destruct (approved_by_operator _ _ _ _ _ _) as [[]|e]; [|done].
  destruct (signed !! gc_action c) as [prev|] eqn:E; [|done]. case_bool_decide as H; [|done]. cbn.
  subst prev. symmetry. by apply insert_id.
Qed.

(** What has been signed stays. *)
Lemma answers_keep l signed k v : signed !! k = Some v -> (answers l signed).1 !! k = Some v.
Proof.
  revert signed. induction l as [|c l IH]; intros signed Hk; [done|]. cbn [answers].
  destruct (answer c signed) as [s1 r] eqn:E. specialize (IH s1). destruct (answers l s1) as [s2 rs]. apply IH.
  pose proof (answer_signed c signed) as Hs. pose proof (answer_Ok c signed) as Ho. rewrite E in Hs, Ho. cbn in Hs, Ho.
  destruct r as [[]|]; [|by subst]. destruct (proj1 Ho eq_refl) as [_ Hp]. subst s1.
  destruct (decide (gc_action c = k)) as [<-|]; [|by rewrite lookup_insert_ne].
  rewrite lookup_insert_eq. by rewrite (Hp v Hk).
Qed.

Lemma answers_granted l signed i c :
  l !! i = Some c -> (answers l signed).2 !! i = Some (Ok tt) ->
  call_granted c /\ (answers l signed).1 !! gc_action c = Some (gc_commitment c).
Proof.
  revert signed i. induction l as [|c' l IH]; intros signed i Hc Hr; [done|]. cbn [answers] in *.
  pose proof (answer_signed c' signed) as Hs. pose proof (answer_Ok c' signed) as Ho.
  destruct (answer c' signed) as [s1 r] eqn:E. specialize (IH s1). pose proof (answers_keep l s1) as Hk.
  destruct (answers l s1) as [s2 rs]. cbn in *. destruct i as [|i]; [|by eapply IH].
  injection Hc as ->. injection Hr as ->. subst s1. split; [by apply Ho|]. apply Hk, lookup_insert_eq.
Qed.

(** Along any sequence of governance requests, a request is approved only if the
    operator's file held exactly that commitment for that action and the observed epoch,
    unexpired, at that moment; no two different commitments are approved for one action;
    and a staged request is approved as long as nothing else was approved for its
    action. *)
Theorem governance_signs_what_is_staged l signed signed' rs :
  answers l signed = (signed', rs) ->
  (forall i c, l !! i = Some c -> rs !! i = Some (Ok tt) -> call_granted c) /\
  (forall i j c c', l !! i = Some c -> l !! j = Some c' -> rs !! i = Some (Ok tt) -> rs !! j = Some (Ok tt) ->
     gc_action c = gc_action c' -> gc_commitment c = gc_commitment c') /\
  (forall c, call_granted c -> (signed' !! gc_action c = None \/ signed' !! gc_action c = Some (gc_commitment c)) ->
     (answer c signed').2 = Ok tt).
Proof.
  intros E. pose proof (answers_granted l signed) as Hg. rewrite E in Hg. cbn in Hg. split_and!.
  - intros i c Hc Hr. by eapply Hg.
  - intros i j c c' Hc Hc' Hr Hr' Ha. destruct (Hg i c Hc Hr) as [_ H1], (Hg j c' Hc' Hr') as [_ H2]. congruence.
  - intros c Hc Hs. apply answer_Ok. split; [done|]. intros prev Hp. destruct Hs; congruence.
Qed.

(** ** A rotation, and a second one *)

Definition demo_approval (b : byte) (epoch : Z) : Approval :=
  {| ap_action := ACTION_PROPOSE_ROTATION; ap_params_commitment := replicate 32 b; ap_epoch := epoch;
     ap_expiry_unix := 5000; ap_note := lit "rehearsed" ++ ["010"%byte] ++ lit "twice " |}.
Definition demo_store (b : byte) (epoch : Z) : ApprovalStore := stage (demo_approval b epoch) ∅.
Definition demo_call (b : byte) (epoch : Z) : GovernanceCall :=
  {| gc_file := FileText (to_text (demo_store b epoch)); gc_action := ACTION_PROPOSE_ROTATION;
     gc_commitment := replicate 32 b; gc_requested := epoch; gc_observed := epoch; gc_now := 4000 |}.

Lemma approvals_read_back_witness :
  store_typed (demo_store xaa 7) /\ from_text (to_text (demo_store xaa 7)) = Ok (written_note <$> demo_store xaa 7) /\
  ap_note (written_note (demo_approval xaa 7)) = lit "rehearsed twice".
Proof.
  assert (store_typed (demo_store xaa 7)) as H.
  { unfold store_typed, demo_store, stage. rewrite insert_empty. apply map_Forall_singleton. split; [done|].
    split_and!; vm_compute; first [reflexivity|discriminate|split; discriminate]. }
  split; [exact H|]. split; [exact (approvals_read_back (demo_store xaa 7) H)|]. vm_compute. reflexivity.
Defined.

Definition demo_calls : list GovernanceCall := [demo_call xaa 7; demo_call xaa 7; demo_call xbb 8].

(** Staging the next epoch's rotation does not get it signed. *)
Lemma governance_signs_what_is_staged_witness :
  (answers demo_calls (∅ : Signed)).2 =
    [Ok tt; Ok tt; Err (Refused (AlreadySignedAnother ACTION_PROPOSE_ROTATION))] /\
  call_granted (demo_call xaa 7).
Proof.
  split; [vm_compute; reflexivity|].
  destruct (governance_signs_what_is_staged demo_calls (∅ : Signed) (answers demo_calls ∅).1
              (answers demo_calls ∅).2 (surjective_pairing _)) as [H _].
  apply (H 0%nat); vm_compute; reflexivity.
Defined.
