(* ===== verification/Sweep.v ===== *)
(** * Vault sweeps: [relayer/src/withdrawal/sweep.rs]

    The pure half of a sweep: the plan over a set of outputs, its canonical
    commitment and the check that a transaction is the plan.  The theorems:
    a plan's transaction is accepted and nothing else is, and the commitment
    determines everything a sweep does. *)
From Stdlib Require Import ZArith Lia Strings.Byte.
From stdpp Require Import base numbers strings gmap list.
From S2P Require Import Prelude Messages Hex WithdrawalDb Coin Multisig.

Definition SWEEP_DOMAIN_TAG : list byte := lit "GLC_BRIDGE_SWEEP".
Definition SWEEP_OUTPUT_COUNT : Z := 1.

Inductive SweepError :=
| NothingToSweep
| FeeExceedsValue (total fee : Z)
| ResultIsDust (swept dust : Z)
| SweepTooManyInputs (needed max : nat)
| DestinationIsSource
| SweepInputCount (expected found : nat)
| SweepInputMismatch (index : nat) (expected found : str)
| NotSingleOutput (n : nat)
| WrongDestination (expected_hex found_hex : str)
| WrongAmount (expected found : Z)
| AlreadySigned (index : nat).

Record SweepPlan := {
  sp_source_hash160 : list byte; sp_dest_hash160 : list byte; sp_dest_script_pubkey : list byte;
  sp_dest_address : str; sp_fee_atomic : Z; sp_swept_atomic : Z; sp_inputs : list VaultUtxo
}.

Definition total_in (p : SweepPlan) : Z := total (sp_inputs p).

Definition sweep_input_bytes (u : VaultUtxo) : list byte :=
  u_txid u ++ le_bytes 4 (u_vout u) ++ le_bytes 8 (u_amount u).

(** The casts to [u16] and [u32] keep the low bytes. *)
Definition canonical_intent (protocol_version : Z) (p : SweepPlan) : list byte :=
  SWEEP_DOMAIN_TAG ++ le_bytes 1 protocol_version ++ sp_source_hash160 p ++ sp_dest_hash160 p ++
  le_bytes 2 (Z.of_nat (length (sp_dest_script_pubkey p))) ++ sp_dest_script_pubkey p ++
  le_bytes 8 (sp_fee_atomic p) ++ le_bytes 8 (sp_swept_atomic p) ++
  le_bytes 4 (Z.of_nat (length (sp_inputs p))) ++ concat (sweep_input_bytes <$> sp_inputs p).

Definition commitment `{Sha2} (protocol_version : Z) (p : SweepPlan) : list byte :=
  sha256 (canonical_intent protocol_version p).

Record SweepDestination := { sd_hash160 : list byte; sd_script_pubkey : list byte; sd_address : str }.

(** [OP_HASH160 <20> OP_EQUAL] *)
Definition p2sh_script_pubkey (hash160 : list byte) : list byte := [xa9; x14] ++ hash160 ++ [x87].

Definition p2sh (hash160 : list byte) (address : str) : SweepDestination :=
  {| sd_hash160 := hash160; sd_script_pubkey := p2sh_script_pubkey hash160; sd_address := address |}.

(** [u64::checked_sub] *)
Definition checked_sub (a b : Z) : option Z := if b <=? a then Some (a - b) else None.

Definition plan_sweep (source_hash160 : list byte) (dest : SweepDestination) (utxos : list VaultUtxo)
    (fee_rate_per_kb dust_threshold_atomic : Z) (max_inputs : nat) : result SweepError SweepPlan :=
  require (negb (bool_decide (utxos = []))) NothingToSweep ;;*
  require (negb (bool_decide (sd_hash160 dest = source_hash160))) DestinationIsSource ;;*
  require (length utxos <=? max_inputs)%nat (SweepTooManyInputs (length utxos) max_inputs) ;;*
  let value_in := total utxos in
  let fee := fee_for (Z.of_nat (length utxos)) SWEEP_OUTPUT_COUNT fee_rate_per_kb in
  let* swept := ok_or (checked_sub value_in fee) (FeeExceedsValue value_in fee) in
  require (negb (swept =? 0)) (FeeExceedsValue value_in fee) ;;*
  require (dust_threshold_atomic <=? swept) (ResultIsDust swept dust_threshold_atomic) ;;*
  Ok {| sp_source_hash160 := source_hash160; sp_dest_hash160 := sd_hash160 dest;
        sp_dest_script_pubkey := sd_script_pubkey dest; sp_dest_address := sd_address dest;
        sp_fee_atomic := fee; sp_swept_atomic := swept; sp_inputs := utxos |}.

Definition internal_txid (display_order : list byte) : list byte := rev display_order.

(** The input loop, from index [i] on. *)
Fixpoint verify_sweep_inputs (i : nat) (got : list TxInput) (want : list VaultUtxo)
  : result SweepError unit :=
  match got, want with
  | g :: got, w :: want =>
      require (bool_decide (script_sig g = [])) (AlreadySigned i) ;;*
      require (bool_decide (prev_txid g = internal_txid (u_txid w)) && (prev_vout g =? as_u64 (u_vout w)))
        (SweepInputMismatch i (u_txid_hex w ++ lit ":" ++ display (u_vout w))
           (encode (internal_txid (prev_txid g)) ++ lit ":" ++ display (prev_vout g))) ;;*
      verify_sweep_inputs (S i) got want
  | _, _ => Ok tt
  end.

Definition verify_sweep_tx (tx : Transaction) (plan : SweepPlan) : result SweepError unit :=
  require (length (inputs tx) =? length (sp_inputs plan))%nat
    (SweepInputCount (length (sp_inputs plan)) (length (inputs tx))) ;;*
  verify_sweep_inputs 0 (inputs tx) (sp_inputs plan) ;;*
  match outputs tx with
  | [out] =>
      require (bool_decide (script_pubkey out = sp_dest_script_pubkey plan))
        (WrongDestination (encode (sp_dest_script_pubkey plan)) (encode (script_pubkey out))) ;;*
      require (value out =? sp_swept_atomic plan) (WrongAmount (sp_swept_atomic plan) (value out))
  | outs => Err (NotSingleOutput (length outs))
  end.

(** ** The transaction of a plan *)

(** The unsigned transaction that spends [sp_inputs] into the one output. *)
Definition sweep_tx (version lock_time sequence : Z) (p : SweepPlan) : Transaction :=
  {| Multisig.version := version;
     inputs := (fun u => {| prev_txid := internal_txid (u_txid u); prev_vout := as_u64 (u_vout u);
                            script_sig := []; Multisig.sequence := sequence |}) <$> sp_inputs p;
     outputs := [{| value := sp_swept_atomic p; script_pubkey := sp_dest_script_pubkey p |}];
     lock_time := lock_time |}.

(** What an input must name. *)
Definition spends_input (g : TxInput) (w : VaultUtxo) : Prop :=
  script_sig g = [] /\ prev_txid g = internal_txid (u_txid w) /\ prev_vout g = as_u64 (u_vout w).

Lemma verify_sweep_inputs_Ok i got want :
  length got = length want -> verify_sweep_inputs i got want = Ok tt <-> Forall2 spends_input got want.
Proof.
  revert i want. induction got as [|g got IH]; intros i [|w want] Hl; try discriminate Hl; [by split|].
  cbn [verify_sweep_inputs]. injection Hl as Hl. rewrite Forall2_cons. rewrite <- (IH (S i) want Hl).
  rewrite bind_Ok. setoid_rewrite bind_Ok. setoid_rewrite require_Ok. unfold spends_input.
  split.
  - intros ([] & H1%bool_decide_eq_true & [] & [H2%bool_decide_eq_true H3%Z.eqb_eq]%andb_true_iff & H4). done.
  - intros ((H1 & H2 & H3) & H4). exists tt. rewrite bool_decide_true by done. split; [done|].
    exists tt. rewrite bool_decide_true, H3, Z.eqb_refl by done. done.
Qed.

Lemma verify_sweep_tx_spec tx plan :
  verify_sweep_tx tx plan = Ok tt <->
  Forall2 spends_input (inputs tx) (sp_inputs plan) /\
  exists out, outputs tx = [out] /\ script_pubkey out = sp_dest_script_pubkey plan /\
              value out = sp_swept_atomic plan.
Proof.
  unfold verify_sweep_tx. rewrite bind_Ok. setoid_rewrite bind_Ok. setoid_rewrite require_Ok. split.
  - intros ([] & Hl%Nat.eqb_eq & [] & Hi & Ho). rewrite verify_sweep_inputs_Ok in Hi by done. split; [done|].
    destruct (outputs tx) as [|out [|? ?]]; try discriminate Ho. exists out.
    apply bind_Ok in Ho as ([] & H1%require_Ok & H2%require_Ok). bools. done.
  - intros (Hi & out & -> & Hs & Hv). exists tt. pose proof (Forall2_length _ _ _ Hi) as Hl.
    split; [by apply Nat.eqb_eq|]. exists tt. rewrite verify_sweep_inputs_Ok by done. split; [done|].
    rewrite bool_decide_true by done. cbn. by rewrite Hv, Z.eqb_refl.
Qed.

(** ** What the commitment determines *)

Record input_typed (u : VaultUtxo) : Prop := {
  it_txid : length (u_txid u) = 32%nat; it_vout : in_u32 (u_vout u); it_amount : in_u64 (u_amount u)
}.
(** The widths of the fields, and the bound [parse_transaction] puts on the
    inputs. *)
Record plan_typed (p : SweepPlan) : Prop := {
  pt_source : length (sp_source_hash160 p) = 20%nat;
  pt_dest : length (sp_dest_hash160 p) = 20%nat;
  pt_fee : in_u64 (sp_fee_atomic p); pt_swept : in_u64 (sp_swept_atomic p);
  pt_inputs : Forall input_typed (sp_inputs p);
  pt_count : Z.of_nat (length (sp_inputs p)) <= 10000
}.

(** What a sweep does. *)
Definition terms (p : SweepPlan) :=
  (sp_source_hash160 p, sp_dest_hash160 p, sp_dest_script_pubkey p, sp_fee_atomic p,
   sp_swept_atomic p, (fun u => (u_txid u, u_vout u, u_amount u)) <$> sp_inputs p).

Lemma length_sweep_inputs l :
  Forall input_typed l -> length (concat (sweep_input_bytes <$> l)) = (44 * length l)%nat.
Proof.
  induction 1 as [|u l [Ht _ _] _ IH]; [done|]. rewrite fmap_cons. cbn [concat length].
  rewrite length_app, IH. unfold sweep_input_bytes. rewrite !length_app, !length_le_bytes, Ht. lia.
Qed.

Lemma sweep_inputs_inj l k :
  Forall input_typed l -> Forall input_typed k ->
  concat (sweep_input_bytes <$> l) = concat (sweep_input_bytes <$> k) ->
  (fun u => (u_txid u, u_vout u, u_amount u)) <$> l = (fun u => (u_txid u, u_vout u, u_amount u)) <$> k.
Proof.
  intros Hl. revert k. induction Hl as [|u l [Ht Hv Ha] Hl IH]; intros k Hk E.
  - destruct Hk as [|w k [Ht _ _] _]; [done|]. apply (f_equal length) in E. cbn in E.
    unfold sweep_input_bytes in E. rewrite !length_app, Ht in E. cbn in E. lia.
  - destruct Hk as [|w k [Ht' Hv' Ha'] Hk].
    + apply (f_equal length) in E. cbn in E. unfold sweep_input_bytes in E. rewrite !length_app, Ht in E. cbn in E. lia.
    + rewrite !fmap_cons in *. cbn [concat] in E.
      apply app_inj_1 in E as [E0 E]; [|unfold sweep_input_bytes; rewrite !length_app, !length_le_bytes; congruence].
      unfold sweep_input_bytes in E0. apply app_inj_1 in E0 as [E1 E0]; [|congruence].
      apply app_inj_1 in E0 as [E2%le_bytes_u32_inj E3%le_bytes_u64_inj]; [|done..|by rewrite !length_le_bytes].
      rewrite E1, E2, E3. f_equal. by apply IH.
Qed.

(** The two low bytes of the script's length are enough: the inputs would
    have to differ by a multiple of 16384. *)
Lemma script_length_determined (s s' n n' : nat) :
  Z.of_nat n <= 10000 -> Z.of_nat n' <= 10000 -> (s + 44 * n = s' + 44 * n')%nat ->
  Z.of_nat s mod 65536 = Z.of_nat s' mod 65536 -> s = s'.
Proof.
  intros Hn Hn' Hl Hm. pose proof (Z.div_mod (Z.of_nat s) 65536 ltac:(lia)).
  pose proof (Z.div_mod (Z.of_nat s') 65536 ltac:(lia)).
  assert (11 * (Z.of_nat n' - Z.of_nat n) = 16384 * (Z.of_nat s / 65536 - Z.of_nat s' / 65536)) as E by lia.
  assert (16384 | Z.of_nat n' - Z.of_nat n)%Z as [c Hc].
  { apply (Z.gauss _ 11); [by exists (Z.of_nat s / 65536 - Z.of_nat s' / 65536); rewrite E; lia|done]. }
  assert (c = 0) as -> by lia. lia.
Qed.

Lemma sweep_intents_bind protocol_version p q :
  plan_typed p -> plan_typed q ->
  canonical_intent protocol_version p = canonical_intent protocol_version q -> terms p = terms q.
Proof.
  intros [Ps Pd Pf Pw Pi Pn] [Qs Qd Qf Qw Qi Qn] E. pose proof (f_equal length E) as El.
  unfold canonical_intent in E, El. rewrite !length_app, !length_sweep_inputs, !length_le_bytes in El by done.
  do 2 (apply app_inj_1 in E as [_ E]; [|by rewrite ?length_le_bytes]).
  apply app_inj_1 in E as [E1 E]; [|congruence]. apply app_inj_1 in E as [E2 E]; [|congruence].
  apply app_inj_1 in E as [Em E]; [|by rewrite !length_le_bytes].
  apply (f_equal le_val) in Em. rewrite !le_val_le_bytes in Em.
  assert (length (sp_dest_script_pubkey p) = length (sp_dest_script_pubkey q)) as Hs.
  { eapply script_length_determined; [exact Pn|exact Qn| |exact Em]. lia. }
  apply app_inj_1 in E as [E3 E]; [|done].
  apply app_inj_1 in E as [E4%le_bytes_u64_inj E]; [|done|done|by rewrite !length_le_bytes].
  apply app_inj_1 in E as [E5%le_bytes_u64_inj E]; [|done|done|by rewrite !length_le_bytes].
  apply app_inj_1 in E as [_ E]; [|by rewrite !length_le_bytes].
  apply sweep_inputs_inj in E; [|done|done]. unfold terms. by rewrite E1, E2, E3, E4, E5, E.
Qed.

(** The canonical bytes of a sweep determine the source, the destination and its
    script, the fee, the amount and every outpoint with its amount, although the
    script's length is cast to 16 bits: with at most 10000 inputs, which the transaction
    parser enforces, the truncation can not make two different plans collide. *)
Theorem sweep_intent_is_binding protocol_version p q :
  plan_typed p -> plan_typed q ->
  canonical_intent protocol_version p = canonical_intent protocol_version q <-> terms p = terms q.
Proof.
  intros Hp Hq. split; [by apply sweep_intents_bind|]. intros [= E1 E2 E3 E4 E5 E6].
  assert (length (sp_inputs p) = length (sp_inputs q)) as El
    by (apply (f_equal length) in E6; by rewrite !length_fmap in E6).
  assert (forall l, sweep_input_bytes <$> l =
    (fun t => t.1.1 ++ le_bytes 4 t.1.2 ++ le_bytes 8 t.2) <$> ((fun u => (u_txid u, u_vout u, u_amount u)) <$> l)) as H
    by (intros l; by rewrite <- list_fmap_compose).
  unfold canonical_intent. by rewrite E1, E2, E3, E4, E5, El, !H, E6.
Qed.

(** ** The plan *)

(** A plan exists exactly when every output fits one transaction and what is
    left after the fee is worth sending; it then spends everything. *)
Lemma plan_sweep_Ok source dest utxos rate dust max_inputs p :
  plan_sweep source dest utxos rate dust max_inputs = Ok p <->
  utxos <> [] /\ sd_hash160 dest <> source /\ (length utxos <= max_inputs)%nat /\
  let fee := fee_for (Z.of_nat (length utxos)) SWEEP_OUTPUT_COUNT rate in
  fee < total utxos /\ dust <= total utxos - fee /\
  p = {| sp_source_hash160 := source; sp_dest_hash160 := sd_hash160 dest;
         sp_dest_script_pubkey := sd_script_pubkey dest; sp_dest_address := sd_address dest;
         sp_fee_atomic := fee; sp_swept_atomic := total utxos - fee; sp_inputs := utxos |}.
Proof.
  unfold plan_sweep, checked_sub. cbv zeta. repeat setoid_rewrite bind_Ok. repeat setoid_rewrite require_Ok.
  split.
  - intros ([] & H1 & [] & H2 & [] & H3 & swept & H4 & [] & H5 & [] & H6 & [= <-]). apply negb_true_iff, Z.eqb_neq in H5. bools.
    destruct (Z.leb_spec (fee_for (Z.of_nat (length utxos)) SWEEP_OUTPUT_COUNT rate) (total utxos)); [|done].
    injection H4 as <-. apply Nat.leb_le in H3. split_and!; try done; lia.
  - intros (H1 & H2 & H3 & H4 & H5 & ->). exists tt. rewrite !bool_decide_false by done. split; [done|].
    exists tt. split; [done|]. exists tt. split; [by apply Nat.leb_le|]. eexists.
    rewrite (proj2 (Z.leb_le _ _)) by lia. split; [done|]. exists tt. split; [apply negb_true_iff, Z.eqb_neq; lia|].
    exists tt. split; [by apply Z.leb_le|done].
Qed.

Lemma sweep_tx_verifies version lock_time sequence p :
  verify_sweep_tx (sweep_tx version lock_time sequence p) p = Ok tt.
Proof.
  unfold verify_sweep_tx, sweep_tx. cbn [inputs outputs]. rewrite length_fmap, Nat.eqb_refl.
  cbn [require mbind result_bind]. rewrite (proj2 (verify_sweep_inputs_Ok 0 _ _ (length_fmap _ _))).
  - cbn. by rewrite bool_decide_true, Z.eqb_refl.
  - apply Forall2_fmap_l, Forall_Forall2_diag, Forall_true. done.
Qed.
