(* ===== verification/SweepView.v ===== *)
(** * What a validator signs for a vault sweep: [relayer/src/p2p/sweep_view.rs]

    The approval file, the plan re-derived from the validator's own outputs,
    and the signing decision.  What has been signed lives in the view; the
    database is only read. *)
From Stdlib Require Import ZArith Lia Strings.Byte.
From stdpp Require Import base numbers strings gmap list sorting.
From S2P Require Import Prelude Effects Messages Hex Text DepositDb Address Rpc WithdrawalDb Builder NodeClient.
From S2P Require Import Coin Vault Assignment Multisig WithdrawalConfig PayoutView Sweep.

Definition SWEEP_APPROVAL_TTL_SECONDS : Z := 6 * 60 * 60.
Definition MAX_SWEEP_FEE_MULTIPLE : Z := 10.

(** Refusals carry the errors whose text the code carries. *)
Inductive SweepFault := UnparseableTx (e : MultisigError) | SweepPartialFault (e : MultisigError).

Inductive SweepRefusal :=
| SweepNotApproved
| DifferentSweepApproved
| SweepApprovalExpired (expiry now : Z)
| SweepAlreadySignedAnother
| SweepStoreUnreadable (reason : str)
| SweepMalformed (e : MultisigError)
| UnknownInput (index : nat) (outpoint : str)
| PlanMismatch (e : SweepError)
| FeeTooHigh (fee ceiling : Z)
| OutputExceedsInputs
| SweepSigningFailed (e : str)
| SweepMalformedPartial (e : MultisigError)
| SweepPanic.

Record SweepPartial := { swp_partial : PayoutPartial; swp_swept_atomic : Z; swp_inputs : nat }.

(** ** The approval file *)

Record SweepApproval := { sa_commitment : list byte; sa_expiry_unix : Z; sa_note : str }.

Definition to_text (a : SweepApproval) : str :=
  encode (sa_commitment a) ++ " "%byte :: display (sa_expiry_unix a) ++ " "%byte ::
  flatten (sa_note a) ++ ["010"%byte].

Definition read_sweep_approval (n : nat) (line : str) : result SweepRefusal SweepApproval :=
  let parts := splitn 3 line in
  let bad what := SweepStoreUnreadable (lit "line " ++ display (Z.of_nat n + 1) ++ lit ": " ++ what) in
  let* commitment := ok_or (parts !! 0%nat) (bad (lit "missing commitment")) in
  let* commitment :=
    map_err (fun e => match e with
                      | HexErr _ => bad (lit "commitment is not 32 hex bytes")
                      | Panicked => SweepPanic
                      end) (decode_exact 32 commitment) in
  let* expiry := ok_or (parts !! 1%nat) (bad (lit "missing expiry")) in
  let* expiry := ok_or (parse_i64 expiry) (bad (lit "expiry is not an i64")) in
  Ok {| sa_commitment := commitment; sa_expiry_unix := expiry; sa_note := default [] (parts !! 2%nat) |}.

Definition read_sweep_line (found : option SweepApproval) (nl : nat * str)
  : result SweepRefusal (option SweepApproval) :=
  let line := trim nl.2 in
  if is_comment line then Ok found
  else let* a := read_sweep_approval nl.1 line in Ok (Some a).

(** The last approval of the file. *)
Definition from_text (text : str) : result SweepRefusal (option SweepApproval) :=
  foldM read_sweep_line None (imap pair (lines text)).

Definition load (file : FileRead) : result SweepRefusal (option SweepApproval) :=
  match file with
  | FileText text => from_text text
  | FileNotFound => Ok None
  | FileUnreadable e => Err (SweepStoreUnreadable e)
  end.

(** ** The view *)

Record SweepView := {
  sv_config : WithdrawalConfig; sv_vault : MultisigVault; sv_vault_signer_index : byte
}.

(** [SweepView::new]; [None] is the refusal to start. *)
Definition new (config : WithdrawalConfig) (vault_signer_index : byte) : option SweepView :=
  if (signer_count (vault config) <=? Z.to_nat (byte_to_Z vault_signer_index))%nat then None
  else Some {| sv_config := config; sv_vault := vault config; sv_vault_signer_index := vault_signer_index |}.

Definition vault_pubkey (V : SweepView) : pubkey :=
  default [] (signer_pubkeys (sv_vault V) !! Z.to_nat (byte_to_Z (sv_vault_signer_index V))).

(** The hash a P2SH or P2PKH script pays, zeroes for any other. *)
Definition dest_hash160_of (script : list byte) : list byte :=
  if bool_decide (length script = 23%nat /\ script !! 0%nat = Some xa9 /\ script !! 1%nat = Some x14 /\
                  script !! 22%nat = Some x87)
  then take 20 (drop 2 script)
  else if bool_decide (length script = 25%nat /\ script !! 0%nat = Some x76 /\ script !! 1%nat = Some xa9 /\
                       script !! 2%nat = Some x14 /\ script !! 23%nat = Some x88 /\ script !! 24%nat = Some xac)
  then take 20 (drop 3 script)
  else replicate 20 x00.

(** [as u32] *)
Definition as_u32 (z : Z) : Z := z mod 2 ^ 32.

Definition is_input (i : TxInput) (u : VaultUtxo) : Prop :=
  internal_txid (u_txid u) = prev_txid i /\ as_u32 (u_vout u) = prev_vout i.
#[export] Instance is_input_dec i u : Decision (is_input i u).
Proof. unfold is_input. apply _. Defined.

(** One turn of the input loop. *)
Definition own_input (available : list VaultUtxo) (index : nat) (i : TxInput)
  : result SweepRefusal VaultUtxo :=
  ok_or (snd <$> list_find (is_input i) available)
    (UnknownInput index (encode (internal_txid (prev_txid i)) ++ lit ":" ++ display (prev_vout i))).

Fixpoint own_inputs (available : list VaultUtxo) (index : nat) (l : list TxInput)
  : result SweepRefusal (list VaultUtxo) :=
  match l with
  | [] => Ok []
  | i :: l =>
      let* u := own_input available index i in
      let* us := own_inputs available (S index) l in
      Ok (u :: us)
  end.

Definition fee_ceiling (V : SweepView) (inputs : list VaultUtxo) : Z :=
  saturating_mul
    (fee_for (Z.of_nat (length inputs)) SWEEP_OUTPUT_COUNT (fee_rate_per_kb (sv_config V)))
    MAX_SWEEP_FEE_MULTIPLE.

Definition plan_from_local_view (V : SweepView) (d : Tables) (tx : Transaction)
  : result SweepRefusal SweepPlan :=
  let available := available_utxos (vault_min_confirmations (sv_config V)) d in
  let* inputs := own_inputs available 0 (Multisig.inputs tx) in
  match outputs tx with
  | [out] =>
      let* fee := ok_or (checked_sub (total inputs) (value out)) OutputExceedsInputs in
      let ceiling := fee_ceiling V inputs in
      require (fee <=? ceiling) (FeeTooHigh fee ceiling) ;;*
      Ok {| sp_source_hash160 := script_hash160 (sv_vault V);
            sp_dest_hash160 := dest_hash160_of (script_pubkey out);
            sp_dest_script_pubkey := script_pubkey out; sp_dest_address := [];
            sp_fee_atomic := fee; sp_swept_atomic := value out; sp_inputs := inputs |}
  | outs => Err (PlanMismatch (NotSingleOutput (length outs)))
  end.

Section view.
Context `{Sh : Sha2} {outside : Type} `{N : !PartialSigner outside}.

(** The signer's node, and [SweepView::signed]. *)
Record World := { w_outside : outside; w_signed : option (list byte) }.
Abbreviation M := (SE World SweepRefusal).

(** Gate 2 and gate 1: nothing is written before both passed. *)
Definition approved_sweep (V : SweepView) (d : Tables) (file : FileRead) (unsigned_tx_hex : str)
    (protocol_version now_unix : Z) : result SweepRefusal (SweepPlan * list byte) :=
  let* tx := map_err SweepMalformed (parse_hex unsigned_tx_hex) in
  let* plan := plan_from_local_view V d tx in
  map_err PlanMismatch (verify_sweep_tx tx plan) ;;*
  let commitment := commitment protocol_version plan in
  let* approval := load file in
  let* approval := ok_or approval SweepNotApproved in
  require (bool_decide (sa_commitment approval = commitment)) DifferentSweepApproved ;;*
  require (now_unix <=? sa_expiry_unix approval) (SweepApprovalExpired (sa_expiry_unix approval) now_unix) ;;*
  Ok (plan, commitment).

(** The equivocation guard. *)
Definition commit_to (commitment : list byte) : M unit := fun w =>
  match w_signed w with
  | Some prev => (w, if bool_decide (prev = commitment) then Ok tt else Err SweepAlreadySignedAnother)
  | None => ({| w_outside := w_outside w; w_signed := Some commitment |}, Ok tt)
  end.

Definition sweep_prevtx (V : SweepView) (u : VaultUtxo) : PrevTx :=
  {| pt_txid := u_txid_hex u; pt_vout := u_vout u; pt_script_pub_key := u_script u;
     pt_redeem_script := redeem_script_hex (sv_vault V) |}.

Definition node_partial (unsigned_tx_hex : str) (prevtxs : list PrevTx) : M str := fun w =>
  let (o, r) := sign_partial unsigned_tx_hex prevtxs (w_outside w) in
  ({| w_outside := o; w_signed := w_signed w |}, map_err SweepSigningFailed r).

(** The last part: this signer's own node. *)
Definition produce_sweep (V : SweepView) (plan : SweepPlan) (unsigned_tx_hex : str) : M SweepPartial :=
  partial_hex ← node_partial unsigned_tx_hex (sweep_prevtx V <$> sp_inputs plan);
  partial ← lift (map_err SweepMalformedPartial (parse_hex partial_hex));
  signatures ← lift (map_err SweepMalformedPartial
                       (extract_signatures partial (redeem_script (sv_vault V))));
  mret {| swp_partial := {| pp_vault_pubkey := vault_pubkey V; pp_signatures := signatures |};
          swp_swept_atomic := sp_swept_atomic plan; swp_inputs := length (sp_inputs plan) |}.

Definition sign_sweep (V : SweepView) (d : Tables) (file : FileRead) (unsigned_tx_hex : str)
    (protocol_version now_unix : Z) : M SweepPartial :=
  approved ← lift (approved_sweep V d file unsigned_tx_hex protocol_version now_unix);
  _ ← commit_to approved.2;
  produce_sweep V approved.1 unsigned_tx_hex.
End view.
