(* ===== verification/SweepViewProps.v ===== *)
(** * The sweep signer: theorems

    A signature implies the operator's approval of exactly that transaction
    over outputs the validator itself holds; the operator's plan and the
    signer's reconstruction have one commitment; one view signs one sweep.  Concrete sweeps at the end. *)
From Stdlib Require Import ZArith Lia Strings.Byte.
From stdpp Require Import base numbers strings gmap list sorting.
From S2P Require Import Prelude Effects Messages Hex Text DepositDb Address Rpc WithdrawalDb.
From S2P Require Import Builder.
From S2P Require Import NodeClient Coin Vault Assignment Multisig WithdrawalConfig Executor.
From S2P Require Import ExecutorScenario.
From S2P Require Import PayoutView PayoutScenario Sweep SweepView.

(** ** The validator's own outputs *)

(** The outputs' positions are [u32]s, as the node reports them. *)
Definition outpoints_fit (d : Tables) : Prop := map_Forall (fun k _ => in_u32 k.2) (vault_utxos d).

Lemma elem_of_available m d u :
  u ∈ available_utxos m d <->
  exists k r, vault_utxos d !! k = Some r /\ r_state r = Available /\ m <= r_confirmations r /\
              u = row_to_utxo k r.
Proof.
  unfold available_utxos. rewrite merge_sort_Permutation. rewrite list_elem_of_fmap. split.
  - intros ([k r] & -> & [[Ha Hm] Hk%elem_of_map_to_list]%list_elem_of_filter). by exists k, r.
  - intros (k & r & Hk & Ha & Hm & ->). exists (k, r). split; [done|].
    apply list_elem_of_filter. split; [done|]. by apply elem_of_map_to_list.
Qed.

Lemma is_input_unique m d i u v :
  outpoints_fit d -> u ∈ available_utxos m d -> v ∈ available_utxos m d ->
  is_input i u -> is_input i v -> u = v.
Proof.
  intros Hd (k & r & Hk & _ & _ & ->)%elem_of_available (k' & r' & Hk' & _ & _ & ->)%elem_of_available.
  unfold is_input, internal_txid, as_u32. cbn [u_txid u_vout row_to_utxo]. intros [H1 H2] [H3 H4].
  pose proof (Hd _ _ Hk) as Hv. pose proof (Hd _ _ Hk') as Hv'. cbn in Hv, Hv'. unfold in_u32, U32_MAX in *.
  rewrite Z.mod_small in H2, H4 by lia.
  assert (k = k') as <-; [|congruence]. destruct k, k'; cbn in *. f_equal; [|congruence].
  rewrite <- (rev_involutive l), <- (rev_involutive l0). congruence.
Qed.

Lemma find_input m d i u :
  outpoints_fit d -> u ∈ available_utxos m d -> is_input i u ->
  exists n, list_find (is_input i) (available_utxos m d) = Some (n, u).
Proof.
  intros Hd Hu Hi. destruct (list_find (is_input i) _) as [[n v]|] eqn:E.
  - apply list_find_Some in E as (Hn & Hv & _). exists n.
    by rewrite (is_input_unique m d i u v) by eauto using list_elem_of_lookup_2.
  - apply list_find_None in E. rewrite Forall_forall in E. by destruct (E u).
Qed.

Lemma own_inputs_Ok avail k l us :
  own_inputs avail k l = Ok us <->
  Forall2 (fun i u => snd <$> list_find (is_input i) avail = Some u) l us.
Proof.
  revert k us. induction l as [|i l IH]; intros k us; cbn [own_inputs].
  - split; [intros [= <-]; constructor|]. by intros ->%Forall2_nil_inv_l.
  - rewrite bind_Ok. setoid_rewrite bind_Ok. setoid_rewrite IH. unfold own_input. split.
    + intros (u & Hu & us' & Hus & [= <-]). constructor; [|done].
      destruct (snd <$> list_find _ _); [by injection Hu as ->|done].
    + intros H. apply Forall2_cons_inv_l in H as (u & us' & Hu & Hus & ->).
      exists u. rewrite Hu. split; [done|]. by exists us'.
Qed.

(** Every input is an available output of the view, and the first such. *)
Lemma own_inputs_available avail k l us :
  own_inputs avail k l = Ok us -> Forall2 (fun i u => u ∈ avail /\ is_input i u) l us.
Proof.
  intros H%own_inputs_Ok. eapply Forall2_impl; [exact H|]. intros i u ([n v] & Hf & ->)%fmap_Some.
  apply list_find_Some in Hf as (Hn & Hv & _). split; [by eapply list_elem_of_lookup_2|done].
Qed.

Lemma own_inputs_of m d k l us :
  outpoints_fit d -> Forall2 (fun i u => u ∈ available_utxos m d /\ is_input i u) l us ->
  own_inputs (available_utxos m d) k l = Ok us.
Proof.
  intros Hd H. apply own_inputs_Ok. eapply Forall2_impl; [exact H|]. intros i u [Hu Hi]. cbn.
  destruct (find_input m d i u Hd Hu Hi) as [n ->]. done.
Qed.

(** ** The reconstructed plan *)

Lemma plan_from_local_view_Ok V d tx p :
  plan_from_local_view V d tx = Ok p <->
  exists inputs out,
    own_inputs (available_utxos (vault_min_confirmations (sv_config V)) d) 0 (Multisig.inputs tx) = Ok inputs /\
    outputs tx = [out] /\ value out <= total inputs /\ total inputs - value out <= fee_ceiling V inputs /\
    p = {| sp_source_hash160 := script_hash160 (sv_vault V);
           sp_dest_hash160 := dest_hash160_of (script_pubkey out);
           sp_dest_script_pubkey := script_pubkey out; sp_dest_address := [];
           sp_fee_atomic := total inputs - value out; sp_swept_atomic := value out; sp_inputs := inputs |}.
Proof.
  unfold plan_from_local_view, checked_sub. cbv zeta. rewrite bind_Ok. split.
  - intros (inputs & Hi & H). destruct (outputs tx) as [|out [|? ?]]; try discriminate H.
    exists inputs, out. destruct (Z.leb_spec (value out) (total inputs)); [|discriminate H].
    cbn [ok_or mbind result_bind] in H. apply bind_Ok in H as ([] & Hf%require_Ok & [= <-]). bools. done.
  - intros (inputs & out & Hi & -> & Hv & Hf & ->). exists inputs. split; [done|].
    rewrite (proj2 (Z.leb_le _ _)) by done. cbn [ok_or mbind result_bind].
    by rewrite (proj2 (Z.leb_le _ _)) by done.
Qed.

(** Gates 1 and 2 opened for [tx] under [plan]. *)
Record sweep_granted `{Sh : Sha2} (V : SweepView) (d : Tables) (file : FileRead) (protocol_version now : Z)
    (tx : Transaction) (plan : SweepPlan) : Prop := {
  sg_inputs : Forall2 (fun i u => u ∈ available_utxos (vault_min_confirmations (sv_config V)) d /\
                                  is_input i u /\ script_sig i = []) (inputs tx) (sp_inputs plan);
  sg_output : exists out, outputs tx = [out] /\ script_pubkey out = sp_dest_script_pubkey plan /\
                          value out = sp_swept_atomic plan;
  sg_source : sp_source_hash160 plan = script_hash160 (sv_vault V);
  sg_dest : sp_dest_hash160 plan = dest_hash160_of (sp_dest_script_pubkey plan);
  sg_value : sp_swept_atomic plan + sp_fee_atomic plan = total (sp_inputs plan);
  sg_fee : 0 <= sp_fee_atomic plan <= fee_ceiling V (sp_inputs plan);
  sg_approval : exists a, load file = Ok (Some a) /\ sa_commitment a = commitment protocol_version plan /\
                          now <= sa_expiry_unix a
}.

Lemma approved_sweep_Ok `{Sh : Sha2} V d file hex protocol_version now plan c :
  approved_sweep V d file hex protocol_version now = Ok (plan, c) ->
  c = commitment protocol_version plan /\
  exists tx, parse_hex hex = Ok tx /\ plan_from_local_view V d tx = Ok plan /\
             sweep_granted V d file protocol_version now tx plan.
Proof.
  unfold approved_sweep. intros (tx & Htx & H)%bind_Ok. apply bind_Ok in H as (plan' & Hp & H).
  apply bind_Ok in H as ([] & Hv & H). apply bind_Ok in H as (oa & Hl & H). apply bind_Ok in H as (a & Ha & H).
  apply bind_Ok in H as ([] & Hc%require_Ok & H). apply bind_Ok in H as ([] & Hn%require_Ok & [= -> <-]).
  assert (verify_sweep_tx tx plan = Ok tt) as Hver by (destruct (verify_sweep_tx tx plan) as [[]|]; [done|discriminate Hv]).
  assert (parse_hex hex = Ok tx) as Hparse by (destruct (parse_hex hex); [by injection Htx as ->|discriminate Htx]).
  apply verify_sweep_tx_spec in Hver as [Hin Hout].
  split; [done|]. exists tx. split_and!; [done|done|].
  apply plan_from_local_view_Ok in Hp as (us & out & Hus & Houts & Hle & Hfee & ->).
  apply own_inputs_available in Hus. destruct oa as [a'|]; [|discriminate Ha]. injection Ha as ->. bools.
  constructor; cbn in *; [|exact Hout|done|done|lia|lia|by exists a].
  clear -Hus Hin. induction Hus as [|i u l us [Hu Hi] _ IH]; [constructor|].
  apply Forall2_cons in Hin as [[Hs _] Hin]. constructor; [done|by apply IH].
Qed.

(** ** Whatever is signed was approved *)

Section signing.
Context `{Sh : Sha2} {outside : Type} `{N : !PartialSigner outside}.
Implicit Types (w : World (outside := outside)).

Lemma produce_sweep_keeps V plan hex w :
  w_signed (produce_sweep V plan hex w).1 = w_signed w /\
  forall s, (produce_sweep V plan hex w).2 = Ok s ->
    swp_swept_atomic s = sp_swept_atomic plan /\ swp_inputs s = length (sp_inputs plan).
Proof.
  unfold produce_sweep, node_partial, lift, mbind, SE_bind.
  destruct (sign_partial _ _ _) as [o [x|e]]; cbn; [|done].
  destruct (parse_hex x); cbn; [|done]. destruct (extract_signatures _ _); cbn; [|done].
  split; [done|]. by intros s [= <-].
Qed.

Lemma sign_sweep_grants (V : SweepView) d file hex protocol_version now w w' r :
  sign_sweep V d file hex protocol_version now w = (w', r) ->
  (w' = w /\ exists e, r = Err e) \/
  exists tx plan,
    parse_hex hex = Ok tx /\ sweep_granted V d file protocol_version now tx plan /\
    (w_signed w = None \/ w_signed w = Some (commitment protocol_version plan)) /\
    w_signed w' = Some (commitment protocol_version plan) /\
    forall s, r = Ok s ->
      swp_swept_atomic s + sp_fee_atomic plan = total (sp_inputs plan) /\ swp_inputs s = length (inputs tx).
Proof.
  unfold sign_sweep. destruct (approved_sweep V d file hex protocol_version now) as [[plan c]|e] eqn:E.
  2: { intros [= <- <-]. left. eauto. }
  apply approved_sweep_Ok in E as (-> & tx & Hp & _ & Hg). set (c := commitment protocol_version plan).
  pose proof (sg_value _ _ _ _ _ _ _ Hg) as Hv. pose proof (Forall2_length _ _ _ (sg_inputs _ _ _ _ _ _ _ Hg)) as Hl.
  rewrite (SE_bind_step _ _ w w (plan, c)) by done. cbn [fst snd].
  assert (forall w0, w_signed w0 = Some c -> (w_signed w = None \/ w_signed w = Some c) ->
    produce_sweep V plan hex w0 = (w', r) -> exists tx plan, parse_hex hex = Ok tx /\
    sweep_granted V d file protocol_version now tx plan /\
    (w_signed w = None \/ w_signed w = Some (commitment protocol_version plan)) /\
    w_signed w' = Some (commitment protocol_version plan) /\
    forall s, r = Ok s ->
      swp_swept_atomic s + sp_fee_atomic plan = total (sp_inputs plan) /\ swp_inputs s = length (inputs tx)) as Hgo.
  { intros w0 H0 Hw H. destruct (produce_sweep_keeps V plan hex w0) as [Hk Hs]. rewrite H in Hk, Hs. cbn in *.
    exists tx, plan. split_and!; [done|done|done|by rewrite Hk|].
    intros s ->. destruct (Hs s eq_refl) as [-> ->]. split; [lia|by symmetry]. }
  destruct (w_signed w) as [prev|] eqn:Ew.
  - destruct (decide (prev = c)) as [->|Hne].
    + rewrite (SE_bind_step _ _ w w tt); [|by unfold commit_to; rewrite Ew, bool_decide_true].
      intros H. right. apply (Hgo w); auto.
    + rewrite (SE_bind_stop _ _ w w SweepAlreadySignedAnother);
        [|by unfold commit_to; rewrite Ew, bool_decide_false]. intros [= <- <-]. left. eauto.
  - rewrite (SE_bind_step _ _ w {| w_outside := w_outside w; w_signed := Some c |} tt);
      [|by unfold commit_to; rewrite Ew]. intros H. right. eapply Hgo; [|by left|exact H]. done.
Qed.

(** A request as it meets the validator's database, approval file and clock. *)
Record SweepRequest := { rq_db : Tables; rq_file : FileRead; rq_hex : str; rq_now : Z }.

(** The requests a view serves, in order. *)
Fixpoint serve (V : SweepView) (protocol_version : Z) (l : list SweepRequest) w
  : World (outside := outside) * list (result SweepRefusal SweepPartial) :=
  match l with
  | [] => (w, [])
  | q :: l =>
      let (w, r) := sign_sweep V (rq_db q) (rq_file q) (rq_hex q) protocol_version (rq_now q) w in
      let (w, rs) := serve V protocol_version l w in
      (w, r :: rs)
  end.

Lemma serve_keeps V protocol_version l w c :
  w_signed w = Some c -> w_signed (serve V protocol_version l w).1 = Some c.
Proof.
  revert w. induction l as [|q l IH]; intros w Hw; [done|]. cbn [serve].
  destruct (sign_sweep _ _ _ _ _ _ w) as [w1 r] eqn:E. specialize (IH w1).
  destruct (serve V protocol_version l w1) as [w2 rs]. apply IH.
  apply sign_sweep_grants in E as [[-> _]|(tx & plan & _ & _ & [Hn|Hs] & -> & _)]; congruence.
Qed.

Lemma serve_grants V protocol_version l w i q s :
  l !! i = Some q -> (serve V protocol_version l w).2 !! i = Some (Ok s) ->
  exists tx plan,
    parse_hex (rq_hex q) = Ok tx /\
    sweep_granted V (rq_db q) (rq_file q) protocol_version (rq_now q) tx plan /\
    w_signed (serve V protocol_version l w).1 = Some (commitment protocol_version plan) /\
    swp_swept_atomic s + sp_fee_atomic plan = total (sp_inputs plan).
Proof.
  revert w i. induction l as [|q' l IH]; intros w i Hq Hs; [done|]. cbn [serve] in *.
  destruct (sign_sweep _ _ _ _ _ _ w) as [w1 r] eqn:E. specialize (IH w1).
  pose proof (serve_keeps V protocol_version l w1) as Hk.
  destruct (serve V protocol_version l w1) as [w2 rs]. cbn [fst snd] in *.
  destruct i as [|i]; [|by eapply IH]. injection Hq as ->. injection Hs as ->.
  apply sign_sweep_grants in E as [[_ [? [=]]]|(tx & plan & Hp & Hg & _ & Hw & Ho)].
  destruct (Ho s eq_refl) as [Hv _]. exists tx, plan. eauto.
Qed.

(** ** What is known of the tables and the vault *)

Definition outputs_typed (d : Tables) : Prop :=
  map_Forall (fun k r => length k.1 = 32%nat /\ in_u32 k.2 /\ in_u64 (r_amount r)) (vault_utxos d).

Lemma length_dest_hash160_of script : length (dest_hash160_of script) = 20%nat.
Proof.
  unfold dest_hash160_of. repeat case_bool_decide; rewrite ?length_take, ?length_drop, ?length_replicate; lia.
Qed.

Lemma available_typed m d u :
  outputs_typed d -> u ∈ available_utxos m d -> input_typed u.
Proof.
  intros Hd (k & r & Hk & _ & _ & ->)%elem_of_available. destruct (Hd _ _ Hk) as (H1 & H2 & H3). by constructor.
Qed.

Lemma outputs_typed_fit d : outputs_typed d -> outpoints_fit d.
Proof. intros Hd k r Hk. by destruct (Hd _ _ Hk) as (_ & ? & _). Qed.

Lemma total_in_u64 l : 0 <= total l < 2 ^ 64.
Proof. apply Z.mod_pos_bound. lia. Qed.

Lemma granted_plan_typed V d file protocol_version now hex tx plan :
  outputs_typed d -> length (script_hash160 (sv_vault V)) = 20%nat ->
  parse_hex hex = Ok tx -> sweep_granted V d file protocol_version now tx plan -> plan_typed plan.
Proof.
  intros Hd Hv Hp Hg. unfold parse_hex in Hp. apply bind_Ok in Hp as (raw & _ & [_ _ Hc _ _ Ho]%parse_wf).
  destruct Hg as [Hin (out & Hout & _ & Hval) Hs Hh Hv2 Hf _].
  pose proof (Forall2_length _ _ _ Hin). pose proof (total_in_u64 (sp_inputs plan)).
  rewrite Hout in Ho. apply Forall_cons in Ho as [[Hu _] _]. unfold in_u64, U64_MAX in *.
  constructor; [by rewrite Hs|by rewrite Hh, length_dest_hash160_of|unfold in_u64, U64_MAX; lia
    |unfold in_u64, U64_MAX; lia| |lia].
  apply Forall_forall. intros u Hin'. apply list_elem_of_lookup in Hin' as [i Hi].
  destruct (Forall2_lookup_r _ _ _ _ _ Hin Hi) as (x & _ & Hu' & _). by eapply available_typed.
Qed.

(** What a transaction moves. *)
Definition moves (tx : Transaction) : list (list byte * Z) * list TxOutput :=
  ((fun i => (prev_txid i, prev_vout i)) <$> inputs tx, outputs tx).

Lemma granted_moves V d file protocol_version now V' d' file' now' tx tx' plan plan' :
  sweep_granted V d file protocol_version now tx plan ->
  sweep_granted V' d' file' protocol_version now' tx' plan' ->
  terms plan = terms plan' -> moves tx = moves tx'.
Proof.
  intros [Hi (out & Ho & Hs & Hv) _ _ _ _ _] [Hi' (out' & Ho' & Hs' & Hv') _ _ _ _ _] [= _ _ E1 _ E2 E3].
  unfold moves. f_equal; [|rewrite Ho, Ho'; destruct out, out'; cbn in *; congruence].
  revert E3 Hi'. generalize (sp_inputs plan') as us'. generalize (inputs tx') as is'. clear -Hi.
  induction Hi as [|i u ins us (_ & [Ht Hn] & _) _ IH]; intros is' us' E H'.
  - destruct us'; [|done]. by apply Forall2_nil_inv_r in H' as ->.
  - destruct us' as [|u' us']; [done|]. apply Forall2_cons_inv_r in H' as (i' & is1 & (_ & [Ht' Hn'] & _) & H' & ->).
    injection E as E1 E2 _ E. cbn [fmap list_fmap]. f_equal; [congruence|]. by eapply IH.
Qed.

(** C29: Along any sequence of sweep requests to one view, over whatever tables and
    approval files it finds, every transaction it signs spends only available outputs of
    its own tables into a single output, with the fee within the ceiling and under the
    commitment its operator staged; and any two of them spend the same outpoints into
    the same outputs, unless two different plan encodings with one SHA-256 are at hand.
    *)
Theorem one_sweep_is_signed (V : SweepView) protocol_version l w w' rs i j q q' s s' :
  length (script_hash160 (sv_vault V)) = 20%nat -> Forall (fun q => outputs_typed (rq_db q)) l ->
  serve V protocol_version l w = (w', rs) ->
  l !! i = Some q -> rs !! i = Some (Ok s) -> l !! j = Some q' -> rs !! j = Some (Ok s') ->
  exists tx tx' plan plan',
    parse_hex (rq_hex q) = Ok tx /\ parse_hex (rq_hex q') = Ok tx' /\
    sweep_granted V (rq_db q) (rq_file q) protocol_version (rq_now q) tx plan /\
    sweep_granted V (rq_db q') (rq_file q') protocol_version (rq_now q') tx' plan' /\
    (moves tx = moves tx' \/
     canonical_intent protocol_version plan <> canonical_intent protocol_version plan' /\
     sha256 (canonical_intent protocol_version plan) = sha256 (canonical_intent protocol_version plan')).
Proof.
  intros Hv Hd Hrun Hq Hs Hq' Hs'. rewrite Forall_forall in Hd.
  assert (rs = (serve V protocol_version l w).2) as E by (by rewrite Hrun). rewrite E in Hs, Hs'.
  destruct (serve_grants _ _ _ _ _ _ _ Hq Hs) as (tx & plan & Hp & Hg & Hc & _).
  destruct (serve_grants _ _ _ _ _ _ _ Hq' Hs') as (tx' & plan' & Hp' & Hg' & Hc' & _).
  exists tx, tx', plan, plan'. split_and!; try done. rewrite Hc in Hc'. injection Hc' as Hc'.
  destruct (decide (canonical_intent protocol_version plan = canonical_intent protocol_version plan')) as [He|He];
    [|by right].
  left. eapply granted_moves; [exact Hg|exact Hg'|].
  apply list_elem_of_lookup_2 in Hq, Hq'.
  apply (sweep_intents_bind protocol_version); [| |exact He].
  - by apply (granted_plan_typed V (rq_db q) (rq_file q) protocol_version (rq_now q) (rq_hex q) tx); auto.
  - by apply (granted_plan_typed V (rq_db q') (rq_file q') protocol_version (rq_now q') (rq_hex q') tx'); auto.
Qed.
End signing.

(** ** The staged approval reads back *)

Lemma sweep_line_back c x note :
  trim (strip_cr (encode c ++ " "%byte :: display x ++ " "%byte :: note)) =
  encode c ++ " "%byte :: display x ++ spaced (trim_end note) \/ c = [].
Proof.
  destruct c as [|b0 c0] eqn:Ec; [by right|left]. rewrite <- Ec.
  destruct (display_word x) as [Wx Nx]. destruct (exists_last Nx) as (y & b & Ey). rewrite Ey in *.
  assert (is_word b = true) as Hb by (apply (word_elem _ _ Wx), elem_of_app; right; left).
  pose proof (trim_line (encode c) b y note Hb (hex_word c)) as H.
  repeat (rewrite <- app_assoc in *; cbn [app] in *). apply H.
  intros E%(f_equal length). rewrite length_encode, Ec in E. cbn in E. lia.
Qed.

Lemma sweep_approval_reads_back a :
  length (sa_commitment a) = 32%nat -> I64_MIN <= sa_expiry_unix a <= I64_MAX ->
  SweepView.from_text (SweepView.to_text a) =
  Ok (Some {| sa_commitment := sa_commitment a; sa_expiry_unix := sa_expiry_unix a;
              sa_note := trim_end (flatten (sa_note a)) |}).
Proof.
  intros Hc Hx. unfold SweepView.from_text, SweepView.to_text.
  set (line := encode (sa_commitment a) ++ " "%byte :: display (sa_expiry_unix a) ++ " "%byte :: flatten (sa_note a)).
  assert (lines (encode (sa_commitment a) ++ " "%byte :: display (sa_expiry_unix a) ++ " "%byte ::
            flatten (sa_note a) ++ ["010"%byte]) = [strip_cr line]) as ->.
  { pose proof (lines_concat [line]) as H. cbn [fmap list_fmap concat] in H. rewrite app_nil_r in H.
    rewrite <- H.
    - unfold line. by repeat (rewrite <- app_assoc; cbn [app]).
    - constructor; [|constructor]. unfold line.
      destruct (word_no_space _ (proj1 (display_word (sa_expiry_unix a)))) as [_ Wx].
      destruct (word_no_space _ (hex_word (sa_commitment a))) as [_ Wc].
      repeat (rewrite not_elem_of_app || rewrite not_elem_of_cons). split_and!; try done. apply flatten_no_newline. }
  cbn [imap foldM]. unfold read_sweep_line. cbn [snd fst]. unfold line.
  destruct (sweep_line_back (sa_commitment a) (sa_expiry_unix a) (flatten (sa_note a))) as [->|E]; [|by rewrite E in Hc].
  destruct (display_word (sa_expiry_unix a)) as [Wx _]. pose proof (hex_word (sa_commitment a)) as Wc.
  assert (is_comment (encode (sa_commitment a) ++ " "%byte :: display (sa_expiry_unix a) ++
            spaced (trim_end (flatten (sa_note a)))) = false) as ->.
  { pose proof (encode_lower (sa_commitment a)) as Hl. pose proof (length_encode (sa_commitment a)) as Hn.
    destruct (encode (sa_commitment a)) as [|b e]; [rewrite Hc in Hn; done|]. cbn.
    apply Forall_cons in Hl as [Hl _]. apply bool_decide_false. by intros ->. }
  unfold read_sweep_approval. cbv zeta. rewrite splitn_word by done.
  assert (splitn 2 (display (sa_expiry_unix a) ++ spaced (trim_end (flatten (sa_note a)))) =
          display (sa_expiry_unix a) :: match trim_end (flatten (sa_note a)) with [] => [] | b :: t => [b :: t] end) as ->.
  { destruct (trim_end (flatten (sa_note a))) as [|b t]; cbn [spaced].
    - rewrite app_nil_r. cbn [splitn]. by rewrite split_space_none by apply (word_no_space _ Wx).
    - by rewrite splitn_word. }
  cbn [lookup list_lookup ok_or mbind result_bind]. rewrite decode_exact_encode by done.
  cbn [map_err mbind result_bind ok_or]. rewrite parse_display_i64 by done. cbn.
  by destruct (trim_end (flatten (sa_note a))).
Qed.

(** ** The operator's plan and the signer's reconstruction *)

Lemma dest_hash160_of_p2sh h : length h = 20%nat -> dest_hash160_of (p2sh_script_pubkey h) = h.
Proof.
  intros Hh. unfold dest_hash160_of, p2sh_script_pubkey. rewrite bool_decide_true.
  - cbn [app drop]. rewrite drop_0. by rewrite <- Hh, take_app_length.
  - assert ((h ++ [x87]) !! 20%nat = Some x87) as E by (rewrite lookup_app_r by lia; by rewrite Hh).
    rewrite !length_app, Hh. by split_and!.
Qed.

Lemma sweep_tx_wf ver lock sequence p :
  - 2 ^ 31 <= ver < 2 ^ 31 -> in_u32 lock -> in_u32 sequence -> plan_typed p -> sp_inputs p <> [] ->
  wf_script (sp_dest_script_pubkey p) -> tx_wf (sweep_tx ver lock sequence p).
Proof.
  intros Hv Hl Hs [_ _ _ Hw Hi Hn] Hne Hd.
  constructor; cbn [sweep_tx version lock_time inputs outputs]; [done|done| | | |].
  - rewrite length_fmap. destruct (sp_inputs p); [done|]. cbn [length] in *. lia.
  - cbn. lia.
  - apply Forall_fmap. eapply Forall_impl; [exact Hi|]. intros u [Ht Hu _].
    constructor; cbn; [by unfold internal_txid; rewrite length_rev| |done|done].
    unfold in_u32, U32_MAX, as_u64 in *. rewrite Z.mod_small; lia.
  - constructor; [by constructor|constructor].
Qed.

Lemma parse_hex_serialize t : tx_wf t -> parse_hex (serialize_hex t) = Ok t.
Proof.
  intros Hw. unfold parse_hex, serialize_hex. destruct (decode_encode (serialize t)) as [-> _].
  cbn [map_err mbind result_bind]. rewrite <- (app_nil_r (serialize t)). by apply parse_serialize.
Qed.

Lemma fee_within_ceiling V us :
  0 <= fee_rate_per_kb (sv_config V) -> Z.of_nat (length us) <= 10000 ->
  fee_for (Z.of_nat (length us)) SWEEP_OUTPUT_COUNT (fee_rate_per_kb (sv_config V)) <= U64_MAX ->
  fee_for (Z.of_nat (length us)) SWEEP_OUTPUT_COUNT (fee_rate_per_kb (sv_config V)) <= fee_ceiling V us.
Proof.
  intros Hr Hn Hu. unfold fee_ceiling, saturating_mul, MAX_SWEEP_FEE_MULTIPLE.
  pose proof (fee_for_nonneg (Z.of_nat (length us)) SWEEP_OUTPUT_COUNT (fee_rate_per_kb (sv_config V))) as H.
  assert (0 <= fee_for (Z.of_nat (length us)) SWEEP_OUTPUT_COUNT (fee_rate_per_kb (sv_config V)))
    by (apply H; [unfold shape, SWEEP_OUTPUT_COUNT; lia|done]). lia.
Qed.

(** The plan without its label, which the signer does not see. *)
Definition unlabelled (p : SweepPlan) : SweepPlan :=
  {| sp_source_hash160 := sp_source_hash160 p; sp_dest_hash160 := sp_dest_hash160 p;
     sp_dest_script_pubkey := sp_dest_script_pubkey p; sp_dest_address := [];
     sp_fee_atomic := sp_fee_atomic p; sp_swept_atomic := sp_swept_atomic p; sp_inputs := sp_inputs p |}.

(** The operator's plan of some of the validator's outputs, as the command
    line makes it. *)
Record planned (V : SweepView) (d : Tables) (h : list byte) (addr : str) (utxos : list VaultUtxo)
    (dust : Z) (max_inputs : nat) (p : SweepPlan) : Prop := {
  pl_hash : length h = 20%nat;
  pl_vault : length (script_hash160 (sv_vault V)) = 20%nat;
  pl_rate : 0 <= fee_rate_per_kb (sv_config V);
  pl_tables : outputs_typed d;
  pl_own : Forall (fun u => u ∈ available_utxos (vault_min_confirmations (sv_config V)) d) utxos;
  pl_max : Z.of_nat max_inputs <= 10000;
  pl_plan : plan_sweep (script_hash160 (sv_vault V)) (p2sh h addr) utxos (fee_rate_per_kb (sv_config V))
              dust max_inputs = Ok p
}.

Lemma planned_typed V d h addr utxos dust max_inputs p :
  planned V d h addr utxos dust max_inputs p ->
  plan_typed p /\ sp_inputs p <> [] /\ wf_script (sp_dest_script_pubkey p).
Proof.
  intros [Hh Hv Hr Hd Ho Hm (Hne & Hsrc & Hlen & Hfee & Hdust & ->)%plan_sweep_Ok].
  pose proof (total_in_u64 utxos).
  assert (0 <= fee_for (Z.of_nat (length utxos)) SWEEP_OUTPUT_COUNT (fee_rate_per_kb (sv_config V)))
    by (apply fee_for_nonneg; [unfold shape, SWEEP_OUTPUT_COUNT; lia|done]).
  split_and!; cbn.
  - assert (forall z, 0 <= z < 2 ^ 64 -> in_u64 z) as Hu by (unfold in_u64, U64_MAX; lia).
    constructor; cbn; [done|done|apply Hu; lia|apply Hu; lia| |lia].
    eapply Forall_impl; [exact Ho|]. intros u Hin. exact (available_typed _ _ _ Hd Hin).
  - done.
  - unfold wf_script, in_u64, U64_MAX. cbn [length].
    rewrite length_app, Hh. cbn. lia.
Qed.

Lemma planned_inputs V d h addr utxos dust max_inputs p ver lock sequence :
  planned V d h addr utxos dust max_inputs p ->
  own_inputs (available_utxos (vault_min_confirmations (sv_config V)) d) 0
    (inputs (sweep_tx ver lock sequence p)) = Ok (sp_inputs p).
Proof.
  intros [Hh Hv Hr Hd Ho Hm (Hne & Hsrc & Hlen & Hfee & Hdust & ->)%plan_sweep_Ok].
  apply own_inputs_of; [by apply outputs_typed_fit|]. cbn. apply Forall2_fmap_l, Forall_Forall2_diag.
  eapply Forall_impl; [exact Ho|]. intros u Hu. split; [done|].
  split; [done|]. cbn. destruct (available_typed _ _ _ Hd Hu) as [_ Hvo _].
  unfold in_u32, U32_MAX, as_u32, as_u64 in *. rewrite !Z.mod_small; lia.
Qed.

Lemma planned_plan V d h addr utxos dust max_inputs p ver lock sequence :
  planned V d h addr utxos dust max_inputs p ->
  plan_from_local_view V d (sweep_tx ver lock sequence p) = Ok (unlabelled p).
Proof.
  intros Hp. pose proof (planned_inputs _ _ _ _ _ _ _ _ ver lock sequence Hp) as Hi.
  destruct Hp as [Hh Hv Hr Hd Ho Hm (Hne & Hsrc & Hlen & Hfee & Hdust & ->)%plan_sweep_Ok].
  pose proof (total_in_u64 utxos). cbn [sp_inputs] in Hi.
  assert (0 <= fee_for (Z.of_nat (length utxos)) SWEEP_OUTPUT_COUNT (fee_rate_per_kb (sv_config V)))
    by (apply fee_for_nonneg; [unfold shape, SWEEP_OUTPUT_COUNT; lia|done]).
  pose proof (fee_within_ceiling V utxos Hr ltac:(lia) ltac:(unfold U64_MAX; lia)).
  apply plan_from_local_view_Ok. eexists _, _. split; [exact Hi|]. split; [reflexivity|].
  cbn [sp_swept_atomic value script_pubkey]. split_and!; [lia| |]; [etrans; [|eassumption]; lia|]. unfold unlabelled.
  cbn [sp_source_hash160 sp_dest_hash160 sp_dest_script_pubkey sp_fee_atomic sp_swept_atomic sp_inputs
       p2sh sd_hash160 sd_script_pubkey script_pubkey value].
  rewrite dest_hash160_of_p2sh by done. f_equal. lia.
Qed.

(** The operator's plan and the signer's reconstruction agree: when an operator
    plans a sweep of outputs the signer also holds and stages the plan's commitment in
    the approval file, the signer rebuilds that plan from the transaction bytes and its
    own tables, reads the same commitment back from the file and approves, until the
    approval expires. *)
Theorem staged_sweep_is_approved `{Sh : Sha2} V d h addr utxos dust max_inputs p ver lock sequence
    expiry note protocol_version now :
  planned V d h addr utxos dust max_inputs p ->
  - 2 ^ 31 <= ver < 2 ^ 31 -> in_u32 lock -> in_u32 sequence ->
  I64_MIN <= expiry <= I64_MAX -> now <= expiry ->
  approved_sweep V d
    (FileText (SweepView.to_text {| sa_commitment := commitment protocol_version p;
                                    sa_expiry_unix := expiry; sa_note := note |}))
    (serialize_hex (sweep_tx ver lock sequence p)) protocol_version now =
  Ok (unlabelled p, commitment protocol_version p).
Proof.
  intros Hp Hver Hlock Hseq Hx Hnow. destruct (planned_typed _ _ _ _ _ _ _ _ Hp) as (Ht & Hne & Hs).
  unfold approved_sweep. rewrite parse_hex_serialize by (by apply sweep_tx_wf).
  cbn [map_err mbind result_bind]. rewrite (planned_plan V d h addr utxos dust max_inputs) by done.
  cbn [mbind result_bind]. change (verify_sweep_tx _ (unlabelled p)) with (verify_sweep_tx (sweep_tx ver lock sequence (unlabelled p)) (unlabelled p)).
  rewrite sweep_tx_verifies. cbn [map_err mbind result_bind load].
  rewrite sweep_approval_reads_back by (cbn; first [apply length_sha256|done]). cbn [mbind result_bind ok_or sa_commitment sa_expiry_unix].
  change (commitment protocol_version (unlabelled p)) with (commitment protocol_version p).
  rewrite bool_decide_true by done. cbn. by rewrite (proj2 (Z.leb_le _ _)) by done.
Qed.

(** An approval outlives the deposits that follow it: while the outputs the
    approved sweep spends stay available, a validator whose view only gained
    outputs signs the same sweep. *)
Theorem approval_outlives_new_deposits `{Sh : Sha2} V d d' file hex protocol_version now r :
  outputs_typed d' ->
  (forall u, u ∈ available_utxos (vault_min_confirmations (sv_config V)) d ->
             u ∈ available_utxos (vault_min_confirmations (sv_config V)) d') ->
  approved_sweep V d file hex protocol_version now = Ok r ->
  approved_sweep V d' file hex protocol_version now = Ok r.
Proof.
  intros Hd Hsub H. unfold approved_sweep in *. apply bind_Ok in H as (tx & -> & H). cbn [mbind result_bind].
  apply bind_Ok in H as (plan & Hp & H).
  assert (plan_from_local_view V d' tx = Ok plan) as ->; [|exact H].
  apply plan_from_local_view_Ok in Hp as (us & out & Hus & Ho & Hle & Hf & ->).
  apply plan_from_local_view_Ok. exists us, out. split_and!; try done.
  apply own_inputs_available in Hus. apply own_inputs_of; [by apply outputs_typed_fit|].
  eapply Forall2_impl; [exact Hus|]. intros i u [Hu Hi]. auto.
Qed.

(** * A sweep to a new vault

    The operator plans a sweep of the one vault coin, stages the commitment,
    and the signer, asked twice, signs it twice; a coin that arrives in
    between changes nothing. *)

#[local] Existing Instance toy_sha2.
#[local] Existing Instance toy_ripemd.
#[local] Existing Instance toy_secp.
#[local] Instance sweep_node : PartialSigner Z := fun unsigned _ o => (o, partial_tx passive unsigned).

Definition sweeper : SweepView :=
  {| sv_config := config demo_settings; sv_vault := demo_vault;
     sv_vault_signer_index := pv_vault_signer_index passive |}.
Definition vault_coins : list VaultUtxo :=
  available_utxos (vault_min_confirmations (config demo_settings)) passive_tables.
Definition new_vault : list byte := replicate 20 x55.
Definition rate : Z := fee_rate_per_kb (config demo_settings).

Definition demo_plan : SweepPlan :=
  {| sp_source_hash160 := script_hash160 demo_vault; sp_dest_hash160 := new_vault;
     sp_dest_script_pubkey := p2sh_script_pubkey new_vault; sp_dest_address := lit "new vault";
     sp_fee_atomic := fee_for 1 1 rate; sp_swept_atomic := 1000000 - fee_for 1 1 rate; sp_inputs := vault_coins |}.
Definition demo_sweep : Transaction := sweep_tx 2 0 0xffffffff demo_plan.

(** A coin that arrives after the approval. *)
Definition later_coin : ObservedUtxo :=
  {| o_txid := replicate 32 x09; o_vout := 0; o_amount := 77000; o_script := o_script demo_coin_observed;
     o_confirmations := 9 |}.
Definition later_tables : Tables := sync_vault_utxos [demo_coin_observed; later_coin] 6 1150 passive_tables.

Definition staged (expiry : Z) : FileRead :=
  FileText (SweepView.to_text
    {| sa_commitment := commitment 1 demo_plan; sa_expiry_unix := expiry; sa_note := lit "drill 7" |}).
Definition request_1 : SweepRequest :=
  {| rq_db := passive_tables; rq_file := staged 2000; rq_hex := serialize_hex demo_sweep; rq_now := 1100 |}.
Definition request_2 : SweepRequest :=
  {| rq_db := later_tables; rq_file := staged 2000; rq_hex := serialize_hex demo_sweep; rq_now := 1200 |}.
Definition requests : list SweepRequest := [request_1; request_2].
Definition idle : World (outside := Z) := {| w_outside := 0; w_signed := None |}.
Definition swept : SweepPartial :=
  {| swp_partial := {| pp_vault_pubkey := vault_pubkey sweeper;
                       pp_signatures := [toy_signature demo_sweep demo_vault (vault_pubkey sweeper) 0] |};
     swp_swept_atomic := sp_swept_atomic demo_plan; swp_inputs := 1 |}.

Example both_requests_are_signed :
  serve sweeper 1 requests idle =
  ({| w_outside := 0; w_signed := Some (commitment 1 demo_plan) |}, [Ok swept; Ok swept]).
Proof. vm_compute. reflexivity. Qed.

Lemma demo_typed : plan_typed demo_plan.
Proof.
  constructor; [vm_compute; reflexivity..|vm_compute; split; discriminate|vm_compute; split; discriminate| |].
  - apply Forall_forall. intros u Hu. unfold vault_coins in Hu. cbn [sp_inputs demo_plan] in Hu.
    change vault_coins with [{| u_txid := replicate 32 x07; u_txid_hex := encode (replicate 32 x07); u_vout := 1;
      u_amount := 1000000; u_script := Vault.script_pubkey_hex demo_vault; u_confirmations := 9 |}] in Hu.
    apply list_elem_of_singleton in Hu as ->. constructor; [reflexivity|vm_compute; split; discriminate..].
  - vm_compute. discriminate.
Qed.

Lemma tables_typed : outputs_typed passive_tables /\ outputs_typed later_tables.
Proof.
  split; apply map_Forall_to_list.
  - let l := eval vm_compute in (map_to_list (vault_utxos passive_tables)) in
      replace (map_to_list (vault_utxos passive_tables)) with l by (vm_compute; reflexivity).
    repeat (apply Forall_cons; split; [split_and!; vm_compute; [reflexivity|split; discriminate..]|]). constructor.
  - let l := eval vm_compute in (map_to_list (vault_utxos later_tables)) in
      replace (map_to_list (vault_utxos later_tables)) with l by (vm_compute; reflexivity).
    repeat (apply Forall_cons; split; [split_and!; vm_compute; [reflexivity|split; discriminate..]|]). constructor.
Qed.

Lemma sweep_intent_is_binding_witness :
  plan_typed demo_plan /\ canonical_intent 1 demo_plan = canonical_intent 1 (unlabelled demo_plan).
Proof.
  split; [exact demo_typed|].
  apply (proj2 (sweep_intent_is_binding 1 demo_plan (unlabelled demo_plan) demo_typed
    ltac:(destruct demo_typed; by constructor))). reflexivity.
Defined.

Lemma one_sweep_is_signed_witness :
  exists tx tx' plan plan',
    parse_hex (rq_hex request_1) = Ok tx /\ parse_hex (rq_hex request_2) = Ok tx' /\
    sweep_granted sweeper (rq_db request_1) (rq_file request_1) 1 (rq_now request_1) tx plan /\
    sweep_granted sweeper (rq_db request_2) (rq_file request_2) 1 (rq_now request_2) tx' plan' /\
    (moves tx = moves tx' \/
     canonical_intent 1 plan <> canonical_intent 1 plan' /\
     sha256 (canonical_intent 1 plan) = sha256 (canonical_intent 1 plan')).
Proof.
  refine (one_sweep_is_signed sweeper 1 requests idle _ _ 0 1 request_1 request_2 swept swept _ _
            both_requests_are_signed eq_refl eq_refl eq_refl eq_refl).
  - vm_compute. reflexivity.
  - constructor; [exact (proj1 tables_typed)|]. constructor; [exact (proj2 tables_typed)|constructor].
Defined.

Lemma demo_planned :
  planned sweeper passive_tables new_vault (lit "new vault") vault_coins 1000 10 demo_plan.
Proof.
  constructor; [vm_compute; reflexivity..|vm_compute; discriminate|exact (proj1 tables_typed)| | |].
  - by apply Forall_forall.
  - vm_compute. discriminate.
  - vm_compute. reflexivity.
Qed.

Lemma staged_sweep_is_approved_witness :
  approved_sweep sweeper passive_tables (staged 2000) (serialize_hex demo_sweep) 1 1100 =
  Ok (unlabelled demo_plan, commitment 1 demo_plan).
Proof.
  apply (staged_sweep_is_approved sweeper passive_tables new_vault (lit "new vault") vault_coins 1000 10
           demo_plan 2 0 0xffffffff 2000 (lit "drill 7") 1 1100 demo_planned).
  - lia.
  - vm_compute. split; discriminate.
  - vm_compute. split; discriminate.
  - vm_compute. split; discriminate.
  - lia.
Defined.

Lemma approval_outlives_new_deposits_witness :
  u_amount <$> available_utxos (vault_min_confirmations (sv_config sweeper)) later_tables = [77000; 1000000] /\
  approved_sweep sweeper later_tables (staged 2000) (serialize_hex demo_sweep) 1 1200 =
  Ok (unlabelled demo_plan, commitment 1 demo_plan).
Proof.
  split; [vm_compute; reflexivity|].
  apply (approval_outlives_new_deposits sweeper passive_tables later_tables).
  - exact (proj2 tables_typed).
  - apply Forall_forall.
    replace (available_utxos (vault_min_confirmations (sv_config sweeper)) passive_tables) with (take 1 vault_coins)
      by (vm_compute; reflexivity).
    vm_compute. constructor; [|constructor]. right. left.
  - vm_compute. reflexivity.
Defined.
