(* ===== verification/RateLimit.v ===== *)
(** * Rate limiting: [relayer/src/p2p/ratelimit.rs]

    The token buckets, one per peer.  [f64] is IEEE binary64, computed by the
    standard library's [SpecFloat] (53 bits, exponents to 1024, round to
    nearest even); an instant is its nanoseconds. *)
From Stdlib Require Import ZArith Lia Strings.Byte.
From Stdlib Require Import Floats.SpecFloat.
From stdpp Require Import base numbers strings gmap list.
From S2P Require Import Prelude Hex.

Definition f64 (z : Z) : spec_float := binary_normalize 53 1024 z 0 false.
Definition f64_add := SFadd 53 1024.
Definition f64_sub := SFsub 53 1024.
Definition f64_mul := SFmul 53 1024.
Definition f64_div := SFdiv 53 1024.
Definition is_nan (x : spec_float) : bool := match x with S754_nan => true | _ => false end.
(** [f64::min] *)
Definition f64_min (x y : spec_float) : spec_float :=
  if is_nan x then y else if is_nan y then x else if SFltb x y then x else y.
(** [Duration::as_secs_f64] *)
Definition as_secs_f64 (nanos : Z) : spec_float :=
  f64_add (f64 (nanos / 10 ^ 9)) (f64_div (f64 (nanos mod 10 ^ 9)) (f64 (10 ^ 9))).

Definition REFILL_PER_SECOND : spec_float := f64 10.
Definition BURST : spec_float := f64 30.

Record Bucket := { tokens : spec_float; last : Z }.
Record RateLimiter := { refill_per_second : spec_float; burst : spec_float; buckets : gmap str Bucket }.

Definition with_limits (refill_per_second burst : spec_float) : RateLimiter :=
  {| refill_per_second := refill_per_second; burst := burst; buckets := ∅ |}.
Definition new : RateLimiter := with_limits REFILL_PER_SECOND BURST.

(** The bucket after a request at [now], and the answer. *)
Definition charge (refill burst : spec_float) (b : Bucket) (now : Z) : Bucket * bool :=
  let elapsed := as_secs_f64 (Z.max 0 (now - last b)) in
  let t := f64_min (f64_add (tokens b) (f64_mul elapsed refill)) burst in
  if SFleb (f64 1) t then ({| tokens := f64_sub t (f64 1); last := now |}, true)
  else ({| tokens := t; last := now |}, false).

Definition check_at (peer : str) (now : Z) (rl : RateLimiter) : RateLimiter * bool :=
  let b := default {| tokens := burst rl; last := now |} (buckets rl !! peer) in
  let (b, allowed) := charge (refill_per_second rl) (burst rl) b now in
  ({| refill_per_second := refill_per_second rl; burst := burst rl;
      buckets := <[peer := b]> (buckets rl) |}, allowed).

Definition evict_idle (now idle : Z) (rl : RateLimiter) : RateLimiter :=
  {| refill_per_second := refill_per_second rl; burst := burst rl;
     buckets := filter (fun pb => Z.max 0 (now - last pb.2) < idle) (buckets rl) |}.

Definition tracked_peers (rl : RateLimiter) : nat := size (buckets rl).

(** ** Requests in sequence *)

Fixpoint check_all (l : list (str * Z)) (rl : RateLimiter) : RateLimiter * list bool :=
  match l with
  | [] => (rl, [])
  | (peer, now) :: l =>
      let (rl, r) := check_at peer now rl in
      let (rl, rs) := check_all l rl in
      (rl, r :: rs)
  end.

(** The answers one peer gets. *)
Definition answers_of (peer : str) (l : list (str * Z)) (rs : list bool) : list bool :=
  snd <$> filter (fun pr => pr.1.1 = peer) (zip l rs).

Lemma check_all_length l rl : length (check_all l rl).2 = length l.
Proof.
  revert rl. induction l as [|[peer now] l IH]; intros rl; [done|]. cbn [check_all].
  destruct (check_at peer now rl) as [rl1 r]. specialize (IH rl1). destruct (check_all l rl1). cbn in *. by rewrite IH.
Qed.

(** What a limiter answers a peer depends on that peer's bucket alone. *)
Definition same_for (peer : str) (rl rl' : RateLimiter) : Prop :=
  refill_per_second rl = refill_per_second rl' /\ burst rl = burst rl' /\
  buckets rl !! peer = buckets rl' !! peer.

Lemma check_at_same peer now rl rl' :
  same_for peer rl rl' ->
  (check_at peer now rl).2 = (check_at peer now rl').2 /\
  same_for peer (check_at peer now rl).1 (check_at peer now rl').1.
Proof.
  intros (Hr & Hb & Hp). unfold check_at. rewrite Hr, Hb, Hp.
  destruct (charge _ _ _ now) as [b r]. cbn. unfold same_for. cbn. by rewrite !lookup_insert_eq.
Qed.

Lemma check_at_other peer peer' now rl : peer' <> peer -> same_for peer (check_at peer' now rl).1 rl.
Proof.
  intros Hne. unfold check_at. destruct (charge _ _ _ now) as [b r]. unfold same_for. cbn.
  by rewrite lookup_insert_ne.
Qed.

Lemma same_for_trans peer a b c : same_for peer a b -> same_for peer b c -> same_for peer a c.
Proof. intros (H1 & H2 & H3) (H4 & H5 & H6). unfold same_for. by rewrite H1, H2, H3. Qed.

(** The answers one peer gets are the ones it would get alone: whatever the
    other peers send in between, no budget is shared. *)
Theorem peers_do_not_share_a_budget peer l rl :
  answers_of peer l (check_all l rl).2 = (check_all (filter (fun pn => pn.1 = peer) l) rl).2.
Proof.
  assert (forall l rl rl', same_for peer rl rl' ->
    answers_of peer l (check_all l rl).2 = (check_all (filter (fun pn => pn.1 = peer) l) rl').2) as H;
    [|apply H; by split_and!].
  clear. induction l as [|[p now] l IH]; intros rl rl' Hs; [done|]. cbn [check_all].
  destruct (check_at p now rl) as [rl1 r] eqn:E. specialize (IH rl1).
  destruct (check_all l rl1) as [rl2 rs] eqn:E2. cbn [snd] in *. unfold answers_of. cbn [zip zip_with].
  destruct (decide (p = peer)) as [->|Hne].
  - rewrite !filter_cons_True by done. cbn [fmap list_fmap check_all].
    destruct (check_at_same peer now rl rl' Hs) as [Hr Hs']. rewrite E in Hr, Hs'.
    destruct (check_at peer now rl') as [rl1' r']. cbn in Hr, Hs'. subst r'. specialize (IH rl1' Hs').
    destruct (check_all _ rl1') as [rl2' rs']. cbn in *. by rewrite <- IH.
  - rewrite !filter_cons_False by done. apply IH. eapply same_for_trans; [|exact Hs].
    pose proof (check_at_other peer p now rl Hne) as Ho. by rewrite E in Ho.
Qed.

(** ** A burst *)

(** At one instant a bucket of [k] tokens answers [k] requests. *)
Lemma charge_at_instant (k : Z) (now : Z) :
  0 <= k <= 30 ->
  charge REFILL_PER_SECOND BURST {| tokens := f64 k; last := now |} now =
  if 1 <=? k then ({| tokens := f64 (k - 1); last := now |}, true) else ({| tokens := f64 k; last := now |}, false).
Proof.
  intros Hk. unfold charge. cbn [last tokens]. rewrite Z.sub_diag. change (Z.max 0 0) with 0.
  assert (Forall (fun k =>
    let t := f64_min (f64_add (f64 k) (f64_mul (as_secs_f64 0) REFILL_PER_SECOND)) BURST in
    SFleb (f64 1) t = (1 <=? k) /\ (1 <=? k = true -> f64_sub t (f64 1) = f64 (k - 1)) /\ t = f64 k)
    (seqZ 0 31)) as H.
  { repeat (apply Forall_cons; split; [vm_compute; split_and!; [reflexivity|intros; first [reflexivity|discriminate]|reflexivity]|]).
    constructor. }
  rewrite Forall_forall in H. destruct (H k) as (H1 & H2 & H3); [apply elem_of_seqZ; lia|]. cbv zeta in *.
  rewrite H1. destruct (1 <=? k) eqn:E; [by rewrite H2|by rewrite H3].
Qed.

(** A peer's first burst, at one instant, is answered thirty times exactly. *)
Theorem a_burst_is_thirty_requests peer now (n : nat) :
  (check_all (replicate n (peer, now)) new).2 = replicate (Nat.min n 30) true ++ replicate (n - 30) false.
Proof.
  assert (forall n (k : nat) rl, (k <= 30)%nat -> refill_per_second rl = REFILL_PER_SECOND -> burst rl = BURST ->
    default {| tokens := BURST; last := now |} (buckets rl !! peer) = {| tokens := f64 (Z.of_nat k); last := now |} ->
    (check_all (replicate n (peer, now)) rl).2 = replicate (Nat.min n k) true ++ replicate (n - k) false) as H;
    [|apply (H n 30%nat new); reflexivity || lia].
  clear n. induction n as [|n IH]; intros k rl Hk Hr Hb Hl; [done|]. cbn [replicate check_all].
  unfold check_at at 1. rewrite Hr, Hb, Hl, charge_at_instant by lia.
  destruct k as [|k].
  - change (1 <=? Z.of_nat 0) with false. cbv iota.
    match goal with |- context [check_all _ ?rl1] => specialize (IH 0%nat rl1); destruct (check_all (replicate n (peer, now)) rl1) as [rl2 rs] end.
    cbn in *. rewrite IH; [by rewrite Nat.min_0_r, Nat.sub_0_r|lia|done|done|by rewrite lookup_insert_eq].
  - rewrite (proj2 (Z.leb_le _ _)) by lia.
    match goal with |- context [check_all _ ?rl1] => specialize (IH k rl1); destruct (check_all (replicate n (peer, now)) rl1) as [rl2 rs] end.
    cbn [snd buckets refill_per_second burst] in *. rewrite IH; [done|lia|done|done|].
    rewrite lookup_insert_eq. cbn [default]. by replace (Z.of_nat (S k) - 1) with (Z.of_nat k) by lia.
Qed.

(** ** A clock that steps back

    [last] follows [now] backwards, so the step forward is credited again. *)
Definition second (n : Z) : Z := n * 10 ^ 9.

Lemma reordered_clock_credits peer :
  (check_all (replicate 30 (peer, second 100) ++ [(peer, second 100); (peer, second 90); (peer, second 100)]) new).2
  = replicate 30 true ++ [false; false; true].
Proof.
  assert (forall l rl rl', buckets rl !! peer = buckets rl' !! [] -> refill_per_second rl = refill_per_second rl' ->
    burst rl = burst rl' ->
    (check_all ((fun t => (peer, t)) <$> l) rl).2 = (check_all ((fun t => ([], t)) <$> l) rl').2) as H.
  { induction l as [|t l IH]; intros rl rl' Hb Hr Hm; [done|]. cbn [fmap list_fmap check_all].
    unfold check_at. rewrite Hb, Hr, Hm. destruct (charge _ _ _ t) as [b r].
    match goal with |- context [check_all _ ?x] => specialize (IH x) end.
    match goal with |- context [check_all ((fun t => ([], t)) <$> l) ?x] => specialize (IH x) end.
    cbn [buckets refill_per_second burst] in IH. rewrite !lookup_insert_eq in IH. specialize (IH eq_refl eq_refl eq_refl).
    destruct (check_all _ _), (check_all _ _). cbn in *. by rewrite IH. }
  pose proof (H (replicate 30 (second 100) ++ [second 100; second 90; second 100]) new new eq_refl eq_refl eq_refl) as E.
  rewrite fmap_app, fmap_replicate in E. cbn [fmap list_fmap] in E. rewrite E. vm_compute. reflexivity.
Qed.
