(* ===== verification/AuditLog.v ===== *)
(** * The audit record of a grant: [relayer/src/p2p/audit_log.rs] *)
From Stdlib Require Import ZArith Strings.Byte.
From stdpp Require Import base numbers strings list.
From S2P Require Import Prelude Hex.

Inductive Granted :=
| GMint (txid : list byte) (vout : Z)
| GPayout (withdrawal_index quorum_attempt : Z)
| GCompletion (withdrawal_index : Z) (payout_txid : list byte)
| GGovernance (action epoch : Z)
| GSweep (inputs : nat) (swept_atomic : Z).

Definition action_name (g : Granted) : str :=
  match g with
  | GMint _ _ => lit "mint"
  | GPayout _ _ => lit "payout"
  | GCompletion _ _ => lit "completion"
  | GGovernance _ _ => lit "governance"
  | GSweep _ _ => lit "sweep"
  end.

Definition is_notable (g : Granted) : bool :=
  match g with GGovernance _ _ | GSweep _ _ => true | _ => false end.

Definition identity_text (g : Granted) : str :=
  match g with
  | GMint txid vout => encode txid ++ lit ":" ++ display vout
  | GPayout i attempt => lit "withdrawal " ++ display i ++ lit " attempt " ++ display attempt
  | GCompletion i txid => lit "withdrawal " ++ display i ++ lit " paid by " ++ encode txid
  | GGovernance action epoch => lit "action " ++ display action ++ lit " under epoch " ++ display epoch
  | GSweep inputs swept =>
      display (Z.of_nat inputs) ++ lit " inputs totalling " ++ display swept ++ lit " atomic"
  end.

(** A log event: whether it is a warning, the action, the identity, the validator. *)
Definition record (g : Granted) (validator : list byte) : bool * str * str * str :=
  (is_notable g, action_name g, identity_text g, encode validator).
