(* ===== verification/Policy.v ===== *)
(** * The signing decision: [relayer/src/p2p/policy.rs]

    The trait [LocalView] is a class; [derive_message] may change the view
    (a drifted item is halted), so it returns it.  The clock readings of a
    decision are its arguments: the caller's and the view's own. *)
From Stdlib Require Import ZArith Lia Strings.Byte.
From stdpp Require Import base numbers strings gmap list.
From S2P Require Import Prelude Hex.

(** The refusals of [evaluate] and of [Action::from_wire]; those of the
    transport and of the arms are in [SignerService]. *)
Inductive Refusal :=
| Expired (expiry_unix now : Z)
| UnspecifiedAction
| EpochMismatch (requested observed : Z)
| MessageMismatch
| Underivable (reason : str)
| ConflictingRequest
| StaleView.

Inductive Action := MintDeposit | Payout | Governance.
#[export] Instance Action_eq_dec : EqDecision Action.
Proof. solve_decision. Defined.
#[export] Instance Action_countable : Countable Action.
Proof.
  refine (inj_countable'
    (fun a => match a with MintDeposit => 1 | Payout => 2 | Governance => 3 end)
    (fun z => match z with 1 => MintDeposit | 2 => Payout | _ => Governance end) _).
  by intros [].
Defined.

Definition from_wire (v : Z) : result Refusal Action :=
  match v with
  | 1 => Ok MintDeposit
  | 2 => Ok Payout
  | 3 => Ok Governance
  | _ => Err UnspecifiedAction
  end.

Inductive SigningIdentity :=
| Deposit (txid : list byte) (vout : Z)
| PayoutOf (withdrawal_index quorum_attempt : Z)
| GovernanceOf (epoch : Z).
#[export] Instance SigningIdentity_eq_dec : EqDecision SigningIdentity.
Proof. solve_decision. Defined.
#[export] Instance SigningIdentity_countable : Countable SigningIdentity.
Proof.
  refine (inj_countable'
    (fun i => match i with
              | Deposit t v => inl (t, v)
              | PayoutOf i a => inr (inl (i, a))
              | GovernanceOf e => inr (inr e)
              end)
    (fun s => match s with
              | inl (t, v) => Deposit t v
              | inr (inl (i, a)) => PayoutOf i a
              | inr (inr e) => GovernanceOf e
              end) _).
  by intros [].
Defined.

(** What the validator believes, from its own observations. *)
Class LocalView (view : Type) := {
  observed_epoch : view -> Z;
  view_is_fresh : Z -> view -> bool;
  derive_message : Z -> Action -> SigningIdentity -> view -> view * option (list byte)
}.

Record SigningRequest := {
  request_id : list byte; action : Action; epoch : Z; canonical_message : list byte;
  identity : SigningIdentity; expiry_unix : Z
}.

(** [SeenSet] *)
Abbreviation SeenSet := (gmap (Action * SigningIdentity) (list byte)).
Definition previously_signed (a : Action) (i : SigningIdentity) (s : SeenSet) : option (list byte) :=
  s !! (a, i).
Definition record (a : Action) (i : SigningIdentity) (message : list byte) (s : SeenSet) : SeenSet :=
  <[(a, i) := message]> s.

Inductive Decision := Sign (bytes : list byte) | AlreadySigned (bytes : list byte) | Refuse (r : Refusal).

(** The readings of the clock during one decision. *)
Record Clock := { now_unix : Z; fresh_at : Z; derived_at : Z }.

Section policy.
Context {view : Type} `{V : !LocalView view}.

Definition evaluate (request : SigningRequest) (v : view) (seen : SeenSet) (t : Clock)
  : view * Decision :=
  if expiry_unix request <? now_unix t then
    (v, Refuse (Expired (expiry_unix request) (now_unix t)))
  else if negb (view_is_fresh (fresh_at t) v) then (v, Refuse StaleView)
  else if negb (epoch request =? observed_epoch v) then
    (v, Refuse (EpochMismatch (epoch request) (observed_epoch v)))
  else
    let (v, derived) := derive_message (derived_at t) (action request) (identity request) v in
    match derived with
    | None => (v, Refuse (Underivable (lit "this validator has no verified record of that identity")))
    | Some derived =>
        (v, if negb (bool_decide (derived = canonical_message request)) then Refuse MessageMismatch
            else match previously_signed (action request) (identity request) seen with
                 | Some prev => if bool_decide (prev = derived) then AlreadySigned derived
                                else Refuse ConflictingRequest
                 | None => Sign derived
                 end)
    end.

(** ** What is signed *)

(** The view derives exactly the requested bytes, now, under the epoch it observes. *)
Record justified (request : SigningRequest) (v : view) (t : Clock) : Prop := {
  ju_expiry : now_unix t <= expiry_unix request;
  ju_fresh : view_is_fresh (fresh_at t) v = true;
  ju_epoch : epoch request = observed_epoch v;
  ju_derived : (derive_message (derived_at t) (action request) (identity request) v).2 =
               Some (canonical_message request)
}.

Definition key (request : SigningRequest) : Action * SigningIdentity := (action request, identity request).

(** A first signature, and a repeated one. *)
Lemma evaluate_Sign request v seen t v' m :
  evaluate request v seen t = (v', Sign m) <->
  justified request v t /\ m = canonical_message request /\ seen !! key request = None /\
  v' = (derive_message (derived_at t) (action request) (identity request) v).1.
Proof.
  unfold evaluate, previously_signed, key.
  destruct (Z.ltb_spec (expiry_unix request) (now_unix t)) as [Hx|Hx].
  { split; [done|]. intros ([] & _). lia. }
  destruct (view_is_fresh (fresh_at t) v) eqn:Hf; cbn [negb];
    [|split; [done|]; intros ([] & _); congruence].
  destruct (Z.eqb_spec (epoch request) (observed_epoch v)) as [He|He]; cbn [negb];
    [|split; [done|]; intros ([] & _); congruence].
  destruct (derive_message _ _ _ v) as [v1 [derived|]] eqn:Hd;
    [|split; [done|]; intros ([? ? ? H] & _); rewrite Hd in H; discriminate H].
  case_bool_decide as Hm; cbn [negb];
    [|split; [done|]; intros ([? ? ? H] & _); rewrite Hd in H; injection H as H; congruence].
  subst derived. destruct (seen !! _) as [prev|] eqn:Hp; [case_bool_decide|]; cbn; split; try done;
    try (by intros (_ & _ & ? & _)).
  - intros [= <- <-]. split_and!; try done. constructor; by rewrite ?Hd.
  - by intros (_ & -> & _ & ->).
Qed.

Lemma evaluate_AlreadySigned request v seen t v' m :
  evaluate request v seen t = (v', AlreadySigned m) ->
  justified request v t /\ m = canonical_message request /\ seen !! key request = Some m /\
  v' = (derive_message (derived_at t) (action request) (identity request) v).1.
Proof.
  unfold evaluate, previously_signed, key.
  destruct (Z.ltb_spec (expiry_unix request) (now_unix t)) as [Hx|Hx]; [done|].
  destruct (view_is_fresh (fresh_at t) v) eqn:Hf; cbn [negb]; [|done].
  destruct (Z.eqb_spec (epoch request) (observed_epoch v)) as [He|He]; cbn [negb]; [|done].
  destruct (derive_message _ _ _ v) as [v1 [derived|]] eqn:Hd; [|done].
  case_bool_decide as Hm; cbn [negb]; [|done].
  destruct (seen !! _) as [prev|] eqn:Hp; [case_bool_decide as Hb|]; cbn; [|done|done].
  intros [= <- <-]. split_and!; [constructor; rewrite ?Hd; cbn; first [done|congruence]|done|congruence|done].
Qed.

(** ** Two handlers at once

    [handle] evaluates under one lock of the seen set and records under
    another.  Between the two a second request for the same identity is
    evaluated against the same set; when the view moved in between, both
    decisions are to sign, and the messages differ. *)
Lemma split_locks_sign_twice request request' v v' seen t t' :
  justified request v t -> justified request' v' t' -> key request = key request' ->
  seen !! key request = None -> canonical_message request <> canonical_message request' ->
  exists m m', (evaluate request v seen t).2 = Sign m /\ (evaluate request' v' seen t').2 = Sign m' /\ m <> m'.
Proof.
  intros Hj Hj' Hk Hs Hne.
  assert (forall q u c, justified q u c -> seen !! key q = None ->
    (evaluate q u seen c).2 = Sign (canonical_message q)) as H.
  { intros q u c Hq Hn. by erewrite (proj2 (evaluate_Sign q u seen c _ _)). }
  exists (canonical_message request), (canonical_message request'). split_and!; [by apply H|apply H; congruence|done].
Qed.
End policy.
