(* ===== verification/LocalView.v ===== *)
(** * The validator's own view: [relayer/src/p2p/view.rs]

    [DbLocalView] over the deposit and withdrawal tables: what it derives
    goes through the pre-signing guards, and a guard that trips halts the
    item.  It implements [Policy.LocalView]. *)
From Stdlib Require Import ZArith Lia Strings.Byte.
From stdpp Require Import base numbers strings gmap list.
From S2P Require Import Prelude Messages Hex Text Deposit DepositDb DepositDbProps Address WithdrawalDb.
From S2P Require Import WithdrawalDbProps Epoch Policy.

Record DbLocalView := { lv_db : Db; lv_tables : Tables; lv_epoch : EpochObservation }.

Section view.
Context `{Sh : Sha2}.

Definition mintable (r : DepositRow) : Prop :=
  DepositDb.state r = ReadyForSignature \/ DepositDb.state r = Submitted.
#[export] Instance mintable_dec r : base.Decision (mintable r).
Proof. unfold mintable. apply _. Defined.

Definition derive_deposit (at_ : Z) (txid : list byte) (vout : Z) (db : Db) : Db * option (list byte) :=
  match list_find mintable (history_for db txid vout) with
  | None => (db, None)
  | Some (_, row) =>
      let (db, claim) := verify_and_load_signable_message (DepositDb.id row) at_ db in
      (db, match claim with Ok c => Some (sc_message c) | Err _ => None end)
  end.

Definition derive_payout (at_ withdrawal_index quorum_attempt : Z) (d : Tables)
  : Tables * option (list byte) :=
  if I64_MAX <? withdrawal_index then (d, None)
  else
    match get_withdrawal withdrawal_index d with
    | None => (d, None)
    | Some w =>
        if bool_decide (w_state w = Building \/ w_state w = Signing) then
          let (d, signable) := verify_and_load_signable_payout withdrawal_index at_ d in
          (d, match signable with
              | Ok s => if s_quorum_attempt s =? quorum_attempt then Some (s_intent_bytes s) else None
              | Err _ => None
              end)
        else (d, None)
    end.

Definition derive (at_ : Z) (a : Action) (i : SigningIdentity) (v : DbLocalView)
  : DbLocalView * option (list byte) :=
  match a, i with
  | MintDeposit, Policy.Deposit txid vout =>
      let (db, m) := derive_deposit at_ txid vout (lv_db v) in
      ({| lv_db := db; lv_tables := lv_tables v; lv_epoch := lv_epoch v |}, m)
  | Payout, PayoutOf withdrawal_index quorum_attempt =>
      let (d, m) := derive_payout at_ withdrawal_index quorum_attempt (lv_tables v) in
      ({| lv_db := lv_db v; lv_tables := d; lv_epoch := lv_epoch v |}, m)
  | _, _ => (v, None)
  end.

#[export] Instance db_local_view : LocalView DbLocalView := {
  observed_epoch v := Epoch.epoch (lv_epoch v);
  view_is_fresh now v := is_fresh_at (lv_epoch v) now;
  derive_message := derive
}.

(** ** What is derived *)

(** The first row of the outpoint that may be minted, and its own commitment. *)
Lemma derive_deposit_Some at_ txid vout db db' m :
  derive_deposit at_ txid vout db = (db', Some m) ->
  db' = db /\ exists r a, r ∈ history_for db txid vout /\ mintable r /\
    find_row db (DepositDb.id r) = Some a /\
    exists art, claim_artifacts db !! DepositDb.id r = Some art /\ m = DepositDb.canonical_message art /\
      recompute a art = m /\ sha256 m = message_hash art.
Proof.
  unfold derive_deposit. destruct (list_find _ _) as [[n row]|] eqn:E; [|done].
  apply list_find_Some in E as (Hr & Hm & _).
  destruct (verify_and_load_signable_message _ _ _) as [db1 [c|e]] eqn:Ev; [|done]. intros [= -> <-].
  unfold verify_and_load_signable_message in Ev.
  destruct (find_row db (DepositDb.id row)) as [a|] eqn:Ea; [|done].
  destruct (claim_artifacts db !! DepositDb.id row) as [art|] eqn:Eart; [|done].
  case_bool_decide as H1; [|done]. case_bool_decide as H2; [|done]. cbn [negb orb] in Ev. injection Ev as <- <-.
  split; [done|]. exists row, a. split_and!; try done; [by eapply list_elem_of_lookup_2|].
  exists art. cbn [sc_message]. rewrite H2. split_and!; done.
Qed.

Lemma derive_payout_Some at_ i attempt d d' m :
  derive_payout at_ i attempt d = (d', Some m) <->
  d' = d /\ exists w p s, payout_ready i d w p s /\ (w_state w = Building \/ w_state w = Signing) /\
    i <= I64_MAX /\ s_quorum_attempt s = attempt /\ m = s_intent_bytes s.
Proof.
  unfold derive_payout, get_withdrawal. split.
  - destruct (Z.ltb_spec I64_MAX i); [done|]. destruct (withdrawal_requests d !! i) as [w|] eqn:Ew; [|done].
    case_bool_decide as Hs; [|done].
    destruct (verify_and_load_signable_payout i at_ d) as [d1 [s|e]] eqn:Ev; [|done].
    destruct (Z.eqb_spec (s_quorum_attempt s) attempt); [|done]. intros [= -> <-].
    apply verify_Ok in Ev as (-> & w' & p & Hr). split; [done|]. exists w', p, s.
    pose proof (pr_request _ _ _ _ _ Hr). simplify_eq. done.
  - intros (-> & w & p & s & Hr & Hs & Hi & Ha & ->). pose proof (pr_request _ _ _ _ _ Hr) as Hw.
    rewrite (proj2 (Z.ltb_ge _ _)) by done. rewrite Hw, bool_decide_true by done.
    rewrite (proj2 (verify_Ok i at_ d d s)) by eauto. by rewrite Ha, Z.eqb_refl.
Qed.

(** ** A payout signed while it is asked about

    [derive_payout] reads the state and then runs the guard; the executor is
    another process on the same file.  When it records the signed transaction
    in between, the guard, which does not look at the state, halts a payout
    that is already on its way. *)
Lemma guard_halts_signed i at_ d w p :
  withdrawal_requests d !! i = Some w -> withdrawal_payouts d !! i = Some p -> is_Some (p_signed_tx_hex p) ->
  exists e reason, verify_and_load_signable_payout i at_ d =
    (halt i at_ (w_state w) reason None None None d, Err e).
Proof.
  intros Hw Hp Hsig. unfold verify_and_load_signable_payout. rewrite Hw, Hp.
  case_bool_decide; [eauto|]. destruct (0 <? p_confirmations p); [eauto|].
  rewrite bool_decide_true by done. eauto.
Qed.

(** A payout signed and recorded between two requests for its co-signature is
    halted by the second one: the state moves from [Broadcast] to
    [IntegrityHalted], the payout row, its signed transaction included,
    is what it was. *)
Theorem guard_race_halts_a_broadcast_payout i signed_at asked_at signed_tx_hex txid d w p :
  withdrawal_requests d !! i = Some w -> w_state w = Signing -> withdrawal_payouts d !! i = Some p ->
  let d1 := (record_signed_payout i signed_tx_hex txid signed_at d).1 in
  let '(d2, answer) := verify_and_load_signable_payout i asked_at d1 in
  w_state <$> withdrawal_requests d1 !! i = Some Broadcast /\
  (exists e, answer = Err e) /\
  w_state <$> withdrawal_requests d2 !! i = Some IntegrityHalted /\
  withdrawal_payouts d2 = withdrawal_payouts d1.
Proof.
  intros Hw Hs Hp d1.
  assert (withdrawal_requests d1 !! i = Some (set_state Broadcast (w_failure w) w)) as Hw1.
  { unfold d1, record_signed_payout. rewrite bool_decide_false by congruence. cbn. by rewrite lookup_alter_eq, Hw. }
  assert (exists p1, withdrawal_payouts d1 !! i = Some p1 /\ is_Some (p_signed_tx_hex p1)) as (p1 & Hp1 & Hsig).
  { unfold d1, record_signed_payout. rewrite bool_decide_false by congruence. cbn. rewrite lookup_alter_eq, Hp.
    eexists. split; [done|]. destruct (p_signed_tx_hex p) eqn:E; cbn; [by rewrite E|done]. }
  destruct (guard_halts_signed i asked_at d1 _ p1 Hw1 Hp1 Hsig) as (e & reason & ->).
  rewrite Hw1. cbn. rewrite lookup_alter_eq, Hw1. eauto.
Qed.
End view.
