(* ===== verification/SignerService.v ===== *)
(** * The signer service: [relayer/src/p2p/service.rs]

    One validator's handlers over its own databases, node, epoch and memory,
    in the state-and-error monad of [Effects].  The arms are optional.  The
    field [sg_issued] is a ghost: what has been signed, for the theorems.
    [handle] takes the lock of the seen set twice, to evaluate a request and to
    record what is signed, so it is two steps, [evaluate_request] and [settle],
    between which other requests run; every other handler decides under one
    lock. *)
From Stdlib Require Import ZArith Lia Strings.Byte.
From stdpp Require Import base numbers strings gmap list.
From S2P Require Import Executor CompletionView PayoutView GovernanceView SweepView.
From S2P Require Import Prelude Effects Messages State Token Accounts SolanaInstruction Completion.
From S2P Require Import Hex Text DepositDb Address Rpc WithdrawalDb Coin Vault Assignment Multisig.
From S2P Require Import WithdrawalConfig Epoch Sweep RateLimit AuditLog Policy LocalView.

(** ** The wire form *)

Record Context_ := {
  cx_txid : list byte; cx_vout : Z; cx_withdrawal_index : Z; cx_quorum_attempt : Z
}.
Definition default_context : Context_ :=
  {| cx_txid := []; cx_vout := 0; cx_withdrawal_index := 0; cx_quorum_attempt := 0 |}.

Record SignRequest := {
  sr_request_id : list byte; sr_action : Z; sr_epoch : Z; sr_canonical_message : list byte;
  sr_context : option Context_; sr_expiry_unix : Z
}.
Record PayoutSignRequest := {
  pr_request_id : list byte; pr_epoch : Z; pr_withdrawal_index : Z; pr_quorum_attempt : Z;
  pr_canonical_intent : list byte; pr_unsigned_tx_hex : str; pr_proposer_index : Z; pr_expiry_unix : Z
}.
Record CompletionSignRequest := {
  cr_request_id : list byte; cr_epoch : Z; cr_withdrawal_index : Z; cr_payout_txid : list byte;
  cr_payout_height : Z; cr_expiry_unix : Z
}.
Record GovernanceSignRequest := {
  gr_request_id : list byte; gr_epoch : Z; gr_action : Z; gr_params_commitment : list byte;
  gr_expiry_unix : Z
}.
Record SweepSignRequest := {
  wr_request_id : list byte; wr_epoch : Z; wr_unsigned_tx_hex : str; wr_expiry_unix : Z
}.
(** [SignResponse], [CompletionSignResponse] and [GovernanceSignResponse]. *)
Record SignResponse := {
  rs_request_id : list byte; rs_validator_pubkey : list byte; rs_signature : list byte
}.
(** [PayoutSignResponse] and [SweepSignResponse]. *)
Record PartialResponse := {
  pa_request_id : list byte; pa_validator_pubkey : list byte; pa_vault_pubkey : list byte;
  pa_signatures : list (list byte)
}.

(** The policy's refusals, the transport's and the arms'. *)
Inductive ServiceRefusal :=
| Refused (r : Policy.Refusal)
| RateLimited
| PayoutRefused (r : PayoutView.PayoutRefusal)
| CompletionRefused (r : CompletionView.CompletionRefusal)
| GovernanceRefused (r : GovernanceView.GovernanceFault)
| SweepRefused (r : SweepView.SweepRefusal).
Inductive Status := ResourceExhausted (r : ServiceRefusal) | FailedPrecondition (r : ServiceRefusal).

Definition identity_of (a : Action) (ctx : Context_) : result Policy.Refusal SigningIdentity :=
  match a with
  | MintDeposit =>
      require (length (cx_txid ctx) =? 32)%nat (Underivable (lit "deposit context has no 32-byte txid")) ;;*
      Ok (Policy.Deposit (cx_txid ctx) (cx_vout ctx))
  | Payout => Ok (PayoutOf (cx_withdrawal_index ctx) (cx_quorum_attempt ctx))
  | Governance => Ok (GovernanceOf 0)
  end.

(** ** The service *)

(** What has been signed. *)
Inductive Issued :=
| Statement (a : Action) (i : SigningIdentity) (message : list byte)
| CompletionOf (withdrawal_index : Z) (message : list byte)
| GovernanceAct (action : Z) (params_commitment message : list byte)
| PayoutSpend (withdrawal_index quorum_attempt : Z) (unsigned_tx_hex : str)
| SweepSpend (unsigned_tx_hex : str).

(** The configured arms. *)
Record Arms := {
  arm_payout : option PayoutView.PayoutView;
  arm_completion : option (Z * list byte * Z);
  arm_governance : option (list byte * Z);
  arm_sweep : option (SweepView.SweepView * Z)
}.

Definition peer_key `{Sha2} (leaf : option (list byte)) (ip : option str) : str :=
  match leaf, ip with
  | Some cert, _ => lit "cert:" ++ encode (take 16 (sha256 cert))
  | None, Some ip => lit "addr:" ++ ip
  | None, None => lit "unidentified"
  end.

Section service.
Context `{Sh : Sha2, Rt : SolanaRuntime, Rn : Runtime, N : PayoutRpc, !PayoutView.PartialSigner outside}.
Context (arms : Arms) (validator_pubkey : list byte) (sign_message : list byte -> list byte).

Record Signer := {
  sg_outside : outside; sg_view : DbLocalView; sg_seen : SeenSet; sg_limiter : RateLimiter;
  sg_governance : GovernanceView.Signed; sg_sweep : option (list byte); sg_granted : list Granted;
  sg_issued : list Issued
}.
Abbreviation M := (SE Signer ServiceRefusal).

Definition with_outside o s : Signer :=
  {| sg_outside := o; sg_view := sg_view s; sg_seen := sg_seen s; sg_limiter := sg_limiter s;
     sg_governance := sg_governance s; sg_sweep := sg_sweep s; sg_granted := sg_granted s;
     sg_issued := sg_issued s |}.
Definition with_view v s : Signer :=
  {| sg_outside := sg_outside s; sg_view := v; sg_seen := sg_seen s; sg_limiter := sg_limiter s;
     sg_governance := sg_governance s; sg_sweep := sg_sweep s; sg_granted := sg_granted s;
     sg_issued := sg_issued s |}.
Definition with_seen seen s : Signer :=
  {| sg_outside := sg_outside s; sg_view := sg_view s; sg_seen := seen; sg_limiter := sg_limiter s;
     sg_governance := sg_governance s; sg_sweep := sg_sweep s; sg_granted := sg_granted s;
     sg_issued := sg_issued s |}.
Definition with_limiter rl s : Signer :=
  {| sg_outside := sg_outside s; sg_view := sg_view s; sg_seen := sg_seen s; sg_limiter := rl;
     sg_governance := sg_governance s; sg_sweep := sg_sweep s; sg_granted := sg_granted s;
     sg_issued := sg_issued s |}.
Definition with_governance g s : Signer :=
  {| sg_outside := sg_outside s; sg_view := sg_view s; sg_seen := sg_seen s; sg_limiter := sg_limiter s;
     sg_governance := g; sg_sweep := sg_sweep s; sg_granted := sg_granted s; sg_issued := sg_issued s |}.
Definition with_sweep c s : Signer :=
  {| sg_outside := sg_outside s; sg_view := sg_view s; sg_seen := sg_seen s; sg_limiter := sg_limiter s;
     sg_governance := sg_governance s; sg_sweep := c; sg_granted := sg_granted s; sg_issued := sg_issued s |}.
Definition with_granted g s : Signer :=
  {| sg_outside := sg_outside s; sg_view := sg_view s; sg_seen := sg_seen s; sg_limiter := sg_limiter s;
     sg_governance := sg_governance s; sg_sweep := sg_sweep s; sg_granted := sg_granted s ++ [g];
     sg_issued := sg_issued s |}.
Definition with_issued i s : Signer :=
  {| sg_outside := sg_outside s; sg_view := sg_view s; sg_seen := sg_seen s; sg_limiter := sg_limiter s;
     sg_governance := sg_governance s; sg_sweep := sg_sweep s; sg_granted := sg_granted s;
     sg_issued := sg_issued s ++ [i] |}.
Definition tables (s : Signer) : Tables := lv_tables (sg_view s).
Definition set_tables (d : Tables) (v : DbLocalView) : DbLocalView :=
  {| lv_db := lv_db v; lv_tables := d; lv_epoch := lv_epoch v |}.

(** [SignerService::with_rate_limits], before any request. *)
Definition starting (o : outside) (v : DbLocalView) (rl : RateLimiter) : Signer :=
  {| sg_outside := o; sg_view := v; sg_seen := ∅; sg_limiter := rl; sg_governance := ∅;
     sg_sweep := None; sg_granted := []; sg_issued := [] |}.

Definition grant (g : Granted) : M unit := modify (with_granted g).
Definition respond (request_id message : list byte) : SignResponse :=
  {| rs_request_id := request_id; rs_validator_pubkey := validator_pubkey;
     rs_signature := sign_message message |}.

(** The checks four handlers share: the deadline and the freshness of the view. *)
Definition timely (expiry_unix : Z) (t : Clock) : M Z :=
  _ ← lift (require (now_unix t <=? expiry_unix) (Refused (Expired expiry_unix (now_unix t))));
  fresh ← gets (fun s => view_is_fresh (fresh_at t) (sg_view s));
  _ ← lift (require fresh (Refused StaleView));
  gets (fun s => observed_epoch (sg_view s)).
Definition same_epoch (requested observed : Z) : M unit :=
  lift (require (requested =? observed) (Refused (EpochMismatch requested observed))).
Definition arm {A} (o : option A) (reason : str) : M A := lift (ok_or o (Refused (Underivable reason))).
Definition bytes32 (bs : list byte) (reason : str) : M (list byte) :=
  lift (if (length bs =? 32)%nat then Ok bs else Err (Refused (Underivable reason))).

(** ** The handlers *)

(** The first half of [handle], up to the end of the first lock: what the
    request asks, and the decision. *)
Definition evaluate_request (t : Clock) (req : SignRequest) : M (SigningRequest * Decision) :=
  a ← lift (map_err Refused (from_wire (sr_action req)));
  let ctx := default default_context (sr_context req) in
  i ← lift (map_err Refused (identity_of a ctx));
  let parsed := {| request_id := sr_request_id req; action := a; epoch := sr_epoch req;
                   canonical_message := sr_canonical_message req; identity := i;
                   expiry_unix := sr_expiry_unix req |} in
  decision ← ((fun s => let (v, decision) := evaluate parsed (sg_view s) (sg_seen s) t in
                        (with_view v s, Ok decision)) : M Decision);
  mret (parsed, decision).

(** The second half: the second lock when there is something to record, the
    log, and the signature. *)
Definition settle (parsed : SigningRequest) (decision : Decision) : M SignResponse :=
  message ← match decision with
            | Sign bytes =>
                _ ← modify (fun s =>
                      with_seen (record (action parsed) (identity parsed) bytes (sg_seen s)) s);
                mret bytes
            | AlreadySigned bytes => mret bytes
            | Refuse r => lift (Err (Refused r))
            end;
  _ ← (match identity parsed with
       | Policy.Deposit txid vout => grant (GMint txid vout)
       | _ => mret tt
       end);
  _ ← modify (with_issued (Statement (action parsed) (identity parsed) message));
  mret (respond (request_id parsed) message).

Definition handle (t : Clock) (req : SignRequest) : M SignResponse :=
  p ← evaluate_request t req;
  settle p.1 p.2.

Definition handle_completion (t : Clock) (req : CompletionSignRequest) : M SignResponse :=
  observed ← timely (cr_expiry_unix req) t;
  _ ← same_epoch (cr_epoch req) observed;
  c ← arm (arm_completion arms) (lit "this validator cannot attest withdrawal completions");
  let '(depth, program_id, protocol_version) := c in
  txid ← bytes32 (cr_payout_txid req) (lit "payout txid is not 32 bytes");
  a ← (fun s =>
    let (o, r) := CompletionView.attest depth (cr_withdrawal_index req) txid (cr_payout_height req)
                    (sg_outside s) (tables s) in
    (with_outside o s, map_err CompletionRefused r));
  let message :=
    withdrawal_completion_message protocol_version program_id observed
      (CompletionView.at_withdrawal_index a) (CompletionView.at_payout_txid a)
      (CompletionView.at_payout_height a) (CompletionView.at_amount a)
      (CompletionView.at_dest_commitment a) in
  _ ← grant (GCompletion (CompletionView.at_withdrawal_index a) (CompletionView.at_payout_txid a));
  _ ← modify (with_issued (CompletionOf (CompletionView.at_withdrawal_index a) message));
  mret (respond (cr_request_id req) message).

(** [file] is what the approvals file holds at this request. *)
Definition handle_governance (t : Clock) (file : FileRead) (req : GovernanceSignRequest)
  : M SignResponse :=
  observed ← timely (gr_expiry_unix req) t;
  c ← arm (arm_governance arms)
        (lit "this validator has no governance arm and will not sign governance actions");
  let '(program_id, protocol_version) := c in
  a ← lift (if gr_action req <=? U8_MAX then Ok (gr_action req)
            else Err (Refused (Underivable (lit "governance action does not fit in a byte"))));
  commitment ← bytes32 (gr_params_commitment req) (lit "parameter commitment is not 32 bytes");
  _ ← (fun s =>
    let (signed, r) := GovernanceView.approve file a commitment (gr_epoch req) observed (now_unix t)
                         (sg_governance s) in
    (with_governance signed s, map_err GovernanceRefused r));
  let message := governance_message protocol_version program_id observed a commitment in
  _ ← grant (GGovernance a observed);
  _ ← modify (with_issued (GovernanceAct a commitment message));
  mret (respond (gr_request_id req) message).

Definition handle_sweep (t : Clock) (file : FileRead) (req : SweepSignRequest) : M PartialResponse :=
  observed ← timely (wr_expiry_unix req) t;
  _ ← same_epoch (wr_epoch req) observed;
  c ← arm (arm_sweep arms) (lit "this validator has no sweep arm and will not sign vault sweeps");
  let '(V, protocol_version) := c in
  swept ← (fun s =>
    let (w, r) := SweepView.sign_sweep V (tables s) file (wr_unsigned_tx_hex req) protocol_version (now_unix t)
                    {| SweepView.w_outside := sg_outside s; SweepView.w_signed := sg_sweep s |} in
    (with_sweep (SweepView.w_signed w) (with_outside (SweepView.w_outside w) s), map_err SweepRefused r));
  _ ← grant (GSweep (SweepView.swp_inputs swept) (SweepView.swp_swept_atomic swept));
  _ ← modify (with_issued (SweepSpend (wr_unsigned_tx_hex req)));
  let p := SweepView.swp_partial swept in
  mret {| pa_request_id := wr_request_id req; pa_validator_pubkey := validator_pubkey;
          pa_vault_pubkey := PayoutView.pp_vault_pubkey p; pa_signatures := PayoutView.pp_signatures p |}.

Definition handle_payout (t : Clock) (req : PayoutSignRequest) : M PartialResponse :=
  observed ← timely (pr_expiry_unix req) t;
  _ ← same_epoch (pr_epoch req) observed;
  V ← arm (arm_payout arms) (lit "this validator holds no vault key and cannot sign payouts");
  p ← (fun s =>
    let (w, r) :=
      PayoutView.sign_payout V (pr_withdrawal_index req) (pr_quorum_attempt req) (pr_canonical_intent req)
        (pr_unsigned_tx_hex req) (pr_proposer_index req) (now_unix t)
        {| PayoutView.v_outside := sg_outside s; PayoutView.v_db := tables s |} in
    (with_view (set_tables (PayoutView.v_db w) (sg_view s)) (with_outside (PayoutView.v_outside w) s),
     map_err PayoutRefused r));
  _ ← grant (GPayout (pr_withdrawal_index req) (pr_quorum_attempt req));
  _ ← modify (with_issued (PayoutSpend (pr_withdrawal_index req) (pr_quorum_attempt req)
                             (pr_unsigned_tx_hex req)));
  mret {| pa_request_id := pr_request_id req; pa_validator_pubkey := validator_pubkey;
          pa_vault_pubkey := PayoutView.pp_vault_pubkey p; pa_signatures := PayoutView.pp_signatures p |}.

(** ** The transport *)

Definition check_rate_limit (peer : str) (instant : Z) : M unit := fun s =>
  let (rl, allowed) := check_at peer instant (sg_limiter s) in
  (with_limiter rl s, require allowed RateLimited).

(** The methods of [FederationSigner]: the limiter first. *)
Definition rpc {A} (peer : str) (instant : Z) (handler : M A) (s : Signer) : Signer * result Status A :=
  match check_rate_limit peer instant s with
  | (s, Err r) => (s, Err (ResourceExhausted r))
  | (s, Ok _) => let (s, r) := handler s in (s, map_err FailedPrecondition r)
  end.

Definition health (s : Signer) : list byte * Z := (validator_pubkey, observed_epoch (sg_view s)).
End service.

Definition REQUEST_TTL_SECONDS : Z := 120.

Definition mint_request (request_id : list byte) (epoch : Z) (canonical_message txid : list byte)
    (vout now_unix : Z) : SignRequest :=
  {| sr_request_id := request_id; sr_action := 1; sr_epoch := epoch;
     sr_canonical_message := canonical_message;
     sr_context := Some {| cx_txid := txid; cx_vout := vout; cx_withdrawal_index := 0; cx_quorum_attempt := 0 |};
     sr_expiry_unix := now_unix + REQUEST_TTL_SECONDS |}.

Definition payout_request (request_id : list byte) (epoch : Z) (canonical_message : list byte)
    (withdrawal_index quorum_attempt now_unix : Z) : SignRequest :=
  {| sr_request_id := request_id; sr_action := 2; sr_epoch := epoch;
     sr_canonical_message := canonical_message;
     sr_context := Some {| cx_txid := []; cx_vout := 0; cx_withdrawal_index := withdrawal_index;
                           cx_quorum_attempt := quorum_attempt |};
     sr_expiry_unix := now_unix + REQUEST_TTL_SECONDS |}.
