(* ===== verification/SignerServiceProps.v ===== *)
(** * The signer service: theorems

    The memory of a running signer rules out contradictory signatures, in any
    interleaving of its handlers and whatever other processes do to its
    databases in between, except for an identity two requests of which were
    between the two locks of [handle] at once; such a race, at work; what a
    mint signature says; and what the log misses.  Concrete requests at the
    end. *)
From Stdlib Require Import ZArith Lia Strings.Byte.
From stdpp Require Import base numbers strings gmap list.
From S2P Require Import Executor ExecutorScenario CompletionView PayoutView PayoutScenario.
From S2P Require Import GovernanceView.
From S2P Require Import SweepView SweepViewProps.
From S2P Require Import Prelude Effects Messages State Token Program Scenario Accounts.
From S2P Require Import SolanaInstruction Completion.
From S2P Require Import CompletionProps Orchestrator OrchestratorProps MintScenario.
From S2P Require Import Hex Text DepositDb Address Rpc WithdrawalDb Coin Vault Assignment Multisig.
From S2P Require Import WithdrawalConfig Epoch Sweep RateLimit AuditLog Policy LocalView.
From S2P Require Import SignerService.

Section props.
Context `{Sh : Sha2, Rt : SolanaRuntime, Rn : Runtime, N : PayoutRpc, P : !PayoutView.PartialSigner outside}.
Context (arms : Arms) (validator_pubkey : list byte) (sign_message : list byte -> list byte).
Implicit Types (s : Signer).
Abbreviation handle := (handle validator_pubkey sign_message).
Abbreviation settle := (settle validator_pubkey sign_message).
Abbreviation handle_completion := (handle_completion arms validator_pubkey sign_message).
Abbreviation handle_governance := (handle_governance arms validator_pubkey sign_message).
Abbreviation handle_sweep := (handle_sweep arms validator_pubkey).
Abbreviation handle_payout := (handle_payout arms validator_pubkey).

(** A handler that decides under one lock, the limiter, or another process at
    the databases, the epoch and the node. *)
Inductive handler_step s : Signer -> Prop :=
| hs_completion t req : handler_step s (handle_completion t req s).1
| hs_governance t file req : handler_step s (handle_governance t file req s).1
| hs_sweep t file req : handler_step s (handle_sweep t file req s).1
| hs_payout t req : handler_step s (handle_payout t req s).1
| hs_limiter peer instant : handler_step s (check_rate_limit peer instant s).1
| hs_world o v : handler_step s (with_outside o (with_view v s)).

(** ** The service and its requests in flight

    A request of [handle] is in flight between its two locks.  The ghost
    [sv_raced] holds the identities for which two requests, each with the
    decision to sign for the first time, have been in flight at once. *)

Record Service := {
  sv_signer : Signer;
  sv_flight : list (SigningRequest * Decision);
  sv_raced : gset (Action * SigningIdentity)
}.
Definition idle s : Service := {| sv_signer := s; sv_flight := []; sv_raced := ∅ |}.

(** About to sign for the first time for the identity. *)
Definition signing (k : Action * SigningIdentity) (p : SigningRequest * Decision) : bool :=
  match p.2 with Sign _ => bool_decide (key p.1 = k) | _ => false end.

Definition evaluating (t : Clock) (req : SignRequest) (S : Service) : Service :=
  match evaluate_request t req (sv_signer S) with
  | (s, Ok p) =>
      {| sv_signer := s; sv_flight := p :: sv_flight S;
         sv_raced := if signing (key p.1) p && existsb (signing (key p.1)) (sv_flight S)
                     then {[key p.1]} ∪ sv_raced S else sv_raced S |}
  | (s, Err _) => {| sv_signer := s; sv_flight := sv_flight S; sv_raced := sv_raced S |}
  end.

Definition settling (n : nat) (S : Service) : Service :=
  match sv_flight S !! n with
  | Some p => {| sv_signer := (settle p.1 p.2 (sv_signer S)).1;
                 sv_flight := delete n (sv_flight S); sv_raced := sv_raced S |}
  | None => S
  end.

(** The halves of any number of requests interleave in any order. *)
Inductive service_step (S : Service) : Service -> Prop :=
| ss_evaluate t req : service_step S (evaluating t req S)
| ss_settle n : service_step S (settling n S)
| ss_handler s : handler_step (sv_signer S) s ->
    service_step S {| sv_signer := s; sv_flight := sv_flight S; sv_raced := sv_raced S |}.

(** ** What the memory knows of what was issued *)

Definition remembered s (i : Issued) : Prop :=
  match i with
  | Statement a _ _ => a <> Governance
  | GovernanceAct action c _ => sg_governance s !! action = Some c
  | SweepSpend hex => exists V d file protocol_version now tx plan,
      parse_hex hex = Ok tx /\ sweep_granted V d file protocol_version now tx plan /\
      snd <$> arm_sweep arms = Some protocol_version /\
      sg_sweep s = Some (Sweep.commitment protocol_version plan)
  | CompletionOf _ _ | PayoutSpend _ _ _ => True
  end.

(** The memory of governance and sweeps never forgets. *)
Record extends s s' : Prop := {
  ex_governance : forall k c, sg_governance s !! k = Some c -> sg_governance s' !! k = Some c;
  ex_sweep : forall c, sg_sweep s = Some c -> sg_sweep s' = Some c
}.

(** A run that issues only what it remembers, and no statement. *)
Record faithful s s' : Prop := {
  fa_extends : extends s s';
  fa_seen : sg_seen s' = sg_seen s;
  fa_issued : exists new, sg_issued s' = sg_issued s ++ new /\ Forall (remembered s') new /\
    forall a i m, Statement a i m ∉ new
}.

Lemma remembered_extends s s' i : extends s s' -> remembered s i -> remembered s' i.
Proof.
  intros [Hg Hw]. destruct i; cbn; [done|done|apply Hg|done|].
  intros (V & d & file & pv & now & tx & plan & H1 & H2 & H3 & H4). exists V, d, file, pv, now, tx, plan. auto.
Qed.

#[local] Instance faithful_reflexive : Reflexive faithful.
Proof. intros s. split; [done|done|]. exists []. rewrite app_nil_r. split_and!; [done|done|]. by intros ? ? ? ?%elem_of_nil. Qed.

(** Nothing issued and nothing forgotten. *)
Lemma faithful_quiet s s' :
  extends s s' -> sg_seen s' = sg_seen s -> sg_issued s' = sg_issued s -> faithful s s'.
Proof.
  intros He Hs Hi. split; [done|done|]. exists []. rewrite Hi, app_nil_r. split_and!; [done|done|].
  by intros ? ? ? ?%elem_of_nil.
Qed.

(** One thing issued, which is not a statement. *)
Lemma faithful_one s s' i :
  extends s s' -> sg_seen s' = sg_seen s -> sg_issued s' = sg_issued s ++ [i] -> remembered s' i ->
  (forall a id m, i <> Statement a id m) -> faithful s s'.
Proof.
  intros He Hs Hi Hr Hn. split; [done|done|]. exists [i]. split_and!; [done|by repeat constructor|].
  intros a id m [= H]%list_elem_of_singleton. by apply (Hn a id m).
Qed.

Lemma timely_keeps expiry t s : (timely expiry t s).1 = s.
Proof.
  unfold timely, gets, lift, mbind, SE_bind. destruct (require _ _); [|done]. by destruct (require _ _).
Qed.

(** A handler that begins with checks is faithful when what follows is. *)
Lemma checked_faithful {A B} (m : SE Signer ServiceRefusal A) (k : A -> SE Signer ServiceRefusal B) s :
  (m s).1 = s -> (forall a, (m s).2 = Ok a -> faithful s (k a s).1) -> faithful s ((m ≫= k) s).1.
Proof.
  intros Hm Hk. unfold mbind, SE_bind. destruct (m s) as [s1 [a|e]]; cbn in *; subst; [by apply Hk|reflexivity].
Qed.

Ltac checks :=
  repeat (apply checked_faithful; [first [apply timely_keeps|reflexivity]|intros ? ?];
          repeat match goal with x : _ * _ |- _ => destruct x end).

Lemma handle_completion_faithful t req s : faithful s (handle_completion t req s).1.
Proof.
  unfold SignerService.handle_completion. checks. unfold mbind at 1, SE_bind at 1.
  destruct (CompletionView.attest _ _ _ _ _ _) as [o [att|e]]; cbn; [|by apply faithful_quiet].
  by eapply faithful_one.
Qed.

Lemma handle_payout_faithful t req s : faithful s (handle_payout t req s).1.
Proof.
  unfold SignerService.handle_payout. checks. unfold mbind at 1, SE_bind at 1.
  destruct (PayoutView.sign_payout _ _ _ _ _ _ _ _) as [w [p|e]]; cbn; [|by apply faithful_quiet].
  by eapply faithful_one.
Qed.

Lemma handle_governance_faithful t file req s : faithful s (handle_governance t file req s).1.
Proof.
  unfold SignerService.handle_governance.
  apply checked_faithful; [apply timely_keeps|]. intros observed _.
  apply checked_faithful; [done|]. intros [program_id pv] _. apply checked_faithful; [done|]. intros a _.
  apply checked_faithful; [done|]. intros c _. unfold mbind at 1, SE_bind at 1.
  set (call := {| gc_file := file; gc_action := a; gc_commitment := c; gc_requested := gr_epoch req;
                  gc_observed := observed; gc_now := now_unix t |}).
  pose proof (answer_signed call (sg_governance s)) as Hs. pose proof (proj1 (answer_Ok call (sg_governance s))) as Ho.
  change (approve file a c (gr_epoch req) observed (now_unix t) (sg_governance s)) with (answer call (sg_governance s)).
  destruct (answer call (sg_governance s)) as [g [[]|e]]; cbn [fst snd] in *; subst g; [|by apply faithful_quiet].
  destruct (Ho eq_refl) as [_ Hp]. change (gc_action call) with a in *. change (gc_commitment call) with c in *.
  assert (forall s', sg_seen s' = sg_seen s -> sg_governance s' = <[a := c]> (sg_governance s) ->
    sg_sweep s' = sg_sweep s -> (exists m, sg_issued s' = sg_issued s ++ [GovernanceAct a c m]) -> faithful s s') as Hf;
    [|apply Hf; first [reflexivity|eexists; reflexivity]].
  intros s' H1 H2 H3 [m H4]. eapply faithful_one; [|done|exact H4|cbn; rewrite H2; apply lookup_insert_eq|done].
  constructor; rewrite ?H2, ?H3; try done. intros k c' Hk.
  destruct (decide (a = k)) as [<-|]; [|by rewrite lookup_insert_ne].
  rewrite lookup_insert_eq. by rewrite (Hp _ Hk).
Qed.

Lemma handle_sweep_faithful t file req s : faithful s (handle_sweep t file req s).1.
Proof.
  unfold SignerService.handle_sweep. do 2 (apply checked_faithful; [first [apply timely_keeps|reflexivity]|intros ? ?]).
  apply checked_faithful; [done|]. intros [V pv] Harm. apply ok_or_Ok in Harm.
  unfold mbind at 1, SE_bind at 1.
  destruct (SweepView.sign_sweep _ _ _ _ _ _ _) as [w r] eqn:E.
  apply sign_sweep_grants in E as [[-> [e ->]]|(tx & plan & Hp & Hg & Hb & Hw & Ho)].
  { cbn. by apply faithful_quiet. }
  assert (forall c, sg_sweep s = Some c -> SweepView.w_signed w = Some c) as Hk
    by (cbn in Hb; intros c Hc; destruct Hb; congruence).
  destruct r as [sw|e]; cbn; [|by apply faithful_quiet].
  eapply faithful_one; [done|done|done| |done]. cbn.
  exists V, (tables s), file, pv, (now_unix t), tx, plan. rewrite Harm. by split_and!.
Qed.

Lemma handler_step_faithful s s' : handler_step s s' -> faithful s s'.
Proof.
  intros [t req|t file req|t file req|t req|peer instant|o v].
  - apply handle_completion_faithful.
  - apply handle_governance_faithful.
  - apply handle_sweep_faithful.
  - apply handle_payout_faithful.
  - unfold check_rate_limit. destruct (check_at _ _ _). by apply faithful_quiet.
  - by apply faithful_quiet.
Qed.

(** ** The two halves of [handle] *)

Lemma evaluate_request_inv t req s :
  exists v, (evaluate_request t req s).1 = with_view v s /\
  forall p, (evaluate_request t req s).2 = Ok p ->
    from_wire (sr_action req) = Ok (action p.1) /\
    identity_of (action p.1) (default default_context (sr_context req)) = Ok (identity p.1) /\
    evaluate p.1 (sg_view s) (sg_seen s) t = (v, p.2) /\
    request_id p.1 = sr_request_id req /\ epoch p.1 = sr_epoch req /\
    canonical_message p.1 = sr_canonical_message req /\ expiry_unix p.1 = sr_expiry_unix req.
Proof.
  assert (s = with_view (sg_view s) s) as Hs by (by destruct s).
  unfold evaluate_request, mbind, SE_bind, lift.
  destruct (from_wire (sr_action req)) as [a|r]; cbn; [|by exists (sg_view s)].
  destruct (identity_of a _) as [i|r] eqn:Hi; cbn; [|by exists (sg_view s)].
  destruct (evaluate _ _ _ _) as [v d] eqn:E. exists v. split; [done|]. intros p [= <-]. by split_and!.
Qed.

(** What a decision in flight says to sign. *)
Definition signs (d : Decision) : option (list byte) :=
  match d with Sign m | AlreadySigned m => Some m | Refuse _ => None end.

Lemma settle_Some p s m :
  signs p.2 = Some m ->
  exists s' r, settle p.1 p.2 s = (s', Ok r) /\ r = respond validator_pubkey sign_message (request_id p.1) m /\
    sg_view s' = sg_view s /\ sg_governance s' = sg_governance s /\ sg_sweep s' = sg_sweep s /\
    sg_seen s' = (match p.2 with Sign _ => <[key p.1 := m]> (sg_seen s) | _ => sg_seen s end) /\
    sg_issued s' = sg_issued s ++ [Statement (action p.1) (identity p.1) m] /\
    sg_granted s' = sg_granted s ++ match identity p.1 with Policy.Deposit txid vout => [GMint txid vout] | _ => [] end.
Proof.
  destruct p as [q d]. cbn. unfold SignerService.settle, key.
  destruct d; intros Hd; cbn in Hd; [injection Hd as ->|injection Hd as ->|done];
    destruct (identity q) eqn:Hi; eexists _, _; (split; [reflexivity|]); cbn; rewrite ?app_nil_r; by split_and!.
Qed.

Lemma settle_None p s : signs p.2 = None -> (settle p.1 p.2 s).1 = s.
Proof. by destruct p as [q []]. Qed.

(** ** The memory of statements *)

(** For an identity that has not raced: what was signed and what is about to be
    signed again is what is remembered, and a first signature is the only one
    in flight, with nothing remembered yet. *)
Record coherent (S : Service) : Prop := {
  co_issued a i m : Statement a i m ∈ sg_issued (sv_signer S) -> (a, i) ∉ sv_raced S ->
    sg_seen (sv_signer S) !! (a, i) = Some m;
  co_again q m : (q, AlreadySigned m) ∈ sv_flight S -> key q ∉ sv_raced S ->
    sg_seen (sv_signer S) !! key q = Some m;
  co_first q m : (q, Sign m) ∈ sv_flight S -> key q ∉ sv_raced S ->
    sg_seen (sv_signer S) !! key q = None;
  co_alone k : k ∉ sv_raced S -> (length (List.filter (signing k) (sv_flight S)) <= 1)%nat
}.

Lemma signing_Sign k p : signing k p = true <-> key p.1 = k /\ exists m, p.2 = Sign m.
Proof.
  destruct p as [q [m|m|r]]; cbn; rewrite ?bool_decide_eq_true; split; try done; try (by intros (_ & ? & ?)).
  - eauto.
  - by intros [? _].
Qed.

(** One first signature among the others: there is none beside it. *)
Lemma signing_filter k before p after :
  List.filter (signing k) (before ++ p :: after) =
    List.filter (signing k) before ++ (if signing k p then [p] else []) ++ List.filter (signing k) after.
Proof. rewrite List.filter_app. cbn. by destruct (signing k p). Qed.

Lemma signing_in k q m l : (q, Sign m) ∈ l -> key q = k -> (1 <= length (List.filter (signing k) l))%nat.
Proof.
  intros Hin <-. apply list_elem_of_split in Hin as (l1 & l2 & ->). rewrite signing_filter. cbn.
  rewrite bool_decide_true by done. rewrite !length_app. cbn. lia.
Qed.

Lemma coherent_idle s : sg_issued s = [] -> coherent (idle s).
Proof.
  intros Hi. split; cbn; rewrite ?Hi.
  - by intros ? ? ? ?%elem_of_nil.
  - by intros ? ? ?%elem_of_nil.
  - by intros ? ? ?%elem_of_nil.
  - cbn. lia.
Qed.

(** What keeps the seen set and issues no statement keeps the memory coherent. *)
Lemma coherent_same S s :
  coherent S -> sg_seen s = sg_seen (sv_signer S) ->
  (forall a i m, Statement a i m ∈ sg_issued s -> Statement a i m ∈ sg_issued (sv_signer S)) ->
  coherent {| sv_signer := s; sv_flight := sv_flight S; sv_raced := sv_raced S |}.
Proof. intros [H1 H2 H3 H4] Hs Hi. split; cbn; rewrite ?Hs; eauto. Qed.

Lemma coherent_evaluating t req S : coherent S -> coherent (evaluating t req S).
Proof.
  intros HS. unfold evaluating. destruct (evaluate_request_inv t req (sv_signer S)) as (v & Hv & Hp).
  destruct (evaluate_request t req (sv_signer S)) as [s [p|e]]; cbn in Hv; subst s; [|by apply coherent_same].
  destruct (Hp p eq_refl) as (_ & _ & He & _). clear Hp. destruct HS as [H1 H2 H3 H4]. 
  set (raced := if signing (key p.1) p && _ then _ else _).
  assert (forall k, k ∉ raced -> k ∉ sv_raced S) as Hr by (subst raced; destruct (_ && _); set_solver).
  split; cbn -[raced].
  - intros a i m Hi Hk. by apply H1; [|apply Hr].
  - intros q m [<-|Hq]%elem_of_cons Hk; [|by apply H2; [|apply Hr]]. by apply evaluate_AlreadySigned in He as (_ & _ & ? & _).
  - intros q m [<-|Hq]%elem_of_cons Hk; [|by eapply H3; [|apply Hr]]. by apply evaluate_Sign in He as (_ & _ & ? & _).
  - intros k Hk. specialize (H4 k (Hr k Hk)). destruct (signing k p) eqn:Ep; [|done].
    pose proof Ep as Ep'. apply signing_Sign in Ep' as [<- _]. subst raced. rewrite Ep in Hk. cbn [andb] in Hk.
    destruct (existsb _ _) eqn:Ex; [set_solver|]. apply not_true_iff_false in Ex. cbn.
    destruct (List.filter _ _) as [|x l] eqn:Ef; [cbn; lia|]. destruct Ex.
    apply existsb_exists. exists x. apply filter_In. rewrite Ef. by left.
Qed.

Lemma settling_split n S p :
  sv_flight S !! n = Some p -> exists before after,
    sv_flight S = before ++ p :: after /\ delete n (sv_flight S) = before ++ after.
Proof.
  intros H. exists (take n (sv_flight S)), (drop (1 + n) (sv_flight S)).
  cbn [Nat.add]. rewrite (take_drop_middle _ _ _ H), delete_take_drop. done.
Qed.

Lemma coherent_settling n S : coherent S -> coherent (settling n S).
Proof.
  unfold settling. destruct (sv_flight S !! n) as [p|] eqn:Hn; [|done].
  apply settling_split in Hn as (before & after & Hf & ->). intros [H1 H2 H3 H4]. rewrite Hf in *.
  assert (forall x, x ∈ before ++ after -> x ∈ before ++ p :: after) as Hin by set_solver.
  assert (forall k, k ∉ sv_raced S ->
    (length (List.filter (signing k) (before ++ after)) <= 1 /\
     (signing k p = true -> length (List.filter (signing k) (before ++ after)) = 0))%nat) as Hl.
  { intros k Hk. specialize (H4 k Hk). rewrite signing_filter, !length_app in H4. rewrite List.filter_app, length_app.
    destruct (signing k p); cbn in H4; split; try done; lia. }
  destruct (signs p.2) as [m|] eqn:Hm.
  2: { rewrite settle_None by done. split; cbn; eauto. intros k Hk. by apply Hl. }
  destruct (settle_Some p (sv_signer S) m Hm) as (s' & r & -> & _ & _ & _ & _ & Hs & Hi & _).
  assert (p ∈ before ++ p :: after) as Hp by set_solver.
  assert (key p.1 ∉ sv_raced S -> sg_seen s' !! key p.1 = Some m) as Hkey.
  { intros Hk. rewrite Hs. destruct p as [q [b|b|]]; cbn in *; [by rewrite lookup_insert_eq| |done].
    injection Hm as ->. by apply H2. }
  assert (forall k, k <> key p.1 -> sg_seen s' !! k = sg_seen (sv_signer S) !! k) as Hne.
  { intros k Hk. rewrite Hs. destruct p.2; [by rewrite lookup_insert_ne|done|done]. }
  split; cbn.
  - intros a i x. rewrite Hi. intros [Hx|[= -> -> ->]%list_elem_of_singleton]%elem_of_app Hk; [|by apply Hkey].
    specialize (H1 a i x Hx Hk). destruct (decide ((a, i) = key p.1)) as [E|E]; [|by rewrite Hne].
    rewrite E in H1, Hk |- *. rewrite Hkey by done. destruct p as [q [b|b|]]; cbn in *; [|injection Hm as ->|done].
    + rewrite (H3 q b) in H1 by done. done.
    + rewrite (H2 q m) in H1 by done. congruence.
  - intros q x Hq Hk. pose proof (H2 q x (Hin _ Hq) Hk) as Hx. destruct (decide (key q = key p.1)) as [E|E]; [|by rewrite Hne].
    rewrite E in Hx, Hk |- *. rewrite Hkey by done. destruct p as [q' [b|b|]]; cbn in *; [|injection Hm as ->|done].
    + rewrite (H3 q' b) in Hx by done. done.
    + rewrite (H2 q' m) in Hx by done. congruence.
  - intros q x Hq Hk. pose proof (H3 q x (Hin _ Hq) Hk) as Hx. destruct (decide (key q = key p.1)) as [E|E]; [|by rewrite Hne].
    rewrite E in Hx, Hk. destruct p as [q' [b|b|]]; cbn in *; [|rewrite (H2 q' b) in Hx; done|done].
    destruct (Hl (key q') Hk) as [_ H0]. pose proof (signing_in (key q') q x (before ++ after) Hq E).
    rewrite H0 in H; [lia|]. cbn. by apply bool_decide_eq_true.
  - intros k Hk. by apply Hl.
Qed.

(** Nothing is signed for governance through [handle]. *)
Definition actionable (p : SigningRequest * Decision) : Prop :=
  match p.2 with Refuse _ => True | _ => action p.1 <> Governance end.

Record service_inv (S : Service) : Prop := {
  si_coherent : coherent S;
  si_remembered : Forall (remembered (sv_signer S)) (sg_issued (sv_signer S));
  si_flight : Forall actionable (sv_flight S)
}.

Lemma justified_actionable request v t : justified (V := db_local_view) request v t -> action request <> Governance.
Proof. intros [_ _ _ Hd] E. rewrite E in Hd. cbn in Hd. unfold derive in Hd. by destruct (identity request). Qed.

Lemma service_step_inv S S' : service_step S S' -> service_inv S -> service_inv S'.
Proof.
  intros Hstep [Hc Hr Hf]. destruct Hstep as [t req|n|s Hs].
  - split; [by apply coherent_evaluating| |]; unfold evaluating;
      destruct (evaluate_request_inv t req (sv_signer S)) as (v & Hv & Hp);
      destruct (evaluate_request t req (sv_signer S)) as [s [p|e]]; cbn in *; subst s; try done.
    constructor; [|done]. destruct (Hp p eq_refl) as (_ & _ & He & _). unfold actionable. destruct p as [q []]; cbn in *; [| |done].
    + apply evaluate_Sign in He as (Hj & _). by eapply justified_actionable.
    + apply evaluate_AlreadySigned in He as (Hj & _). by eapply justified_actionable.
  - split; [by apply coherent_settling| |]; unfold settling; destruct (sv_flight S !! n) as [p|] eqn:Hn; try done;
      apply settling_split in Hn as (before & after & Hl & Hdel); cbn; rewrite Hl, Forall_app, Forall_cons in Hf;
      destruct Hf as (? & Ha & ?); [|rewrite Hdel; by apply Forall_app]. destruct (signs p.2) as [m|] eqn:Hm; [|by rewrite settle_None].
    destruct (settle_Some p (sv_signer S) m Hm) as (s' & r & -> & _ & _ & Hg & Hw & _ & Hi & _). cbn. rewrite Hi.
    apply Forall_app. split; [|constructor; [|done]; unfold actionable in Ha; cbn; by destruct p.2].
    eapply Forall_impl; [exact Hr|]. intros i. apply remembered_extends. constructor; congruence.
  - apply handler_step_faithful in Hs as [He Hs (new & Hi & Hn & Hno)]. split; [| |done].
    + apply coherent_same; [done|done|]. intros a i m. rewrite Hi. intros [?|?]%elem_of_app; [done|]. by destruct (Hno a i m).
    + cbn. rewrite Hi. apply Forall_app. split; [|done]. eapply Forall_impl; [exact Hr|]. intros i. by apply remembered_extends.
Qed.

Lemma star_service_inv S S' : star service_step S S' -> service_inv S -> service_inv S'.
Proof. induction 1 as [|a b c Hab IH Hbc]; [done|]. intros H. eapply service_step_inv; eauto. Qed.

(** A request served alone is [handle]. *)
Lemma alone_handles t req s : star service_step (idle s) (idle (handle t req s).1).
Proof.
  pose proof (ss_evaluate (idle s) t req) as H1. unfold evaluating in H1.
  unfold SignerService.handle, mbind, SE_bind. cbn [idle sv_signer sv_flight sv_raced existsb] in H1.
  destruct (evaluate_request t req s) as [s' [p|e]].
  - rewrite andb_false_r in H1. eapply star_step; [eapply star_step; [constructor|exact H1]|]. exact (ss_settle _ 0).
  - eapply star_step; [constructor|exact H1].
Qed.

(** C13: A signer process, whose requests interleave in any order between the two locks
    of handle (evaluate, record) while other processes change its databases, epoch and
    node at will: for one action and identity it signs one message, unless two requests
    for that identity were both between the locks at once with a decision to sign for
    the first time (then it can sign two, Example race_signs_twice); it never signs
    through handle for governance, it signs one parameter commitment per governance
    action, and all vault sweeps it signs realise plans of one commitment, each approved
    by its operator over its own outputs. *)
Theorem signer_never_contradicts_itself o v rl S :
  star service_step (idle (starting o v rl)) S ->
  (forall a i m m', Statement a i m ∈ sg_issued (sv_signer S) -> Statement a i m' ∈ sg_issued (sv_signer S) ->
     (a, i) ∉ sv_raced S -> m = m') /\
  (forall i m, Statement Governance i m ∉ sg_issued (sv_signer S)) /\
  (forall action c c' m m', GovernanceAct action c m ∈ sg_issued (sv_signer S) ->
     GovernanceAct action c' m' ∈ sg_issued (sv_signer S) -> c = c') /\
  (forall hex hex', SweepSpend hex ∈ sg_issued (sv_signer S) -> SweepSpend hex' ∈ sg_issued (sv_signer S) ->
     exists protocol_version tx tx' plan plan', parse_hex hex = Ok tx /\ parse_hex hex' = Ok tx' /\
       (exists V d file now, sweep_granted V d file protocol_version now tx plan) /\
       (exists V d file now, sweep_granted V d file protocol_version now tx' plan') /\
       Sweep.commitment protocol_version plan = Sweep.commitment protocol_version plan').
Proof.
  intros [[Hi _ _ _] Hn _]%star_service_inv; [|by split; [apply coherent_idle|constructor|constructor]].
  rewrite Forall_forall in Hn. split_and!.
  - intros a i m m' H H' Hk. pose proof (Hi a i m H Hk). pose proof (Hi a i m' H' Hk). congruence.
  - by intros i m H%Hn.
  - intros action c c' m m' H%Hn H'%Hn. cbn in *. congruence.
  - intros hex hex' (V & d & file & pv & now & tx & plan & H1 & H2 & H3 & H4)%Hn
      (V' & d' & file' & pv' & now' & tx' & plan' & H1' & H2' & H3' & H4')%Hn.
    assert (pv' = pv) as -> by congruence. exists pv, tx, tx', plan, plan'. split_and!; [done|done|eauto 10|eauto 10|congruence].
Qed.

(** ** What a mint signature says *)

Lemma timely_Ok expiry t s s' observed :
  timely expiry t s = (s', Ok observed) <->
  s' = s /\ now_unix t <= expiry /\ is_fresh_at (lv_epoch (sg_view s)) (fresh_at t) = true /\
  observed = Epoch.epoch (lv_epoch (sg_view s)).
Proof.
  unfold timely, gets, lift, mbind, SE_bind. cbn [view_is_fresh observed_epoch db_local_view].
  destruct (Z.leb_spec (now_unix t) expiry); cbn; [|split; [done|lia]].
  destruct (is_fresh_at _ _); cbn; [|split; [done|by intros (_ & _ & ? & _)]].
  split; [by intros [= <- <-]|by intros (-> & _ & _ & ->)].
Qed.

Lemma handle_Ok t req s s' r :
  handle t req s = (s', Ok r) ->
  exists a i, from_wire (sr_action req) = Ok a /\
    identity_of a (default default_context (sr_context req)) = Ok i /\
    now_unix t <= sr_expiry_unix req /\ is_fresh_at (lv_epoch (sg_view s)) (fresh_at t) = true /\
    sr_epoch req = Epoch.epoch (lv_epoch (sg_view s)) /\
    (derive (derived_at t) a i (sg_view s)).2 = Some (sr_canonical_message req) /\
    r = respond validator_pubkey sign_message (sr_request_id req) (sr_canonical_message req) /\
    sg_issued s' = sg_issued s ++ [Statement a i (sr_canonical_message req)] /\
    sg_granted s' = sg_granted s ++ match i with Policy.Deposit txid vout => [GMint txid vout] | _ => [] end.
Proof.
  unfold SignerService.handle. rewrite SE_bind_Ok. intros (s1 & p & He & H).
  destruct (evaluate_request_inv t req s) as (v & Hv & Hp). rewrite He in Hv, Hp. cbn in Hv, Hp. subst s1.
  destruct (Hp p eq_refl) as (Ha & Hi & Hd & Hid & Hep & Hm & Hx). clear Hp.
  destruct (signs p.2) as [m|] eqn:Hs; [|destruct p as [q []]; done].
  destruct (settle_Some p (with_view v s) m Hs) as (s2 & r' & Hst & Hr & _ & _ & _ & _ & H1 & H2).
  rewrite Hst in H. injection H as <- <-.
  assert (justified p.1 (sg_view s) t /\ m = canonical_message p.1) as [[Hj1 Hj2 Hj3 Hj4] Hc].
  { destruct p as [q [b|b|]]; cbn in *; [| |done]; injection Hs as ->.
    - by apply evaluate_Sign in Hd as (? & ? & _).
    - by apply evaluate_AlreadySigned in Hd as (? & ? & _). }
  exists (action p.1), (identity p.1). rewrite <- Hm, <- Hx, <- Hep, <- Hid, <- Hc. subst m. cbn in Hj4. by split_and!.
Qed.

(** A signature on a mint request is over the canonical message of a ready or
    submitted deposit of the signer's own database, for the requested outpoint, that
    equals the message recomputed from the live row and hashes to the stored hash; the
    request had not expired, the epoch it names is the one the signer observed within
    the staleness bound, and the grant is logged. *)
Theorem signed_mint_is_its_own request_id epoch message txid vout asked_at t s s' r :
  handle t (mint_request request_id epoch message txid vout asked_at) s = (s', Ok r) ->
  let view := sg_view s in
  now_unix t <= asked_at + REQUEST_TTL_SECONDS /\
  observed_at (lv_epoch view) <= fresh_at t <= observed_at (lv_epoch view) + MAX_VIEW_STALENESS /\
  epoch = Epoch.epoch (lv_epoch view) /\
  (exists row live artifact,
     row ∈ history_for (lv_db view) txid vout /\ mintable row /\
     find_row (lv_db view) (DepositDb.id row) = Some live /\
     claim_artifacts (lv_db view) !! DepositDb.id row = Some artifact /\
     message = DepositDb.canonical_message artifact /\ message = DepositDb.recompute live artifact /\
     sha256 message = message_hash artifact) /\
  r = respond validator_pubkey sign_message request_id message /\
  sg_granted s' = sg_granted s ++ [GMint txid vout].
Proof.
  intros (a & i & [= <-] & Hi & Hx & Hf%is_fresh_at_iff & He & Hd & Hr & _ & Hg)%handle_Ok.
  cbn in Hi. apply bind_Ok in Hi as ([] & _ & [= <-]). cbn in *. split_and!; try done; try lia.
  unfold derive in Hd. destruct (derive_deposit _ _ _ _) as [db m] eqn:E. cbn in Hd. subst m.
  apply derive_deposit_Some in E as (_ & row & live & H1 & H2 & H3 & art & H4 & H5 & H6 & H7).
  exists row, live, art. by split_and!.
Qed.

(** A payout statement is signed without an entry in the audit log of what was
    granted: [sg_granted] is what it was, and only the ghost [sg_issued] has it. *)
Theorem payout_statement_is_not_logged request_id epoch message index attempt asked_at t s s' r :
  handle t (payout_request request_id epoch message index attempt asked_at) s = (s', Ok r) ->
  r = respond validator_pubkey sign_message request_id message /\
  sg_issued s' = sg_issued s ++ [Statement Payout (PayoutOf index attempt) message] /\
  sg_granted s' = sg_granted s.
Proof.
  intros (a & i & [= <-] & [= <-] & _ & _ & _ & _ & Hr & Hi & Hg)%handle_Ok. cbn in *.
  by rewrite app_nil_r in Hg.
Qed.

(** A limited request does nothing but spend the allowance. *)
Lemma limited_request_does_nothing {A} peer instant (h : SE Signer ServiceRefusal A) s s' r :
  rpc peer instant h s = (s', Err (ResourceExhausted r)) -> exists rl, s' = with_limiter rl s /\ r = RateLimited.
Proof.
  unfold rpc, check_rate_limit. destruct (check_at _ _ _) as [rl []]; cbn.
  - destruct (h _) as [s1 [a|e]]; cbn; congruence.
  - intros [= <- <-]. eauto.
Qed.
End props.

(** * A signer at work

    One validator asked for a mint, a rotation and a sweep; and a payout
    about which a peer asks. *)

#[local] Existing Instance toy_sha2.
#[local] Existing Instance toy_solana.
#[local] Existing Instance demo_rpc.
#[local] Instance signer_node : PayoutView.PartialSigner (@outside demo_rpc) :=
  fun unsigned _ o => (o, partial_tx passive unsigned).

Definition signer_key : list byte := replicate 32 x0c.
(** A stand-in signature, for evaluation only. *)
Definition toy_sign (message : list byte) : list byte := take 64 (signer_key ++ message).

Definition demo_arms : Arms :=
  {| arm_payout := Some passive; arm_completion := None;
     arm_governance := Some (crate_ID, PROTOCOL_VERSION); arm_sweep := Some (sweeper, 1) |}.
Definition demo_view (d : Tables) : DbLocalView :=
  {| lv_db := one_ready; lv_tables := d; lv_epoch := {| Epoch.epoch := 7; observed_at := 1090 |} |}.
Definition at_time (now : Z) : Clock := {| Policy.now_unix := now; fresh_at := now; derived_at := now |}.

Definition ready_message : list byte := DepositDb.canonical_message (freeze (ready_row 1 demo_txid)).
Definition ask_mint : SignRequest := mint_request [x01] 7 ready_message demo_txid 0 1100.
Definition ask_rotation : GovernanceSignRequest :=
  {| gr_request_id := [x02]; gr_epoch := 7; gr_action := ACTION_PROPOSE_ROTATION;
     gr_params_commitment := replicate 32 xaa; gr_expiry_unix := 1200 |}.
Definition ask_sweep : SweepSignRequest :=
  {| wr_request_id := [x03]; wr_epoch := 7; wr_unsigned_tx_hex := serialize_hex demo_sweep;
     wr_expiry_unix := 1200 |}.

Definition signer_0 : Signer := starting (0 : @outside demo_rpc) (demo_view passive_tables) RateLimit.new.
Definition signer_1 : Signer := (handle signer_key toy_sign (at_time 1100) ask_mint signer_0).1.
Definition signer_2 : Signer :=
  (handle_governance demo_arms signer_key toy_sign (at_time 1101) (FileText (GovernanceView.to_text (demo_store xaa 7)))
     ask_rotation signer_1).1.
Definition signer_3 : Signer :=
  (handle_sweep demo_arms signer_key (at_time 1102) (staged 2000) ask_sweep signer_2).1.

Definition rotation_message : list byte :=
  governance_message PROTOCOL_VERSION crate_ID 7 ACTION_PROPOSE_ROTATION (replicate 32 xaa).

Example three_grants :
  sg_issued signer_3 =
    [Statement MintDeposit (Policy.Deposit demo_txid 0) ready_message;
     GovernanceAct ACTION_PROPOSE_ROTATION (replicate 32 xaa) rotation_message;
     SweepSpend (serialize_hex demo_sweep)] /\
  sg_granted signer_3 =
    [GMint demo_txid 0; GGovernance ACTION_PROPOSE_ROTATION 7; GSweep 1 (sp_swept_atomic demo_plan)].
Proof. vm_compute. by split. Qed.

Lemma three_grants_reached :
  star (service_step demo_arms signer_key toy_sign) (idle signer_0) (idle signer_3).
Proof.
  eapply star_step; [eapply star_step; [apply (alone_handles demo_arms signer_key toy_sign (at_time 1100) ask_mint)|]|].
  - exact (ss_handler _ _ _ (idle signer_1) _ (hs_governance demo_arms signer_key toy_sign signer_1 (at_time 1101)
      (FileText (GovernanceView.to_text (demo_store xaa 7))) ask_rotation)).
  - exact (ss_handler _ _ _ (idle signer_2) _ (hs_sweep demo_arms signer_key toy_sign signer_2 (at_time 1102) (staged 2000) ask_sweep)).
Qed.

Lemma signer_never_contradicts_itself_witness :
  Statement MintDeposit (Policy.Deposit demo_txid 0) ready_message ∈ sg_issued signer_3 /\
  (forall m, Statement MintDeposit (Policy.Deposit demo_txid 0) m ∈ sg_issued signer_3 -> m = ready_message) /\
  GovernanceAct ACTION_PROPOSE_ROTATION (replicate 32 xaa) rotation_message ∈ sg_issued signer_3 /\
  forall c m, GovernanceAct ACTION_PROPOSE_ROTATION c m ∈ sg_issued signer_3 -> c = replicate 32 xaa.
Proof.
  assert (Statement MintDeposit (Policy.Deposit demo_txid 0) ready_message ∈ sg_issued signer_3) as H1
    by (rewrite (proj1 three_grants); left).
  assert (GovernanceAct ACTION_PROPOSE_ROTATION (replicate 32 xaa) rotation_message ∈ sg_issued signer_3) as H2
    by (rewrite (proj1 three_grants); right; left).
  destruct (signer_never_contradicts_itself demo_arms signer_key toy_sign _ _ _ _ three_grants_reached) as (Hs & _ & Hg & _).
  split; [exact H1|]. split; [|split; [exact H2|]].
  - intros m Hm. exact (Hs _ _ _ _ Hm H1 (not_elem_of_empty _)).
  - intros c m Hm. exact (Hg _ _ _ _ _ Hm H2).
Defined.

(** ** A race

    Two requests for one deposit, between whose evaluations the signer's
    database comes to hold another amount for it: both are signed, and the
    memory keeps the second. *)
Definition other_row : DepositRow :=
  {| DepositDb.id := 1; DepositDb.txid := demo_txid; DepositDb.txid_hex := Hex.encode demo_txid;
     DepositDb.vout := 0; DepositDb.amount_atomic := 501; DepositDb.recipient := demo_user;
     DepositDb.block_height := 1; DepositDb.block_hash := replicate 32 x02; DepositDb.raw_tx_hex := [];
     DepositDb.state := ReadyForSignature; DepositDb.discovered_at := 900;
     DepositDb.ready_at := Some 950; DepositDb.failure_reason := None;
     DepositDb.submitted_signature := None |}.
Definition other_message : list byte := DepositDb.canonical_message (freeze other_row).
Definition ask_other : SignRequest := mint_request [x04] 7 other_message demo_txid 0 1100.
Definition other_view : DbLocalView :=
  {| lv_db := ready_db [other_row]; lv_tables := passive_tables;
     lv_epoch := {| Epoch.epoch := 7; observed_at := 1090 |} |}.

Definition race_1 : Service := evaluating (at_time 1100) ask_mint (idle signer_0).
Definition race_2 : Service :=
  {| sv_signer := with_outside (0 : @outside demo_rpc) (with_view other_view (sv_signer race_1));
     sv_flight := sv_flight race_1; sv_raced := sv_raced race_1 |}.
Definition race_3 : Service := evaluating (at_time 1100) ask_other race_2.
Definition race_4 : Service := settling signer_key toy_sign 0 race_3.
Definition race_5 : Service := settling signer_key toy_sign 0 race_4.

Lemma race_reached : star (service_step demo_arms signer_key toy_sign) (idle signer_0) race_5.
Proof.
  repeat (eapply star_step; [|first [exact (ss_settle _ _ _ _ 0)|exact (ss_evaluate _ _ _ _ _ _)
                                    |exact (ss_handler _ _ _ race_1 _ (hs_world _ _ _ _ _ _))]]).
  constructor.
Qed.

Example race_signs_twice :
  sg_issued (sv_signer race_5) =
    [Statement MintDeposit (Policy.Deposit demo_txid 0) other_message;
     Statement MintDeposit (Policy.Deposit demo_txid 0) ready_message] /\
  other_message <> ready_message /\ sv_raced race_5 = {[(MintDeposit, Policy.Deposit demo_txid 0)]}.
Proof.
  split; [vm_compute; reflexivity|].
  split; apply (bool_decide_unpack _); vm_compute; exact I.
Qed.

(** A run from its result alone: the states are large. *)
Lemma run_of {S A} (x : S * A) r : x.2 = r -> x = (x.1, r).
Proof. destruct x. by intros <-. Qed.

Lemma signed_mint_is_its_own_witness :
  sg_granted signer_1 = sg_granted signer_0 ++ [GMint demo_txid 0] /\ ready_message = DepositDb.canonical_message (freeze (ready_row 1 demo_txid)).
Proof.
  destruct (signed_mint_is_its_own signer_key toy_sign [x01] 7 ready_message demo_txid 0 1100 (at_time 1100) signer_0 signer_1
              (respond signer_key toy_sign [x01] ready_message)) as (_ & _ & _ & _ & _ & H).
  - apply run_of. vm_compute. reflexivity.
  - split; [exact H|reflexivity].
Defined.

(** ** Questions about a payout *)

Lemma guard_race_halts_a_broadcast_payout_witness :
  let d1 := (record_signed_payout 7 (serialize_hex honest) (replicate 32 x0f) 1150 adopted_tables).1 in
  w_state <$> withdrawal_requests d1 !! 7 = Some Broadcast /\
  w_state <$> withdrawal_requests (verify_and_load_signable_payout 7 1150 d1).1 !! 7 = Some IntegrityHalted.
Proof.
  intros d1. destruct (withdrawal_payouts adopted_tables !! 7) as [p|] eqn:Ep; [|by vm_compute in Ep].
  pose proof (guard_race_halts_a_broadcast_payout 7 1150 1150 (serialize_hex honest) (replicate 32 x0f)
                adopted_tables adopted_row p ltac:(vm_compute; reflexivity) ltac:(vm_compute; reflexivity) Ep) as H.
  cbv zeta in H. fold d1 in H. clearbody d1.
  destruct (verify_and_load_signable_payout 7 1150 d1) as [d2 a]. destruct H as (H1 & _ & H2 & _).
  split; [exact H1|exact H2].
Defined.

(** The question that is answered leaves no record. *)
Definition signer_5 : Signer := starting (0 : @outside demo_rpc) (demo_view adopted_tables) RateLimit.new.
Definition asked_payout : Signer * result ServiceRefusal SignResponse :=
  handle signer_key toy_sign (at_time 1100) (payout_request [x05] 7 proposed_intent 7 0 1100) signer_5.
Definition payout_answer : SignResponse := respond signer_key toy_sign [x05] proposed_intent.

Lemma payout_statement_is_not_logged_witness :
  sg_issued asked_payout.1 = [Statement Payout (PayoutOf 7 0) proposed_intent] /\ sg_granted asked_payout.1 = [].
Proof.
  assert (asked_payout = (asked_payout.1, Ok payout_answer)) as H by (apply run_of; vm_compute; reflexivity).
  unfold asked_payout at 1 in H.
  destruct (payout_statement_is_not_logged signer_key toy_sign [x05] 7 proposed_intent 7 0 1100 (at_time 1100) signer_5
              asked_payout.1 payout_answer H) as (_ & H1 & H2).
  split; [exact H1|exact H2].
Defined.
