(* ===== verification/Identity.v ===== *)
(** * Peers: [relayer/src/p2p/identity.rs]

    The peer list of a collector as it is configured.  Reading and printing a
    Solana public key is the class [PubkeyText]. *)
From Stdlib Require Import ZArith Lia Strings.Byte.
From stdpp Require Import base numbers strings gmap list.
From S2P Require Import Prelude Messages Hex Text State.

(** [Pubkey]'s [FromStr], with the error's text. *)
Class PubkeyText := { pubkey_from_str : str -> result str Pubkey }.

Inductive IdentityError :=
| ReadFailed (what path source : str)
| MalformedPeer (entry : str)
| BadPeerPubkey (entry reason : str)
| NoPeers
| DuplicatePeer (pk : Pubkey)
| SelfInPeerList (pk : Pubkey)
| MissingLocalSigner
| DuplicateEndpoint (uri : str) (peer : Pubkey).

Record PeerEndpoint := { validator_pubkey : Pubkey; uri : str }.
#[export] Instance PeerEndpoint_eq_dec : EqDecision PeerEndpoint.
Proof. solve_decision. Defined.

Record TlsMaterial := { ca_pem : list byte; cert_pem : list byte; key_pem : list byte }.
Record TlsPaths := { path_ca : str; path_cert : str; path_key : str }.

(** [p.validator_pubkey == pk] *)
Definition is_peer (pk : Pubkey) (p : PeerEndpoint) : bool := bool_decide (validator_pubkey p = pk).
Definition is_at (u : str) (p : PeerEndpoint) : bool := bool_decide (uri p = u).

(** [TlsMaterial::load] over [std::fs::read]. *)
Definition load (read : str -> result str (list byte)) (paths : TlsPaths)
  : result IdentityError TlsMaterial :=
  let file what p := map_err (ReadFailed what p) (read p) in
  let* ca := file (lit "federation CA certificate") (path_ca paths) in
  let* cert := file (lit "this validator's certificate") (path_cert paths) in
  let* key := file (lit "this validator's private key") (path_key paths) in
  Ok {| ca_pem := ca; cert_pem := cert; key_pem := key |}.

Section parsing.
Context `{K : PubkeyText}.

(** The body of the loop of [parse_peers]. *)
Definition parse_peer (own_identity : option Pubkey) (peers : list PeerEndpoint) (entry : str)
  : result IdentityError (list PeerEndpoint) :=
  let* (pk, u) := ok_or (split_once "@"%byte entry) (MalformedPeer entry) in
  let* pk := map_err (BadPeerPubkey entry) (pubkey_from_str pk) in
  require (negb (bool_decide (u = []))) (MalformedPeer entry) ;;*
  require (negb (existsb (is_peer pk) peers)) (DuplicatePeer pk) ;;*
  require (negb (bool_decide (own_identity = Some pk))) (SelfInPeerList pk) ;;*
  Ok (peers ++ [{| validator_pubkey := pk; uri := u |}]).

Definition parse_peers (raw : str) (own_identity : option Pubkey)
  : result IdentityError (list PeerEndpoint) :=
  let* peers := foldM (parse_peer own_identity) [] (entries ","%byte raw) in
  require (negb (bool_decide (peers = []))) NoPeers ;;*
  Ok peers.

Definition with_local_signer (peers : list PeerEndpoint) (own_identity : Pubkey) (local_uri : str)
  : result IdentityError (list PeerEndpoint) :=
  let u := trim local_uri in
  require (negb (bool_decide (u = []))) MissingLocalSigner ;;*
  require (negb (existsb (is_peer own_identity) peers)) (SelfInPeerList own_identity) ;;*
  match List.find (is_at u) peers with
  | Some clash => Err (DuplicateEndpoint u (validator_pubkey clash))
  | None => Ok (peers ++ [{| validator_pubkey := own_identity; uri := u |}])
  end.

(** [peers_contain] of [main.rs]. *)
Definition peers_contain (raw : str) (who : Pubkey) : bool :=
  match parse_peers raw None with Ok ps => existsb (is_peer who) ps | Err _ => false end.

(** ** What is accepted *)

(** An entry that names a peer. *)
Definition names (entry : str) (p : PeerEndpoint) : Prop :=
  exists pk, split_once "@"%byte entry = Some (pk, uri p) /\
    pubkey_from_str pk = Ok (validator_pubkey p) /\ uri p <> [].

Lemma existsb_is_peer pk ps : existsb (is_peer pk) ps = false <-> pk ∉ validator_pubkey <$> ps.
Proof.
  unfold is_peer. rewrite <- not_true_iff_false, existsb_exists, list_elem_of_fmap. split.
  - intros H (p & -> & Hp). apply H. exists p. split; [by apply list_elem_of_In|by apply bool_decide_true].
  - intros H (p & Hp & Hb). apply H. exists p. apply list_elem_of_In in Hp. bools. by subst.
Qed.

Lemma parse_peer_Ok own peers entry peers' :
  parse_peer own peers entry = Ok peers' <->
  exists p, names entry p /\ validator_pubkey p ∉ validator_pubkey <$> peers /\
    own <> Some (validator_pubkey p) /\ peers' = peers ++ [p].
Proof.
  unfold parse_peer, names. split.
  - intros H. apply bind_Ok in H as ([pk u] & Hs%ok_or_Ok & H).
    apply bind_Ok in H as (k & Hk%map_err_Ok & H). res_inv. bools. subst.
    eexists {| validator_pubkey := k; uri := u |}. cbn. split_and!; try done; [by eexists|by apply existsb_is_peer].
  - intros ([k u] & (pk & -> & Hk & Hu) & Hd & Ho & ->). cbn in *. rewrite Hk. cbn.
    rewrite (bool_decide_false _ Hu), (proj2 (existsb_is_peer _ _) Hd). cbn.
    by rewrite (bool_decide_false _ Ho).
Qed.

Lemma parse_loop_Ok own l peers peers' :
  foldM (parse_peer own) peers l = Ok peers' <->
  exists ps, peers' = peers ++ ps /\ Forall2 names l ps /\
    (NoDup (validator_pubkey <$> peers) -> NoDup (validator_pubkey <$> peers')) /\
    (forall p, p ∈ ps -> validator_pubkey p ∉ validator_pubkey <$> peers /\ own <> Some (validator_pubkey p)) /\
    NoDup (validator_pubkey <$> ps).
Proof.
  revert peers. induction l as [|e l IH]; intros peers; cbn [foldM].
  - split.
    + intros [= <-]. exists []. rewrite app_nil_r. split_and!; [done|constructor|done| |constructor].
      by intros p ?%elem_of_nil.
    + intros (ps & -> & ->%Forall2_nil_inv_l & _). by rewrite app_nil_r.
  - rewrite bind_Ok. setoid_rewrite parse_peer_Ok. split.
    + intros (? & (p & Hn & Hd & Ho & ->) & H). apply IH in H as (ps & -> & Hf & _ & Hin & Hnd).
      assert (NoDup (validator_pubkey <$> p :: ps)) as Hnp.
      { cbn. constructor; [|done]. intros (q & Hq & Hqin)%list_elem_of_fmap.
        destruct (Hin q Hqin) as [Hq' _]. apply Hq'. rewrite fmap_app. set_solver. }
      assert (forall q, q ∈ p :: ps -> validator_pubkey q ∉ validator_pubkey <$> peers /\ own <> Some (validator_pubkey q)) as Hall.
      { intros q [->|Hq]%elem_of_cons; [done|]. destruct (Hin q Hq) as [Hq' ?]. split; [|done].
        rewrite fmap_app in Hq'. set_solver. }
      exists (p :: ps). rewrite <- app_assoc. split_and!; try done; [by constructor|].
      intros Hpe. rewrite fmap_app. apply NoDup_app. split_and!; try done.
      intros x Hx (q & -> & Hq)%list_elem_of_fmap. destruct (Hall q ltac:(set_solver)). done.
    + intros (ps & -> & Hf & _ & Hin & Hnd). apply Forall2_cons_inv_l in Hf as (p & qs & Hn & Hf & ->).
      exists (peers ++ [p]). destruct (Hin p ltac:(left)) as [Hp1 Hp2]. split; [by exists p|].
      apply IH. exists qs. rewrite <- app_assoc. cbn in Hnd. apply NoDup_cons in Hnd as [Hpq Hnd].
      split_and!; try done.
      * intros Hpe. rewrite !fmap_app. apply NoDup_app. rewrite fmap_app in Hpe. apply NoDup_app in Hpe as (? & ? & ?).
        split_and!; [done| |].
        { intros x Hx [->|(q & -> & Hq)%list_elem_of_fmap]%elem_of_cons; [done|].
          destruct (Hin q ltac:(by right)). done. }
        { by constructor. }
      * intros q Hq. destruct (Hin q ltac:(by right)) as [H1 H2]. split; [|done].
        rewrite fmap_app. intros [?|H3]%elem_of_app; [done|]. apply list_elem_of_singleton in H3.
        apply Hpq. rewrite <- H3. apply list_elem_of_fmap. by exists q.
Qed.

(** Exactly the lists of well-formed entries with distinct foreign
    identities are accepted. *)
Lemma parse_peers_spec raw own ps :
  parse_peers raw own = Ok ps <->
  ps <> [] /\ Forall2 names (entries ","%byte raw) ps /\ NoDup (validator_pubkey <$> ps) /\
  Forall (fun p => own <> Some (validator_pubkey p)) ps.
Proof.
  unfold parse_peers. rewrite bind_Ok. setoid_rewrite parse_loop_Ok. split.
  - intros (? & (ps' & -> & Hf & _ & Hin & Hnd) & H). cbn in H. res_inv. bools. subst.
    split_and!; try done. apply Forall_forall. intros p Hp. by destruct (Hin p Hp).
  - intros (Hne & Hf & Hnd & Ho). exists ps. split.
    + exists ps. split_and!; try done. intros p Hp. split; [apply not_elem_of_nil|].
      by apply (proj1 (Forall_forall _ ps) Ho p Hp).
    + by rewrite (bool_decide_false _ Hne).
Qed.

(** The configured peers and this operator's own signer, each identity once. *)
Record well_formed_peers (ps : list PeerEndpoint) : Prop := {
  wp_distinct : NoDup (validator_pubkey <$> ps);
  wp_uris : Forall (fun p => uri p <> []) ps
}.

Lemma parse_peers_wf raw own ps : parse_peers raw own = Ok ps -> well_formed_peers ps.
Proof.
  intros (Hne & Hf & Hnd & _)%parse_peers_spec. split; [done|].
  clear -Hf. induction Hf as [|e p l ps (? & ? & ? & ?) Hf IH]; constructor; done.
Qed.

Lemma find_is_at_None u (ps : list PeerEndpoint) : List.find (is_at u) ps = None -> u ∉ uri <$> ps.
Proof.
  intros H (p & -> & Hp)%list_elem_of_fmap. apply list_elem_of_In in Hp.
  pose proof (find_none _ _ H p Hp) as Hf. unfold is_at in Hf. by rewrite bool_decide_true in Hf.
Qed.

Lemma with_local_signer_wf ps own u ps' :
  with_local_signer ps own u = Ok ps' -> well_formed_peers ps ->
  well_formed_peers ps' /\ own ∈ validator_pubkey <$> ps' /\ trim u ∉ uri <$> ps.
Proof.
  unfold with_local_signer. intros H [Hd Hu]. res_inv. bools. case_match eqn:Hf; [done|].
  res_inv. subst ps'. rewrite fmap_app. split_and!.
  - split.
    + rewrite fmap_app. apply NoDup_app. split_and!; [done| |apply NoDup_singleton].
      match goal with H : existsb _ _ = false |- _ => apply existsb_is_peer in H end. set_solver.
    + apply Forall_app. split; [done|]. by repeat constructor.
  - set_solver.
  - by apply find_is_at_None.
Qed.
End parsing.
