(* ===== verification/Aggregation.v ===== *)
(** * Collection rounds: [relayer/src/p2p/aggregation.rs]

    What a round of questions to the federation holds, when it is done, and
    the order in which peers are asked.  A [Duration] is its nanoseconds. *)
From Stdlib Require Import ZArith Lia Strings.Byte.
From stdpp Require Import base numbers strings gmap list.
From S2P Require Import Prelude Messages Hex State SignatureProof.

Definition PER_PEER_TIMEOUT : Z := 5 * 10 ^ 9.
Definition ROUND_TIMEOUT : Z := 20 * 10 ^ 9.

Inductive PeerOutcome :=
| Signed (signature : Signature)
| Refused (why : str)
| Unavailable (why : str).

Record Round := {
  signatures : list (Pubkey * Signature); refused : list (Pubkey * str);
  unavailable : list (Pubkey * str)
}.
Definition new : Round := {| signatures := []; refused := []; unavailable := [] |}.

Definition record (r : Round) (peer : Pubkey) (outcome : PeerOutcome) : Round :=
  match outcome with
  | Signed s => {| signatures := signatures r ++ [(peer, s)]; refused := refused r;
                   unavailable := unavailable r |}
  | Refused why => {| signatures := signatures r; refused := refused r ++ [(peer, why)];
                      unavailable := unavailable r |}
  | Unavailable why => {| signatures := signatures r; refused := refused r;
                          unavailable := unavailable r ++ [(peer, why)] |}
  end.

Definition unique_signers (r : Round) : nat :=
  size (list_to_set (signatures r).*1 : gset Pubkey).
Definition reached (r : Round) (threshold : nat) : bool := (threshold <=? unique_signers r)%nat.
Definition retry_could_help (r : Round) (threshold : nat) : bool :=
  if reached r threshold then false
  else (threshold - unique_signers r <=? length (unavailable r))%nat.

(** The indices [(start + i) % len] are in range. *)
Definition ask_order (peers : list Pubkey) (seed : Z) : list Pubkey :=
  let n := length peers in
  if (n =? 0)%nat then []
  else let start := Z.to_nat (seed mod Z.of_nat n) in
       (fun i => peers !!! ((start + i) mod n)%nat) <$> seq 0 n.

(** ** The order is a rotation *)

Lemma ask_order_rotation peers seed :
  exists k, (k <= length peers)%nat /\ ask_order peers seed = drop k peers ++ take k peers.
Proof.
  unfold ask_order. destruct (Nat.eqb_spec (length peers) 0) as [Hn|Hn].
  { exists 0%nat. destruct peers; [by split|done]. }
  pose proof (Z.mod_pos_bound seed (Z.of_nat (length peers)) ltac:(lia)) as Hk.
  set (k := Z.to_nat (seed mod Z.of_nat (length peers))).
  assert (k < length peers)%nat as Hlt by (unfold k; lia). clearbody k. clear Hk.
  exists k. split; [lia|]. apply list_eq. intros i.
  rewrite list_lookup_fmap. destruct (decide (i < length peers)%nat) as [Hi|Hi].
  - rewrite lookup_seq_lt by done. cbn. destruct (decide (i < length peers - k)%nat) as [Hd|Hd].
    + rewrite lookup_app_l by (rewrite length_drop; lia). rewrite lookup_drop, Nat.mod_small by lia.
      symmetry. apply list_lookup_lookup_total_lt. lia.
    + rewrite lookup_app_r by (rewrite length_drop; lia). rewrite length_drop, lookup_take_lt by lia.
      replace ((k + i) mod length peers)%nat with (i - (length peers - k))%nat.
      * symmetry. apply list_lookup_lookup_total_lt. lia.
      * replace (k + i)%nat with (i - (length peers - k) + 1 * length peers)%nat by lia.
        rewrite Nat.Div0.mod_add, Nat.mod_small by lia. done.
  - rewrite lookup_seq_ge by lia. symmetry. apply lookup_ge_None. rewrite length_app, length_drop, length_take. lia.
Qed.

Lemma ask_order_perm peers seed : ask_order peers seed ≡ₚ peers.
Proof.
  destruct (ask_order_rotation peers seed) as (k & _ & ->).
  rewrite (Permutation_app_comm (drop k peers)). by rewrite take_drop.
Qed.

(** ** Counting *)

(** Every peer of the round, whatever it answered. *)
Definition asked (r : Round) : list Pubkey :=
  (signatures r).*1 ++ (refused r).*1 ++ (unavailable r).*1.

Lemma asked_record r peer o : asked (record r peer o) ≡ₚ peer :: asked r.
Proof.
  unfold asked. destruct o; cbn; rewrite fmap_app; cbn.
  - rewrite <- app_assoc. symmetry. apply Permutation_middle.
  - rewrite <- (app_assoc (refused r).*1), (app_assoc (signatures r).*1), (app_assoc (signatures r).*1 _ (unavailable r).*1).
    symmetry. apply Permutation_middle.
  - rewrite !app_assoc. symmetry. rewrite <- Permutation_cons_append. done.
Qed.

Lemma size_list_to_set_le `{Countable K} (l : list K) : (size (list_to_set l : gset K) <= length l)%nat.
Proof.
  induction l as [|k l IH]; cbn; [done|]. rewrite size_union_alt, size_singleton.
  pose proof (subseteq_size (C := gset K) (list_to_set l ∖ {[k]}) (list_to_set l) ltac:(set_solver)). lia.
Qed.

Lemma unique_signers_le r : (unique_signers r <= length (signatures r))%nat.
Proof. unfold unique_signers. rewrite <- (length_fmap fst (signatures r)). apply size_list_to_set_le. Qed.

Lemma unique_signers_distinct r : NoDup (signatures r).*1 -> unique_signers r = length (signatures r).
Proof. intros H. unfold unique_signers. rewrite size_list_to_set by done. by rewrite length_fmap. Qed.

(** The answers that could still arrive: from peers that were unavailable. *)
Definition returning (r : Round) (more : list (Pubkey * Signature)) : Round :=
  {| signatures := signatures r ++ more; refused := refused r; unavailable := unavailable r |}.

(** [retry_could_help] is exact when the unavailable peers are distinct and
    have not signed: no answer of theirs closes the gap when it says no, and
    all of them answering does when it says yes. *)
Lemma retry_could_help_spec r threshold :
  NoDup (unavailable r).*1 -> (forall pk, pk ∈ (unavailable r).*1 -> pk ∉ (signatures r).*1) ->
  reached r threshold = false ->
  retry_could_help r threshold = true <->
  exists more, (forall pk, pk ∈ more.*1 -> pk ∈ (unavailable r).*1) /\ reached (returning r more) threshold = true.
Proof.
  intros Hd Hn Hr. unfold retry_could_help. rewrite Hr. unfold reached in *.
  apply Nat.leb_gt in Hr. rewrite Nat.leb_le. setoid_rewrite Nat.leb_le.
  assert (forall more : list (Pubkey * Signature), (list_to_set (signatures (returning r more)).*1 : gset Pubkey) =
            list_to_set (signatures r).*1 ∪ list_to_set more.*1) as Hset
    by (intros more; cbn; by rewrite fmap_app, list_to_set_app_L).
  split.
  - intros Hle. exists ((fun p => (p.1, [])) <$> unavailable r).
    assert (((fun p => (p.1, [] : Signature)) <$> unavailable r).*1 = (unavailable r).*1) as E
      by (by rewrite <- list_fmap_compose).
    rewrite E. split; [done|]. unfold unique_signers at 1. rewrite Hset, E, size_union by set_solver.
    fold (unique_signers r). rewrite (size_list_to_set (unavailable r).*1) by done. rewrite length_fmap. lia.
  - intros (more & Hin & Hle). unfold unique_signers in Hle at 1. rewrite Hset in Hle.
    rewrite size_union_alt in Hle. fold (unique_signers r) in Hle.
    assert (size (list_to_set more.*1 ∖ list_to_set (signatures r).*1 : gset Pubkey) <=
            size (list_to_set (unavailable r).*1 : gset Pubkey))%nat as Hs
      by (apply subseteq_size; set_solver).
    rewrite (size_list_to_set (unavailable r).*1), length_fmap in Hs by done. lia.
Qed.
