(* ===== verification/Collector.v ===== *)
(** * Asking the federation: [relayer/src/p2p/collector.rs]

    The collector's rounds over the class [PeerNetwork]: the channel and
    client of [tonic], tokio's [timeout], and the clocks.  Every operation
    threads the network's state.  Verifying an Ed25519 signature is the class
    [Ed25519].  [TimedNetwork] states what the timeouts mean; under it every
    round ends. *)
From Stdlib Require Import ZArith Lia Strings.Byte.
From stdpp Require Import base numbers strings gmap list.
From S2P Require Import Vault Multisig SignerService.
From S2P Require Import Prelude Effects Messages Hex State SignatureProof Identity Aggregation.

(** A [tonic::Status]: its code, message and display. *)
Record RpcStatus := { st_code : Z; st_message : str; st_display : str }.
Definition FAILED_PRECONDITION : Z := 9.

Class PeerNetwork (net : Type) := {
  Endpoint : Type;
  Client : Type;
  from_shared : str -> result str Endpoint;
  (** material, domain *)
  tls_config : TlsMaterial -> str -> Endpoint -> result str Endpoint;
  (** connect timeout, request timeout *)
  connect_endpoint : Z -> Z -> Endpoint -> net -> net * result str Client;
  (** one call under [timeout(limit, ..)]: [None] when the limit elapsed *)
  call_sign : Z -> Client -> SignRequest -> net -> net * option (result RpcStatus SignResponse);
  call_sign_payout : Z -> Client -> PayoutSignRequest -> net ->
    net * option (result RpcStatus PartialResponse);
  call_sign_completion : Z -> Client -> CompletionSignRequest -> net ->
    net * option (result RpcStatus SignResponse);
  call_sign_governance : Z -> Client -> GovernanceSignRequest -> net ->
    net * option (result RpcStatus SignResponse);
  call_sign_sweep : Z -> Client -> SweepSignRequest -> net ->
    net * option (result RpcStatus PartialResponse);
  (** [Instant::now], and the nanoseconds and seconds since the epoch *)
  instant_now : net -> net * Z;
  system_nanos : net -> net * Z;
  unix_now : net -> net * Z
}.

(** [Signature::verify(pubkey, message)], and a public key's display. *)
Class Ed25519 := {
  ed25519_verify : Pubkey -> list byte -> Signature -> bool;
  pubkey_display : Pubkey -> str
}.

Record GrpcCollector := { peers : list PeerEndpoint; tls : option TlsMaterial; tls_domain : str }.
Definition grpc_collector (ps : list PeerEndpoint) (material : TlsMaterial) (domain : str) : GrpcCollector :=
  {| peers := ps; tls := Some material; tls_domain := domain |}.
Definition insecure_without_tls (ps : list PeerEndpoint) : GrpcCollector :=
  {| peers := ps; tls := None; tls_domain := [] |}.

Record DesignatedSigner := { ds_validator_pubkey : Pubkey; ds_vault_pubkey : pubkey }.
Record PartialRound := { partials : list PartialSignature; round : Round }.

Definition find_peer (ps : list PeerEndpoint) (pk : Pubkey) : option PeerEndpoint :=
  List.find (is_peer pk) ps.

(** [Signature::default()] *)
Definition default_signature : Signature := replicate 64 x00.

Section accepting.
Context `{Ed : Ed25519}.

Definition same_identity (expected : Pubkey) (answered : list byte) : result str Pubkey :=
  require (length answered =? 32)%nat (lit "response carried a malformed validator pubkey") ;;*
  require (bool_decide (answered = expected))
    (lit "endpoint registered as " ++ pubkey_display expected ++ lit " answered as " ++
     pubkey_display answered) ;;*
  Ok answered.

Definition accept (expected : Pubkey) (message : list byte) (resp : SignResponse)
  : result str (Pubkey * Signature) :=
  let* pk := same_identity expected (rs_validator_pubkey resp) in
  require (length (rs_signature resp) =? 64)%nat (lit "response carried a malformed signature") ;;*
  require (ed25519_verify pk message (rs_signature resp))
    (lit "signature does not verify over the requested message") ;;*
  Ok (pk, rs_signature resp).

Definition accept_payout (expected_validator : Pubkey) (designated : DesignatedSigner)
    (resp : PartialResponse) : result str PartialSignature :=
  _ ← same_identity expected_validator (pa_validator_pubkey resp);
  require (length (pa_vault_pubkey resp) =? COMPRESSED_PUBKEY_LEN)%nat
    (lit "response carried a malformed vault pubkey") ;;*
  require (bool_decide (pa_vault_pubkey resp = ds_vault_pubkey designated))
    (lit "designated signer " ++ pubkey_display expected_validator ++
     lit " answered with a vault key it was not designated for") ;;*
  require (negb (bool_decide (pa_signatures resp = []))) (lit "response carried no signatures") ;;*
  require (negb (existsb (fun s => bool_decide (s = [])) (pa_signatures resp)))
    (lit "response carried an empty signature") ;;*
  Ok {| vault_pubkey := pa_vault_pubkey resp; Multisig.signatures := pa_signatures resp |}.
End accepting.

Section collector.
Context {net : Type} `{Nw : PeerNetwork net, Ed : Ed25519}.
Abbreviation M := (SE net PeerOutcome).

Definition next_request_id (o : net) : net * list byte :=
  let (o, nanos) := system_nanos o in (o, le_bytes 16 nanos).

Definition connect (C : GrpcCollector) (u : str) (o : net) : net * result str Client :=
  match map_err (fun e => lit "bad peer uri: " ++ e) (from_shared u) with
  | Err e => (o, Err e)
  | Ok endpoint =>
      match (match tls C with
             | None => Ok endpoint
             | Some material =>
                 map_err (fun e => lit "tls configuration rejected: " ++ e)
                   (tls_config material (tls_domain C) endpoint)
             end) with
      | Err e => (o, Err e)
      | Ok endpoint =>
          let (o, r) := connect_endpoint PER_PEER_TIMEOUT PER_PEER_TIMEOUT endpoint o in
          (o, map_err (fun e => lit "connect failed: " ++ e) r)
      end
  end.

(** What the five questions share: connect, call under the timeout, sort the
    failures, and accept or discard the answer. *)
Definition ask_with {R A} (call : Client -> net -> net * option (result RpcStatus R))
    (accepted : R -> result str A) (C : GrpcCollector) (peer : PeerEndpoint) : M A :=
  client ← (fun o => let (o, r) := connect C (uri peer) o in (o, map_err Aggregation.Unavailable r));
  resp ← (fun o => let (o, r) := call client o in (o, Ok r));
  match resp with
  | None => lift (Err (Aggregation.Unavailable (lit "per-peer timeout")))
  | Some (Err status) =>
      lift (Err (if st_code status =? FAILED_PRECONDITION then Aggregation.Refused (st_message status)
                 else Aggregation.Unavailable (st_display status)))
  | Some (Ok r) => lift (map_err Aggregation.Unavailable (accepted r))
  end.

(** An accepted answer is [Signed]. *)
Definition outcome_of (m : M (Pubkey * Signature)) (o : net) : net * PeerOutcome :=
  match m o with
  | (o, Ok (_, sig)) => (o, Signed sig)
  | (o, Err e) => (o, e)
  end.

Definition ask (C : GrpcCollector) (peer : PeerEndpoint) (req : SignRequest) (message : list byte)
  : net -> net * PeerOutcome :=
  outcome_of (ask_with (fun c => call_sign PER_PEER_TIMEOUT c req)
                (accept (validator_pubkey peer) message) C peer).
Definition ask_completion (C : GrpcCollector) (peer : PeerEndpoint) (req : CompletionSignRequest)
    (message : list byte) : net -> net * PeerOutcome :=
  outcome_of (ask_with (fun c => call_sign_completion PER_PEER_TIMEOUT c req)
                (accept (validator_pubkey peer) message) C peer).
Definition ask_governance (C : GrpcCollector) (peer : PeerEndpoint) (req : GovernanceSignRequest)
    (message : list byte) : net -> net * PeerOutcome :=
  outcome_of (ask_with (fun c => call_sign_governance PER_PEER_TIMEOUT c req)
                (accept (validator_pubkey peer) message) C peer).
Definition ask_payout (C : GrpcCollector) (peer : PeerEndpoint) (req : PayoutSignRequest)
    (designated : DesignatedSigner) : M PartialSignature :=
  ask_with (fun c => call_sign_payout PER_PEER_TIMEOUT c req)
    (accept_payout (validator_pubkey peer) designated) C peer.
Definition ask_sweep (C : GrpcCollector) (peer : PeerEndpoint) (req : SweepSignRequest)
    (signer : DesignatedSigner) : M PartialSignature :=
  ask_with (fun c => call_sign_sweep PER_PEER_TIMEOUT c req)
    (fun resp => accept_payout (validator_pubkey peer) signer
       {| pa_request_id := pa_request_id resp; pa_validator_pubkey := pa_validator_pubkey resp;
          pa_vault_pubkey := pa_vault_pubkey resp; pa_signatures := pa_signatures resp |}) C peer.

(** ** Rounds over everyone *)

(** The loop of [collect], [collect_completion_signatures] and
    [collect_governance_signatures]. *)
Fixpoint ask_loop (C : GrpcCollector) (threshold : nat) (deadline : Z)
    (question : PeerEndpoint -> net -> net * PeerOutcome) (order : list Pubkey) (r : Round) (o : net)
  : net * Round :=
  match order with
  | [] => (o, r)
  | pk :: order =>
      if reached r threshold then (o, r)
      else match find_peer (peers C) pk with
      | None => ask_loop C threshold deadline question order r o
      | Some peer =>
          let (o, t) := instant_now o in
          if deadline <=? t then
            ask_loop C threshold deadline question order
              (record r pk (Aggregation.Unavailable (lit "round timeout"))) o
          else
            let (o, outcome) := question peer o in
            ask_loop C threshold deadline question order (record r pk outcome) o
      end
  end.

Definition ask_everyone (C : GrpcCollector) (threshold : nat) (seed : Z)
    (question : PeerEndpoint -> net -> net * PeerOutcome) (o : net) : net * Round :=
  let (o, t) := instant_now o in
  ask_loop C threshold (t + ROUND_TIMEOUT) question
    (ask_order (validator_pubkey <$> peers C) seed) new o.

Definition collect (C : GrpcCollector) (threshold : nat) (seed : Z) (message : list byte)
    (build : list byte -> net -> net * SignRequest) : net -> net * Round :=
  ask_everyone C threshold seed (fun peer o =>
    let (o, id) := next_request_id o in
    let (o, req) := build id o in
    ask C peer req message o).

Definition collect_completion_signatures (C : GrpcCollector) (epoch withdrawal_index : Z)
    (payout_txid : list byte) (payout_height : Z) (message : list byte) : net -> net * Round :=
  ask_everyone C (length (peers C)) (Z.lxor withdrawal_index (le_val (take 8 payout_txid)))
    (fun peer o =>
       let (o, id) := next_request_id o in
       let (o, t) := unix_now o in
       ask_completion C peer
         {| cr_request_id := id; cr_epoch := epoch; cr_withdrawal_index := withdrawal_index;
            cr_payout_txid := payout_txid; cr_payout_height := payout_height;
            cr_expiry_unix := t + REQUEST_TTL_SECONDS |} message o).

Definition collect_governance_signatures (C : GrpcCollector) (epoch action : Z)
    (params_commitment message : list byte) : net -> net * Round :=
  ask_everyone C (length (peers C)) (Z.lxor action (le_val (take 8 params_commitment)))
    (fun peer o =>
       let (o, id) := next_request_id o in
       let (o, t) := unix_now o in
       ask_governance C peer
         {| gr_request_id := id; gr_epoch := epoch; gr_action := action;
            gr_params_commitment := params_commitment;
            gr_expiry_unix := t + REQUEST_TTL_SECONDS |} message o).

(** [SignatureCollector::collect_mint_signatures] *)
Definition collect_mint_signatures (C : GrpcCollector) (epoch : Z) (message txid : list byte) (vout : Z)
    (o : net) : net * list (Pubkey * Signature) :=
  let (o, r) := collect C (length (peers C)) (Z.lxor (le_val (take 8 txid)) vout) message
    (fun id o => let (o, t) := unix_now o in (o, mint_request id epoch message txid vout t)) o in
  (o, Aggregation.signatures r).

(** ** Rounds over designated signers *)

(** The loop of [collect_payout_partials] and [collect_sweep_partials]. *)
Fixpoint partial_loop (C : GrpcCollector) (enough : list PartialSignature -> bool) (absent : str)
    (deadline : Z) (question : PeerEndpoint -> DesignatedSigner -> M PartialSignature)
    (signers : list DesignatedSigner) (pr : PartialRound) (o : net) : net * PartialRound :=
  match signers with
  | [] => (o, pr)
  | d :: signers =>
      let note outcome ps := {| partials := ps; round := record (round pr) (ds_validator_pubkey d) outcome |} in
      let continue := partial_loop C enough absent deadline question signers in
      if enough (partials pr) then (o, pr)
      else match find_peer (peers C) (ds_validator_pubkey d) with
      | None => continue (note (Aggregation.Unavailable absent) (partials pr)) o
      | Some peer =>
          let (o, t) := instant_now o in
          if deadline <=? t then
            continue (note (Aggregation.Unavailable (lit "round timeout")) (partials pr)) o
          else
            match question peer d o with
            | (o, Ok p) => continue (note (Signed default_signature) (partials pr ++ [p])) o
            | (o, Err outcome) => continue (note outcome (partials pr)) o
            end
      end
  end.

Definition collect_payout_partials (C : GrpcCollector) (epoch withdrawal_index quorum_attempt : Z)
    (canonical_intent : list byte) (unsigned_tx_hex : str) (designated : list DesignatedSigner)
    (proposer_index : Z) (o : net) : net * PartialRound :=
  let (o, t) := instant_now o in
  partial_loop C (fun _ => false) (lit "designated signer is not a configured peer") (t + ROUND_TIMEOUT)
    (fun peer d o =>
       let (o, id) := next_request_id o in
       let (o, t) := unix_now o in
       ask_payout C peer
         {| pr_request_id := id; pr_epoch := epoch; pr_withdrawal_index := withdrawal_index;
            pr_quorum_attempt := quorum_attempt; pr_canonical_intent := canonical_intent;
            pr_unsigned_tx_hex := unsigned_tx_hex; pr_proposer_index := proposer_index;
            pr_expiry_unix := t + REQUEST_TTL_SECONDS |} d o)
    designated {| partials := []; round := new |} o.

Definition collect_sweep_partials (C : GrpcCollector) (epoch : Z) (unsigned_tx_hex : str)
    (signers : list DesignatedSigner) (threshold : nat) (o : net) : net * PartialRound :=
  let (o, t) := instant_now o in
  partial_loop C (fun ps => (threshold <=? length ps)%nat) (lit "vault signer is not a configured peer")
    (t + ROUND_TIMEOUT)
    (fun peer d o =>
       let (o, id) := next_request_id o in
       let (o, t) := unix_now o in
       ask_sweep C peer
         {| wr_request_id := id; wr_epoch := epoch; wr_unsigned_tx_hex := unsigned_tx_hex;
            wr_expiry_unix := t + REQUEST_TTL_SECONDS |} d o)
    signers {| partials := []; round := new |} o.

(** [collect_payout_signatures]: the designated members, by identity. *)
Fixpoint designated_loop (C : GrpcCollector) (deadline : Z)
    (question : PeerEndpoint -> net -> net * PeerOutcome) (designated : list Pubkey) (r : Round) (o : net)
  : net * Round :=
  match designated with
  | [] => (o, r)
  | pk :: designated =>
      let continue outcome := designated_loop C deadline question designated (record r pk outcome) in
      match find_peer (peers C) pk with
      | None => continue (Aggregation.Unavailable (lit "designated signer is not a configured peer")) o
      | Some peer =>
          let (o, t) := instant_now o in
          if deadline <=? t then continue (Aggregation.Unavailable (lit "round timeout")) o
          else let (o, outcome) := question peer o in continue outcome o
      end
  end.
Definition collect_payout_signatures (C : GrpcCollector) (epoch : Z) (message : list byte)
    (withdrawal_index quorum_attempt : Z) (designated : list Pubkey) (o : net) : net * Round :=
  let (o, t) := instant_now o in
  designated_loop C (t + ROUND_TIMEOUT)
    (fun peer o =>
       let (o, id) := next_request_id o in
       let (o, t) := unix_now o in
       ask C peer (payout_request id epoch message withdrawal_index quorum_attempt t) message o)
    designated new o.
End collector.

(** * Collection rounds: theorems

    A round ends in bounded time whatever the peers do, asks every configured
    peer at most once and nobody else, and keeps only signatures that verify
    over the message by the identity that was asked.  A payout's partials
    follow the designation. *)

(** ** Time

    What the timeouts given to the transport mean: reading a clock takes no
    time, connecting and one call at most their limits. *)
Class TimedNetwork (net : Type) `{Nw : PeerNetwork net} := {
  clock : net -> Z;
  instant_reads o : (instant_now o).2 = clock o;
  instant_clock o : clock (instant_now o).1 = clock o;
  nanos_clock o : clock (system_nanos o).1 = clock o;
  unix_clock o : clock (unix_now o).1 = clock o;
  connect_clock ct rt e o : 0 <= ct -> clock o <= clock (connect_endpoint ct rt e o).1 <= clock o + ct;
  sign_clock l c r o : 0 <= l -> clock o <= clock (call_sign l c r o).1 <= clock o + l;
  payout_clock l c r o : 0 <= l -> clock o <= clock (call_sign_payout l c r o).1 <= clock o + l;
  completion_clock l c r o : 0 <= l -> clock o <= clock (call_sign_completion l c r o).1 <= clock o + l;
  governance_clock l c r o : 0 <= l -> clock o <= clock (call_sign_governance l c r o).1 <= clock o + l;
  sweep_clock l c r o : 0 <= l -> clock o <= clock (call_sign_sweep l c r o).1 <= clock o + l
}.

Lemma find_peer_Some ps pk p : find_peer ps pk = Some p -> p ∈ ps /\ validator_pubkey p = pk.
Proof.
  intros H. apply find_some in H as [Hin Hp]. split; [by apply list_elem_of_In|].
  by apply bool_decide_eq_true in Hp.
Qed.

Lemma find_peer_configured ps pk : pk ∈ validator_pubkey <$> ps -> is_Some (find_peer ps pk).
Proof.
  intros (p & -> & Hp)%list_elem_of_fmap. destruct (find_peer ps (validator_pubkey p)) eqn:E; [by eexists|].
  apply list_elem_of_In in Hp. pose proof (find_none _ _ E p Hp) as H. unfold is_peer in H.
  by rewrite bool_decide_true in H.
Qed.

Section timed.
Context {net : Type} `{Nw : PeerNetwork net, Ed : Ed25519, Tm : !TimedNetwork net}.
Context (C : GrpcCollector).

(** Time passes by at most [d]. *)
Definition within {A} (d : Z) (f : net -> net * A) : Prop :=
  forall o, clock o <= clock (f o).1 <= clock o + d.

Lemma connect_within u : within PER_PEER_TIMEOUT (connect C u).
Proof.
  intros o. unfold connect. destruct (map_err _ _) as [e|]; [|cbn; unfold PER_PEER_TIMEOUT; lia].
  destruct (match tls C with None => _ | Some _ => _ end) as [e'|]; [|cbn; unfold PER_PEER_TIMEOUT; lia].
  pose proof (connect_clock PER_PEER_TIMEOUT PER_PEER_TIMEOUT e' o ltac:(unfold PER_PEER_TIMEOUT; lia)).
  by destruct (connect_endpoint _ _ _ _).
Qed.

Lemma ask_with_within {R A} (call : Client -> net -> net * option (result RpcStatus R))
    (accepted : R -> result str A) peer :
  (forall c, within PER_PEER_TIMEOUT (call c)) ->
  within (2 * PER_PEER_TIMEOUT) (ask_with call accepted C peer).
Proof.
  intros Hc o. unfold ask_with, mbind, SE_bind, lift.
  pose proof (connect_within (uri peer) o) as H. destruct (connect C (uri peer) o) as [o1 [c|e]]; cbn in *.
  2: { unfold PER_PEER_TIMEOUT in *. lia. }
  specialize (Hc c o1). unfold PER_PEER_TIMEOUT in *. destruct (call c o1) as [o2 [[r|e]|]]; cbn [fst snd] in *; lia.
Qed.

Lemma outcome_within m d : within d m -> within d (outcome_of m).
Proof. intros H o. specialize (H o). unfold outcome_of. by destruct (m o) as [o' [[pk s]|e]]. Qed.

(** The requests read clocks, and then one peer is asked. *)
Lemma built_within {A B} (build : list byte -> net -> net * B) (f : B -> net -> net * A) d :
  (forall id o, clock (build id o).1 = clock o) -> (forall b, within d (f b)) ->
  within d (fun o => let (o, id) := next_request_id o in let (o, b) := build id o in f b o).
Proof.
  intros Hb Hf o. unfold next_request_id. pose proof (nanos_clock o) as H1.
  destruct (system_nanos o) as [o1 n]. cbn [fst snd] in *. specialize (Hb (le_bytes 16 n) o1).
  destruct (build _ o1) as [o2 b]. cbn [fst snd] in *. specialize (Hf b o2). lia.
Qed.

Lemma request_within {A} (f : list byte -> Z -> net -> net * A) d :
  (forall id t, within d (f id t)) ->
  within d (fun o => let (o, id) := next_request_id o in let (o, t) := unix_now o in f id t o).
Proof.
  intros Hf o. unfold next_request_id. pose proof (nanos_clock o) as H1.
  destruct (system_nanos o) as [o1 n]. cbn [fst snd] in *. pose proof (unix_clock o1) as H2.
  destruct (unix_now o1) as [o2 t]. cbn [fst snd] in *. specialize (Hf (le_bytes 16 n) t o2). lia.
Qed.

(** After the deadline nothing takes time; before it a question starts. *)
Lemma ask_loop_within threshold deadline question d order r o :
  0 <= d -> (forall p, within d (question p)) ->
  clock o <= clock (ask_loop C threshold deadline question order r o).1 <= Z.max (clock o) (deadline + d).
Proof.
  intros Hd Hq. revert r o. induction order as [|pk order IH]; intros r o; cbn [ask_loop]; [cbn; lia|].
  destruct (reached r threshold); [cbn; lia|]. destruct (find_peer _ _) as [p|]; [|apply IH].
  pose proof (instant_reads o) as Ht. pose proof (instant_clock o) as Hc.
  destruct (instant_now o) as [o1 t]. cbn in *. destruct (Z.leb_spec deadline t) as [Hle|Hlt].
  - match goal with |- context [ask_loop _ _ _ _ _ ?r' o1] => specialize (IH r' o1) end. lia.
  - specialize (Hq p o1). destruct (question p o1) as [o2 out]. cbn in *.
    specialize (IH (record r pk out) o2). lia.
Qed.

Lemma partial_loop_within enough absent deadline question d signers pr o :
  0 <= d -> (forall p s, within d (question p s)) ->
  clock o <= clock (partial_loop C enough absent deadline question signers pr o).1 <= Z.max (clock o) (deadline + d).
Proof.
  intros Hd Hq. revert pr o. induction signers as [|s signers IH]; intros pr o; cbn [partial_loop]; [cbn; lia|].
  destruct (enough (partials pr)); [cbn; lia|]. destruct (find_peer _ _) as [p|]; [|apply IH].
  pose proof (instant_reads o) as Ht. pose proof (instant_clock o) as Hc.
  destruct (instant_now o) as [o1 t]. cbn in *. destruct (Z.leb_spec deadline t) as [Hle|Hlt].
  - match goal with |- context [partial_loop _ _ _ _ _ _ ?r' o1] => specialize (IH r' o1) end. lia.
  - specialize (Hq p s o1). destruct (question p s o1) as [o2 [q|out]]; cbn in *;
      match goal with |- context [partial_loop _ _ _ _ _ _ ?r' o2] => specialize (IH r' o2) end; lia.
Qed.

Lemma designated_loop_within deadline question d designated r o :
  0 <= d -> (forall p, within d (question p)) ->
  clock o <= clock (designated_loop C deadline question designated r o).1 <= Z.max (clock o) (deadline + d).
Proof.
  intros Hd Hq. revert r o. induction designated as [|pk designated IH]; intros r o; cbn [designated_loop]; [cbn; lia|].
  destruct (find_peer _ _) as [p|]; [|apply IH].
  pose proof (instant_reads o) as Ht. pose proof (instant_clock o) as Hc.
  destruct (instant_now o) as [o1 t]. cbn in *. destruct (Z.leb_spec deadline t) as [Hle|Hlt].
  - match goal with |- context [designated_loop _ _ _ _ ?r' o1] => specialize (IH r' o1) end. lia.
  - specialize (Hq p o1). destruct (question p o1) as [o2 out]. cbn in *. specialize (IH (record r pk out) o2). lia.
Qed.

Lemma from_instant {A} (f : Z -> net -> net * A) bound o :
  (forall o, clock o <= clock (f (clock o) o).1 <= clock o + bound) ->
  let r := (let (o', t) := instant_now o in f t o') in clock o <= clock r.1 <= clock o + bound.
Proof.
  intros Hf. pose proof (instant_reads o) as Ht. pose proof (instant_clock o) as Hc.
  destruct (instant_now o) as [o1 t]. cbn in *. specialize (Hf o1). rewrite Hc in Hf. by rewrite Ht.
Qed.

Definition ROUND_BOUND : Z := ROUND_TIMEOUT + 2 * PER_PEER_TIMEOUT.

Lemma everyone_within threshold seed question :
  (forall p, within (2 * PER_PEER_TIMEOUT) (question p)) ->
  within ROUND_BOUND (ask_everyone C threshold seed question).
Proof.
  intros Hq o. unfold ask_everyone.
  apply (from_instant (fun t o => ask_loop C threshold (t + ROUND_TIMEOUT) question _ new o)). clear o. intros o.
  pose proof (ask_loop_within threshold (clock o + ROUND_TIMEOUT) question (2 * PER_PEER_TIMEOUT)
    (ask_order (validator_pubkey <$> peers C) seed) new o ltac:(unfold PER_PEER_TIMEOUT; lia) Hq).
  unfold ROUND_BOUND, ROUND_TIMEOUT, PER_PEER_TIMEOUT in *. lia.
Qed.

Lemma members_within question members :
  (forall p, within (2 * PER_PEER_TIMEOUT) (question p)) ->
  within ROUND_BOUND (fun o => let (o, t) := instant_now o in
    designated_loop C (t + ROUND_TIMEOUT) question members new o).
Proof.
  intros Hq o.
  apply (from_instant (fun t o => designated_loop C (t + ROUND_TIMEOUT) question members new o)). clear o. intros o.
  pose proof (designated_loop_within (clock o + ROUND_TIMEOUT) question (2 * PER_PEER_TIMEOUT) members new o
    ltac:(unfold PER_PEER_TIMEOUT; lia) Hq).
  unfold ROUND_BOUND, ROUND_TIMEOUT, PER_PEER_TIMEOUT in *. lia.
Qed.

Lemma designated_within enough absent question signers :
  (forall p s, within (2 * PER_PEER_TIMEOUT) (question p s)) ->
  within ROUND_BOUND (fun o => let (o, t) := instant_now o in
    partial_loop C enough absent (t + ROUND_TIMEOUT) question signers {| partials := []; round := new |} o).
Proof.
  intros Hq o.
  apply (from_instant (fun t o => partial_loop C enough absent (t + ROUND_TIMEOUT) question signers _ o)). clear o. intros o.
  pose proof (partial_loop_within enough absent (clock o + ROUND_TIMEOUT) question (2 * PER_PEER_TIMEOUT) signers
    {| partials := []; round := new |} o ltac:(unfold PER_PEER_TIMEOUT; lia) Hq).
  unfold ROUND_BOUND, ROUND_TIMEOUT, PER_PEER_TIMEOUT in *. lia.
Qed.

(** C23: On a network that keeps its timeouts, every signature round of the collector
    ends within thirty seconds of its start whatever the peers do and however many are
    configured: no question is asked after the round's deadline and each takes at most
    the connect and the request timeout. *)
Theorem rounds_end epoch message txid vout index payout_txid height action commitment attempt intent hex
    designated proposer threshold members :
  within ROUND_BOUND (collect_mint_signatures C epoch message txid vout) /\
  within ROUND_BOUND (collect_completion_signatures C epoch index payout_txid height message) /\
  within ROUND_BOUND (collect_governance_signatures C epoch action commitment message) /\
  within ROUND_BOUND (collect_payout_signatures C epoch message index attempt members) /\
  within ROUND_BOUND (collect_payout_partials C epoch index attempt intent hex designated proposer) /\
  within ROUND_BOUND (collect_sweep_partials C epoch hex designated threshold).
Proof.
  split_and!.
  - intros o. unfold collect_mint_signatures. 
    match goal with |- context [collect C ?n ?s message ?b] => assert (within ROUND_BOUND (collect C n s message b)) as H end.
    { apply everyone_within. intros p. apply built_within.
      - intros id o1. pose proof (unix_clock o1) as Hu. by destruct (unix_now o1).
      - intros req. apply outcome_within, ask_with_within. intros c o1. apply sign_clock. unfold PER_PEER_TIMEOUT; lia. }
    specialize (H o). by destruct (collect _ _ _ _ _ _).
  - apply everyone_within. intros p. apply request_within. intros id t. apply outcome_within, ask_with_within.
    intros c o. apply completion_clock. unfold PER_PEER_TIMEOUT; lia.
  - apply everyone_within. intros p. apply request_within. intros id t. apply outcome_within, ask_with_within.
    intros c o. apply governance_clock. unfold PER_PEER_TIMEOUT; lia.
  - apply members_within. intros p. apply request_within. intros id t. apply outcome_within, ask_with_within.
    intros c o. apply sign_clock. unfold PER_PEER_TIMEOUT; lia.
  - apply designated_within. intros p s. apply request_within. intros id t. apply ask_with_within.
    intros c o. apply payout_clock. unfold PER_PEER_TIMEOUT; lia.
  - apply designated_within. intros p s. apply request_within. intros id t. apply ask_with_within.
    intros c o. apply sweep_clock. unfold PER_PEER_TIMEOUT; lia.
Qed.
End timed.

(** ** What a round holds *)

Section soundness.
Context {net : Type} `{Nw : PeerNetwork net, Ed : Ed25519}.
Context (C : GrpcCollector).
Abbreviation identities := (validator_pubkey <$> peers C).

(** A signature this identity gave over these very bytes. *)
Definition verified (message : list byte) (ps : Pubkey * Signature) : Prop :=
  ed25519_verify ps.1 message ps.2 = true /\ length ps.1 = 32%nat /\ length ps.2 = 64%nat.

Lemma same_identity_Ok expected answered pk :
  same_identity expected answered = Ok pk <-> pk = expected /\ answered = expected /\ length expected = 32%nat.
Proof.
  unfold same_identity. split.
  - intros H. res_inv. bools. apply Nat.eqb_eq in H. naive_solver.
  - intros (-> & -> & Hl). rewrite Hl. cbn. by rewrite bool_decide_true.
Qed.

Lemma accept_Ok expected message resp ps :
  accept expected message resp = Ok ps ->
  ps.1 = expected /\ verified message ps.
Proof.
  unfold accept, verified. intros H. apply bind_Ok in H as (pk & (-> & _ & Hl)%same_identity_Ok & H).
  res_inv. subst ps. cbn. match goal with H : (_ =? _)%nat = true |- _ => apply Nat.eqb_eq in H end. by split_and!.
Qed.

Lemma ask_with_Ok {R A} (call : Client -> net -> net * option (result RpcStatus R))
    (accepted : R -> result str A) peer o a :
  (ask_with call accepted C peer o).2 = Ok a -> exists r, accepted r = Ok a.
Proof.
  unfold ask_with, mbind, SE_bind, lift. destruct (connect C (uri peer) o) as [o1 [c|e]]; cbn; [|done].
  destruct (call c o1) as [o2 [[r|e]|]]; cbn; [|by case_match|done].
  intros H%map_err_Ok. by exists r.
Qed.

Lemma outcome_signed {R} (call : Client -> net -> net * option (result RpcStatus R)) (answer : R -> SignResponse)
    message peer o s :
  (outcome_of (ask_with call (fun r => accept (validator_pubkey peer) message (answer r)) C peer) o).2 = Signed s ->
  verified message (validator_pubkey peer, s).
Proof.
  unfold outcome_of. destruct (ask_with _ _ C peer o) as [o' [[pk sig]|e]] eqn:E.
  - cbn. intros [= ->]. assert ((ask_with call (fun r => accept (validator_pubkey peer) message (answer r)) C peer o).2 = Ok (pk, s)) as H by (by rewrite E).
    apply ask_with_Ok in H as (r & [H1 H2]%accept_Ok). cbn in H1. by subst pk.
  - cbn. intros ->. exfalso. revert E. unfold ask_with, mbind, SE_bind, lift.
    destruct (connect C (uri peer) o) as [o1 [c|e]]; cbn; [|by intros [=]].
    destruct (call c o1) as [o2 [[r|e]|]]; cbn; [|by case_match|done].
    destruct (accept _ _ _); done.
Qed.

(** The loop asks along [order] until the threshold, records each peer it
    asks, and keeps [P]. *)
Lemma ask_loop_spec (P : Pubkey * Signature -> Prop) threshold deadline question order r o :
  (forall p o s, p ∈ peers C -> (question p o).2 = Signed s -> P (validator_pubkey p, s)) ->
  (forall pk, pk ∈ order -> pk ∈ identities) ->
  let r' := (ask_loop C threshold deadline question order r o).2 in
  exists pre post, order = pre ++ post /\ asked r' ≡ₚ asked r ++ pre /\
    (post = [] \/ reached r' threshold = true) /\
    (Forall P (signatures r) -> Forall P (signatures r')) /\
    (NoDup (asked r ++ order) -> length (signatures r) <= threshold -> length (signatures r') <= threshold)%nat.
Proof.
  intros Hq. revert r o. induction order as [|pk order IH]; intros r o Hin; cbn [ask_loop].
  { exists [], []. rewrite !app_nil_r. split_and!; try done. by left. }
  destruct (reached r threshold) eqn:Er.
  { exists [], (pk :: order). rewrite !app_nil_r. split_and!; try done. by right. }
  destruct (find_peer_configured (peers C) pk ltac:(apply Hin; left)) as [p Hp].
  rewrite Hp. apply find_peer_Some in Hp as [Hp <-].
  assert (forall out o', (forall s, out = Signed s -> P (validator_pubkey p, s)) ->
    let r' := (ask_loop C threshold deadline question order (record r (validator_pubkey p) out) o').2 in
    exists pre post, validator_pubkey p :: order = pre ++ post /\ asked r' ≡ₚ asked r ++ pre /\
      (post = [] \/ reached r' threshold = true) /\
      (Forall P (signatures r) -> Forall P (signatures r')) /\
      (NoDup (asked r ++ validator_pubkey p :: order) -> length (signatures r) <= threshold ->
       length (signatures r') <= threshold)%nat) as Hrec.
  { intros out o' Hout. destruct (IH (record r (validator_pubkey p) out) o' ltac:(intros ? ?; apply Hin; by right))
      as (pre & post & -> & Ha & Hpost & HP & Hlen).
    exists (validator_pubkey p :: pre), post. split_and!; [done| |done| |].
    - rewrite Ha, asked_record. apply Permutation_middle.
    - intros H. apply HP. destruct out; cbn; [|done|done]. apply Forall_app. split; [done|].
      constructor; [by apply Hout|done].
    - intros Hd Hl. apply Hlen.
      + rewrite asked_record. by rewrite <- Permutation_middle in Hd.
      + unfold reached in Er. apply Nat.leb_gt in Er. rewrite unique_signers_distinct in Er.
        * destruct out; cbn; rewrite ?length_app; cbn; lia.
        * unfold asked in Hd. rewrite <- app_assoc in Hd. by apply NoDup_app in Hd as [? _]. }
  destruct (instant_now o) as [o1 t]. destruct (deadline <=? t); [by apply Hrec|].
  specialize (Hq p o1). destruct (question p o1) as [o2 out]. apply Hrec. intros s ->. by apply Hq.
Qed.

(** A completed round over everyone. *)
Record sound_round (message : list byte) (threshold : nat) (r : Round) : Prop := {
  sr_once : NoDup (asked r);
  sr_configured : forall pk, pk ∈ asked r -> pk ∈ identities;
  sr_verified : Forall (verified message) (signatures r);
  sr_no_more : (length (signatures r) <= threshold)%nat;
  sr_everyone : reached r threshold = true \/ asked r ≡ₚ identities
}.

Lemma ask_everyone_sound message threshold seed question o :
  NoDup identities ->
  (forall p o s, p ∈ peers C -> (question p o).2 = Signed s -> verified message (validator_pubkey p, s)) ->
  sound_round message threshold (ask_everyone C threshold seed question o).2.
Proof.
  intros Hd Hq. unfold ask_everyone. destruct (instant_now o) as [o1 t].
  pose proof (ask_order_perm identities seed) as Hperm.
  destruct (ask_loop_spec (verified message) threshold (t + ROUND_TIMEOUT) question (ask_order identities seed) new o1 Hq)
    as (pre & post & Ho & Ha & Hpost & HP & Hlen).
  { intros pk. by rewrite Hperm. }
  cbn [asked signatures refused unavailable new fmap list_fmap app] in *.
  set (r := (ask_loop _ _ _ _ _ _ _).2) in *.
  assert (NoDup (ask_order identities seed)) as Hnd by (by rewrite Hperm).
  rewrite Ho in Hnd, Hperm. apply NoDup_app in Hnd as (Hn1 & _ & _). split.
  - by rewrite Ha.
  - intros pk. rewrite Ha, <- Hperm. intros ?. apply elem_of_app. by left.
  - apply HP. constructor.
  - apply Hlen; [|cbn; apply Nat.le_0_l]. rewrite Ho, Hperm. done.
  - destruct Hpost as [->|?]; [right|by left]. rewrite Ha, <- Hperm. by rewrite app_nil_r.
Qed.

Lemma mint_round_sound epoch message txid vout o :
  NoDup identities ->
  exists r, (collect_mint_signatures C epoch message txid vout o).2 = signatures r /\
    sound_round message (length (peers C)) r.
Proof.
  intros Hd. unfold collect_mint_signatures.
  match goal with |- context [collect C ?n ?s message ?b o] =>
    assert (sound_round message n (collect C n s message b o).2) as H end.
  { apply ask_everyone_sound; [done|]. intros p o1 s _. unfold next_request_id.
    destruct (system_nanos o1) as [o2 n]. destruct (unix_now o2) as [o3 t]. apply (outcome_signed _ id). }
  destruct (collect _ _ _ _ _ _) as [o' r]. by exists r.
Qed.

Lemma completion_round_sound epoch index payout_txid height message o :
  NoDup identities ->
  sound_round message (length (peers C)) (collect_completion_signatures C epoch index payout_txid height message o).2.
Proof.
  intros Hd. apply ask_everyone_sound; [done|]. intros p o1 s _. unfold next_request_id.
  destruct (system_nanos o1) as [o2 n]. destruct (unix_now o2) as [o3 t]. apply (outcome_signed _ id).
Qed.

Lemma governance_round_sound epoch action commitment message o :
  NoDup identities ->
  sound_round message (length (peers C)) (collect_governance_signatures C epoch action commitment message o).2.
Proof.
  intros Hd. apply ask_everyone_sound; [done|]. intros p o1 s _. unfold next_request_id.
  destruct (system_nanos o1) as [o2 n]. destruct (unix_now o2) as [o3 t]. apply (outcome_signed _ id).
Qed.

(** ** Partials *)

(** A partial of the key this signer was designated to hold. *)
Definition answers_for (d : DesignatedSigner) (p : PartialSignature) : Prop :=
  vault_pubkey p = ds_vault_pubkey d /\ length (vault_pubkey p) = COMPRESSED_PUBKEY_LEN /\
  Multisig.signatures p <> [] /\ [] ∉ Multisig.signatures p.

Lemma accept_payout_Ok pk d resp p : accept_payout pk d resp = Ok p -> answers_for d p.
Proof.
  unfold accept_payout, answers_for. intros H. apply bind_Ok in H as (? & _ & H). res_inv. bools. subst p. cbn.
  match goal with H : (_ =? _)%nat = true |- _ => apply Nat.eqb_eq in H end. split_and!; try done.
  intros Hin%list_elem_of_In. match goal with H : existsb _ _ = false |- _ => apply not_true_iff_false in H; apply H end.
  apply existsb_exists. exists []. split; [done|]. by apply bool_decide_true.
Qed.

Lemma partial_loop_spec enough absent deadline question signers pr o :
  (forall p d o q, (question p d o).2 = Ok q -> answers_for d q) ->
  let pr' := (partial_loop C enough absent deadline question signers pr o).2 in
  exists pre post from more, signers = pre ++ post /\ from `sublist_of` pre /\
    partials pr' = partials pr ++ more /\ Forall2 answers_for from more /\
    (post = [] \/ enough (partials pr') = true) /\
    (forall d, d ∈ from -> ds_validator_pubkey d ∈ identities) /\
    asked (round pr') ≡ₚ asked (round pr) ++ (ds_validator_pubkey <$> pre).
Proof.
  intros Hq. revert pr o. induction signers as [|d signers IH]; intros pr o; cbn [partial_loop].
  { exists [], [], [], []. cbn. rewrite !app_nil_r. split_and!; try done; [by left|by intros ? ?%elem_of_nil]. }
  destruct (enough (partials pr)) eqn:Ee.
  { exists [], (d :: signers), [], []. cbn. rewrite !app_nil_r.
    split_and!; try done; [by right|by intros ? ?%elem_of_nil]. }
  assert (forall out o', let pr' := (partial_loop C enough absent deadline question signers
      {| partials := partials pr; round := record (round pr) (ds_validator_pubkey d) out |} o').2 in
    exists pre post from more, d :: signers = pre ++ post /\ from `sublist_of` pre /\
    partials pr' = partials pr ++ more /\ Forall2 answers_for from more /\
    (post = [] \/ enough (partials pr') = true) /\
    (forall d, d ∈ from -> ds_validator_pubkey d ∈ identities) /\
    asked (round pr') ≡ₚ asked (round pr) ++ (ds_validator_pubkey <$> pre)) as Hskip.
  { intros out o'. destruct (IH {| partials := partials pr; round := record (round pr) (ds_validator_pubkey d) out |} o')
      as (pre & post & from & more & -> & Hs & Hp & Hf & Hpost & Hin & Ha).
    exists (d :: pre), post, from, more. split_and!; try done; [by constructor|].
    rewrite Ha. cbn [round fmap list_fmap]. rewrite asked_record. apply Permutation_middle. }
  destruct (find_peer (peers C) (ds_validator_pubkey d)) as [p|] eqn:Hp; [|apply Hskip].
  destruct (instant_now o) as [o1 t]. destruct (deadline <=? t); [apply Hskip|].
  specialize (Hq p d o1). destruct (question p d o1) as [o2 [q|out]]; [|apply Hskip].
  destruct (IH {| partials := partials pr ++ [q];
                  round := record (round pr) (ds_validator_pubkey d) (Signed default_signature) |} o2)
    as (pre & post & from & more & -> & Hs & Hps & Hf & Hpost & Hin & Ha).
  exists (d :: pre), post, (d :: from), (q :: more). split_and!; try done.
  - by constructor.
  - rewrite Hps. cbn. by rewrite <- app_assoc.
  - constructor; [by apply Hq|done].
  - intros e [->|He]%elem_of_cons; [|by apply Hin].
    apply find_peer_Some in Hp as [Hpi <-]. by apply list_elem_of_fmap_2.
  - rewrite Ha. cbn [round fmap list_fmap]. rewrite asked_record. apply Permutation_middle.
Qed.
End soundness.
