(* ===== verification/Federation.v ===== *)
(** * The federation behind the relayer: [relayer/src/withdrawal/federation.rs]

    The map from vault positions to validators, the payout and completion
    collectors over it, and [collector_from_env] of [main.rs].  The environment
    is a function. *)
From Stdlib Require Import ZArith Lia Strings.Byte.
From stdpp Require Import base numbers strings gmap list.
From S2P Require Import Vault Multisig SignerService.
From S2P Require Import Prelude Effects Messages Hex Text State SignatureProof Identity Aggregation Collector.

Inductive VaultSignerMapError :=
| Malformed (entry : str)
| BadPubkey (entry reason : str)
| IndexOutOfRange (index : Z) (signers : nat)
| DuplicateIndex (index : Z)
| DuplicateValidator (pk : Pubkey)
| Incomplete (covered signers : nat)
| Empty.

Record VaultSignerMap := { by_index : gmap Z Pubkey }.

Section map.
Context `{K : PubkeyText}.

(** The body of the loop of [parse]: the map, and the validators seen. *)
Definition map_entry (v : MultisigVault) (acc : gmap Z Pubkey * list Pubkey) (entry : str)
  : result VaultSignerMapError (gmap Z Pubkey * list Pubkey) :=
  let '(by_index, seen_validators) := acc in
  let* (idx, pk) := ok_or (split_once ":"%byte entry) (Malformed entry) in
  let* index := ok_or (parse_unsigned U8_MAX (trim idx)) (Malformed entry) in
  let* validator := map_err (BadPubkey entry) (pubkey_from_str (trim pk)) in
  require (negb (length (signer_pubkeys v) <=? Z.to_nat index)%nat)
    (IndexOutOfRange index (length (signer_pubkeys v))) ;;*
  require (negb (bool_decide (is_Some (by_index !! index)))) (DuplicateIndex index) ;;*
  require (negb (bool_decide (validator ∈ seen_validators))) (DuplicateValidator validator) ;;*
  Ok (<[index := validator]> by_index, seen_validators ++ [validator]).

Definition parse_map (raw : str) (v : MultisigVault) : result VaultSignerMapError VaultSignerMap :=
  let* (by_index, _) := foldM (map_entry v) (∅, []) (entries ","%byte raw) in
  require (negb (size by_index =? 0)%nat) Empty ;;*
  require (size by_index =? length (signer_pubkeys v))%nat
    (Incomplete (size by_index) (length (signer_pubkeys v))) ;;*
  Ok {| by_index := by_index |}.
End map.

(** A search through the table, whose order the code does not rely on. *)
Definition index_of (m : VaultSignerMap) (validator : Pubkey) : option Z :=
  (fun x => x.2.1) <$> list_find (fun iv => iv.2 = validator) (map_to_list (by_index m)).
Definition validator_at (m : VaultSignerMap) (index : Z) : option Pubkey := by_index m !! index.

Record FederationPayoutCollector := {
  fc_collector : GrpcCollector; fc_vault : MultisigVault; fc_map : VaultSignerMap;
  fc_proposer_index : Z
}.

(** Positions that resolve to nobody are dropped. *)
Definition resolve_one (F : FederationPayoutCollector) (i : Z) : option DesignatedSigner :=
  validator ← validator_at (fc_map F) i;
  vault_pubkey ← signer_pubkeys (fc_vault F) !! Z.to_nat i;
  Some {| ds_validator_pubkey := validator; ds_vault_pubkey := vault_pubkey |}.
Definition resolve (F : FederationPayoutCollector) (quorum_indices : list byte) : list DesignatedSigner :=
  omap (fun b => resolve_one F (byte_to_Z b)) quorum_indices.

Section collectors.
Context {net : Type} `{Nw : PeerNetwork net, Ed : Ed25519}.

Definition payout_partials (F : FederationPayoutCollector) (epoch withdrawal_index quorum_attempt : Z)
    (canonical_intent : list byte) (unsigned_tx_hex : str) (quorum_indices : list byte) (o : net)
  : net * list PartialSignature :=
  let (o, r) := Collector.collect_payout_partials (fc_collector F) epoch withdrawal_index quorum_attempt
                  canonical_intent unsigned_tx_hex (resolve F quorum_indices) (fc_proposer_index F) o in
  (o, partials r).

(** [FederationCompletionCollector] *)
Definition completion_signatures (C : GrpcCollector) (epoch withdrawal_index : Z) (payout_txid : list byte)
    (payout_height : Z) (message : list byte) (o : net) : net * list (Pubkey * Signature) :=
  let (o, r) := Collector.collect_completion_signatures C epoch withdrawal_index payout_txid payout_height message o in
  (o, signatures r).
End collectors.

(** [env_required]; the error is the name. *)
Definition env_required (env : str -> option str) (name : str) : result str str := ok_or (env name) name.

Inductive CollectorSetup := NotSet (name : str) | BadIdentity (e : IdentityError).

Definition collector_from_env `{K : PubkeyText} (env : str -> option str)
    (read : str -> result str (list byte)) (own_identity : Pubkey) : result CollectorSetup GrpcCollector :=
  let required name := map_err NotSet (env_required env (lit name)) in
  let* raw := required "GLC_FEDERATION_PEERS" in
  let* ps := map_err BadIdentity (parse_peers raw (Some own_identity)) in
  let* ps := map_err BadIdentity
               (with_local_signer ps own_identity (default [] (env (lit "GLC_RELAYER_LOCAL_SIGNER_URI")))) in
  if bool_decide (env (lit "GLC_FEDERATION_TLS") = Some (lit "off")) then Ok (insecure_without_tls ps)
  else
    let* ca := required "GLC_FEDERATION_CA_CERT_PATH" in
    let* cert := required "GLC_RELAYER_TLS_CERT_PATH" in
    let* key := required "GLC_RELAYER_TLS_KEY_PATH" in
    let* tls := map_err BadIdentity (load read {| path_ca := ca; path_cert := cert; path_key := key |}) in
    let* domain := required "GLC_FEDERATION_TLS_DOMAIN" in
    Ok (grpc_collector ps tls domain).

(** ** The configured map *)

(** Every vault position held by exactly one validator. *)
Record total_map (v : MultisigVault) (m : VaultSignerMap) : Prop := {
  tm_positions : forall i, is_Some (by_index m !! i) <-> 0 <= i < Z.of_nat (length (signer_pubkeys v));
  tm_injective : forall i j pk, by_index m !! i = Some pk -> by_index m !! j = Some pk -> i = j
}.

Section parsing.
Context `{K : PubkeyText} (v : MultisigVault).

Definition map_so_far (acc : gmap Z Pubkey * list Pubkey) : Prop :=
  (forall i, is_Some (acc.1 !! i) -> 0 <= i < Z.of_nat (length (signer_pubkeys v))) /\
  (forall i pk, acc.1 !! i = Some pk -> pk ∈ acc.2) /\
  (forall i j pk, acc.1 !! i = Some pk -> acc.1 !! j = Some pk -> i = j).

Lemma dec_digits_nonneg acc s n : 0 <= acc -> dec_digits acc s = Some n -> 0 <= n.
Proof.
  revert acc. induction s as [|b s IH]; intros acc Ha; cbn [dec_digits]; [by intros [= <-]|].
  case_match eqn:E; [|done]. apply andb_true_iff in E as [E1%Z.leb_le _]. apply IH. lia.
Qed.

Lemma parse_unsigned_range max s n : parse_unsigned max s = Some n -> 0 <= n <= max.
Proof.
  unfold parse_unsigned. destruct s as [|b rest]; [done|].
  intros (k & Hk & H)%bind_Some. apply dec_digits_nonneg in Hk; [|done].
  case_match eqn:E; [|done]. injection H as ->. bools. lia.
Qed.

Lemma map_entry_keeps acc entry acc' : map_so_far acc -> map_entry v acc entry = Ok acc' -> map_so_far acc'.
Proof.
  destruct acc as [m seen]. intros (H1 & H2 & H3) H. unfold map_entry in H.
  apply bind_Ok in H as ([idx pk] & _ & H). apply bind_Ok in H as (i & Hi%ok_or_Ok & H).
  apply bind_Ok in H as (val & _ & H). res_inv. subst acc'. cbn in *.
  apply parse_unsigned_range in Hi. bools.
  match goal with H : (_ <=? _)%nat = false |- _ => apply Nat.leb_gt in H end.
  match goal with H : ~ is_Some (m !! i) |- _ => rename H into Hfresh end.
  unfold map_so_far. cbn. split_and!.
  - intros j. destruct (decide (i = j)) as [<-|]; [lia|]. rewrite lookup_insert_ne by done. apply H1.
  - intros j pk'. destruct (decide (i = j)) as [<-|].
    + rewrite lookup_insert_eq. intros [= <-]. set_solver.
    + rewrite lookup_insert_ne by done. intros Hj%H2. set_solver.
  - intros j k pk'. rewrite !lookup_insert. do 2 case_decide; subst; [done| | |apply H3].
    + by intros [= <-] ?%H2.
    + by intros ?%H2 [= <-].
Qed.

(** An accepted map covers the vault, one validator per position. *)
Lemma parse_map_total raw m : parse_map raw v = Ok m -> total_map v m.
Proof.
  unfold parse_map. intros H. apply bind_Ok in H as ([bi seen] & Hf & H). res_inv. subst m.
  assert (map_so_far (bi, seen)) as (H1 & _ & H3).
  { eapply (foldM_invariant map_so_far); [apply map_entry_keeps| |exact Hf].
    split_and!; cbn; intros i; rewrite ?lookup_empty; [by intros [? ?]|done|]. by intros j pk Hi. }
  cbn in *. match goal with H : (size bi =? _)%nat = true |- _ => apply Nat.eqb_eq in H; rename H into Hsz end.
  split; [|done]. cbn. intros i. split; [apply H1|]. intros Hi.
  apply elem_of_dom.
  assert (dom bi = list_to_set (seqZ 0 (Z.of_nat (length (signer_pubkeys v)))) :> gset Z) as ->.
  { assert (dom bi ⊆@{gset Z} list_to_set (seqZ 0 (Z.of_nat (length (signer_pubkeys v))))) as Hs.
    { intros j [Hj1 Hj2]%elem_of_dom%H1. apply elem_of_list_to_set, elem_of_seqZ. lia. }
    apply leibniz_equiv, set_subseteq_size_equiv; [done|].
    rewrite size_list_to_set by apply NoDup_seqZ. rewrite length_seqZ, size_dom. lia. }
  apply elem_of_list_to_set, elem_of_seqZ. lia.
Qed.

(** The operator index of a validator is the position it holds. *)
Lemma index_of_iff m validator i :
  total_map v m -> index_of m validator = Some i <-> validator_at m i = Some validator.
Proof.
  intros [_ Hinj]. unfold index_of, validator_at. split.
  - intros ([k [j pk]] & (Hk & E & _)%list_find_Some & ->)%fmap_Some. cbn in *. subst pk.
    apply list_elem_of_lookup_2 in Hk. by apply elem_of_map_to_list.
  - intros Hi. apply elem_of_map_to_list in Hi as Hin.
    destruct (list_find_elem_of (fun iv => iv.2 = validator) _ _ Hin eq_refl) as [[k [j pk]] Hf].
    rewrite Hf. cbn. apply list_find_Some in Hf as (Hk & E & _). cbn in E. subst pk.
    apply list_elem_of_lookup_2, elem_of_map_to_list in Hk. f_equal. by eapply Hinj.
Qed.
End parsing.
