(* ===== verification/FederationProps.v ===== *)
(** * The federation behind the relayer: theorems

    The collectors composed with what uses them: payout partials with the
    assembly and the executor, mint signatures with the mint pipeline and the
    parser of the program.  Then a federation on a toy network. *)
From Stdlib Require Import ZArith Lia Strings.Byte.
From stdpp Require Import base numbers strings gmap list.
From S2P Require Import Executor ExecutorScenario WithdrawalDb Vault Multisig SignerService.
From S2P Require Import Prelude Messages State Verification Token Scenario SignatureProof Accounts.
From S2P Require Import SolanaInstruction SolanaRpc.
From S2P Require Import ChainPass Hex Text Completion CompletionProps Orchestrator.
From S2P Require Import OrchestratorProps MintScenario.
From S2P Require Import Identity Aggregation Collector Federation.

From S2P Require DepositDb Orchestrator OrchestratorProps.

(** ** Payouts *)

Section payouts.
Context {net : Type} `{Nw : PeerNetwork net, Ed : Ed25519}.
Context (F : FederationPayoutCollector).
Abbreviation v := (fc_vault F).

(** What the quorum position [b] may contribute. *)
Definition position_answers (b : byte) (p : PartialSignature) : Prop :=
  signer_pubkeys v !! Z.to_nat (byte_to_Z b) = Some (vault_pubkey p) /\
  (exists pk, validator_at (fc_map F) (byte_to_Z b) = Some pk /\
              pk ∈ validator_pubkey <$> peers (fc_collector F)) /\
  Multisig.signatures p <> [] /\ [] ∉ Multisig.signatures p.

Lemma resolve_sublist quorum from :
  from `sublist_of` resolve F quorum ->
  exists bs, bs `sublist_of` quorum /\ Forall2 (fun b d => resolve_one F (byte_to_Z b) = Some d) bs from.
Proof.
  unfold resolve. revert from. induction quorum as [|b quorum IH]; intros from Hs; cbn [omap list_omap] in Hs.
  - apply sublist_nil_r in Hs as ->. exists []. split; [done|constructor].
  - destruct (resolve_one F (byte_to_Z b)) as [d|] eqn:E.
    + apply sublist_cons_r in Hs as [Hs|(from' & -> & Hs)].
      * destruct (IH _ Hs) as (bs & Hb & Hf). exists bs. split; [by constructor|done].
      * destruct (IH _ Hs) as (bs & Hb & Hf). exists (b :: bs). split; by constructor.
    + destruct (IH _ Hs) as (bs & Hb & Hf). exists bs. split; [by constructor|done].
Qed.

Lemma resolve_one_Some b d :
  resolve_one F b = Some d <->
  validator_at (fc_map F) b = Some (ds_validator_pubkey d) /\
  signer_pubkeys v !! Z.to_nat b = Some (ds_vault_pubkey d).
Proof.
  unfold resolve_one. split.
  - intros (pk & Hpk & (k & Hk & [= <-])%bind_Some)%bind_Some. done.
  - intros [-> H2]. cbn. rewrite H2. cbn. by destruct d.
Qed.

Lemma partials_by_position epoch index attempt intent hex quorum o :
  exists bs, bs `sublist_of` quorum /\
    Forall2 position_answers bs (payout_partials F epoch index attempt intent hex quorum o).2.
Proof.
  unfold payout_partials, Collector.collect_payout_partials. destruct (instant_now o) as [o1 t].
  match goal with |- context [partial_loop ?C ?e ?a ?dl ?q ?ds ?pr o1] =>
    destruct (partial_loop_spec C e a dl q ds pr o1) as (pre & post & from & more & Hp & Hs & Hps & Hf & Hpost & Hin & _)
  end.
  { intros p d q o2. unfold next_request_id. destruct (system_nanos q) as [q1 n]. destruct (unix_now q1) as [q2 u].
    unfold ask_payout. intros H. apply ask_with_Ok in H as (r & Hr). by eapply accept_payout_Ok. }
  destruct (partial_loop _ _ _ _ _ _ _ _) as [o2 pr]. cbn [fst snd Collector.partials] in *. cbn in Hps. subst more.
  destruct Hpost as [->|]; [|done]. rewrite app_nil_r in Hp. subst pre.
  destruct (resolve_sublist quorum from Hs) as (bs & Hb & Hr). exists bs. split; [done|].
  assert (forall d, d ∈ from -> ds_validator_pubkey d ∈ validator_pubkey <$> peers (fc_collector F)) as Hin' by done.
  clear -Hr Hf Hin'. revert Hf Hin'. generalize (partials pr). induction Hr as [|b d bs from Hd Hr IH]; intros ps Hf Hin.
  - apply Forall2_nil_inv_l in Hf as ->. constructor.
  - apply Forall2_cons_inv_l in Hf as (p & ps' & (Hk & _ & Hs1 & Hs2) & Hf & ->).
    apply resolve_one_Some in Hd as [Hv Hkey]. constructor.
    + unfold position_answers. rewrite Hk. split_and!; try done. exists (ds_validator_pubkey d). split; [done|].
      apply Hin. left.
    + apply IH; [done|]. intros d' ?. apply Hin. by right.
Qed.

Lemma position_keys_distinct bs (ps : list PartialSignature) :
  NoDup (signer_pubkeys v) -> NoDup bs -> Forall2 position_answers bs ps -> NoDup (vault_pubkey <$> ps).
Proof.
  intros Hk Hd Hf. induction Hf as [|b p bs ps Hp Hf IH]; cbn; [constructor|].
  apply NoDup_cons in Hd as [Hb Hd]. constructor; [|by apply IH].
  intros (q & E & Hq)%list_elem_of_fmap. apply list_elem_of_lookup in Hq as (i & Hi).
  destruct (Forall2_lookup_r _ _ _ _ _ Hf Hi) as (c & Hc & (Hc1 & _)). destruct Hp as (Hp1 & _).
  rewrite E in Hp1. apply Hb. assert (Z.to_nat (byte_to_Z b) = Z.to_nat (byte_to_Z c)) as Hbc.
  { exact (proj1 (NoDup_alt _) Hk _ _ _ Hp1 Hc1). }
  assert (b = c) as ->; [|by eapply list_elem_of_lookup_2].
  pose proof (byte_to_Z_bound b). pose proof (byte_to_Z_bound c). apply byte_to_Z_inj. lia.
Qed.

(** C22: Whatever the network answers, the partials a payout round returns come from a
    subsequence of the designated quorum, in its order, each carrying the vault key of
    its position; so assembling them succeeds exactly when every designated signer
    answered, with one signature per input, and each signature verifies. *)
Theorem partials_follow_the_quorum `{Sh : Sha2, Rm : Ripemd160, Sc : Secp256k1} epoch index attempt intent hex quorum u o :
  vault_wf v -> NoDup quorum -> length quorum = Vault.threshold v -> inputs u <> [] ->
  let ps := (payout_partials F epoch index attempt intent hex quorum o).2 in
  (exists bs, bs `sublist_of` quorum /\ Forall2 position_answers bs ps) /\
  (length ps <= Vault.threshold v)%nat /\
  (assemble u v ps = Ok (assembled u v ps) <->
   length ps = Vault.threshold v /\ Forall (fun p => length (Multisig.signatures p) = length (inputs u)) ps /\
   forall i, (i < length (inputs u))%nat -> Forall (good_at u v i) ps).
Proof.
  intros Hwf Hd Hq Hne ps. destruct (partials_by_position epoch index attempt intent hex quorum o) as (bs & Hs & Hf).
  fold ps in Hf. assert (NoDup (vault_pubkey <$> ps)) as Hk.
  { apply (position_keys_distinct bs); [by destruct (vw_policy v Hwf)|by eapply sublist_NoDup|done]. }
  assert (Forall (fun p => vault_pubkey p ∈ signer_pubkeys v) ps) as Hm.
  { apply Forall_forall. intros p Hp. apply list_elem_of_lookup in Hp as (i & Hi).
    destruct (Forall2_lookup_r _ _ _ _ _ Hf Hi) as (b & _ & (Hb & _)). by eapply list_elem_of_lookup_2. }
  split_and!; [by exists bs| |].
  - rewrite <- Hq, <- (Forall2_length _ _ _ Hf). by apply sublist_length.
  - rewrite assemble_Ok. split.
    + intros [[]  _]. by split_and!.
    + intros (Hl & Hc & Hg). split; [|done]. by constructor.
Qed.
End payouts.

(** ** A partial that does not verify *)

Section halting.
Context `{Sh : Sha2, Sc : Secp256k1, N : PayoutRpc}.

Lemma halted_by_transition i at_ reason d w :
  withdrawal_requests d !! i = Some w -> is_terminal (w_state w) = false ->
  let d' := (transition_withdrawal i IntegrityHalted at_ (Some reason) d).1 in
  (transition_withdrawal i IntegrityHalted at_ (Some reason) d).2 = Ok tt /\
  w_state <$> withdrawal_requests d' !! i = Some IntegrityHalted /\
  withdrawal_payouts d' = withdrawal_payouts d /\ vault_utxos d' = vault_utxos d.
Proof.
  intros Hw Ht. unfold transition_withdrawal. rewrite Hw.
  assert (may_transition_to (w_state w) IntegrityHalted = true) as Hm.
  { unfold may_transition_to. rewrite bool_decide_true by done. by rewrite Ht. }
  rewrite Hm, andb_false_r. cbn. rewrite lookup_alter_eq, Hw. by split_and!.
Qed.

(** When the designated signers answered in number but one of their signatures does
    not verify, the executor moves the withdrawal to IntegrityHalted, keeps its payout
    unsigned and its outputs reserved, counts a halt and goes on: a single designated
    signer that answers with rubbish stops the withdrawal until an operator clears it. *)
Theorem one_bad_partial_halts_the_payout S index w row signable t1 o1 t2 o2 obs partials o3 unsigned p i :
  now_unix (w_outside w) = (o1, t1) -> now_unix o1 = (o2, t2) -> epoch_observation o2 = obs ->
  withdrawal_requests (w_db w) !! index = Some row -> is_terminal (w_state row) = false ->
  verify_and_load_signable_payout index t1 (w_db w) = (w_db w, Ok signable) ->
  Epoch.is_fresh_at obs t2 = true ->
  Executor.collect_payout_partials (Epoch.epoch obs) (as_u64 index) (s_quorum_attempt signable)
    (s_intent_bytes signable) (s_unsigned_tx_hex signable) (s_quorum_indices signable) o2 = (o3, partials) ->
  parse_hex (s_unsigned_tx_hex signable) = Ok unsigned ->
  (Vault.threshold (WithdrawalConfig.vault (config S)) <= length partials)%nat ->
  p ∈ partials -> (i < length (inputs unsigned))%nat ->
  ~ good_at unsigned (WithdrawalConfig.vault (config S)) i p ->
  let w' := (sign S index w).1 in
  (sign S index w).2 = Ok tt /\
  w_state <$> withdrawal_requests (w_db w') !! index = Some IntegrityHalted /\
  withdrawal_payouts (w_db w') = withdrawal_payouts (w_db w) /\
  vault_utxos (w_db w') = vault_utxos (w_db w) /\
  Executor.w_report w' = bump CHalted (Executor.w_report w).
Proof.
  intros H1 H2 <- Hrow Hterm Hver Hfresh Hcol Hparse Hthr Hp Hi Hbad.
  destruct (assemble unsigned (WithdrawalConfig.vault (config S)) partials) as [tx|e] eqn:Ea.
  { apply assemble_Ok in Ea as [[_ _ _ _ _ Hg] _]. specialize (Hg i Hi). rewrite Forall_forall in Hg. by destruct (Hbad (Hg p Hp)). }
  unfold sign, Executor.now, Executor.ask, try_db, mbind, M_bind. rewrite H1. cbn [w_outside w_db w_report].
  rewrite Hver. cbn [w_outside w_db w_report]. rewrite H2. cbn [w_outside w_db w_report]. rewrite Hfresh.
  cbn [negb w_outside w_db w_report]. rewrite Hcol. rewrite (proj2 (Nat.ltb_ge _ _)) by done.
  unfold Executor.lift. rewrite Hparse. cbn [map_err]. rewrite Ea. 
  unfold halt_payout, transition, Executor.now, Executor.ask, Executor.with_db, try_db, Executor.lift, Executor.count_, mbind, M_bind. cbn [w_outside w_db w_report].
  destruct (now_unix o3) as [o4 t4]. cbn [w_outside w_db w_report].
  match goal with |- context [transition_withdrawal index IntegrityHalted t4 (Some ?r) (w_db w)] =>
    pose proof (halted_by_transition index t4 r (w_db w) row Hrow Hterm) as Hh;
    destruct (transition_withdrawal index IntegrityHalted t4 (Some r) (w_db w)) as [d [[]|]] end;
    cbn in Hh |- *; destruct Hh as (? & ? & ? & ?); [|done]. by split_and!.
Qed.
End halting.

(** ** Mints *)

Section mints.
Context {T : SplToken} `{Sh : Sha2, Rt : SolanaRuntime, Rn : Runtime}.
Context {net : Type} `{Sr : SolanaRpc net, Nw : PeerNetwork net, Ed : Ed25519}.
Context (C : GrpcCollector) (S : Orchestrator.Orchestrator).

(** The pipeline as [main.rs] wires it: the collector is [C]. *)
Definition grpc_mint : Orchestrator.MintOutside net :=
  {| Orchestrator.mt_rpc := Sr; Orchestrator.mt_now_unix := unix_now;
     Orchestrator.collect_mint_signatures := Collector.collect_mint_signatures C |}.

(** C12: Every mint transaction a relayer sends with the network collector carries one
    verified signature over its own message from each of some distinct configured peers,
    and the program's verdict on it is determined: if all these peers are in the
    validator set the relayer had read, the program counts exactly them and they reach
    its threshold; if one is not, the program rejects the whole proof. *)
Theorem sent_mint_proof_verdict (o : net) d before tx after :
  NoDup (validator_pubkey <$> peers C) -> (length (peers C) <= 255)%nat ->
  (Orchestrator.tick (N := OrchestratorProps.logging grpc_mint) S (o, []) d).1.1.2 = before ++ Sent tx :: after ->
  exists row claim t set_account snapshot sigs blockhash,
    Read (validator_set_pda (Orchestrator.or_program_id S)).1 (Ok (Some set_account)) ∈ before /\
    decode_validator_set (acc_data set_account) = Ok snapshot /\
    DepositDb.verify_and_load_signable_message (DepositDb.id row) t d = (d, Ok claim) /\
    tx = Orchestrator.mint_transaction S sigs claim (OrchestratorProps.claim_address S row) blockhash /\
    NoDup sigs.*1 /\ (forall pk, pk ∈ sigs.*1 -> pk ∈ validator_pubkey <$> peers C) /\
    Forall (verified (DepositDb.sc_message claim)) sigs /\
    ((length (vs_validators snapshot) <= MAX_VALIDATORS)%nat -> 1 <= vs_threshold snapshot ->
     Z.of_nat (length (DepositDb.sc_message claim)) <= 1024 ->
     let verdict := count_unique_validator_signers
       (build_ed25519_instruction sigs (DepositDb.sc_message claim)) (DepositDb.sc_message claim) (vs_validators snapshot) in
     (Forall (fun pk => pk ∈ vs_validators snapshot) sigs.*1 ->
      verdict = Ok (length sigs) /\ vs_threshold snapshot <= Z.of_nat (length sigs)) /\
     (~ Forall (fun pk => pk ∈ vs_validators snapshot) sigs.*1 -> exists e, verdict = Err e)).
Proof.
  intros Hd Hlen E. 
  destruct (OrchestratorProps.sent_mints_pass S o d before tx after E)
    as (row & claim & t & sa & snapshot & sigs & n & bh & _ & Hver & _ & _ & Hread & Hdec & Hn & [o' Hsigs] & Htx).
  destruct (mint_round_sound C (DepositDb.sc_validator_epoch claim) (DepositDb.sc_message claim)
              (DepositDb.sc_txid claim) (DepositDb.sc_vout claim) o' Hd) as (r & Hr & [Honce Hconf Hv Hmore _]).
  cbn in Hsigs. rewrite Hr in Hsigs. subst sigs. unfold asked in *. apply NoDup_app in Honce as (Hnd & _ & _).
  exists row, claim, t, sa, snapshot, (signatures r), bh. split; [exact Hread|]. split; [exact Hdec|]. split; [exact Hver|]. split; [exact Htx|]. split; [exact Hnd|].
  split; [intros pk Hpk; apply Hconf, elem_of_app; by left|]. split; [exact Hv|].
  intros Hvs Hthr Hmlen.
  assert (vs_threshold snapshot <= Z.of_nat n /\ (n <= length (signatures r))%nat) as [Htn Hnl].
  { unfold count_unique_threshold_signers in Hn. case_match eqn:Et; [|done]. injection Hn as <-. apply Z.leb_le in Et.
    split; [done|]. rewrite <- (length_fmap fst (signatures r)).
    etrans; [|apply (length_filter (fun pk => pk ∈ (list_to_set (vs_validators snapshot) : gset Pubkey)))].
    apply size_list_to_set_le. }
  assert (sized (signatures r) (DepositDb.sc_message claim)) as Hsz.
  { split_and!.
    - eapply Forall_impl; [exact Hv|]. by intros ps (_ & ? & ?).
    - unfold instruction_size, U16_MAX. lia.
    - lia.
    - lia. }
  split.
  - intros Hin. split; [|lia]. apply built_proof_verdict; [done|done|]. by split_and!.
  - intros Hout. destruct (count_unique_validator_signers _ _ _) as [k|e] eqn:Ev; [|by exists e]. exfalso. apply Hout.
    apply built_proof_verdict in Ev as (_ & _ & ?); [done|done|done].
Qed.
End mints.

(** * A federation, asked

    Four signers on a network whose clock is its state: three validators and
    an outsider, each at its own address; one address is down and one answers
    with rubbish.  The witnesses of the collectors' theorems run it. *)

#[local] Existing Instance toy_sha2.
#[local] Existing Instance toy_ripemd.
#[local] Existing Instance toy_secp.
#[local] Existing Instance toy_solana.

(** ** The network *)

#[local] Instance toy_ed : Ed25519 :=
  {| ed25519_verify pk m s := bool_decide (s = take 64 (pk ++ m ++ replicate 64 x00));
     pubkey_display := encode |}.
Definition toy_sign (pk : Pubkey) (m : list byte) : Signature := take 64 (pk ++ m ++ replicate 64 x00).

(** The signer at an address: its identity and vault position. *)
Definition signer_at (u : str) : option (Pubkey * nat) :=
  if bool_decide (u = lit "a") then Some (key 31, 0%nat)
  else if bool_decide (u = lit "b") then Some (key 32, 1%nat)
  else if bool_decide (u = lit "c") then Some (key 33, 2%nat)
  else if bool_decide (u = lit "rubbish") then Some (key 33, 2%nat)
  else if bool_decide (u = lit "d") then Some (key 34, 3%nat)
  else None.

Definition vault_key (i : nat) : pubkey := default [] (signer_pubkeys demo_vault !! i).

Definition sign_partial (u : str) (i : nat) (hex : str) : list (list byte) :=
  if bool_decide (u = lit "rubbish") then [[x00]]
  else match parse_hex hex with
       | Ok t => toy_signature t demo_vault (vault_key i) <$> seq 0 (length (inputs t))
       | Err _ => []
       end.

Definition answer_sign (message : list byte) (u : str) : option (result RpcStatus SignResponse) :=
  (fun s => Ok {| rs_request_id := []; rs_validator_pubkey := s.1; rs_signature := toy_sign s.1 message |})
    <$> signer_at u.
Definition answer_partial (hex u : str) : option (result RpcStatus PartialResponse) :=
  (fun s => Ok {| pa_request_id := []; pa_validator_pubkey := s.1; pa_vault_pubkey := vault_key s.2;
                  pa_signatures := sign_partial u s.2 hex |}) <$> signer_at u.

(** Connecting takes [c] seconds and a call [k], within the limits. *)
#[local] Instance demo_net (c k : Z) : PeerNetwork Z :=
  {| Endpoint := str; Client := str;
     from_shared u := if bool_decide (u = []) then Err (lit "empty") else Ok u;
     tls_config _ _ e := Ok e;
     connect_endpoint ct _ e o :=
       (o + Z.min c (ct / 10 ^ 9), if bool_decide (e = lit "down") then Err (lit "refused") else Ok e);
     call_sign l u req o := (o + Z.min k (l / 10 ^ 9), answer_sign (sr_canonical_message req) u);
     call_sign_payout l u req o := (o + Z.min k (l / 10 ^ 9), answer_partial (pr_unsigned_tx_hex req) u);
     call_sign_completion l u req o := (o + Z.min k (l / 10 ^ 9), answer_sign [] u);
     call_sign_governance l u req o := (o + Z.min k (l / 10 ^ 9), answer_sign [] u);
     call_sign_sweep l u req o := (o + Z.min k (l / 10 ^ 9), answer_partial (wr_unsigned_tx_hex req) u);
     instant_now o := (o, o * 10 ^ 9); system_nanos o := (o, o * 10 ^ 9); unix_now o := (o, o) |}.

Lemma seconds_within d l o : 0 <= d -> 0 <= l ->
  o * 10 ^ 9 <= (o + Z.min d (l / 10 ^ 9)) * 10 ^ 9 <= o * 10 ^ 9 + l.
Proof. intros Hd Hl. pose proof (Z.mul_div_le l (10 ^ 9) ltac:(lia)). pose proof (Z.div_pos l (10 ^ 9) Hl ltac:(lia)). lia. Qed.

Definition local_peer (k : Z) (u : str) : PeerEndpoint := {| validator_pubkey := key k; uri := u |}.
Definition reachable : GrpcCollector := insecure_without_tls [local_peer 31 (lit "a"); local_peer 32 (lit "b"); local_peer 33 (lit "c")].

(** Three peers that take four seconds to connect and four to answer: the
    third is asked at second 16 and answers at second 24. *)
Example slow_round_overruns :
  let r := @collect_mint_signatures Z (demo_net 4 4) toy_ed reachable 0 (lit "m") (replicate 32 x00) 0 0 in
  r.1 = 24 /\ ROUND_TIMEOUT = 20 * 10 ^ 9 /\ r.2.*1 = [key 31; key 32; key 33].
Proof. vm_compute. by split_and!. Qed.

#[local] Instance demo_timed : @TimedNetwork Z (demo_net 4 4).
Proof.
  refine {| clock o := o * 10 ^ 9 |}; cbn; intros; first [done|by apply seconds_within].
Defined.

Lemma rounds_end_witness :
  0 <= (@collect_mint_signatures Z (demo_net 4 4) toy_ed reachable 0 (lit "m") (replicate 32 x00) 0 0).1 * 10 ^ 9
    <= 30 * 10 ^ 9.
Proof.
  destruct (@rounds_end Z (demo_net 4 4) toy_ed demo_timed reachable 0 (lit "m") (replicate 32 x00) 0 0 [] 0 0 [] 0 [] [] [] 0 0%nat [])
    as (H & _). specialize (H 0). exact H.
Defined.

(** ** Payouts *)

Definition demo_map : VaultSignerMap := {| by_index := list_to_map [(0, key 31); (1, key 32); (2, key 33)] |}.
Definition payout_federation (C : GrpcCollector) : FederationPayoutCollector :=
  {| fc_collector := C; fc_vault := demo_vault; fc_map := demo_map; fc_proposer_index := 1 |}.

(** The node of [ExecutorScenario] with this federation behind it. *)
Definition federated (C : GrpcCollector) : PayoutRpc :=
  {| Executor.outside := Z; Executor.now_unix := @Executor.now_unix demo_rpc; list_unspent := @list_unspent demo_rpc;
     create_raw_transaction := @create_raw_transaction demo_rpc;
     decode_raw_transaction := @decode_raw_transaction demo_rpc;
     send_raw_transaction := @send_raw_transaction demo_rpc;
     transaction_confirmations := @transaction_confirmations demo_rpc;
     block_on_main_chain := @block_on_main_chain demo_rpc; Executor.is_completed := @Executor.is_completed demo_rpc;
     Executor.collect_payout_partials := @payout_partials Z (demo_net 0 0) toy_ed (payout_federation C);
     epoch_observation := @epoch_observation demo_rpc |}.

Definition downed : GrpcCollector := insecure_without_tls [local_peer 31 (lit "down"); local_peer 32 (lit "down"); local_peer 33 (lit "down")].
Definition tampered : GrpcCollector := insecure_without_tls [local_peer 31 (lit "a"); local_peer 32 (lit "b"); local_peer 33 (lit "rubbish")].

Definition federated_tick (C : GrpcCollector) (o : Z) (d : Tables) : Tables :=
  (@Executor.tick _ _ (federated C) demo_settings o d).1.2.

(** With everyone down the payout waits in [Signing]; with everyone up it
    is broadcast. *)
Definition waiting : Tables := federated_tick downed 1100 requested.
Example a_reachable_quorum_pays :
  state_of waiting = Some Signing /\
  state_of (federated_tick reachable 1200 waiting) = Some Confirming.
Proof. vm_compute. by split. Qed.

Definition waiting_quorum : list byte :=
  match (verify_and_load_signable_payout 7 1200 waiting).2 with Ok s => s_quorum_indices s | Err _ => [] end.

Example the_quorum : (byte_to_Z <$> waiting_quorum) = [1; 2].
Proof. vm_compute. reflexivity. Qed.

Definition waiting_unsigned_hex : str :=
  match (verify_and_load_signable_payout 7 1200 waiting).2 with Ok s => s_unsigned_tx_hex s | Err _ => [] end.
Definition waiting_unsigned : Multisig.Transaction :=
  match parse_hex waiting_unsigned_hex with Ok t => t | Err _ => demo_unsigned end.
Definition collected (C : GrpcCollector) : list PartialSignature :=
  (@payout_partials Z (demo_net 0 0) toy_ed (payout_federation C) 1 7 0 [] waiting_unsigned_hex waiting_quorum 1200).2.

Lemma partials_follow_the_quorum_witness :
  assemble waiting_unsigned demo_vault (collected reachable) =
    Ok (assembled waiting_unsigned demo_vault (collected reachable)).
Proof.
  destruct (@partials_follow_the_quorum Z (demo_net 0 0) toy_ed (payout_federation reachable) _ _ _ 1 7 0 []
              waiting_unsigned_hex waiting_quorum waiting_unsigned 1200 demo_vault_wf) as (_ & _ & H).
  - apply (bool_decide_unpack _). vm_compute. exact I.
  - vm_compute. reflexivity.
  - vm_compute. discriminate.
  - apply H. split; [vm_compute; reflexivity|]. split.
    + apply (bool_decide_unpack _). vm_compute. exact I.
    + intros [|i] Hi; [|exfalso; vm_compute in Hi; lia].
      unfold collected, good_at. apply Forall_forall. intros p Hp.
      assert (p ∈ [List.nth 0 (collected reachable) (demo_partial []); List.nth 1 (collected reachable) (demo_partial [])]) as Hp'.
      { assert (collected reachable = [List.nth 0 (collected reachable) (demo_partial []); List.nth 1 (collected reachable) (demo_partial [])]) as <-; [|exact Hp].
        vm_compute. reflexivity. }
      apply elem_of_cons in Hp' as [->|Hp']; [vm_compute; reflexivity|].
      apply list_elem_of_singleton in Hp' as ->. vm_compute. reflexivity.
Defined.

Definition rubbish : PartialSignature := {| vault_pubkey := vault_key 2; Multisig.signatures := [[x00]] |}.

Lemma one_bad_partial_halts_the_payout_witness :
  state_of (@sign _ _ (federated tampered) demo_settings 7
    {| w_outside := 1200 : @Executor.outside (federated tampered); w_db := waiting; w_report := Executor.default_report |}).1.(w_db) =
  Some IntegrityHalted.
Proof.
  destruct (verify_and_load_signable_payout 7 1200 waiting) as [d' [signable|]] eqn:Ev.
  2: { vm_compute in Ev. discriminate Ev. }
  assert (d' = waiting) as -> by (assert (d' = (verify_and_load_signable_payout 7 1200 waiting).1) as -> by (by rewrite Ev); vm_compute; reflexivity).
  destruct (withdrawal_requests waiting !! 7) as [row|] eqn:Er.
  2: { vm_compute in Er. discriminate Er. }
  assert (Some row = withdrawal_requests waiting !! 7) as Hrow by done.
  assert (Ok signable = (verify_and_load_signable_payout 7 1200 waiting).2) as Hs by (by rewrite Ev).
  vm_compute in Hrow. injection Hrow as Hrow. vm_compute in Hs. injection Hs as Hs.
  destruct (@one_bad_partial_halts_the_payout _ _ (federated tampered) demo_settings 7
    {| w_outside := 1200 : @Executor.outside (federated tampered); w_db := waiting; w_report := Executor.default_report |}
    row signable 1200 1200 1200 1200 {| Epoch.epoch := 1; Epoch.observed_at := 1200 |} (collected tampered) 1200
    waiting_unsigned rubbish 0) as (_ & H & _).
  1-3: reflexivity.
  - exact Er.
  - subst row. reflexivity.
  - exact Ev.
  - reflexivity.
  - subst signable. vm_compute. reflexivity.
  - subst signable. vm_compute. reflexivity.
  - apply Nat.leb_le. vm_compute. reflexivity.
  - vm_compute. right. left.
  - apply Nat.ltb_lt. vm_compute. reflexivity.
  - intros H. vm_compute in H. discriminate H.
  - exact H.
Defined.

(** ** Mints *)

(** A collector that still lists an outsider to the validator set. *)
Definition outdated : GrpcCollector :=
  insecure_without_tls [local_peer 31 (lit "a"); local_peer 34 (lit "d"); local_peer 33 (lit "c")].

Definition mint_pass (C : GrpcCollector) : (Z * list ChainPass.Event) * DepositDb.Db * result OrchestratorError TickReport :=
  Orchestrator.tick (N := OrchestratorProps.logging
    (@grpc_mint Z (@mt_rpc Z (minting_node (Ok (lit "5igna7ure")))) (demo_net 0 0) toy_ed C)) demo_pipeline (2000, []) one_ready.

Definition mint_message : list byte := DepositDb.sc_message (released (ready_row 1 demo_txid)).
Definition signed_by_all (ks : list Z) : list (Pubkey * Signature) :=
  (fun k => (key k, toy_sign (key k) mint_message)) <$> ks.
Definition sent_to (ks : list Z) : SolanaTransaction :=
  mint_transaction demo_pipeline (signed_by_all ks) (released (ready_row 1 demo_txid))
    (deposit_claim_pda crate_ID demo_txid 0).1 (zeros 32).

Example outdated_collector_sends : (mint_pass outdated).1.1.2 = mint_reads ++ [Sent (sent_to [34; 33; 31])].
Proof. vm_compute. reflexivity. Qed.

Lemma sent_mint_proof_verdict_witness :
  exists row claim snapshot sigs blockhash,
    sent_to [34; 33; 31] = mint_transaction demo_pipeline sigs claim
      (OrchestratorProps.claim_address demo_pipeline row) blockhash /\
    vs_validators snapshot = demo_validators /\ Forall (verified (DepositDb.sc_message claim)) sigs.
Proof.
  destruct (@sent_mint_proof_verdict _ _ _ _ Z (@mt_rpc Z (minting_node (Ok (lit "5igna7ure")))) (demo_net 0 0) toy_ed
              outdated demo_pipeline 2000 one_ready mint_reads (sent_to [34; 33; 31]) [])
    as (row & claim & t & sa & snapshot & sigs & bh & Hread & Hdec & _ & Htx & _ & _ & Hv & _).
  - apply (bool_decide_unpack _). vm_compute. exact I.
  - cbn. lia.
  - vm_compute. reflexivity.
  - exists row, claim, snapshot, sigs, bh. split; [exact Htx|]. split; [|exact Hv].
    apply elem_of_cons in Hread as [[=]|Hread]. apply list_elem_of_singleton in Hread. injection Hread as ->.
    vm_compute in Hdec. injection Hdec as <-. reflexivity.
Defined.

(** What it sends counts enough validators locally, and the program refuses
    it for the outsider's signature; it is sent again every tick. *)
Example outsider_proof_is_refused :
  count_unique_threshold_signers (signed_by_all [34; 33; 31]) demo_validators 2 = Ok 2%nat /\
  count_unique_validator_signers (build_ed25519_instruction (signed_by_all [34; 33; 31]) mint_message)
    mint_message demo_validators = Err UnknownValidatorSignature.
Proof. vm_compute. by split. Qed.
