(* ===== verification/OfflineAudit.v ===== *)
(** * The offline auditor: [relayer/src/ops/audit.rs]

    With its two listings: [Db::all_claim_artifacts] of [glc/db.rs] and
    [Db::all_payout_intents] of [glc/withdrawal_db.rs].  The deposit tables
    and the withdrawal tables are the two halves of one database; the output
    of SQLite's own check is an argument. *)
From Stdlib Require Import ZArith Lia Strings.Byte.
From stdpp Require Import base numbers strings gmap list.
From S2P Require Import Prelude Messages Hex Deposit DepositDb Address WithdrawalDb.

(** ** The listings *)

Record StoredClaim := {
  sc_id : Z; sc_claim_txid : list byte; sc_claim_vout : Z; sc_amount : Z;
  sc_claim_recipient : list byte; sc_state : str; sc_canonical_message : list byte;
  sc_message_hash : list byte; sc_protocol_version : Z; sc_epoch : Z;
  sc_program : list byte; sc_mint : list byte
}.

Definition stored_claim (r : DepositRow) (a : NewClaimArtifact) : StoredClaim :=
  {| sc_id := DepositDb.id r; sc_claim_txid := DepositDb.txid r; sc_claim_vout := DepositDb.vout r;
     sc_amount := DepositDb.amount_atomic r; sc_claim_recipient := DepositDb.recipient r;
     sc_state := DepositDb.as_str (DepositDb.state r);
     sc_canonical_message := canonical_message a; sc_message_hash := message_hash a;
     sc_protocol_version := ca_protocol_version a; sc_epoch := ca_validator_epoch a;
     sc_program := ca_program_id a; sc_mint := ca_wrapped_mint a |}.

(** The join in id order; rows are kept in that order. *)
Definition all_claim_artifacts (db : DepositDb.Db) : list StoredClaim :=
  omap (fun r => stored_claim r <$> claim_artifacts db !! DepositDb.id r) (deposit_candidates db).

Record StoredPayoutIntent := {
  si_index : Z; si_commitment_hash : list byte; si_intent_bytes : list byte;
  si_vault_script_hash : list byte; si_quorum_attempt : Z; si_quorum_indices : list byte;
  si_fee : Z; si_payout : Z; si_change : Z; si_change_address : option str;
  si_version : Z; si_dest_hash160 : list byte; si_state : str
}.

Definition stored_payout (index : Z) (w : WithdrawalRow) (t : PayoutTerms) : StoredPayoutIntent :=
  {| si_index := index; si_commitment_hash := t_commitment_hash t;
     si_intent_bytes := t_intent_bytes t; si_vault_script_hash := t_vault_script_hash t;
     si_quorum_attempt := t_quorum_attempt t; si_quorum_indices := t_quorum_indices t;
     si_fee := t_fee t; si_payout := t_payout t; si_change := t_change t;
     si_change_address := t_change_address t; si_version := w_version w;
     si_dest_hash160 := w_hash160 w; si_state := WithdrawalDb.as_str (w_state w) |}.

Definition all_payout_intents (d : Tables) : list StoredPayoutIntent :=
  omap (fun ip : Z * PayoutRow =>
          (fun w => stored_payout ip.1 w (p_terms ip.2)) <$> withdrawal_requests d !! ip.1)
    (by_index (withdrawal_payouts d)).

(** ** Findings *)

Inductive Finding :=
| DatabaseCorrupt (output : str)
| ClaimSelfInconsistent (deposit_id : Z)
| ClaimRecomputeMismatch (deposit_id : Z) (differing : str)
| PayoutSelfInconsistent (withdrawal_index : Z)
| PayoutRecomputeMismatch (withdrawal_index : Z)
| PayoutInputsMissing (withdrawal_index : Z)
| PayoutChangeAddressUndecodable (withdrawal_index : Z).

Definition show_finding (f : Finding) : str :=
  match f with
  | DatabaseCorrupt d => lit "SQLite integrity_check failed: " ++ d
  | ClaimSelfInconsistent i =>
      lit "deposit " ++ display i ++
      lit ": the frozen claim commitment does not hash to its stored hash — the two were altered independently"
  | ClaimRecomputeMismatch i differing =>
      lit "deposit " ++ display i ++
      lit ": recomputing from persisted fields does not reproduce the frozen message (" ++ differing ++ lit ")"
  | PayoutSelfInconsistent i =>
      lit "withdrawal " ++ display i ++
      lit ": the stored payout intent does not hash to its stored commitment"
  | PayoutRecomputeMismatch i =>
      lit "withdrawal " ++ display i ++ lit ": the recomputed payout intent differs from the stored one"
  | PayoutInputsMissing i =>
      lit "withdrawal " ++ display i ++
      lit ": committed inputs are absent, so the intent cannot be re-verified"
  | PayoutChangeAddressUndecodable i =>
      lit "withdrawal " ++ display i ++ lit ": the stored change address no longer decodes"
  end.

Record AuditReport := {
  integrity_output : str; claims_checked : nat; payouts_checked : nat; findings : list Finding
}.

Definition is_clean (r : AuditReport) : bool := bool_decide (length (findings r) = 0%nat).

Definition newline : str := ["010"%byte].
Definition summary (r : AuditReport) : str :=
  lit "integrity_check: " ++ integrity_output r ++ newline ++
  lit "claims checked: " ++ display (Z.of_nat (claims_checked r)) ++ newline ++
  lit "payouts checked: " ++ display (Z.of_nat (payouts_checked r)) ++ newline ++
  lit "findings: " ++ display (Z.of_nat (length (findings r))).

Definition FIELDS : list (nat * nat * str) :=
  [(0, 16, lit "domain tag"); (16, 17, lit "protocol version"); (17, 49, lit "program id");
   (49, 57, lit "validator epoch"); (57, 89, lit "txid"); (89, 93, lit "vout");
   (93, 101, lit "amount"); (101, 133, lit "recipient"); (133, 165, lit "wrapped mint")]%nat.

Definition first_differing_claim_field (recomputed stored : list byte) : str :=
  match List.find (fun f => negb (bool_decide (get_range recomputed f.1.1 f.1.2 = get_range stored f.1.1 f.1.2))) FIELDS with
  | Some (_, _, name) => name
  | None => lit "length or trailing bytes"
  end.

Definition check_integrity (output : str) : option Finding :=
  if bool_decide (output = lit "ok") then None else Some (DatabaseCorrupt output).

Section audit.
Context `{Sh : Sha2}.

Definition claim_recomputed (c : StoredClaim) : list byte :=
  build_claim_message (sc_protocol_version c) (sc_program c) (sc_epoch c) (sc_claim_txid c)
    (as_u32 (sc_claim_vout c)) (sc_amount c) (sc_claim_recipient c) (sc_mint c).

Definition check_claim (c : StoredClaim) : option Finding :=
  if negb (bool_decide (sha256 (sc_canonical_message c) = sc_message_hash c))
  then Some (ClaimSelfInconsistent (sc_id c))
  else
    let recomputed := claim_recomputed c in
    if negb (bool_decide (recomputed = sc_canonical_message c))
    then Some (ClaimRecomputeMismatch (sc_id c)
                 (first_differing_claim_field recomputed (sc_canonical_message c)))
    else None.

Definition check_payout (p : StoredPayoutIntent) (inputs : list VaultUtxo) : option Finding :=
  if negb (bool_decide (payout_commitment (si_intent_bytes p) = si_commitment_hash p))
  then Some (PayoutSelfInconsistent (si_index p))
  else
  match inputs with
  | [] => Some (PayoutInputsMissing (si_index p))
  | _ =>
  match (match si_change_address p with
         | None => Some (replicate 20 x00)
         | Some a => match base58check_decode a with Ok (_, h) => Some h | Err _ => None end
         end) with
  | None => Some (PayoutChangeAddressUndecodable (si_index p))
  | Some change_hash160 =>
      let recomputed :=
        canonical_payout_intent (si_version p) (si_index p) (si_vault_script_hash p)
          (si_dest_hash160 p) (si_payout p) (si_fee p) (si_change p) change_hash160
          (si_quorum_attempt p) (si_quorum_indices p) inputs in
      if negb (bool_decide (recomputed = si_intent_bytes p))
      then Some (PayoutRecomputeMismatch (si_index p))
      else None
  end
  end.

(** [audit], over the output of [PRAGMA integrity_check]. *)
Definition audit (integrity : str) (db : DepositDb.Db) (d : Tables) : AuditReport :=
  {| integrity_output := integrity;
     claims_checked := length (all_claim_artifacts db);
     payouts_checked := length (all_payout_intents d);
     findings :=
       option_list (check_integrity integrity) ++
       omap check_claim (all_claim_artifacts db) ++
       omap (fun p => check_payout p (payout_inputs (si_index p) d)) (all_payout_intents d) |}.
End audit.

(** ** The command: [relayer/src/bin/glc-audit.rs]

    Its arguments, what it prints and its exit status, over the opening of
    the database and the audit of it. *)
Section command.
Context {Database : Type} (open_db : str -> result str Database)
  (run_audit : Database -> result str AuditReport).
Context (USAGE : str).

Record Output := { stdout : list str; stderr : list str; exit_status : Z }.

(** [args.get(i + 1)] after the first [--db]. *)
Definition db_argument (args : list str) : option str :=
  '(i, _) ← list_find (fun a => a = lit "--db") args; args !! S i.

Definition glc_audit (args : list str) : Output :=
  if existsb (fun a => bool_decide (a = lit "-h") || bool_decide (a = lit "--help")) args then
    {| stdout := [USAGE]; stderr := []; exit_status := 0 |}
  else
  match db_argument args with
  | None => {| stdout := []; stderr := [USAGE]; exit_status := 2 |}
  | Some db_path =>
  let quiet := existsb (fun a => bool_decide (a = lit "--quiet")) args in
  match open_db db_path with
  | Err e => {| stdout := []; stderr := [lit "could not open " ++ db_path ++ lit ": " ++ e]; exit_status := 2 |}
  | Ok db =>
  match run_audit db with
  | Err e => {| stdout := []; stderr := [lit "the audit could not complete: " ++ e]; exit_status := 2 |}
  | Ok report =>
  let head := if negb quiet || negb (is_clean report) then [summary report] else [] in
  if is_clean report then
    {| stdout := head ++ (if quiet then [] else [newline ++ lit "clean"]); stderr := []; exit_status := 0 |}
  else
    {| stdout := head ++ [[]] ++ ((fun f => lit "FINDING: " ++ show_finding f) <$> findings report) ++
         [newline ++ display (Z.of_nat (length (findings report))) ++
          lit " finding(s). These are reported, never repaired: recovery is an" ++ newline ++
          lit "operator decision made with `glc-admin` so it lands in the audit trail" ++ newline ++
          lit "(docs/runbooks.md §1)."];
       stderr := []; exit_status := 1 |}
  end end end.
End command.
