(* ===== verification/OfflineAuditProps.v ===== *)
(** * The offline auditor agrees with the signing guards

    What a clean report means: the frozen claims are the ones the safeguard
    of [DepositDb] releases, and the payouts the ones the guard of
    [WithdrawalDb] releases as far as the auditor looks.  The executor's own
    work never gives it anything to report.  Concrete databases at the end. *)
From Stdlib Require Import ZArith Lia Strings.Byte.
From stdpp Require Import base numbers strings gmap list sorting.
From S2P Require Import Orchestrator OrchestratorProps MintScenario.
From S2P Require Import Coin Vault Multisig WithdrawalConfig Executor ExecutorProps ExecutorScenario.
From S2P Require Import Prelude Messages Scenario Hex Deposit DepositDb DepositDbProps Address.
From S2P Require Import WithdrawalDb WithdrawalDbProps OfflineAudit.

(** ** Claims *)

Section claims.
Context `{Sh : Sha2}.

Lemma check_claim_None c :
  check_claim c = None <->
  sha256 (sc_canonical_message c) = sc_message_hash c /\ claim_recomputed c = sc_canonical_message c.
Proof.
  unfold check_claim. case_bool_decide as H1; cbn [negb]; [|split; [done|by intros [? _]]].
  case_bool_decide as H2; cbn [negb]; [done|]. split; [done|by intros [_ ?]].
Qed.

Lemma claim_recomputed_stored r a : claim_recomputed (stored_claim r a) = recompute r a.
Proof. done. Qed.

(** Auditor judges claims as the guard. *)
Theorem auditor_judges_claims_as_the_guard deposit_id at_ db r a :
  find_row db deposit_id = Some r -> claim_artifacts db !! deposit_id = Some a ->
  match check_claim (stored_claim r a) with
  | None => exists claim, DepositDb.verify_and_load_signable_message deposit_id at_ db = (db, Ok claim) /\
      sc_message claim = canonical_message a
  | Some f => exists db' reason,
      DepositDb.verify_and_load_signable_message deposit_id at_ db =
        (db', Err (MessageIntegrityMismatch deposit_id reason)) /\
      (f = ClaimSelfInconsistent deposit_id <-> reason = lit "claim_artifact_self_inconsistent") /\
      ((exists field, f = ClaimRecomputeMismatch deposit_id field) <->
       reason = lit "claim_message_recomputed_mismatch")
  end.
Proof.
  intros Hr Ha. assert (DepositDb.id r = deposit_id) as Hid by (by apply find_row_Some in Hr as []).
  unfold check_claim, DepositDb.verify_and_load_signable_message. rewrite Hr, Ha, claim_recomputed_stored.
  cbn [stored_claim sc_canonical_message sc_message_hash sc_id]. rewrite Hid.
  case_bool_decide as H1; cbn [negb orb].
  - case_bool_decide as H2; cbn [negb].
    + eexists. split; [done|]. exact H2.
    + eexists _, _. split; [done|]. split; split; try done. all: intros; try by eexists. 
  - eexists _, _. split; [done|]. split; split; try done. by intros [? [=]].
Qed.
End claims.

(** ** The report *)

Section report.
Context `{Sh : Sha2}.

Lemma omap_nil {A B} (f : A -> option B) l : omap f l = [] <-> Forall (fun x => f x = None) l.
Proof.
  induction l as [|x l IH]; cbn; [by split|]. rewrite Forall_cons, <- IH. destruct (f x); [|tauto].
  split; [done|by intros []].
Qed.

Lemma listed_claim db c :
  c ∈ all_claim_artifacts db <->
  exists r a, r ∈ deposit_candidates db /\ claim_artifacts db !! DepositDb.id r = Some a /\ c = stored_claim r a.
Proof.
  unfold all_claim_artifacts. rewrite list_elem_of_omap. split.
  - intros (r & Hr & H). apply fmap_Some in H as (a & Ha & ->). by exists r, a.
  - intros (r & a & Hr & Ha & ->). exists r. split; [done|]. by rewrite Ha.
Qed.

Lemma listed_payout d s :
  s ∈ all_payout_intents d <->
  exists i w p, withdrawal_payouts d !! i = Some p /\ withdrawal_requests d !! i = Some w /\
    s = stored_payout i w (p_terms p).
Proof.
  unfold all_payout_intents. rewrite list_elem_of_omap. split.
  - intros ([i p] & Hip & H). apply fmap_Some in H as (w & Hw & ->). cbn in *.
    unfold by_index in Hip. rewrite merge_sort_Permutation in Hip. apply elem_of_map_to_list in Hip. by exists i, w, p.
  - intros (i & w & p & Hp & Hw & ->). exists (i, p). split.
    + unfold by_index. rewrite merge_sort_Permutation. by apply elem_of_map_to_list.
    + cbn. by rewrite Hw.
Qed.

Definition clean_claims (db : DepositDb.Db) : Prop :=
  forall r a, r ∈ deposit_candidates db -> claim_artifacts db !! DepositDb.id r = Some a ->
    check_claim (stored_claim r a) = None.
Definition clean_payouts (d : Tables) : Prop :=
  forall i w p, withdrawal_payouts d !! i = Some p -> withdrawal_requests d !! i = Some w ->
    check_payout (stored_payout i w (p_terms p)) (payout_inputs i d) = None.

Lemma is_clean_iff integrity db d :
  is_clean (audit integrity db d) = true <->
  integrity = lit "ok" /\ clean_claims db /\ clean_payouts d.
Proof.
  unfold is_clean. rewrite bool_decide_eq_true, length_zero_iff_nil. unfold audit. cbn [findings].
  rewrite app_nil, app_nil, !omap_nil, !Forall_forall. split.
  - intros (Hi & Hc & Hp). split.
    { unfold check_integrity in Hi. by case_bool_decide. }
    split.
    + intros r a Hr Ha. apply Hc, listed_claim. by exists r, a.
    + intros i w p H1 H2. apply (Hp (stored_payout i w (p_terms p))), listed_payout. by exists i, w, p.
  - intros (-> & Hc & Hp). split_and!; [done| |].
    + intros c (r & a & Hr & Ha & ->)%listed_claim. by apply Hc.
    + intros s (i & w & p & H1 & H2 & ->)%listed_payout. by apply Hp.
Qed.
End report.

(** ** Payouts *)

Section payouts.
Context `{Sh : Sha2}.

Lemma check_payout_None i w t inputs :
  check_payout (stored_payout i w t) inputs = None <->
  payout_commitment (t_intent_bytes t) = t_commitment_hash t /\ inputs <> [] /\
  exists h, change_hash160_of i t = Ok h /\ recomputed_intent i w t h inputs = t_intent_bytes t.
Proof.
  unfold check_payout, change_hash160_of, recomputed_intent.
  cbn [stored_payout si_intent_bytes si_commitment_hash si_index si_change_address si_version
       si_vault_script_hash si_dest_hash160 si_payout si_fee si_change si_quorum_attempt si_quorum_indices].
  case_bool_decide as H1; cbn [negb]; [|split; [done|by intros (? & _)]].
  destruct inputs as [|u us]; [split; [done|by intros (_ & ? & _)]|].
  destruct (t_change_address t) as [a|].
  - destruct (base58check_decode a) as [[v h]|e]; cbn.
    + case_bool_decide as H2; cbn [negb].
      * split; [intros _; split_and!; [done|done|by exists h]|done].
      * split; [done|]. intros (_ & _ & h' & [= <-] & ?). done.
    + split; [done|]. by intros (_ & _ & ? & [=] & _).
  - case_bool_decide as H2; cbn [negb].
    + split; [intros _; split_and!; [done|done|by eexists]|done].
    + split; [done|]. intros (_ & _ & h' & [= <-] & ?). done.
Qed.

(** A committed output that is still reserved for [index] at its amount. *)
Definition input_reserved (index : Z) (d : Tables) (c : PayoutInput) : Prop :=
  exists r, vault_utxos d !! outpoint_of c = Some r /\ r_state r = Reserved /\
    r_reserved_by r = Some index /\ r_amount r = i_amount c.

Lemma live_inputs index d us :
  Forall2 (input_live index d) (committed_inputs index d) us <->
  Forall (input_reserved index d) (committed_inputs index d) /\ us = payout_inputs index d.
Proof.
  unfold payout_inputs. generalize (committed_inputs index d). intros cs. revert us.
  induction cs as [|c cs IH]; intros us.
  - split; [intros ->%Forall2_nil_inv_l; by split|]. intros [_ ->]. constructor.
  - split.
    + intros (u & us' & (r & Hr & Hs & Hb & Ha & ->) & Hus & ->)%Forall2_cons_inv_l.
      apply IH in Hus as [Hc ->]. split; [constructor; [by exists r|done]|].
      cbn. unfold outpoint_of in Hr. by rewrite Hr.
    + intros [[(r & Hr & Hs & Hb & Ha) Hc]%Forall_cons ->]. cbn. constructor; [|by apply IH].
      exists r. split_and!; try done. unfold outpoint_of in Hr. by rewrite Hr.
Qed.

Lemma no_inputs index d : payout_inputs index d = [] <-> committed_inputs index d = [].
Proof. unfold payout_inputs. split; [apply fmap_nil_inv|by intros ->]. Qed.

(** C21: The auditor and the pre-signing guard recompute a payout from different
    readings of it, the stored change address and the committed rows, and agree: the
    guard releases a payout without touching the database exactly when it is stored with
    its request, the auditor finds nothing in it, it is still unsigned, unconfirmed and
    incomplete, all its inputs are reserved for it, and it pays the amount burned. *)
Theorem guard_releases_what_the_auditor_passes index at_ d :
  (exists s, verify_and_load_signable_payout index at_ d = (d, Ok s)) <->
  exists w p, withdrawal_requests d !! index = Some w /\ withdrawal_payouts d !! index = Some p /\
    check_payout (stored_payout index w (p_terms p)) (payout_inputs index d) = None /\
    (p_completed_at p = None /\ p_confirmations p <= 0 /\ p_signed_tx_hex p = None) /\
    Forall (input_reserved index d) (committed_inputs index d) /\
    t_payout (p_terms p) = w_amount w.
Proof.
  split.
  - intros (s & H). apply verify_Ok in H as (_ & w & p & [Hw Hp (? & ? & ?) [Hne Hin] Hc (h & Hh & Hint) Ham Hs]).
    apply live_inputs in Hin as [Hres Hus]. exists w, p. split_and!; try done.
    apply check_payout_None. rewrite Hus in Hint. split_and!; [done|by rewrite no_inputs|by exists h].
  - intros (w & p & Hw & Hp & Hck & Hopen & Hres & Ham).
    apply check_payout_None in Hck as (Hc & Hne & h & Hh & Hint).
    exists (signable index w (p_terms p) (payout_inputs index d) (t_intent_bytes (p_terms p))).
    apply verify_Ok. split; [done|]. exists w, p. constructor; try done.
    + split; [by rewrite <- no_inputs|]. by apply live_inputs.
    + by exists h.
Qed.
End payouts.

(** ** The executor's own work *)

Definition spent_bytes (c : PayoutInput) : list byte :=
  i_txid c ++ le_bytes 4 (i_vout c) ++ le_bytes 8 (i_amount c).

Lemma payout_inputs_bytes i d :
  input_bytes <$> payout_inputs i d = spent_bytes <$> committed_inputs i d.
Proof. unfold payout_inputs. rewrite <- list_fmap_compose. by apply list_fmap_ext. Qed.

Lemma same_input_bytes_length us us' : input_bytes <$> us = input_bytes <$> us' -> length us = length us'.
Proof. intros H. by rewrite <- (length_fmap input_bytes us), H, length_fmap. Qed.

(** The intent depends on its inputs through their bytes. *)
Lemma recomputed_intent_bytes i w w' t h us us' :
  same_request w w' -> input_bytes <$> us = input_bytes <$> us' ->
  recomputed_intent i w' t h us' = recomputed_intent i w t h us.
Proof.
  intros (_ & _ & _ & _ & _ & Hh & _ & Hv & _) He. unfold recomputed_intent, canonical_payout_intent.
  by rewrite Hv, Hh, <- He, (same_input_bytes_length _ _ He).
Qed.

Section own_work.
Context `{Sh : Sha2}.

Definition audited (d : Tables) : Prop := tables_wf d /\ clean_payouts d.

(** The payouts of [d'] are payouts of [d], with the same terms. *)
Definition same_terms (d d' : Tables) : Prop :=
  forall i p', withdrawal_payouts d' !! i = Some p' ->
    exists p, withdrawal_payouts d !! i = Some p /\ p_terms p' = p_terms p.

Lemma clean_kept i w w' t d d' :
  same_request w w' -> committed_inputs i d' = committed_inputs i d ->
  check_payout (stored_payout i w t) (payout_inputs i d) = None ->
  check_payout (stored_payout i w' t) (payout_inputs i d') = None.
Proof.
  intros Hw Hin (Hc & Hne & h & Hh & Hi)%check_payout_None. apply check_payout_None.
  rewrite no_inputs in *. rewrite Hin. split_and!; [done|done|]. exists h. split; [done|].
  rewrite <- Hi. apply recomputed_intent_bytes; [done|]. by rewrite !payout_inputs_bytes, Hin.
Qed.

Lemma payouts_keep i d d' w' p :
  tables_wf d -> keeps d d' -> withdrawal_payouts d !! i = Some p -> withdrawal_requests d' !! i = Some w' ->
  exists w, withdrawal_requests d !! i = Some w /\ same_request w w' /\ committed_inputs i d' = committed_inputs i d.
Proof.
  intros Hwf Hk Hp Hw'. destruct (tw_requested _ Hwf i) as [w Hw]; [by eexists|].
  destruct (k_requests _ _ Hk i w Hw) as (w1 & Hw1 & Hs). simplify_eq. exists w. split_and!; [done|done|].
  apply Hk. by eexists.
Qed.

Lemma audited_same_terms d d' : wstep d d' -> same_terms d d' -> audited d -> audited d' /\ keeps d d'.
Proof.
  intros Hs Ht [Hwf Hcl]. destruct (wstep_good _ _ Hs) as [Hk Hwf']. split; [|done]. split; [by apply Hwf'|].
  intros i w' p' Hp' Hw'. destruct (Ht i p' Hp') as (p & Hp & ->).
  destruct (payouts_keep i d d' w' p Hwf Hk Hp Hw') as (w & Hw & Hsame & Hin).
  eapply clean_kept; [done|done|]. by apply Hcl.
Qed.

Lemma same_payouts_terms d d' : withdrawal_payouts d' = withdrawal_payouts d -> same_terms d d'.
Proof. intros H i p'. rewrite H. eauto. Qed.

Lemma update_terms d j f :
  (forall p, p_terms (f p) = p_terms p) -> same_terms d (update_payout d j f).
Proof.
  intros Hf i p' [(<- & p & Hp & ->)|[_ Hp]]%alter_Some; [|eauto]. exists p. split; [done|]. apply Hf.
Qed.

Lemma vstep_terms d d' : vstep d d' -> same_terms d d'.
Proof. intros H. by apply same_payouts_terms, vstep_payouts. Qed.

Lemma kstep_terms heights j d d' : kstep heights j d d' -> same_terms d d'.
Proof.
  intros [].
  - apply same_payouts_terms. unfold transition_withdrawal. by repeat case_match.
  - apply same_payouts_terms, reserve_payouts.
  - by apply update_terms.
  - by apply update_terms.
  - unfold complete_payout. case_match; [|by apply same_payouts_terms]. by apply update_terms.
  - apply same_payouts_terms. unfold verify_and_load_signable_payout, halt. by repeat case_match.
Qed.

Lemma signed_terms j hex txid at_ d : same_terms d (record_signed_payout j hex txid at_ d).1.
Proof.
  unfold record_signed_payout. case_bool_decide; [by apply same_payouts_terms|]. cbn [fst].
  intros i p' Hp'. change (withdrawal_payouts (add_log ?a _)) with (withdrawal_payouts a) in Hp'.
  eapply update_terms; [|exact Hp']. intros p. cbn. by destruct (p_signed_tx_hex p).
Qed.
End own_work.

(** ** Creating a payout *)

Lemma inserted_rows j ius acc acc' :
  foldM (insert_input j) acc ius = Ok acc' ->
  exists new, acc' = acc ++ new /\ Forall (fun c => i_index c = j) new /\
    spent_bytes <$> new = (fun iu => input_bytes iu.2) <$> ius.
Proof.
  revert acc. induction ius as [|iu ius IH]; intros acc; cbn [foldM].
  - intros [= <-]. exists []. by rewrite app_nil_r.
  - intros (acc1 & H1 & H2)%bind_Ok. apply bind_Ok in H1 as ([] & _ & [= <-]).
    destruct (IH _ H2) as (new & -> & Hall & Hb). eexists. split; [by rewrite <- app_assoc|].
    split; [by apply Forall_cons|]. cbn. by rewrite Hb.
Qed.

Lemma filter_all {A} (P : A -> Prop) `{!forall x, Decision (P x)} (l : list A) : Forall P l -> filter P l = l.
Proof. induction 1 as [|x l Hx _ IH]; [done|]. by rewrite filter_cons_True, IH. Qed.

Lemma filter_none {A} (P : A -> Prop) `{!forall x, Decision (P x)} (l : list A) :
  Forall (fun x => ~ P x) l -> filter P l = [].
Proof. induction 1 as [|x l Hx _ IH]; [done|]. by rewrite filter_cons_False. Qed.

Lemma select_nonempty candidates amount rate dust cap s :
  select candidates amount rate dust cap = Ok s -> sel_inputs s <> [].
Proof.
  assert (forall us, us <> [] -> sel_inputs (finalize us amount rate dust) <> []) as Hf.
  { intros us Hne. unfold finalize. by repeat case_match. }
  assert (forall us acc sum r, greedy amount rate dust cap acc sum us = Some (Ok r) -> sel_inputs r <> []) as Hg.
  { intros us. induction us as [|u us IH]; intros acc sum r; cbn [greedy]; [done|].
    repeat case_match; try done; [|by apply IH]. intros [= <-]. apply Hf. by destruct acc. }
  unfold select. destruct (list_find _ _) as [[]|]; [by intros [= <-]|].
  destruct (min_by _); [intros [= <-]; by apply Hf|].
  destruct (greedy _ _ _ _ _ _ _) as [[]|] eqn:E; [|done|done]. intros [= ->]. by eapply Hg.
Qed.

Section ticks.
Context `{Sh : Sha2, Rm : Ripemd160, Sc : Secp256k1, N : PayoutRpc} (S : Settings).
Context (Hcfg : config_wf (config S)).
Abbreviation cfg := (config S).

(** The change address of the configuration decodes to its hash. *)
Lemma change_decodes : exists v, base58check_decode (change_address cfg) = Ok (v, change_hash160 cfg).
Proof.
  destruct (cw_addresses _ Hcfg) as [_ ->], (cw_hashes _ Hcfg) as [_ ->].
  rewrite (vw_of _ (cw_vault _ Hcfg)). exists P2SH_VERSION_REGTEST. cbn [address script_hash160 vault_of].
  apply base58check_iff. unfold hash160. rewrite length_ripemd160. split_and!; try done; unfold P2SH_VERSION_REGTEST; lia.
Qed.

Lemma new_payout_clean j w s quorum hex t inputs :
  inputs <> [] -> input_bytes <$> inputs = input_bytes <$> sel_inputs s ->
  check_payout (stored_payout j w (np_terms (new_payout S j w s quorum hex t))) inputs = None.
Proof.
  intros Hne Hb. apply check_payout_None.
  cbn [np_terms new_payout t_intent_bytes t_commitment_hash]. split_and!; [done|done|].
  destruct change_decodes as [v Hd].
  exists (if 0 <? sel_change s then change_hash160 cfg else replicate 20 x00). split.
  - unfold change_hash160_of. cbn [t_change_address]. destruct (0 <? sel_change s); [|done]. by rewrite Hd.
  - rewrite (recomputed_intent_bytes j w w _ _ (sel_inputs s) inputs); [done|by unfold same_request|done].
Qed.

Definition created (j : Z) (w : WithdrawalRow) (p : NewPayout) : Prop :=
  exists s quorum hex t, p = new_payout S j w s quorum hex t /\ sel_inputs s <> [].

Lemma create_audited j w w' p d :
  audited d -> withdrawal_requests d !! j = Some w' -> same_request w w' -> created j w p ->
  audited (create_payout p d).1 /\ keeps d (create_payout p d).1.
Proof.
  intros [Hwf Hcl] Hw' Hsame (s & quorum & hex & t & -> & Hne).
  destruct (wstep_good _ _ (ws_create d (new_payout S j w s quorum hex t))) as [Hk Hwf'].
  split; [|done]. split; [by apply Hwf'|]. clear Hwf'. revert Hk. unfold create_payout. cbn [np_index new_payout np_inputs].
  case_bool_decide as Hfree; [done|].
  destruct (foldM _ _ _) as [inputs|] eqn:E; [|done]. cbn [fst]. intros Hk i w1 p1 Hp1 Hw1.
  apply inserted_rows in E as (new & -> & Hidx & Hb).
  assert (spent_bytes <$> new = input_bytes <$> sel_inputs s) as Hbytes.
  { rewrite Hb. change (fun iu : nat * VaultUtxo => input_bytes iu.2) with (input_bytes ∘ @snd nat VaultUtxo).
    rewrite list_fmap_compose, snd_zip; [done|]. by rewrite length_seq. }
  cbn in Hp1, Hw1. apply lookup_insert_Some in Hp1 as [[<- <-]|[Hij Hp1]].
  - assert (w1 = w') as -> by congruence. cbn [p_terms new_row].
    set (d' := put_inputs _ _) in *.
    assert (committed_inputs j d' = new) as Hcin.
    { unfold committed_inputs, d'. cbn. rewrite filter_app.
      rewrite (filter_all _ new) by done. rewrite (filter_none _ (withdrawal_payout_inputs d)); [done|].
      eapply Forall_impl; [exact (tw_owned _ Hwf)|]. intros c Ho <-. apply Hfree. by left. }
    assert (payout_inputs j d' <> []) as Hin.
    { rewrite no_inputs, Hcin. intros ->. by destruct (sel_inputs s). }
    assert (input_bytes <$> payout_inputs j d' = input_bytes <$> sel_inputs s) as Hbs
      by (by rewrite payout_inputs_bytes, Hcin).
    pose proof (new_payout_clean j w s quorum hex t _ Hin Hbs) as Hc.
    apply check_payout_None in Hc as (Hc & _ & h & Hh & Hi). apply check_payout_None. split_and!; [done|done|].
    exists h. split; [done|]. etrans; [|exact Hi].
    by apply (recomputed_intent_bytes j w w' _ h (payout_inputs j d') (payout_inputs j d')).
  - destruct (payouts_keep i d _ w1 p1 Hwf Hk Hp1 Hw1) as (w0 & Hw0 & Hs0 & Hin).
    eapply clean_kept; [exact Hs0|exact Hin|]. by apply Hcl.
Qed.

(** ** The tick *)

Definition stays_audited (w w' : World) : Prop :=
  audited (w_db w) -> audited (w_db w') /\ keeps (w_db w) (w_db w').
#[local] Instance stays_audited_preorder : PreOrder stays_audited.
Proof.
  split; [intros w H; split; [done|apply keeps_refl]|].
  intros a b c H1 H2 H. destruct (H1 H) as [Hb K1]. destruct (H2 Hb) as [Hc K2]. split; [done|by eapply keeps_trans].
Qed.

Lemma ask_audited {A} (f : Executor.outside -> Executor.outside * A) : sound stays_audited (ask f).
Proof. intros w H. unfold ask. destruct (f _). split; [exact H|apply keeps_refl]. Qed.

Lemma count_audited c : sound stays_audited (count_ c).
Proof. intros w H. split; [exact H|apply keeps_refl]. Qed.

Lemma kstep_audited j : related stays_audited (kstep any_height j).
Proof.
  intros o d rep d' Hs H. apply audited_same_terms; [|by eapply kstep_terms|done]. by eapply istep_wstep, kstep_istep.
Qed.

Lemma vstep_audited : related stays_audited vstep.
Proof. intros o d rep d' Hs H. apply audited_same_terms; [by apply vstep_wstep|by apply vstep_terms|done]. Qed.

(** The row the builder loaded is still the withdrawal's. *)
Definition loaded (j : Z) (w : WithdrawalRow) (d : Tables) : Prop :=
  audited d /\ exists w', withdrawal_requests d !! j = Some w' /\ same_request w w'.

Definition builds {A} (j : Z) (w : WithdrawalRow) (m : M A) : Prop :=
  forall W, loaded j w (w_db W) -> stays_audited W (m W).1.

Lemma sound_builds {A} j w (m : M A) : sound stays_audited m -> builds j w m.
Proof. intros H W _. apply H. Qed.

Lemma loaded_stays j w W W' : loaded j w (w_db W) -> stays_audited W W' -> loaded j w (w_db W').
Proof.
  intros (Ha & w1 & Hw & Hs) H. destruct (H Ha) as [Ha' Hk]. split; [done|].
  destruct (k_requests _ _ Hk j w1 Hw) as (w2 & Hw2 & Hs2). exists w2. split; [done|].
  unfold same_request in *. destruct_and!. split_and!; congruence.
Qed.

Lemma builds_bind {A B} j w (m : M A) (f : A -> M B) :
  builds j w m -> (forall a, builds j w (f a)) -> builds j w (m ≫= f).
Proof.
  intros Hm Hf W HW. unfold mbind, M_bind. pose proof (Hm W HW) as H.
  destruct (m W) as [W1 [a|e]]; cbn in *; [|done]. etrans; [exact H|]. apply Hf. by eapply loaded_stays.
Qed.

Lemma load_builds {A} j (f : WithdrawalRow -> M A) :
  (forall w, builds j w (f w)) -> sound stays_audited (load_withdrawal j ≫= f).
Proof.
  intros Hf W. unfold load_withdrawal, query, lift, mbind, M_bind. cbn. unfold get_withdrawal.
  destruct (withdrawal_requests (w_db W) !! j) as [w|] eqn:Ew; [|reflexivity]. cbn. intros Ha.
  apply Hf; [|done]. split; [done|]. exists w. split; [done|]. by unfold same_request.
Qed.

Lemma transition_audited j to reason : sound stays_audited (transition j to reason).
Proof. by apply (sound_transition _ any_calls_quiet stays_audited (fun A f _ => ask_audited f) any_height j (kstep_audited j)). Qed.

Lemma builds_transition j w to reason : builds j w (transition j to reason).
Proof. apply sound_builds, transition_audited. Qed.

Lemma builds_create j w p : created j w p -> builds j w (with_db (create_payout p)).
Proof.
  intros Hp W (Ha & w' & Hw' & Hs). unfold with_db, try_db, mbind, M_bind, lift. cbn.
  pose proof (create_audited j w w' p (w_db W) Ha Hw' Hs Hp) as H.
  destruct (create_payout p (w_db W)) as [d' r]. cbn. intros _. exact H.
Qed.

Lemma reserve_audited j us t : sound stays_audited (try_db (reserve_utxos j us t)).
Proof. apply sound_try_db. intros o d rep. apply (kstep_audited j). constructor. Qed.

Ltac build_step :=
  match goal with
  | |- builds _ _ (mbind _ _) => apply builds_bind; [|intros ?]
  | |- builds _ _ (transition _ _ _) => apply builds_transition
  | |- builds _ _ (with_db (create_payout _)) => apply builds_create
  | |- builds _ _ (try_db (reserve_utxos _ _ _)) => apply sound_builds, reserve_audited
  | |- builds _ _ (commit_payout _ _ _ _ _) => fail 1
  | |- builds _ _ (match _ with _ => _ end) => case_match
  | |- builds _ _ (if _ then _ else _) => case_match
  | |- builds _ _ _ => apply sound_builds
  | |- sound _ _ => first
      [ apply count_audited | apply sound_ret; apply _ | apply sound_lift; apply _ | apply sound_query; apply _
      | apply ask_audited | apply sound_rpc; [apply _|apply ask_audited] ]
  end.

Lemma builds_commit j w s hex : sel_inputs s <> [] -> builds j w (commit_payout S j w s hex).
Proof.
  intros Hne. unfold commit_payout, now. repeat build_step.
  by eexists _, _, _, _.
Qed.

Lemma build_audited j : sound stays_audited (build S j).
Proof.
  unfold build. apply sound_bind; [apply _|apply sound_query; apply _|]. intros p.
  case_bool_decide; [apply transition_audited|]. apply load_builds. intros w.
  apply builds_bind; [apply sound_builds, sound_query; apply _|]. intros us.
  destruct (select _ _ _ _ _) as [s|e] eqn:Es.
  - pose proof (select_nonempty _ _ _ _ _ _ Es) as Hne. unfold now, build_transaction.
    repeat build_step. by apply builds_commit.
  - unfold wait_for_funds. repeat build_step.
Qed.

Lemma build_designated_audited j : sound stays_audited (build_if_designated S j).
Proof.
  unfold build_if_designated, may_build, now. apply sound_bind; [apply _|apply sound_query; apply _|].
  intros r. apply sound_bind; [apply _|apply sound_lift; apply _|]. intros since.
  apply sound_bind; [apply _| |].
  - case_match; [|apply sound_ret; apply _]. apply sound_bind; [apply _|apply ask_audited|]. intros t. apply sound_ret. apply _.
  - intros []; [apply build_audited|apply sound_ret; apply _].
Qed.

Lemma tick_body_audited : sound stays_audited (tick_body S).
Proof.
  apply (sound_tick_parts S _ any_calls_quiet stays_audited (fun A f _ => ask_audited f) count_audited
           any_height any_node_height (fun _ => True)).
  - apply vstep_audited.
  - intros j _. apply kstep_audited.
  - intros j _. eapply (sound_rebroadcast S _ any_calls_quiet stays_audited) with (heights := any_height);
      eauto using any_node_height, ask_audited, count_audited, kstep_audited.
  - intros j _. apply build_designated_audited.
  - intros j _. eapply (sound_sign S _ any_calls_quiet stays_audited) with (heights := any_height);
      eauto using ask_audited, count_audited, kstep_audited.
    intros o d rep hex txid at_ Ha. apply audited_same_terms; [constructor|apply signed_terms|done].
  - intros s f _ Hf. apply sound_for_state; [apply _|]. eauto.
Qed.

(** C20: An executor tick over a well-formed withdrawal database, whatever the node, the
    chain and the federation answer, leaves nothing for the offline auditor to report if
    there was nothing before: every payout it creates or changes still recomputes to the
    bytes and the hash it froze. *)
Theorem ticks_leave_nothing_to_report o d integrity db :
  tables_wf d -> is_clean (audit integrity db d) = true ->
  is_clean (audit integrity db (tick S o d).1.2) = true.
Proof.
  intros Hwf (Hi & Hc & Hp)%is_clean_iff. apply is_clean_iff. split; [done|]. split; [done|].
  unfold tick. pose proof (tick_body_audited {| w_outside := o; w_db := d; w_report := default_report |}) as H.
  destruct (tick_body S _) as [w r]. cbn in *. by destruct H as [[_ ?] _].
Qed.
End ticks.

(** * The auditor on concrete databases

    A database as the relayer leaves it, audited; and a drifted column,
    reported under the name of its neighbour. *)

#[local] Existing Instance toy_sha2.
#[local] Existing Instance toy_ripemd.
#[local] Existing Instance toy_secp.

Lemma demo_config_wf : config_wf (config demo_settings).
Proof. constructor; [exact demo_vault_wf|by split|by split|done|done|done]. Qed.

Lemma ticks_leave_nothing_to_report_witness :
  is_clean (audit (lit "ok") one_ready (demo_tick 1100 requested)) = true.
Proof.
  assert (tables_wf requested) as Hwf by exact (wsteps_wf _ requested_steps).
  assert (is_clean (audit (lit "ok") one_ready requested) = true) as Hc by (vm_compute; reflexivity).
  unfold demo_tick.
  exact (@ticks_leave_nothing_to_report toy_sha2 toy_ripemd toy_secp demo_rpc demo_settings demo_config_wf
           1100 requested (lit "ok") one_ready Hwf Hc).
Defined.

(** One claim and one payout are looked at. *)
Example something_is_checked :
  summary (audit (lit "ok") one_ready (demo_tick 1100 requested)) =
  lit "integrity_check: ok" ++ newline ++ lit "claims checked: 1" ++ newline ++
  lit "payouts checked: 1" ++ newline ++ lit "findings: 0".
Proof. vm_compute. reflexivity. Qed.

Lemma auditor_judges_claims_as_the_guard_witness :
  exists claim, DepositDb.verify_and_load_signable_message 1 2000 one_ready = (one_ready, Ok claim) /\
    sc_message claim = canonical_message (freeze (ready_row 1 demo_txid)).
Proof.
  exact (auditor_judges_claims_as_the_guard 1 2000 one_ready (ready_row 1 demo_txid) (freeze (ready_row 1 demo_txid))
           eq_refl eq_refl).
Defined.

(** The table of field names misses the action byte: a drift of the last
    byte of a column is reported under the next column's name. *)
Definition set_last (x : byte) (l : list byte) : list byte := take (length l - 1) l ++ [x].
Definition drifted (c : StoredClaim) (recipient mint : list byte) (amount : Z) : StoredClaim :=
  {| sc_id := sc_id c; sc_claim_txid := sc_claim_txid c; sc_claim_vout := sc_claim_vout c;
     sc_amount := amount; sc_claim_recipient := recipient; sc_state := sc_state c;
     sc_canonical_message := sc_canonical_message c; sc_message_hash := sc_message_hash c;
     sc_protocol_version := sc_protocol_version c; sc_epoch := sc_epoch c; sc_program := sc_program c;
     sc_mint := mint |}.

Example drifts_are_misnamed :
  let c := stored_claim (ready_row 1 demo_txid) (freeze (ready_row 1 demo_txid)) in
  check_claim (drifted c (set_last xff (sc_claim_recipient c)) (sc_mint c) (sc_amount c)) =
    Some (ClaimRecomputeMismatch 1 (lit "wrapped mint")) /\
  check_claim (drifted c (sc_claim_recipient c) (set_last xff (sc_mint c)) (sc_amount c)) =
    Some (ClaimRecomputeMismatch 1 (lit "length or trailing bytes")) /\
  check_claim (drifted c (sc_claim_recipient c) (sc_mint c) (sc_amount c + 2 ^ 56)) =
    Some (ClaimRecomputeMismatch 1 (lit "recipient")).
Proof. vm_compute. by split_and!. Qed.
