(* ===== verification/Metrics.v ===== *)
(** * The metrics registry: [relayer/src/ops/metrics.rs]

    Families of samples by name, and their Prometheus text.  A sample's
    value is a binary64 number; every one the relayer records is an integer,
    and the standard library's shortest decimal display of such a number is
    written out. *)
From Stdlib Require Import ZArith Lia Strings.Byte.
From stdpp Require Import base numbers strings list.
From S2P Require Import Prelude Hex Text WithdrawalDb.

(** ** Binary64 values that are integers *)

Inductive F64 := Finite (n : Z) | NaN | Infinite (positive : bool).

(** [n as f64] for an integer [n]: 53 bits, ties to even. *)
Definition round53 (n : Z) : Z :=
  let a := Z.abs n in
  let e := Z.max 0 (Z.log2 a - 52) in
  let q := Z.shiftr a e in
  let rest := a - Z.shiftl q e in
  let half := 2 ^ e / 2 in
  let up := (half <? rest) || ((half =? rest) && (0 <? e) && Z.odd q) in
  Z.sgn n * Z.shiftl (if up then q + 1 else q) e.
Definition as_f64 (n : Z) : F64 := Finite (round53 n).

(** The shortest digits that read back as [a]: a multiple of the largest
    power of ten, from [10^k] down, that rounds to [a], the nearer one first. *)
Fixpoint shortest (k : nat) (a : Z) : Z :=
  match k with
  | O => a
  | S k' =>
      let p := 10 ^ Z.of_nat k in
      let low := a / p * p in
      let '(near, far) := if a - low <=? p / 2 then (low, low + p) else (low + p, low) in
      if round53 near =? a then near else if round53 far =? a then far else shortest k' a
  end.
Definition format_value (v : F64) : str :=
  match v with
  | NaN => lit "NaN"
  | Infinite positive => if positive then lit "+Inf" else lit "-Inf"
  | Finite n => display (Z.sgn n * shortest 20 (Z.abs n))
  end.

(** ** The registry *)

Inductive Kind := Counter | Gauge.
Definition kind_str (k : Kind) : str :=
  match k with Counter => lit "counter" | Gauge => lit "gauge" end.

(** A [BTreeMap]: an association list with increasing keys. *)
Fixpoint tree_insert {A} (k : str) (f : option A -> A) (m : list (str * A)) : list (str * A) :=
  match m with
  | [] => [(k, f None)]
  | (k', a) :: m' =>
      if bool_decide (k = k') then (k, f (Some a)) :: m'
      else if bytes_le k k' then (k, f None) :: m
      else (k', a) :: tree_insert k f m'
  end.

Record Sample := { labels : list (str * str); value : F64 }.
Record Family := { kind : Kind; help : str; samples : list Sample }.
Abbreviation Registry := (list (str * Family)).

Definition record (r : Registry) (name : str) (k : Kind) (h : str) (ls : list (str * str)) (v : F64)
  : Registry :=
  let sample :=
    {| labels := foldl (fun m kv => tree_insert kv.1 (fun _ => kv.2) m) [] ls; value := v |} in
  tree_insert name (fun f =>
    let f := default {| kind := k; help := h; samples := [] |} f in
    {| kind := kind f; help := help f; samples := samples f ++ [sample] |}) r.
Definition gauge (r : Registry) (name h : str) (v : F64) : Registry := record r name Gauge h [] v.
Definition counter (r : Registry) (name h : str) (v : F64) : Registry := record r name Counter h [] v.

(** A backslash, a quote and a newline, each after a backslash. *)
Definition escape_byte (b : byte) : str :=
  if bool_decide (b = "\"%byte) then ["\"%byte; "\"%byte]
  else if bool_decide (b = "034"%byte) then ["\"%byte; "034"%byte]
  else if bool_decide (b = "010"%byte) then ["\"%byte; "n"%byte]
  else [b].
Definition escape (v : str) : str := concat (escape_byte <$> v).

Definition quote : str := ["034"%byte].
Definition line (s : str) : str := s ++ ["010"%byte].
Definition encode_sample (name : str) (s : Sample) : str :=
  match labels s with
  | [] => line (name ++ lit " " ++ format_value (value s))
  | ls =>
      line (name ++ lit "{" ++
            DepositDb.join ((fun kv => kv.1 ++ lit "=" ++ quote ++ escape kv.2 ++ quote) <$> ls) ++
            lit "} " ++ format_value (value s))
  end.
Definition encode (r : Registry) : str :=
  concat ((fun nf : str * Family =>
             line (lit "# HELP " ++ nf.1 ++ lit " " ++ help nf.2) ++
             line (lit "# TYPE " ++ nf.1 ++ lit " " ++ kind_str (kind nf.2)) ++
             concat (encode_sample nf.1 <$> samples nf.2)) <$> r).
Definition is_empty (r : Registry) : bool := bool_decide (length r = 0%nat).

(** ** The numbers *)

Example twenty_one_billion : format_value (as_f64 21000000000) = lit "21000000000".
Proof. vm_compute. reflexivity. Qed.
Example largest_u64 : format_value (as_f64 (2 ^ 64 - 1)) = lit "18446744073709552000".
Proof. vm_compute. reflexivity. Qed.

(** Numbers below [2^53] are themselves, and no other number reads back as
    one of them. *)
Lemma round53_small n : 0 <= n < 2 ^ 53 -> round53 n = n.
Proof.
  intros H. unfold round53. rewrite Z.abs_eq by lia.
  assert (Z.log2 n <= 52) as Hl.
  { destruct (Z.eq_dec n 0) as [->|]; [done|]. apply Z.lt_succ_r, Z.log2_lt_pow2; lia. }
  rewrite (Z.max_l 0) by lia. rewrite Z.shiftr_0_r, !Z.shiftl_0_r. rewrite Z.sub_diag.
  change (2 ^ 0 / 2) with 0. cbn [Z.ltb Z.eqb Z.compare andb orb].
  rewrite Z.mul_comm, <- (Z.abs_eq n) at 1 by lia. apply Z.abs_sgn.
Qed.

Lemma round53_large n : 2 ^ 53 <= n -> 2 ^ 53 <= round53 n.
Proof.
  intros H. unfold round53. rewrite Z.abs_eq, Z.sgn_pos, Z.mul_1_l by lia.
  assert (53 <= Z.log2 n) as Hl by (apply Z.log2_le_pow2; lia).
  rewrite (Z.max_r 0) by lia. set (e := Z.log2 n - 52) in *.
  assert (2 ^ 53 <= Z.shiftl (Z.shiftr n e) e) as Hq.
  { rewrite Z.shiftr_div_pow2, Z.shiftl_mul_pow2 by lia.
    assert (2 ^ 52 <= n / 2 ^ e) as Hd.
    { apply Z.div_le_lower_bound; [lia|]. rewrite <- Z.pow_add_r by lia.
      replace (e + 52) with (Z.log2 n) by lia. apply Z.log2_spec. lia. }
    assert (2 ^ 1 <= 2 ^ e) as H1 by (apply Z.pow_le_mono_r; lia).
    change (2 ^ 53) with (2 ^ 52 * 2 ^ 1). apply Z.mul_le_mono_nonneg; lia. }
  case_match; [|done]. rewrite Z.shiftl_mul_pow2 in * by lia. lia.
Qed.

Lemma round53_inj_small n m : 0 <= n < 2 ^ 53 -> 0 <= m -> round53 m = n -> m = n.
Proof.
  intros Hn Hm H. destruct (Z.lt_ge_cases m (2 ^ 53)) as [Hl|Hg].
  - by rewrite round53_small in H by lia.
  - apply round53_large in Hg. lia.
Qed.

(** The gauges an operator reads are exact up to [2^53]. *)
Lemma format_small n : 0 <= n < 2 ^ 53 -> format_value (as_f64 n) = display n.
Proof.
  intros H. unfold format_value, as_f64. rewrite round53_small, Z.abs_eq by lia.
  assert (forall k, shortest k n = n) as Hk.
  { induction k as [|k IH]; cbn [shortest]; [done|]. set (p := 10 ^ _).
    assert (0 < p) by (apply Z.pow_pos_nonneg; lia).
    assert (0 <= n / p * p) by (apply Z.mul_nonneg_nonneg; [apply Z.div_pos|]; lia).
    destruct (_ <=? _).
    - destruct (Z.eqb_spec (round53 (n / p * p)) n); [by apply round53_inj_small|].
      destruct (Z.eqb_spec (round53 (n / p * p + p)) n); [|done]. apply round53_inj_small; [done|lia|done].
    - destruct (Z.eqb_spec (round53 (n / p * p + p)) n); [apply round53_inj_small; [done|lia|done]|].
      destruct (Z.eqb_spec (round53 (n / p * p)) n); [by apply round53_inj_small|done]. }
  rewrite Hk. f_equal. rewrite Z.mul_comm, <- (Z.abs_eq n) at 1 by lia. apply Z.abs_sgn.
Qed.
