(* ===== verification/Solvency.v ===== *)
(** * The solvency report: [relayer/src/ops/solvency.rs]

    The snapshot's arithmetic, and what it says about a state of the program:
    a relayer whose database has caught up with the mints never raises the
    alarm, and one that has not does. *)
From Stdlib Require Import ZArith Lia Strings.Byte.
From stdpp Require Import base numbers strings gmap list.
From S2P Require Import Coin WithdrawalDb.
From S2P Require Import Prelude State Token Program Invariants Safety Hex DepositDb.

Record SolvencySnapshot := {
  wrapped_supply : Z; confirmed_deposits : Z; completed_payouts : Z; vault_fees_paid : Z;
  vault_balance : option Z
}.

Definition backing_bound (s : SolvencySnapshot) : Z :=
  saturating_sub (confirmed_deposits s) (completed_payouts s).
Definition invariant_holds (s : SolvencySnapshot) : bool := wrapped_supply s <=? backing_bound s.
Definition breach_atomic (s : SolvencySnapshot) : Z := saturating_sub (wrapped_supply s) (backing_bound s).
Definition fee_drift_atomic (s : SolvencySnapshot) : option Z :=
  (fun bal => saturating_sub (backing_bound s) bal) <$> vault_balance s.
Definition drift_is_explained_by_fees (s : SolvencySnapshot) : option bool :=
  (fun d => d <=? vault_fees_paid s) <$> fee_drift_atomic s.
Definition unexplained_drift_atomic (s : SolvencySnapshot) : option Z :=
  (fun d => saturating_sub d (vault_fees_paid s)) <$> fee_drift_atomic s.

(** [snapshot_from_db] of a database that is not written in between. *)
Definition snapshot_from_db (db : DepositDb.Db) (d : Tables) (supply : Z) (balance : option Z)
  : SolvencySnapshot :=
  {| wrapped_supply := supply; confirmed_deposits := minted_deposit_total db;
     completed_payouts := completed_payout_total d; vault_fees_paid := vault_fees_paid_total d;
     vault_balance := balance |}.

Lemma breach_iff s : breach_atomic s = 0 <-> invariant_holds s = true.
Proof. unfold breach_atomic, invariant_holds, saturating_sub. rewrite Z.leb_le. lia. Qed.

Lemma explained_iff s d :
  fee_drift_atomic s = Some d -> (drift_is_explained_by_fees s = Some true <-> unexplained_drift_atomic s = Some 0).
Proof.
  intros H. unfold drift_is_explained_by_fees, unexplained_drift_atomic, saturating_sub. rewrite H. cbn.
  destruct (Z.leb_spec d (vault_fees_paid s)).
  - split; [intros _; f_equal; lia|done].
  - split; [done|intros [=]; lia].
Qed.

(** ** Sums over related tables *)

(** Rows with distinct keys, each with a row of the same key and at least
    the same value on the right, sum to at most the right. *)
Lemma sumZ_le_matched {A B K} (key_a : A -> K) (key_b : B -> K) (f : A -> Z) (g : B -> Z) la lb :
  NoDup (key_a <$> la) ->
  (forall a, a ∈ la -> f a <= 0 \/ exists b, b ∈ lb /\ key_b b = key_a a /\ f a <= g b) ->
  Forall (fun b => 0 <= g b) lb ->
  sumZ f la <= sumZ g lb.
Proof.
  revert lb. induction la as [|a la IH]; intros lb Hnd Hm Hpos.
  - by apply sumZ_nonneg.
  - cbn in Hnd. apply NoDup_cons in Hnd as [Hnew Hnd].
    destruct (Hm a) as [Hz|(b & Hb & Hk & Hle)]; [by left| |].
    { assert (sumZ f la <= sumZ g lb); [|unfold sumZ in *; cbn [foldr]; lia].
      apply IH; [done| |done]. intros a' Ha'. apply Hm. by right. }
    apply list_elem_of_split in Hb as (l1 & l2 & ->).
    assert (sumZ f la <= sumZ g (l1 ++ l2)) as Hrest.
    { apply IH; [done| |].
      - intros a' Ha'. destruct (Hm a') as [?|(b' & Hb' & Hk' & Hle')]; [by right|by left|]. right. exists b'. split; [|done].
        apply elem_of_app in Hb' as [?|Hb']; [by apply elem_of_app; left|].
        apply elem_of_cons in Hb' as [->|?]; [|by apply elem_of_app; right].
        exfalso. apply Hnew. rewrite <- Hk, Hk'. by apply list_elem_of_fmap_2.
      - rewrite Forall_app in Hpos |- *. destruct Hpos as [? [? ?]%Forall_cons]. done. }
    rewrite sumZ_app in *. unfold sumZ in *. cbn [foldr]. lia.
Qed.

Lemma map_sum_list `{Countable K} {V} (f : V -> Z) (m : gmap K V) :
  map_sum f m = sumZ (fun kv => f kv.2) (map_to_list m).
Proof.
  unfold map_sum. rewrite map_fold_foldr. unfold sumZ. induction (map_to_list m) as [|[k v] l IH]; cbn; [done|].
  by rewrite IH.
Qed.

(** ** No false alarm *)

Section alarm.
Context `{T : SplToken} {L : SplTokenLaws T} `{Rn : Runtime}.

(** The relayer's deposit rows and the program's claims are of the same
    outpoints and amounts. *)
Record mints_seen (b : Bridge) (db : DepositDb.Db) : Prop := {
  ms_rows : forall o c, deposit_claims b !! o = Some c ->
    exists r, r ∈ candidates_by_state db Minted /\ (DepositDb.txid r, DepositDb.vout r) = o /\
      DepositDb.amount_atomic r = claim_amount c;
  ms_amounts : Forall (fun r => 0 <= DepositDb.amount_atomic r) (candidates_by_state db Minted);
  ms_total : sumZ DepositDb.amount_atomic (candidates_by_state db Minted) < 2 ^ 64
}.

(** Every payout that counts pays a request of the program its amount. *)
Definition payouts_real (b : Bridge) (d : Tables) : Prop :=
  forall i p w, withdrawal_payouts d !! i = Some p -> WithdrawalDb.withdrawal_requests d !! i = Some w ->
    w_state w = WithdrawalDb.Completed ->
    exists r, withdrawal_requests b !! i = Some r /\ 0 <= t_payout (p_terms p) <= wr_amount r.

Lemma minted_le b db : mints_seen b db -> minted b <= minted_deposit_total db.
Proof.
  intros [Hr Ha Ht]. unfold minted, minted_deposit_total, as_u64, wrap_u64.
  rewrite Z.mod_small by (split; [by apply sumZ_nonneg|done]). rewrite map_sum_list.
  apply (sumZ_le_matched fst (fun r => (DepositDb.txid r, DepositDb.vout r))); [apply NoDup_fst_map_to_list| |done].
  intros [o c] Hoc. apply elem_of_map_to_list in Hoc. destruct (Hr o c Hoc) as (r & Hin & Ho & Hc).
  right. exists r. split_and!; [done|done|cbn; lia].
Qed.

Lemma completed_le b d :
  map_Forall (fun _ r => 0 <= wr_amount r) (withdrawal_requests b) -> payouts_real b d ->
  completed_payout_total d <= withdrawn b.
Proof.
  intros Hpos Hreal. unfold completed_payout_total, sum_payout_column.
  set (f := fun ip : Z * PayoutRow => _).
  assert (Forall (fun ip => 0 <= f ip) (map_to_list (withdrawal_payouts d))) as Hf.
  { apply Forall_forall. intros [i p] Hip. apply elem_of_map_to_list in Hip. unfold f. cbn.
    destruct (WithdrawalDb.withdrawal_requests d !! i) as [w|] eqn:Ew; [|done]. case_decide as Hs; [|done].
    by destruct (Hreal i p w Hip Ew Hs) as (r & _ & ? & _). }
  etrans; [apply Z.mod_le; [by apply sumZ_nonneg|lia]|]. unfold withdrawn. rewrite map_sum_list.
  apply (sumZ_le_matched fst fst); [apply NoDup_fst_map_to_list| |].
  - intros [i p] Hip. apply elem_of_map_to_list in Hip. unfold f. cbn.
    destruct (WithdrawalDb.withdrawal_requests d !! i) as [w|] eqn:Ew; [|by left]. case_decide as Hs; [|by left].
    destruct (Hreal i p w Hip Ew Hs) as (r & Hr & _ & Hle). right. exists (i, r). split_and!; [|done|done].
    by apply elem_of_map_to_list.
  - apply Forall_forall. intros [i r] Hir. apply elem_of_map_to_list in Hir. by apply (Hpos i r).
Qed.

(** Nothing but the program's claims is counted as minted, and once. *)
Record mints_exact (b : Bridge) (db : DepositDb.Db) : Prop := {
  me_once : NoDup ((fun r => (DepositDb.txid r, DepositDb.vout r)) <$> candidates_by_state db Minted);
  me_claimed : forall r, r ∈ candidates_by_state db Minted ->
    exists c, deposit_claims b !! (DepositDb.txid r, DepositDb.vout r) = Some c /\
      claim_amount c = DepositDb.amount_atomic r
}.

Lemma minted_ge b db :
  map_Forall (fun _ c => 0 <= claim_amount c) (deposit_claims b) ->
  mints_seen b db -> mints_exact b db -> minted_deposit_total db <= minted b.
Proof.
  intros Hpos [_ Ha Ht] [Hn Hc]. unfold minted, minted_deposit_total, as_u64, wrap_u64.
  rewrite Z.mod_small by (split; [by apply sumZ_nonneg|done]). rewrite map_sum_list.
  apply (sumZ_le_matched (fun r => (DepositDb.txid r, DepositDb.vout r)) fst); [done| |].
  - intros r Hr. destruct (Hc r Hr) as (c & Hin & Ham). right. exists ((DepositDb.txid r, DepositDb.vout r), c).
    split_and!; [by apply elem_of_map_to_list|done|cbn; lia].
  - apply Forall_forall. intros [o c] Hoc. apply elem_of_map_to_list in Hoc. by apply (Hpos o c).
Qed.

Lemma amounts_positive ls b :
  steps ls b ->
  map_Forall (fun _ c => 0 <= claim_amount c) (deposit_claims b) /\
  map_Forall (fun _ r => 0 <= wr_amount r) (withdrawal_requests b).
Proof.
  intros [_ _ _ Hc Hw|c s _ _ _ _ _ Hc Hw _]%steps_inv.
  - rewrite Hc, Hw. split; apply map_Forall_empty.
  - split; [eapply map_Forall_impl; [exact Hc|]; intros o d []|eapply map_Forall_impl; [exact Hw|]; intros i w []]; lia.
Qed.

(** C25: In every reachable state of the program, a relayer whose database has every
    mint of the program as a Minted deposit, and whose completed payouts pay real
    requests at most their amount, raises no solvency alarm on the true supply; and if
    it has exactly those mints and nobody burned outside the bridge, the slack it
    measures is what users have burned and not yet been paid. *)
Theorem caught_up_relayer_raises_no_alarm ls b c supply db d balance :
  steps ls b -> bridge_config b = Some c -> wrapped_mint c <> default_pubkey ->
  mint_supply (tokens b) (wrapped_mint c) = Some supply ->
  mints_seen b db -> payouts_real b d ->
  let s := snapshot_from_db db d supply balance in
  invariant_holds s = true /\ breach_atomic s = 0 /\
  (mints_exact b db -> external_activity ls = false ->
   confirmed_deposits s - completed_payouts s - wrapped_supply s = withdrawn b - completed_payout_total d).
Proof.
  intros Hls Hc Hm Hs Hseen Hreal s.
  destruct (supply_accounted ls b c Hls Hc Hm) as (supply' & Hs' & Hle & Heq).
  assert (supply' = supply) as -> by congruence.
  destruct (amounts_positive ls b Hls) as [Hpc Hpw].
  pose proof (minted_le b db Hseen). pose proof (completed_le b d Hpw Hreal).
  assert (invariant_holds s = true) as Hh.
  { unfold invariant_holds, backing_bound, saturating_sub. apply Z.leb_le. cbn. lia. }
  split_and!; [done|by apply breach_iff|]. intros Hexact Hext.
  pose proof (minted_ge b db Hpc Hseen Hexact). specialize (Heq Hext). cbn. lia.
Qed.
End alarm.
