(* ===== verification/Health.v ===== *)
(** * Health and metrics: [relayer/src/ops/health.rs], [ops/indexer_status.rs],
    [ops/collector.rs]

    The report of one scrape, the indexer's shared status, and the collector
    that gathers the report.  Reading the database, the two nodes and the
    clock are functions of an outside state, since other tasks write the
    database while a scrape runs; HTTP is I/O. *)
From Stdlib Require Import ZArith Lia Strings.Byte.
From stdpp Require Import base numbers strings gmap list.
From S2P Require Import Coin Rpc Epoch WithdrawalDb.
From S2P Require Import Prelude State Hex DepositDb Accounts SolanaRpc Metrics Solvency.

(** ** The indexer's status *)

Record IndexerStatus := {
  halted : bool; halted_depth : Z; last_tick_unix : Z; deepest_reorg : Z; max_reorg_depth : Z
}.

Definition new_status (started_at : Z) : IndexerStatus :=
  {| halted := false; halted_depth := 0; last_tick_unix := started_at; deepest_reorg := 0;
     max_reorg_depth := 0 |}.
Definition set_max_reorg_depth (depth : Z) (s : IndexerStatus) : IndexerStatus :=
  {| halted := halted s; halted_depth := halted_depth s; last_tick_unix := last_tick_unix s;
     deepest_reorg := deepest_reorg s; max_reorg_depth := depth |}.
Definition record_reorg (depth : Z) (s : IndexerStatus) : IndexerStatus :=
  {| halted := halted s; halted_depth := halted_depth s; last_tick_unix := last_tick_unix s;
     deepest_reorg := Z.max (deepest_reorg s) depth; max_reorg_depth := max_reorg_depth s |}.
Definition record_tick (at_unix : Z) (s : IndexerStatus) : IndexerStatus :=
  {| halted := halted s; halted_depth := halted_depth s; last_tick_unix := at_unix;
     deepest_reorg := deepest_reorg s; max_reorg_depth := max_reorg_depth s |}.
Definition record_halt (attempted_depth : Z) (s : IndexerStatus) : IndexerStatus :=
  {| halted := true; halted_depth := attempted_depth; last_tick_unix := last_tick_unix s;
     deepest_reorg := deepest_reorg s; max_reorg_depth := max_reorg_depth s |}.
Definition seconds_since_tick (now_unix : Z) (s : IndexerStatus) : Z :=
  Z.max 0 (i64_saturating_sub now_unix (last_tick_unix s)).

(** ** The report *)

Record Invariant := { name : str; healthy : bool; detail : str }.
Record HealthReport := { invariants : list Invariant; metrics : str }.
Definition default_report : HealthReport := {| invariants := []; metrics := [] |}.

Definition report_healthy (r : HealthReport) : bool :=
  negb (bool_decide (length (invariants r) = 0%nat)) && forallb healthy (invariants r).
Definition status (r : HealthReport) : Z := if report_healthy r then 200 else 503.

Definition text (r : HealthReport) : str :=
  match invariants r with
  | [] => line (lit "UNKNOWN no invariants were evaluated")
  | invs =>
      concat ((fun i => (if healthy i then lit "OK   " else lit "BREACH ") ++ name i ++
                        (if bool_decide (detail i = []) then [] else lit ": " ++ detail i) ++
                        ["010"%byte]) <$> invs)
  end.

Record IndexerSummary := {
  s_halted : bool; s_halted_depth : Z; s_seconds_since_tick : Z; s_deepest_reorg : Z;
  s_max_reorg_depth : Z
}.

Definition solvency_invariant (s : SolvencySnapshot) : Invariant :=
  {| name := lit "solvency"; healthy := invariant_holds s;
     detail :=
       if invariant_holds s then
         lit "wrapped " ++ display (wrapped_supply s) ++ lit " <= deposits-payouts " ++
         display (backing_bound s)
       else
         lit "wrapped " ++ display (wrapped_supply s) ++ lit " EXCEEDS deposits-payouts " ++
         display (backing_bound s) ++ lit " by " ++ display (breach_atomic s) |}.

Definition vault_invariant (s : SolvencySnapshot) : list Invariant :=
  match fee_drift_atomic s, unexplained_drift_atomic s with
  | Some drift, Some unexplained =>
      [{| name := lit "vault_reconciliation"; healthy := unexplained =? 0;
          detail :=
            if unexplained =? 0 then
              lit "drift " ++ display drift ++ lit " fully explained by " ++
              display (vault_fees_paid s) ++ lit " in fees"
            else
              lit "drift " ++ display drift ++ lit " exceeds " ++ display (vault_fees_paid s) ++
              lit " in known fees by " ++ display unexplained |}]
  | _, _ => []
  end.

Definition halts_invariant (halted_deposits halted_withdrawals : Z) : Invariant :=
  {| name := lit "no_integrity_halts";
     healthy := wrap_u64 (halted_deposits + halted_withdrawals) =? 0;
     detail := display halted_deposits ++ lit " deposits, " ++ display halted_withdrawals ++
               lit " withdrawals halted" |}.

Definition epoch_invariant (epoch_is_fresh : bool) : Invariant :=
  {| name := lit "validator_epoch_fresh"; healthy := epoch_is_fresh;
     detail := if epoch_is_fresh then [] else lit "epoch observation is stale" |}.

Definition indexer_invariant (i : IndexerSummary) : Invariant :=
  {| name := lit "indexer_not_halted"; healthy := negb (s_halted i);
     detail :=
       if s_halted i then
         lit "HALTED on a reorg deeper than max_reorg_depth (attempted " ++ display (s_halted_depth i) ++
         lit "); deposits are no longer being indexed and an operator must intervene"
       else lit "last tick " ++ display (s_seconds_since_tick i) ++ lit "s ago" |}.

Definition flag (b : bool) : F64 := Finite (if b then 1 else 0).

Definition indexer_gauges (i : IndexerSummary) (r : Registry) : Registry :=
  let r := gauge r (lit "glc_indexer_halted")
    (lit "1 when the Goldcoin indexer has halted on an over-deep reorg and requires an operator")
    (flag (s_halted i)) in
  let r := gauge r (lit "glc_indexer_seconds_since_tick")
    (lit "Seconds since the Goldcoin indexer last completed a tick without halting")
    (as_f64 (s_seconds_since_tick i)) in
  let r := gauge r (lit "glc_reorg_deepest_observed")
    (lit "Deepest Goldcoin reorg this process has rolled back, in blocks") (as_f64 (s_deepest_reorg i)) in
  gauge r (lit "glc_reorg_max_depth_configured")
    (lit "Configured max_reorg_depth; beyond this the indexer halts") (as_f64 (s_max_reorg_depth i)).

Definition solvency_gauges (s : SolvencySnapshot) (r : Registry) : Registry :=
  let r := gauge r (lit "glc_wrapped_supply_atomic")
    (lit "Wrapped GLC supply reported by the SPL mint, atomic units") (as_f64 (wrapped_supply s)) in
  let r := gauge r (lit "glc_confirmed_deposits_atomic")
    (lit "Total value of deposits observed minted, atomic units") (as_f64 (confirmed_deposits s)) in
  let r := gauge r (lit "glc_completed_payouts_atomic")
    (lit "Total paid out to users across completed payouts, atomic units") (as_f64 (completed_payouts s)) in
  let r := gauge r (lit "glc_backing_bound_atomic")
    (lit "Upper bound on wrapped supply: confirmed deposits minus completed payouts")
    (as_f64 (backing_bound s)) in
  let r := gauge r (lit "glc_solvency_breach_atomic")
    (lit "Wrapped supply in excess of the backing bound. MUST be zero") (as_f64 (breach_atomic s)) in
  let r := gauge r (lit "glc_vault_fees_paid_atomic")
    (lit "Cumulative Goldcoin fees absorbed by the vault (ADR-0013 D3). Grows with payout count; replenished from an external reserve, NOT a solvency breach")
    (as_f64 (vault_fees_paid s)) in
  let r := match vault_balance s with
    | Some bal => gauge r (lit "glc_vault_balance_atomic")
        (lit "Confirmed on-chain vault balance, atomic units") (as_f64 bal)
    | None => r end in
  let r := match fee_drift_atomic s with
    | Some drift => gauge r (lit "glc_vault_fee_drift_atomic")
        (lit "Vault balance shortfall against the backing bound. Expected to track glc_vault_fees_paid_atomic")
        (as_f64 drift)
    | None => r end in
  match unexplained_drift_atomic s with
  | Some u => gauge r (lit "glc_vault_unexplained_drift_atomic")
      (lit "Vault shortfall NOT explained by fees this relayer recorded. MUST be zero") (as_f64 u)
  | None => r
  end.

Definition build_report (s : SolvencySnapshot) (halted_deposits halted_withdrawals : Z)
    (epoch_is_fresh : bool) (indexer : option IndexerSummary) (extra : list (str * F64 * str))
  : HealthReport :=
  let invs :=
    [solvency_invariant s] ++ vault_invariant s ++
    [halts_invariant halted_deposits halted_withdrawals; epoch_invariant epoch_is_fresh] ++
    option_list (indexer_invariant <$> indexer) in
  let r := match indexer with Some i => indexer_gauges i [] | None => [] end in
  let r := solvency_gauges s r in
  let r := gauge r (lit "glc_integrity_halted_deposits")
    (lit "Deposits in the terminal IntegrityHalted state") (as_f64 halted_deposits) in
  let r := gauge r (lit "glc_integrity_halted_withdrawals")
    (lit "Withdrawals in the terminal IntegrityHalted state") (as_f64 halted_withdrawals) in
  let r := gauge r (lit "glc_validator_epoch_fresh")
    (lit "1 when this relayer's validator-epoch observation is current, 0 when stale") (flag epoch_is_fresh) in
  let r := foldl (fun r e => gauge r e.1.1 e.2 e.1.2) r extra in
  let r := gauge r (lit "glc_health")
    (lit "1 when every page-immediately invariant holds, 0 otherwise") (flag (forallb healthy invs)) in
  {| invariants := invs; metrics := encode r |}.

(** ** The collector *)

Definition MINT_SUPPLY_OFFSET : nat := 36.

Record OpsCollector := {
  oc_wrapped_mint : Pubkey; oc_vault_address : str; oc_vault_min_confirmations : Z;
  oc_has_indexer : bool
}.

(** What a scrape reads: the database at each query, the two nodes, the
    clock, and the status shared with the other tasks. *)
Record OpsOutside (net : Type) := {
  ops_open : net -> net * bool;
  ops_db : net -> net * result DbError (DepositDb.Db * Tables);
  ops_get_account : Pubkey -> net -> net * result SolanaRpcError (option Account);
  ops_list_unspent : Z -> list str -> net -> net * result RpcError (list ObservedUtxo);
  ops_now : net -> net * Z;
  ops_epoch : net -> EpochObservation;
  ops_indexer : net -> IndexerStatus
}.
Arguments ops_open {net}. Arguments ops_db {net}. Arguments ops_get_account {net}.
Arguments ops_list_unspent {net}. Arguments ops_now {net}. Arguments ops_epoch {net}.
Arguments ops_indexer {net}.

(** [SELECT state, COUNT( * ) .. GROUP BY state], in the order of the names. *)
Definition counts {S} (states : list S) (as_str : S -> str) (occurs : S -> nat) : list (str * Z) :=
  filter (fun sn => sn.2 <> 0) ((fun s => (as_str s, Z.of_nat (occurs s))) <$> states).
Definition deposit_counts_by_state (db : DepositDb.Db) : list (str * Z) :=
  counts [DepositDb.Candidate; DepositDb.Confirming; DepositDb.Failed; DepositDb.IntegrityHalted;
          DepositDb.Minted; DepositDb.Orphaned; DepositDb.ReadyForSignature; DepositDb.Submitted]
    DepositDb.as_str (fun s => length (candidates_by_state db s)).
Definition withdrawal_counts_by_state (d : Tables) : list (str * Z) :=
  counts [AwaitingFunds; WithdrawalDb.Broadcast; Building; WithdrawalDb.Completed; WithdrawalDb.Confirming;
          WithdrawalDb.Failed; WithdrawalDb.IntegrityHalted; Observed; WithdrawalDb.Orphaned; Signing;
          Validated]
    WithdrawalDb.as_str (fun s => length (withdrawals_by_state s d)).
Definition count_of (state : str) (l : list (str * Z)) : Z :=
  match List.find (fun sn => bool_decide (sn.1 = state)) l with Some sn => sn.2 | None => 0 end.

Section collect.
Context {net : Type} (N : OpsOutside net) (C : OpsCollector).

Definition wrapped_supply_read (o : net) : net * option Z :=
  let (o, r) := ops_get_account N (oc_wrapped_mint C) o in
  (o, match r with
      | Ok (Some account) =>
          le_val <$> get_range (acc_data account) MINT_SUPPLY_OFFSET (MINT_SUPPLY_OFFSET + 8)
      | _ => None
      end).

Definition vault_balance_read (o : net) : net * option Z :=
  let (o, r) := ops_list_unspent N (oc_vault_min_confirmations C) [oc_vault_address C] o in
  (o, match r with Ok utxos => Some (wrap_u64 (sumZ o_amount utxos)) | Err _ => None end).

(** One query of the database. *)
Definition query {A} (f : DepositDb.Db * Tables -> A) (o : net) : net * option A :=
  let (o, r) := ops_db N o in
  (o, match r with Ok db => Some (f db) | Err _ => None end).

Definition summary_of (o : net) : net * option IndexerSummary :=
  if oc_has_indexer C then
    let (o, t) := ops_now N o in
    let s := ops_indexer N o in
    (o, Some {| s_halted := halted s; s_halted_depth := halted_depth s;
                s_seconds_since_tick := seconds_since_tick t s; s_deepest_reorg := deepest_reorg s;
                s_max_reorg_depth := max_reorg_depth s |})
  else (o, None).

Definition state_lines (metric title : str) (l : list (str * Z)) : str :=
  line (lit "# HELP " ++ metric ++ lit " " ++ title) ++
  line (lit "# TYPE " ++ metric ++ lit " gauge") ++
  concat ((fun sn => line (metric ++ lit "{state=" ++ quote ++ sn.1 ++ quote ++ lit "} " ++ display sn.2)) <$> l).

(** [snapshot_from_db] while the database may change between its queries. *)
Definition snapshot (supply : Z) (balance : option Z) (o : net) : net * option SolvencySnapshot :=
  let (o, deposits) := query (fun db => minted_deposit_total db.1) o in
  match deposits with None => (o, None) | Some deposits =>
  let (o, payouts) := query (fun db => completed_payout_total db.2) o in
  match payouts with None => (o, None) | Some payouts =>
  let (o, fees) := query (fun db => vault_fees_paid_total db.2) o in
  match fees with None => (o, None) | Some fees =>
  (o, Some {| wrapped_supply := supply; confirmed_deposits := deposits; completed_payouts := payouts;
              vault_fees_paid := fees; vault_balance := balance |})
  end end end.

Definition collect (o : net) : net * HealthReport :=
  let (o, opened) := ops_open N o in
  if negb opened then (o, default_report) else
  let (o, wrapped) := wrapped_supply_read o in
  let (o, vault) := vault_balance_read o in
  let (o, snap) := snapshot (default 0 wrapped) vault o in
  match snap with
  | None => (o, default_report)
  | Some snap =>
      let (o, deposit_counts) := query (fun db => deposit_counts_by_state db.1) o in
      let (o, withdrawal_counts) := query (fun db => withdrawal_counts_by_state db.2) o in
      let withdrawal_counts := default [] withdrawal_counts in
      let (o, stats) := query (fun db => vault_utxo_stats db.2) o in
      let '(utxo_count, utxo_value) := default (0, 0) stats in
      let extra :=
        [(lit "glc_vault_utxo_count", as_f64 utxo_count,
          lit "Available vault UTXOs — a fragmentation signal");
         (lit "glc_vault_utxo_value_atomic", as_f64 utxo_value,
          lit "Total value of available vault UTXOs, atomic units");
         (lit "glc_wrapped_supply_readable", flag (bool_decide (is_Some wrapped)),
          lit "1 when the SPL mint supply could be read this scrape");
         (lit "glc_vault_balance_readable", flag (bool_decide (is_Some vault)),
          lit "1 when the vault balance could be read this scrape")] in
      let (o, t) := ops_now N o in
      let fresh := is_fresh_at (ops_epoch N o) t in
      let (o, indexer) := summary_of o in
      let report :=
        build_report snap (count_of (lit "IntegrityHalted") (default [] deposit_counts))
          (count_of (lit "IntegrityHalted") withdrawal_counts) fresh indexer extra in
      let (o, deposit_counts) := query (fun db => deposit_counts_by_state db.1) o in
      (o, {| invariants := invariants report;
             metrics := metrics report ++
               state_lines (lit "glc_deposits_by_state") (lit "Deposits in each lifecycle state")
                 (default [] deposit_counts) ++
               state_lines (lit "glc_withdrawals_by_state") (lit "Withdrawals in each lifecycle state")
                 withdrawal_counts |})
  end.

(** ** The endpoint *)

Record HttpResponse := { code : Z; content_type : str; body : str }.

(** [handle]: the answer to a path. *)
Definition handle (path : str) (o : net) : net * HttpResponse :=
  if bool_decide (path = lit "/health") then
    let (o, r) := collect o in
    (o, {| code := status r; content_type := lit "text/plain; charset=utf-8"; body := text r |})
  else if bool_decide (path = lit "/metrics") then
    let (o, r) := collect o in
    (o, {| code := 200; content_type := lit "text/plain; version=0.0.4; charset=utf-8"; body := metrics r |})
  else
    (o, {| code := 404; content_type := lit "text/plain; charset=utf-8"; body := line (lit "not found") |}).
End collect.
