(* ===== verification/Loops.v ===== *)
(** * The relayer's loops: [relayer/src/main.rs]

    One turn of each of the four service loops, between two sleeps: what it
    does with the result of a tick, and whether the loop (and with it the
    process) exits.  Waiting and the shutdown channel are I/O. *)
From Stdlib Require Import ZArith Lia Strings.Byte.
From stdpp Require Import base numbers strings gmap list.
From S2P Require Import Epoch Executor WithdrawalDb Completion Orchestrator.
From S2P Require Import Prelude State Hex Rpc Deposit DepositDb Indexer IndexerProps SolanaRpc Daemon Metrics Solvency Health.

(** How a turn ends: the loop sleeps for so many milliseconds, returns the
    error that ends the process, or its task unwinds from a panic, which ends
    the process too. *)
Inductive Next := Sleep (millis : Z) | Exit (e : DbError) | Unwind.

(** [run_orchestrator_loop] *)
Definition orchestrator_turn (poll_interval : Z) (r : result OrchestratorError Orchestrator.TickReport) : Next :=
  match r with
  | Ok _ => Sleep poll_interval
  | Err (Orchestrator.NodeUnavailable _) => Sleep poll_interval
  | Err (Orchestrator.DbFailed e) => Exit e
  | Err _ => Sleep poll_interval
  end.

(** [run_completion_loop] *)
Definition completion_turn (poll_interval : Z) (r : result CompletionError CompletionReport) : Next :=
  match r with
  | Ok _ => Sleep poll_interval
  | Err (Completion.DbFailed e) => Exit e
  | Err CompletionPanic => Unwind
  | Err _ => Sleep poll_interval
  end.

(** [run_withdrawal_loop] *)
Definition withdrawal_turn (poll_interval : Z) (r : result WithdrawalTickError unit) : Next :=
  match r with
  | Ok _ => Sleep poll_interval
  | Err (ExecutorFailed (Executor.DbFailed e)) => Exit e
  | Err (ExecutorFailed ExecutorPanic) => Unwind
  | Err _ => Sleep poll_interval
  end.

(** ** [run_indexer_loop] *)

Section indexer.
Context `{G : GoldcoinRpc, Sh : Sha2} (config : IndexerConfig) (poll_interval unavailable_interval : Z).

Definition indexer_turn (w : Indexer.World) (s : IndexerStatus) : Indexer.World * IndexerStatus * Next :=
  match Indexer.tick config w with
  | (w, Ok (Progressed blocks reorg)) =>
      let (n, t) := Indexer.now_unix (w_node w) in
      let w := {| w_node := n; Indexer.w_db := Indexer.w_db w; Indexer.halted := Indexer.halted w |} in
      let s := record_tick t s in
      (w, match reorg with
          | Some r => record_reorg (rs_old_tip_height r - rs_fork_height r) s
          | None => s
          end, Sleep poll_interval)
  | (w, Ok (Halted attempted_depth)) => (w, record_halt attempted_depth s, Sleep 3600000)
  | (w, Err (Indexer.NodeUnavailable e)) => (w, s, Sleep unavailable_interval)
  | (w, Err (Indexer.DbFailed e)) => (w, s, Exit e)
  | (w, Err IndexerPanic) => (w, s, Unwind)
  | (w, Err _) => (w, s, Sleep poll_interval)
  end.

(** The turns of a process; between two turns the node and the other tasks
    change their own state. *)
Inductive turns : Indexer.World * IndexerStatus -> Indexer.World * IndexerStatus -> Prop :=
| turn_indexer w s : turns (w, s) (indexer_turn w s).1
| turn_outside w s n db :
    turns (w, s) ({| w_node := n; Indexer.w_db := db; Indexer.halted := Indexer.halted w |}, s).

Lemma halted_turn w s :
  Indexer.halted w = true ->
  indexer_turn w s = (w, record_halt (Indexer.max_reorg_depth config + 1) s, Sleep 3600000).
Proof. intros Hh. unfold indexer_turn, tick, is_halted, mbind, M_bind. by rewrite Hh. Qed.

Lemma halting_tick w w' depth : Indexer.tick config w = (w', Ok (Halted depth)) -> Indexer.halted w' = true.
Proof.
  unfold tick. intros (w1 & h & Hh & H)%bind_run. unfold is_halted in Hh. injection Hh as <- <-.
  destruct (Indexer.halted w) eqn:Eh; [unfold mret, Indexer.M_ret in H; by simplify_eq|].
  apply bind_run in H as (w2 & tip & _ & H). apply bind_run in H as (w3 & start & _ & H).
  destruct start as [[start reorg]|].
  - do 3 apply bind_run in H as (? & ? & _ & H). discriminate H.
  - apply bind_run in H as (w4 & [] & Hs & H). unfold set_halted in Hs. unfold mret, Indexer.M_ret in H. by simplify_eq.
Qed.

Lemma halted_turns w s w' s' :
  star turns (w, s) (w', s') -> Indexer.halted w = true -> halted s = true ->
  Indexer.halted w' = true /\ halted s' = true.
Proof.
  intros H. remember (w, s) as a eqn:Ea. remember (w', s') as b eqn:Eb. revert w s w' s' Ea Eb.
  induction H as [a|a b c _ IH Hstep]; intros w s w' s' -> Hc Hw Hs; [by simplify_eq|].
  inversion Hstep as [w1 s1 Hb E|w1 s1 n db Hb E]; subst.
  - destruct (IH w s w1 s1 eq_refl eq_refl Hw Hs) as [H1 H2]. rewrite halted_turn in E by done. cbn in E. by simplify_eq.
  - destruct (IH w s w1 s1 eq_refl eq_refl Hw Hs) as [H1 H2]. by simplify_eq.
Qed.

(** ** What the scrapes say *)

Lemma report_unhealthy r i : i ∈ invariants r -> healthy i = false -> status r = 503.
Proof.
  intros Hi Hf. unfold status, report_healthy.
  assert (forallb healthy (invariants r) = false) as ->; [|by rewrite andb_false_r].
  apply not_true_is_false. rewrite forallb_forall. intros H. apply list_elem_of_In in Hi.
  specialize (H i Hi). congruence.
Qed.

(** C26: Once the indexer has halted on a reorganisation deeper than its bound, it stays
    halted: every later turn of its loop, however many, changes nothing but the recorded
    depth, and as long as the process runs the health endpoint that reads its status
    answers 503, whatever the databases and the nodes say. *)
Theorem halted_indexer_is_reported w s w' s' {net} (N : OpsOutside net) C o :
  match (Indexer.tick config w).2 with Ok (Halted _) => True | _ => False end ->
  star turns (indexer_turn w s).1 (w', s') ->
  oc_has_indexer C = true -> (forall o, ops_indexer N o = s') ->
  indexer_turn w' s' = (w', record_halt (Indexer.max_reorg_depth config + 1) s', Sleep 3600000) /\
  code (handle N C (lit "/health") o).2 = 503.
Proof.
  intros Ht Hturns Hix Hs'. unfold indexer_turn in Hturns at 1.
  destruct (Indexer.tick config w) as [w1 [[|depth]|]] eqn:Et; cbn in Ht; try done.
  apply halting_tick in Et. cbn [fst] in Hturns.
  destruct (halted_turns _ _ _ _ Hturns Et eq_refl) as [Hw Hh]. split; [by apply halted_turn|].
  unfold handle. rewrite bool_decide_true by done.
  destruct (collect N C o) as [o1 r] eqn:Ec. cbn [snd code].
  revert Ec. unfold collect. destruct (ops_open N o) as [o2 []]; cbn [negb]; [|by intros [= <- <-]].
  destruct (wrapped_supply_read N C o2) as [o3 wrapped]. destruct (vault_balance_read N C o3) as [o4 vault].
  destruct (snapshot N _ vault o4) as [o5 [snap|]]; [|by intros [= <- <-]].
  destruct (query N _ o5) as [o6 dc]. destruct (query N _ o6) as [o7 wc]. destruct (query N _ o7) as [o8 stats].
  destruct (default (0, 0) stats) as [uc uv]. destruct (ops_now N o8) as [o9 t].
  unfold summary_of. rewrite Hix. destruct (ops_now N o9) as [o10 t2]. cbv zeta. rewrite Hs'.
  destruct (query N _ o10) as [o11 dc2]. intros [= <- <-].
  eapply report_unhealthy; [cbn [invariants]; right; apply elem_of_app; right; do 2 right; by left|].
  cbn. by rewrite Hh.
Qed.
End indexer.
