(* ===== verification/HealthProps.v ===== *)
(** * What a scrape says

    When the endpoint answers 200, and two ways in which it says what it has
    not measured: an unreadable supply reads as solvent, and a payout on its
    way reads as a vault that lost money.  Concrete scrapes at the end. *)
From Stdlib Require Import ZArith Lia Strings.Byte.
From stdpp Require Import base numbers strings gmap list.
From S2P Require Import Executor ExecutorScenario Multisig Vault.
From S2P Require Import Coin Rpc Epoch WithdrawalDb.
From S2P Require Import Prelude State Token Program Invariants Safety Scenario Hex DepositDb.
From S2P Require Import MintScenario.
From S2P Require Import Accounts SolanaRpc Indexer IndexerProps Metrics Solvency Health Loops.

Lemma vault_healthy s :
  0 <= vault_fees_paid s ->
  forallb healthy (vault_invariant s) = true <->
  forall bal, vault_balance s = Some bal -> backing_bound s - bal <= vault_fees_paid s.
Proof.
  intros Hf. unfold vault_invariant, unexplained_drift_atomic, fee_drift_atomic, saturating_sub.
  destruct (vault_balance s) as [bal|]; cbn; [|done]. rewrite andb_true_r, Z.eqb_eq. split.
  - intros H bal' [= <-]. lia.
  - intros H. specialize (H bal eq_refl). lia.
Qed.

(** Health is 200 exactly when. *)
Theorem health_is_200_exactly_when s deposits withdrawals fresh indexer extra :
  0 <= vault_fees_paid s ->
  status (build_report s deposits withdrawals fresh indexer extra) = 200 <->
  wrapped_supply s <= backing_bound s /\
  (forall bal, vault_balance s = Some bal -> backing_bound s - bal <= vault_fees_paid s) /\
  wrap_u64 (deposits + withdrawals) = 0 /\ fresh = true /\
  (forall i, indexer = Some i -> s_halted i = false).
Proof.
  intros Hfees. unfold status, report_healthy, build_report. cbn [invariants].
  rewrite !length_app, bool_decide_false by (cbn; lia). cbn [negb andb].
  rewrite !forallb_app. cbn [forallb healthy solvency_invariant halts_invariant epoch_invariant].
  unfold invariant_holds.
  assert (forall b : bool, (if b then 200 else 503) = 200 <-> b = true) as -> by (by intros []).
  rewrite !andb_true_r, !andb_true_iff, Z.leb_le, Z.eqb_eq, vault_healthy by done.
  assert (forallb healthy (option_list (indexer_invariant <$> indexer)) = true <->
          forall i, indexer = Some i -> s_halted i = false) as ->; [|tauto].
  destruct indexer as [i|]; cbn.
  - rewrite andb_true_r, negb_true_iff. split; [by intros H j [= <-]|by intros H; apply H].
  - split; [intros _ j [=]|done].
Qed.

(** Unreadable supply is reported solvent. *)
Theorem unreadable_supply_is_reported_solvent {net} (N : OpsOutside net) C o :
  (forall o', (wrapped_supply_read N C o').2 = None) ->
  let r := (collect N C o).2 in
  r = default_report \/
  exists i rest, invariants r = i :: rest /\ name i = lit "solvency" /\ healthy i = true.
Proof.
  intros Hnone. unfold collect. destruct (ops_open N o) as [o2 []]; cbn [negb]; [|by left].
  destruct (wrapped_supply_read N C o2) as [o3 wrapped] eqn:Ew.
  pose proof (Hnone o2) as H. rewrite Ew in H. cbn in H. subst wrapped.
  destruct (vault_balance_read N C o3) as [o4 vault].
  destruct (snapshot N _ vault o4) as [o5 [snap|]] eqn:Es; [|by left].
  assert (wrapped_supply snap = 0) as Hz.
  { revert Es. unfold snapshot. repeat (destruct (query N _ _) as [? [?|]]; [|done]). by intros [= <- <-]. }
  destruct (query N _ o5) as [o6 dc]. destruct (query N _ o6) as [o7 wc]. destruct (query N _ o7) as [o8 stats].
  destruct (default (0, 0) stats) as [uc uv]. destruct (ops_now N o8) as [o9 t].
  destruct (summary_of N C o9) as [o10 ix]. destruct (query N _ o10) as [o11 dc2]. cbv zeta. cbn [snd].
  right. eexists _, _. split; [unfold build_report; cbn; reflexivity|]. split; [done|].
  cbn. unfold invariant_holds, backing_bound, saturating_sub. rewrite Hz. apply Z.leb_le. lia.
Qed.

(** * Scrapes of a running bridge

    The reports around one withdrawal, of an operator whose supply can not be
    read, and of a relayer that has not yet recorded a mint. *)

#[local] Existing Instance toy_sha2.
#[local] Existing Instance toy_ripemd.
#[local] Existing Instance toy_secp.

(** ** Around a payout *)

(** One deposit of a million, minted; the vault holds it in one output. *)
Definition row_in (s : DepositState) (amount : Z) : DepositRow :=
  {| id := 1; txid := demo_txid; txid_hex := Hex.encode demo_txid; vout := 0; amount_atomic := amount;
     recipient := demo_user; block_height := 1; block_hash := replicate 32 x02; raw_tx_hex := [];
     state := s; discovered_at := 900; ready_at := Some 950; failure_reason := None;
     submitted_signature := None |}.
Definition deposits (s : DepositState) (amount : Z) : DepositDb.Db := with_rows empty_db [row_in s amount] 2.

Definition scraped (d : Tables) (supply balance : Z) : HealthReport :=
  build_report (snapshot_from_db (deposits Minted 1000000) d supply (Some balance)) 0 0 true None [].

Definition paid : Tables := demo_tick 1100 requested.
Definition settled : Tables := demo_tick 2100 paid.

(** 50000 of it are burned.  Before the payout is sent and after it is
    complete the report is healthy; in between, while the vault's output is
    spent and its change is not yet confirmed, the endpoint answers 503. *)
Example payout_on_its_way_reads_as_a_loss :
  status (scraped requested 950000 1000000) = 200 /\
  state_of paid = Some WithdrawalDb.Confirming /\ status (scraped paid 950000 0) = 503 /\
  name <$> filter (fun i => healthy i = false) (invariants (scraped paid 950000 0)) = [lit "vault_reconciliation"] /\
  state_of settled = Some WithdrawalDb.Completed /\
  status (scraped settled 950000 (1000000 - 50000 - vault_fees_paid_total settled)) = 200.
Proof. vm_compute. by split_and!. Qed.

(** ** Mints *)

Definition minted_b : Bridge := demo_state 5.

(** A mint whose row is not yet Minted is a breach of its whole amount. *)
Example mint_before_its_row_reads_as_insolvent :
  let s := snapshot_from_db (deposits DepositDb.Submitted 500) empty_tables 500 None in
  invariant_holds s = false /\ breach_atomic s = 500.
Proof. vm_compute. by split. Qed.

Lemma caught_up_relayer_raises_no_alarm_witness :
  invariant_holds (snapshot_from_db (deposits Minted 500) empty_tables
    (default 0 (mint_supply (tokens minted_b) demo_mint)) None) = true.
Proof.
  assert (mint_supply (tokens minted_b) demo_mint = Some (default 0 (mint_supply (tokens minted_b) demo_mint))) as Hs
    by (vm_compute; reflexivity).
  destruct (caught_up_relayer_raises_no_alarm (demo_labels 5) minted_b (set_withdrawal_count demo_config_2 1)
              (default 0 (mint_supply (tokens minted_b) demo_mint)) (deposits Minted 500) empty_tables None) as (H & _).
  - apply demo_reachable. lia.
  - vm_compute. reflexivity.
  - done.
  - exact Hs.
  - constructor.
    + intros o c Ho. apply elem_of_map_to_list in Ho.
      assert ((o, claim_amount c) ∈ ((fun oc => (oc.1, claim_amount oc.2)) <$> map_to_list (deposit_claims minted_b))) as Hin
        by exact (list_elem_of_fmap_2 _ _ _ Ho).
      assert (((fun oc => (oc.1, claim_amount oc.2)) <$> map_to_list (deposit_claims minted_b)) = [((demo_txid, 0), 500)]) as E
        by (vm_compute; reflexivity).
      rewrite E in Hin. apply list_elem_of_singleton in Hin. injection Hin as -> Ha.
      exists (row_in Minted 500). split; [left|]. split; [reflexivity|]. by rewrite Ha.
    + vm_compute. repeat constructor. discriminate.
    + vm_compute. reflexivity.
  - intros i p w Hp. cbn in Hp. rewrite lookup_empty in Hp. discriminate Hp.
  - exact H.
Defined.

(** ** A halted indexer *)

(** A scrape while neither node answers. *)
Definition demo_outside (s : IndexerStatus) : OpsOutside Z :=
  {| ops_open o := (o, true); ops_db o := (o, Ok (deposits Minted 500, empty_tables));
     ops_get_account _ o := (o, Err (Accounts.Transport (lit "connection refused")));
     ops_list_unspent _ _ o := (o, Err (Rpc.Transport (lit "connection refused"))); ops_now o := (o, o);
     ops_epoch o := {| Epoch.epoch := 1; Epoch.observed_at := o |}; ops_indexer _ := s |}.
Definition demo_ops : OpsCollector :=
  {| oc_wrapped_mint := demo_mint; oc_vault_address := lit "vault"; oc_vault_min_confirmations := 6;
     oc_has_indexer := true |}.

Definition halted_world : Indexer.World := {| w_node := tt; Indexer.w_db := empty_db; Indexer.halted := true |}.

Lemma halted_indexer_is_reported_witness :
  code (handle (demo_outside (record_halt 7 (new_status 1000))) demo_ops (lit "/health") 2000).2 = 503.
Proof.
  destruct (halted_indexer_is_reported demo_config 1000 5000 halted_world (new_status 1000) halted_world
              (record_halt 7 (new_status 1000)) (demo_outside (record_halt 7 (new_status 1000))) demo_ops 2000)
    as (_ & H).
  - exact I.
  - assert ((indexer_turn demo_config 1000 5000 halted_world (new_status 1000)).1 =
            (halted_world, record_halt 7 (new_status 1000))) as -> by reflexivity. constructor.
  - reflexivity.
  - intros o. reflexivity.
  - exact H.
Defined.

Lemma health_is_200_exactly_when_witness :
  status (scraped requested 950000 1000000) = 200.
Proof.
  apply (health_is_200_exactly_when (snapshot_from_db (deposits Minted 1000000) requested 950000 (Some 1000000)) 0 0 true None []).
  - vm_compute. discriminate.
  - split_and!; try reflexivity.
    + vm_compute. discriminate.
    + intros bal [= <-]. vm_compute. discriminate.
    + intros i [=].
Defined.

(** The node does not answer: solvency is reported all the same. *)
Lemma unreadable_supply_is_reported_solvent_witness :
  exists i rest, invariants (collect (demo_outside (new_status 1000)) demo_ops 1010).2 = i :: rest /\
    name i = lit "solvency" /\ healthy i = true.
Proof.
  destruct (unreadable_supply_is_reported_solvent (demo_outside (new_status 1000)) demo_ops 1010) as [H|H].
  - intros o. reflexivity.
  - exfalso. assert (length (invariants (collect (demo_outside (new_status 1000)) demo_ops 1010).2) = 4%nat) as Hl
      by (vm_compute; reflexivity). rewrite H in Hl. discriminate Hl.
  - exact H.
Defined.

(** The endpoint answers 200. *)
Example unreadable_supply_text :
  take 48 (text (collect (demo_outside (new_status 1000)) demo_ops 1010).2) =
  lit "OK   solvency: wrapped 0 <= deposits-payouts 500" /\
  code (handle (demo_outside (new_status 1000)) demo_ops (lit "/health") 1010).2 = 200.
Proof. vm_compute. split; reflexivity. Qed.
