(* ===== verification/Configuration.v ===== *)
(** * Configuration from the environment: [relayer/src/main.rs],
    [glc/config.rs], [solana/config.rs], [bin/signer-server.rs]

    The environment is a function from names to values.  [startup] is the
    part of [main] that reads and checks it before any service starts;
    opening the database, the key files and the TLS material are I/O. *)
From Stdlib Require Import ZArith Lia Strings.Byte.
From stdpp Require Import base numbers strings gmap list.
From S2P Require Import PayoutView SweepView SignerService CompletionView.
From S2P Require Import Rpc NodeClient Epoch Effects Accounts SolanaInstruction.
From S2P Require Import Address Vault Multisig WithdrawalConfig Assignment.
From S2P Require Import Prelude Hex Text State Indexer SolanaRpc Identity Aggregation Collector Federation.

Abbreviation Env := (str -> option str).

(** ** [glc/config.rs] *)

Definition P2PKH_SCRIPT_LEN : nat := 25.

Inductive ConfigError :=
| Empty (field : str)
| InvalidHex (field : str) (reason : HexError)
| WrongLength (field : str) (expected actual : nat)
| NotP2pkh
| ZeroConfirmationDepth
| ReorgDepthTooSmall (max_reorg_depth confirmation_depth : Z)
| RollingWindowMisconfigured
| ConfigPanic.

Definition decode_hex_exact (N : nat) (field s : str) : result ConfigError (list byte) :=
  require (negb (bool_decide (s = []))) (Empty field) ;;*
  map_err (fun f => match f with
                    | HexErr (Hex.WrongLength _ expected actual) => WrongLength field expected actual
                    | HexErr e => InvalidHex field e
                    | Panicked => ConfigPanic
                    end) (decode_exact N s).

Record RpcConfig := {
  rpc_url : str; rpc_user : str; rpc_password : str; connect_timeout_ms : Z; read_timeout_ms : Z
}.

Record RawIndexerConfig := {
  ri_rpc : RpcConfig; ri_db_path : str; ri_vault_script_pubkey_hex : str; ri_confirmation_depth : Z;
  ri_max_reorg_depth : Z; ri_min_deposit_atomic : Z; ri_value_caps : ValueCaps; ri_protocol_version : Z;
  ri_program_id_hex : str; ri_validator_epoch : Z; ri_wrapped_mint_hex : str;
  ri_node_unavailable_retry_interval_ms : Z; ri_poll_interval_ms : Z
}.

(** The whole [IndexerConfig]; [ic_indexer] is what the tick reads of it. *)
Record FullIndexerConfig := {
  ic_rpc : RpcConfig; ic_db_path : str; ic_indexer : IndexerConfig;
  ic_node_unavailable_retry_interval_ms : Z; ic_poll_interval_ms : Z
}.

Definition is_p2pkh (script : list byte) : bool :=
  bool_decide (take 3 script = [x76; xa9; x14] /\ drop 23 script = [x88; xac]).

Definition validate_indexer (raw : RawIndexerConfig) : result ConfigError FullIndexerConfig :=
  require (negb (bool_decide (rpc_url (ri_rpc raw) = []))) (Empty (lit "rpc.url")) ;;*
  require (negb (bool_decide (rpc_user (ri_rpc raw) = []))) (Empty (lit "rpc.user")) ;;*
  require (negb (bool_decide (rpc_password (ri_rpc raw) = []))) (Empty (lit "rpc.password")) ;;*
  let* script := decode_hex_exact P2PKH_SCRIPT_LEN (lit "vault_script_pubkey_hex")
                   (ri_vault_script_pubkey_hex raw) in
  require (is_p2pkh script) NotP2pkh ;;*
  require (negb (ri_confirmation_depth raw =? 0)) ZeroConfirmationDepth ;;*
  require (negb (ri_max_reorg_depth raw <? ri_confirmation_depth raw))
    (ReorgDepthTooSmall (ri_max_reorg_depth raw) (ri_confirmation_depth raw)) ;;*
  require (match rolling_window (ri_value_caps raw) with
           | Some w => negb (window_seconds w =? 0) | None => true end) RollingWindowMisconfigured ;;*
  let* program_id := decode_hex_exact 32 (lit "program_id_hex") (ri_program_id_hex raw) in
  let* wrapped_mint := decode_hex_exact 32 (lit "wrapped_mint_hex") (ri_wrapped_mint_hex raw) in
  Ok {| ic_rpc := ri_rpc raw; ic_db_path := ri_db_path raw;
        ic_indexer :=
          {| cfg_vault_script_pubkey := script; Indexer.confirmation_depth := ri_confirmation_depth raw;
             max_reorg_depth := ri_max_reorg_depth raw; min_deposit_atomic := ri_min_deposit_atomic raw;
             value_caps := ri_value_caps raw; cfg_protocol_version := ri_protocol_version raw;
             cfg_program_id := program_id; cfg_validator_epoch := ri_validator_epoch raw;
             cfg_wrapped_mint := wrapped_mint |};
        ic_node_unavailable_retry_interval_ms := ri_node_unavailable_retry_interval_ms raw;
        ic_poll_interval_ms := ri_poll_interval_ms raw |}.

(** ** [solana/config.rs] *)

Inductive SolanaConfigError :=
| EmptySolana (field : str)
| InvalidPubkey (field reason : str)
| InvalidCommitment (s : str).

Record RawSolanaConfig := {
  rs_rpc_url : str; rs_program_id : str; rs_submitter_keypair_path : str; rs_commitment : str;
  rs_poll_interval_ms : Z
}.
Record SolanaConfig := {
  sc_rpc_url : str; sc_program_id : Pubkey; sc_submitter_keypair_path : str;
  sc_commitment : CommitmentLevel; sc_poll_interval_ms : Z
}.

Definition parse_commitment (s : str) : result SolanaConfigError CommitmentLevel :=
  if bool_decide (s = lit "processed") then Ok Processed
  else if bool_decide (s = lit "confirmed") then Ok Confirmed
  else if bool_decide (s = lit "finalized") then Ok Finalized
  else Err (InvalidCommitment s).

Section solana.
Context `{K : PubkeyText}.

Definition validate_solana (raw : RawSolanaConfig) : result SolanaConfigError SolanaConfig :=
  require (negb (bool_decide (rs_rpc_url raw = []))) (EmptySolana (lit "rpc_url")) ;;*
  let* program_id := map_err (InvalidPubkey (lit "program_id")) (pubkey_from_str (rs_program_id raw)) in
  let* commitment := parse_commitment (rs_commitment raw) in
  Ok {| sc_rpc_url := rs_rpc_url raw; sc_program_id := program_id;
        sc_submitter_keypair_path := rs_submitter_keypair_path raw; sc_commitment := commitment;
        sc_poll_interval_ms := rs_poll_interval_ms raw |}.
End solana.

(** ** The variables, in the order [main.rs] reads them *)

Inductive StartupError :=
| VariableNotSet (name : str)
| NotANumber (name : str)
| NotSetTogether
| BadIndexerConfig (e : ConfigError)
| BadSolanaConfig (e : SolanaConfigError)
| BadWithdrawalConfig (e : WithdrawalConfigError)
| BadRelayerIdentity (reason : str)
| BadCollector (e : CollectorSetup)
| BadSignerMap (e : VaultSignerMapError)
| OwnIdentityAmongPeers
| NotInSignerMap
| BadAssignment (e : AssignmentError).

Section variables.
Context (env : Env).

Definition required (name : String.string) : result StartupError str :=
  map_err VariableNotSet (env_required env (lit name)).
(** [v.parse()] at the width of [max] *)
Definition number (max : Z) (name : String.string) (v : str) : result StartupError Z :=
  ok_or (parse_unsigned max v) (NotANumber (lit name)).
Definition env_optional_u64 (name : String.string) (default : Z) : result StartupError Z :=
  match env (lit name) with Some v => number U64_MAX name v | None => Ok default end.
Definition env_required_u64 (name : String.string) : result StartupError Z :=
  let* v := required name in number U64_MAX name v.
Definition env_required_u32 (name : String.string) : result StartupError Z :=
  let* v := required name in number U32_MAX name v.

Definition caps_from_env : result StartupError ValueCaps :=
  let* max_deposit := match env (lit "GLC_MAX_DEPOSIT_ATOMIC") with
    | Some v => let* n := number U64_MAX "GLC_MAX_DEPOSIT_ATOMIC" v in Ok (Some n)
    | None => Ok None end in
  let* window := match env (lit "GLC_ROLLING_WINDOW_SECONDS"), env (lit "GLC_ROLLING_WINDOW_CAP_ATOMIC") with
    | Some w, Some c =>
        let* w := number U64_MAX "GLC_ROLLING_WINDOW_SECONDS" w in
        let* c := number U64_MAX "GLC_ROLLING_WINDOW_CAP_ATOMIC" c in
        Ok (Some {| window_seconds := w; cap_atomic := c |})
    | None, None => Ok None
    | _, _ => Err NotSetTogether end in
  Ok {| max_deposit_atomic := max_deposit; rolling_window := window |}.

Definition config_from_env : result StartupError FullIndexerConfig :=
  let* caps := caps_from_env in
  let* url := required "GLC_RPC_URL" in
  let* user := required "GLC_RPC_USER" in
  let* password := required "GLC_RPC_PASSWORD" in
  let* connect := env_optional_u64 "GLC_RPC_CONNECT_TIMEOUT_MS" 5000 in
  let* read := env_optional_u64 "GLC_RPC_READ_TIMEOUT_MS" 30000 in
  let* db_path := required "GLC_DB_PATH" in
  let* script := required "GLC_VAULT_SCRIPT_PUBKEY_HEX" in
  let* depth := env_required_u32 "GLC_CONFIRMATION_DEPTH" in
  let* max_reorg := env_required_u32 "GLC_MAX_REORG_DEPTH" in
  let* min_deposit := env_optional_u64 "GLC_MIN_DEPOSIT_ATOMIC" 0 in
  let* version := required "GLC_PROTOCOL_VERSION" in
  let* version := number U8_MAX "GLC_PROTOCOL_VERSION" version in
  let* program := required "GLC_PROGRAM_ID_HEX" in
  let* epoch := env_required_u64 "GLC_VALIDATOR_EPOCH" in
  let* mint := required "GLC_WRAPPED_MINT_HEX" in
  let* retry := env_optional_u64 "GLC_NODE_UNAVAILABLE_RETRY_INTERVAL_MS" 5000 in
  let* poll := env_optional_u64 "GLC_POLL_INTERVAL_MS" 1000 in
  map_err BadIndexerConfig (validate_indexer
    {| ri_rpc := {| rpc_url := url; rpc_user := user; rpc_password := password;
                    connect_timeout_ms := connect; read_timeout_ms := read |};
       ri_db_path := db_path; ri_vault_script_pubkey_hex := script; ri_confirmation_depth := depth;
       ri_max_reorg_depth := max_reorg; ri_min_deposit_atomic := min_deposit; ri_value_caps := caps;
       ri_protocol_version := version; ri_program_id_hex := program; ri_validator_epoch := epoch;
       ri_wrapped_mint_hex := mint; ri_node_unavailable_retry_interval_ms := retry;
       ri_poll_interval_ms := poll |}).

(** [as i64] of a [u64] wraps. *)
Definition withdrawal_config_from_env `{Sh : Sha2, Rm : Ripemd160} : result StartupError WithdrawalConfig :=
  let* redeem := required "GLC_VAULT_REDEEM_SCRIPT_HEX" in
  let* address := required "GLC_VAULT_ADDRESS" in
  let* change := required "GLC_VAULT_CHANGE_ADDRESS" in
  let* rate := env_required_u64 "GLC_PAYOUT_FEE_RATE_PER_KB" in
  let* dust := env_required_u64 "GLC_PAYOUT_DUST_THRESHOLD_ATOMIC" in
  let* minconf := env_required_u64 "GLC_VAULT_MIN_CONFIRMATIONS" in
  let* depth := env_required_u64 "GLC_WITHDRAWAL_CONFIRMATION_DEPTH" in
  let* max_inputs := env_required_u64 "GLC_PAYOUT_MAX_INPUTS" in
  let* timeout := env_required_u64 "GLC_PAYOUT_RESERVATION_TIMEOUT_SECS" in
  let* commitment := required "GLC_WITHDRAWAL_DISCOVERY_COMMITMENT" in
  let* poll := env_optional_u64 "GLC_WITHDRAWAL_POLL_INTERVAL_MS" 5000 in
  map_err BadWithdrawalConfig (WithdrawalConfig.validate
    {| raw_vault_redeem_script_hex := redeem; raw_vault_address := address; raw_change_address := change;
       raw_fee_rate_per_kb := rate; raw_dust_threshold_atomic := dust;
       raw_vault_min_confirmations := wrap_i64 minconf; raw_confirmation_depth := wrap_i64 depth;
       raw_max_inputs_per_payout := Z.to_nat max_inputs; raw_reservation_timeout_secs := wrap_i64 timeout;
       raw_discovery_commitment := commitment; raw_poll_interval_ms := poll |}).
End variables.

(** ** [main], up to the first service *)

Section startup.
Context `{Sh : Sha2, Rm : Ripemd160, K : PubkeyText}.
(** [Pubkey::to_string] *)
Context (pubkey_to_string : Pubkey -> str).
Context (env : Env) (read : str -> result str (list byte)).

Definition solana_config_from_env (program_id_bytes : list byte) : result StartupError SolanaConfig :=
  let* url := required env "GLC_SOLANA_RPC_URL" in
  let* path := required env "GLC_SOLANA_SUBMITTER_KEYPAIR_PATH" in
  let* commitment := required env "GLC_SOLANA_COMMITMENT" in
  let* poll := env_optional_u64 env "GLC_SOLANA_POLL_INTERVAL_MS" 2000 in
  map_err BadSolanaConfig (validate_solana
    {| rs_rpc_url := url; rs_program_id := pubkey_to_string program_id_bytes;
       rs_submitter_keypair_path := path; rs_commitment := commitment; rs_poll_interval_ms := poll |}).

(** What the services are built from. *)
Record Startup := {
  su_indexer : FullIndexerConfig; su_solana : SolanaConfig; su_identity : Pubkey;
  su_collector : GrpcCollector; su_withdrawal : WithdrawalConfig; su_signer_map : VaultSignerMap;
  su_operator_index : Z; su_assignment : OperatorAssignment
}.

Definition startup : result StartupError Startup :=
  let* indexer := config_from_env env in
  let* solana := solana_config_from_env (cfg_program_id (ic_indexer indexer)) in
  let* identity := required env "GLC_RELAYER_VALIDATOR_PUBKEY" in
  let* identity := map_err BadRelayerIdentity (pubkey_from_str identity) in
  let* collector := map_err BadCollector (collector_from_env env read identity) in
  let* withdrawal := withdrawal_config_from_env env in
  let* raw_map := required env "GLC_VAULT_SIGNER_MAP" in
  let* signer_map := map_err BadSignerMap (parse_map raw_map (vault withdrawal)) in
  let* peers_raw := required env "GLC_FEDERATION_PEERS" in
  require (negb (peers_contain peers_raw identity)) OwnIdentityAmongPeers ;;*
  let* operator_index := ok_or (index_of signer_map identity) NotInSignerMap in
  let* build := env_optional_u64 env "GLC_PAYOUT_BUILD_TIMEOUT_SECS" 120 in
  let* submit := env_optional_u64 env "GLC_MINT_SUBMIT_TIMEOUT_SECS" 60 in
  let* assignment := map_err BadAssignment
    (Assignment.new operator_index (Z.of_nat (size (by_index signer_map))) (wrap_i64 build) (wrap_i64 submit)) in
  Ok {| su_indexer := indexer; su_solana := solana; su_identity := identity; su_collector := collector;
        su_withdrawal := withdrawal; su_signer_map := signer_map; su_operator_index := operator_index;
        su_assignment := assignment |}.
End startup.

(** ** What a started relayer may rely on *)

Record indexer_ok (c : FullIndexerConfig) : Prop := {
  io_script : length (cfg_vault_script_pubkey (ic_indexer c)) = 25%nat /\
              is_p2pkh (cfg_vault_script_pubkey (ic_indexer c)) = true;
  io_depths : 1 <= Indexer.confirmation_depth (ic_indexer c) <= max_reorg_depth (ic_indexer c);
  io_keys : length (cfg_program_id (ic_indexer c)) = 32%nat /\ length (cfg_wrapped_mint (ic_indexer c)) = 32%nat
}.

Lemma decode_hex_exact_length N field s bs : decode_hex_exact N field s = Ok bs -> length bs = N.
Proof.
  unfold decode_hex_exact, decode_exact. intros ([] & _ & H%map_err_Ok)%bind_Ok.
  res_inv. by eapply decode_loop_step.
Qed.

Lemma validate_indexer_ok raw c :
  0 <= ri_confirmation_depth raw -> validate_indexer raw = Ok c -> indexer_ok c.
Proof.
  unfold validate_indexer. intros Hd H.
  repeat match goal with
  | H : (_ ;;* _) = Ok _ |- _ => apply bind_Ok in H as ([] & ?%require_Ok & H)
  | H : mbind _ _ = Ok _ |- _ => apply bind_Ok in H as (? & ?%decode_hex_exact_length & H)
  end.
  injection H as <-. bools. constructor; cbn; [by split| |by split].
  lia.
Qed.

Lemma number_range max name v n : number max name v = Ok n -> 0 <= n <= max.
Proof. unfold number. intros H%ok_or_Ok. by eapply parse_unsigned_range. Qed.

Lemma config_from_env_ok env c : config_from_env env = Ok c -> indexer_ok c.
Proof.
  unfold config_from_env. intros H.
  repeat match type of H with
  | mbind _ _ = Ok _ => let E := fresh "E" in apply bind_Ok in H as (? & E & H)
  end.
  apply map_err_Ok in H. eapply validate_indexer_ok; [|exact H]. cbn.
  match goal with E : env_required_u32 env "GLC_CONFIRMATION_DEPTH" = Ok _ |- _ =>
    apply bind_Ok in E as (? & _ & E%number_range) end. lia.
Qed.

(** A Pay-to-PubKey-Hash output is never one of a Pay-to-Script-Hash vault. *)
Lemma p2pkh_is_not_the_vault `{Sh : Sha2, Rm : Ripemd160} script v :
  length script = P2PKH_SCRIPT_LEN -> vault_wf v -> encode script <> Vault.script_pubkey_hex v.
Proof.
  intros Hl [_ _ ->] He. apply (f_equal length) in He. unfold Vault.script_pubkey_hex in He.
  rewrite !length_app, !length_encode, Hl in He. cbn in He. unfold hash160 in He.
  rewrite length_ripemd160 in He. vm_compute in He. discriminate He.
Qed.

(** ** What a started relayer may rely on *)

Section started.
Context `{Sh : Sha2, Rm : Ripemd160, K : PubkeyText}.
Context (pubkey_to_string : Pubkey -> str) (env : Env) (read : str -> result str (list byte)).

Lemma collector_peers_wf own C :
  collector_from_env env read own = Ok C ->
  well_formed_peers (peers C) /\ own ∈ validator_pubkey <$> peers C.
Proof.
  unfold collector_from_env. intros (raw & _ & H)%bind_Ok.
  apply bind_Ok in H as (ps & Hp%map_err_Ok & H). apply bind_Ok in H as (ps' & Hl%map_err_Ok & H).
  eapply with_local_signer_wf in Hl as (Hw & Ho & _); [|by eapply parse_peers_wf].
  case_bool_decide; [by injection H as <-|]. res_inv. by subst C.
Qed.

Lemma withdrawal_from_env_wf c : withdrawal_config_from_env env = Ok c -> config_wf c.
Proof.
  unfold withdrawal_config_from_env. intros H.
  repeat match type of H with
  | mbind _ _ = Ok _ => let E := fresh "E" in apply bind_Ok in H as (? & E & H)
  end.
  apply map_err_Ok in H. by eapply validate_wf.
Qed.

Lemma total_map_size v m : total_map v m -> size (by_index m) = signer_count v.
Proof.
  intros [Hp _]. rewrite <- size_dom.
  assert (dom (by_index m) ≡ list_to_set (C := gset Z) (seqZ 0 (Z.of_nat (length (signer_pubkeys v))))) as ->.
  { intros i. rewrite elem_of_dom, Hp, elem_of_list_to_set, elem_of_seqZ. lia. }
  rewrite size_list_to_set by apply NoDup_seqZ. rewrite length_seqZ. unfold signer_count. lia.
Qed.

(** C27: Whatever the environment holds, and given that the text of a key reads back as
    the key, a relayer that passes its startup checks has a well-formed configuration: a
    P2PKH deposit script, a reorganisation bound at or above a positive depth, the
    program of its claim messages as the program it submits to, a vault that matches its
    address, a signer map that gives every vault position to one validator, its own
    identity at its operator index within the count, and distinct peers among them its
    own signer. Its deposit script is then never the script of its payout vault. *)
Theorem started_relayer_is_consistent su :
  (forall k, length k = 32%nat -> pubkey_from_str (pubkey_to_string k) = Ok k) ->
  startup pubkey_to_string env read = Ok su ->
  let I := su_indexer su in let W := su_withdrawal su in let A := su_assignment su in
  indexer_ok I /\ config_wf W /\
  sc_program_id (su_solana su) = cfg_program_id (ic_indexer I) /\
  total_map (vault W) (su_signer_map su) /\
  validator_at (su_signer_map su) (su_operator_index su) = Some (su_identity su) /\
  (Assignment.index A = su_operator_index su /\ Assignment.count A = Z.of_nat (signer_count (vault W)) /\
   0 <= Assignment.index A < Assignment.count A) /\
  (well_formed_peers (peers (su_collector su)) /\
   su_identity su ∈ validator_pubkey <$> peers (su_collector su)) /\
  encode (cfg_vault_script_pubkey (ic_indexer I)) <> Vault.script_pubkey_hex (vault W).
Proof.
  intros Hk H. unfold startup in H.
  apply bind_Ok in H as (ic & Hi%config_from_env_ok & H).
  apply bind_Ok in H as (sc & Hs & H).
  apply bind_Ok in H as (? & _ & H). apply bind_Ok in H as (own & _ & H).
  apply bind_Ok in H as (C & Hc%map_err_Ok%collector_peers_wf & H).
  apply bind_Ok in H as (W & Hw%withdrawal_from_env_wf & H).
  apply bind_Ok in H as (? & _ & H).
  apply bind_Ok in H as (m & Hm%map_err_Ok & H).
  apply parse_map_total in Hm.
  apply bind_Ok in H as (? & _ & H). apply bind_Ok in H as ([] & _ & H).
  apply bind_Ok in H as (i & Hix%ok_or_Ok & H).
  apply bind_Ok in H as (? & _ & H). apply bind_Ok in H as (? & _ & H).
  apply bind_Ok in H as (A & Ha%map_err_Ok & [= <-]). cbn.
  apply (index_of_iff _ _ _ _ Hm) in Hix.
  assert (0 <= i < Z.of_nat (signer_count (WithdrawalConfig.vault W))) as Hr
    by (apply Hm; by eexists).
  unfold Assignment.new in Ha. res_inv. subst A. cbn. rewrite (total_map_size _ _ Hm).
  split_and!; try done; try tauto.
  - unfold solana_config_from_env in Hs.
    repeat match type of Hs with
    | mbind _ _ = Ok _ => apply bind_Ok in Hs as (? & _ & Hs)
    end.
    apply map_err_Ok in Hs. unfold validate_solana in Hs. cbn in Hs.
    apply bind_Ok in Hs as ([] & _ & Hs). rewrite Hk in Hs by apply Hi. cbn in Hs.
    res_inv. by subst sc.
  - apply p2pkh_is_not_the_vault; [apply Hi|apply Hw].
Qed.
End started.

(** ** A configuration that starts *)

Section sample.
#[local] Existing Instance toy_sha2.
#[local] Existing Instance toy_ripemd.
#[local] Instance toy_pubkey_text : PubkeyText :=
  {| pubkey_from_str s := map_err (fun _ => lit "not a pubkey") (decode_exact 32 s) |}.

Definition identity_of (k : Z) : str := encode (replicate 32 (byte_of_Z k)).

Definition demo_env : Env := fun name =>
  match List.find (fun nv => bool_decide (nv.1 = name))
    [(lit "GLC_RPC_URL", lit "http://127.0.0.1:18332"); (lit "GLC_RPC_USER", lit "u"); (lit "GLC_RPC_PASSWORD", lit "p");
     (lit "GLC_DB_PATH", lit "bridge.db");
     (lit "GLC_VAULT_SCRIPT_PUBKEY_HEX", lit "76a914" ++ encode (replicate 20 x11) ++ lit "88ac");
     (lit "GLC_CONFIRMATION_DEPTH", lit "6"); (lit "GLC_MAX_REORG_DEPTH", lit "100"); (lit "GLC_PROTOCOL_VERSION", lit "1");
     (lit "GLC_PROGRAM_ID_HEX", identity_of 9); (lit "GLC_VALIDATOR_EPOCH", lit "1");
     (lit "GLC_WRAPPED_MINT_HEX", identity_of 8); (lit "GLC_SOLANA_RPC_URL", lit "http://127.0.0.1:8899");
     (lit "GLC_SOLANA_SUBMITTER_KEYPAIR_PATH", lit "submitter.json"); (lit "GLC_SOLANA_COMMITMENT", lit "finalized");
     (lit "GLC_RELAYER_VALIDATOR_PUBKEY", identity_of 32);
     (lit "GLC_FEDERATION_PEERS", identity_of 31 ++ lit "@a," ++ identity_of 33 ++ lit "@c");
     (lit "GLC_RELAYER_LOCAL_SIGNER_URI", lit "b"); (lit "GLC_FEDERATION_TLS", lit "off");
     (lit "GLC_VAULT_REDEEM_SCRIPT_HEX", redeem_script_hex demo_vault);
     (lit "GLC_VAULT_ADDRESS", address demo_vault); (lit "GLC_VAULT_CHANGE_ADDRESS", address demo_vault);
     (lit "GLC_PAYOUT_FEE_RATE_PER_KB", lit "1000"); (lit "GLC_PAYOUT_DUST_THRESHOLD_ATOMIC", lit "546");
     (lit "GLC_VAULT_MIN_CONFIRMATIONS", lit "1"); (lit "GLC_WITHDRAWAL_CONFIRMATION_DEPTH", lit "6");
     (lit "GLC_PAYOUT_MAX_INPUTS", lit "20"); (lit "GLC_PAYOUT_RESERVATION_TIMEOUT_SECS", lit "600");
     (lit "GLC_WITHDRAWAL_DISCOVERY_COMMITMENT", lit "finalized");
     (lit "GLC_VAULT_SIGNER_MAP",
      lit "0:" ++ identity_of 31 ++ lit ",1:" ++ identity_of 32 ++ lit ",2:" ++ identity_of 33)]
  with Some nv => Some nv.2 | None => None end.

Definition no_files (path : str) : result str (list byte) := Err path.
Definition demo_startup : result StartupError Startup := startup encode demo_env no_files.

Lemma started_relayer_is_consistent_witness :
  exists su, demo_startup = Ok su /\ indexer_ok (su_indexer su) /\ config_wf (su_withdrawal su) /\
    encode (cfg_vault_script_pubkey (ic_indexer (su_indexer su))) <>
    Vault.script_pubkey_hex (WithdrawalConfig.vault (su_withdrawal su)).
Proof.
  destruct demo_startup as [su|e] eqn:E; [|vm_compute in E; discriminate E].
  exists su. split; [done|].
  destruct (started_relayer_is_consistent encode demo_env no_files su) as (H1 & H2 & _ & _ & _ & _ & _ & H3).
  - intros k Hk. cbn. by rewrite decode_exact_encode.
  - exact E.
  - exact (conj H1 (conj H2 H3)).
Defined.
End sample.

(** * The signer's start: [relayer/src/bin/signer-server.rs]

    [main] up to the socket: the environment, the epoch read once from the
    chain, and the arms the service is given.  Opening the databases and
    serving are I/O; reading a file and parsing a socket address are
    parameters. *)
Inductive StartError :=
| NotSet (name : str)
| NotParsed (name : str)
| UnreadableKeypair (path : str)
| BadTls (e : IdentityError)
| BadProgramId (e : HexFault)
| BadCommitment (e : SolanaConfigError)
| EpochUnreadable (e : SolanaRpcError)
| NoValidatorSet
| BadConfig (e : WithdrawalConfigError)
| UnreadableKeyFile (path : str)
| WrongVaultKey (index : byte) (e : VaultError)
| EmptyNodeSettings
| IndexOutsideVault
| BadOperator (e : AssignmentError)
| SweepsWithoutVaultKey.

(** The signer's own node, given one vault key; [show] is the error's text. *)
Definition node_partial_signer {outside} `{J : SerdeJson} `{Http : !GoldcoinHttp outside, DS : !Deserialize SignResult}
    (show : RpcError -> str) (wif : str) : PartialSigner outside := fun unsigned_tx_hex prevtxs o =>
  let (o, r) := sign_raw_transaction_with_prevtxs unsigned_tx_hex prevtxs (Some [wif]) o in
  (o, match r with Ok r => Ok (sr_hex r) | Err e => Err (show e) end).

(** What the service is started with; the keys of the two arms that spend. *)
Record Started := {
  st_identity : Pubkey; st_program_id : Pubkey; st_observation : EpochObservation; st_arms : Arms;
  st_payout_wif : option str; st_sweep_wif : option str;
  st_governance_path : option str; st_sweep_path : option str
}.

Section start.
Context `{Sh : Sha2, Rm : Ripemd160, Sc : Secp256k1, Rt : SolanaRuntime} {O : Type} `{N : SolanaRpc O}.
Context (env : Env) (read : str -> result str (list byte)) (read_to_string : str -> option str)
  (read_keypair : str -> option Pubkey) (is_socket_addr : str -> bool) (now_unix : Z).

Definition require_env (name : String.string) : result StartError str := ok_or (env (lit name)) (NotSet (lit name)).
Definition parsed {A} (parse : str -> option A) (name : String.string) (v : str) : result StartError A :=
  ok_or (parse v) (NotParsed (lit name)).
Definition required_unsigned (max : Z) (name : String.string) : result StartError Z :=
  let* v := require_env name in parsed (parse_unsigned max) name v.
Definition required_i64 (name : String.string) : result StartError Z :=
  let* v := require_env name in parsed parse_i64 name v.
(** [env_optional(..).unwrap_or_else(..).parse()] *)
Definition optional_i64 (name : String.string) (default : Z) : result StartError Z :=
  match env (lit name) with Some v => parsed parse_i64 name v | None => Ok default end.

Definition signer_withdrawal_config_from_env : result StartError WithdrawalConfig :=
  let* redeem := require_env "GLC_VAULT_REDEEM_SCRIPT_HEX" in
  let* address := require_env "GLC_VAULT_ADDRESS" in
  let* change := require_env "GLC_VAULT_CHANGE_ADDRESS" in
  let* rate := required_unsigned U64_MAX "GLC_PAYOUT_FEE_RATE_PER_KB" in
  let* dust := required_unsigned U64_MAX "GLC_PAYOUT_DUST_THRESHOLD_ATOMIC" in
  let* minconf := required_i64 "GLC_VAULT_MIN_CONFIRMATIONS" in
  let* depth := required_i64 "GLC_WITHDRAWAL_CONFIRMATION_DEPTH" in
  let* max_inputs := required_unsigned U64_MAX "GLC_PAYOUT_MAX_INPUTS" in
  let* timeout := required_i64 "GLC_PAYOUT_RESERVATION_TIMEOUT_SECS" in
  let* commitment := require_env "GLC_WITHDRAWAL_DISCOVERY_COMMITMENT" in
  map_err BadConfig (WithdrawalConfig.validate
    {| raw_vault_redeem_script_hex := redeem; raw_vault_address := address; raw_change_address := change;
       raw_fee_rate_per_kb := rate; raw_dust_threshold_atomic := dust; raw_vault_min_confirmations := minconf;
       raw_confirmation_depth := depth; raw_max_inputs_per_payout := Z.to_nat max_inputs;
       raw_reservation_timeout_secs := timeout; raw_discovery_commitment := commitment;
       raw_poll_interval_ms := 5000 |}).

Definition operator_assignment_from_env : result StartError (option OperatorAssignment) :=
  match env (lit "GLC_OPERATOR_INDEX"), env (lit "GLC_OPERATOR_COUNT") with
  | Some index, Some count =>
      let* index := parsed (parse_unsigned U64_MAX) "GLC_OPERATOR_INDEX" index in
      let* count := parsed (parse_unsigned U64_MAX) "GLC_OPERATOR_COUNT" count in
      let* build := optional_i64 "GLC_PAYOUT_BUILD_TIMEOUT_SECS" 120 in
      let* submit := optional_i64 "GLC_MINT_SUBMIT_TIMEOUT_SECS" 60 in
      Some <$> map_err BadOperator (Assignment.new index count build submit)
  | _, _ => Ok None
  end.

(** Up to the client: its three settings. *)
Definition signer_goldcoin_rpc : result StartError unit :=
  let* url := require_env "GLC_SIGNER_GLC_RPC_URL" in
  let* user := require_env "GLC_SIGNER_GLC_RPC_USER" in
  let* password := require_env "GLC_SIGNER_GLC_RPC_PASSWORD" in
  require (negb (bool_decide (url = [] \/ user = [] \/ password = []))) EmptyNodeSettings.

(** The vault, this signer's position in it and the key it proves to hold. *)
Definition vault_key_from_env : result StartError (WithdrawalConfig * byte * str) :=
  let* cfg := signer_withdrawal_config_from_env in
  let* index := required_unsigned U8_MAX "GLC_SIGNER_VAULT_INDEX" in
  let index := byte_of_Z index in
  let* path := require_env "GLC_SIGNER_VAULT_KEY_PATH" in
  let* text := ok_or (read_to_string path) (UnreadableKeyFile path) in
  let wif := trim text in
  map_err (WrongVaultKey index) (require_signer_at (vault cfg) index wif) ;;*
  Ok (cfg, index, wif).

Definition payout_arm : result StartError (option (PayoutView * str)) :=
  match env (lit "GLC_VAULT_REDEEM_SCRIPT_HEX") with
  | None => Ok None
  | Some _ =>
      let* (cfg, index, wif) := vault_key_from_env in
      let* _ := signer_goldcoin_rpc in
      let* _ := require_env "GLC_DB_PATH" in
      let* view := ok_or (PayoutView.new cfg index) IndexOutsideVault in
      let* assignment := operator_assignment_from_env in
      Ok (Some (match assignment with Some a => with_assignment view a | None => view end, wif))
  end.

Definition sweep_arm : result StartError (option (SweepView * str * str)) :=
  match env (lit "GLC_SIGNER_SWEEP_APPROVALS_PATH") with
  | None => Ok None
  | Some approvals =>
      require (match env (lit "GLC_VAULT_REDEEM_SCRIPT_HEX") with Some _ => true | None => false end)
        SweepsWithoutVaultKey ;;*
      let* (cfg, index, wif) := vault_key_from_env in
      let* _ := signer_goldcoin_rpc in
      let* view := ok_or (SweepView.new cfg index) IndexOutsideVault in
      Ok (Some (view, wif, approvals))
  end.

Definition completion_arm (program_id : Pubkey) (protocol_version : Z)
  : result StartError (option (Z * list byte * Z)) :=
  match env (lit "GLC_WITHDRAWAL_CONFIRMATION_DEPTH") with
  | None => Ok None
  | Some depth =>
      let* depth := parsed parse_i64 "GLC_WITHDRAWAL_CONFIRMATION_DEPTH" depth in
      let* _ := signer_goldcoin_rpc in
      let* _ := require_env "GLC_DB_PATH" in
      Ok (Some (depth, program_id, protocol_version))
  end.

#[local] Abbreviation lift := Effects.lift.

Definition observe_epoch (program_id : Pubkey) : SE O StartError Z :=
  account ← (fun o => let (o, r) := get_account (validator_set_pda program_id).1 o in (o, map_err EpochUnreadable r));
  account ← lift (ok_or account NoValidatorSet);
  set ← lift (map_err EpochUnreadable (decode_validator_set (acc_data account)));
  mret (vs_epoch set).

Definition start : SE O StartError Started :=
  path ← lift (require_env "GLC_SIGNER_VALIDATOR_KEYPAIR_PATH");
  identity ← lift (ok_or (read_keypair path) (UnreadableKeypair path));
  listen ← lift (require_env "GLC_SIGNER_LISTEN_ADDR");
  _ ← lift (require (is_socket_addr listen) (NotParsed (lit "GLC_SIGNER_LISTEN_ADDR")));
  ca ← lift (require_env "GLC_FEDERATION_CA_CERT_PATH");
  cert ← lift (require_env "GLC_SIGNER_TLS_CERT_PATH");
  key ← lift (require_env "GLC_SIGNER_TLS_KEY_PATH");
  _ ← lift (map_err BadTls (Identity.load read {| path_ca := ca; path_cert := cert; path_key := key |}));
  program ← lift (require_env "GLC_PROGRAM_ID_HEX");
  program_id ← lift (map_err BadProgramId (decode_exact 32 program));
  commitment ← lift (require_env "GLC_SOLANA_COMMITMENT");
  _ ← lift (map_err BadCommitment (parse_commitment commitment));
  _ ← lift (require_env "GLC_SOLANA_RPC_URL");
  epoch ← observe_epoch program_id;
  _ ← lift (require_env "GLC_DB_PATH");
  protocol_version ← lift (required_unsigned U8_MAX "GLC_PROTOCOL_VERSION");
  payout ← lift payout_arm;
  completion ← lift (completion_arm program_id protocol_version);
  let governance := env (lit "GLC_SIGNER_GOVERNANCE_APPROVALS_PATH") in
  sweep ← lift sweep_arm;
  mret {| st_identity := identity; st_program_id := program_id; st_observation := seeded epoch now_unix;
          st_arms := {| arm_payout := fst <$> payout; arm_completion := completion;
                        arm_governance := (fun _ => (program_id, protocol_version)) <$> governance;
                        arm_sweep := (fun s => (s.1.1, protocol_version)) <$> sweep |};
          st_payout_wif := snd <$> payout; st_sweep_wif := (fun s => s.1.2) <$> sweep;
          st_governance_path := governance; st_sweep_path := snd <$> sweep |}.

(** ** What a started signer may rely on *)

(** [wif] is the key of this position of the vault. *)
Definition holds_key (wif : str) (v : MultisigVault) (index : byte) : Prop :=
  exists k, signer_pubkeys v !! Z.to_nat (byte_to_Z index) = Some k /\ compressed_pubkey_from_wif wif = Ok k.

Lemma required_unsigned_range max name n : required_unsigned max name = Ok n -> 0 <= n <= max.
Proof. intros (v & _ & H%ok_or_Ok)%bind_Ok. by eapply parse_unsigned_range. Qed.

Lemma validate_depth raw c :
  WithdrawalConfig.validate raw = Ok c -> WithdrawalConfig.confirmation_depth c = raw_confirmation_depth raw.
Proof.
  unfold WithdrawalConfig.validate. intros H.
  repeat match type of H with mbind _ _ = Ok _ => apply bind_Ok in H as (? & _ & H) end. by injection H as <-.
Qed.

Lemma withdrawal_config_Ok c :
  signer_withdrawal_config_from_env = Ok c ->
  config_wf c /\ exists v, env (lit "GLC_WITHDRAWAL_CONFIRMATION_DEPTH") = Some v /\
    parse_i64 v = Some (WithdrawalConfig.confirmation_depth c).
Proof.
  unfold signer_withdrawal_config_from_env. intros H.
  do 6 (apply bind_Ok in H as (? & _ & H)). apply bind_Ok in H as (depth & Hd & H).
  do 3 (apply bind_Ok in H as (? & _ & H)). apply map_err_Ok in H. split; [by eapply validate_wf|].
  apply bind_Ok in Hd as (v & Hv%ok_or_Ok & Hp%ok_or_Ok). exists v. split; [done|].
  by rewrite Hp, (validate_depth _ _ H).
Qed.

Lemma vault_key_Ok cfg index wif :
  vault_key_from_env = Ok (cfg, index, wif) ->
  signer_withdrawal_config_from_env = Ok cfg /\ holds_key wif (vault cfg) index.
Proof.
  unfold vault_key_from_env. intros (c & Hc & H)%bind_Ok. apply bind_Ok in H as (i & _ & H).
  apply bind_Ok in H as (p & _ & H). apply bind_Ok in H as (t & _ & H).
  apply bind_Ok in H as ([] & Hr%map_err_Ok & [= <- <- <-]). split; [done|].
  unfold require_signer_at in Hr. apply bind_Ok in Hr as (k & Hk%ok_or_Ok & Hr).
  apply bind_Ok in Hr as (k' & Hk' & Hr%require_Ok). bools. subst k'. by exists k.
Qed.

Lemma assignment_from_env_Ok a :
  operator_assignment_from_env = Ok (Some a) ->
  0 <= Assignment.index a < Assignment.count a /\ 0 < Assignment.build_timeout_secs a /\ 0 < Assignment.submit_timeout_secs a.
Proof.
  unfold operator_assignment_from_env. destruct (env _); [|done]. destruct (env _); [|done].
  intros (i & Hi%ok_or_Ok & H)%bind_Ok. apply bind_Ok in H as (n & _ & H). apply bind_Ok in H as (b & _ & H).
  apply bind_Ok in H as (t & _ & H). apply parse_unsigned_range in Hi.
  destruct (map_err BadOperator _) as [a'|] eqn:E; [|done]. injection H as ->. apply map_err_Ok in E.
  unfold Assignment.new in E. res_inv. subst a. cbn. lia.
Qed.

Lemma payout_arm_Ok r :
  payout_arm = Ok r ->
  match r with
  | None => env (lit "GLC_VAULT_REDEEM_SCRIPT_HEX") = None
  | Some (V, wif) => vault_key_from_env = Ok (pv_config V, pv_vault_signer_index V, wif) /\ pv_vault V = vault (pv_config V) /\
      match pv_assignment V with Some a => operator_assignment_from_env = Ok (Some a) | None => True end
  end.
Proof.
  unfold payout_arm. destruct (env _); [|by intros [= <-]].
  intros ([[cfg index] wif] & Hk & H)%bind_Ok. apply bind_Ok in H as ([] & _ & H). apply bind_Ok in H as (? & _ & H).
  apply bind_Ok in H as (view & Hv%ok_or_Ok & H). apply bind_Ok in H as (a & Ha & [= <-]).
  unfold PayoutView.new in Hv. case_match; [done|]. injection Hv as <-. by destruct a.
Qed.

Lemma sweep_arm_Ok S wif path :
  sweep_arm = Ok (Some (S, wif, path)) ->
  vault_key_from_env = Ok (sv_config S, sv_vault_signer_index S, wif) /\ sv_vault S = vault (sv_config S) /\
  env (lit "GLC_VAULT_REDEEM_SCRIPT_HEX") <> None.
Proof.
  unfold sweep_arm. destruct (env (lit "GLC_SIGNER_SWEEP_APPROVALS_PATH")); [|done].
  intros ([] & Hr%require_Ok & H)%bind_Ok. apply bind_Ok in H as ([[cfg index] w] & Hk & H).
  apply bind_Ok in H as ([] & _ & H). apply bind_Ok in H as (view & Hv%ok_or_Ok & [= <- <- <-]).
  unfold SweepView.new in Hv. case_match; [done|]. injection Hv as <-. split_and!; [done|done|by destruct (env _)].
Qed.

Lemma lift_Ok {W E A} (r : result E A) (w w' : W) a : lift r w = (w', Ok a) -> w' = w /\ r = Ok a.
Proof. by intros [= -> ->]. Qed.

(** What [start] read, once it succeeds. *)
Lemma start_Ok o o' st :
  start o = (o', Ok st) ->
  exists payout completion sweep pid version epoch,
    length pid = 32%nat /\ (exists o1 o2, observe_epoch pid o1 = (o2, Ok epoch)) /\ 0 <= version <= U8_MAX /\
    payout_arm = Ok payout /\ completion_arm pid version = Ok completion /\ sweep_arm = Ok sweep /\
    st_program_id st = pid /\ st_observation st = seeded epoch now_unix /\
    st_arms st = {| arm_payout := fst <$> payout; arm_completion := completion;
                    arm_governance := (fun _ => (pid, version)) <$> env (lit "GLC_SIGNER_GOVERNANCE_APPROVALS_PATH");
                    arm_sweep := (fun s => (s.1.1, version)) <$> sweep |} /\
    st_payout_wif st = snd <$> payout /\ st_sweep_wif st = (fun s => s.1.2) <$> sweep.
Proof.
  unfold start. intros H.
  do 9 (apply SE_bind_Ok in H as (? & ? & _ & H)).
  apply SE_bind_Ok in H as (? & pid & [_ Hpid%map_err_Ok]%lift_Ok & H).
  do 3 (apply SE_bind_Ok in H as (? & ? & _ & H)). apply SE_bind_Ok in H as (? & epoch & He & H).
  apply SE_bind_Ok in H as (? & ? & _ & H).
  apply SE_bind_Ok in H as (? & version & [_ Hv%required_unsigned_range]%lift_Ok & H).
  apply SE_bind_Ok in H as (? & payout & [_ Hp]%lift_Ok & H).
  apply SE_bind_Ok in H as (? & completion & [_ Hc]%lift_Ok & H).
  apply SE_bind_Ok in H as (? & sweep & [_ Hs]%lift_Ok & H). injection H as <- <-.
  exists payout, completion, sweep, pid, version, epoch. split_and!; try done; try (by eexists _, _). all: try lia.
  unfold decode_exact in Hpid. res_inv. by eapply decode_loop_step.
Qed.

(** C28: Whatever the environment and the files hold, a signer that starts has read the
    epoch from the chain, and its arms agree: each of the two that spend has a
    well-formed vault configuration and the very key of its position in that vault, both
    the same one; the operator's index is within the count; all messages are bound to
    one 32-byte program id and one protocol version; and a signer that can spend attests
    completions, at the depth of its vault's configuration, which is at least one. *)
Theorem started_signer_is_consistent o o' st :
  start o = (o', Ok st) ->
  let A := st_arms st in let pid := st_program_id st in
  length pid = 32%nat /\
  (exists o1 o2, observe_epoch pid o1 = (o2, Ok (Epoch.epoch (st_observation st)))) /\
  (forall V, arm_payout A = Some V ->
     config_wf (pv_config V) /\ pv_vault V = vault (pv_config V) /\
     (exists wif, st_payout_wif st = Some wif /\ holds_key wif (pv_vault V) (pv_vault_signer_index V)) /\
     (forall a, pv_assignment V = Some a ->
        0 <= Assignment.index a < Assignment.count a /\ 0 < Assignment.build_timeout_secs a /\ 0 < Assignment.submit_timeout_secs a)) /\
  (forall S v, arm_sweep A = Some (S, v) ->
     exists V, arm_payout A = Some V /\ st_sweep_wif st = st_payout_wif st /\
       (sv_config S, sv_vault S, sv_vault_signer_index S) = (pv_config V, pv_vault V, pv_vault_signer_index V)) /\
  exists version, 0 <= version <= U8_MAX /\
    (forall V, arm_payout A = Some V -> 1 <= WithdrawalConfig.confirmation_depth (pv_config V) /\
       arm_completion A = Some (WithdrawalConfig.confirmation_depth (pv_config V), pid, version)) /\
    (forall d p v, arm_completion A = Some (d, p, v) -> (p, v) = (pid, version)) /\
    (forall p v, arm_governance A = Some (p, v) -> (p, v) = (pid, version)) /\
    (forall S v, arm_sweep A = Some (S, v) -> v = version).
Proof.
  intros (payout & completion & sweep & pid & version & epoch & Hlen & Ho & Hv & Hp & Hc & Hs & E1 & E2 & E3 & E4 & E5)%start_Ok.
  cbv zeta. rewrite E1, E2, E3, E4, E5. cbn [arm_payout arm_completion arm_governance arm_sweep Epoch.epoch seeded].
  pose proof (payout_arm_Ok _ Hp) as Hpay. split; [done|]. split; [done|].
  assert (forall d p v, completion = Some (d, p, v) -> (p, v) = (pid, version) /\
    exists s, env (lit "GLC_WITHDRAWAL_CONFIRMATION_DEPTH") = Some s /\ parse_i64 s = Some d) as Hcomp.
  { intros d p v ->. unfold completion_arm in Hc. destruct (env _) as [s|]; [|done].
    apply bind_Ok in Hc as (d' & Hd%ok_or_Ok & Hc). do 2 (apply bind_Ok in Hc as (? & _ & Hc)).
    injection Hc as -> -> ->. split; [done|]. by exists s. }
  split_and!.
  - intros V HV. destruct payout as [[V' wif]|]; [|done]. injection HV as ->. destruct Hpay as ([Hcfg Hkey]%vault_key_Ok & Hvault & Ha).
    split_and!; [by apply withdrawal_config_Ok|done|exists wif; by rewrite Hvault|].
    intros a Hpa. rewrite Hpa in Ha. by apply assignment_from_env_Ok.
  - intros S v HS. destruct sweep as [[[S' wif] path]|]; [|done]. injection HS as -> ->.
    apply sweep_arm_Ok in Hs as (Hkey & Hvs & Hredeem). destruct payout as [[V wif']|]; [|done].
    destruct Hpay as (Hkey' & Hvault & _). rewrite Hkey in Hkey'. injection Hkey' as Ecfg Eidx ->.
    exists V. split_and!; [done|done|]. by rewrite Hvs, Hvault, Ecfg, Eidx.
  - exists version. split; [done|]. split_and!.
    + intros V HV. destruct payout as [[V' wif]|]; [|done]. injection HV as ->. destruct Hpay as ([Hcfg _]%vault_key_Ok & _).
      apply withdrawal_config_Ok in Hcfg as (Hwf & s & Henv & Hparse). split; [apply Hwf|].
      unfold completion_arm in Hc. rewrite Henv in Hc. unfold parsed in Hc. rewrite Hparse in Hc. cbn in Hc.
      do 2 (apply bind_Ok in Hc as (? & _ & Hc)). by injection Hc as <-.
    + intros d p v Hd. by apply Hcomp in Hd as [? _].
    + intros p v Hg. destruct (env _); [|done]. by injection Hg as -> ->.
    + intros S v HS. destruct sweep; [|done]. by injection HS as _ ->.
Qed.
End start.

(** ** A signer that starts *)

Section sample.
#[local] Existing Instance toy_sha2.
#[local] Existing Instance toy_ripemd.
#[local] Existing Instance toy_secp.
#[local] Existing Instance toy_solana.

(** Every node answers with the validator set of epoch 4. *)
#[local] Instance epoch_node : SolanaRpc unit :=
  {| get_account k o := (o, Ok (Some {| acc_owner := replicate 32 x09;
                                       acc_data := account_data (replicate 8 x00) (set_fields
       {| State.epoch := 4; State.threshold := 2; set_bump := 254; validators := [replicate 32 x1f; replicate 32 x20];
          set_reserved := replicate 128 x00 |}) [] |}));
     get_latest_blockhash o := (o, Ok []); send_transaction _ o := (o, Err (Transport []));
     get_program_accounts_sized _ _ _ o := (o, Ok []) |}.

Definition signer_settings (name : str) : option str :=
  match List.find (fun nv => bool_decide (nv.1 = name))
    [(lit "GLC_SIGNER_VALIDATOR_KEYPAIR_PATH", lit "id.json"); (lit "GLC_SIGNER_LISTEN_ADDR", lit "0.0.0.0:7000");
     (lit "GLC_FEDERATION_CA_CERT_PATH", lit "ca"); (lit "GLC_SIGNER_TLS_CERT_PATH", lit "cert");
     (lit "GLC_SIGNER_TLS_KEY_PATH", lit "key"); (lit "GLC_SIGNER_VAULT_INDEX", lit "1");
     (lit "GLC_SIGNER_VAULT_KEY_PATH", lit "wif"); (lit "GLC_SIGNER_GLC_RPC_URL", lit "http://127.0.0.1:18333");
     (lit "GLC_SIGNER_GLC_RPC_USER", lit "u"); (lit "GLC_SIGNER_GLC_RPC_PASSWORD", lit "p");
     (lit "GLC_OPERATOR_INDEX", lit "1"); (lit "GLC_OPERATOR_COUNT", lit "3");
     (lit "GLC_SIGNER_SWEEP_APPROVALS_PATH", lit "sweeps")]
  with Some nv => Some nv.2 | None => demo_env name end.

(** Without a vault key, the depth is not checked by the withdrawal settings. *)
Definition attesting_settings (name : str) : option str :=
  if bool_decide (name = lit "GLC_VAULT_REDEEM_SCRIPT_HEX" \/ name = lit "GLC_SIGNER_SWEEP_APPROVALS_PATH") then None
  else if bool_decide (name = lit "GLC_WITHDRAWAL_CONFIRMATION_DEPTH") then Some (lit "-1")
  else signer_settings name.

(** The second key of [demo_vault], in wallet import format. *)
Definition second_wif (path : str) : option str :=
  Some (base58check_encode 0xef (drop 1 (default [] (demo_keys !! 1%nat)) ++ [x01]) ++ [x0a]).

Definition demo_start (env : Env) : result StartError Started :=
  (start env (fun _ => Ok []) second_wif (fun _ => Some (replicate 32 x20)) (fun _ => true) 1000 tt).2.

Example unchecked_depth :
  match demo_start attesting_settings with
  | Ok st => Some (arm_payout (st_arms st), (fun c => c.1.1) <$> arm_completion (st_arms st))
  | Err _ => None
  end = Some (None, Some (-1)).
Proof. vm_compute. reflexivity. Qed.

Lemma started_signer_is_consistent_witness :
  exists st V, demo_start signer_settings = Ok st /\ arm_payout (st_arms st) = Some V /\
    (exists wif, st_payout_wif st = Some wif /\ holds_key wif (pv_vault V) (pv_vault_signer_index V)) /\
    exists S v, arm_sweep (st_arms st) = Some (S, v) /\ sv_config S = pv_config V.
Proof.
  unfold demo_start. destruct (start _ _ _ _ _ _ _) as [o' r] eqn:E. destruct r as [st|e]; [|vm_compute in E; discriminate E].
  destruct (started_signer_is_consistent signer_settings (fun _ => Ok []) second_wif (fun _ => Some (replicate 32 x20))
              (fun _ => true) 1000 tt o' st E) as (_ & _ & Hp & Hs & _).
  destruct (arm_payout (st_arms st)) as [V|] eqn:EV; [|vm_compute in E; injection E as _ <-; discriminate EV].
  destruct (arm_sweep (st_arms st)) as [[S v]|] eqn:ES; [|vm_compute in E; injection E as _ <-; discriminate ES].
  exists st, V. destruct (Hp V eq_refl) as (_ & _ & Hw & _). destruct (Hs S v eq_refl) as (V' & [= <-] & _ & [= Hc _ _]).
  split; [reflexivity|]. split; [exact EV|]. split; [exact Hw|]. exists S, v. split; [exact ES|exact Hc].
Defined.
End sample.
