(* ===== verification/Wallet.v ===== *)
(** * The user's wallet: [relayer/src/bin/glc-wallet.rs],
    [ops/withdraw_preflight.rs]

    [check] is the whole decision before a burn; [withdraw] reads the bridge,
    decides, burns, waits for the record and compares it.  The Solana node is
    the class [SolanaRpc]; reading the key file is a parameter, and the sleep
    between two polls is the node's time. *)
From Stdlib Require Import ZArith Lia Strings.Byte.
From stdpp Require Import base numbers strings gmap list.
From S2P Require Import Federation Configuration.
From S2P Require Import Prelude Effects Messages State Token Program Handlers Invariants.
From S2P Require Import SignatureProof Scenario Safety Governance.
From S2P Require Import Hex Text Radix Address WithdrawalDb Accounts SolanaInstruction SolanaRpc.
From S2P Require Import Discovery ChainPass.

(** ** [ops/withdraw_preflight.rs] *)

Inductive WithdrawRefusal :=
| BridgePaused
| ZeroAmount
| BelowMinimum (amount minimum : Z)
| InsufficientBalance (balance amount : Z)
| NoTokenAccount
| InvalidAddress (address : str) (reason : AddressError)
| MintNotConfigured.

Record WithdrawContext := {
  wc_paused : bool; wc_min_withdrawal : Z; wc_mint_configured : bool; wc_balance : option Z
}.

Definition check `{Sh : Sha2} (ctx : WithdrawContext) (amount : Z) (glc_address : str)
  : result WithdrawRefusal (list byte) :=
  require (wc_mint_configured ctx) MintNotConfigured ;;*
  require (negb (wc_paused ctx)) BridgePaused ;;*
  require (negb (amount =? 0)) ZeroAmount ;;*
  require (negb (amount <? wc_min_withdrawal ctx)) (BelowMinimum amount (wc_min_withdrawal ctx)) ;;*
  let* balance := ok_or (wc_balance ctx) NoTokenAccount in
  require (negb (balance <? amount)) (InsufficientBalance balance amount) ;;*
  map_err (InvalidAddress glc_address) (decode_p2pkh_hash160 glc_address).

(** ** Arguments *)

(** [args.get(i + 1)] after the first [name]. *)
Definition arg (args : list str) (name : String.string) : option str :=
  '(i, _) ← list_find (fun a => a = lit name) args; args !! S i.

Inductive WalletError :=
| Usage
| AmountNotANumber
| KeypairUnreadable (path : str)
| EnvironmentNotSet (name : str)
| BadProgramId (e : HexFault)
| BadCommitment (s : str)
| RpcFailed (e : SolanaRpcError)
| NoBridge
| Refused (e : WithdrawRefusal)
| NotAccepted (e : SolanaRpcError)
| NotSeen (signature : str)
| UnreadableRecord (e : DiscoveryError)
| Mismatch (fields : list str).

Record WithdrawRequest := {
  wq_amount : Z; wq_glc_address : str; wq_user : Pubkey; wq_program_id : Pubkey
}.

(** [withdraw], up to the first call of the node. *)
Definition withdraw_request (args : list str) (env : str -> option str)
    (read_keypair : str -> option Pubkey) : result WalletError WithdrawRequest :=
  let required name := ok_or (arg args name) Usage in
  let variable name := map_err EnvironmentNotSet (env_required env (lit name)) in
  let* amount := required "--amount-atomic"%string in
  let* amount := ok_or (parse_unsigned U64_MAX amount) AmountNotANumber in
  let* glc_address := required "--glc-address"%string in
  let* keypair_path := required "--keypair"%string in
  let* user := ok_or (read_keypair keypair_path) (KeypairUnreadable keypair_path) in
  let* program_id := variable "GLC_PROGRAM_ID_HEX"%string in
  let* program_id := map_err BadProgramId (decode_exact 32 program_id) in
  let* commitment := variable "GLC_SOLANA_COMMITMENT"%string in
  let* _ := map_err (fun _ => BadCommitment commitment) (parse_commitment commitment) in
  let* _ := variable "GLC_SOLANA_RPC_URL"%string in
  Ok {| wq_amount := amount; wq_glc_address := glc_address; wq_user := user;
        wq_program_id := program_id |}.

(** ** The withdrawal *)

Definition POLLS : nat := 60.

Section wallet.
Context `{Sh : Sha2, Rt : SolanaRuntime} {T : SplToken}.
Context {outside : Type} `{N : SolanaRpc outside}.

Definition rpc {A} (wrap : SolanaRpcError -> WalletError)
    (f : outside -> outside * result SolanaRpcError A) : SE outside WalletError A :=
  fun o => let (o, r) := f o in (o, map_err wrap r).

(** Up to [n] reads, half a second apart. *)
Fixpoint await_record (n : nat) (pda : Pubkey) : SE outside WalletError (option Account) :=
  match n with
  | O => mret None
  | S n =>
      a ← rpc RpcFailed (get_account pda);
      match a with Some a => mret (Some a) | None => await_record n pda end
  end.

Definition mismatches (q : WithdrawRequest) (index : Z) (dest_hash160 : list byte)
    (record : DecodedWithdrawal) : list str :=
  concat
    [if d_amount_atomic record =? wq_amount q then [] else [lit "amount"];
     if bool_decide (d_glc_address record = wq_glc_address q) then [] else [lit "destination"];
     if bool_decide (d_glc_address_hash160 record = dest_hash160) then [] else [lit "destination hash"];
     if bool_decide (d_requester record = wq_user q) then [] else [lit "requester"];
     if d_index record =? index then [] else [lit "index"]].

Definition burn_transaction (q : WithdrawRequest) (mint user_ata : Pubkey) (index : Z)
    (blockhash : list byte) : SolanaTransaction :=
  {| tx_instructions :=
       [burn_wrapped_instruction (wq_program_id q)
          {| bk_user := wq_user q; bk_bridge_config := (bridge_config_pda (wq_program_id q)).1;
             bk_wrapped_mint := mint; bk_user_token_account := user_ata;
             bk_withdrawal := (withdrawal_pda (wq_program_id q) index).1 |}
          (wq_amount q) (wq_glc_address q)];
     tx_payer := wq_user q; tx_signers := [wq_user q]; tx_blockhash := blockhash |}.

(** The record that landed, and the signature. *)
Definition withdraw (q : WithdrawRequest) : SE outside WalletError (DecodedWithdrawal * str) :=
  config_account ← rpc RpcFailed (get_account (bridge_config_pda (wq_program_id q)).1);
  config_account ← lift (ok_or config_account NoBridge);
  config ← lift (map_err RpcFailed (decode_bridge_config (acc_data config_account)));
  let user_ata := associated_token_address (wq_user q) (bc_wrapped_mint config) in
  ata ← rpc RpcFailed (get_account user_ata);
  let ctx := {| wc_paused := bc_paused config; wc_min_withdrawal := bc_min_withdrawal config;
                wc_mint_configured := mint_is_configured config;
                wc_balance := a ← ata; token_account_amount (acc_data a) |} in
  dest_hash160 ← lift (map_err Refused (check ctx (wq_amount q) (wq_glc_address q)));
  let index := bc_withdrawal_count config in
  let pda := (withdrawal_pda (wq_program_id q) index).1 in
  blockhash ← rpc RpcFailed get_latest_blockhash;
  signature ← rpc NotAccepted
    (send_transaction (burn_transaction q (bc_wrapped_mint config) user_ata index blockhash));
  account ← await_record POLLS pda;
  account ← lift (ok_or account (NotSeen signature));
  record ← lift (map_err UnreadableRecord
    (decode_withdrawal (wq_program_id q) pda (acc_owner account) (acc_data account)));
  let wrong := mismatches q index dest_hash160 record in
  _ ← lift (require (bool_decide (wrong = [])) (Mismatch wrong));
  mret (record, signature).
End wallet.

(** ** Which texts are addresses *)

Section texts.
Context `{Sh : Sha2}.

Lemma b58_char_ascii d : 0 <= d < 58 -> byte_to_Z (b58_char d) <? 128 = true.
Proof.
  intros Hd. assert (Z.to_nat d < 58)%nat as Hn by lia. unfold b58_char.
  assert (forallb (fun c => byte_to_Z c <? 128) B58 = true) as H by reflexivity.
  rewrite forallb_forall in H. apply H, list_elem_of_In.
  destruct (B58 !! Z.to_nat d) as [c|] eqn:E; [by eapply list_elem_of_lookup_2|].
  apply lookup_ge_None in E. change (length B58) with 58%nat in E. lia.
Qed.

Lemma canonical_length base l n :
  2 <= base -> canonical base l -> val base l < base ^ Z.of_nat n -> (length l <= n)%nat.
Proof.
  intros Hb. revert n. induction l as [|d l IH]; intros n Hc Hv; [cbn; lia|].
  apply canonical_cons in Hc as (Hd & Hl & Hz). cbn [val length] in *.
  pose proof (val_nonneg base Hb l (proj1 Hl)).
  destruct n as [|n].
  - change (base ^ Z.of_nat 0) with 1 in Hv. exfalso.
    assert (val base l = 0) as Hv0 by nia. specialize (Hz (canonical_zero base Hb l Hl Hv0)). lia.
  - rewrite Nat2Z.inj_succ, Z.pow_succ_r in Hv by lia. apply le_n_S, IH; [done|].
    apply (Z.mul_lt_mono_pos_l base); lia.
Qed.

(** An address is ASCII text that fits the on-chain field. *)
Lemma p2pkh_text addr h :
  decode_p2pkh_hash160 addr = Ok h ->
  Discovery.is_ascii addr = true /\ addr <> [] /\ (length addr <= MAX_GLC_ADDRESS_LEN)%nat.
Proof.
  intros H. assert (addr <> []) as Hne by (by intros ->).
  apply p2pkh_address_iff in H as [Hh ->]. revert Hne. unfold encode_p2pkh, base58check_encode.
  set (data := _ ++ checksum _). rewrite base58_encode_text.
  assert (length data = 25%nat) as Hl
    by (unfold data; rewrite length_app, length_checksum; cbn [length]; by rewrite Hh).
  destruct (convert_spec 58 ltac:(lia) 256 (byte_to_Z <$> data) ltac:(lia) ltac:(lia) (byte_digits _))
    as [Hc Hv].
  pose proof (val_bound 256 ltac:(lia) (rev (byte_to_Z <$> data))
                (proj1 (digits_rev 256 _) (byte_digits _))) as Hb.
  rewrite length_rev, length_fmap, Hl in Hb.
  assert (length (convert 58 256 (byte_to_Z <$> data)) <= 39)%nat as Hn.
  { apply (canonical_length 58); [lia|done|]. rewrite Hv. eapply Z.lt_le_trans; [apply Hb|].
    by apply Z.leb_le. }
  assert (leading x00 data <= 0)%nat as Hk by (unfold data; cbn [app leading]; rewrite decide_False by (vm_compute; congruence); lia).
  intros Hne. split_and!; [|done|].
  - unfold b58_text, Discovery.is_ascii. rewrite forallb_forall. intros c Hin%list_elem_of_In.
    apply list_elem_of_fmap in Hin as (d & -> & Hin). apply b58_char_ascii.
    rewrite elem_of_app, elem_of_replicate in Hin. destruct Hin as [[-> _]|Hin]; [lia|].
    destruct Hc as [Hc _].
    apply list_elem_of_In, in_rev, list_elem_of_In in Hin.
    by apply (proj1 (Forall_forall _ _) Hc).
  - unfold b58_text, MAX_GLC_ADDRESS_LEN.
    rewrite length_fmap, length_app, length_rev, length_replicate. lia.
Qed.
End texts.

(** ** What the wallet burns can be paid *)

Section payable.
Context `{Sh : Sha2, Rt : SolanaRuntime} {T : SplToken} {Ac : SplTokenAccepts T} {R : Runtime}.

(** The associated account, if there is one, is its owner's, for the mint and
    not frozen, and the supply of the mint covers it.  The wallet reads only the
    amount. *)
Definition account_in_use (t : token_state) (o m : Pubkey) : Prop :=
  forall bal, token_balance t (associated_token_address o m) = Some bal ->
    holds t (associated_token_address o m) o m bal /\ exists s, mint_supply t m = Some s /\ bal <= s.

(** What the preflight decides on, in a state of the program. *)
Definition context_in (b : Bridge) (c : BridgeConfig) (user : Pubkey) : WithdrawContext :=
  {| wc_paused := paused c; wc_min_withdrawal := min_withdrawal c;
     wc_mint_configured := negb (bool_decide (wrapped_mint c = default_pubkey));
     wc_balance := token_balance (tokens b) (associated_token_address user (wrapped_mint c)) |}.

Definition burn_of (c : BridgeConfig) (user : Pubkey) : BurnWrappedAccounts :=
  {| bw_user := user; bw_wrapped_mint := wrapped_mint c;
     bw_user_token_account := associated_token_address user (wrapped_mint c);
     bw_bump_withdrawal_request := (withdrawal_pda crate_ID (withdrawal_count c)).2 |}.

Lemma wallet_check_Ok ctx amount addr h :
  check ctx amount addr = Ok h ->
  wc_mint_configured ctx = true /\ wc_paused ctx = false /\ amount <> 0 /\ wc_min_withdrawal ctx <= amount /\
  (exists bal, wc_balance ctx = Some bal /\ amount <= bal) /\ decode_p2pkh_hash160 addr = Ok h.
Proof.
  unfold check. intros H. apply bind_Ok in H as ([] & Hc%require_Ok & H).
  apply bind_Ok in H as ([] & Hp%require_Ok & H). apply bind_Ok in H as ([] & Hz%require_Ok & H).
  apply bind_Ok in H as ([] & Hm%require_Ok & H). apply bind_Ok in H as (bal & Hb%ok_or_Ok & H).
  apply bind_Ok in H as ([] & Hl%require_Ok & H). apply map_err_Ok in H. bools.
  split_and!; try done; try lia. exists bal. split; [done|lia].
Qed.

Lemma checked_burn_lands env ls b c user amount addr h :
  steps ls b -> bridge_config b = Some c -> account_in_use (tokens b) user (wrapped_mint c) -> withdrawal_count c < U64_MAX -> 0 <= amount ->
  check (context_in b c user) amount addr = Ok h ->
  exists b', exec env (BurnWrapped (burn_of c user) amount addr) b =
      Ok (b', [WithdrawalRequested (withdrawal_count c) user amount addr]) /\
    Program.withdrawal_requests b' =
      <[withdrawal_count c := request_of env (burn_of c user) amount addr c]> (Program.withdrawal_requests b).
Proof.
  intros Hls Hc Huse Hcount Ha (Hm & Hp & Hz & Hmin & (bal & Hb & Hbal) & Hd)%wallet_check_Ok. cbn in Hm, Hp, Hmin, Hb.
  apply p2pkh_text in Hd as (_ & Hne & Hlen). destruct (Huse bal Hb) as (Hh & s & Hs & Hbs).
  pose proof (steps_inv _ _ Hls) as Hinv.
  assert (Program.withdrawal_requests b !! withdrawal_count c = None) as Hfresh.
  { destruct Hinv as [? ? ? ? He|c' s' Hc' _ _ _ _ _ Hreqs _]; [by rewrite He|]. assert (c' = c) as -> by congruence.
    destruct (Program.withdrawal_requests b !! withdrawal_count c) as [w|] eqn:E; [|done].
    destruct (Hreqs _ _ E) as [_ Hr _ _ _]. lia. }
  bools. pose proof (steps_decimals _ _ Hls c Hc Hm) as Hdec.
  destruct (burn_checked_accepts (tokens b) (associated_token_address user (wrapped_mint c)) (wrapped_mint c) user amount
              WRAPPED_GLC_DECIMALS s bal Hs Hdec Hh) as (t & Ht); [lia..|].
  destruct Hh as [_ Hown _ _]. eexists. split.
  - apply exec_iff; [by apply inv_set_bounded|].
    eapply (T_burn env b (burn_of c user) amount addr c t); [|exact Ht].
    constructor; cbn; first [done|lia|by eexists].
  - done.
Qed.
End payable.

(** ** Runs of the wallet *)

Definition sent_of (l : list Event) : list SolanaTransaction :=
  omap (fun e => match e with Sent tx => Some tx | Read _ _ => None end) l.

Lemma sent_of_app l k : sent_of (l ++ k) = sent_of l ++ sent_of k.
Proof. apply omap_app. Qed.
Lemma sent_of_read l k r : sent_of (l ++ [Read k r]) = sent_of l.
Proof. rewrite sent_of_app. apply app_nil_r. Qed.

Section runs.
Context `{Sh : Sha2, Rt : SolanaRuntime} {T : SplToken} {R : Runtime}.
Context {outside : Type} `{N : SolanaRpc outside}.

Abbreviation logged := (logging_rpc N).

Lemma await_record_sends n pda (o : outside * list Event) :
  sent_of (await_record (N := logged) n pda o).1.2 = sent_of o.2.
Proof.
  revert o. induction n as [|n IH]; intros o; cbn [await_record]; [done|].
  unfold mbind, SE_bind, rpc. cbn [get_account logging_rpc]. rewrite noting_eq.
  destruct (get_account pda o.1) as [o' [[a|]|e]]; cbn [fst snd map_err];
    rewrite ?IH; cbn [fst snd]; apply sent_of_read.
Qed.

(** The node's answers about one state of the bridge. *)
Record shows (disc beyond : list byte) (b : Bridge) (c : BridgeConfig) (user : Pubkey) : Prop := {
  sh_config : forall o r, (get_account (bridge_config_pda crate_ID).1 o).2 = Ok r ->
    exists owner, r = Some {| acc_owner := owner; acc_data := account_data disc (config_fields c) beyond |};
  sh_balance : forall o r, (get_account (associated_token_address user (wrapped_mint c)) o).2 = Ok r ->
    (a ← r; token_account_amount (acc_data a)) =
    token_balance (tokens b) (associated_token_address user (wrapped_mint c))
}.

(** At most one transaction leaves, and only after the preflight. *)
Lemma withdraw_sends q disc beyond b c o :
  wq_program_id q = crate_ID -> length disc = DISCRIMINATOR_LEN -> config_typed c ->
  shows disc beyond b c (wq_user q) ->
  let run := withdraw (N := logged) q (o, []) in
  match check (context_in b c (wq_user q)) (wq_amount q) (wq_glc_address q) with
  | Err _ => sent_of run.1.2 = [] /\ is_ok run.2 = false
  | Ok h =>
      (sent_of run.1.2 = [] \/ exists blockhash, sent_of run.1.2 =
         [burn_transaction q (wrapped_mint c) (associated_token_address (wq_user q) (wrapped_mint c))
            (withdrawal_count c) blockhash]) /\
      (forall record signature, run.2 = Ok (record, signature) ->
         mismatches q (withdrawal_count c) h record = [])
  end.
Proof.
  intros Hid Hdisc Hty [Hcfg Hbal]. unfold withdraw, mbind, SE_bind, rpc. cbn [get_account logging_rpc]. rewrite Hid, noting_eq.
  specialize (Hcfg o). cbn [fst snd].
  destruct (get_account (bridge_config_pda crate_ID).1 o) as [o1 [r|e]]; cbn [fst snd map_err].
  2: { case_match; cbn; try done. by split; [left|]. }
  destruct (Hcfg r eq_refl) as (owner & ->). unfold lift. cbn [ok_or acc_data].
  rewrite decode_bridge_config_data by done. cbn [map_err]. rewrite noting_eq. cbn [fst snd bc_wrapped_mint config_snapshot].
  specialize (Hbal o1).
  destruct (get_account (associated_token_address (wq_user q) (wrapped_mint c)) o1) as [o2 [ata|e]]; cbn [fst snd map_err].
  2: { case_match; cbn; try done. by split; [left|]. }
  specialize (Hbal ata eq_refl). unfold mbind in Hbal. rewrite Hbal. unfold context_in, mint_is_configured.
  cbn [bc_paused bc_min_withdrawal bc_wrapped_mint bc_withdrawal_count config_snapshot].
  destruct (check _ _ _) as [h|e]; cbn [map_err]; [|done].
  cbn [get_latest_blockhash logging_rpc]. rewrite pass_eq. cbn [fst snd].
  destruct (get_latest_blockhash o2) as [o3 [bh|e]]; cbn [fst snd map_err]; [|by split; [left|]].
  cbn [send_transaction logging_rpc]. rewrite noting_eq. cbn [fst snd].
  set (tx := burn_transaction _ _ _ _ _).
  destruct (send_transaction tx o3) as [o4 [sig|e]]; cbn [fst snd map_err]; [|by split; [right; exists bh|]].
  pose proof (await_record_sends POLLS (withdrawal_pda crate_ID (withdrawal_count c)).1
    (o4, ([] ++ [Read (bridge_config_pda crate_ID).1
       (Ok (Some {| acc_owner := owner; acc_data := account_data disc (config_fields c) beyond |}))]) ++
      [Read (associated_token_address (wq_user q) (wrapped_mint c)) (Ok ata)] ++ [Sent tx])) as Haw.
  rewrite app_assoc in Haw. destruct (await_record POLLS _ _) as [[o5 l5] [a|e]]; cbn [fst snd] in *.
  2: { split; [right; by exists bh|done]. }
  assert (sent_of l5 = [tx]) as Hl by (rewrite Haw; done). clear Haw.
  destruct a as [a|]; cbn [ok_or fst snd]; [|split; [right; by exists bh|done]].
  destruct (decode_withdrawal _ _ _ _) as [rec|e]; cbn [map_err fst snd]; [|split; [right; by exists bh|done]].
  destruct (bool_decide (mismatches q (withdrawal_count c) h rec = [])) eqn:Em; cbn [require fst snd mret SE_ret];
    [|split; [right; by exists bh|done]].
  split; [right; by exists bh|]. intros ? ? [= <- _]. by bools.
Qed.
End runs.

(** ** The whole way *)

Section paid.
Context `{Sh : Sha2, Rt : SolanaRuntime} {T : SplToken} {Ac : SplTokenAccepts T} {R : Runtime}.
Context {outside : Type} `{N : SolanaRpc outside}.

(** The row discovery makes of the burn. *)
Definition row_of (env : TxEnv) (c : BridgeConfig) (user : Pubkey) (amount : Z) (addr : str) (h : list byte)
    (at_ slot_ : Z) : NewWithdrawalRequest :=
  observed_row (decoded (request_of env (burn_of c user) amount addr c)
                  (withdrawal_pda crate_ID (withdrawal_count c)).1 h) at_ slot_.

Lemma burned_address env c user amount addr :
  (length addr <= 64)%nat -> used_address (request_of env (burn_of c user) amount addr c) = addr.
Proof.
  intros Hl. unfold used_address. cbn -[splice zeros]. unfold as_u8. rewrite Z.mod_small by lia.
  rewrite Nat2Z.id. by apply splice_padding.
Qed.

Lemma burn_is_discovered env ls b b' evs c user amount addr h disc at_ slot_ :
  steps ls b -> canonical_bumps crate_ID b -> in_u8 (withdrawal_pda crate_ID (withdrawal_count c)).2 ->
  length disc = DISCRIMINATOR_LEN -> env_wf env -> is_pubkey user -> in_u64 amount ->
  decode_p2pkh_hash160 addr = Ok h ->
  exec env (BurnWrapped (burn_of c user) amount addr) b = Ok (b', evs) ->
  Program.withdrawal_requests b' =
    <[withdrawal_count c := request_of env (burn_of c user) amount addr c]> (Program.withdrawal_requests b) ->
  scan_account crate_ID at_ slot_
    (stored_account crate_ID disc (withdrawal_count c, request_of env (burn_of c user) amount addr c)) =
    Some (row_of env c user amount addr h at_ slot_).
Proof.
  intros Hls Hbumps Hu8 Hd Henv Hu Ha Hdec Hx Hreq.
  destruct (p2pkh_text _ _ Hdec) as (Hascii & _ & Hlen).
  assert (steps (ls ++ [Tx env (BurnWrapped (burn_of c user) amount addr)]) b') as Hls'
    by (eapply steps_snoc; [done|econstructor; done]).
  assert (Program.withdrawal_requests b' !! withdrawal_count c =
          Some (request_of env (burn_of c user) amount addr c)) as Hw by (rewrite Hreq; apply lookup_insert_eq).
  apply (scan_stored crate_ID disc at_ slot_ _ b' _ _ _ Hls'); [|done..|].
  - intros i w. rewrite Hreq, lookup_insert_Some. intros [[<- <-]|[_ Hi]]; [by split|by apply Hbumps].
  - split; [done|]. exists h. rewrite burned_address by done. done.
Qed.

(** C15: The wallet, reading a reachable state of the bridge from its node, sends
    nothing when its check refuses; when it passes it sends at most one transaction, a
    call of burn_wrapped for exactly the amount and address asked for; the program
    accepts it in that state, the record is one discovery decodes into a payable
    withdrawal with that amount and destination, and a success is reported only for a
    record that equals the request. Assumed: the user's associated token account, if
    there is one, is still his, for the mint, not frozen and covered by its supply (the
    wallet reads only its amount); SPL Token accepts BurnChecked under the account's
    owner with the mint's decimals (that they are the program's is proved); the
    withdrawal counter is not exhausted and the stored bumps are canonical. *)
Theorem wallet_burns_can_be_paid q ls b c disc beyond o :
  steps ls b -> bridge_config b = Some c -> config_typed c -> withdrawal_count c < U64_MAX ->
  canonical_bumps crate_ID b -> in_u8 (withdrawal_pda crate_ID (withdrawal_count c)).2 ->
  account_in_use (tokens b) (wq_user q) (wrapped_mint c) ->
  wq_program_id q = crate_ID -> is_pubkey (wq_user q) -> in_u64 (wq_amount q) ->
  length disc = DISCRIMINATOR_LEN -> shows disc beyond b c (wq_user q) ->
  let run := withdraw (N := logging_rpc N) q (o, []) in
  let burn := BurnWrapped (burn_of c (wq_user q)) (wq_amount q) (wq_glc_address q) in
  match check (context_in b c (wq_user q)) (wq_amount q) (wq_glc_address q) with
  | Err _ => sent_of run.1.2 = [] /\ is_ok run.2 = false
  | Ok h =>
      (sent_of run.1.2 = [] \/ exists tx call, sent_of run.1.2 = [tx] /\ tx_payer tx = wq_user q /\
         tx_instructions tx = [call] /\ calls crate_ID (wq_user q) (withdrawal_count c) call burn) /\
      (forall env, env_wf env -> exists b', exec env burn b =
           Ok (b', [WithdrawalRequested (withdrawal_count c) (wq_user q) (wq_amount q) (wq_glc_address q)]) /\
         exists w, Program.withdrawal_requests b' !! withdrawal_count c = Some w /\
         forall at_ slot_, scan_account crate_ID at_ slot_ (stored_account crate_ID disc (withdrawal_count c, w)) =
           Some (row_of env c (wq_user q) (wq_amount q) (wq_glc_address q) h at_ slot_)) /\
      (forall record signature, run.2 = Ok (record, signature) ->
         d_amount_atomic record = wq_amount q /\ d_glc_address record = wq_glc_address q /\
         d_glc_address_hash160 record = h /\ d_requester record = wq_user q /\
         d_index record = withdrawal_count c)
  end.
Proof.
  intros Hls Hc Hty Hcount Hbumps Hu8 Huse Hid Hu Ha Hd Hshow run burn.
  pose proof (withdraw_sends q disc beyond b c o Hid Hd Hty Hshow) as Hrun. fold run in Hrun.
  destruct (check _ _ _) as [h|e] eqn:Ech; [|done]. destruct Hrun as [Hsent Hok]. split_and!.
  - destruct Hsent as [?|(bh & Hs)]; [by left|]. right.
    eexists _, _. split_and!; [exact Hs|done|done|]. rewrite Hid. exact (burn_calls crate_ID (wq_user q) (withdrawal_count c) (burn_of c (wq_user q)) _ _ eq_refl).
  - intros env Henv.
    destruct (checked_burn_lands env ls b c (wq_user q) (wq_amount q) (wq_glc_address q) h) as (b' & Hx & Hreq);
      try done; [by destruct Ha|].
    exists b'. split; [done|]. eexists. split; [rewrite Hreq; apply lookup_insert_eq|].
    intros at_ slot_. eapply (burn_is_discovered env ls b b'); try done. by apply wallet_check_Ok in Ech as (_ & _ & _ & _ & _ & ?).
  - intros record signature Hr. specialize (Hok record signature Hr). unfold mismatches in Hok. cbn [concat] in Hok.
    repeat match type of Hok with
    | (if ?x then _ else _) ++ _ = [] => let E := fresh in destruct x eqn:E; [|discriminate Hok]; cbn [app] in Hok
    end. bools. split_and!; done.
Qed.
End paid.

(** ** A withdrawal from the sample history *)

Section sample.
#[local] Existing Instance toy_sha2.
#[local] Existing Instance toy_solana.

Definition wallet_bridge : Bridge := demo_state 3.
Definition wallet_request (amount : Z) (addr : str) : WithdrawRequest :=
  {| wq_amount := amount; wq_glc_address := addr; wq_user := demo_user; wq_program_id := crate_ID |}.

(** A node that serves the sample bridge, and the record once a burn was sent. *)
Definition wallet_accounts (burned : bool) : list (Pubkey * Account) :=
  [((bridge_config_pda crate_ID).1,
    {| acc_owner := crate_ID; acc_data := account_data (zeros 8) (config_fields demo_config_2) [] |});
   (demo_account, {| acc_owner := spl_token_ID; acc_data := zeros 64 ++ le_bytes 8 500 |})] ++
  (if burned then @stored_accounts toy_solana ledger crate_ID (zeros 8) open_state else []).
Definition wallet_node : SolanaRpc bool :=
  {| get_account k o :=
       (o, Ok (snd <$> (snd <$> list_find (fun a => a.1 = k) (wallet_accounts o))));
     get_latest_blockhash o := (o, Ok (zeros 32));
     send_transaction _ _ := (true, Ok (lit "signature"));
     get_program_accounts_sized _ _ _ o := (o, Ok []) |}.

Lemma wallet_config : bridge_config wallet_bridge = Some demo_config_2.
Proof. vm_compute. reflexivity. Qed.

Example wallet_pays :
  match (withdraw (N := wallet_node) (T := ledger) (wallet_request 200 open_address) false).2 with
  | Ok (record, _) => Some (d_index record, d_amount_atomic record, d_glc_address record)
  | Err _ => None
  end = Some (0, 200, open_address).
Proof. vm_compute. reflexivity. Qed.


(** A burn too large for the account is refused, nothing is sent. *)
Example wallet_refuses :
  let run := withdraw (N := logging_rpc wallet_node) (T := ledger) (wallet_request 501 open_address) (false, []) in
  (sent_of run.1.2, run.2) = ([], Err (Refused (InsufficientBalance 500 501))).
Proof. vm_compute. reflexivity. Qed.

Lemma wallet_node_shows : @shows toy_solana ledger bool wallet_node (zeros 8) [] wallet_bridge demo_config_2 demo_user.
Proof.
  constructor; intros [] r [= <-]; (eexists || idtac); vm_compute; reflexivity.
Qed.

Lemma wallet_burns_can_be_paid_witness :
  let run := withdraw (N := logging_rpc wallet_node) (T := ledger) (wallet_request 200 open_address) (false, []) in
  (exists tx, sent_of run.1.2 = [tx]) /\
  forall record signature, run.2 = Ok (record, signature) ->
    d_glc_address record = open_address /\ d_glc_address_hash160 record = replicate 20 x05.
Proof.
  unshelve epose proof (@wallet_burns_can_be_paid toy_sha2 toy_solana ledger ledger_accepts toy_runtime bool wallet_node
    (wallet_request 200 open_address) (demo_labels 3) wallet_bridge demo_config_2 (zeros 8) [] false
    _ wallet_config _ _ _ _ _ eq_refl _ _ eq_refl wallet_node_shows) as H.
  - apply demo_reachable. lia.
  - unfold config_typed. repeat split; vm_compute; try congruence.
  - by vm_compute.
  - intros i w Hw. vm_compute in Hw. discriminate Hw.
  - unfold in_u8. split; by vm_compute.
  - intros bal Hb. vm_compute in Hb. injection Hb as <-. split; [split; vm_compute; reflexivity|].
    exists 500. split; by vm_compute.
  - reflexivity.
  - unfold in_u64. split; by vm_compute.
  - lazymatch type of H with context [check ?a ?b ?c] =>
      assert (check a b c = Ok (replicate 20 x05)) as Hc by (vm_compute; reflexivity); rewrite Hc in H
    end.
    destruct H as (_ & _ & Hr). split; [eexists; vm_compute; reflexivity|]. intros record signature Hrec.
    destruct (Hr record signature Hrec) as (_ & H1 & H2 & _). exact (conj H1 H2).
Defined.
End sample.
