(* ===== verification/Preflight.v ===== *)
(** * Checks before an on-chain governance command: [relayer/src/ops/preflight.rs]

    The decisions [glc-admin] takes over the pending action it read, and
    their agreement with the program: what passes here is what the program
    executes, and only that. *)
From Stdlib Require Import ZArith Lia Strings.Byte.
From stdpp Require Import base numbers strings gmap list.
From S2P Require Import Prelude Messages State Token Program Handlers Invariants.
From S2P Require Import Scenario Safety Governance Accounts.

Inductive PreflightRefusal :=
| NotEnoughApprovals (collected : nat) (threshold : Z)
| NothingPending
| AlreadyPending
| WrongActionType (expected found : Z)
| TimelockNotElapsed (remaining eta : Z)
| EpochMoved (proposed observed : Z).

Definition enough_approvals (collected : nat) (threshold : Z) : result PreflightRefusal unit :=
  require (negb (Z.of_nat collected <? threshold)) (NotEnoughApprovals collected threshold).

Definition can_propose (pending : option PendingActionSnapshot) : result PreflightRefusal unit :=
  match pending with Some _ => Err AlreadyPending | None => Ok tt end.

(** [i64::saturating_sub] *)
Definition saturating_sub_i64 (a b : Z) : Z := Z.max I64_MIN (Z.min I64_MAX (a - b)).

Definition can_execute (pending : option PendingActionSnapshot)
    (expected_action observed_epoch now_unix : Z) : result PreflightRefusal unit :=
  let* p := ok_or pending NothingPending in
  require (pa_action p =? expected_action) (WrongActionType expected_action (pa_action p)) ;;*
  require (pa_proposed_under_epoch p =? observed_epoch)
    (EpochMoved (pa_proposed_under_epoch p) observed_epoch) ;;*
  require (negb (now_unix <? pa_eta p))
    (TimelockNotElapsed (saturating_sub_i64 (pa_eta p) now_unix) (pa_eta p)).

Definition cancel_target (pending : option PendingActionSnapshot) : result PreflightRefusal (Z * Z) :=
  let* p := ok_or pending NothingPending in
  Ok (pa_action p, pa_eta p).

Lemma can_execute_Ok pending expected observed now :
  can_execute pending expected observed now = Ok tt <->
  exists p, pending = Some p /\ pa_action p = expected /\ pa_proposed_under_epoch p = observed /\ pa_eta p <= now.
Proof.
  unfold can_execute. split.
  - intros H. destruct pending as [p|]; [|discriminate H]. cbn [ok_or mbind result_bind] in H.
    apply bind_Ok in H as ([] & H1%require_Ok & H). apply bind_Ok in H as ([] & H2%require_Ok & H3%require_Ok).
    bools. exists p. split_and!; try done; lia.
  - intros (p & -> & <- & <- & He). cbn [ok_or mbind result_bind]. rewrite !Z.eqb_refl. cbn.
    by rewrite (proj2 (Z.ltb_ge _ _)).
Qed.

(** A wait is reported as positive whatever the clock. *)
Lemma remaining_positive p now r e :
  can_execute (Some p) (pa_action p) (pa_proposed_under_epoch p) now = Err (TimelockNotElapsed r e) -> 0 < r /\ now < e.
Proof.
  unfold can_execute. cbn [ok_or mbind result_bind]. rewrite !Z.eqb_refl. cbn. unfold require, saturating_sub_i64.
  destruct (Z.ltb_spec now (pa_eta p)); cbn; intros [= <- <-]. unfold I64_MIN, I64_MAX. lia.
Qed.

Section agreement.
Context `{T : SplToken} {R : Runtime}.

(** The program's view of a pending action, as the relayer decodes it. *)
Definition pending_snapshot (b : Bridge) : option PendingActionSnapshot := action_snapshot <$> pending_action b.

(** The execute instruction of an action. *)
Definition execute_of (cap_raise : bool) : BridgeInstruction :=
  if cap_raise then ExecuteWrappedSupplyCapRaise else ExecuteValidatorRotation.
Definition executed_action (cap_raise : bool) : Z :=
  if cap_raise then ACTION_PROPOSE_TVL_RAISE else ACTION_PROPOSE_ROTATION.

Lemma executable_iff ls b s env cap_raise :
  steps ls b -> validator_set b = Some s -> epoch s < U64_MAX ->
  is_ok (exec env (execute_of cap_raise) b) = true <->
  exists p, pending_action b = Some p /\ action p = executed_action cap_raise /\
    proposed_under_epoch p = epoch s /\ eta p <= unix_timestamp env.
Proof.
  intros Hls Hs He. pose proof (steps_inv _ _ Hls) as Hinv. pose proof (inv_set_bounded _ Hinv) as Hb.
  destruct Hinv as [|c s' Hc Hs' _ _ Hpok _ _ _]; [congruence|]. assert (s' = s) as -> by congruence. split.
  - intros Hx. destruct (exec env (execute_of cap_raise) b) as [[b' evs]|] eqn:E; [|done].
    apply exec_iff in E; [|done]. destruct cap_raise; inversion E; simplify_eq; eauto.
  - intros (p & Hp & Ha & Hep & Heta). destruct (Hpok p Hp) as [_ _ Hpay].
    destruct Hpay as [(Ha' & Hv & _)|(Ha' & Hm & _)], cap_raise; cbn [executed_action execute_of] in *; try (rewrite Ha in Ha'; discriminate Ha').
    + rewrite (proj2 (exec_iff env _ b _ _ Hb) (T_execute_rotation env b c s p Hc Hs Hp Ha Heta Hep Hv ltac:(lia))). done.
    + rewrite (proj2 (exec_iff env _ b _ _ Hb) (T_execute_cap env b c s p Hc Hs Hp Ha Heta Hep Hm)). done.
Qed.

(** C38: The operator's checks agree with the program in every reachable state: a queued
    action passes the check exactly when the program executes it at that time, a
    proposal exactly when nothing is pending; and when the program accepts a
    cancellation, the check names the action and the time of the parameters the
    federation approved. The stored action decodes to the snapshot the checks read. *)
Theorem preflight_agrees_with_the_program ls b c s env cap_raise disc beyond :
  steps ls b -> bridge_config b = Some c -> validator_set b = Some s -> epoch s < U64_MAX ->
  length disc = DISCRIMINATOR_LEN ->
  (forall p, pending_action b = Some p -> action_typed p ->
     decode_pending_action (account_data disc (action_fields p) beyond) = Ok (action_snapshot p)) /\
  (can_execute (pending_snapshot b) (executed_action cap_raise) (epoch s) (unix_timestamp env) = Ok tt <->
   is_ok (exec env (execute_of cap_raise) b) = true) /\
  (can_propose (pending_snapshot b) = Ok tt <-> absent (pending_action b) = Ok tt) /\
  (forall b' evs, exec env CancelValidatorRotation b = Ok (b', evs) ->
     exists a e, cancel_target (pending_snapshot b) = Ok (a, e) /\ evs = [GovernanceActionCancelled a e] /\
       approved env s (encode (governance_statement ACTION_CANCEL_ROTATION (cancel_params a e) c s))).
Proof.
  intros Hls Hc Hs He Hd. split_and!.
  - intros p _ Ht. by apply decode_pending_action_data.
  - rewrite (executable_iff ls b s) by done. rewrite can_execute_Ok. unfold pending_snapshot. split.
    + intros (q & Hq & Ha & Hep & Heta). destruct (pending_action b) as [p|]; [|done].
      cbn in Hq. injection Hq as <-. by exists p.
    + intros (p & -> & Ha & Hep & Heta). by exists (action_snapshot p).
  - unfold pending_snapshot, absent. by destruct (pending_action b).
  - intros b' evs Hx. apply exec_iff in Hx; [|by apply inv_set_bounded, (steps_inv ls)].
    inversion Hx as [| | | | | | | | | | | | |c' s' p Hc' Hs' Hp Happ]; simplify_eq. exists (action p), (eta p).
    unfold pending_snapshot. rewrite Hp. by split_and!.
Qed.
End agreement.

(** The rotation of the sample history, one second before its time and at it. *)
Example rotation_waits :
  (fun now => can_execute (pending_snapshot (demo_state 6)) ACTION_PROPOSE_ROTATION 0 now) <$> [1104; 1105] =
  [Err (TimelockNotElapsed 1 1105); Ok tt].
Proof. vm_compute. reflexivity. Qed.

Lemma preflight_agrees_with_the_program_witness :
  can_execute (pending_snapshot (demo_state 6)) ACTION_PROPOSE_ROTATION 0 1105 = Ok tt /\
  is_ok (exec (at_time 1105 None) ExecuteValidatorRotation (demo_state 6)) = true.
Proof.
  assert (can_execute (pending_snapshot (demo_state 6)) ACTION_PROPOSE_ROTATION 0 1105 = Ok tt) as H
    by (vm_compute; reflexivity).
  destruct (preflight_agrees_with_the_program (demo_labels 6) (demo_state 6) demo_config_3 demo_set_0
    (at_time 1105 None) false (zeros 8) []) as (_ & Hx & _).
  - apply demo_reachable. lia.
  - vm_compute. reflexivity.
  - vm_compute. reflexivity.
  - done.
  - done.
  - split; [exact H|]. apply Hx. exact H.
Defined.
