(* ===== verification/TokenMetadata.v ===== *)
(** * The token's displayed name: [instructions/token_metadata.rs], the metadata decoder of [solana/rpc.rs]

    The two instructions over the Metaplex program, which is the class
    [Metaplex]: what it does with an instruction and the accounts it was
    given.  [MetaplexLaws] states two documented operations of it over raw
    instructions, which [documented_instruction] decodes with numbers of its
    own and nothing of the code that builds them.  UTF-8 is the standard library's: a byte decides which bytes
    may follow. *)
From Stdlib Require Import ZArith Lia Strings.Byte.
From stdpp Require Import base numbers strings gmap list.
From S2P Require Import Scenario Safety.
From S2P Require Import Prelude State Hex Token Program Accounts SolanaInstruction SolanaRpc.

(** ** Text *)

(** The ranges of the bytes that must follow a first byte; [None]: it starts nothing. *)
Definition utf8_lead (b : byte) : option (list (Z * Z)) :=
  let z := byte_to_Z b in
  let any := (0x80, 0xbf) in
  if z <? 0x80 then Some []
  else if z <? 0xc2 then None
  else if z <? 0xe0 then Some [any]
  else if z =? 0xe0 then Some [(0xa0, 0xbf); any]
  else if z =? 0xed then Some [(0x80, 0x9f); any]
  else if z <? 0xf0 then Some [any; any]
  else if z =? 0xf0 then Some [(0x90, 0xbf); any; any]
  else if z <? 0xf4 then Some [any; any; any]
  else if z =? 0xf4 then Some [(0x80, 0x8f); any; any]
  else None.
Definition in_range (r : Z * Z) (b : byte) : bool := (r.1 <=? byte_to_Z b) && (byte_to_Z b <=? r.2).

(** [str::from_utf8(..).is_ok()], with [need] still to come. *)
Fixpoint utf8_valid (need : list (Z * Z)) (s : list byte) : bool :=
  match s, need with
  | [], [] => true
  | [], _ :: _ => false
  | b :: s, r :: need => in_range r b && utf8_valid need s
  | b :: s, [] => match utf8_lead b with Some need => utf8_valid need s | None => false end
  end.

Definition REPLACEMENT : list byte := [xef; xbf; xbd].

(** [String::from_utf8_lossy]: every maximal broken sequence becomes U+FFFD. *)
Fixpoint utf8_lossy (need : list (Z * Z)) (pending s : list byte) : list byte :=
  match s with
  | [] => match pending with [] => [] | _ :: _ => REPLACEMENT end
  | b :: s =>
      let start :=
        match utf8_lead b with
        | Some [] => b :: utf8_lossy [] [] s
        | Some need => utf8_lossy need [b] s
        | None => REPLACEMENT ++ utf8_lossy [] [] s
        end in
      match need with
      | [] => start
      | r :: need =>
          if in_range r b then
            match need with
            | [] => pending ++ b :: utf8_lossy [] [] s
            | _ :: _ => utf8_lossy need (pending ++ [b]) s
            end
          else REPLACEMENT ++ start
      end
  end.

(** [trim_end_matches('\0')] *)
Fixpoint strip_nul (s : list byte) : list byte :=
  match s with
  | [] => []
  | b :: s => match strip_nul s with
              | [] => if bool_decide (b = x00) then [] else [b]
              | t => b :: t
              end
  end.

Lemma utf8_lossy_valid s need pending :
  utf8_valid need s = true -> (need = [] <-> pending = []) -> utf8_lossy need pending s = pending ++ s.
Proof.
  revert need pending. induction s as [|b s IH]; intros need pending Hv Hp; cbn [utf8_valid utf8_lossy] in *.
  - destruct need; [|done]. by rewrite (proj1 Hp eq_refl).
  - destruct need as [|r need].
    + rewrite (proj1 Hp eq_refl). destruct (utf8_lead b) as [[|r n]|]; [|by rewrite IH|done].
      cbn [app]. by rewrite IH.
    + apply andb_true_iff in Hv as [-> Hv]. destruct need as [|r' need].
      * by rewrite IH.
      * rewrite IH; [by rewrite <- app_assoc|done|]. split; [done|]. by intros [_ ?]%app_nil.
Qed.

Lemma utf8_valid_nuls s need n :
  utf8_valid need s = true -> utf8_valid need (s ++ replicate n x00) = true.
Proof.
  revert need. induction s as [|b s IH]; intros need Hv; cbn [utf8_valid app] in *.
  - destruct need; [|done]. by induction n.
  - destruct need as [|r need].
    + destruct (utf8_lead b); [by apply IH|done].
    + apply andb_true_iff in Hv as [-> Hv]. cbn. by apply IH.
Qed.

Lemma strip_nul_nuls s n : strip_nul (s ++ replicate n x00) = strip_nul s.
Proof.
  induction s as [|b s IH]; cbn [strip_nul app].
  - induction n as [|n IH]; [done|]. cbn. by rewrite IH.
  - by rewrite IH.
Qed.

(** A text the account keeps as it is: valid, no trailing NUL. *)
Definition plain_text (s : list byte) : Prop := utf8_valid [] s = true /\ strip_nul s = s.

(** ** [decode_token_metadata] *)

Record TokenMetadataSnapshot := {
  tm_update_authority : Pubkey; tm_mint : Pubkey; tm_name : str; tm_symbol : str; tm_uri : str
}.

(** A length-prefixed text at an offset, and the offset after it. *)
Definition metadata_string (data : list byte) (off : nat) (what : str)
  : result SolanaRpcError (str * nat) :=
  let need := Malformed (lit "token metadata: missing " ++ what) in
  let* len := ok_or (get_range data off (off + 4)) need in
  let n := Z.to_nat (le_val len) in
  let* raw := ok_or (get_range data (off + 4) (off + 4 + n)) need in
  Ok (strip_nul (utf8_lossy [] [] raw), (off + 4 + n)%nat).

Definition decode_token_metadata (data : list byte) : result SolanaRpcError TokenMetadataSnapshot :=
  let need what := Malformed (lit "token metadata: missing " ++ what) in
  let* update_authority := ok_or (get_range data 1 33) (need (lit "update authority")) in
  let* mint := ok_or (get_range data 33 65) (need (lit "mint")) in
  let* (name, off) := metadata_string data 65 (lit "name") in
  let* (symbol, off) := metadata_string data off (lit "symbol") in
  let* (uri, _) := metadata_string data off (lit "uri") in
  Ok {| tm_update_authority := update_authority; tm_mint := mint; tm_name := name;
        tm_symbol := symbol; tm_uri := uri |}.

(** ** The instructions *)

Definition MAX_URI_LEN : nat := 200.
Definition MAX_NAME_LEN : nat := 32.
Definition MAX_SYMBOL_LEN : nat := 10.
Definition METADATA_MINT_OFFSET : nat := 33.
Definition METADATA_STRINGS_OFFSET : nat := 65.
Definition IX_CREATE_METADATA_ACCOUNT_V3 : byte := byte_of_Z 33.
Definition IX_UPDATE_METADATA_ACCOUNT_V2 : byte := byte_of_Z 15.

(** What the instructions see of the chain beside the bridge's own accounts. *)
Abbreviation AccountStore := (gmap Pubkey Account).

Class Metaplex := {
  (** The program's run of one instruction; [None] when it fails. *)
  metaplex : SolanaInstruction -> AccountStore -> option AccountStore;
  (** The account has the lamports for the rent of a metadata account. *)
  pays_rent : AccountStore -> Pubkey -> bool
}.

Record CreateTokenMetadata := { ct_admin : Pubkey; ct_wrapped_mint : Pubkey; ct_metadata : Pubkey }.
Record UpdateTokenMetadata := { ut_admin : Pubkey; ut_metadata : Pubkey }.

(** [info.owner == &TOKEN_METADATA_PROGRAM_ID && !info.data_is_empty()] *)
Definition initialized (k : Pubkey) (s : AccountStore) : option Account :=
  a ← s !! k;
  if bool_decide (acc_owner a = TOKEN_METADATA_PROGRAM_ID /\ acc_data a <> []) then Some a else None.

(** [push_str] *)
Definition push_str (s : str) : list byte := le_bytes 4 (as_u32 (Z.of_nat (length s))) ++ s.

Definition read_metadata_string (data : list byte) (off : nat) : option (str * nat) :=
  len ← get_range data off (off + 4);
  let n := Z.to_nat (le_val len) in
  raw ← get_range data (off + 4) (off + 4 + n);
  if utf8_valid [] raw then Some (strip_nul raw, (off + 4 + n)%nat) else None.

Definition read_metadata_strings (data : list byte) : option (str * str * str) :=
  '(n, off) ← read_metadata_string data METADATA_STRINGS_OFFSET;
  '(s, off) ← read_metadata_string data off;
  '(u, _) ← read_metadata_string data off;
  Some (n, s, u).

Section instructions.
Context `{Rt : SolanaRuntime} {T : SplToken} {R : Runtime} `{Mx : Metaplex}.

(** [invoke_signed]: the called instruction may name as signers those of the
    transaction and the address of the seeds. *)
Definition invoke_signed (ix : SolanaInstruction) (signers : list Pubkey) (s : AccountStore)
  : result ProgramError AccountStore :=
  require (forallb (fun m => negb (am_is_signer m) || bool_decide (am_pubkey m ∈ signers)) (si_accounts ix)) MetaplexFailed ;;*
  ok_or (metaplex ix s) MetaplexFailed.

Definition create_metadata_cpi (metadata mint admin : Pubkey) (uri : str) : SolanaInstruction :=
  {| si_program_id := TOKEN_METADATA_PROGRAM_ID;
     si_accounts :=
       [writable metadata false; readonly mint false; readonly Token.mint_authority_pda true;
        writable admin true; readonly Token.mint_authority_pda false;
        readonly system_program_id false; readonly rent_sysvar_ID false];
     si_data := IX_CREATE_METADATA_ACCOUNT_V3 :: push_str WRAPPED_GLC_NAME ++ push_str WRAPPED_GLC_SYMBOL ++
                push_str uri ++ le_bytes 2 0 ++ [x00; x00; x00; x01; x00] |}.

Definition update_metadata_cpi (metadata : Pubkey) (name symbol uri : str) : SolanaInstruction :=
  {| si_program_id := TOKEN_METADATA_PROGRAM_ID;
     si_accounts := [writable metadata false; readonly Token.mint_authority_pda true];
     si_data := IX_UPDATE_METADATA_ACCOUNT_V2 :: x01 :: push_str name ++ push_str symbol ++ push_str uri ++
                le_bytes 2 0 ++ [x00; x00; x00; x00; x00; x00] |}.

Definition create_token_metadata (acc : CreateTokenMetadata) (uri : str) (b : Bridge) (s : AccountStore)
  : result ProgramError AccountStore :=
  let* config := Program.load (bridge_config b) in
  check (bool_decide (admin config = ct_admin acc)) UnauthorizedAdmin ;;*
  check (bool_decide (ct_wrapped_mint acc = wrapped_mint config)) MintNotConfigured ;;*
  check (negb (bool_decide (wrapped_mint config = default_pubkey))) MintNotConfigured ;;*
  check (length uri <=? MAX_URI_LEN)%nat UriTooLong ;;*
  check (bool_decide (ct_metadata acc = (token_metadata_pda (ct_wrapped_mint acc)).1)) InvalidMetadataAccount ;;*
  match initialized (ct_metadata acc) s with
  | Some _ => Ok s
  | None => invoke_signed (create_metadata_cpi (ct_metadata acc) (ct_wrapped_mint acc) (ct_admin acc) uri)
              [ct_admin acc; Token.mint_authority_pda] s
  end.

Definition update_token_metadata (acc : UpdateTokenMetadata) (name symbol uri : str) (b : Bridge)
    (s : AccountStore) : result ProgramError AccountStore :=
  let* config := Program.load (bridge_config b) in
  check (bool_decide (admin config = ut_admin acc)) UnauthorizedAdmin ;;*
  check (negb (bool_decide (name = [])) && (length name <=? MAX_NAME_LEN)%nat) NameTooLong ;;*
  check (negb (bool_decide (symbol = [])) && (length symbol <=? MAX_SYMBOL_LEN)%nat) SymbolTooLong ;;*
  check (length uri <=? MAX_URI_LEN)%nat UriTooLong ;;*
  let mint := wrapped_mint config in
  check (negb (bool_decide (mint = default_pubkey))) MintNotConfigured ;;*
  check (bool_decide (ut_metadata acc = (token_metadata_pda mint).1)) InvalidMetadataAccount ;;*
  let* info := ok_or (initialized (ut_metadata acc) s) (Bridge_error MetadataNotFound) in
  let data := acc_data info in
  let* stored_mint := ok_or (get_range data METADATA_MINT_OFFSET (METADATA_MINT_OFFSET + 32))
                        (Bridge_error InvalidMetadataAccount) in
  check (bool_decide (stored_mint = mint)) InvalidMetadataAccount ;;*
  if bool_decide (read_metadata_strings data = Some (name, symbol, uri)) then Ok s
  else invoke_signed (update_metadata_cpi (ut_metadata acc) name symbol uri)
         [ut_admin acc; Token.mint_authority_pda] s.
End instructions.

(** ** What Metaplex documents

    An instruction is a Borsh enum: [CreateMetadataAccountV3] is variant 33,
    [UpdateMetadataAccountV2] variant 15.  Both carry a [DataV2]: three texts,
    each behind its length in four bytes, the seller's fee in two, and the
    creators, the collection and the uses, each an [Option].  Creation adds
    whether the metadata may be changed and the collection details; an update
    has its [DataV2] in an [Option], and adds a new authority, the primary
    sale and whether it may be changed.  Decoded here with every [Option] but
    the update's data absent. *)

Inductive DocumentedInstruction :=
| CreateMetadataAccountV3 (name symbol uri : str) (seller_fee : Z) (is_mutable : bool)
| UpdateMetadataAccountV2 (name symbol uri : str) (seller_fee : Z).

Definition read_borsh (d : list byte) : option (str * list byte) :=
  len ← get_range d 0 4;
  let n := Z.to_nat (le_val len) in
  raw ← get_range d 4 (4 + n);
  Some (raw, drop (4 + n) d).

Definition read_texts (d : list byte) : option (str * str * str * list byte) :=
  '(name, d) ← read_borsh d; '(symbol, d) ← read_borsh d; '(uri, d) ← read_borsh d;
  Some (name, symbol, uri, d).

Definition documented_create (d : list byte) : option DocumentedInstruction :=
  '(name, symbol, uri, d) ← read_texts d;
  match d with
  | [f0; f1; creators; collection; uses; is_mutable; details] =>
      guard ([creators; collection; uses; details] = replicate 4 x00);;
      guard (is_mutable = x00 \/ is_mutable = x01);;
      Some (CreateMetadataAccountV3 name symbol uri (le_val [f0; f1]) (bool_decide (is_mutable = x01)))
  | _ => None
  end.

Definition documented_update (d : list byte) : option DocumentedInstruction :=
  match d with
  | some :: d =>
      guard (some = x01);;
      '(name, symbol, uri, d) ← read_texts d;
      match d with
      | [f0; f1; creators; collection; uses; authority; sold; is_mutable] =>
          guard ([creators; collection; uses; authority; sold; is_mutable] = replicate 6 x00);;
          Some (UpdateMetadataAccountV2 name symbol uri (le_val [f0; f1]))
      | _ => None
      end
  | [] => None
  end.

Definition documented_instruction (data : list byte) : option DocumentedInstruction :=
  match data with
  | variant :: d =>
      if bool_decide (byte_to_Z variant = 33) then documented_create d
      else if bool_decide (byte_to_Z variant = 15) then documented_update d
      else None
  | [] => None
  end.

(** A [Metadata] account: its key, the update authority, the mint, the three
    texts padded with NULs to their capacities, the fee, no creators, no
    primary sale, and whether it may be changed. *)
Definition NAME_CAPACITY : nat := 32.
Definition SYMBOL_CAPACITY : nat := 10.
Definition URI_CAPACITY : nat := 200.
Definition pad (n : nat) (s : list byte) : list byte := s ++ replicate (n - length s) x00.
Definition borsh_text (s : list byte) : list byte := le_bytes 4 (Z.of_nat (length s)) ++ s.

Definition metadata_data (authority mint : Pubkey) (name symbol uri : str) (seller_fee : Z) (is_mutable : bool)
    (beyond : list byte) : list byte :=
  [x04] ++ authority ++ mint ++ borsh_text (pad NAME_CAPACITY name) ++ borsh_text (pad SYMBOL_CAPACITY symbol) ++
  borsh_text (pad URI_CAPACITY uri) ++
  (le_bytes 2 seller_fee ++ [x00; x00; if is_mutable then x01 else x00] ++ beyond).
Definition metadata_account (authority mint : Pubkey) (name symbol uri : str) (seller_fee : Z) (is_mutable : bool)
    (beyond : list byte) : Account :=
  {| acc_owner := TOKEN_METADATA_PROGRAM_ID;
     acc_data := metadata_data authority mint name symbol uri seller_fee is_mutable beyond |}.

Definition texts_fit (name symbol uri : str) : Prop :=
  (length name <= NAME_CAPACITY /\ length symbol <= SYMBOL_CAPACITY /\ length uri <= URI_CAPACITY)%nat.

(** A mint of the token program under an authority: the [COption] of 36 bytes
    its 82 bytes begin with. *)
Definition mint_under `{SolanaRuntime} (s : AccountStore) (mint authority : Pubkey) : Prop :=
  exists rest, length rest = 46%nat /\
    s !! mint = Some {| acc_owner := spl_token_ID; acc_data := [x01; x00; x00; x00] ++ authority ++ rest |}.

(** The address a mint's metadata is kept at. *)
Definition metadata_address `{SolanaRuntime} (mint : Pubkey) : Pubkey :=
  (find_program_address [lit "metadata"; TOKEN_METADATA_PROGRAM_ID; mint] TOKEN_METADATA_PROGRAM_ID).1.

Class MetaplexLaws `{Rt : SolanaRuntime} (Mx : Metaplex) := {
  (** Creation, under the mint's authority and for a payer who has the rent. *)
  metaplex_create ix mint authority payer update_authority name symbol uri fee is_mutable s :
    si_program_id ix = TOKEN_METADATA_PROGRAM_ID ->
    si_accounts ix =
      [{| am_pubkey := metadata_address mint; am_is_signer := false; am_is_writable := true |};
       {| am_pubkey := mint; am_is_signer := false; am_is_writable := false |};
       {| am_pubkey := authority; am_is_signer := true; am_is_writable := false |};
       {| am_pubkey := payer; am_is_signer := true; am_is_writable := true |};
       {| am_pubkey := update_authority; am_is_signer := false; am_is_writable := false |};
       {| am_pubkey := system_program_id; am_is_signer := false; am_is_writable := false |};
       {| am_pubkey := rent_sysvar_ID; am_is_signer := false; am_is_writable := false |}] ->
    documented_instruction (si_data ix) = Some (CreateMetadataAccountV3 name symbol uri fee is_mutable) ->
    texts_fit name symbol uri -> fee <= 10000 ->
    length mint = 32%nat -> length authority = 32%nat -> length update_authority = 32%nat ->
    s !! metadata_address mint = None -> mint_under s mint authority -> pays_rent s payer = true ->
    exists beyond, metaplex ix s =
      Some (<[metadata_address mint := metadata_account update_authority mint name symbol uri fee is_mutable beyond]> s);
  (** An update, under the update authority of metadata that may be changed. *)
  metaplex_update ix mint authority name symbol uri fee beyond name' symbol' uri' fee' s :
    si_program_id ix = TOKEN_METADATA_PROGRAM_ID ->
    si_accounts ix =
      [{| am_pubkey := metadata_address mint; am_is_signer := false; am_is_writable := true |};
       {| am_pubkey := authority; am_is_signer := true; am_is_writable := false |}] ->
    documented_instruction (si_data ix) = Some (UpdateMetadataAccountV2 name' symbol' uri' fee') ->
    texts_fit name' symbol' uri' -> fee' <= 10000 ->
    length mint = 32%nat -> length authority = 32%nat ->
    s !! metadata_address mint = Some (metadata_account authority mint name symbol uri fee true beyond) ->
    exists beyond', metaplex ix s =
      Some (<[metadata_address mint := metadata_account authority mint name' symbol' uri' fee' true beyond']> s)
}.

(** ** Reading it back *)

Lemma length_borsh_text s : length (borsh_text s) = (4 + length s)%nat.
Proof. unfold borsh_text. by rewrite length_app, length_le_bytes. Qed.

(** What the program pushes is the Borsh of a short text. *)
Lemma push_str_borsh s : (length s <= URI_CAPACITY)%nat -> push_str s = borsh_text s.
Proof.
  unfold URI_CAPACITY. intros Hs. unfold push_str, borsh_text, as_u32. by rewrite Z.mod_small by lia.
Qed.

Lemma length_pad n s : (length s <= n)%nat -> length (pad n s) = n.
Proof. intros. unfold pad. rewrite length_app, length_replicate. lia. Qed.

(** The two reads of a padded text agree. *)
Lemma padded_ranges pre n s rest :
  (length s <= n)%nat -> (n <= URI_CAPACITY)%nat ->
  get_range (pre ++ borsh_text (pad n s) ++ rest) (length pre) (length pre + 4) = Some (le_bytes 4 (Z.of_nat n)) /\
  get_range (pre ++ borsh_text (pad n s) ++ rest) (length pre + 4) (length pre + 4 + n) = Some (pad n s) /\
  Z.to_nat (le_val (le_bytes 4 (Z.of_nat n))) = n.
Proof.
  intros Hs Hn. unfold URI_CAPACITY in Hn. unfold borsh_text. rewrite length_pad by done.
  rewrite <- app_assoc. split_and!.
  - apply get_range_app; [done|]. by rewrite length_le_bytes.
  - rewrite (app_assoc pre). apply get_range_app; rewrite length_app, length_le_bytes; [done|].
    by rewrite length_pad.
  - rewrite le_field, Nat2Z.id; [done|]. cbn. lia.
Qed.

Lemma metadata_string_padded pre n s rest what off :
  off = length pre -> (length s <= n)%nat -> (n <= URI_CAPACITY)%nat -> plain_text s ->
  metadata_string (pre ++ borsh_text (pad n s) ++ rest) off what = Ok (s, (off + 4 + n)%nat).
Proof.
  intros -> Hs Hn [Hv Hnul]. destruct (padded_ranges pre n s rest Hs Hn) as (H1 & H2 & H3).
  unfold metadata_string. rewrite H1. cbn [ok_or mbind result_bind]. rewrite H3, H2. cbn [ok_or mbind result_bind].
  rewrite utf8_lossy_valid by (try done; by apply utf8_valid_nuls). unfold pad. cbn [app].
  by rewrite strip_nul_nuls, Hnul.
Qed.

Lemma read_metadata_string_padded pre n s rest off :
  off = length pre -> (length s <= n)%nat -> (n <= URI_CAPACITY)%nat -> plain_text s ->
  read_metadata_string (pre ++ borsh_text (pad n s) ++ rest) off = Some (s, (off + 4 + n)%nat).
Proof.
  intros -> Hs Hn [Hv Hnul]. destruct (padded_ranges pre n s rest Hs Hn) as (H1 & H2 & H3).
  unfold read_metadata_string. rewrite H1. cbn [mbind option_bind]. rewrite H3, H2. cbn [mbind option_bind].
  unfold pad. rewrite utf8_valid_nuls by done. by rewrite strip_nul_nuls, Hnul.
Qed.

Section reading.
Context (authority mint : Pubkey) (name symbol uri : str) (fee : Z) (is_mutable : bool) (beyond : list byte).
Context (Ha : length authority = 32%nat) (Hm : length mint = 32%nat) (Hfit : texts_fit name symbol uri).
Context (Hn : plain_text name) (Hs : plain_text symbol) (Hu : plain_text uri).
Abbreviation data := (metadata_data authority mint name symbol uri fee is_mutable beyond).

(** The account cut before each text. *)
Lemma data_cuts :
  let head := [x04] ++ authority ++ mint in
  let tail := le_bytes 2 fee ++ [x00; x00; if is_mutable then x01 else x00] ++ beyond in
  length head = 65%nat /\
  data = head ++ borsh_text (pad NAME_CAPACITY name) ++
           (borsh_text (pad SYMBOL_CAPACITY symbol) ++ borsh_text (pad URI_CAPACITY uri) ++ tail) /\
  length (head ++ borsh_text (pad NAME_CAPACITY name)) = 101%nat /\
  data = (head ++ borsh_text (pad NAME_CAPACITY name)) ++ borsh_text (pad SYMBOL_CAPACITY symbol) ++
           (borsh_text (pad URI_CAPACITY uri) ++ tail) /\
  length ((head ++ borsh_text (pad NAME_CAPACITY name)) ++ borsh_text (pad SYMBOL_CAPACITY symbol)) = 115%nat /\
  data = ((head ++ borsh_text (pad NAME_CAPACITY name)) ++ borsh_text (pad SYMBOL_CAPACITY symbol)) ++
           borsh_text (pad URI_CAPACITY uri) ++ tail.
Proof using Ha Hm Hfit.
  destruct Hfit as (H1 & H2 & H3). unfold metadata_data.
  rewrite !length_app, !length_borsh_text, !length_pad, Ha, Hm by done.
  split_and!; try done; by rewrite <- !app_assoc.
Qed.

Lemma decode_metadata :
  decode_token_metadata data =
  Ok {| tm_update_authority := authority; tm_mint := mint; tm_name := name; tm_symbol := symbol; tm_uri := uri |}.
Proof using Ha Hm Hfit Hn Hs Hu.
  destruct data_cuts as (L1 & E1 & L2 & E2 & L3 & E3). destruct Hfit as (F1 & F2 & F3).
  unfold decode_token_metadata.
  assert (get_range data 1 33 = Some authority) as ->
    by (unfold metadata_data; apply (get_range_app [x04] authority); [done|by rewrite Ha]).
  assert (get_range data 33 65 = Some mint) as ->.
  { unfold metadata_data. rewrite (app_assoc [x04]). apply (get_range_app ([x04] ++ authority) mint);
      rewrite length_app, Ha; [done|by rewrite Hm]. }
  cbn [ok_or mbind result_bind].
  rewrite E1 at 1. rewrite metadata_string_padded by (done || unfold NAME_CAPACITY, URI_CAPACITY; lia).
  cbn [mbind result_bind].
  rewrite E2 at 1. rewrite metadata_string_padded by (first [done|by rewrite L2|unfold SYMBOL_CAPACITY, URI_CAPACITY; lia]).
  cbn [mbind result_bind].
  rewrite E3 at 1. rewrite metadata_string_padded by (first [done|by rewrite L3]). done.
Qed.

Lemma read_metadata : read_metadata_strings data = Some (name, symbol, uri).
Proof using Ha Hm Hfit Hn Hs Hu.
  destruct data_cuts as (L1 & E1 & L2 & E2 & L3 & E3). destruct Hfit as (F1 & F2 & F3).
  unfold read_metadata_strings, METADATA_STRINGS_OFFSET.
  rewrite E1 at 1. rewrite read_metadata_string_padded by (done || unfold NAME_CAPACITY, URI_CAPACITY; lia).
  cbn [mbind option_bind].
  rewrite E2 at 1. rewrite read_metadata_string_padded by (first [done|by rewrite L2|unfold SYMBOL_CAPACITY, URI_CAPACITY; lia]).
  cbn [mbind option_bind].
  rewrite E3 at 1. rewrite read_metadata_string_padded by (first [done|by rewrite L3]). done.
Qed.

Lemma stored_mint_read : get_range data METADATA_MINT_OFFSET (METADATA_MINT_OFFSET + 32) = Some mint.
Proof using Ha Hm.
  unfold metadata_data, METADATA_MINT_OFFSET. rewrite (app_assoc [x04]).
  apply (get_range_app ([x04] ++ authority) mint); rewrite length_app, Ha; [done|by rewrite Hm].
Qed.
End reading.

Lemma read_borsh_text s rest : (length s <= URI_CAPACITY)%nat -> read_borsh (borsh_text s ++ rest) = Some (s, rest).
Proof.
  intros Hs. pose proof (padded_ranges [] (length s) s rest ltac:(lia) Hs) as (H1 & H2 & H3).
  unfold pad in *. rewrite Nat.sub_diag, app_nil_r in *. cbn [app length Nat.add] in H1, H2.
  unfold read_borsh. rewrite H1. cbn [mbind option_bind]. rewrite H3. cbn [Nat.add]. rewrite H2.
  cbn [mbind option_bind]. do 2 f_equal.
  change (S (S (S (S (length s))))) with (4 + length s)%nat. rewrite <- length_borsh_text. apply drop_app_length.
Qed.

Lemma read_texts_pushed name symbol uri rest :
  texts_fit name symbol uri ->
  read_texts (push_str name ++ push_str symbol ++ push_str uri ++ rest) = Some (name, symbol, uri, rest).
Proof.
  intros (H1 & H2 & H3). unfold read_texts, NAME_CAPACITY, SYMBOL_CAPACITY in *.
  assert (length name <= URI_CAPACITY /\ length symbol <= URI_CAPACITY)%nat as [H4 H5] by (unfold URI_CAPACITY; lia).
  rewrite !push_str_borsh by done. by do 3 (rewrite read_borsh_text by done; cbn [mbind option_bind]).
Qed.

(** What the program's calls say in the documented encoding. *)
Lemma create_cpi_documented `{SolanaRuntime, R : Runtime} md mint admin uri :
  texts_fit WRAPPED_GLC_NAME WRAPPED_GLC_SYMBOL uri ->
  documented_instruction (si_data (create_metadata_cpi md mint admin uri)) =
    Some (CreateMetadataAccountV3 (lit "Wrapped Goldcoin") (lit "wGLC") uri 0 true).
Proof.
  intros Hf. cbn [si_data create_metadata_cpi]. unfold documented_instruction.
  rewrite bool_decide_true by done. unfold documented_create. by rewrite read_texts_pushed.
Qed.

Lemma update_cpi_documented `{R : Runtime} md name symbol uri :
  texts_fit name symbol uri ->
  documented_instruction (si_data (update_metadata_cpi md name symbol uri)) =
    Some (UpdateMetadataAccountV2 name symbol uri 0).
Proof.
  intros Hf. cbn [si_data update_metadata_cpi]. unfold documented_instruction.
  rewrite bool_decide_false, bool_decide_true by done. unfold documented_update.
  rewrite option_guard_True by done. by rewrite read_texts_pushed.
Qed.

(** ** The instructions do what they say *)

Section displayed.
Context `{Rt : SolanaRuntime} {T : SplToken} {R : Runtime}.
Context (b : Bridge) (c : BridgeConfig).
Context (Hc : bridge_config b = Some c) (Hmint : length (wrapped_mint c) = 32%nat)
  (Hset : wrapped_mint c <> default_pubkey) (Hauth : length Token.mint_authority_pda = 32%nat).
Abbreviation md := (token_metadata_pda (wrapped_mint c)).1.
Definition creation (who : Pubkey) : CreateTokenMetadata :=
  {| ct_admin := who; ct_wrapped_mint := wrapped_mint c; ct_metadata := md |}.
Definition update (who : Pubkey) : UpdateTokenMetadata := {| ut_admin := who; ut_metadata := md |}.
Definition shown (name symbol uri : str) : TokenMetadataSnapshot :=
  {| tm_update_authority := Token.mint_authority_pda; tm_mint := wrapped_mint c;
     tm_name := name; tm_symbol := symbol; tm_uri := uri |}.
(** The account holds these texts, for this mint and under the program's authority. *)
Definition holds (name symbol uri : str) (s : AccountStore) : Prop :=
  exists beyond, s !! md = Some (metadata_account Token.mint_authority_pda (wrapped_mint c) name symbol uri 0 true beyond).
(** Texts the update accepts. *)
Definition acceptable (name symbol uri : str) : Prop :=
  name <> [] /\ symbol <> [] /\ texts_fit name symbol uri.

Lemma holds_initialized name symbol uri s :
  holds name symbol uri s -> exists a, initialized md s = Some a /\ s !! md = Some a.
Proof using.
  intros (beyond & H). unfold initialized. rewrite H. cbn [mbind option_bind]. eexists. split; [|done].
  by rewrite bool_decide_true.
Qed.

Lemma holds_shown name symbol uri s :
  holds name symbol uri s -> texts_fit name symbol uri -> plain_text name -> plain_text symbol -> plain_text uri ->
  exists a, s !! md = Some a /\ decode_token_metadata (acc_data a) = Ok (shown name symbol uri).
Proof using Hmint Hauth.
  intros (beyond & H) Hf Hn Hs Hu. eexists. split; [exact H|]. cbn [acc_data metadata_account].
  by rewrite decode_metadata.
Qed.

Lemma create_existing {Mx : Metaplex} name symbol uri uri' s :
  holds name symbol uri s -> (length uri' <= MAX_URI_LEN)%nat ->
  create_token_metadata (creation (admin c)) uri' b s = Ok s.
Proof using Hc Hset.
  intros (a & Hi & _)%holds_initialized Hu. unfold create_token_metadata. rewrite Hc. cbn -[MAX_URI_LEN].
  rewrite (bool_decide_false (wrapped_mint c = default_pubkey)), !bool_decide_true, (proj2 (Nat.leb_le _ _)) by done. cbn -[MAX_URI_LEN]. by rewrite Hi.
Qed.

Lemma create_fresh `{Mx : Metaplex, !MetaplexLaws Mx} uri s :
  s !! md = None -> mint_under s (wrapped_mint c) Token.mint_authority_pda -> pays_rent s (admin c) = true ->
  (length uri <= MAX_URI_LEN)%nat ->
  exists s', create_token_metadata (creation (admin c)) uri b s = Ok s' /\
    holds WRAPPED_GLC_NAME WRAPPED_GLC_SYMBOL uri s' /\ (forall k, k <> md -> s' !! k = s !! k).
Proof using Hc Hset Hmint Hauth.
  intros Hs Hm Hr Hu.
  assert (texts_fit WRAPPED_GLC_NAME WRAPPED_GLC_SYMBOL uri) as Hf
    by (split_and!; [by apply Nat.leb_le|by apply Nat.leb_le|done]).
  destruct (metaplex_create (create_metadata_cpi md (wrapped_mint c) (admin c) uri) (wrapped_mint c)
              Token.mint_authority_pda (admin c) Token.mint_authority_pda _ _ _ _ _ s eq_refl eq_refl
              (create_cpi_documented _ _ _ _ Hf) Hf ltac:(lia) Hmint Hauth Hauth Hs Hm Hr) as (beyond & Hx).
  unfold create_token_metadata. rewrite Hc. cbn -[MAX_URI_LEN create_metadata_cpi].
  rewrite (bool_decide_false (wrapped_mint c = default_pubkey)), !bool_decide_true, (proj2 (Nat.leb_le _ _)) by done. cbn -[MAX_URI_LEN create_metadata_cpi].
  unfold initialized. rewrite Hs. cbn [mbind option_bind]. unfold invoke_signed. rewrite Hx.
  eexists. split_and!.
  - cbn [si_accounts create_metadata_cpi forallb am_is_signer am_pubkey writable readonly negb orb andb].
    rewrite !bool_decide_true by (rewrite !elem_of_cons; tauto). reflexivity.
  - exists beyond. apply lookup_insert_eq.
  - intros k Hk. by rewrite lookup_insert_ne.
Qed.

Lemma update_guards {Mx : Metaplex} name symbol uri name' symbol' uri' s beyond :
  s !! md = Some (metadata_account Token.mint_authority_pda (wrapped_mint c) name symbol uri 0 true beyond) ->
  acceptable name' symbol' uri' ->
  update_token_metadata (update (admin c)) name' symbol' uri' b s =
  if bool_decide (read_metadata_strings (metadata_data Token.mint_authority_pda (wrapped_mint c) name symbol uri 0 true beyond) =
                  Some (name', symbol', uri')) then Ok s
  else invoke_signed (update_metadata_cpi md name' symbol' uri') [admin c; Token.mint_authority_pda] s.
Proof using Hc Hset Hmint Hauth.
  intros Hs (Hn & Hy & F1 & F2 & F3). unfold update_token_metadata. rewrite Hc.
  cbn -[MAX_URI_LEN MAX_NAME_LEN MAX_SYMBOL_LEN update_metadata_cpi metadata_data METADATA_MINT_OFFSET].
  rewrite (bool_decide_false (wrapped_mint c = default_pubkey)), (bool_decide_false (name' = [])),
    (bool_decide_false (symbol' = [])), !bool_decide_true by done.
  rewrite !(proj2 (Nat.leb_le _ _)) by done.
  cbn -[MAX_URI_LEN MAX_NAME_LEN MAX_SYMBOL_LEN update_metadata_cpi metadata_data METADATA_MINT_OFFSET].
  unfold initialized. rewrite Hs. cbn [mbind option_bind].
  rewrite bool_decide_true by done.
  cbn [ok_or mbind result_bind acc_data metadata_account].
  rewrite stored_mint_read by done. cbn [ok_or mbind result_bind]. by rewrite (bool_decide_true (wrapped_mint c = wrapped_mint c)).
Qed.

Lemma update_same {Mx : Metaplex} name symbol uri s :
  holds name symbol uri s -> acceptable name symbol uri ->
  plain_text name -> plain_text symbol -> plain_text uri ->
  update_token_metadata (update (admin c)) name symbol uri b s = Ok s.
Proof using Hc Hset Hmint Hauth.
  intros (beyond & Hs) Ha Hn Hy Hu. rewrite (update_guards name symbol uri _ _ _ _ _ Hs) by done.
  rewrite read_metadata by (done || apply Ha). by rewrite bool_decide_true.
Qed.

Lemma update_writes `{Mx : Metaplex, !MetaplexLaws Mx} name symbol uri name' symbol' uri' s :
  holds name symbol uri s -> texts_fit name symbol uri ->
  plain_text name -> plain_text symbol -> plain_text uri -> acceptable name' symbol' uri' ->
  exists s', update_token_metadata (update (admin c)) name' symbol' uri' b s = Ok s' /\
    holds name' symbol' uri' s' /\ (forall k, k <> md -> s' !! k = s !! k).
Proof using Hc Hset Hmint Hauth.
  intros (beyond & Hs) Hf Hn Hy Hu Ha. rewrite (update_guards name symbol uri _ _ _ _ _ Hs) by done.
  rewrite read_metadata by done. case_bool_decide as E.
  { injection E as <- <- <-. exists s. split_and!; [done|by exists beyond|done]. }
  pose proof (proj2 (proj2 Ha)) as Hf'.
  destruct (metaplex_update (update_metadata_cpi md name' symbol' uri') (wrapped_mint c) Token.mint_authority_pda
              name symbol uri 0 beyond _ _ _ _ s eq_refl eq_refl (update_cpi_documented _ _ _ _ Hf') Hf' ltac:(lia)
              Hmint Hauth Hs) as (beyond' & Hx).
  unfold invoke_signed. rewrite Hx. eexists. split_and!.
  - cbn [si_accounts update_metadata_cpi forallb am_is_signer am_pubkey writable readonly negb orb andb].
    rewrite bool_decide_true by (rewrite !elem_of_cons; tauto). reflexivity.
  - exists beyond'. apply lookup_insert_eq.
  - intros k Hk. by rewrite lookup_insert_ne.
Qed.

(** C39: The token's name reads back: only the admin writes it; from an empty account
    his creation stores the bridge's name and symbol with his address, the relayer
    decodes exactly these texts under the program's authority and for the bridge's mint,
    and creating again changes nothing; an update with texts that fit reads back as
    given, and repeating it calls Metaplex no more. No other account is touched. Assumed
    of Metaplex, over raw instructions whose bytes and account list are decoded apart
    from the program's builders: variant 33 under the mint's authority with a payer who
    has the rent, variant 15 under the update authority. The mint's account must name
    the program's address as authority, and the admin have the rent. *)
Theorem metadata_reads_back `{Mx : Metaplex, !MetaplexLaws Mx} s uri :
  s !! md = None -> mint_under s (wrapped_mint c) Token.mint_authority_pda -> pays_rent s (admin c) = true ->
  (length uri <= MAX_URI_LEN)%nat -> plain_text uri ->
  (forall who uri' s', who <> admin c ->
     create_token_metadata (creation who) uri' b s' = Err (Bridge_error UnauthorizedAdmin)) /\
  (forall who name symbol uri' s', who <> admin c ->
     update_token_metadata (update who) name symbol uri' b s' = Err (Bridge_error UnauthorizedAdmin)) /\
  exists s1 a1, create_token_metadata (creation (admin c)) uri b s = Ok s1 /\
    s1 !! md = Some a1 /\ decode_token_metadata (acc_data a1) = Ok (shown WRAPPED_GLC_NAME WRAPPED_GLC_SYMBOL uri) /\
    (forall k, k <> md -> s1 !! k = s !! k) /\
    (forall uri', (length uri' <= MAX_URI_LEN)%nat -> create_token_metadata (creation (admin c)) uri' b s1 = Ok s1) /\
    forall name symbol uri', acceptable name symbol uri' ->
      plain_text name -> plain_text symbol -> plain_text uri' ->
      exists s2 a2, update_token_metadata (update (admin c)) name symbol uri' b s1 = Ok s2 /\
        s2 !! md = Some a2 /\ decode_token_metadata (acc_data a2) = Ok (shown name symbol uri') /\
        (forall k, k <> md -> s2 !! k = s !! k) /\
        (forall Mx' : Metaplex, update_token_metadata (update (admin c)) name symbol uri' b s2 = Ok s2).
Proof using Hc Hset Hmint Hauth.
  intros Hs Hm Hr Hl Hp.
  assert (plain_text WRAPPED_GLC_NAME /\ plain_text WRAPPED_GLC_SYMBOL) as [Hpn Hps] by (by split; split; vm_compute).
  split_and!.
  - intros who uri' s' Hw. unfold create_token_metadata. rewrite Hc. cbn [Program.load ok_or mbind result_bind].
    rewrite (bool_decide_false (admin c = ct_admin (creation who))) by (intros E; by apply Hw). done.
  - intros who name symbol uri' s' Hw. unfold update_token_metadata. rewrite Hc. cbn [Program.load ok_or mbind result_bind].
    rewrite (bool_decide_false (admin c = ut_admin (update who))) by (intros E; by apply Hw). done.
  - destruct (create_fresh uri s Hs Hm Hr Hl) as (s1 & Hx & Hh & Hk).
    assert (texts_fit WRAPPED_GLC_NAME WRAPPED_GLC_SYMBOL uri) as Hf
      by (split_and!; [by apply Nat.leb_le|by apply Nat.leb_le|done]).
    destruct (holds_shown _ _ _ _ Hh Hf Hpn Hps Hp) as (a1 & Ha1 & Hd1).
    exists s1, a1. split_and!; try done; [intros uri'; by apply (create_existing _ _ _ _ _ Hh)|].
    intros name symbol uri' Ha Hn Hy Hu. destruct (update_writes _ _ _ name symbol uri' s1 Hh) as (s2 & Hx2 & Hh2 & Hk2); try done.
    destruct (holds_shown _ _ _ _ Hh2 (proj2 (proj2 Ha)) Hn Hy Hu) as (a2 & Ha2 & Hd2).
    exists s2, a2. split_and!; try done; [intros k Hne; by rewrite Hk2, Hk|].
    intros Mx'. by apply update_same.
Qed.
End displayed.

(** ** A Metaplex that follows the documentation *)

Definition toy_create (ix : SolanaInstruction) (name symbol uri : str) (fee : Z) (is_mutable : bool) (s : AccountStore)
  : option AccountStore :=
  match si_accounts ix with
  | [md; mint; authority; payer; update_authority; _; _] =>
      guard (s !! am_pubkey md = None);;
      guard (am_is_signer authority && am_is_signer payer = true);;
      a ← s !! am_pubkey mint;
      guard (get_range (acc_data a) 4 36 = Some (am_pubkey authority));;
      Some (<[am_pubkey md := metadata_account (am_pubkey update_authority) (am_pubkey mint) name symbol uri fee
                is_mutable []]> s)
  | _ => None
  end.

Definition toy_update (ix : SolanaInstruction) (name symbol uri : str) (fee : Z) (s : AccountStore)
  : option AccountStore :=
  match si_accounts ix with
  | [md; authority] =>
      guard (am_is_signer authority = true);;
      a ← s !! am_pubkey md;
      guard (get_range (acc_data a) 1 33 = Some (am_pubkey authority));;
      mint ← get_range (acc_data a) 33 65;
      Some (<[am_pubkey md := metadata_account (am_pubkey authority) mint name symbol uri fee true []]> s)
  | _ => None
  end.

Definition toy_metaplex : Metaplex :=
  {| metaplex ix s :=
       match documented_instruction (si_data ix) with
       | Some (CreateMetadataAccountV3 name symbol uri fee is_mutable) => toy_create ix name symbol uri fee is_mutable s
       | Some (UpdateMetadataAccountV2 name symbol uri fee) => toy_update ix name symbol uri fee s
       | None => None
       end;
     pays_rent _ _ := true |}.

Lemma toy_metaplex_laws `{Rt : SolanaRuntime} : MetaplexLaws toy_metaplex.
Proof.
  constructor.
  - intros ix mint authority payer ua name symbol uri fee mu s _ Ha Hd Hf _ Hm Hau _ Hs (rest & _ & Hr) _.
    exists []. cbn [metaplex toy_metaplex]. rewrite Hd. unfold toy_create. rewrite Ha. cbn [am_pubkey am_is_signer].
    rewrite option_guard_True by done. rewrite option_guard_True by done. rewrite Hr. cbn [mbind option_bind acc_data].
    rewrite option_guard_True; [done|]. apply (get_range_app [x01; x00; x00; x00] authority); [done|by rewrite Hau].
  - intros ix mint authority name symbol uri fee beyond name' symbol' uri' fee' s _ Ha Hd Hf _ Hm Hau Hs.
    exists []. cbn [metaplex toy_metaplex]. rewrite Hd. unfold toy_update. rewrite Ha. cbn [am_pubkey am_is_signer].
    rewrite option_guard_True by done. rewrite Hs. cbn [mbind option_bind acc_data metadata_account].
    rewrite option_guard_True by (unfold metadata_data; apply (get_range_app [x04] authority); [done|by rewrite Hau]).
    pose proof (stored_mint_read authority mint name symbol uri fee true beyond Hau Hm) as H.
    unfold METADATA_MINT_OFFSET in H. cbn [Nat.add] in H. by rewrite H.
Qed.

Section sample.
(** [toy_solana], but no address is its own last seed. *)
Definition distinct_pdas : SolanaRuntime :=
  {| find_program_address seeds program_id := (take 32 (xff :: concat (rev seeds) ++ program_id ++ replicate 32 x00), 255);
     spl_token_ID := replicate 32 x06; system_program_id := replicate 32 x00;
     instructions_sysvar_ID := replicate 32 x08; rent_sysvar_ID := replicate 32 x09;
     bpf_loader_upgradeable_id := replicate 32 x0a |}.
#[local] Existing Instance distinct_pdas.
#[local] Existing Instance toy_runtime.
#[local] Existing Instance toy_metaplex.

(** The mint of the sample history, under the program's authority. *)
Definition metadata_world : AccountStore :=
  {[wrapped_mint demo_config_2 :=
      {| acc_owner := spl_token_ID; acc_data := [x01; x00; x00; x00] ++ Token.mint_authority_pda ++ replicate 46 x00 |}]}.

(** Created, then renamed: what the wallets show. *)
Example renamed_token :
  let mint := wrapped_mint demo_config_2 in
  let md := (token_metadata_pda mint).1 in
  let shown s := (fun a => (fun m => (tm_name m, tm_symbol m, tm_uri m)) <$>
                   match decode_token_metadata (acc_data a) with Ok m => Some m | Err _ => None end) <$> s !! md in
  match create_token_metadata (creation demo_config_2 (admin demo_config_2)) (lit "u") (demo_state 3) metadata_world with
  | Ok s =>
      match update_token_metadata (update demo_config_2 (admin demo_config_2)) (lit "GLC") (lit "G") [] (demo_state 3) s with
      | Ok s' => (shown s, shown s')
      | Err _ => (None, None)
      end
  | Err _ => (None, None)
  end = (Some (Some (WRAPPED_GLC_NAME, WRAPPED_GLC_SYMBOL, lit "u")), Some (Some (lit "GLC", lit "G", []))).
Proof. vm_compute. reflexivity. Qed.

Lemma metadata_reads_back_witness :
  exists s1, create_token_metadata (creation demo_config_2 (admin demo_config_2)) (lit "u") (demo_state 3) metadata_world = Ok s1 /\
    exists s2, update_token_metadata (update demo_config_2 (admin demo_config_2)) (lit "GLC") (lit "G") [] (demo_state 3) s1 =
      Ok s2.
Proof.
  unshelve epose proof (@metadata_reads_back distinct_pdas ledger toy_runtime (demo_state 3) demo_config_2
    _ _ _ _ toy_metaplex toy_metaplex_laws metadata_world (lit "u") _ _ _ _ _) as H.
  - vm_compute. reflexivity.
  - vm_compute. reflexivity.
  - vm_compute. congruence.
  - vm_compute. reflexivity.
  - vm_compute. reflexivity.
  - exists (replicate 46 x00). split; [reflexivity|]. vm_compute. reflexivity.
  - reflexivity.
  - by apply Nat.leb_le.
  - split; vm_compute; reflexivity.
  - destruct H as (_ & _ & s1 & a1 & Hx & _ & _ & _ & _ & Hup). exists s1. split; [exact Hx|].
    destruct (Hup (lit "GLC") (lit "G") []) as (s2 & a2 & Hx2 & _).
    + split_and!; [discriminate|discriminate|]. split_and!; by apply Nat.leb_le.
    + split; vm_compute; reflexivity.
    + split; vm_compute; reflexivity.
    + split; vm_compute; reflexivity.
    + by exists s2.
Defined.
End sample.
