(* ===== verification/Admin.v ===== *)
(** * The operator's tool: [relayer/src/bin/glc-admin.rs]

    Every command as a function of its arguments, the environment and what
    it reads.  A recovery command changes the operator's own database; an
    approval command returns the path and the text it writes; an on-chain
    command runs over the node ([SolanaRpc]), the federation
    ([PeerNetwork]) and the Goldcoin node ([GoldcoinHttp]).  What is
    printed is not modelled, and neither is the writing of the file. *)
From Stdlib Require Import ZArith Lia Strings.Byte.
From stdpp Require Import base numbers strings gmap list.
From S2P Require Import Rpc NodeClient Adapter SignatureProof Wallet.
From S2P Require FederationProps Scenario Safety Governance.
From S2P Require DepositDb WithdrawalDb WithdrawalDbProps OfflineAuditProps WithdrawalConfig SweepView Sweep Configuration.
From S2P Require Import Federation.
From S2P Require Program Handlers Invariants.
From S2P Require Import Prelude Effects Messages State Token Hex Text Vault Multisig.
From S2P Require Import Identity Aggregation GovernanceView Accounts SolanaInstruction SolanaRpc TokenMetadata.
From S2P Require Import Collector ChainPass Preflight.

Inductive AdminError :=
| Usage (name : str)
| EmptyNote
| BadNumber (name : str)
| BadKey (key reason : str)
| EnvironmentNotSet (name : str)
| BadConfig (e : WithdrawalConfig.WithdrawalConfigError)
| BadCommitment (s : str)
| BadHex (name : str) (e : HexFault)
| UnreadableKeypair (path : str)
| DepositFailed (e : DepositDb.DbError)
| WithdrawalFailed (e : DepositDb.DbError)
| NoDeposit (id : Z)
| NoWithdrawal (index : Z)
| NoPayout (index : Z)
| InvalidQuorum (e : VaultError)
| PayoutAlreadySigned (index : Z)
| ImpossibleThreshold (threshold : Z) (validators : nat)
| ZeroCap
| ZeroTimelock
| StoreFailed (e : GovernanceFault)
| PlanFailed (e : Sweep.SweepError)
| DifferentSweep (actual claimed : list byte)
| SolanaFailed (e : SolanaRpcError)
| NoSuchAccount (what : str)
| PreflightRefused (e : PreflightRefusal)
| PeersInvalid (e : IdentityError)
| NodeFailed (e : RpcError)
| NodeTransaction (e : MultisigError)
| NodeBuiltAnother (e : Sweep.SweepError)
| AssemblyFailed (e : MultisigError)
| InputsMissing
| MintAlreadySet (mint : Pubkey)
| NoHandover
| NotTheIncomingAdmin (pending : Pubkey)
| NoMintYet
| WrongMetadata (fields : list str).

Section arguments.
Context (args : list str).

Definition require_arg (name : String.string) : result AdminError str :=
  ok_or (arg args name) (Usage (lit name)).

Definition require_note : result AdminError str :=
  let* note := require_arg "--note" in
  require (negb (is_blank note)) EmptyNote ;;*
  Ok note.

(** [require(args, name).parse()?] at an unsigned width, and at [i64]. *)
Definition number_arg (max : Z) (name : String.string) : result AdminError Z :=
  let* s := require_arg name in ok_or (parse_unsigned max s) (BadNumber (lit name)).
Definition i64_arg (name : String.string) : result AdminError Z :=
  let* s := require_arg name in ok_or (parse_i64 s) (BadNumber (lit name)).

(** The comma-separated keys of [--validators]. *)
Definition validators_arg `{K : PubkeyText} : result AdminError (list Pubkey) :=
  let* raw := require_arg "--validators" in
  mapM (fun s => map_err (BadKey s) (pubkey_from_str s)) (entries ","%byte raw).

Definition possible_threshold (threshold : Z) (validators : list Pubkey) : result AdminError unit :=
  require (negb ((threshold =? 0) || (Z.of_nat (length validators) <? threshold)))
    (ImpossibleThreshold threshold (length validators)).

(** ** Recovery *)

Definition clear_deposit_halt (now : Z) (db : DepositDb.Db) : DepositDb.Db * result AdminError unit :=
  match (let* _ := require_arg "--db" in
         let* id := i64_arg "--id" in
         let* to := require_arg "--to" in
         let* to := map_err DepositFailed (DepositDb.parse to) in
         let* note := require_note in
         let* _ := ok_or (DepositDb.get_by_id db id) (NoDeposit id) in
         Ok (id, to, note)) with
  | Err e => (db, Err e)
  | Ok (id, to, note) =>
      let (db, r) := DepositDb.operator_clear_integrity_halt id to note now db in
      (db, map_err DepositFailed r)
  end.

Definition clear_withdrawal_halt (now : Z) (db : WithdrawalDb.Tables)
  : WithdrawalDb.Tables * result AdminError unit :=
  match (let* _ := require_arg "--db" in
         let* index := i64_arg "--index" in
         let* to := require_arg "--to" in
         let* to := map_err WithdrawalFailed (WithdrawalDb.parse to) in
         let* note := require_note in
         let* _ := ok_or (WithdrawalDb.get_withdrawal index db) (NoWithdrawal index) in
         Ok (index, to, note)) with
  | Err e => (db, Err e)
  | Ok (index, to, note) =>
      let (db, r) := WithdrawalDb.operator_clear_withdrawal_halt index to note now db in
      (db, map_err WithdrawalFailed r)
  end.

(** [--quorum], one [u8] per member. *)
Definition quorum_arg : result AdminError (list byte) :=
  let* raw := require_arg "--quorum" in
  mapM (fun s => byte_of_Z <$> ok_or (parse_unsigned U8_MAX s) (BadNumber (lit "--quorum"))) (entries ","%byte raw).

(** ** Approvals *)

(** The path and the text to be written there. *)
Definition stage_approval (read : str -> FileRead) (a : Approval) : result AdminError (str * str) :=
  let* path := require_arg "--approvals" in
  let* store := map_err StoreFailed (GovernanceView.load (read path)) in
  Ok (path, GovernanceView.to_text (stage a store)).

Section staging.
Context `{Sh : Sha2, K : PubkeyText} (read : str -> FileRead) (now : Z).

Definition commitment_of (params : list byte) : list byte := sha256 params.

Definition approve_rotation : result AdminError (str * str) :=
  let* epoch := number_arg U64_MAX "--epoch" in
  let* threshold := number_arg U8_MAX "--threshold" in
  let* validators := validators_arg in
  possible_threshold threshold validators ;;*
  let* note := require_note in
  stage_approval read
    {| ap_action := ACTION_PROPOSE_ROTATION; ap_params_commitment := commitment_of (rotation_params threshold validators);
       ap_epoch := epoch; ap_expiry_unix := now + APPROVAL_TTL_SECONDS; ap_note := note |}.

Definition approve_tvl_raise : result AdminError (str * str) :=
  let* epoch := number_arg U64_MAX "--epoch" in
  let* new_max := number_arg U64_MAX "--new-max" in
  require (negb (new_max =? 0)) ZeroCap ;;*
  let* note := require_note in
  stage_approval read
    {| ap_action := ACTION_PROPOSE_TVL_RAISE; ap_params_commitment := commitment_of (tvl_raise_params new_max);
       ap_epoch := epoch; ap_expiry_unix := now + APPROVAL_TTL_SECONDS; ap_note := note |}.

Definition approve_cancel : result AdminError (str * str) :=
  let* epoch := number_arg U64_MAX "--epoch" in
  let* pending_action := number_arg U8_MAX "--pending-action" in
  let* pending_eta := i64_arg "--pending-eta" in
  let* note := require_note in
  stage_approval read
    {| ap_action := ACTION_CANCEL_ROTATION; ap_params_commitment := commitment_of (cancel_params pending_action pending_eta);
       ap_epoch := epoch; ap_expiry_unix := now + APPROVAL_TTL_SECONDS; ap_note := note |}.

Definition GOVERNANCE_ACTIONS : list Z :=
  [ACTION_PROPOSE_ROTATION; ACTION_CANCEL_ROTATION; ACTION_PROPOSE_TVL_RAISE].

(** The approvals listed, and whether each has expired. *)
Definition list_approvals : result AdminError (list (Approval * bool)) :=
  let* path := require_arg "--approvals" in
  let* store := map_err StoreFailed (GovernanceView.load (read path)) in
  Ok (omap (fun action => (fun a => (a, ap_expiry_unix a <? now)) <$> store !! action) GOVERNANCE_ACTIONS).

(** One turn of the loop of [revoke_approval]. *)
Definition keep_others (store : ApprovalStore) (action : Z) (kept : ApprovalStore) (a : Z) : ApprovalStore :=
  if a =? action then kept else match store !! a with Some x => stage x kept | None => kept end.

Definition revoke_approval : result AdminError (str * str) :=
  let* path := require_arg "--approvals" in
  let* action := number_arg U8_MAX "--action" in
  let* store := map_err StoreFailed (GovernanceView.load (read path)) in
  Ok (path, GovernanceView.to_text (foldl (keep_others store action) ∅ GOVERNANCE_ACTIONS)).
End staging.

(** ** The environment *)

Section environment.
Context `{Sh : Sha2, Rm : Ripemd160} (env : str -> option str).

Definition env_required (name : String.string) : result AdminError str :=
  map_err EnvironmentNotSet (Federation.env_required env (lit name)).
Definition env_number (max : Z) (name : String.string) : result AdminError Z :=
  let* v := env_required name in ok_or (parse_unsigned max v) (BadNumber (lit name)).
Definition env_i64 (name : String.string) : result AdminError Z :=
  let* v := env_required name in ok_or (parse_i64 v) (BadNumber (lit name)).

Definition withdrawal_config_from_env : result AdminError WithdrawalConfig.WithdrawalConfig :=
  let* redeem := env_required "GLC_VAULT_REDEEM_SCRIPT_HEX" in
  let* address := env_required "GLC_VAULT_ADDRESS" in
  let* change := env_required "GLC_VAULT_CHANGE_ADDRESS" in
  let* rate := env_number U64_MAX "GLC_PAYOUT_FEE_RATE_PER_KB" in
  let* dust := env_number U64_MAX "GLC_PAYOUT_DUST_THRESHOLD_ATOMIC" in
  let* minconf := env_i64 "GLC_VAULT_MIN_CONFIRMATIONS" in
  let* depth := env_i64 "GLC_WITHDRAWAL_CONFIRMATION_DEPTH" in
  let* max_inputs := env_number U64_MAX "GLC_PAYOUT_MAX_INPUTS" in
  let* timeout := env_i64 "GLC_PAYOUT_RESERVATION_TIMEOUT_SECS" in
  let* commitment := env_required "GLC_WITHDRAWAL_DISCOVERY_COMMITMENT" in
  map_err BadConfig (WithdrawalConfig.validate
    {| WithdrawalConfig.raw_vault_redeem_script_hex := redeem; WithdrawalConfig.raw_vault_address := address;
       WithdrawalConfig.raw_change_address := change; WithdrawalConfig.raw_fee_rate_per_kb := rate;
       WithdrawalConfig.raw_dust_threshold_atomic := dust; WithdrawalConfig.raw_vault_min_confirmations := minconf;
       WithdrawalConfig.raw_confirmation_depth := depth;
       WithdrawalConfig.raw_max_inputs_per_payout := Z.to_nat max_inputs;
       WithdrawalConfig.raw_reservation_timeout_secs := timeout;
       WithdrawalConfig.raw_discovery_commitment := commitment; WithdrawalConfig.raw_poll_interval_ms := 5000 |}).

Definition protocol_version_from_env : result AdminError Z := env_number U8_MAX "GLC_PROTOCOL_VERSION".

(** [Chain]: the program; the client is the node of the class. *)
Definition chain_from_env : result AdminError Pubkey :=
  let* commitment := env_required "GLC_SOLANA_COMMITMENT" in
  let* _ := map_err (fun _ => BadCommitment commitment) (Configuration.parse_commitment commitment) in
  let* program_id := env_required "GLC_PROGRAM_ID_HEX" in
  let* program_id := map_err (BadHex (lit "GLC_PROGRAM_ID_HEX")) (decode_exact 32 program_id) in
  let* _ := env_required "GLC_SOLANA_RPC_URL" in
  Ok program_id.

(** Up to the client: its three settings. *)
Definition goldcoin_rpc_from_env : result AdminError unit :=
  let* _ := env_required "GLC_RPC_URL" in
  let* _ := env_required "GLC_RPC_USER" in
  let* _ := env_required "GLC_RPC_PASSWORD" in
  Ok tt.

Definition keypair_at (read_keypair : str -> option Pubkey) (var : String.string) : result AdminError Pubkey :=
  let* path := env_required var in ok_or (read_keypair path) (UnreadableKeypair path).

Definition collector_from_env `{K : PubkeyText} (read : str -> result str (list byte))
  : result AdminError GrpcCollector :=
  let* raw := env_required "GLC_FEDERATION_PEERS" in
  let* ps := map_err PeersInvalid (parse_peers raw None) in
  if bool_decide (env (lit "GLC_FEDERATION_TLS") = Some (lit "off")) then Ok (insecure_without_tls ps)
  else
    let* ca := env_required "GLC_FEDERATION_CA_CERT_PATH" in
    let* cert := env_required "GLC_RELAYER_TLS_CERT_PATH" in
    let* key := env_required "GLC_RELAYER_TLS_KEY_PATH" in
    let* tls := map_err PeersInvalid (Identity.load read {| path_ca := ca; path_cert := cert; path_key := key |}) in
    let* domain := env_required "GLC_FEDERATION_TLS_DOMAIN" in
    Ok (grpc_collector ps tls domain).

(** ** A payout's signers *)

(** The new designation, its intent and the reason, from what the database holds. *)
Definition reassignment (db : WithdrawalDb.Tables)
  : result AdminError (Z * list byte * list byte * str * str) :=
  let* cfg := withdrawal_config_from_env in
  let* _ := require_arg "--db" in
  let* index := i64_arg "--index" in
  let* note := require_note in
  let* new_quorum := quorum_arg in
  map_err InvalidQuorum (validate_quorum (WithdrawalConfig.vault cfg) new_quorum) ;;*
  let* payout := ok_or (WithdrawalDb.get_payout index db) (NoPayout index) in
  require (match WithdrawalDb.p_signed_tx_hex payout with Some _ => false | None => true end)
    (PayoutAlreadySigned index) ;;*
  let* w := ok_or (WithdrawalDb.get_withdrawal index db) (NoWithdrawal index) in
  let t := WithdrawalDb.p_terms payout in
  let attempt := as_u32 (WithdrawalDb.t_quorum_attempt t + 1) in
  let change_hash160 :=
    if 0 <? WithdrawalDb.t_change t then WithdrawalConfig.change_hash160 cfg else replicate 20 x00 in
  let intent :=
    WithdrawalDb.canonical_payout_intent (WithdrawalDb.w_version w) index
      (script_hash160 (WithdrawalConfig.vault cfg)) (WithdrawalDb.w_hash160 w) (WithdrawalDb.t_payout t)
      (WithdrawalDb.t_fee t) (WithdrawalDb.t_change t) change_hash160 attempt new_quorum
      (WithdrawalDb.payout_inputs index db) in
  Ok (index, new_quorum, intent, WithdrawalDb.t_unsigned_tx_hex t, note).

Definition reassign_quorum (now : Z) (db : WithdrawalDb.Tables) : WithdrawalDb.Tables * result AdminError Z :=
  match reassignment db with
  | Err e => (db, Err e)
  | Ok (index, new_quorum, intent, unsigned, note) =>
      let (db, r) := WithdrawalDb.reassign_payout_quorum index new_quorum (WithdrawalDb.payout_commitment intent)
                       intent unsigned note now db in
      (db, map_err WithdrawalFailed r)
  end.

(** ** Sweeps *)

Definition build_plan (cfg : WithdrawalConfig.WithdrawalConfig) (db : WithdrawalDb.Tables)
  : result AdminError Sweep.SweepPlan :=
  let* dest := require_arg "--dest-hash160" in
  let* dest_hash160 := map_err (BadHex (lit "--dest-hash160")) (decode_exact 20 dest) in
  let* dest_address := require_arg "--dest-address" in
  map_err PlanFailed
    (Sweep.plan_sweep (script_hash160 (WithdrawalConfig.vault cfg)) (Sweep.p2sh dest_hash160 dest_address)
       (WithdrawalDb.available_utxos (WithdrawalConfig.vault_min_confirmations cfg) db)
       (WithdrawalConfig.fee_rate_per_kb cfg) (WithdrawalConfig.dust_threshold_atomic cfg)
       (WithdrawalConfig.max_inputs_per_payout cfg)).

(** How many outputs the warning says the plan leaves behind. *)
Definition reserved_outputs (cfg : WithdrawalConfig.WithdrawalConfig) (db : WithdrawalDb.Tables) : Z :=
  Z.max 0 ((WithdrawalDb.vault_utxo_stats db).1 -
           Z.of_nat (length (WithdrawalDb.available_utxos (WithdrawalConfig.vault_min_confirmations cfg) db))).

Definition sweep_plan (db : WithdrawalDb.Tables) : result AdminError (list byte) :=
  let* cfg := withdrawal_config_from_env in
  let* protocol_version := protocol_version_from_env in
  let* _ := require_arg "--db" in
  let* plan := build_plan cfg db in
  Ok (Sweep.commitment protocol_version plan).

Definition sweep_approve (now : Z) (db : WithdrawalDb.Tables) : result AdminError (str * str) :=
  let* cfg := withdrawal_config_from_env in
  let* protocol_version := protocol_version_from_env in
  let* _ := require_arg "--db" in
  let* note := require_note in
  let* claimed := require_arg "--commitment" in
  let* claimed := map_err (BadHex (lit "--commitment")) (decode_exact 32 claimed) in
  let* plan := build_plan cfg db in
  let actual := Sweep.commitment protocol_version plan in
  require (bool_decide (actual = claimed)) (DifferentSweep actual claimed) ;;*
  let* path := require_arg "--sweep-approvals" in
  Ok (path, SweepView.to_text
        {| SweepView.sa_commitment := actual; SweepView.sa_expiry_unix := now + SweepView.SWEEP_APPROVAL_TTL_SECONDS;
           SweepView.sa_note := note |}).

(** The file to be removed. *)
Definition sweep_revoke : result AdminError str := require_arg "--sweep-approvals".
End environment.
End arguments.

(** ** On the chain *)

Section chain.
Context `{Sh : Sha2, Rt : SolanaRuntime, Rm : Ripemd160, K : PubkeyText, Ed : Ed25519} {R : Runtime}.
Context {outside : Type} `{N : SolanaRpc outside, Nw : PeerNetwork outside}.
Context (args : list str) (env : str -> option str).
(** [read_keypair_file], and [std::fs::read]. *)
Context (read_keypair : str -> option Pubkey) (read : str -> result str (list byte)).
Abbreviation M := (SE outside AdminError).

Definition call {A} (f : outside -> outside * result SolanaRpcError A) : M A := fun o =>
  let (o, r) := f o in (o, map_err SolanaFailed r).
Definition now_unix : M Z := fun o => let (o, t) := unix_now o in (o, Ok t).
Definition chain_from : M Pubkey := lift (chain_from_env env).
Definition keypair (var : String.string) : M Pubkey := lift (keypair_at env read_keypair var).
Abbreviation admin_key := (keypair "GLC_ADMIN_KEYPAIR_PATH").
Abbreviation submitter_key := (keypair "GLC_SOLANA_SUBMITTER_KEYPAIR_PATH").

Definition submit (instructions : list SolanaInstruction) (payer : Pubkey) : M str :=
  blockhash ← call get_latest_blockhash;
  call (send_transaction {| tx_instructions := instructions; tx_payer := payer; tx_signers := [payer];
                            tx_blockhash := blockhash |}).

Definition validator_set (program_id : Pubkey) : M ValidatorSetSnapshot :=
  account ← call (get_account (validator_set_pda program_id).1);
  account ← lift (ok_or account (NoSuchAccount (lit "validator set")));
  lift (map_err SolanaFailed (decode_validator_set (acc_data account))).

Definition pending_action (program_id : Pubkey) : M (option PendingActionSnapshot) :=
  account ← call (get_account (governance_action_pda program_id).1);
  match account with
  | Some a =>
      if bool_decide (acc_data a = []) then mret None
      else p ← lift (map_err SolanaFailed (decode_pending_action (acc_data a))); mret (Some p)
  | None => mret None
  end.

Definition bridge_config (program_id : Pubkey) : M BridgeConfigSnapshot :=
  account ← call (get_account (bridge_config_pda program_id).1);
  account ← lift (ok_or account (NoSuchAccount (lit "bridge config")));
  lift (map_err SolanaFailed (decode_bridge_config (acc_data account))).

(** *** The admin key *)

Definition set_paused (paused : bool) : M str :=
  _ ← lift (require_note args);
  program_id ← chain_from;
  admin ← admin_key;
  submit [set_paused_instruction program_id admin paused] admin.

Definition lower_tvl_cap : M str :=
  new_max ← lift (number_arg args U64_MAX "--new-max");
  _ ← lift (require_note args);
  _ ← lift (require (negb (new_max =? 0)) ZeroCap);
  program_id ← chain_from;
  admin ← admin_key;
  submit [lower_supply_cap_instruction program_id admin new_max] admin.

Definition initialize : M str :=
  _ ← lift (require_note args);
  threshold ← lift (number_arg args U8_MAX "--threshold");
  timelock ← lift (i64_arg args "--timelock-secs");
  max_supply ← lift (number_arg args U64_MAX "--max-supply");
  min_deposit ← lift (number_arg args U64_MAX "--min-deposit");
  min_withdrawal ← lift (number_arg args U64_MAX "--min-withdrawal");
  validators ← lift (validators_arg args);
  _ ← lift (possible_threshold threshold validators);
  _ ← lift (require (negb (timelock <=? 0)) ZeroTimelock);
  _ ← lift (require (negb (max_supply =? 0)) ZeroCap);
  program_id ← chain_from;
  authority ← admin_key;
  submit [initialize_instruction program_id authority validators threshold min_deposit min_withdrawal
            timelock max_supply] authority.

(** The mint signs as well. *)
Definition create_wrapped_mint : M str :=
  _ ← lift (require_note args);
  mint_path ← lift (require_arg args "--mint-keypair");
  mint ← lift (ok_or (read_keypair mint_path) (UnreadableKeypair mint_path));
  program_id ← chain_from;
  admin ← admin_key;
  existing ← bridge_config program_id;
  _ ← lift (require (negb (mint_is_configured existing)) (MintAlreadySet (bc_wrapped_mint existing)));
  blockhash ← call get_latest_blockhash;
  call (send_transaction
    {| tx_instructions := [create_wrapped_mint_instruction program_id admin mint];
       tx_payer := admin; tx_signers := [admin; mint]; tx_blockhash := blockhash |}).

Definition show_config : M (BridgeConfigSnapshot * ValidatorSetSnapshot) :=
  program_id ← chain_from;
  c ← bridge_config program_id;
  set ← validator_set program_id;
  mret (c, set).

Definition transfer_admin : M str :=
  _ ← lift (require_note args);
  new_admin ← lift (require_arg args "--new-admin");
  new_admin ← lift (map_err (BadKey new_admin) (pubkey_from_str new_admin));
  program_id ← chain_from;
  admin ← admin_key;
  submit [transfer_admin_instruction program_id admin new_admin] admin.

Definition accept_admin : M str :=
  _ ← lift (require_note args);
  program_id ← chain_from;
  new_admin ← admin_key;
  c ← bridge_config program_id;
  _ ← lift (match bc_pending_admin c with
            | None => Err NoHandover
            | Some p => require (bool_decide (p = new_admin)) (NotTheIncomingAdmin p)
            end);
  submit [accept_admin_instruction program_id new_admin] new_admin.

(** *** The token's name *)

Definition metadata_of (program_id : Pubkey) : M (Pubkey * Pubkey) :=
  cfg ← bridge_config program_id;
  _ ← lift (require (mint_is_configured cfg) NoMintYet);
  mret (bc_wrapped_mint cfg, (token_metadata_pda (bc_wrapped_mint cfg)).1).

Definition read_metadata_at (metadata_pda : Pubkey) : M TokenMetadataSnapshot :=
  account ← call (get_account metadata_pda);
  account ← lift (ok_or account (NoSuchAccount (lit "token metadata")));
  lift (map_err SolanaFailed (decode_token_metadata (acc_data account))).

Definition wrong_metadata (program_id mint : Pubkey) (m : TokenMetadataSnapshot) : list str :=
  concat
    [if bool_decide (tm_name m = WRAPPED_GLC_NAME) then [] else [lit "name"];
     if bool_decide (tm_symbol m = WRAPPED_GLC_SYMBOL) then [] else [lit "symbol"];
     if bool_decide (tm_mint m = mint) then [] else [lit "mint"];
     if bool_decide (tm_update_authority m = (SolanaInstruction.mint_authority_pda program_id).1) then []
     else [lit "update authority"]].

Definition token_metadata : M TokenMetadataSnapshot :=
  _ ← lift (require_note args);
  let uri := default WRAPPED_GLC_URI (arg args "--uri") in
  program_id ← chain_from;
  admin ← admin_key;
  '(mint, metadata_pda) ← metadata_of program_id;
  existing ← call (get_account metadata_pda);
  _ ← match existing with
      | Some a =>
          if bool_decide (acc_data a = []) then
            _ ← submit [create_token_metadata_instruction program_id admin mint uri] admin; mret tt
          else mret tt
      | None => _ ← submit [create_token_metadata_instruction program_id admin mint uri] admin; mret tt
      end;
  m ← read_metadata_at metadata_pda;
  let wrong := wrong_metadata program_id mint m in
  _ ← lift (require (bool_decide (wrong = [])) (WrongMetadata wrong));
  mret m.

Definition update_token_metadata : M TokenMetadataSnapshot :=
  _ ← lift (require_note args);
  program_id ← chain_from;
  admin ← admin_key;
  '(mint, metadata_pda) ← metadata_of program_id;
  current ← read_metadata_at metadata_pda;
  let name := default (tm_name current) (arg args "--name") in
  let symbol := default (tm_symbol current) (arg args "--symbol") in
  let uri := default (tm_uri current) (arg args "--uri") in
  if bool_decide (name = tm_name current /\ symbol = tm_symbol current /\ uri = tm_uri current) then mret current
  else
    _ ← submit [update_token_metadata_instruction program_id admin mint name symbol uri] admin;
    after ← read_metadata_at metadata_pda;
    _ ← lift (require (bool_decide (tm_name after = name /\ tm_symbol after = symbol /\ tm_uri after = uri))
                (WrongMetadata [tm_name after; tm_symbol after; tm_uri after]));
    _ ← lift (require (bool_decide (tm_mint after = mint)) (WrongMetadata [lit "mint"]));
    mret after.

(** *** Governance *)

Definition show_pending : M (option PendingActionSnapshot) :=
  program_id ← chain_from; pending_action program_id.

(** The verification instruction over M operators' signatures. *)
Definition collect_governance (program_id : Pubkey) (action : Z) (params : list byte) : M SolanaInstruction :=
  protocol_version ← lift (protocol_version_from_env env);
  set ← validator_set program_id;
  let commitment := commitment_of params in
  let message := governance_message protocol_version program_id (vs_epoch set) action commitment in
  C ← lift (collector_from_env env read);
  round ← (fun o => let (o, r) := collect_governance_signatures C (vs_epoch set) action commitment message o in (o, Ok r));
  _ ← lift (map_err PreflightRefused (enough_approvals (unique_signers round) (vs_threshold set)));
  mret (ed25519_instruction (Aggregation.signatures round) message).

Definition nothing_pending (program_id : Pubkey) : M unit :=
  pending ← pending_action program_id; lift (map_err PreflightRefused (can_propose pending)).

Definition submit_rotation : M str :=
  threshold ← lift (number_arg args U8_MAX "--threshold");
  _ ← lift (require_note args);
  validators ← lift (validators_arg args);
  _ ← lift (possible_threshold threshold validators);
  program_id ← chain_from;
  _ ← nothing_pending program_id;
  ed25519 ← collect_governance program_id ACTION_PROPOSE_ROTATION (rotation_params threshold validators);
  payer ← submitter_key;
  submit [ed25519; propose_rotation_instruction program_id payer validators threshold] payer.

Definition submit_tvl_raise : M str :=
  new_max ← lift (number_arg args U64_MAX "--new-max");
  _ ← lift (require_note args);
  _ ← lift (require (negb (new_max =? 0)) ZeroCap);
  program_id ← chain_from;
  _ ← nothing_pending program_id;
  ed25519 ← collect_governance program_id ACTION_PROPOSE_TVL_RAISE (tvl_raise_params new_max);
  payer ← submitter_key;
  submit [ed25519; propose_cap_raise_instruction program_id payer new_max] payer.

Definition submit_cancel : M str :=
  _ ← lift (require_note args);
  program_id ← chain_from;
  pending ← pending_action program_id;
  '(target_action, target_eta) ← lift (map_err PreflightRefused (cancel_target pending));
  ed25519 ← collect_governance program_id ACTION_CANCEL_ROTATION (cancel_params target_action target_eta);
  payer ← submitter_key;
  submit [ed25519; cancel_rotation_instruction program_id payer] payer.

Definition execute_queued (cap_raise : bool) : M str :=
  _ ← lift (require_note args);
  program_id ← chain_from;
  pending ← pending_action program_id;
  set ← validator_set program_id;
  now ← now_unix;
  _ ← lift (map_err PreflightRefused
              (can_execute pending (executed_action cap_raise) (vs_epoch set) now));
  payer ← submitter_key;
  submit [if cap_raise then execute_cap_raise_instruction program_id payer
          else execute_rotation_instruction program_id payer] payer.

(** *** The sweep *)

Context `{J : SerdeJson} `{Http : !GoldcoinHttp outside, DS : !Deserialize str} `{Sc : Secp256k1}.

Definition node {A} (f : outside -> outside * result RpcError A) : M A := fun o =>
  let (o, r) := f o in (o, map_err NodeFailed r).

(** Validator [i] with the vault's key [i]. *)
Definition sweep_signers (validators : list Pubkey) (keys : list pubkey) : list DesignatedSigner :=
  zip_with (fun v k => {| ds_validator_pubkey := v; ds_vault_pubkey := k |}) validators keys.

Definition sweep_execute (db : WithdrawalDb.Tables) : M BroadcastOutcome :=
  _ ← lift (require_note args);
  cfg ← lift (withdrawal_config_from_env env);
  _ ← lift (protocol_version_from_env env);
  program_id ← chain_from;
  _ ← lift (require_arg args "--db");
  plan ← lift (build_plan args cfg db);
  _ ← lift (goldcoin_rpc_from_env env);
  unsigned_hex ← node (Adapter.create_raw_transaction
    ((fun u => (WithdrawalDb.u_txid_hex u, WithdrawalDb.u_vout u)) <$> Sweep.sp_inputs plan)
    [(Sweep.sp_dest_address plan, Sweep.sp_swept_atomic plan)]);
  unsigned ← lift (map_err NodeTransaction (parse_hex unsigned_hex));
  _ ← lift (map_err NodeBuiltAnother (Sweep.verify_sweep_tx unsigned plan));
  set ← validator_set program_id;
  C ← lift (collector_from_env env read);
  let v := WithdrawalConfig.vault cfg in
  pr ← (fun o => let (o, pr) := collect_sweep_partials C (vs_epoch set) unsigned_hex
                   (sweep_signers (vs_validators set) (signer_pubkeys v)) (Vault.threshold v) o in (o, Ok pr));
  _ ← lift (map_err PreflightRefused
              (enough_approvals (length (partials pr)) (as_u8 (Z.of_nat (Vault.threshold v)))));
  signed ← lift (map_err AssemblyFailed (assemble unsigned v (partials pr)));
  outcome ← node (Adapter.send_raw_transaction (serialize_hex signed));
  match outcome with MissingInputs => lift (Err InputsMissing) | _ => mret outcome end.
End chain.

(** * Theorems about the commands

    ** What the network leaves alone *)

(** The federation over a state with a log of the Solana calls. *)
Definition logging_net {O} (Nw : PeerNetwork O) : PeerNetwork (O * list Event) :=
  {| Endpoint := Endpoint; Client := Client;
     from_shared := from_shared; tls_config := tls_config;
     connect_endpoint ct rt e := pass (connect_endpoint ct rt e);
     call_sign l c r := pass (call_sign l c r);
     call_sign_payout l c r := pass (call_sign_payout l c r);
     call_sign_completion l c r := pass (call_sign_completion l c r);
     call_sign_governance l c r := pass (call_sign_governance l c r);
     call_sign_sweep l c r := pass (call_sign_sweep l c r);
     instant_now := pass instant_now; system_nanos := pass system_nanos; unix_now := pass unix_now |}.

Section passing.
Context `{Ed : Ed25519} {O : Type} (Nw : PeerNetwork O) (C : GrpcCollector).
#[local] Existing Instance logging_net.

(** The log is as before. *)
Definition unlogged {A} (f : O * list Event -> (O * list Event) * A) : Prop := forall o, (f o).1.2 = o.2.

Lemma unlogged_pass {A} (f : O -> O * A) : unlogged (pass f).
Proof. intros o. by rewrite pass_eq. Qed.
Lemma unlogged_bind {A B} (f : O * list Event -> (O * list Event) * A) (g : A -> O * list Event -> (O * list Event) * B) :
  unlogged f -> (forall a, unlogged (g a)) -> unlogged (fun o => let (o, a) := f o in g a o).
Proof. intros Hf Hg o. specialize (Hf o). destruct (f o) as [o1 a]. cbn in *. by rewrite Hg. Qed.

Lemma connect_unlogged u : unlogged (connect C u).
Proof.
  intros o. unfold connect. destruct (map_err _ _) as [e|]; [|done]. destruct (match tls C with None => _ | Some _ => _ end) as [e'|]; [|done].
  cbn [connect_endpoint logging_net]. by rewrite pass_eq.
Qed.

Lemma ask_with_unlogged {R A} (call : @Client _ (logging_net Nw) -> O * list Event -> (O * list Event) * option (result RpcStatus R))
    (accepted : R -> result str A) peer :
  (forall c, unlogged (call c)) -> unlogged (ask_with call accepted C peer).
Proof.
  intros Hc o. unfold ask_with, mbind, SE_bind, lift. pose proof (connect_unlogged (uri peer) o) as H.
  destruct (connect C (uri peer) o) as [o1 [c|e]]; cbn in *; [|done].
  specialize (Hc c o1). destruct (call c o1) as [o2 [[r|e]|]]; cbn in *; congruence.
Qed.

Lemma outcome_unlogged m : unlogged m -> unlogged (outcome_of m).
Proof. intros H o. specialize (H o). unfold outcome_of. by destruct (m o) as [o' [[pk s]|e]]. Qed.

Lemma ask_loop_unlogged threshold deadline question order r :
  (forall p, unlogged (question p)) -> unlogged (ask_loop C threshold deadline question order r).
Proof.
  intros Hq. revert r. induction order as [|pk order IH]; intros r o; cbn [ask_loop]; [done|].
  destruct (reached r threshold); [done|]. destruct (find_peer _ _) as [p|]; [|apply IH].
  cbn [instant_now logging_net]. rewrite pass_eq. destruct (deadline <=? _); [by rewrite IH|].
  match goal with |- context [question p ?o1] => pose proof (Hq p o1) as H; destruct (question p o1) as [o2 out] end.
  cbn in H. by rewrite IH.
Qed.

Lemma partial_loop_unlogged enough absent deadline question signers pr :
  (forall p d, unlogged (question p d)) -> unlogged (partial_loop C enough absent deadline question signers pr).
Proof.
  intros Hq. revert pr. induction signers as [|d signers IH]; intros pr o; cbn [partial_loop]; [done|].
  destruct (enough (partials pr)); [done|]. destruct (find_peer _ _) as [p|]; [|apply IH].
  cbn [instant_now logging_net]. rewrite pass_eq. destruct (deadline <=? _); [by rewrite IH|].
  match goal with |- context [question p d ?o1] => pose proof (Hq p d o1) as H; destruct (question p d o1) as [o2 [q|out]] end;
    cbn in H; by rewrite IH.
Qed.

Lemma request_unlogged {A} (f : list byte -> Z -> O * list Event -> (O * list Event) * A) :
  (forall id t, unlogged (f id t)) ->
  unlogged (fun o => let (o, id) := next_request_id o in let (o, t) := unix_now o in f id t o).
Proof.
  intros Hf o. unfold next_request_id. cbn [system_nanos unix_now logging_net]. rewrite !pass_eq. by rewrite Hf.
Qed.

Lemma governance_unlogged epoch action commitment message :
  unlogged (collect_governance_signatures C epoch action commitment message).
Proof.
  intros o. unfold collect_governance_signatures, ask_everyone. cbn [instant_now logging_net]. rewrite pass_eq.
  rewrite ask_loop_unlogged; [done|]. intros p. apply request_unlogged. intros id t.
  apply outcome_unlogged, ask_with_unlogged. intros c. apply unlogged_pass.
Qed.

Lemma sweep_unlogged epoch hex signers threshold : unlogged (collect_sweep_partials C epoch hex signers threshold).
Proof.
  intros o. unfold collect_sweep_partials. cbn [instant_now logging_net]. rewrite pass_eq.
  rewrite partial_loop_unlogged; [done|]. intros p d. apply request_unlogged. intros id t.
  apply ask_with_unlogged. intros c. apply unlogged_pass.
Qed.
End passing.

(** ** Commands that send at most one transaction

    [quiet m P]: [m] sends nothing, and what it returns satisfies [P].
    [ends m J]: [m] sends nothing, or one transaction, of which [J] holds. *)
Section rules.
Context {O : Type} (N : SolanaRpc O) (Nw : PeerNetwork O).
Abbreviation W := (O * list Event)%type.
#[local] Existing Instance logging_rpc.
#[local] Existing Instance logging_net.

Definition quiet {A} (m : SE W AdminError A) (P : A -> Prop) : Prop :=
  forall w, sent_of (m w).1.2 = sent_of w.2 /\ forall a, (m w).2 = Ok a -> P a.
Definition ends {A} (m : SE W AdminError A) (J : SolanaTransaction -> Prop) : Prop :=
  forall w, sent_of (m w).1.2 = sent_of w.2 \/ exists tx, sent_of (m w).1.2 = sent_of w.2 ++ [tx] /\ J tx.

Lemma quiet_lift {A} (r : result AdminError A) : quiet (lift r) (fun a => r = Ok a).
Proof. by intros w. Qed.
Lemma quiet_ret {A} (a : A) : quiet (mret a) (fun x => x = a).
Proof. intros w. split; [done|]. by intros ? [= <-]. Qed.

Lemma quiet_bind {A B} (m : SE W AdminError A) (f : A -> SE W AdminError B) P Q :
  quiet m P -> (forall a, P a -> quiet (f a) Q) -> quiet (m ≫= f) Q.
Proof.
  intros Hm Hf w. destruct (Hm w) as [Hs HP]. unfold mbind, SE_bind. destruct (m w) as [w1 [a|e]]; cbn in *; [|done].
  destruct (Hf a (HP a eq_refl) w1) as [Hs' HQ]. split; [congruence|done].
Qed.
Lemma quiet_weaken {A} (m : SE W AdminError A) (P Q : A -> Prop) : quiet m P -> (forall a, P a -> Q a) -> quiet m Q.
Proof. intros Hm HPQ w. destruct (Hm w). split; eauto. Qed.

Lemma ends_bind {A B} (m : SE W AdminError A) (f : A -> SE W AdminError B) P J :
  quiet m P -> (forall a, P a -> ends (f a) J) -> ends (m ≫= f) J.
Proof.
  intros Hm Hf w. destruct (Hm w) as [Hs HP]. unfold mbind, SE_bind. destruct (m w) as [w1 [a|e]]; cbn in *; [|by left].
  rewrite <- Hs. apply (Hf a (HP a eq_refl) w1).
Qed.
(** What follows the transaction is quiet. *)
Lemma ends_then {A B} (m : SE W AdminError A) (f : A -> SE W AdminError B) Q J :
  ends m J -> (forall a, quiet (f a) Q) -> ends (m ≫= f) J.
Proof.
  intros Hm Hf w. unfold mbind, SE_bind. specialize (Hm w). destruct (m w) as [w1 [a|e]]; cbn in *; [|done].
  destruct (Hf a w1) as [-> _]. done.
Qed.
Lemma ends_quiet {A} (m : SE W AdminError A) P J : quiet m P -> ends m J.
Proof. intros H w. left. apply H. Qed.

(** Every answer read is one of the node's. *)
Lemma quiet_read k :
  quiet (call (get_account (SolanaRpc := logging_rpc N) k)) (fun r => exists o, (get_account k o).2 = Ok r).
Proof.
  intros w. unfold call. cbn [get_account logging_rpc]. rewrite noting_eq. cbn. split.
  - apply sent_of_read.
  - intros a Ha%map_err_Ok. by exists w.1.
Qed.
Lemma quiet_now : quiet (now_unix (Nw := logging_net Nw)) (fun t => exists o, (unix_now o).2 = t).
Proof.
  intros w. unfold now_unix. cbn [unix_now logging_net]. rewrite pass_eq. split; [done|].
  intros t [= <-]. by exists w.1.
Qed.

Lemma ends_send tx (J : SolanaTransaction -> Prop) :
  J tx -> ends (call (send_transaction (SolanaRpc := logging_rpc N) tx)) J.
Proof.
  intros HJ w. right. exists tx. unfold call. cbn [send_transaction logging_rpc]. rewrite noting_eq. cbn.
  split; [|done]. rewrite sent_of_app. done.
Qed.

Lemma quiet_blockhash : quiet (call (get_latest_blockhash (SolanaRpc := logging_rpc N))) (fun _ => True).
Proof. intros w. unfold call. cbn [get_latest_blockhash logging_rpc]. rewrite pass_eq. done. Qed.

Lemma ends_submit ixs payer (J : SolanaTransaction -> Prop) :
  (forall bh, J {| tx_instructions := ixs; tx_payer := payer; tx_signers := [payer]; tx_blockhash := bh |}) ->
  ends (submit (N := logging_rpc N) ixs payer) J.
Proof. intros HJ. eapply ends_bind; [apply quiet_blockhash|]. intros bh _. by apply ends_send. Qed.
End rules.

(** ** What governance sends is accepted *)

Definition as_instruction (ix : SolanaInstruction) : Program.Instruction :=
  {| Program.ix_program_id := si_program_id ix; Program.ix_data := si_data ix |}.

Section accepted.
Context `{Sh : Sha2, Rt : SolanaRuntime, Rm : Ripemd160, K : PubkeyText, Ed : Ed25519} {T : SplToken} {R : Runtime}.
Context {O : Type} (N : SolanaRpc O) (Nw : PeerNetwork O).
Context (args : list str) (env : str -> option str) (read_keypair : str -> option Pubkey) (read : str -> result str (list byte)).
Context (ls : list Invariants.Label) (b : Program.Bridge) (c : BridgeConfig) (s : ValidatorSet).
Context (disc beyond : list byte).

(** The node serves this state of the bridge, whenever it answers. *)
Record serves : Prop := {
  sv_config : forall o r, (get_account (bridge_config_pda crate_ID).1 o).2 = Ok r ->
    acc_data <$> r = Some (account_data disc (config_fields c) beyond);
  sv_set : forall o r, (get_account (validator_set_pda crate_ID).1 o).2 = Ok r ->
    acc_data <$> r = Some (account_data disc (set_fields s) beyond);
  sv_pending : forall o r, (get_account (governance_action_pda crate_ID).1 o).2 = Ok r ->
    match Program.pending_action b with
    | Some p => acc_data <$> r = Some (account_data disc (action_fields p) beyond)
    | None => forall a, r = Some a -> acc_data a = []
    end
}.

(** The operator's settings name this bridge and its validators. *)
Record configured : Prop := {
  cf_program : chain_from_env env = Ok crate_ID;
  cf_version : protocol_version_from_env env = Ok (protocol_version c);
  cf_peers : forall C, collector_from_env env read = Ok C ->
    Forall (fun p => validator_pubkey p ∈ validators s) (peers C)
}.

Context (Hls : Invariants.steps ls b) (Hc : Program.bridge_config b = Some c) (Hs : Program.validator_set b = Some s).
Context (Hd : length disc = DISCRIMINATOR_LEN) (Htc : config_typed c) (Hts : set_typed s).
Context (Htp : forall p, Program.pending_action b = Some p -> action_typed p).
Context (Hserves : serves) (Hconf : configured) (Hhash : forall d, sol_hash d = sha256 d).
#[local] Existing Instance logging_rpc.
#[local] Existing Instance logging_net.

Lemma quiet_set : quiet (validator_set (N := logging_rpc N) crate_ID) (fun v => v = set_snapshot s).
Proof using Hd Hts Hserves.
  eapply quiet_bind; [apply quiet_read|]. intros r (o & Hr%(sv_set Hserves)). eapply quiet_bind; [apply quiet_lift|].
  intros a Ha%ok_or_Ok. subst r. injection Hr as Hr. eapply quiet_weaken; [apply quiet_lift|].
  cbn beta. intros v Hv%map_err_Ok. rewrite Hr, decode_validator_set_data in Hv by done. by injection Hv.
Qed.

Lemma quiet_config : quiet (bridge_config (N := logging_rpc N) crate_ID) (fun v => v = config_snapshot c).
Proof using Hd Htc Hserves.
  eapply quiet_bind; [apply quiet_read|]. intros r (o & Hr%(sv_config Hserves)). eapply quiet_bind; [apply quiet_lift|].
  intros a Ha%ok_or_Ok. subst r. injection Hr as Hr. eapply quiet_weaken; [apply quiet_lift|].
  cbn beta. intros v Hv%map_err_Ok. rewrite Hr, decode_bridge_config_data in Hv by done. by injection Hv.
Qed.

Lemma quiet_pending : quiet (pending_action (N := logging_rpc N) crate_ID) (fun v => v = pending_snapshot b).
Proof using Hd Htp Hserves.
  eapply quiet_bind; [apply quiet_read|]. intros r (o & Hr%(sv_pending Hserves)). unfold pending_snapshot.
  destruct (Program.pending_action b) as [p|] eqn:Ep.
  - destruct r as [a|]; [|done]. injection Hr as Hr. rewrite bool_decide_false.
    + eapply quiet_bind; [apply quiet_lift|]. intros v Hv%map_err_Ok.
      rewrite Hr, decode_pending_action_data in Hv by auto. injection Hv as <-. apply quiet_ret.
    + rewrite Hr. unfold account_data. destruct disc; [discriminate Hd|done].
  - destruct r as [a|]; [|apply quiet_ret]. rewrite bool_decide_true by auto. apply quiet_ret.
Qed.

Lemma collected_proof action params C o :
  collector_from_env env read = Ok C ->
  let msg := Messages.encode (Handlers.governance_statement action params c s) in
  let r := (collect_governance_signatures (Nw := logging_net Nw) C (State.epoch s) action (sha256 params) msg o).2 in
  State.threshold s <= Z.of_nat (unique_signers r) ->
  forall env', Program.previous_instruction env' = Some (as_instruction (ed25519_instruction (Aggregation.signatures r) msg)) ->
  Handlers.approved env' s msg.
Proof using Hls Hs Hc Hconf Hd.
  intros HC msg r Hth env' Henv.
  assert (NoDup (validator_pubkey <$> peers C)) as Hnd.
  { unfold collector_from_env in HC. apply bind_Ok in HC as (raw & _ & HC). apply bind_Ok in HC as (ps & Hps%map_err_Ok & HC).
    apply parse_peers_spec in Hps as (_ & _ & Hnd & _). case_bool_decide; [by injection HC as <-|].
    repeat (apply bind_Ok in HC as (? & _ & HC)). by injection HC as <-. }
  pose proof (governance_round_sound C (State.epoch s) action (sha256 params) msg o Hnd) as [Honce Hin Hver _ _]. fold r in Honce, Hin, Hver.
  assert (NoDup (Aggregation.signatures r).*1) as Hnd' by (unfold asked in Honce; by apply NoDup_app in Honce as [? _]).
  assert (Forall (fun pk => pk ∈ validators s) (Aggregation.signatures r).*1) as Hmem.
  { apply Forall_forall. intros pk Hpk. assert (pk ∈ asked r) as Ha by (unfold asked; rewrite elem_of_app; by left).
    apply Hin, list_elem_of_fmap in Ha as (p & -> & Hp). pose proof (cf_peers Hconf C HC) as Hf. rewrite Forall_forall in Hf. auto. }
  pose proof (Invariants.steps_inv _ _ Hls) as Hinv.
  destruct Hinv as [|c' s' Hc' Hs' Hcok Hsok _ _ _ _]; [congruence|]. simplify_eq. destruct Hsok as [(Hne & Hlen & Ht0 & _) _ _].
  unfold unique_signers in Hth. rewrite size_list_to_set in Hth by done. rewrite length_fmap in Hth.
  assert ((length (Aggregation.signatures r) <= length (validators s))%nat) as Hle.
  { rewrite <- (length_fmap fst). apply submseteq_length, NoDup_submseteq; [done|]. by apply Forall_forall. }
  eapply (approved_by_proof env' s (Aggregation.signatures r) msg); [done| |done|done| |exact Henv].
  - split_and!.
    + eapply Forall_impl; [exact Hver|]. by intros ps (_ & ? & ?).
    + unfold msg, Messages.encode, Handlers.governance_statement. rewrite length_governance_message by (done || apply length_sol_hash).
      unfold instruction_size, GOVERNANCE_MESSAGE_LEN, U16_MAX. unfold MAX_VALIDATORS in Hlen. lia.
    + lia.
    + unfold MAX_VALIDATORS in Hlen. lia.
  - unfold count_unique_threshold_signers. rewrite threshold_count by done. by rewrite (proj2 (Z.leb_le _ _)).
Qed.

(** The proof command [collect_governance] returns, once it returns one. *)
Lemma quiet_collect action params :
  quiet (collect_governance (N := logging_rpc N) (Nw := logging_net Nw) env read crate_ID action params)
    (fun ix => forall env', Program.previous_instruction env' = Some (as_instruction ix) ->
       Handlers.approved env' s (Messages.encode (Handlers.governance_statement action params c s))).
Proof using Hls Hs Hc Hconf Hd Hts Hserves Hhash.
  eapply quiet_bind; [apply quiet_lift|]. intros pv Hpv. rewrite (cf_version Hconf) in Hpv. injection Hpv as <-.
  eapply quiet_bind; [apply quiet_set|]. intros v ->. cbn [set_snapshot vs_epoch vs_threshold].
  eapply quiet_bind; [apply quiet_lift|]. intros C HC.
  set (msg := governance_message _ _ _ _ _).
  assert (Messages.encode (Handlers.governance_statement action params c s) = msg) as Hmsg
    by (unfold msg, Handlers.governance_statement, Messages.encode, commitment_of; by rewrite Hhash).
  eapply quiet_bind with (P := fun r => exists o,
    r = (collect_governance_signatures (Nw := logging_net Nw) C (State.epoch s) action (sha256 params) msg o).2).
  - intros w. pose proof (governance_unlogged Nw C (State.epoch s) action (sha256 params) msg w) as Hu.
    unfold commitment_of. destruct (collect_governance_signatures _ _ _ _ _ w) as [w' r] eqn:E. cbn in *. split; [by rewrite Hu|].
    intros ? [= <-]. exists w. by rewrite E.
  - intros r (o & ->). eapply quiet_bind; [apply quiet_lift|]. intros [] He%map_err_Ok.
    unfold enough_approvals in He. apply require_Ok in He. bools.
    intros w. split; [done|]. intros ? [= <-] env' Henv. rewrite <- Hmsg in He, Henv.
    eapply collected_proof; [exact HC| |exact Henv]. lia.
Qed.

Lemma quiet_program : quiet (chain_from (outside := O * list Event) env) (fun p => p = crate_ID).
Proof using Hconf.
  eapply quiet_weaken; [apply quiet_lift|]. cbn beta. intros p Hp. rewrite (cf_program Hconf) in Hp. by injection Hp.
Qed.

Lemma quiet_nothing_pending :
  quiet (nothing_pending (N := logging_rpc N) crate_ID) (fun _ => Program.pending_action b = None).
Proof using Hd Htp Hserves.
  eapply quiet_bind; [apply quiet_pending|]. intros p ->. eapply quiet_weaken; [apply quiet_lift|].
  cbn beta. intros u Hu%map_err_Ok. unfold pending_snapshot in Hu. by destruct (Program.pending_action b).
Qed.

(** One transaction of the proof and a call of the program, paid by its only signer. *)
Definition proved_call (tx : SolanaTransaction) (i : Program.BridgeInstruction)
    (accepts : Program.TxEnv -> Prop) : Prop :=
  exists (proof ix : SolanaInstruction), tx_instructions tx = [proof; ix] /\ tx_signers tx = [tx_payer tx] /\
    calls crate_ID (tx_payer tx) (withdrawal_count c) ix i /\
    forall env', Program.previous_instruction env' = Some (as_instruction proof) -> accepts env'.
Definition plain_call (tx : SolanaTransaction) (i : Program.BridgeInstruction) : Prop :=
  exists ix, tx_instructions tx = [ix] /\ tx_signers tx = [tx_payer tx] /\
    calls crate_ID (tx_payer tx) (withdrawal_count c) ix i.

(** One step of a command: a check that returns what is not needed later, and
    a read whose value is known. *)
Ltac skip := eapply ends_bind; [apply quiet_lift|intros ? _].
Ltac after H := eapply ends_bind; [apply H|intros ? ->].

(** A built instruction is the call it is built for. *)
Ltac called := constructor; cbn [si_program_id si_accounts si_data name_of arguments_of]; try done;
  cbn [si_data execute_rotation_instruction cancel_rotation_instruction execute_cap_raise_instruction
       accept_admin_instruction propose_rotation_instruction create_wrapped_mint_instruction initialize_instruction];
  by rewrite ?app_nil_r, ?vec_u32_app.

(** C16: Whatever the federation answers, an operator's governance command run against
    the bridge's reachable state sends nothing or one transaction, and what it sends the
    program accepts in that state: a proposal or a cancellation carries a proof the
    program counts as its federation's approval of exactly the arguments given, so a
    rotation of a valid set or a higher cap is queued and a cancellation removes the
    pending action; an execution succeeds once the timelock has passed; and accept-admin
    hands over to the key that pays. The operator's peers are assumed to be in the
    validator set. *)
Theorem sent_governance_is_accepted bump :
  ends (submit_rotation (N := logging_rpc N) (Nw := logging_net Nw) args env read_keypair read) (fun tx =>
    exists vs t, validators_arg args = Ok vs /\ number_arg args U8_MAX "--threshold" = Ok t /\
      proved_call tx (Program.ProposeValidatorRotation bump vs t) (fun env' =>
        forall e, Validation.valid_validator_set vs t ->
          i64_checked_add (Program.unix_timestamp env') (governance_timelock_seconds c) = Some e ->
          Program.exec env' (Program.ProposeValidatorRotation bump vs t) b =
          Ok (Program.put_pending b (Some (Handlers.rotation_action e bump vs t s)),
              [GovernanceActionProposed ACTION_PROPOSE_ROTATION (State.epoch s) e t (Handlers.vcount vs)]))) /\
  ends (submit_tvl_raise (N := logging_rpc N) (Nw := logging_net Nw) args env read_keypair read) (fun tx =>
    exists m, number_arg args U64_MAX "--new-max" = Ok m /\
      proved_call tx (Program.ProposeWrappedSupplyCapRaise bump m) (fun env' =>
        forall e, max_wrapped_supply c < m ->
          i64_checked_add (Program.unix_timestamp env') (governance_timelock_seconds c) = Some e ->
          Program.exec env' (Program.ProposeWrappedSupplyCapRaise bump m) b =
          Ok (Program.put_pending b (Some (Handlers.cap_action e bump m s)),
              [GovernanceActionProposed ACTION_PROPOSE_TVL_RAISE (State.epoch s) e 0 0]))) /\
  ends (submit_cancel (N := logging_rpc N) (Nw := logging_net Nw) args env read_keypair read) (fun tx =>
    exists p, Program.pending_action b = Some p /\
      proved_call tx Program.CancelValidatorRotation (fun env' =>
        Program.exec env' Program.CancelValidatorRotation b =
        Ok (Program.put_pending b None, [GovernanceActionCancelled (action p) (eta p)]))) /\
  (forall cap_raise, State.epoch s < U64_MAX ->
     ends (execute_queued (N := logging_rpc N) (Nw := logging_net Nw) args env read_keypair cap_raise) (fun tx =>
       plain_call tx (execute_of cap_raise) /\
       exists p, Program.pending_action b = Some p /\ action p = executed_action cap_raise /\
         forall env', eta p <= Program.unix_timestamp env' ->
           Scenario.is_ok (Program.exec env' (execute_of cap_raise) b) = true)) /\
  ends (accept_admin (N := logging_rpc N) args env read_keypair) (fun tx =>
    plain_call tx (Program.AcceptAdmin (tx_payer tx)) /\
    forall env', Program.exec env' (Program.AcceptAdmin (tx_payer tx)) b =
      Ok (Program.put_config b (Program.set_admins c (tx_payer tx) None), [AdminTransferred (admin c) (tx_payer tx)])).
Proof using Hls Hs Hc Hconf Hd Htc Hts Htp Hserves Hhash.
  pose proof (Invariants.inv_set_bounded _ (Invariants.steps_inv _ _ Hls)) as Hb. split_and!.
  - eapply ends_bind; [apply quiet_lift|]. intros t Ht. skip.
    eapply ends_bind; [apply quiet_lift|]. intros vs Hvs. skip.
    after quiet_program. eapply ends_bind; [apply quiet_nothing_pending|]. intros ? Hp.
    eapply ends_bind; [apply quiet_collect|]. intros proof Hproof. skip.
    apply ends_submit. intros bh. exists vs, t. split_and!; [done..|]. eexists proof, _. split_and!; [done|done|called|].
    intros env' Henv e Hv He. apply Handlers.exec_iff; [done|]. apply (Handlers.T_propose_rotation env' b bump vs t c s e); auto.
  - eapply ends_bind; [apply quiet_lift|]. intros m Hm. skip.
    skip.
    after quiet_program. eapply ends_bind; [apply quiet_nothing_pending|]. intros ? Hp.
    eapply ends_bind; [apply quiet_collect|]. intros proof Hproof. skip.
    apply ends_submit. intros bh. exists m. split_and!; [done..|]. eexists proof, _. split_and!; [done|done|called|].
    intros env' Henv e Hv He. apply Handlers.exec_iff; [done|]. apply (Handlers.T_propose_cap env' b bump m c s e); auto.
  - skip.
    after quiet_program. after quiet_pending.
    eapply ends_bind; [apply quiet_lift|]. intros [act e] Hae%map_err_Ok. unfold pending_snapshot in Hae.
    destruct (Program.pending_action b) as [p|] eqn:Hp; [|discriminate Hae]. cbn in Hae. injection Hae as <- <-.
    eapply ends_bind; [apply quiet_collect|]. intros proof Hproof. skip.
    apply ends_submit. intros bh. exists p. split; [done|]. eexists proof, _. split_and!; [done|done|called|].
    intros env' Henv. apply Handlers.exec_iff; [done|]. apply (Handlers.T_cancel env' b c s p); auto.
  - intros cap_raise He. skip.
    after quiet_program. after quiet_pending.
    after quiet_set. eapply ends_bind; [apply quiet_now|]. intros t (o & <-).
    eapply ends_bind; [apply quiet_lift|]. intros [] Hx%map_err_Ok%can_execute_Ok.
    skip. apply ends_submit. intros bh. split.
    + eexists. split_and!; [done|done|]. destruct cap_raise; called.
    + unfold pending_snapshot in Hx. destruct Hx as (q & Hq & Ha & Hep & _).
      destruct (Program.pending_action b) as [p|] eqn:Ep; [|done]. cbn in Hq. injection Hq as <-. cbn in *.
      exists p. split_and!; [done|done|]. intros env' Heta. apply (executable_iff ls b s); [done..|]. by exists p.
  - skip. after quiet_program.
    skip. after quiet_config.
    eapply ends_bind; [apply quiet_lift|]. intros u Hp. cbn [config_snapshot bc_pending_admin] in Hp.
    apply ends_submit. intros bh. cbn [tx_payer]. destruct (pending_admin c) as [k|] eqn:Ek; [|discriminate Hp].
    apply require_Ok in Hp. bools. subst k. split.
    + eexists. split_and!; [done|done|called].
    + intros env'. cbn [Program.exec]. unfold Program.accept_admin. rewrite Hc. cbn [Program.load ok_or mbind result_bind].
      rewrite Ek. cbn [ok_or mbind result_bind]. by rewrite bool_decide_true.
Qed.
End accepted.

(** ** What an operator stages is what its signer grants *)

Lemma decode_exact_length N s bs : decode_exact N s = Ok bs -> length bs = N.
Proof. unfold decode_exact. intros H. res_inv. by eapply decode_loop_step. Qed.

Lemma parse_i64_range s n : parse_i64 s = Some n -> I64_MIN <= n <= I64_MAX.
Proof.
  destruct s as [|b s]; [done|]. unfold parse_i64. intros H. apply bind_Some in H as (m & _ & H).
  destruct (_ && _) eqn:E; [|done]. injection H as <-. bools. lia.
Qed.

Lemma read_approval_typed n line a : read_approval n line = Ok a -> approval_typed a.
Proof.
  unfold read_approval. cbv zeta. intros H.
  repeat match type of H with
  | mbind _ _ = Ok _ => apply bind_Ok in H as (? & ? & H)
  end.
  injection H as <-. unfold approval_typed. cbn [ap_action ap_params_commitment ap_epoch ap_expiry_unix].
  repeat match goal with
  | H : ok_or (parse_unsigned _ _) _ = Ok _ |- _ => apply ok_or_Ok, parse_unsigned_range in H
  | H : ok_or (parse_i64 _) _ = Ok _ |- _ => apply ok_or_Ok, parse_i64_range in H
  | H : map_err _ (decode_exact _ _) = Ok _ |- _ => apply map_err_Ok, decode_exact_length in H
  end. done.
Qed.

Lemma stage_typed a s : approval_typed a -> store_typed s -> store_typed (stage a s).
Proof. intros Ha Hs. by apply map_Forall_insert_2. Qed.

Lemma load_typed file s : GovernanceView.load file = Ok s -> store_typed s.
Proof.
  destruct file as [text| |e]; cbn; [|by intros [= <-]|done]. unfold GovernanceView.from_text.
  apply (foldM_invariant store_typed); [|done]. intros acc [n line] acc' Hacc Hl. unfold GovernanceView.read_line in Hl.
  cbn [fst snd] in Hl. destruct (is_comment _); [by injection Hl as <-|].
  apply bind_Ok in Hl as (a & Ha%read_approval_typed & [= <-]). by apply stage_typed.
Qed.

(** What the signer decides from a written store. *)
Lemma granted_written s action cm requested observed now :
  store_typed s ->
  approved_by_operator (FileText (GovernanceView.to_text s)) action cm requested observed now = Ok tt <->
  action ∈ [ACTION_PROPOSE_ROTATION; ACTION_CANCEL_ROTATION; ACTION_PROPOSE_TVL_RAISE] /\ requested = observed /\
  exists a, s !! action = Some a /\ ap_params_commitment a = cm /\ ap_epoch a = observed /\ now <= ap_expiry_unix a.
Proof.
  intros Hs. rewrite approved_by_operator_Ok. pose proof (approvals_read_back s Hs) as Hr. split.
  - intros [Ha He (store & a & Hl & Hsa & Hc & Hep & Hn)]. split_and!; [done|done|].
    cbn [GovernanceView.load] in Hl. rewrite Hr in Hl. injection Hl as <-.
    rewrite lookup_fmap in Hsa. destruct (s !! action) as [a0|]; [|done]. injection Hsa as <-. by exists a0.
  - intros (Ha & He & a & Hsa & Hc & Hep & Hn). constructor; [done|done|]. exists (written_note <$> s), (written_note a).
    split_and!; try done. by rewrite lookup_fmap, Hsa.
Qed.

Lemma granted_loaded file s action cm requested observed now :
  GovernanceView.load file = Ok s ->
  approved_by_operator file action cm requested observed now = Ok tt <->
  action ∈ [ACTION_PROPOSE_ROTATION; ACTION_CANCEL_ROTATION; ACTION_PROPOSE_TVL_RAISE] /\ requested = observed /\
  exists a, s !! action = Some a /\ ap_params_commitment a = cm /\ ap_epoch a = observed /\ now <= ap_expiry_unix a.
Proof.
  intros Hl. rewrite approved_by_operator_Ok. split.
  - intros [Ha He (store & a & Hl' & H)]. split_and!; [done|done|].
    rewrite Hl in Hl'. injection Hl' as <-. by exists a.
  - intros (Ha & He & a & H). constructor; [done|done|]. by exists s, a.
Qed.

(** The signer grants what its operator staged, unless it remembers another
    commitment for the action. *)
Lemma approve_Ok file action cm requested observed t (signed : Signed) :
  (approve file action cm requested observed t signed).2 = Ok tt <->
  approved_by_operator file action cm requested observed t = Ok tt /\
  (forall prev, signed !! action = Some prev -> prev = cm).
Proof.
  rewrite approved_by_operator_Ok.
  exact (answer_Ok {| gc_file := file; gc_action := action; gc_commitment := cm; gc_requested := requested;
                      gc_observed := observed; gc_now := t |} signed).
Qed.

Section staged.
Context `{Sh : Sha2, K : PubkeyText} (args : list str) (read : str -> FileRead) (now : Z).
Context (Hnow : I64_MIN <= now + APPROVAL_TTL_SECONDS <= I64_MAX).

(** From the written file a signer with the memory [signed] grants, for one
    action, exactly this commitment under this epoch for the approval's
    lifetime, when it has signed nothing else for the action since it started,
    and refuses it for good when it has; for the other actions it grants what
    it granted before. *)
Definition grants_exactly (pt : str * str) (action : Z) (cm : list byte) (epoch : Z) : Prop :=
  arg args "--approvals" = Some pt.1 /\
  (forall cm' requested observed t (signed : Signed),
     (approve (FileText pt.2) action cm' requested observed t signed).2 = Ok tt <->
     cm' = cm /\ requested = epoch /\ observed = epoch /\ t <= now + APPROVAL_TTL_SECONDS /\
     (forall prev, signed !! action = Some prev -> prev = cm)) /\
  (forall t (signed : Signed) prev, t <= now + APPROVAL_TTL_SECONDS ->
     signed !! action = Some prev -> prev <> cm ->
     approve (FileText pt.2) action cm epoch epoch t signed =
       (signed, Err (GovernanceView.Refused (AlreadySignedAnother action)))) /\
  (forall action' cm' requested observed t (signed : Signed), action' <> action ->
     (approve (FileText pt.2) action' cm' requested observed t signed).2 = Ok tt <->
     (approve (read pt.1) action' cm' requested observed t signed).2 = Ok tt).

Lemma stage_grants a pt :
  ap_action a ∈ [ACTION_PROPOSE_ROTATION; ACTION_CANCEL_ROTATION; ACTION_PROPOSE_TVL_RAISE] ->
  length (ap_params_commitment a) = 32%nat -> 0 <= ap_epoch a <= U64_MAX ->
  ap_expiry_unix a = now + APPROVAL_TTL_SECONDS ->
  stage_approval args read a = Ok pt ->
  grants_exactly pt (ap_action a) (ap_params_commitment a) (ap_epoch a).
Proof using Hnow.
  intros Ha Hl He Hx. unfold stage_approval, require_arg. intros (path & Hp%ok_or_Ok & H)%bind_Ok.
  apply bind_Ok in H as (store & Hs%map_err_Ok & [= <-]). cbn [fst snd]. pose proof (load_typed _ _ Hs) as Hst.
  assert (store_typed (stage a store)) as Hst'.
  { apply stage_typed; [|done]. split_and!; try done; try lia.
    - clear -Ha. rewrite !elem_of_cons, elem_of_nil in Ha.
      destruct Ha as [->|[->|[->|[]]]]; vm_compute; congruence.
    - clear -Ha. rewrite !elem_of_cons, elem_of_nil in Ha.
      destruct Ha as [->|[->|[->|[]]]]; vm_compute; congruence. }
  assert (forall cm' requested observed t,
    approved_by_operator (FileText (GovernanceView.to_text (stage a store))) (ap_action a) cm' requested observed t = Ok tt <->
    cm' = ap_params_commitment a /\ requested = ap_epoch a /\ observed = ap_epoch a /\ t <= now + APPROVAL_TTL_SECONDS) as Hg.
  { intros cm' requested observed t. rewrite granted_written by done. unfold stage. rewrite lookup_insert_eq. split.
    - intros (_ & -> & x & [= <-] & <- & <- & Ht). split_and!; try done. lia.
    - intros (-> & -> & -> & Ht). split_and!; [done|done|]. exists a. split_and!; try done. lia. }
  split_and!; [done| | |]; cbn [fst snd].
  - intros cm' requested observed t signed. rewrite approve_Ok, Hg. naive_solver.
  - intros t signed prev Ht Hprev Hne. unfold approve.
    rewrite (proj2 (Hg _ _ _ t)) by done. rewrite Hprev. by rewrite bool_decide_false.
  - intros action' cm' requested observed t signed Hne. rewrite !approve_Ok, granted_written by done.
    rewrite (granted_loaded _ _ _ _ _ _ _ Hs). unfold stage. by rewrite lookup_insert_ne.
Qed.

(** Revoking keeps the approvals of the other actions, and only those. *)
Lemma kept_spec (store : ApprovalStore) action k :
  store_typed store ->
  foldl (keep_others store action) ∅ GOVERNANCE_ACTIONS !! k =
  if bool_decide (k <> action /\ k ∈ GOVERNANCE_ACTIONS) then store !! k else None.
Proof.
  intros Hs.
  assert (forall l (acc : ApprovalStore), (forall a x, acc !! a = Some x -> store !! a = Some x) ->
    foldl (keep_others store action) acc l !! k =
    if bool_decide (k <> action /\ k ∈ l) then store !! k else acc !! k) as H.
  { induction l as [|a l IH]; intros acc Hacc; cbn [foldl].
    { rewrite bool_decide_false; [done|]. by intros [_ ?%elem_of_nil]. }
    rewrite IH; unfold keep_others.
    - destruct (Z.eqb_spec a action) as [->|Hne].
      + rewrite (bool_decide_ext (k <> action /\ k ∈ action :: l) (k <> action /\ k ∈ l)); [done|].
        rewrite elem_of_cons. tauto.
      + destruct (decide (k = a)) as [->|Hk].
        * rewrite (bool_decide_true (a <> action /\ a ∈ a :: l)) by (split; [done|left]).
          case_bool_decide; [done|]. destruct (store !! a) as [x|] eqn:E.
          -- unfold stage. destruct (Hs a x E) as [<- _]. apply lookup_insert_eq.
          -- destruct (acc !! a) as [x|] eqn:Ea; [|done]. by rewrite (Hacc a x Ea) in E.
        * rewrite (bool_decide_ext (k <> action /\ k ∈ a :: l) (k <> action /\ k ∈ l)) by (rewrite elem_of_cons; tauto).
          case_bool_decide; [done|]. destruct (store !! a) as [x|] eqn:E; [|done].
          unfold stage. destruct (Hs a x E) as [<- _]. by rewrite lookup_insert_ne.
    - intros j x. destruct (a =? action); [apply Hacc|]. destruct (store !! a) as [y|] eqn:E; [|apply Hacc].
      unfold stage. destruct (Hs a y E) as [<- _]. rewrite lookup_insert_Some. intros [[<- <-]|[_ Hj]]; [done|by apply Hacc]. }
  rewrite H by (by intros ? ? ?%lookup_empty_Some). by rewrite lookup_empty.
Qed.

Lemma revoked pt :
  revoke_approval args read = Ok pt -> exists action, number_arg args U8_MAX "--action" = Ok action /\
     forall action' cm requested observed t (signed : Signed),
       (approve (FileText pt.2) action' cm requested observed t signed).2 = Ok tt <->
       action' <> action /\ (approve (read pt.1) action' cm requested observed t signed).2 = Ok tt.
Proof using Hnow.
  unfold revoke_approval. intros (path & _ & H)%bind_Ok. apply bind_Ok in H as (action & Ha & H).
  apply bind_Ok in H as (store & Hs%map_err_Ok & H).
  destruct pt as [path' text]. injection H as <- <-. exists action. split; [done|]. intros k cm requested observed t signed.
  rewrite !approve_Ok.
  match goal with |- ?a /\ ?m <-> ?q /\ ?b /\ ?m => enough (a <-> q /\ b) by tauto end.
  pose proof (load_typed _ _ Hs) as Hst.
  set (kept := foldl (keep_others store action) ∅ GOVERNANCE_ACTIONS).
  change (approved_by_operator (FileText (GovernanceView.to_text kept)) k cm requested observed t = Ok tt <->
    k <> action /\ approved_by_operator (read path) k cm requested observed t = Ok tt).
  assert (forall j, kept !! j = if bool_decide (j <> action /\ j ∈ GOVERNANCE_ACTIONS) then store !! j else None)
    as Hk by (intros j; by apply kept_spec).
  rewrite granted_written, (granted_loaded _ _ _ _ _ _ _ Hs).
  - rewrite Hk. case_bool_decide as E; [tauto|]. split; [by intros (_ & _ & a & [=] & _)|].
    intros (Hne & Hin & _). destruct E. by split.
  - intros j x. rewrite Hk. case_bool_decide; [apply Hst|done].
Qed.

Ltac by_staging H :=
  match type of H with
  | stage_approval _ _ ?a = Ok ?pt => apply (stage_grants a pt); [| | | |exact H]
  end; cbn [ap_action ap_params_commitment ap_epoch ap_expiry_unix]; eauto using length_sha256.

(** C17: What an operator stages with the tool, his signer grants from the file it
    writes, through approve with its equivocation memory: exactly the commitment of the
    parameters given, for that action and epoch, until a day later, provided the signer
    has signed no other commitment for the action since it started; if it has, it
    refuses with AlreadySignedAnother (so a later rotation waits for a restart).
    Whatever was granted for another action before is granted as before. And revoking an
    action withdraws that action's grant and no other. *)
Theorem staged_proposal_is_granted :
  (forall pt, approve_rotation args read now = Ok pt -> exists epoch threshold validators,
     number_arg args U64_MAX "--epoch" = Ok epoch /\ number_arg args U8_MAX "--threshold" = Ok threshold /\
     validators_arg args = Ok validators /\
     grants_exactly pt ACTION_PROPOSE_ROTATION (sha256 (rotation_params threshold validators)) epoch) /\
  (forall pt, approve_tvl_raise args read now = Ok pt -> exists epoch new_max,
     number_arg args U64_MAX "--epoch" = Ok epoch /\ number_arg args U64_MAX "--new-max" = Ok new_max /\
     grants_exactly pt ACTION_PROPOSE_TVL_RAISE (sha256 (tvl_raise_params new_max)) epoch) /\
  (forall pt, approve_cancel args read now = Ok pt -> exists epoch action eta,
     number_arg args U64_MAX "--epoch" = Ok epoch /\ number_arg args U8_MAX "--pending-action" = Ok action /\
     i64_arg args "--pending-eta" = Ok eta /\
     grants_exactly pt ACTION_CANCEL_ROTATION (sha256 (cancel_params action eta)) epoch) /\
  (forall pt, revoke_approval args read = Ok pt -> exists action, number_arg args U8_MAX "--action" = Ok action /\
     forall action' cm requested observed t (signed : Signed),
       (approve (FileText pt.2) action' cm requested observed t signed).2 = Ok tt <->
       action' <> action /\ (approve (read pt.1) action' cm requested observed t signed).2 = Ok tt).
Proof using Hnow.
  assert (forall name n, number_arg args U64_MAX name = Ok n -> 0 <= n <= U64_MAX) as Hu64.
  { intros name n (s & _ & H%ok_or_Ok)%bind_Ok. by eapply parse_unsigned_range. }
  split_and!.
  - intros pt. unfold approve_rotation. intros (epoch & He & H)%bind_Ok. apply bind_Ok in H as (t & Ht & H).
    apply bind_Ok in H as (vs & Hvs & H). apply bind_Ok in H as (u & _ & H). apply bind_Ok in H as (note & _ & H).
    exists epoch, t, vs. split_and!; [done..|]. by_staging H.
    by left.
  - intros pt. unfold approve_tvl_raise. intros (epoch & He & H)%bind_Ok. apply bind_Ok in H as (m & Hm & H).
    apply bind_Ok in H as (u & _ & H). apply bind_Ok in H as (note & _ & H).
    exists epoch, m. split_and!; [done..|]. by_staging H.
    by do 2 right; left.
  - intros pt. unfold approve_cancel. intros (epoch & He & H)%bind_Ok. apply bind_Ok in H as (a & Ha & H).
    apply bind_Ok in H as (eta & Heta & H). apply bind_Ok in H as (note & _ & H).
    exists epoch, a, eta. split_and!; [done..|]. by_staging H.
    by right; left.
  - intros pt. by apply revoked.
Qed.
End staged.

(** ** A payout given other signers *)

Section reassigned.
Context `{Sh : Sha2, Rm : Ripemd160}.

(** What is left of the payout: everything but its designation. *)
Definition redesignated (p p' : WithdrawalDb.PayoutRow) (q cm intent : list byte) (unsigned : str) (next : Z) : Prop :=
  let t := WithdrawalDb.p_terms p in
  WithdrawalDb.p_terms p' =
    {| WithdrawalDb.t_vault_script_hash := WithdrawalDb.t_vault_script_hash t; WithdrawalDb.t_quorum_indices := q;
       WithdrawalDb.t_quorum_attempt := next; WithdrawalDb.t_commitment_hash := cm; WithdrawalDb.t_intent_bytes := intent;
       WithdrawalDb.t_fee := WithdrawalDb.t_fee t; WithdrawalDb.t_payout := WithdrawalDb.t_payout t;
       WithdrawalDb.t_change := WithdrawalDb.t_change t; WithdrawalDb.t_change_address := WithdrawalDb.t_change_address t;
       WithdrawalDb.t_unsigned_tx_hex := unsigned; WithdrawalDb.t_built_at := WithdrawalDb.t_built_at t |} /\
  WithdrawalDb.p_completed_at p' = WithdrawalDb.p_completed_at p /\
  WithdrawalDb.p_confirmations p' = WithdrawalDb.p_confirmations p /\
  WithdrawalDb.p_signed_tx_hex p' = WithdrawalDb.p_signed_tx_hex p.

Lemma reassign_result index q cm intent unsigned reason now d d' next :
  WithdrawalDb.reassign_payout_quorum index q cm intent unsigned reason now d = (d', Ok next) ->
  exists p p', WithdrawalDb.withdrawal_payouts d !! index = Some p /\
    WithdrawalDb.withdrawal_payouts d' !! index = Some p' /\
    redesignated p p' q cm intent unsigned next /\
    next = WithdrawalDb.t_quorum_attempt (WithdrawalDb.p_terms p) + 1 /\ next <= U32_MAX /\
    WithdrawalDb.withdrawal_requests d' = WithdrawalDb.withdrawal_requests d /\
    WithdrawalDb.withdrawal_payout_inputs d' = WithdrawalDb.withdrawal_payout_inputs d /\
    WithdrawalDb.vault_utxos d' = WithdrawalDb.vault_utxos d.
Proof.
  unfold WithdrawalDb.reassign_payout_quorum. destruct (is_blank reason); [done|].
  destruct (WithdrawalDb.withdrawal_payouts d !! index) as [p|] eqn:Ep; [|done].
  case_bool_decide; [done|]. destruct (Z.ltb_spec U32_MAX (WithdrawalDb.t_quorum_attempt (WithdrawalDb.p_terms p) + 1)); [done|].
  case_bool_decide; [done|]. intros [= <- <-]. eexists p, _.
  cbn [WithdrawalDb.put_payouts WithdrawalDb.add_log WithdrawalDb.update_payout WithdrawalDb.add_history WithdrawalDb.withdrawal_payouts
       WithdrawalDb.withdrawal_requests WithdrawalDb.withdrawal_payout_inputs WithdrawalDb.vault_utxos].
  rewrite lookup_alter_eq, Ep. split; [done|]. split; [reflexivity|]. split_and!; try done; try lia.
Qed.

(** Two intents of one payout agree when their vault and change hashes do. *)
Lemma intent_hashes v i vault vault' h pay fee change ch ch' a q us :
  length vault = length vault' -> length ch = length ch' ->
  WithdrawalDb.canonical_payout_intent v i vault h pay fee change ch a q us =
  WithdrawalDb.canonical_payout_intent v i vault' h pay fee change ch' a q us <-> vault = vault' /\ ch = ch'.
Proof.
  intros Hv Hc. split; [|by intros [-> ->]]. unfold WithdrawalDb.canonical_payout_intent.
  intros H%app_inv_head%app_inv_head%app_inv_head. apply app_inj_1 in H as [-> H]; [|done].
  apply app_inv_head in H. do 3 apply app_inv_head in H. by apply app_inj_1 in H as [-> _].
Qed.

Lemma change_hash_length index t h : WithdrawalDb.change_hash160_of index t = Ok h -> length h = 20%nat.
Proof.
  unfold WithdrawalDb.change_hash160_of. destruct (WithdrawalDb.t_change_address t) as [a|]; [|by intros [= <-]].
  intros ([v x] & Hx & [= <-])%map_err_Ok%bind_Ok. by apply Address.base58check_iff in Hx as (_ & ? & _).
Qed.

(** The guard's conditions, once the designation is replaced by a consistent one. *)
Lemma guard_redesignated index d d' w p p' s q intent unsigned next :
  WithdrawalDbProps.payout_ready index d w p s ->
  WithdrawalDb.withdrawal_payouts d' !! index = Some p' ->
  redesignated p p' q (WithdrawalDb.payout_commitment intent) intent unsigned next ->
  WithdrawalDb.withdrawal_requests d' = WithdrawalDb.withdrawal_requests d ->
  WithdrawalDb.withdrawal_payout_inputs d' = WithdrawalDb.withdrawal_payout_inputs d ->
  WithdrawalDb.vault_utxos d' = WithdrawalDb.vault_utxos d ->
  forall at_ s', WithdrawalDb.verify_and_load_signable_payout index at_ d' = (d', Ok s') <->
    s' = WithdrawalDb.signable index w (WithdrawalDb.p_terms p') (WithdrawalDb.s_inputs s) intent /\
    exists h, WithdrawalDb.change_hash160_of index (WithdrawalDb.p_terms p) = Ok h /\
      WithdrawalDb.recomputed_intent index w (WithdrawalDb.p_terms p') h (WithdrawalDb.s_inputs s) = intent.
Proof.
  intros [Hw Hp Hopen [Hne Hin] _ _ Ham _] Hp' (Ht & Hc & Hf & Hs) Hrq Hpi Hvu at_ s'.
  assert (WithdrawalDb.committed_inputs index d' = WithdrawalDb.committed_inputs index d) as Hci
    by (unfold WithdrawalDb.committed_inputs; by rewrite Hpi).
  assert (forall c u, WithdrawalDbProps.input_live index d' c u <-> WithdrawalDbProps.input_live index d c u) as Hlive
    by (intros c u; unfold WithdrawalDbProps.input_live; by rewrite Hvu).
  assert (WithdrawalDb.change_hash160_of index (WithdrawalDb.p_terms p') =
          WithdrawalDb.change_hash160_of index (WithdrawalDb.p_terms p)) as Hch
    by (unfold WithdrawalDb.change_hash160_of; by rewrite Ht).
  rewrite WithdrawalDbProps.verify_Ok. split.
  - intros (_ & w2 & p2 & [Hw2 Hp2 _ [_ Hin2] _ (h & Hh & Hint) _ Hres]).
    rewrite Hrq in Hw2. simplify_eq. rewrite Hci in Hin2.
    assert (WithdrawalDb.s_inputs s' = WithdrawalDb.s_inputs s) as Hsi.
    { apply OfflineAuditProps.live_inputs in Hin as [_ ->]. rewrite <- Hci in Hin2. apply OfflineAuditProps.live_inputs in Hin2 as [_ ->].
      unfold WithdrawalDb.payout_inputs. by rewrite Hci, Hvu. }
    rewrite Hsi in Hres, Hint. rewrite Ht in Hint at 2. cbn in Hint. rewrite Hres at 1.
    split; [by rewrite Ht at 2|]. exists h. by rewrite <- Hch.
  - intros (-> & h & Hh & Hint). split; [done|]. exists w, p'.
    constructor; cbn [WithdrawalDb.signable WithdrawalDb.s_inputs]; try done.
    + by rewrite Hrq.
    + by rewrite Hc, Hf, Hs.
    + split; [by rewrite Hci|]. rewrite Hci. eapply Forall2_impl; [exact Hin|]. intros c u. apply Hlive.
    + by rewrite Ht.
    + exists h. rewrite Hch. split; [done|]. by rewrite Hint, Ht.
    + by rewrite Ht.
    + f_equal. by rewrite Ht.
Qed.

Lemma script_hash160_length v : vault_wf v -> length (script_hash160 v) = 20%nat.
Proof. intros [_ _ ->]. apply length_ripemd160. Qed.

Lemma withdrawal_config_wf env cfg :
  withdrawal_config_from_env env = Ok cfg -> WithdrawalConfig.config_wf cfg.
Proof.
  unfold withdrawal_config_from_env. intros H.
  repeat match goal with H : mbind _ _ = Ok _ |- _ => apply bind_Ok in H as (? & _ & H) end.
  by apply map_err_Ok, WithdrawalConfig.validate_wf in H.
Qed.

(** C18: When the tool gives a signable payout other signers, its attempt goes up by
    one, its amounts, destination, inputs and unsigned transaction stay, the new quorum
    is a valid one of the configured vault, and the pre-signing guard releases it again
    exactly when the payout was built for the vault and the change address the tool is
    configured with; otherwise no signer will sign it. *)
Theorem reassigned_payout_is_signable args env now d d' next index cfg p s at_ at_' :
  WithdrawalDb.verify_and_load_signable_payout index at_ d = (d, Ok s) ->
  WithdrawalDb.withdrawal_payouts d !! index = Some p ->
  length (WithdrawalDb.t_vault_script_hash (WithdrawalDb.p_terms p)) = 20%nat ->
  0 <= WithdrawalDb.t_quorum_attempt (WithdrawalDb.p_terms p) ->
  i64_arg args "--index" = Ok index -> withdrawal_config_from_env env = Ok cfg ->
  reassign_quorum args env now d = (d', Ok next) ->
  let t := WithdrawalDb.p_terms p in
  next = WithdrawalDb.t_quorum_attempt t + 1 /\
  exists q, quorum_arg args = Ok q /\ validate_quorum (WithdrawalConfig.vault cfg) q = Ok tt /\
    ((exists s', WithdrawalDb.verify_and_load_signable_payout index at_' d' = (d', Ok s')) <->
     WithdrawalDb.t_vault_script_hash t = script_hash160 (WithdrawalConfig.vault cfg) /\
     WithdrawalDb.change_hash160_of index t =
       Ok (if 0 <? WithdrawalDb.t_change t then WithdrawalConfig.change_hash160 cfg else replicate 20 x00)) /\
    (forall s', WithdrawalDb.verify_and_load_signable_payout index at_' d' = (d', Ok s') ->
       WithdrawalDb.s_quorum_indices s' = q /\ WithdrawalDb.s_quorum_attempt s' = next /\
       WithdrawalDb.s_unsigned_tx_hex s' = WithdrawalDb.s_unsigned_tx_hex s /\
       WithdrawalDb.s_inputs s' = WithdrawalDb.s_inputs s /\ WithdrawalDb.s_hash160 s' = WithdrawalDb.s_hash160 s /\
       (WithdrawalDb.s_payout s', WithdrawalDb.s_fee s', WithdrawalDb.s_change s') =
       (WithdrawalDb.s_payout s, WithdrawalDb.s_fee s, WithdrawalDb.s_change s)).
Proof.
  intros Hg Hp Hv20 Ha Hidx Hcfg Hr t. apply WithdrawalDbProps.verify_Ok in Hg as (_ & w & p0 & Hready).
  pose proof (WithdrawalDbProps.pr_payout _ _ _ _ _ Hready) as Hp0. assert (p0 = p) as -> by congruence.
  pose proof (WithdrawalDbProps.pr_request _ _ _ _ _ Hready) as Hw.
  unfold reassign_quorum in Hr. destruct (reassignment args env d) as [[[[[index0 q] intent] unsigned] note]|e] eqn:Er; [|done].
  destruct (WithdrawalDb.reassign_payout_quorum _ _ _ _ _ _ _ _) as [d1 r] eqn:Ex. injection Hr as <- Hr. apply map_err_Ok in Hr. subst r.
  apply reassign_result in Ex as (p1 & p' & Hp1 & Hp' & Hre & Hnext & Hmax & Hrq & Hpi & Hvu).
  unfold reassignment in Er. rewrite Hcfg in Er. cbn [mbind result_bind] in Er.
  apply bind_Ok in Er as (dbp & _ & Er). rewrite Hidx in Er. cbn [mbind result_bind] in Er.
  apply bind_Ok in Er as (n & _ & Er). apply bind_Ok in Er as (q0 & Hq & Er). apply bind_Ok in Er as ([] & Hval%map_err_Ok & Er).
  unfold WithdrawalDb.get_payout, WithdrawalDb.get_withdrawal in Er. rewrite Hp in Er. cbn [ok_or mbind result_bind] in Er.
  apply bind_Ok in Er as ([] & _ & Er). rewrite Hw in Er. cbn [ok_or mbind result_bind] in Er.
  injection Er as <- <- Hint <- <-. assert (p1 = p) as -> by congruence. fold t in Hnext, Hint.
  split; [done|]. exists q0. split; [done|]. split; [done|].
  pose proof (withdrawal_config_wf _ _ Hcfg) as [Hvw _ [_ Hch] _ _ _].
  assert (WithdrawalDb.payout_inputs index d = WithdrawalDb.s_inputs s) as Hin
    by (destruct (WithdrawalDbProps.pr_inputs _ _ _ _ _ Hready) as [_ [_ ->]%OfflineAuditProps.live_inputs]; done).
  set (expected := if 0 <? WithdrawalDb.t_change t then _ else _) in *.
  assert (length expected = 20%nat) as Hlen
    by (subst expected; rewrite Hch; destruct (0 <? _); [by apply script_hash160_length|reflexivity]).
  assert (forall h, length h = 20%nat ->
    WithdrawalDb.recomputed_intent index w (WithdrawalDb.p_terms p') h (WithdrawalDb.s_inputs s) = intent <->
    WithdrawalDb.t_vault_script_hash t = script_hash160 (WithdrawalConfig.vault cfg) /\ h = expected) as Hiff.
  { intros h Hh. destruct Hre as (-> & _). rewrite <- Hint, Hin.
    replace (as_u32 _) with next by (subst next t; unfold as_u32, U32_MAX in *; rewrite Z.mod_small by lia; done).
    unfold WithdrawalDb.recomputed_intent. cbn. fold t. apply intent_hashes; [|congruence].
    transitivity 20%nat; [exact Hv20|]. symmetry. by apply script_hash160_length. }
  pose proof (guard_redesignated _ _ _ _ _ _ _ _ _ _ _ Hready Hp' Hre Hrq Hpi Hvu at_') as Hguard. split.
  - split.
    + intros (s' & (_ & h & Hh & Hi)%Hguard). apply Hiff in Hi as [? ->]; [done|]. by eapply change_hash_length.
    + intros [? ?]. eexists. apply Hguard. split; [reflexivity|]. exists expected. split; [done|]. by apply Hiff.
  - intros s' (-> & _)%Hguard. destruct Hre as (-> & _).
    rewrite (WithdrawalDbProps.pr_result _ _ _ _ _ Hready). done.
Qed.
End reassigned.

(** ** The tool at work *)

Section sample.
#[local] Existing Instance toy_sha2.
#[local] Existing Instance toy_ripemd.
#[local] Existing Instance toy_solana.
#[local] Existing Instance FederationProps.toy_ed.
#[local] Existing Instance Configuration.toy_pubkey_text.

Definition options (l : list (String.string * str)) : list str := concat ((fun p => [lit p.1; p.2]) <$> l).
Definition comma_keys (ks : list Z) : str :=
  mjoin ((fun k => Configuration.identity_of k ++ lit ",") <$> ks).

Definition rotation_args : list str :=
  options [("--approvals"%string, lit "approvals"); ("--epoch"%string, lit "0"); ("--threshold"%string, lit "2");
           ("--validators"%string, comma_keys [32; 33; 34]); ("--note"%string, lit "rotate key 31 out")].
Definition admin_env (name : str) : option str :=
  if bool_decide (name = lit "GLC_PROGRAM_ID_HEX") then Some (encode crate_ID) else Configuration.demo_env name.

Definition no_approvals (path : str) : FileRead := FileNotFound.

(** Staged at 1000 under epoch 0, granted until 87400. *)
Lemma staged_proposal_is_granted_witness :
  exists pt, approve_rotation rotation_args no_approvals 1000 = Ok pt /\
    (approve (FileText pt.2) ACTION_PROPOSE_ROTATION
      (sha256 (rotation_params 2 Scenario.demo_validators')) 0 0 87399 ∅).2 = Ok tt /\
    (approve (FileText pt.2) ACTION_PROPOSE_ROTATION
      (sha256 (rotation_params 2 Scenario.demo_validators')) 0 0 87399 {[ACTION_PROPOSE_ROTATION := []]}).2 =
      Err (GovernanceView.Refused (AlreadySignedAnother ACTION_PROPOSE_ROTATION)).
Proof.
  destruct (approve_rotation rotation_args no_approvals 1000) as [pt|e] eqn:E; [|vm_compute in E; discriminate E].
  exists pt. split; [done|].
  assert (I64_MIN <= 1000 + APPROVAL_TTL_SECONDS <= I64_MAX) as Hnow by (split; by vm_compute).
  destruct (staged_proposal_is_granted rotation_args no_approvals 1000 Hnow) as (H & _).
  destruct (H pt E) as (epoch & t & vs & He & Ht & Hvs & Hg). vm_compute in He, Ht.
  injection He as <-. injection Ht as <-.
  assert (validators_arg rotation_args = Ok Scenario.demo_validators') as Hv by (vm_compute; reflexivity).
  rewrite Hv in Hvs. injection Hvs as <-. destruct Hg as (_ & Hg & Hr & _). split.
  - apply Hg. split_and!; [reflexivity|reflexivity|reflexivity|vm_compute; congruence|].
    intros prev Hp. rewrite lookup_empty in Hp. discriminate Hp.
  - assert (sha256 (rotation_params 2 Scenario.demo_validators') <> []) as Hne.
    { intros H0%(f_equal length). rewrite length_sha256 in H0. discriminate H0. }
    assert (({[ACTION_PROPOSE_ROTATION := []]} : Signed) !! ACTION_PROPOSE_ROTATION = Some []) as Hs by reflexivity.
    refine (f_equal snd (Hr 87399 _ [] _ Hs _)); [vm_compute; congruence|]. intros H0. exact (Hne (eq_sym H0)).
Defined.

(** *** A payout of the configured vault, given to signers 1 and 2 *)

Definition vault_payout_intent : list byte :=
  WithdrawalDb.canonical_payout_intent 1 1 (script_hash160 demo_vault) (replicate 20 xaa) 500 20 0 (replicate 20 x00)
    0 [x00; x02] [WithdrawalDbProps.demo_utxo 1].
Definition vault_payout_terms : WithdrawalDb.PayoutTerms :=
  {| WithdrawalDb.t_vault_script_hash := script_hash160 demo_vault; WithdrawalDb.t_quorum_indices := [x00; x02];
     WithdrawalDb.t_quorum_attempt := 0; WithdrawalDb.t_commitment_hash := WithdrawalDb.payout_commitment vault_payout_intent;
     WithdrawalDb.t_intent_bytes := vault_payout_intent; WithdrawalDb.t_fee := 20; WithdrawalDb.t_payout := 500;
     WithdrawalDb.t_change := 0; WithdrawalDb.t_change_address := None;
     WithdrawalDb.t_unsigned_tx_hex := lit "0100"; WithdrawalDb.t_built_at := 1100 |}.
Definition vault_payout : WithdrawalDb.Tables :=
  WithdrawalDb.update_payout WithdrawalDbProps.demo_1 1 (fun _ => WithdrawalDb.new_row vault_payout_terms).
Definition reassign_args : list str :=
  options [("--db"%string, lit "bridge.db"); ("--index"%string, lit "1"); ("--quorum"%string, lit "1, 2");
           ("--note"%string, lit "signer 0 is down")].

Lemma reassigned_payout_is_signable_witness :
  exists s, WithdrawalDb.verify_and_load_signable_payout 1 1300 (reassign_quorum reassign_args admin_env 1200 vault_payout).1 =
    ((reassign_quorum reassign_args admin_env 1200 vault_payout).1, Ok s) /\
    WithdrawalDb.s_quorum_indices s = [x01; x02] /\ WithdrawalDb.s_quorum_attempt s = 1.
Proof.
  destruct (withdrawal_config_from_env admin_env) as [cfg|e] eqn:Ec; [|vm_compute in Ec; discriminate Ec].
  destruct (WithdrawalDb.verify_and_load_signable_payout 1 1200 vault_payout) as [d r] eqn:Ev.
  destruct r as [s|e]; [|vm_compute in Ev; discriminate Ev].
  assert (d = vault_payout) as -> by (pose proof Ev as Hv; apply WithdrawalDbProps.verify_Ok in Hv as [-> _]; reflexivity).
  destruct (reassign_quorum reassign_args admin_env 1200 vault_payout) as [d' r] eqn:Er.
  destruct r as [next|e]; [|vm_compute in Er; discriminate Er].
  destruct (reassigned_payout_is_signable reassign_args admin_env 1200 vault_payout d' next 1 cfg
    (WithdrawalDb.new_row vault_payout_terms) s 1200 1300) as (-> & q & Hq & _ & (_ & Hsig) & Hterms).
  - exact Ev.
  - vm_compute. reflexivity.
  - vm_compute. reflexivity.
  - cbn. lia.
  - vm_compute. reflexivity.
  - exact Ec.
  - exact Er.
  - assert (Ok (script_hash160 (WithdrawalConfig.vault cfg)) = Ok (E := AdminError) (script_hash160 demo_vault)) as Hv.
    { change ((fun c => script_hash160 (WithdrawalConfig.vault c)) <$> Ok (E := AdminError) cfg = Ok (E := AdminError) (script_hash160 demo_vault)).
      rewrite <- Ec. vm_compute. reflexivity. }
    injection Hv as Hv. destruct Hsig as [s' Hs'].
    { rewrite Hv. split; reflexivity. }
    exists s'. destruct (Hterms s' Hs') as (-> & -> & _). split; [exact Hs'|].
    split; [|reflexivity]. vm_compute in Hq. injection Hq as <-. reflexivity.
Defined.

(** The output of [demo_1] is reserved, so a sweep leaves it; the tool's count
    of such outputs is zero. *)
Example reserved_output_is_not_counted cfg :
  WithdrawalDb.available_utxos 0 WithdrawalDbProps.demo_1 = [] /\
  (WithdrawalDb.r_state <$> (map_to_list (WithdrawalDb.vault_utxos WithdrawalDbProps.demo_1)).*2) = [WithdrawalDb.Reserved] /\
  reserved_outputs cfg WithdrawalDbProps.demo_1 = 0.
Proof. split_and!; by vm_compute. Qed.

(** *** A rotation, collected from two operators and sent *)

Definition bridge_node : SolanaRpc Z :=
  {| get_account k o :=
       (o, Ok (if bool_decide (k = (bridge_config_pda crate_ID).1) then
                 Some {| acc_owner := crate_ID; acc_data := account_data (zeros 8) (config_fields Governance.demo_config_3) [] |}
               else if bool_decide (k = (validator_set_pda crate_ID).1) then
                 Some {| acc_owner := crate_ID; acc_data := account_data (zeros 8) (set_fields Safety.demo_set_0) [] |}
               else None));
     get_latest_blockhash o := (o, Ok (zeros 32));
     send_transaction _ o := (o, Ok (lit "signature"));
     get_program_accounts_sized _ _ _ o := (o, Ok []) |}.

(** The signers of [FederationProps], who grant what they are asked. *)
Definition governors : PeerNetwork Z :=
  let net := FederationProps.demo_net 1 1 in
  {| Endpoint := str; Client := str;
     from_shared := @from_shared Z net; tls_config := @tls_config Z net; connect_endpoint := @connect_endpoint Z net;
     call_sign := @call_sign Z net; call_sign_payout := @call_sign_payout Z net;
     call_sign_completion := @call_sign_completion Z net;
     call_sign_governance l u req o :=
       (o + 1, FederationProps.answer_sign
          (governance_message 1 crate_ID (SignerService.gr_epoch req) (SignerService.gr_action req)
             (SignerService.gr_params_commitment req)) u);
     call_sign_sweep := @call_sign_sweep Z net; instant_now := @instant_now Z net;
     system_nanos := @system_nanos Z net; unix_now := @unix_now Z net |}.

Definition any_keypair (path : str) : option Pubkey := Some (Scenario.key 60).

Definition rotation_sent : list SolanaTransaction :=
  sent_of (submit_rotation (N := logging_rpc bridge_node) (Nw := logging_net governors) rotation_args admin_env any_keypair
             Configuration.no_files (0, [])).1.2.

Lemma bridge_node_serves :
  serves bridge_node (Scenario.demo_state 5) Governance.demo_config_3 Safety.demo_set_0 (zeros 8) [].
Proof.
  constructor; intros o r H; vm_compute in H; injection H as <-; [vm_compute; reflexivity..|].
  change (Program.pending_action (Scenario.demo_state 5)) with (@None PendingGovernanceAction). intros a [=].
Qed.

Lemma operator_configured :
  configured admin_env Configuration.no_files Governance.demo_config_3 Safety.demo_set_0.
Proof.
  constructor.
  - vm_compute. reflexivity.
  - vm_compute. reflexivity.
  - intros C HC. vm_compute in HC. injection HC as <-. cbn [peers]. repeat constructor; apply bool_decide_unpack; vm_compute; exact I.
Qed.

Lemma sent_governance_is_accepted_witness :
  exists tx proof ix, rotation_sent = [tx] /\ tx_instructions tx = [proof; ix] /\
    Program.exec (Scenario.at_time 1005 (Some (as_instruction proof)))
      (Program.ProposeValidatorRotation 250 Scenario.demo_validators' 2) (Scenario.demo_state 5) =
    Ok (Program.put_pending (Scenario.demo_state 5)
          (Some (Handlers.rotation_action 1105 250 Scenario.demo_validators' 2 Safety.demo_set_0)),
        [GovernanceActionProposed ACTION_PROPOSE_ROTATION 0 1105 2 3]).
Proof.
  destruct (@sent_governance_is_accepted _ _ _ _ ledger toy_runtime Z bridge_node governors rotation_args admin_env any_keypair
    Configuration.no_files (Scenario.demo_labels 5) (Scenario.demo_state 5) Governance.demo_config_3 Safety.demo_set_0
    (zeros 8) []) with (bump := 250) as (Hr & _).
  - apply Scenario.demo_reachable. lia.
  - vm_compute. reflexivity.
  - vm_compute. reflexivity.
  - reflexivity.
  - unfold config_typed. repeat split; vm_compute; congruence.
  - unfold set_typed. repeat split; try (vm_compute; congruence). repeat constructor.
  - intros q Hq. vm_compute in Hq. discriminate Hq.
  - exact bridge_node_serves.
  - exact operator_configured.
  - intros d. reflexivity.
  - destruct (Hr (0, [])) as [H|(tx & Htx & vs & t & Hvs & Ht & proof & ix & Hixs & _ & _ & Hx)].
    + vm_compute in H. discriminate H.
    + exists tx, proof, ix. split; [exact Htx|]. split; [exact Hixs|]. vm_compute in Hvs, Ht.
      injection Hvs as <-. injection Ht as <-. apply Hx; [reflexivity| |reflexivity].
      unfold Validation.valid_validator_set. repeat split; try (vm_compute; congruence).
      all: try (apply (bool_decide_unpack _); vm_compute; exact I).
Defined.
End sample.
